(* ===== verification/_CoqProject ===== *)
-Q . S2P
Prelude.v
JsTime.v
TextFacts.v
Json.v
Manifest.v
Pattern.v
Update.v
Selection.v
Tasks.v
SelectionSamples.v
SelectionFacts.v
TasksFacts.v
Sizing.v
Score.v
Targets.v
OrderRules.v
OrderRulesFacts.v
OrderDoor.v
OrderDoorFacts.v
OrderRights.v
OrderSite.v
OrderSiteFacts.v
JsonText.v
JsonFacts.v
Bytes.v
WebAuthn.v
CborFacts.v
WebAuthnFacts.v
JobToken.v
JobTokenFacts.v
HostCapacity.v
HostKeys.v
HostReport.v
OwnerDoc.v
OwnerDocFacts.v
HostFacts.v
HostRights.v
HostDoor.v
HostStops.v
HostPins.v
HostOrders.v
HostDoorFacts.v
HostRunFacts.v
HostOrderFacts.v
Rings.v
RingsFacts.v
PullFacts.v
RetentionFacts.v
DiffFacts.v
Governance.v
GovernanceFacts.v
Review.v
ReviewDoors.v
Blocks.v
Delivery.v
Projects.v
Contributors.v
Requests.v
ReviewFacts.v
ReviewTables.v
ProjectFacts.v
RequestFacts.v
ReviewRuns.v
ReviewRunFacts.v
RequestRuns.v
RequestRules.v
ReviewSamples.v
RequestSamples.v
ReviewRuleFacts.v
ReviewBackFacts.v
Program.v
Accounts.v
Grants.v
Passkeys.v
Drafts.v
AccountRuns.v
AccountTables.v
PasskeyRules.v
GrantRules.v
AccountSamples.v
