(* ===== verification/Prelude.v ===== *)
(** * The pool's brain, verified

    omarchy-pool builds and publishes packages on machines its maintainers lend it. Its
    brain is one Cloudflare Worker (src/worker/src, TypeScript) over a D1 database: it keeps
    a queue of tasks, hands them to the workers that claim, watches the leases, gives the
    workers and their hosts orders, and checks every credential that reaches it. This
    library models that logic from its source and proves what makes it right.

    ** How the parts work together

    A host enrolls with a maintainer's one-time token, its owner confirms it, and its agent
    then signs every request (HostDoor). Its dispatcher claims: the release gate lets the
    claim in or asks for an update (Update), selection chooses among the queue's candidates
    for the units the host reports (Selection, HostCapacity), the lease statement takes the
    task under its own guard (Tasks), and the answer carries a job token that opens only that
    lease's routes (JobToken). What the claim says of its processes feeds the instance step
    and the pool's rules, which may order a restart (OrderRules, OrderSite) through the one
    table of orders (OrderDoor), as people do within their rights (OrderRights). People stop
    hosts and take them back, and give them host orders (HostStops, HostOrders), confirmed
    with passkeys (WebAuthn). People sign in with GitHub (Accounts), register passkeys and
    approve or block with them (Passkeys), and let an agent act for them within a grant
    (Grants): it drafts, and its person confirms (Drafts).

    ** The files, in order, and what they model

    - Prelude, JsTime, TextFacts: text, lists and options as the language has them; ISO 8601
      times both ways, ordered as text as they are as numbers; facts about text.
    - Json, JsonText, JsonFacts, Bytes, Pattern: JSON values, JSON.parse and JSON.stringify
      and their round trip; byte strings, base64 and UTF-8; the regular expressions tested.
    - Manifest: the signed constants (hosts.ts, first part).
    - Update: update.ts, every function.
    - Selection (data and operations), SelectionSamples, SelectionFacts: selection.ts.
    - Tasks, TasksFacts: build_tasks and the SQL statements over a lease (lease.ts,
      routes/factory.ts). A statement is a function of the table that is [None] when its
      WHERE refuses; a run is any sequence of them, with arguments read at any earlier time.
    - Sizing, Score, Targets: sizing.ts, score.ts, targets.ts.
    - OrderRules, OrderRulesFacts: orders.ts, what a claim says and what the rules decide.
    - OrderDoor, OrderDoorFacts: worker_orders, its unique indexes and every batch over it.
    - OrderRights: orderVerdicts, the one table of rights over workers.
    - OrderSite, OrderSiteFacts: the site, the fleet's breaker, afterClaim and autoOrder.
    - WebAuthn, CborFacts, WebAuthnFacts: webauthn.ts, every function.
    - JobToken, JobTokenFacts: jobtoken.ts, the doors of auth.ts a job token opens, the task's
      own routes in routes/factory.ts.
    - HostCapacity, HostKeys, HostReport, OwnerDoc with OwnerDocFacts and HostFacts: hosts.ts.
    - HostRights: hostVerdicts, the one table of rights over hosts (routes/hosts.ts).
    - HostDoor, HostStops, HostOrders, HostPins: the hosts' tables and every door over them
      (routes/hosts.ts; governance.ts, the hosts' step): the record HDB is the tables, each
      handler a function of what it read ([read]) and of the tables its batch finds.
    - HostDoorFacts, HostRunFacts, HostOrderFacts: runs of those doors, and what they keep.
    - Rings: a ring's releases (db.ts, routes/releases.ts, routes/gc.ts, blocks.ts' pull): a
      release made, read back and written out, its databases, retention and its sweep, the
      diff of two releases; RingsFacts (runs with stale reads), PullFacts, RetentionFacts,
      DiffFacts.
    - Governance, GovernanceFacts: governance.ts, the file's reader and the sync.
    - Review: what a review reads (routes/review.ts, routes/story.ts, staging.ts): the builds
      of a package, their chains, the page's facts and the decisions a person may take, over
      the record VDB of the tables. ReviewDoors: every decision and request a person or the
      brain makes on them. Each is a function of what it read (an earlier VDB, [read]) and of
      the tables its guarded batch finds; what it writes after that batch is a second step.
    - Blocks: blocks.ts and adopt.ts, and settleTargets of targets.ts where they use it.
    - Delivery: routes/factory.ts, a finished build or publish and a build queued again.
    - Projects, ProjectFacts: request.ts, and parseProjectUrl and detect of
      routes/contributors.ts: a project's address, what GitHub says of it, a request's checks.
    - Contributors: routes/contributors.ts, the table of rights and the name's rule. Requests:
      its doors - a package requested (its name reserved, its record written, its builds
      queued), built, dequeued, removed; a worker revoked - over CDB, which is VDB with the
      columns a review never reads: factory_packages' in [names], build_tasks' in [cols]. A
      request is two steps, the reservation and what follows the record in the bucket; so is
      a removal, the rings left and then its batch.
    - ReviewFacts (the rows' invariant, what each read finds), ReviewTables (what a handler may
      touch), ReviewRuns (the runs, with stale reads and open second steps), ReviewRunFacts
      (the runs' invariant and its theorems), ReviewSamples (states a run reaches),
      ReviewRuleFacts, ReviewBackFacts (who decides; withdrawals and blocks).
    - RequestFacts (what a contributor's door changes of a review's tables), RequestRuns (the
      runs of both, and a reserved name over them), RequestRules (the theorems),
      RequestSamples (a request followed through, and corners the code does not mean to reach).
    - Program: a handler as the statements it runs one after another ([prog]: each step reads
      the clock and the tables, changes them, and says how the handler goes on). [exec] gives
      the moments of its statements with anything in between, [steps] what each of them does,
      [wstep] any number of handlers at once, [solo] one alone.
    - Accounts (routes/auth.ts, and the account's doors of routes/contributors.ts), Grants
      (agents.ts and the grant's half of routes/agents.ts), Passkeys (routes/passkeys.ts),
      Drafts (the drafts' half of routes/agents.ts, and the web's approval and blocks with
      their passkey): each handler a [prog] over ADB, which is CDB with the account's tables.
      The review's and the blocks' handlers are the ones of ReviewDoors and Blocks, each of
      their two steps a statement here.
    - AccountRuns: [touch], the statements these handlers are made of, that they are made of
      nothing else, the runs, and what a statement does to each table. AccountTables: what the
      tables of keys and grants keep, and what an accepted answer went through. PasskeyRules
      (the passkey's guard, and a reset), GrantRules (an agent's reach), AccountSamples (an
      account followed through, and what a reset misses).

    ** What the theorems show

    - The queue: a host's leased units never exceed its count over any interleaving, what
      selection hands out the statement takes, a fenced lease never moves, a task is leased a
      bounded number of times, a listed lease is kept.
    - Selection: a choice fits the host, requesters' copies and publish-bound audits go where
      they may, the first task is the queue's first, the emulated share starves no lane, and
      placement agrees with the claim.
    - Orders: caps in every window, one hand-out and one final line per order, the open list
      is the table, the door and the INSERT agree; restarts a day and a site; no community
      spell holds the project.
    - Credentials: an assertion is accepted exactly when it is genuine, counters grow, keys
      read back; a job token reaches only its lease's routes, ended leases write nothing, and
      accepted claims were issued; an agent's words are one request, taken once.
    - Hosts: one token makes one host and one key; a host's status moves only by the acts of
      the people who may; a suspended host runs nothing until its Resume; orders close once;
      the owner's documents are their bytes and their versions only grow; a report that is
      taken is well formed.
    - Rings: a release reads back as it was made over every interleaving (but one: see the
      finding on a parent read before the number, RingsFacts.stale_parent_misreads), retention
      keeps the newest releases whole, and the diff folded from deltas is the lists' diff.
    - Governance: after a sync the people's rights are the file's, whatever was there before.
    - Reviews, over every interleaving of the doors with stale reads: one standing decision for
      an architecture, one claim of a build for rebuild, a publish job for each approval and
      none without a decision; nobody decides what they asked for unless the file says so; an
      approval covers every build of the version, a withdrawal takes the whole review back, a
      block leaves nothing of the package in flight or standing, a pulled package is in no ring.
    - Contributions: a run of their doors among the review's is a run of the review; a name
      reserved has one holder while its request is written (a run in which nothing frees or
      removes it meanwhile: RequestSamples shows why that is asked); nobody queues past the
      quota; a removal leaves no build, no ring and no registration behind; the form's live
      check and the door are one rule; a GitHub project and its sources read back as written;
      a request taken passes the checks it is shown by.
    - Accounts, over every interleaving of their doors: no approval and no block without the
      person's own passkey for that act, a draft decided once and by its person, a passkey
      vouched for by one the login still holds, a login shut out by a reset until it signs in
      again (with nothing in flight: AccountSamples shows why that is asked of grants and
      tokens; registrations need it not), caps of passkeys, challenges and
      grants, a code one token, an agent within its grant and its day's counts.
    - Update, sizing, targets, score: the revert's clock never restarts, learned sizes stay in
      their caps, an approved architecture is never shown unsupported, the score is of 100.

    ** Conventions, bounds and fuel

    Times are milliseconds since the epoch; a column of a time is the number its text parses
    to, since the pool writes them all with toISOString and their text orders as they do
    (JsTime). Numbers the code tests to be whole are Z; others are exact decimals or Q. D1 runs
    a batch in one transaction and batches one at a time: a batch is one step of a run. A row's
    unique keys are checked where the schema has them. Random draws (ids, nonces, tokens'
    hashes) are arguments. A statement of an account's door reads one clock, its own (the source
    takes Date.now() beside the statement and the database its own time in it). Loops have fuel that cannot run out, proved where it matters: CBOR
    has depth 16 and the bytes' length, JSON text its own length; a reader that would not end
    is the value [Spin], which no input gives.

    ** What is a parameter

    WebCrypto (classes Runtime, Mac, HostCrypto: digests, key imports, signatures), the TOML
    reader of sizing, the secret scanner findLeak, the passkey gate and the page's own gates of
    the doors (their answer is an argument, so that each theorem holds whatever they answer);
    the governance file's TOML as a reader; the size a retry asks for; new URL and fetch
    (class Web of Projects); the HMAC of a form's nonce (class Nonces of Grants), GitHub's answers
    to a sign-in and the limiters' (arguments of the handlers).
    Unforgeability is a named hypothesis of the one theorem that needs it.

    ** What is not modelled, and why

    A string is its bytes: lengths and classes agree with the source on ASCII text. Object keys
    that look like integers are not reordered; Date.parse reads ISO dates only. The words of
    refusals in the doors' answers and the journal's sentences are left out, their status, code
    and facts kept. Pages, listings and other reads change nothing and are left out, as is the
    router, the D1 and R2 wrappers and the cost counters. Of the rings, the render jobs a pull
    queues and the bytes in R2 are left out (the object keys are kept). Of the reviews, the words
    of notes and errors, the journal, the build records in R2 and the orders of a blocked
    contributor are left out (their grants are Drafts'); a delivery's lease is one test of its
    statement. Of the contributors' doors, the details, the journal, the queue positions, the
    record's bytes and the orders of a revoked worker (OrderSite has them) are left out; a
    field of GitHub's answer of another type than documented reads as absent; a task queued by
    hand has no recipe column. Of the accounts, a person's name, avatar and GitHub id, the pages
    and the evidence they show, an outcome's text, the journal's lines but the passkeys' and the
    cookies' attributes are left out; an agent's request for a package is the contributors' door (Requests). Not modelled: the
    claim's handler as one composition, the scheduler's calendar, the staging uploads.

    ** What could come next

    The claim as one handler over Selection, Tasks, OrderSite and JobToken; the other doors of
    the review as statements of [prog]; the scheduler's sweeps as one step. *)
From Stdlib Require Export Ascii.
From stdpp Require Export base option list strings gmap sorting.
From Stdlib Require Export ZArith Lia QArith Qround.
From Stdlib Require Import DecimalString DecimalZ.


(** Booleans drive the executable model: [Is_true] coercions are left to stdpp. *)
#[global] Unset Program Cases.
#[export] Set Default Goal Selector "!".

Declare Scope js_scope.
Delimit Scope js_scope with js.

(** ** Text

    A JavaScript string is modelled by stdpp's [string]; code units are bytes,
    so lengths agree with the program's on ASCII text. *)

Definition zstr (z : Z) : string := NilZero.string_of_int (Z.to_int z).

Definition is_space (c : ascii) : bool :=
  let n := N_of_ascii c in
  (N.eqb n 32 || (N.leb 9 n && N.leb n 13))%N.

Definition is_digit (c : ascii) : bool :=
  let n := N_of_ascii c in (N.leb 48 n && N.leb n 57)%N.

Definition is_upper (c : ascii) : bool :=
  let n := N_of_ascii c in (N.leb 65 n && N.leb n 90)%N.

Definition is_lower (c : ascii) : bool :=
  let n := N_of_ascii c in (N.leb 97 n && N.leb n 122)%N.

Definition is_hex_lower (c : ascii) : bool :=
  let n := N_of_ascii c in is_digit c || (N.leb 97 n && N.leb n 102)%N.

(** The value of a digit; anything else counts as its offset from ["0"], so
    callers test [is_digit] first. *)
Definition digit_val (c : ascii) : Z := Z.of_N (N_of_ascii c) - 48.

Fixpoint str_forallb (p : ascii -> bool) (s : string) : bool :=
  match s with
  | EmptyString => true
  | String c s' => p c && str_forallb p s'
  end.

Fixpoint trim_start (s : string) : string :=
  match s with
  | EmptyString => EmptyString
  | String c s' => if is_space c then trim_start s' else s
  end.

Fixpoint trim_end (s : string) : string :=
  match s with
  | EmptyString => EmptyString
  | String c s' =>
      match trim_end s' with
      | EmptyString => if is_space c then EmptyString else String c EmptyString
      | r => String c r
      end
  end.

(** [s.trim()] *)
Definition trim (s : string) : string := trim_end (trim_start s).

Definition lower_ascii (c : ascii) : ascii :=
  if is_upper c then ascii_of_N (N_of_ascii c + 32) else c.

Fixpoint to_lower (s : string) : string :=
  match s with
  | EmptyString => EmptyString
  | String c s' => String (lower_ascii c) (to_lower s')
  end.

(** [s.split(sep)] for a one-character separator. *)
Fixpoint split_on (sep : ascii) (s : string) : list string :=
  match s with
  | EmptyString => [EmptyString]
  | String c s' =>
      if Ascii.eqb c sep then EmptyString :: split_on sep s'
      else match split_on sep s' with
           | w :: ws => String c w :: ws
           | [] => [String c EmptyString]
           end
  end.

(** [l.join(sep)] *)
Fixpoint join (sep : string) (l : list string) : string :=
  match l with
  | [] => EmptyString
  | [x] => x
  | x :: l' => x +:+ sep +:+ join sep l'
  end.

(** [s.slice(0, n)] and [s.slice(n)] *)
Fixpoint str_take (n : nat) (s : string) : string :=
  match n, s with
  | S n', String c s' => String c (str_take n' s')
  | _, _ => EmptyString
  end.

Fixpoint str_drop (n : nat) (s : string) : string :=
  match n, s with
  | S n', String _ s' => str_drop n' s'
  | _, _ => s
  end.

Definition starts_with (p s : string) : bool := String.prefix p s.

Definition ends_with (p s : string) : bool :=
  (String.length p <=? String.length s)%nat &&
  (String.eqb (str_drop (String.length s - String.length p) s) p).

(** A decimal literal without sign: the value of a run of digits. *)
Fixpoint dec_acc (acc : Z) (s : string) : option Z :=
  match s with
  | EmptyString => Some acc
  | String c s' => if is_digit c then dec_acc (10 * acc + digit_val c) s' else None
  end.

(** [/^\d+$/] then [Number(s)]. *)
Definition dec (s : string) : option Z :=
  match s with EmptyString => None | _ => dec_acc 0 s end.

(** A string is truthy when it is not empty; a nullable one when it is there
    and not empty. *)
Definition truthy (s : string) : bool := negb (String.eqb s "").
Definition truthyo (s : option string) : bool :=
  match s with Some s => truthy s | None => false end.

(** [l.includes(x)] on strings. *)
Definition str_in (x : string) (l : list string) : bool := existsb (String.eqb x) l.

(** The order of JavaScript's [<] on strings. *)
Definition str_ltb (a b : string) : bool := String.ltb a b.

(** [Math.round] of a quotient. *)
Definition round_div (a b : Z) : Z := ((2 * a + b) / (2 * b))%Z.

(** Nullable strings compared with [===]. *)
Definition ostr_eqb (a b : option string) : bool :=
  match a, b with
  | Some x, Some y => String.eqb x y
  | None, None => true
  | _, _ => false
  end.

Definition oz_eqb (a b : option Z) : bool :=
  match a, b with
  | Some x, Some y => Z.eqb x y
  | None, None => true
  | _, _ => false
  end.

Lemma ostr_eqb_eq a b : ostr_eqb a b = true <-> a = b.
Proof.
  destruct a, b; simpl; rewrite ?String.eqb_eq; split; intros; congruence.
Qed.

Lemma oz_eqb_eq a b : oz_eqb a b = true <-> a = b.
Proof. destruct a, b; simpl; rewrite ?Z.eqb_eq; split; intros; congruence. Qed.

Lemma str_in_In x l : str_in x l = true <-> In x l.
Proof.
  unfold str_in. rewrite existsb_exists. split.
  - intros (y & Hin & ->%String.eqb_eq). done.
  - intros Hin. exists x. by rewrite String.eqb_refl.
Qed.

(** ** Sorting

    [Array.prototype.sort] with a comparator is a stable sort; insertion sort
    is the reference. *)
Section Sort.
Context {A : Type} (cmp : A -> A -> Z).

Fixpoint insert_by (x : A) (l : list A) : list A :=
  match l with
  | [] => [x]
  | y :: l' => if (cmp x y <=? 0)%Z then x :: l else y :: insert_by x l'
  end.

Definition sort_by (l : list A) : list A := foldr insert_by [] l.

Lemma insert_by_perm x l : insert_by x l ≡ₚ x :: l.
Proof.
  induction l as [|y l IH]; simpl; [done|].
  case_match; [done|]. rewrite IH. constructor.
Qed.

Lemma sort_by_perm l : sort_by l ≡ₚ l.
Proof.
  induction l as [|x l IH]; simpl; [done|].
  rewrite insert_by_perm. by constructor.
Qed.

Lemma sort_by_In x l : In x (sort_by l) <-> In x l.
Proof. by rewrite <- !list_elem_of_In, sort_by_perm. Qed.

Lemma sort_by_nil l : sort_by l = [] <-> l = [].
Proof.
  split; [|by intros ->]. intros H. apply Permutation_nil.
  rewrite <- H. by rewrite sort_by_perm.
Qed.

(** What a comparator must satisfy for the sort to order the list. *)
Class Comparator : Prop := {
  cmp_total x y : (cmp x y <= 0 \/ cmp y x <= 0)%Z;
  cmp_trans x y z : (cmp x y <= 0 -> cmp y z <= 0 -> cmp x z <= 0)%Z }.

Definition cmp_le (x y : A) : Prop := (cmp x y <= 0)%Z.

Context `{!Comparator}.

Lemma insert_by_sorted x l :
  StronglySorted cmp_le l -> StronglySorted cmp_le (insert_by x l).
Proof.
  induction 1 as [|y l Hs IH Hy]; simpl.
  { constructor; constructor. }
  destruct (Z.leb_spec (cmp x y) 0) as [Hle|Hgt].
  - constructor; [by constructor|]. constructor; [done|].
    eapply Forall_impl; [exact Hy|]. intros z Hz.
    by apply (cmp_trans x y z).
  - constructor; [done|]. rewrite insert_by_perm. constructor; [|done].
    unfold cmp_le. destruct (cmp_total x y) as [Hc|Hc]; lia.
Qed.

Lemma sort_by_sorted l : StronglySorted cmp_le (sort_by l).
Proof.
  induction l as [|x l IH]; simpl; [constructor|]. by apply insert_by_sorted.
Qed.

(** The head of a sorted list is below everything in the list. *)
Lemma sort_by_head l x r y :
  sort_by l = x :: r -> In y l -> (y = x \/ cmp x y <= 0)%Z.
Proof.
  intros Hs Hy. pose proof (sort_by_sorted l) as Hst. rewrite Hs in Hst.
  apply sort_by_In in Hy. rewrite Hs in Hy. destruct Hy as [->|Hy]; [by left|].
  right. inversion Hst as [|? ? _ Hall]; subst.
  rewrite List.Forall_forall in Hall. by apply Hall.
Qed.
End Sort.

(** ** Lists *)

(** [l.reduce((n, x) => n + f(x), 0)] *)
Definition zsum {A} (f : A -> Z) (l : list A) : Z := foldr (fun x n => f x + n)%Z 0%Z l.

Lemma zsum_nonneg {A} (f : A -> Z) l : (forall x, In x l -> 0 <= f x)%Z -> (0 <= zsum f l)%Z.
Proof.
  induction l as [|x l IH]; simpl; intros H; [lia|].
  pose proof (H x (or_introl eq_refl)).
  assert (0 <= zsum f l)%Z by (apply IH; intros; apply H; by right). lia.
Qed.

Lemma zsum_cons {A} (f : A -> Z) x l : zsum f (x :: l) = (f x + zsum f l)%Z.
Proof. done. Qed.

Lemma zsum_app {A} (f : A -> Z) l k : zsum f (l ++ k) = (zsum f l + zsum f k)%Z.
Proof. induction l as [|x l IH]; simpl; [done|]. rewrite IH. lia. Qed.

Lemma zsum_perm {A} (f : A -> Z) l k : l ≡ₚ k -> zsum f l = zsum f k.
Proof. induction 1; simpl; lia. Qed.

(** ** Sliding windows

    A counter that refuses what would pass [cap] in the last [len] keeps every
    window of that length under it, whatever the order of the times. *)
Section Windows.
Context {A : Type} (time : A -> Z) (len cap : Z) (p : A -> bool).

Definition zlen {B} (l : list B) : Z := Z.of_nat (length l).
Definition in_window (w : Z) (x : A) : bool := p x && (w <=? time x)%Z && (time x <? w + len)%Z.
Definition recent_of (now : Z) (x : A) : bool := p x && (now - time x <? len)%Z.
Definition windowed (l : list A) : Prop := forall w, (zlen (List.filter (in_window w) l) <= cap)%Z.

Lemma filter_le {B} (f g : B -> bool) (l : list B) :
  (forall x, In x l -> f x = true -> g x = true) -> (zlen (List.filter f l) <= zlen (List.filter g l))%Z.
Proof.
  unfold zlen. induction l as [|x l IH]; simpl; intros H; [lia|].
  pose proof (IH (fun y Hy => H y (or_intror Hy))) as IHl.
  pose proof (H x (or_introl eq_refl)) as Hx.
  destruct (f x); [rewrite (Hx eq_refl)|destruct (g x)]; simpl; lia.
Qed.

Lemma windowed_nil : (0 <= cap)%Z -> windowed [].
Proof. intros H w. done. Qed.

Lemma windowed_snoc l x :
  windowed l -> (p x = true -> (zlen (List.filter (recent_of (time x)) l) < cap)%Z) -> windowed (l ++ [x]).
Proof.
  intros Hl Hx w. specialize (Hl w). rewrite List.filter_app. unfold zlen in *. rewrite length_app. simpl.
  destruct (in_window w x) eqn:E; simpl; [|lia].
  unfold in_window in E. apply andb_true_iff in E as [E1 E3]. apply andb_true_iff in E1 as [E1 E2].
  specialize (Hx E1). apply Z.leb_le in E2. apply Z.ltb_lt in E3.
  assert (Hle : (zlen (List.filter (in_window w) l) <= zlen (List.filter (recent_of (time x)) l))%Z).
  { apply filter_le. intros y _. unfold in_window, recent_of. intros Hy.
    apply andb_true_iff in Hy as [Hy Hy3]. apply andb_true_iff in Hy as [-> Hy2].
    apply Z.leb_le in Hy2. simpl. apply Z.ltb_lt. lia. }
  unfold zlen in Hle. lia.
Qed.
End Windows.

(** [[...new Set(l)]]: the first occurrence of each string, in order. *)
Fixpoint dedup_acc (seen l : list string) : list string :=
  match l with
  | [] => []
  | x :: l' => if str_in x seen then dedup_acc seen l' else x :: dedup_acc (x :: seen) l'
  end.
Definition dedup (l : list string) : list string := dedup_acc [] l.

Lemma dedup_acc_In seen l x : In x (dedup_acc seen l) <-> In x l /\ ~ In x seen.
Proof.
  revert seen. induction l as [|y l IH]; intros seen; simpl; [tauto|].
  destruct (str_in y seen) eqn:E.
  - apply str_in_In in E. rewrite IH. split; [tauto|].
    intros [[->|Hl] Hn]; [done|tauto].
  - assert (~ In y seen) by (rewrite <- str_in_In; congruence).
    simpl. rewrite IH. simpl. split.
    + intros [->|[H1 H2]]; tauto.
    + intros [[->|H1] H2]; [tauto|]. destruct (decide (y = x)) as [->|]; tauto.
Qed.

Lemma dedup_In l x : In x (dedup l) <-> In x l.
Proof. unfold dedup. rewrite dedup_acc_In. simpl. tauto. Qed.

(** [Math.max(0, ...l)], and SQL's [COALESCE(MAX(x), 0)] over positive columns. *)
Lemma max_spec (l : list Z) : (forall x, In x l -> (x <= foldr Z.max 0%Z l)%Z) /\ (foldr Z.max 0%Z l = 0%Z \/ In (foldr Z.max 0%Z l) l).
Proof.
  induction l as [|a l [IH1 IH2]]; cbn; [by split; [|left]|]. split.
  - intros x [->|H]; [lia|]. specialize (IH1 _ H). lia.
  - destruct (Z.max_spec a (foldr Z.max 0%Z l)) as [[_ ->]|[_ ->]]; [|by right; left]. destruct IH2; [by left|right; by right].
Qed.

(** ** Automation *)

(** Turn the boolean tests of the model into propositions. *)
Ltac breflect :=
  repeat match goal with
  | H : _ && _ = true |- _ => apply andb_true_iff in H as [? ?]
  | H : _ || _ = false |- _ => apply orb_false_iff in H as [? ?]
  | H : negb _ = true |- _ => apply negb_true_iff in H
  | H : negb _ = false |- _ => apply negb_false_iff in H
  | H : (_ <? _)%Z = true |- _ => apply Z.ltb_lt in H
  | H : (_ <? _)%Z = false |- _ => apply Z.ltb_ge in H
  | H : (_ <=? _)%Z = true |- _ => apply Z.leb_le in H
  | H : (_ <=? _)%Z = false |- _ => apply Z.leb_gt in H
  | H : (_ =? _)%Z = true |- _ => apply Z.eqb_eq in H
  | H : (_ =? _)%Z = false |- _ => apply Z.eqb_neq in H
  | H : String.eqb _ _ = true |- _ => apply String.eqb_eq in H
  | H : String.eqb _ _ = false |- _ => apply String.eqb_neq in H
  | H : str_in _ _ = true |- _ => apply str_in_In in H
  | H : ostr_eqb _ _ = true |- _ => apply ostr_eqb_eq in H
  end.

(** Split every [match]/[if] of the goal and close what computes. *)
Ltac cases := repeat (case_match; try done; simplify_eq/=).

Create HintDb pool.
#[export] Hint Resolve sort_by_perm insert_by_perm zsum_nonneg : pool.
Create Rewrite HintDb pool.
#[export] Hint Rewrite @sort_by_In dedup_In str_in_In : pool.
