(* ===== verification/JsTime.v ===== *)
(** * Time as the program reads it

    The pool keeps times as ISO 8601 text ([new Date(t).toISOString()]) and
    compares them both as numbers ([Date.parse]) and as text (its SQL). This
    file gives both directions for the years 0 to 9999, UTC, and proves that
    they agree: parsing what was printed gives the time back, and the text
    orders as the times do. [Date.parse] is the ECMAScript date-time string
    format; text outside it is not a number here ([None]). *)
From S2P Require Import Prelude.
Local Open Scope Z_scope.

Definition MIN : Z := 60000.
Definition HOUR : Z := 60 * MIN.
Definition DAY : Z := 24 * HOUR.

(** ** Fixed-width decimals *)

Definition digit_char (v : Z) : ascii := ascii_of_N (Z.to_N (48 + v mod 10)).

(** [String(v).padStart(n, "0")] for [0 <= v < 10^n]. *)
Fixpoint pad (n : nat) (v : Z) : string :=
  match n with
  | O => EmptyString
  | S n' => String (digit_char (v / 10 ^ Z.of_nat n')) (pad n' v)
  end.

(** Exactly [n] digits, and what follows them. *)
Fixpoint read_acc (n : nat) (acc : Z) (s : string) : option (Z * string) :=
  match n with
  | O => Some (acc, s)
  | S n' => match s with
            | String c s' => if is_digit c then read_acc n' (10 * acc + digit_val c) s' else None
            | EmptyString => None
            end
  end.
Definition read (n : nat) (s : string) : option (Z * string) := read_acc n 0 s.

Definition lit (c : ascii) (s : string) : option string :=
  match s with
  | String c' s' => if Ascii.eqb c c' then Some s' else None
  | EmptyString => None
  end.

Lemma digit_char_cases v :
  is_digit (digit_char v) = true /\ digit_val (digit_char v) = v mod 10
  /\ N_of_ascii (digit_char v) = Z.to_N (48 + v mod 10).
Proof.
  unfold digit_char. pose proof (Z.mod_pos_bound v 10 ltac:(lia)) as Hb.
  remember (v mod 10) as d. clear Heqd.
  assert (d = 0 \/ d = 1 \/ d = 2 \/ d = 3 \/ d = 4 \/ d = 5 \/ d = 6 \/ d = 7 \/ d = 8 \/ d = 9)
    as Hd by lia.
  destruct_or! Hd; subst d; done.
Qed.

Lemma str_app_cons c s t : String c s +:+ t = String c (s +:+ t).
Proof. done. Qed.

Lemma read_acc_pad n v acc s :
  read_acc n acc (pad n v +:+ s) = Some (acc * 10 ^ Z.of_nat n + v mod 10 ^ Z.of_nat n, s).
Proof.
  revert acc. induction n as [|n IH]; intros acc.
  { simpl. rewrite Z.mod_1_r. do 2 f_equal. lia. }
  pose proof (digit_char_cases (v / 10 ^ Z.of_nat n)) as (H1 & H2 & _).
  cbn [pad]. rewrite str_app_cons. cbn [read_acc]. rewrite H1, H2, IH.
  rewrite Nat2Z.inj_succ, Z.pow_succ_r by lia. do 2 f_equal.
  assert (0 < 10 ^ Z.of_nat n) by (apply Z.pow_pos_nonneg; lia).
  rewrite (Z.mul_comm 10 (10 ^ Z.of_nat n)), Z.rem_mul_r by lia. lia.
Qed.

Lemma read_pad n v s : 0 <= v < 10 ^ Z.of_nat n -> read n (pad n v +:+ s) = Some (v, s).
Proof.
  intros Hv. unfold read. rewrite read_acc_pad, Z.mod_small by lia. done.
Qed.

Lemma ltb_cons c d s t :
  str_ltb (String c s) (String d t) =
  (N_of_ascii c <? N_of_ascii d)%N || ((N_of_ascii c =? N_of_ascii d)%N && str_ltb s t).
Proof.
  unfold str_ltb, String.ltb. cbn [String.compare]. unfold Ascii.compare.
  destruct (N.compare_spec (N_of_ascii c) (N_of_ascii d)) as [H|H|H].
  - rewrite H, N.ltb_irrefl, N.eqb_refl. done.
  - apply N.ltb_lt in H. by rewrite H.
  - assert ((N_of_ascii c <? N_of_ascii d)%N = false) as -> by (apply N.ltb_ge; lia).
    assert ((N_of_ascii c =? N_of_ascii d)%N = false) as -> by (apply N.eqb_neq; lia). done.
Qed.

Lemma ltb_same c s t : str_ltb (String c s) (String c t) = str_ltb s t.
Proof. rewrite ltb_cons, N.ltb_irrefl, N.eqb_refl. done. Qed.

(** Fixed-width decimals order as their values, then as what follows. *)
Lemma ltb_pad n a b s t :
  0 <= a < 10 ^ Z.of_nat n -> 0 <= b < 10 ^ Z.of_nat n ->
  str_ltb (pad n a +:+ s) (pad n b +:+ t) = (a <? b) || ((a =? b) && str_ltb s t).
Proof.
  (* pad n reads its argument modulo 10^n *)
  enough (forall a b, str_ltb (pad n a +:+ s) (pad n b +:+ t)
    = (a mod 10 ^ Z.of_nat n <? b mod 10 ^ Z.of_nat n)
      || ((a mod 10 ^ Z.of_nat n =? b mod 10 ^ Z.of_nat n) && str_ltb s t)) as H.
  { intros Ha Hb. rewrite H, !Z.mod_small by lia. done. }
  clear a b. induction n as [|n IH]; intros a b.
  { cbn [pad String.append]. rewrite !Z.mod_1_r. done. }
  cbn [pad]. rewrite !str_app_cons, ltb_cons, IH.
  destruct (digit_char_cases (a / 10 ^ Z.of_nat n)) as (_ & _ & ->).
  destruct (digit_char_cases (b / 10 ^ Z.of_nat n)) as (_ & _ & ->).
  rewrite Nat2Z.inj_succ, Z.pow_succ_r by lia.
  assert (Hp : 0 < 10 ^ Z.of_nat n) by (apply Z.pow_pos_nonneg; lia).
  rewrite (Z.mul_comm 10 (10 ^ Z.of_nat n)), !Z.rem_mul_r by lia.
  set (p := 10 ^ Z.of_nat n) in *.
  pose proof (Z.mod_pos_bound (a / p) 10 ltac:(lia)).
  pose proof (Z.mod_pos_bound (b / p) 10 ltac:(lia)).
  pose proof (Z.mod_pos_bound a p Hp). pose proof (Z.mod_pos_bound b p Hp).
  remember ((a / p) mod 10) as da. remember ((b / p) mod 10) as db.
  remember (a mod p) as ra. remember (b mod p) as rb.
  destruct (Z.lt_trichotomy da db) as [Hd|[Hd|Hd]].
  - replace (Z.to_N (48 + da) <? Z.to_N (48 + db))%N with true
      by (symmetry; apply N.ltb_lt; lia).
    replace (ra + p * da <? rb + p * db) with true by (symmetry; apply Z.ltb_lt; nia). done.
  - subst db. rewrite Hd, N.ltb_irrefl, N.eqb_refl. simpl.
    replace (ra + p * ((b / p) mod 10) <? rb + p * ((b / p) mod 10)) with (ra <? rb)
      by (apply eq_true_iff_eq; rewrite !Z.ltb_lt; lia).
    replace (ra + p * ((b / p) mod 10) =? rb + p * ((b / p) mod 10)) with (ra =? rb)
      by (apply eq_true_iff_eq; rewrite !Z.eqb_eq; lia). done.
  - replace (Z.to_N (48 + da) <? Z.to_N (48 + db))%N with false
      by (symmetry; apply N.ltb_ge; lia).
    replace (Z.to_N (48 + da) =? Z.to_N (48 + db))%N with false
      by (symmetry; apply N.eqb_neq; lia).
    replace (ra + p * da <? rb + p * db) with false by (symmetry; apply Z.ltb_ge; nia).
    replace (ra + p * da =? rb + p * db) with false by (symmetry; apply Z.eqb_neq; nia). done.
Qed.

(** ** The calendar *)

(** Days from 1970-01-01 of a proleptic Gregorian date; a day past the end of
    its month runs into the next, as [MakeDay] lets it. *)
Definition days_of_civil (y m d : Z) : Z :=
  let y' := if m <=? 2 then y - 1 else y in
  let era := y' / 400 in
  let yoe := y' - era * 400 in
  let mp := if m <=? 2 then m + 9 else m - 3 in
  let doy := (153 * mp + 2) / 5 + d - 1 in
  let doe := yoe * 365 + yoe / 4 - yoe / 100 + doy in
  era * 146097 + doe - 719468.

Definition civil_of_days (n : Z) : Z * Z * Z :=
  let z := n + 719468 in
  let era := z / 146097 in
  let doe := z - era * 146097 in
  let yoe := (doe - doe / 1460 + doe / 36524 - doe / 146096) / 365 in
  let doy := doe - (365 * yoe + yoe / 4 - yoe / 100) in
  let mp := (5 * doy + 2) / 153 in
  let d := doy - (153 * mp + 2) / 5 + 1 in
  let m := if mp <? 10 then mp + 3 else mp - 9 in
  let y := yoe + era * 400 in
  (if m <=? 2 then y + 1 else y, m, d).

Lemma yoe_bounds doe :
  0 <= doe < 146097 ->
  let yoe := (doe - doe / 1460 + doe / 36524 - doe / 146096) / 365 in
  0 <= yoe <= 399 /\ 0 <= doe - (365 * yoe + yoe / 4 - yoe / 100) <= 365.
Proof. intros H. cbv zeta. Z.div_mod_to_equations. lia. Qed.

(** Year and day of year of a day of an era, apart from the month. *)
Lemma doy_month doy :
  0 <= doy <= 365 ->
  let mp := (5 * doy + 2) / 153 in
  0 <= mp <= 11 /\ 1 <= doy - (153 * mp + 2) / 5 + 1 <= 31.
Proof. intros H. cbv zeta. Z.div_mod_to_equations. lia. Qed.

Lemma civil_of_days_valid n y m d :
  civil_of_days n = (y, m, d) -> 1 <= m <= 12 /\ 1 <= d <= 31.
Proof.
  unfold civil_of_days. cbv zeta. intros [= <- <- <-].
  set (z := n + 719468). set (doe := z - z / 146097 * 146097).
  assert (Hdoe : 0 <= doe < 146097) by (unfold doe; Z.div_mod_to_equations; lia).
  pose proof (yoe_bounds doe Hdoe) as [_ Hdoy]. cbv zeta in Hdoy.
  set (doy := doe - _) in *.
  pose proof (doy_month doy Hdoy) as [Hmp Hd]. cbv zeta in Hmp, Hd.
  split; [|done]. destruct (Z.ltb_spec ((5 * doy + 2) / 153) 10); lia.
Qed.

Lemma days_of_civil_of_days n :
  let '(y, m, d) := civil_of_days n in days_of_civil y m d = n.
Proof.
  unfold civil_of_days. cbv zeta.
  set (z := n + 719468). set (era := z / 146097). set (doe := z - era * 146097).
  assert (Hdoe : 0 <= doe < 146097) by (unfold doe, era; Z.div_mod_to_equations; lia).
  pose proof (yoe_bounds doe Hdoe) as [Hyoe Hdoy]. cbv zeta in Hyoe, Hdoy.
  set (yoe := (doe - doe / 1460 + doe / 36524 - doe / 146096) / 365) in *.
  set (doy := doe - (365 * yoe + yoe / 4 - yoe / 100)) in *.
  pose proof (doy_month doy Hdoy) as [Hmp Hd]. cbv zeta in Hmp, Hd.
  set (mp := (5 * doy + 2) / 153) in *.
  unfold days_of_civil.
  set (m := if mp <? 10 then mp + 3 else mp - 9).
  set (y := if m <=? 2 then yoe + era * 400 + 1 else yoe + era * 400).
  assert (Hy' : (if m <=? 2 then y - 1 else y) = yoe + era * 400)
    by (unfold y; destruct (m <=? 2); lia).
  assert (Hmp' : (if m <=? 2 then m + 9 else m - 3) = mp).
  { unfold m. destruct (Z.ltb_spec mp 10).
    - replace (mp + 3 <=? 2) with false by (symmetry; apply Z.leb_gt; lia). lia.
    - replace (mp - 9 <=? 2) with true by (symmetry; apply Z.leb_le; lia). lia. }
  cbv zeta. rewrite Hy', Hmp'.
  assert ((yoe + era * 400) / 400 = era) as -> by (Z.div_mod_to_equations; lia).
  replace (yoe + era * 400 - era * 400) with yoe by lia.
  unfold doy, doe, z in *. lia.
Qed.

(** ** [new Date(t).toISOString()] and [Date.parse] *)

(** The times this model prints: the years 0 to 9999. *)
Definition T_LO : Z := -62167219200000.
Definition T_HI : Z := 253402300800000.

(** The date and the time of day of a time. *)
Definition fields (t : Z) : Z * Z * Z * Z * Z * Z * Z :=
  let day := t / DAY in
  let ms := t mod DAY in
  let '(y, m, d) := civil_of_days day in
  (y, m, d, ms / HOUR, (ms / MIN) mod 60, (ms / 1000) mod 60, ms mod 1000).

Definition iso (t : Z) : string :=
  let '(y, m, d, h, mi, s, ms) := fields t in
  pad 4 y +:+ "-" +:+ pad 2 m +:+ "-" +:+ pad 2 d +:+ "T" +:+ pad 2 h +:+ ":"
    +:+ pad 2 mi +:+ ":" +:+ pad 2 s +:+ "." +:+ pad 3 ms +:+ "Z".

(** A time zone at the end: [Z], an offset, or nothing, in milliseconds. *)
Definition read_zone (s : string) : option Z :=
  match s with
  | EmptyString => Some 0
  | String c r =>
      if Ascii.eqb c "Z"%char then (if String.eqb r "" then Some 0 else None)
      else if Ascii.eqb c "+"%char || Ascii.eqb c "-"%char then
        '(h, r) ← read 2 r; r ← lit ":"%char r; '(m, r) ← read 2 r;
        if String.eqb r "" && (h <=? 23) && (m <=? 59)
        then Some ((if Ascii.eqb c "+"%char then 1 else -1) * (h * HOUR + m * MIN)) else None
      else None
  end.

(** The fraction's digits: the first three are milliseconds, the rest are read over. *)
Fixpoint skip_digits (s : string) : string :=
  match s with
  | String c s' => if is_digit c then skip_digits s' else s
  | EmptyString => s
  end.

Definition read_fraction (s : string) : option (Z * string) :=
  match read 3 s with
  | Some (v, r) => Some (v, skip_digits r)
  | None => match read 2 s with
            | Some (v, r) => Some (10 * v, r)
            | None => match read 1 s with Some (v, r) => Some (100 * v, r) | None => None end
            end
  end.

Definition mk_time (y m d h mi s ms off : Z) : option Z :=
  if (1 <=? m) && (m <=? 12) && (1 <=? d) && (d <=? 31) && (mi <=? 59) && (s <=? 59)
     && ((h <=? 23) || ((h =? 24) && (mi =? 0) && (s =? 0) && (ms =? 0)))
  then Some (days_of_civil y m d * DAY + h * HOUR + mi * MIN + s * 1000 + ms - off)
  else None.

(** [Date.parse]: [None] is [NaN]. *)
Definition date_parse (t : string) : option Z :=
  '(y, r) ← read 4 t;
  match lit "-"%char r with
  | None => if String.eqb r "" then mk_time y 1 1 0 0 0 0 0 else None
  | Some r =>
    '(m, r) ← read 2 r;
    match lit "-"%char r with
    | None => if String.eqb r "" then mk_time y m 1 0 0 0 0 0 else None
    | Some r =>
      '(d, r) ← read 2 r;
      match lit "T"%char r with
      | None => if String.eqb r "" then mk_time y m d 0 0 0 0 0 else None
      | Some r =>
        '(h, r) ← read 2 r; r ← lit ":"%char r; '(mi, r) ← read 2 r;
        match lit ":"%char r with
        | None => off ← read_zone r; mk_time y m d h mi 0 0 off
        | Some r =>
          '(s, r) ← read 2 r;
          match lit "."%char r with
          | None => off ← read_zone r; mk_time y m d h mi s 0 off
          | Some r => '(ms, r) ← read_fraction r; off ← read_zone r; mk_time y m d h mi s ms off
          end
        end
      end
    end
  end.

Example date_parse_ex : date_parse "2026-10-06T14:17:05.250Z" = Some 1791296225250.
Proof. vm_compute. reflexivity. Qed.
Example iso_ex : iso 1791296225250 = "2026-10-06T14:17:05.250Z".
Proof. vm_compute. reflexivity. Qed.
Example date_parse_day : date_parse "1970-01-02" = Some 86400000.
Proof. vm_compute. reflexivity. Qed.
Example date_parse_nan : date_parse "yesterday" = None.
Proof. vm_compute. reflexivity. Qed.

Lemma fields_bounds t y m d h mi s ms :
  T_LO <= t < T_HI -> fields t = (y, m, d, h, mi, s, ms) ->
  0 <= y < 10000 /\ 1 <= m <= 12 /\ 1 <= d <= 31
  /\ 0 <= h <= 23 /\ 0 <= mi <= 59 /\ 0 <= s <= 59 /\ 0 <= ms <= 999
  /\ t = days_of_civil y m d * DAY + h * HOUR + mi * MIN + s * 1000 + ms.
Proof.
  unfold T_LO, T_HI, fields. intros Ht.
  pose proof (days_of_civil_of_days (t / DAY)) as Hrt.
  destruct (civil_of_days (t / DAY)) as [[y0 m0] d0] eqn:Ec.
  intros [= <- <- <- <- <- <- <-].
  pose proof (civil_of_days_valid _ _ _ _ Ec) as [Hm Hd].
  assert (-719528 <= t / DAY < 2932897) as Hday
    by (unfold DAY, HOUR, MIN; Z.div_mod_to_equations; lia).
  split.
  { rewrite <- Hrt in Hday. unfold days_of_civil in Hday. cbv zeta in Hday.
    destruct (Z.leb_spec m0 2); Z.div_mod_to_equations; lia. }
  do 2 (split; [done|]).
  unfold DAY, HOUR, MIN in *. rewrite Hrt. repeat split; Z.div_mod_to_equations; lia.
Qed.

Lemma lit_app c s : lit c (String c EmptyString +:+ s) = Some s.
Proof. change (String c EmptyString +:+ s) with (String c s). unfold lit. by rewrite Ascii.eqb_refl. Qed.

(** Parsing what the pool printed gives the time back. *)
Lemma date_parse_iso t : T_LO <= t < T_HI -> date_parse (iso t) = Some t.
Proof.
  intros Ht. unfold iso. destruct (fields t) as [[[[[[y m] d] h] mi] s] ms] eqn:Hf.
  destruct (fields_bounds _ _ _ _ _ _ _ _ Ht Hf) as (Hy & Hm & Hd & Hh & Hmi & Hs & Hms & ->).
  unfold date_parse.
  rewrite read_pad by (simpl; lia). cbn [mbind option_bind]. rewrite lit_app.
  rewrite read_pad by (simpl; lia). cbn [mbind option_bind]. rewrite lit_app.
  rewrite read_pad by (simpl; lia). cbn [mbind option_bind]. rewrite lit_app.
  rewrite read_pad by (simpl; lia). cbn [mbind option_bind]. rewrite lit_app.
  cbn [mbind option_bind].
  rewrite read_pad by (simpl; lia). cbn [mbind option_bind]. rewrite lit_app.
  rewrite read_pad by (simpl; lia). cbn [mbind option_bind]. rewrite lit_app.
  unfold read_fraction. rewrite read_pad by (simpl; lia). cbn [skip_digits mbind option_bind is_digit].
  change (skip_digits "Z") with "Z"%string. change (read_zone "Z") with (Some 0).
  cbn [mbind option_bind]. unfold mk_time.
  replace (1 <=? m) with true by lia. replace (m <=? 12) with true by lia.
  replace (1 <=? d) with true by lia. replace (d <=? 31) with true by lia.
  replace (mi <=? 59) with true by lia. replace (s <=? 59) with true by lia.
  replace (h <=? 23) with true by lia. simpl. f_equal. lia.
Qed.

(** A date's day number, without the eras: the March-based year and month. *)
Lemma days_of_civil_flat y m d :
  1 <= m <= 12 ->
  let y' := if m <=? 2 then y - 1 else y in
  let mp := if m <=? 2 then m + 9 else m - 3 in
  days_of_civil y m d
  = 365 * y' + y' / 4 - y' / 100 + y' / 400 + (153 * mp + 2) / 5 + d - 719469.
Proof.
  intros Hm. unfold days_of_civil. cbv zeta.
  set (y' := if m <=? 2 then y - 1 else y). set (mp := if m <=? 2 then m + 9 else m - 3).
  clearbody y' mp. Z.div_mod_to_equations. lia.
Qed.

(** The first day of the month after. *)
Definition next_month (y m : Z) : Z :=
  if m =? 12 then days_of_civil (y + 1) 1 1 else days_of_civil y (m + 1) 1.

Lemma civil_of_days_in_month n y m d :
  civil_of_days n = (y, m, d) -> n < next_month y m.
Proof.
  unfold civil_of_days. cbv zeta. intros [= Hy Hm Hd].
  set (z := n + 719468) in *. set (era := z / 146097) in *. set (doe := z - era * 146097) in *.
  assert (Hdoe : 0 <= doe < 146097) by (unfold doe, era; Z.div_mod_to_equations; lia).
  pose proof (yoe_bounds doe Hdoe) as [Hyoe Hdoy]. cbv zeta in Hyoe, Hdoy.
  set (yoe := (doe - doe / 1460 + doe / 36524 - doe / 146096) / 365) in *.
  assert (Hnext : doe < 365 * (yoe + 1) + (yoe + 1) / 4 - (yoe + 1) / 100 + (yoe + 1) / 400)
    by (unfold yoe; clear - Hdoe; Z.div_mod_to_equations; lia).
  set (doy := doe - (365 * yoe + yoe / 4 - yoe / 100)) in *.
  pose proof (doy_month doy Hdoy) as [Hmp _]. cbv zeta in Hmp.
  assert (Hmon : doy < (153 * ((5 * doy + 2) / 153 + 1) + 2) / 5)
    by (clear - Hdoy; Z.div_mod_to_equations; lia).
  set (mp := (5 * doy + 2) / 153) in *. clearbody mp yoe. subst m y.
  assert (Hn : n = era * 146097 + 365 * yoe + yoe / 4 - yoe / 100 + doy - 719468)
    by (unfold doy, doe, z in *; lia).
  assert (Hyr : 365 * yoe + yoe / 4 - yoe / 100 + doy
                < 365 * (yoe + 1) + (yoe + 1) / 4 - (yoe + 1) / 100 + (yoe + 1) / 400)
    by (unfold doy; lia).
  clearbody doy. clear Hd. unfold next_month.
  destruct (Z.ltb_spec mp 10) as [Hlt|Hge].
  - destruct (Z.eqb_spec (mp + 3) 12) as [He|He].
    + rewrite (days_of_civil_flat _ 1) by lia. change (1 <=? 2) with true. cbv iota zeta.
      replace (mp + 3 <=? 2) with false by lia. assert (mp = 9) as -> by lia.
      clear - Hn Hmon Hyoe. Z.div_mod_to_equations. lia.
    + rewrite (days_of_civil_flat _ (mp + 3 + 1)) by lia. cbv zeta.
      replace (mp + 3 + 1 <=? 2) with false by lia. replace (mp + 3 <=? 2) with false by lia.
      clear - Hn Hmon Hyoe Hmp. Z.div_mod_to_equations. lia.
  - replace (mp - 9 =? 12) with false by lia.
    rewrite (days_of_civil_flat _ (mp - 9 + 1)) by lia. cbv zeta.
    replace (mp - 9 <=? 2) with true by lia.
    assert (mp = 10 \/ mp = 11) as [->| ->] by lia.
    + change (10 - 9 + 1 <=? 2) with true. cbv iota.
      clear - Hn Hmon Hyoe. Z.div_mod_to_equations. lia.
    + change (11 - 9 + 1 <=? 2) with false. cbv iota.
      clear - Hn Hyr Hyoe. Z.div_mod_to_equations. lia.
Qed.

(** First days of months order as the months do. *)
Lemma next_month_le y m y' m' :
  1 <= m <= 12 -> 1 <= m' <= 12 -> (y < y' \/ (y = y' /\ m < m')) ->
  next_month y m <= days_of_civil y' m' 1.
Proof.
  intros Hm Hm' Hlt. unfold next_month.
  destruct (Z.eqb_spec m 12) as [->|Hne]; rewrite !days_of_civil_flat by lia; cbv zeta;
    destruct (Z.leb_spec m' 2); try destruct (Z.leb_spec (m + 1) 2); try lia;
    change (1 <=? 2) with true; cbv iota; Z.div_mod_to_equations; lia.
Qed.

Lemma days_of_civil_day y m d : days_of_civil y m d = days_of_civil y m 1 + d - 1.
Proof. unfold days_of_civil. cbv zeta. lia. Qed.

Lemma civil_lex n n' y m d y' m' d' :
  civil_of_days n = (y, m, d) -> civil_of_days n' = (y', m', d') -> n < n' ->
  y < y' \/ (y = y' /\ (m < m' \/ (m = m' /\ d < d'))).
Proof.
  intros Hc Hc' Hlt.
  pose proof (civil_of_days_valid _ _ _ _ Hc) as [Hm Hd].
  pose proof (civil_of_days_valid _ _ _ _ Hc') as [Hm' Hd'].
  pose proof (days_of_civil_of_days n) as Hn. rewrite Hc in Hn.
  pose proof (days_of_civil_of_days n') as Hn'. rewrite Hc' in Hn'.
  rewrite days_of_civil_day in Hn, Hn'.
  destruct (Z.lt_trichotomy y y') as [?|[->|Hy]]; [by left| |].
  - right. split; [done|].
    destruct (Z.lt_trichotomy m m') as [?|[->|Hm2]]; [by left|right; lia|].
    exfalso. pose proof (next_month_le y' m' y' m Hm' Hm (or_intror (conj eq_refl Hm2))).
    pose proof (civil_of_days_in_month _ _ _ _ Hc'). lia.
  - exfalso. pose proof (next_month_le y' m' y m Hm' Hm (or_introl Hy)).
    pose proof (civil_of_days_in_month _ _ _ _ Hc'). lia.
Qed.

Lemma str_ltb_irrefl s : str_ltb s s = false.
Proof. induction s as [|c s IH]; [done|]. by rewrite ltb_same. Qed.

Lemma ltb_lit c s t :
  str_ltb (String c EmptyString +:+ s) (String c EmptyString +:+ t) = str_ltb s t.
Proof. apply ltb_same. Qed.

(** ISO text orders as the times do: what every SQL comparison of a time
    column rests on. *)
Lemma iso_lt t u :
  T_LO <= t < T_HI -> T_LO <= u < T_HI -> t < u -> str_ltb (iso t) (iso u) = true.
Proof.
  intros Ht Hu Hlt. unfold iso.
  destruct (fields t) as [[[[[[y m] d] h] mi] s] ms] eqn:Hf.
  destruct (fields u) as [[[[[[y' m'] d'] h'] mi'] s'] ms'] eqn:Hg.
  destruct (fields_bounds _ _ _ _ _ _ _ _ Ht Hf) as (? & ? & ? & ? & ? & ? & ? & Et).
  destruct (fields_bounds _ _ _ _ _ _ _ _ Hu Hg) as (? & ? & ? & ? & ? & ? & ? & Eu).
  repeat (rewrite ?ltb_lit, ltb_pad by (simpl; lia)).
  rewrite str_ltb_irrefl, andb_false_r, orb_false_r.
  assert (Hday : days_of_civil y m d < days_of_civil y' m' d'
                 \/ (y = y' /\ m = m' /\ d = d')).
  { unfold fields in Hf, Hg.
    destruct (civil_of_days (t / DAY)) as [[yt mt] dt] eqn:Ct.
    destruct (civil_of_days (u / DAY)) as [[yu mu] du] eqn:Cu.
    injection Hf as -> -> -> _ _ _ _. injection Hg as -> -> -> _ _ _ _.
    pose proof (days_of_civil_of_days (t / DAY)) as R1. rewrite Ct in R1.
    pose proof (days_of_civil_of_days (u / DAY)) as R2. rewrite Cu in R2.
    destruct (Z.lt_trichotomy (t / DAY) (u / DAY)) as [?|[E|E]]; [left; lia| |].
    - right. rewrite E, Cu in Ct. injection Ct as -> -> ->. done.
    - exfalso. unfold DAY, HOUR, MIN in E. Z.div_mod_to_equations. lia. }
  destruct Hday as [Hday|(-> & -> & ->)].
  - unfold fields in Hf, Hg.
    destruct (civil_of_days (t / DAY)) as [[yt mt] dt] eqn:Ct.
    destruct (civil_of_days (u / DAY)) as [[yu mu] du] eqn:Cu.
    injection Hf as -> -> -> _ _ _ _. injection Hg as -> -> -> _ _ _ _.
    pose proof (days_of_civil_of_days (t / DAY)) as R1. rewrite Ct in R1.
    pose proof (days_of_civil_of_days (u / DAY)) as R2. rewrite Cu in R2.
    assert (Hlt' : t / DAY < u / DAY) by lia.
    pose proof (civil_lex _ _ _ _ _ _ _ _ Ct Cu Hlt') as Hlex. clear - Hlex.
    rewrite !orb_true_iff, !andb_true_iff, !orb_true_iff, !andb_true_iff. lia.
  - clear Hf Hg. unfold DAY, HOUR, MIN in *.
    rewrite !Z.ltb_irrefl, !Z.eqb_refl. cbn [orb andb].
    rewrite !orb_true_iff, !andb_true_iff, !orb_true_iff, !andb_true_iff. lia.
Qed.

Lemma str_ltb_asym s t : str_ltb s t = true -> str_ltb t s = false.
Proof.
  revert t. induction s as [|c s IH]; intros [|d t]; try done.
  rewrite !ltb_cons. intros [H|[H1 H2]%andb_true_iff]%orb_true_iff.
  - apply N.ltb_lt in H. apply orb_false_iff. split; [apply N.ltb_ge; lia|].
    replace (N_of_ascii d =? N_of_ascii c)%N with false; [done|].
    symmetry. apply N.eqb_neq. lia.
  - apply N.eqb_eq in H1. rewrite H1, N.ltb_irrefl, N.eqb_refl. simpl. by apply IH.
Qed.

Lemma iso_order t u :
  T_LO <= t < T_HI -> T_LO <= u < T_HI -> str_ltb (iso t) (iso u) = (t <? u).
Proof.
  intros Ht Hu. destruct (Z.lt_trichotomy t u) as [H|[->|H]].
  - rewrite iso_lt by done. symmetry. by apply Z.ltb_lt.
  - by rewrite str_ltb_irrefl, Z.ltb_irrefl.
  - rewrite (str_ltb_asym _ _ (iso_lt u t Hu Ht H)). symmetry. apply Z.ltb_ge. lia.
Qed.

(** ** Values that may not be numbers

    [Date.parse] of a nullable column, and JavaScript's comparisons, which are
    false on [NaN]. *)
Definition parse_opt (s : option string) : option Z :=
  s ← s; if truthy s then date_parse s else None.

Definition nlt (a b : option Z) : bool :=
  match a, b with Some x, Some y => x <? y | _, _ => false end.
Definition nle (a b : option Z) : bool :=
  match a, b with Some x, Some y => x <=? y | _, _ => false end.

#[export] Hint Resolve iso_lt : pool.
