(* ===== verification/TextFacts.v ===== *)
(** * Facts about text

    Concatenation, tests of every character, splitting at a separator, trimming: what the
    components' round trips and encodings share. *)
From S2P Require Import Prelude JsTime.
Local Open Scope string_scope.
Local Open Scope Z_scope.

(** ** Concatenation *)

Lemma app_assoc_s (a b c : string) : a +:+ (b +:+ c) = (a +:+ b) +:+ c.
Proof. induction a as [|x a IH]; [done|]. rewrite !str_app_cons. by rewrite IH. Qed.
Lemma app_nil_s (a : string) : a +:+ "" = a.
Proof. induction a as [|x a IH]; [done|]. by rewrite str_app_cons, IH. Qed.
Lemma length_app_s a b : String.length (a +:+ b) = (String.length a + String.length b)%nat.
Proof. induction a as [|x a IH]; [done|]. rewrite str_app_cons. cbn [String.length Nat.add]. by rewrite IH. Qed.
Lemma sapp_inj p a b : p +:+ a = p +:+ b -> a = b.
Proof. induction p as [|c p IH]; [done|]. intros [= H]. by apply IH. Qed.
Lemma str_drop_app a b : str_drop (String.length a) (a +:+ b) = b.
Proof. induction a as [|c a IH]; [by destruct b|]. exact IH. Qed.

Lemma str_take_app a b : str_take (String.length a) (a +:+ b) = a.
Proof. induction a as [|c a IH]; [by destruct b|]. cbn. by f_equal. Qed.
Lemma starts_with_app p s : starts_with p (p +:+ s) = true.
Proof. unfold starts_with. induction p as [|c p IH]; [by destruct s|]. change (String c p +:+ s) with (String c (p +:+ s)). cbn [String.prefix]. by destruct (ascii_dec c c). Qed.
Lemma ends_with_app p a : ends_with p (a +:+ p) = true.
Proof.
  unfold ends_with. rewrite length_app_s.
  replace (String.length a + String.length p - String.length p)%nat with (String.length a) by lia.
  rewrite str_drop_app, String.eqb_refl, andb_true_r. apply Nat.leb_le. lia.
Qed.

(** ** Every character *)

Lemma str_forallb_app p a b : str_forallb p (a +:+ b) = str_forallb p a && str_forallb p b.
Proof. induction a as [|c a IH]; [done|]. rewrite str_app_cons. cbn [str_forallb]. by rewrite IH, andb_assoc. Qed.
Lemma str_forallb_weaken (p q : ascii -> bool) s : (forall c, p c = true -> q c = true) -> str_forallb p s = true -> str_forallb q s = true.
Proof. intros H. induction s as [|c s IH]; [done|]. cbn. intros [Hc Hs]%andb_true_iff. by rewrite H, IH. Qed.

(** ** A separator no part holds *)

Definition lacks (sep : ascii) (s : string) : bool := str_forallb (fun c => negb (Ascii.eqb c sep)) s.

Lemma split_none sep s : lacks sep s = true -> split_on sep s = [s].
Proof.
  induction s as [|c s IH]; [done|]. unfold lacks. cbn [str_forallb split_on]. intros [Hc Hs]%andb_true_iff.
  apply negb_true_iff in Hc. by rewrite Hc, IH.
Qed.
Lemma split_cons sep a b : lacks sep a = true -> split_on sep (a +:+ String sep b) = a :: split_on sep b.
Proof.
  unfold lacks. intros Ha. induction a as [|c a IH].
  - change ("" +:+ String sep b) with (String sep b). cbn [split_on]. by rewrite Ascii.eqb_refl.
  - rewrite str_app_cons. cbn [str_forallb split_on] in *. apply andb_true_iff in Ha as [Hc Ha]. apply negb_true_iff in Hc.
    by rewrite Hc, IH.
Qed.
Lemma split_two sep a b : lacks sep a = true -> lacks sep b = true -> split_on sep (a +:+ String sep b) = [a; b].
Proof. intros Ha Hb. by rewrite split_cons, split_none. Qed.
(** Two texts cut at the first separator are the same before and after it. *)
Lemma cut_inj sep a b x y : lacks sep a = true -> lacks sep b = true -> a +:+ String sep x = b +:+ String sep y -> a = b /\ x = y.
Proof.
  unfold lacks. revert b. induction a as [|c a IH]; intros [|d b] Ha Hb H.
  - injection H as <-. done.
  - rewrite str_app_cons in H. injection H as <- _. cbn in Hb. by rewrite Ascii.eqb_refl in Hb.
  - rewrite str_app_cons in H. injection H as -> _. cbn in Ha. by rewrite Ascii.eqb_refl in Ha.
  - rewrite !str_app_cons in H. injection H as <- H. cbn [str_forallb] in Ha, Hb. apply andb_true_iff in Ha as [_ Ha], Hb as [_ Hb].
    by destruct (IH b Ha Hb H) as [-> ->].
Qed.

(** ** Trimming *)

Lemma trim_start_none s : str_forallb (fun c => negb (is_space c)) s = true -> trim_start s = s.
Proof. destruct s as [|c s]; [done|]. cbn. by destruct (is_space c). Qed.
Lemma trim_end_none s : str_forallb (fun c => negb (is_space c)) s = true -> trim_end s = s.
Proof.
  induction s as [|c s IH]; [done|]. cbn. intros [Hc Hs]%andb_true_iff. apply negb_true_iff in Hc. rewrite (IH Hs), Hc. by destruct s.
Qed.
Lemma trim_none s : str_forallb (fun c => negb (is_space c)) s = true -> trim s = s.
Proof. intros H. unfold trim. by rewrite trim_start_none, trim_end_none. Qed.

(** What is not empty and starts with no space is kept by a trim, but for its end. *)
Definition no_space_first (s : string) : bool := match s with String c _ => negb (is_space c) | EmptyString => true end.
Lemma trim_start_first s : no_space_first (trim_start s) = true.
Proof. induction s as [|c s IH]; [done|]. cbn [trim_start]. destruct (is_space c) eqn:E; [exact IH|]. cbn. by rewrite E. Qed.
Lemma trim_end_first s : no_space_first s = true -> no_space_first (trim_end s) = true.
Proof. destruct s as [|c s]; [done|]. intros H. cbn [trim_end]. destruct (trim_end s); [|exact H]. by destruct (is_space c). Qed.
Lemma trim_first s : no_space_first (trim s) = true.
Proof. apply trim_end_first, trim_start_first. Qed.
Lemma first_trim s : no_space_first s = true -> truthy s = true -> truthy (trim s) = true /\ trim s = trim_end s.
Proof.
  destruct s as [|c s]; [done|]. intros Hc _. assert (E : trim (String c s) = trim_end (String c s)).
  { unfold trim. cbn [trim_start]. apply negb_true_iff in Hc. by rewrite Hc. }
  split; [|exact E]. rewrite E. cbn [trim_end]. apply negb_true_iff in Hc. rewrite Hc. by destruct (trim_end s).
Qed.
Lemma trim_end_length s : (String.length (trim_end s) <= String.length s)%nat.
Proof. induction s as [|c s IH]; [done|]. cbn. destruct (trim_end s); cbn in *; [destruct (is_space c); cbn; lia|lia]. Qed.
Lemma str_take_all n s : (String.length s <= n)%nat -> str_take n s = s.
Proof. revert s. induction n as [|n IH]; intros [|c s] H; cbn in *; try done; [lia|]. by rewrite IH by lia. Qed.

(** A text trimmed, and words one space apart, are their own trim. *)
Lemma trim_end_idem s : trim_end (trim_end s) = trim_end s.
Proof.
  induction s as [|c s IH]; [done|]. cbn [trim_end]. destruct (trim_end s) as [|d r]; [destruct (is_space c) eqn:E; cbn; by rewrite ?E|].
  change (trim_end (String c (String d r))) with (match trim_end (String d r) with EmptyString => if is_space c then "" else String c "" | r => String c r end). by rewrite IH.
Qed.
Lemma trim_fixed s : no_space_first s = true -> trim_end s = s -> trim s = s.
Proof. intros H E. unfold trim. replace (trim_start s) with s; [done|]. destruct s as [|c s]; [done|]. cbn in *. apply negb_true_iff in H. by rewrite H. Qed.
Lemma trim_idem s : trim (trim s) = trim s.
Proof. apply trim_fixed; [apply trim_first|apply trim_end_idem]. Qed.
Lemma trim_end_app a b : trim_end b = b -> truthy b = true -> trim_end (a +:+ b) = a +:+ b.
Proof.
  intros Hb Ht. induction a as [|c a IH]; [exact Hb|]. rewrite str_app_cons. cbn [trim_end]. rewrite IH. destruct (a +:+ b) eqn:E; [|done]. by destruct a, b.
Qed.
Definition plain_word (s : string) : bool := truthy s && str_forallb (fun c => negb (is_space c)) s.
Lemma trim_words l : forallb plain_word l = true -> trim (join " " l) = join " " l.
Proof.
  intros H. apply trim_fixed.
  - destruct l as [|w l]; [done|]. cbn in H. apply andb_true_iff in H as [[Ht Hw]%andb_true_iff _]. destruct w as [|c w]; [done|]. cbn in Hw. apply andb_true_iff in Hw as [Hc _]. by destruct l.
  - induction l as [|w l IH]; [done|]. cbn [forallb] in H. apply andb_true_iff in H as [[_ Hw]%andb_true_iff Hl]. destruct l as [|v l]; [by apply trim_end_none|].
    change (join " " (w :: v :: l)) with (w +:+ " " +:+ join " " (v :: l)). rewrite app_assoc_s. apply trim_end_app; [by apply IH|].
    cbn [forallb] in Hl. apply andb_true_iff in Hl as [[Ht _]%andb_true_iff _]. destruct v; [done|]. by destruct l.
Qed.
