(* ===== verification/Json.v ===== *)
(** * JSON values

    What [JSON.parse] gives and the program inspects: untyped reports, request
    bodies and the text columns that hold JSON. A number is a decimal
    [m / 10^s], exact and normalised; the program only tests numbers it reads
    for being whole and in a range. *)
From S2P Require Import Prelude JsTime.
Local Open Scope string_scope.
Local Open Scope Z_scope.

Inductive json :=
| JNull
| JBool (b : bool)
| JNum (m : Z) (s : nat)
| JStr (s : string)
| JArr (l : list json)
| JObj (o : list (string * json)).

Abbreviation JInt n := (JNum n 0).

(** Property access on an object, whose keys are distinct. *)
Fixpoint assoc {A} (k : string) (o : list (string * A)) : option A :=
  match o with
  | [] => None
  | (k', v) :: o' => if String.eqb k k' then Some v else assoc k o'
  end.

(** [o && typeof o === "object" && !Array.isArray(o) ? o[k] : undefined] *)
Definition field (o : option json) (k : string) : option json :=
  match o with Some (JObj o) => assoc k o | _ => None end.

(** [typeof v === "string" ? v : null] and the like. *)
Definition as_str (v : option json) : option string :=
  match v with Some (JStr s) => Some s | _ => None end.
Definition as_bool (v : option json) : option bool :=
  match v with Some (JBool b) => Some b | _ => None end.
(** [Number.isInteger(v)]: a normalised decimal without fraction digits. *)
Definition as_int (v : option json) : option Z :=
  match v with Some (JNum m O) => Some m | _ => None end.
(** [Array.isArray(v)] *)
Definition as_arr (v : option json) : option (list json) :=
  match v with Some (JArr l) => Some l | _ => None end.
Definition is_obj (v : option json) : bool :=
  match v with Some (JObj _) => true | _ => false end.

(** The value of a decimal. *)
Definition num_Q (m : Z) (s : nat) : Q := m # Z.to_pos (10 ^ Z.of_nat s).

(** ** [JSON.stringify]

    Keys in insertion order, no spaces. A decimal prints as the language prints
    one of at most 21 digits and at least a millionth. *)
Definition hex_char (n : N) : ascii := ascii_of_N (if (n <? 10)%N then 48 + n else 87 + n)%N.
Definition escape_char (c : ascii) : string :=
  let n := N_of_ascii c in
  if (n =? 34)%N then "\" +:+ String c "" else if (n =? 92)%N then "\\"
  else if (n =? 8)%N then "\b" else if (n =? 9)%N then "\t" else if (n =? 10)%N then "\n"
  else if (n =? 12)%N then "\f" else if (n =? 13)%N then "\r"
  else if (n <? 32)%N then "\u00" +:+ String (hex_char (n / 16)) (String (hex_char (n mod 16)) "")
  else String c "".
Fixpoint escape (s : string) : string :=
  match s with EmptyString => "" | String c s' => escape_char c +:+ escape s' end.
Definition quote_char : string := String (ascii_of_nat 34) EmptyString.
Definition quoted (s : string) : string := quote_char +:+ escape s +:+ quote_char.
Definition num_text (m : Z) (s : nat) : string :=
  match s with
  | O => zstr m
  | _ => (if m <? 0 then "-" else "") +:+ zstr (Z.abs m / 10 ^ Z.of_nat s) +:+ "." +:+ pad s (Z.abs m mod 10 ^ Z.of_nat s)
  end.

Fixpoint json_text (v : json) : string :=
  match v with
  | JNull => "null"
  | JBool b => if b then "true" else "false"
  | JNum m s => num_text m s
  | JStr s => quoted s
  | JArr l => "[" +:+ join "," (map json_text l) +:+ "]"
  | JObj o => "{" +:+ join "," (map (fun p => quoted p.1 +:+ ":" +:+ json_text p.2) o) +:+ "}"
  end.

(** ** Facts *)

Lemma assoc_In {A} k (v : A) l : assoc k l = Some v -> In (k, v) l.
Proof.
  induction l as [|[k' v'] l IH]; [done|]. cbn. destruct (String.eqb_spec k k') as [->|]; [intros [= ->]; by left|right; auto].
Qed.
Lemma assoc_None {A} k (v : A) l : assoc k l = None -> ~ In (k, v) l.
Proof.
  induction l as [|[k' v'] l IH]; [by intros _ []|]. cbn. destruct (String.eqb_spec k k') as [->|Hk]; [done|].
  intros H [[= -> ->]|Hin]; [done|by eapply IH].
Qed.
