(* ===== verification/Manifest.v ===== *)
(** * The signed constants (worker/src/hosts.ts, first part)

    [hosts.ts] reads factory/bundle/manifest.toml, the file every host bundle
    is signed with, and every component reads the constants from there. *)
From S2P Require Import Prelude.
Local Open Scope Z_scope.

Record Resources := { cpus : Z; mem_gb : Z }.
Record MinHost := { min_cpus : Z; min_mem_gb : Z; work_disk_gb : Z; engine_disk_gb : Z }.
Record TaskUnits := { build_per_size : Z; trial : Z; audit : Z; job : Z; job_reserved : Z }.
(** The sidecars' memory; their CPUs are not read by the pool. *)
Record Sidecars := { egress : Z; agent : Z }.

Definition MIN_HOST : MinHost :=
  {| min_cpus := 4; min_mem_gb := 8; work_disk_gb := 60; engine_disk_gb := 40 |}.
Definition RESERVE : Resources := {| cpus := 1; mem_gb := 2 |}.
Definition UNIT : Resources := {| cpus := 1; mem_gb := 2 |}.
Definition TASK_UNITS : TaskUnits :=
  {| build_per_size := 2; trial := 2; audit := 1; job := 1; job_reserved := 1 |}.
Definition MAX_SIZE : Z := 4.
Definition COMMUNITY_MAX_SIZE : Z := 2.
Definition BUILD_GB_PER_SIZE : Z := 20.
Definition DISK_FLOOR_GB : Z := 10.
Definition SIDECARS_MEM_MB : Sidecars := {| egress := 64; agent := 256 |}.
(** [share_when_native_waits = 0.5] *)
Definition EMULATED_SHARE : Q := 1 # 2.

(** [min_release] and [revoked]: the releases the signed manifest retires. *)
Record ReleasePolicy := { min_release : string; revoked : list string }.
Definition RELEASE_POLICY : ReleasePolicy := {| min_release := "v1.0.0"; revoked := [] |}.

(** A host reported asleep by a report this fresh, or an Update taken while
    its agent reported this recently. *)
Definition HOST_REPORT_FRESH_MIN : Z := 15.
