(* ===== verification/Pattern.v ===== *)
(** * Regular expressions

    The repetition-free patterns the program tests text with: characters,
    sequences, alternatives, optional parts and word boundaries. The matcher
    backtracks through a continuation, as the language's does. *)
From S2P Require Import Prelude.

Inductive re :=
| Eps
| Chr (p : ascii -> bool)
| Seq (a b : re)
| Alt (a b : re)
| Wb.

(** The characters of a word: [\w]. *)
Definition is_word (c : ascii) : bool :=
  is_digit c || is_upper c || is_lower c || Ascii.eqb c "_"%char.
Definition is_word_o (c : option ascii) : bool := match c with Some c => is_word c | None => false end.
Definition next (s : string) : option ascii := match s with String c _ => Some c | EmptyString => None end.

(** [r] at a place of the text: the character before it, what follows it, and what must match after. *)
Fixpoint rmatch (r : re) (prev : option ascii) (s : string) (k : option ascii -> string -> bool) : bool :=
  match r with
  | Eps => k prev s
  | Chr p => match s with String c s' => p c && k (Some c) s' | EmptyString => false end
  | Seq a b => rmatch a prev s (fun prev s => rmatch b prev s k)
  | Alt a b => rmatch a prev s k || rmatch b prev s k
  | Wb => xorb (is_word_o prev) (is_word_o (next s)) && k prev s
  end.

(** [r.test(s)] *)
Fixpoint search (r : re) (prev : option ascii) (s : string) : bool :=
  rmatch r prev s (fun _ _ => true)
  || match s with String c s' => search r (Some c) s' | EmptyString => false end.
Definition test (r : re) (s : string) : bool := search r None s.

(** ** Writing patterns *)

Fixpoint lit (s : string) : re :=
  match s with EmptyString => Eps | String c s' => Seq (Chr (Ascii.eqb c)) (lit s') end.
Definition opt (r : re) : re := Alt r Eps.
Definition one_of (s : string) : re := Chr (fun c => existsb (Ascii.eqb c) (String.list_ascii_of_string s)).
Fixpoint seqs (l : list re) : re := match l with [] => Eps | [r] => r | r :: l' => Seq r (seqs l') end.
(** [a|b|…] of at least one alternative. *)
Fixpoint alts (r : re) (l : list re) : re := match l with [] => r | r' :: l' => Alt r (alts r' l') end.
Definition word (s : string) : re := seqs [Wb; lit s; Wb].

(** ** Facts *)

Lemma rmatch_lit s prev t k :
  rmatch (lit s) prev (s +:+ t) k = k (match String.length s with O => prev | S n => String.get n s end) t.
Proof.
  revert prev. induction s as [|c s IH]; intros prev; [done|].
  change (String c s +:+ t) with (String c (s +:+ t)). cbn [lit rmatch].
  rewrite Ascii.eqb_refl. cbn [andb]. rewrite IH. destruct s as [|d s]; done.
Qed.

(** A literal is found wherever it stands. *)
Lemma search_lit a s t prev : search (lit s) prev (a +:+ s +:+ t) = true.
Proof.
  revert prev. induction a as [|c a IH]; intros prev.
  - change ("" +:+ s +:+ t) with (s +:+ t). destruct (s +:+ t) as [|c u] eqn:E.
    + destruct s; [|done]. reflexivity.
    + cbn [search]. rewrite <- E, rmatch_lit. done.
  - change (String c a +:+ s +:+ t) with (String c (a +:+ s +:+ t)). cbn [search]. rewrite IH. apply orb_true_r.
Qed.
