(* ===== verification/Update.v ===== *)
(** * The release gate (worker/src/update.ts)

    Every worker follows the pool's release: a claim on an older release is
    refused with 426 past the rollout's grace, except a host that soaks the
    release or that reverted it and runs its last-good, each for a bounded
    time; a revoked release is refused whatever the grace. Times are
    milliseconds ([Z]); text the program parses as a date that is not one is
    [None] ([NaN]). *)
From S2P Require Import Prelude JsTime Json Manifest.
Local Open Scope string_scope.
Local Open Scope Z_scope.

Definition UPDATE_GRACE_MINUTES : Z := 45.

Definition Tag : Type := Z * Z * Z.

(** [(\d+)\.(\d+)\.(\d+)], anchored at both ends. *)
Definition dot3 (s : string) : option Tag :=
  match split_on "."%char s with
  | [a; b; c] => x ← dec a; y ← dec b; z ← dec c; Some (x, y, z)
  | _ => None
  end.

(** [/^v?(\d+)\.(\d+)\.(\d+)$/] on the trimmed text. *)
Definition parseTag (v : option string) : option Tag :=
  let s := trim (default "" v) in
  dot3 (match s with String c r => if Ascii.eqb c "v"%char then r else s | _ => s end).

(** -1, 0 or 1 by the first component that differs. *)
Definition compareTags (a b : Tag) : Z :=
  let '(a0, a1, a2) := a in
  let '(b0, b1, b2) := b in
  if negb (a0 =? b0) then (if a0 <? b0 then -1 else 1)
  else if negb (a1 =? b1) then (if a1 <? b1 then -1 else 1)
  else if negb (a2 =? b2) then (if a2 <? b2 then -1 else 1)
  else 0.

Definition isRevoked (v : option string) (policy : ReleasePolicy) : bool :=
  match parseTag v with
  | None => false
  | Some t => existsb (fun r => match parseTag (Some r) with
                                | Some x => compareTags x t =? 0
                                | None => false
                                end) (revoked policy)
  end.

Definition LAST_GOOD_HOURS : Z := 6.

(** What a host's reports say of a revert: the release it reverted, since
    when the pool knows it, the release it applied. *)
Record Reverted := { r_from : string; r_at : option string; r_applied : option string }.

Definition lastGoodUntil (r : option Reverted) (yours : option string) (latest : string)
    (at_ : Z) (policy : ReleasePolicy) : option string :=
  r ← r;
  from ← parseTag (Some (r_from r));
  p ← parseTag (Some latest);
  w ← parseTag yours;
  applied ← parseTag (r_applied r);
  if negb (compareTags from p =? 0) then None
  else if negb (compareTags w applied =? 0) || (0 <=? compareTags w p) then None
  else if (match parseTag (Some (min_release policy)) with
           | Some min => compareTags w min <? 0
           | None => false
           end) || isRevoked yours policy then None
  else
    since ← parse_opt (r_at r);
    let end_ := since + LAST_GOOD_HOURS * 3600000 in
    if at_ <? end_ then Some (iso end_) else None.

(** [/^v\d+\.\d+\.\d+$/.test(s)] *)
Definition is_vtag (s : string) : bool :=
  match s with
  | String c r => Ascii.eqb c "v"%char && match dot3 r with Some _ => true | None => false end
  | _ => false
  end.

Definition tag_of (v : option json) : option string :=
  s ← as_str v; if is_vtag s then Some s else None.

(** What the pool keeps of a host's revert between reports. *)
Record RevertState := { rv_from : option string; rv_at : option string }.

Definition revertAfter (prev : RevertState) (report : json) (at_ : string) : RevertState :=
  let report := Some report in
  let round := field report "round" in
  let from := if ostr_eqb (as_str (field round "outcome")) (Some "rolled-back")
              then tag_of (field round "from") else None in
  let from :=
    match from, rv_from prev, parseTag (rv_from prev) with
    | None, Some was_s, Some was =>
        if truthy was_s then
          let held := match as_arr (field report "quarantine") with
                      | Some q => existsb (fun e => ostr_eqb (as_str (field (Some e) "release")) (Some was_s))
                                    (firstn 16 q)
                      | None => false
                      end in
          let again := ostr_eqb (as_str (field (field report "rollout") "target")) (Some was_s) in
          let applied := parseTag (tag_of (field (field report "release") "applied")) in
          if (held || again)
             && negb (match applied with Some a => 0 <=? compareTags a was | None => false end)
          then Some was_s else None
        else None
    | f, _, _ => f
    end in
  {| rv_from := from;
     rv_at := match from with
              | None => None
              | Some _ => if ostr_eqb from (rv_from prev) && truthyo (rv_at prev)
                          then rv_at prev else Some at_
              end |}.

Record UpdateState := {
  latest : string;
  yours : option string;
  outdated : bool;
  behind : option Z;
  required : bool;
  u_revoked : bool;
  last_good_until : option string;
  soaking_until : option string }.

Definition SOAK_GRACE_MAX_MINUTES : Z := 120.
Definition SOAK_ROUND_MINUTES : Z := 15.

(** A quarantined release, and until when ([None]: a newer release). *)
Record Quarantined := { q_release : string; q_until : option string }.
(** A host's soak: when it ends, and what it holds in quarantine. *)
Record HostSoak := { s_until : option string; s_quarantined : list Quarantined }.

Definition quarantinedNow (soak : option HostSoak) (latest : Tag) (at_ : Z) : option Quarantined :=
  s ← soak;
  List.find (fun q =>
    match parseTag (Some (q_release q)) with
    | Some t => (compareTags t latest =? 0)
                && match q_until q with
                   | None => true
                   | Some u => negb (nle (date_parse u) (Some at_))
                   end
    | None => false
    end) (s_quarantined s).

(** [deployed] is [None] when the pool's deploy time is not a number. *)
Definition soakGraceUntil (soak : option HostSoak) (latest : Tag) (deployed : option Z) (at_ : Z)
  : option string :=
  s ← soak;
  until ← parse_opt (s_until s);
  deployed ← deployed;
  match quarantinedNow (Some s) latest at_ with
  | Some _ => None
  | None =>
      let end_ := Z.min (until + SOAK_ROUND_MINUTES * 60000)
                        (deployed + SOAK_GRACE_MAX_MINUTES * 60000) in
      if at_ <? end_ then Some (iso end_) else None
  end.

(** The pool's release and its deploy time. *)
Record RunningVersion := { version : string; deployed_at : option string }.

Definition updateState (workerVersion : option string) (pool : RunningVersion) (at_ : Z)
    (soak : option HostSoak) (reverted : option Reverted) (policy : ReleasePolicy) : UpdateState :=
  let yours := match workerVersion with
               | Some v => if truthy v && negb (String.eqb v "container") then Some v else None
               | None => None
               end in
  let revoked := isRevoked yours policy in
  match parseTag yours, parseTag (Some (version pool)) with
  | Some w, Some p =>
      let outdated := compareTags w p <? 0 in
      let '(w0, w1, w2) := w in
      let '(p0, p1, p2) := p in
      let behind := if outdated then (if (w0 =? p0) && (w1 =? p1) then Some (p2 - w2) else None)
                    else Some 0 in
      let deployed := parse_opt (deployed_at pool) in
      let past := outdated
        && match deployed with
           | None => false
           | Some d => match behind with
                       | None => true
                       | Some b => (2 <=? b) || (UPDATE_GRACE_MINUTES * 60000 <? at_ - d)
                       end
           end in
      let lastGood := if past then lastGoodUntil reverted yours (version pool) at_ policy else None in
      let soaking := match lastGood with
                     | None => if past && negb revoked then soakGraceUntil soak p deployed at_ else None
                     | Some _ => None
                     end in
      {| latest := version pool; yours := yours; outdated := outdated; behind := behind;
         required := revoked || (past && match soaking with None => true | _ => false end
                                      && match lastGood with None => true | _ => false end);
         u_revoked := revoked; last_good_until := lastGood; soaking_until := soaking |}
  | _, _ =>
      {| latest := version pool; yours := yours; outdated := false; behind := None;
         required := revoked; u_revoked := revoked; last_good_until := None; soaking_until := None |}
  end.

(** [null] in a template is the word. *)
Definition show_opt (s : option string) : string := default "null" s.

Definition releases_behind (u : UpdateState) : string :=
  match behind u with
  | Some b => if b =? 0 then ""
              else " (" +:+ zstr b +:+ " release" +:+ (if b =? 1 then "" else "s") +:+ " behind)"
  | None => ""
  end.

Definition updateMessage (u : UpdateState) : string :=
  if u_revoked u then
    "this worker runs " +:+ show_opt (yours u) +:+ ", a release the pool's release (" +:+ latest u
    +:+ ") revokes — it is handed nothing, and nothing its tasks send on that release is taken: update it (/docs/workers#update) and it works again; on a host the agent manages, nothing needs to be run"
  else
    "this worker runs " +:+ show_opt (yours u) +:+ "; the pool is at " +:+ latest u +:+ releases_behind u
    +:+ " — every worker follows the latest image: update it (/docs/workers#update) and it works again; on a host the agent manages, nothing needs to be run".

Definition lastGoodMessage (u : UpdateState) : option string :=
  until ← last_good_until u;
  Some ("its agent reverted " +:+ latest u +:+ ": claiming on last-good " +:+ show_opt (yours u)
        +:+ " until " +:+ until +:+ ", then refused like any registration behind the pool's release").

(** Why a host's registration claims or is refused, in the host page's words;
    [None] when it runs the pool's release. *)
Definition gateWords (u : UpdateState) (soak : option HostSoak) (deployedAt : option string)
    (at_ : Z) (reverted : option Reverted) : option string :=
  if u_revoked u then
    Some ("refused with 426 — its registration runs " +:+ show_opt (yours u)
      +:+ ", a release the pool's release (" +:+ latest u
      +:+ ") revokes: it is handed nothing whatever the grace, its soak or its last-good, and nothing its tasks send on that release is taken")
  else if negb (outdated u) then None
  else
  let runs := "its registration runs " +:+ show_opt (yours u) +:+ ", the pool " +:+ latest u
              +:+ releases_behind u in
  match last_good_until u, soaking_until u with
  | Some until, _ =>
      Some (runs +:+ ": its agent reverted " +:+ latest u +:+ ", so it claims on its last-good until "
        +:+ until +:+ " (" +:+ zstr LAST_GOOD_HOURS
        +:+ " hours after the pool heard of the revert), then it is refused like any registration behind the pool's release")
  | None, Some until =>
      Some (runs +:+ ": it claims through its owner's soak, until " +:+ until
        +:+ " — the pool's grace follows the soak its agent reports, " +:+ zstr SOAK_ROUND_MINUTES
        +:+ " minutes past its end for the round, at most " +:+ zstr (SOAK_GRACE_MAX_MINUTES / 60)
        +:+ " hours after the deploy")
  | None, None =>
  if negb (required u) then
    Some (runs +:+ ": within the rollout's grace (" +:+ zstr UPDATE_GRACE_MINUTES
      +:+ " minutes after the deploy, one release behind at most); its agent rolls the release out")
  else
  let latest_ := parseTag (Some (latest u)) in
  let held := l ← latest_; q ← quarantinedNow soak l at_; Some (q_release q) in
  let deployed := parse_opt deployedAt in
  let revert := r ← reverted; from ← parseTag (Some (r_from r)); l ← latest_;
                if compareTags from l =? 0 then Some r else None in
  let lastGoodEnd := r ← revert; t ← parse_opt (r_at r); Some (t + LAST_GOOD_HOURS * 3600000) in
  let soak_until := s ← soak; u ← s_until s; if truthy u then Some u else None in
  let past_cap := match soak_until, deployed with
                  | Some su, Some d => nlt (Some (d + SOAK_GRACE_MAX_MINUTES * 60000))
                                           (t ← date_parse su; Some (t + SOAK_ROUND_MINUTES * 60000))
                  | _, _ => false
                  end in
  let why :=
    match revert with
    | Some r =>
        match lastGoodEnd with
        | Some e =>
            if e <=? at_ then
              "its agent reverted " +:+ r_from r +:+ ", and its " +:+ zstr LAST_GOOD_HOURS
              +:+ " hours on its last-good ended at " +:+ iso e +:+ ": Retry release, or the release after it"
            else
              "its agent reverted " +:+ r_from r +:+ ", but the gate takes a claim on its last-good only on the release its agent applied ("
              +:+ default "none reported" (r_applied r) +:+ "), at or above min_release ("
              +:+ min_release RELEASE_POLICY +:+ ") and not revoked: Retry release, or the release after it"
        | None =>
            "its agent reverted " +:+ r_from r +:+ ", but the gate takes a claim on its last-good only on the release its agent applied ("
            +:+ default "none reported" (r_applied r) +:+ "), at or above min_release ("
            +:+ min_release RELEASE_POLICY +:+ ") and not revoked: Retry release, or the release after it"
        end
    | None =>
        match held with
        | Some h => "it holds " +:+ h +:+ " in quarantine — its guard reverted it — so its soak gives no grace: Retry release, or the release after it"
        | None =>
            match soak_until, deployed with
            | Some su, d =>
                match past_cap, d with
                | true, Some d =>
                    "its soak runs until " +:+ su +:+ ", past the pool's grace for a soak, which ends "
                    +:+ zstr (SOAK_GRACE_MAX_MINUTES / 60) +:+ " hours after the deploy ("
                    +:+ iso (d + SOAK_GRACE_MAX_MINUTES * 60000) +:+ ")"
                | _, _ =>
                    "its soak ended at " +:+ su +:+ " and its round has not brought the release yet: the pool's grace ran "
                    +:+ zstr SOAK_ROUND_MINUTES +:+ " minutes past it"
                end
            | None, _ =>
                "past the rollout's grace (" +:+ zstr UPDATE_GRACE_MINUTES
                +:+ " minutes after the deploy, one release behind at most), and its agent reports no soak"
            end
        end
    end in
  Some ("refused with 426 — " +:+ runs +:+ ": " +:+ why)
  end.

Example parseTag_ex : parseTag (Some " v0.0.177 ") = Some (0, 0, 177).
Proof. vm_compute. reflexivity. Qed.
Example parseTag_dev : parseTag (Some "dev") = None.
Proof. vm_compute. reflexivity. Qed.

#[local] Arguments quarantinedNow : simpl never.
#[local] Arguments lastGoodUntil : simpl never.
#[local] Arguments soakGraceUntil : simpl never.
#[local] Arguments parseTag : simpl never.
#[local] Arguments isRevoked : simpl never.
#[local] Arguments parse_opt : simpl never.
#[local] Arguments compareTags : simpl never.

(** ** Tags are totally ordered *)

Lemma compareTags_eq a b : compareTags a b = 0 <-> a = b.
Proof.
  destruct a as [[a0 a1] a2], b as [[b0 b1] b2]. unfold compareTags.
  destruct (Z.eqb_spec a0 b0), (Z.eqb_spec a1 b1), (Z.eqb_spec a2 b2); simpl;
    repeat case_match; breflect; split; intros; simplify_eq; first [lia|congruence|done].
Qed.

Lemma compareTags_lt a b :
  compareTags a b < 0 <->
  let '(a0, a1, a2) := a in let '(b0, b1, b2) := b in
  a0 < b0 \/ (a0 = b0 /\ (a1 < b1 \/ (a1 = b1 /\ a2 < b2))).
Proof.
  destruct a as [[a0 a1] a2], b as [[b0 b1] b2]. unfold compareTags.
  destruct (Z.eqb_spec a0 b0), (Z.eqb_spec a1 b1), (Z.eqb_spec a2 b2); simpl;
    repeat case_match; breflect; lia.
Qed.

Lemma compareTags_antisym a b : compareTags b a = - compareTags a b.
Proof.
  destruct a as [[a0 a1] a2], b as [[b0 b1] b2]. unfold compareTags.
  destruct (Z.eqb_spec a0 b0), (Z.eqb_spec a1 b1), (Z.eqb_spec a2 b2);
    destruct (Z.eqb_spec b0 a0), (Z.eqb_spec b1 a1), (Z.eqb_spec b2 a2); simpl;
    repeat case_match; breflect; lia.
Qed.

(** ** The graces *)

Lemma isRevoked_parse v p : isRevoked v p = true -> parseTag v <> None.
Proof. unfold isRevoked. by destruct (parseTag v). Qed.

Lemma lastGoodUntil_spec r y l at_ p e :
  lastGoodUntil r y l at_ p = Some e ->
  exists r0 since tl tw,
    r = Some r0 /\ parse_opt (r_at r0) = Some since
    /\ at_ < since + LAST_GOOD_HOURS * 3600000 /\ e = iso (since + LAST_GOOD_HOURS * 3600000)
    /\ isRevoked y p = false
    /\ parseTag (Some l) = Some tl /\ parseTag (Some (r_from r0)) = Some tl
    /\ parseTag y = Some tw /\ parseTag (r_applied r0) = Some tw /\ compareTags tw tl < 0.
Proof.
  unfold lastGoodUntil. destruct r as [r0|]; [|done]. simpl.
  destruct (parseTag (Some (r_from r0))) as [from|] eqn:Ef; [|done].
  destruct (parseTag (Some l)) as [tl|] eqn:El; [|done].
  destruct (parseTag y) as [tw|] eqn:Ey; [|done].
  destruct (parseTag (r_applied r0)) as [ap|] eqn:Eap; [|done]. simpl.
  destruct (Z.eqb_spec (compareTags from tl) 0) as [Hf|]; [|done]. simpl.
  apply compareTags_eq in Hf as ->.
  destruct (Z.eqb_spec (compareTags tw ap) 0) as [Ha|]; [|done]. simpl.
  apply compareTags_eq in Ha as ->.
  destruct (Z.leb_spec 0 (compareTags ap tl)); [done|].
  destruct (_ || _) eqn:Er; [done|].
  destruct (parse_opt (r_at r0)) as [since|] eqn:Es; [|done]. simpl.
  destruct (Z.ltb_spec at_ (since + LAST_GOOD_HOURS * 3600000)); [|done].
  intros [= <-]. breflect. exists r0, since, tl, ap. repeat split; lia || done.
Qed.

Lemma soakGraceUntil_spec s l d at_ e :
  soakGraceUntil s l d at_ = Some e ->
  exists s0 until dep,
    s = Some s0 /\ d = Some dep /\ parse_opt (s_until s0) = Some until
    /\ quarantinedNow s l at_ = None
    /\ at_ < dep + SOAK_GRACE_MAX_MINUTES * 60000
    /\ at_ < until + SOAK_ROUND_MINUTES * 60000.
Proof.
  unfold soakGraceUntil. destruct s as [s0|]; [|done]. simpl.
  destruct (parse_opt (s_until s0)) as [until|] eqn:Eu; [|done]. simpl.
  destruct d as [dep|]; [|done]. simpl.
  destruct (quarantinedNow (Some s0) l at_) eqn:Eq; [done|].
  cbv zeta. match goal with |- context [at_ <? ?e] => destruct (Z.ltb_spec at_ e) end; [|done].
  intros _. exists s0, until, dep. repeat split; try done; lia.
Qed.

(** A worker that has fallen behind the rollout: behind the pool's release,
    whose deploy time is known, by more than one release or for longer than
    the rollout's grace. *)
Definition fell_behind (yours : option string) (pool : RunningVersion) (at_ : Z) : Prop :=
  exists w0 w1 w2 p0 p1 p2 d,
    parseTag yours = Some (w0, w1, w2) /\ parseTag (Some (version pool)) = Some (p0, p1, p2)
    /\ compareTags (w0, w1, w2) (p0, p1, p2) < 0
    /\ parse_opt (deployed_at pool) = Some d
    /\ ((w0, w1) <> (p0, p1) \/ 2 <= p2 - w2 \/ UPDATE_GRACE_MINUTES * 60000 < at_ - d).

(** The release a worker reported, as the gate reads it. *)
Definition reported (v : option string) : option string :=
  match v with
  | Some v => if truthy v && negb (String.eqb v "container") then Some v else None
  | None => None
  end.

Section Gate.
Context (wv : option string) (pool : RunningVersion) (at_ : Z)
        (soak : option HostSoak) (rev : option Reverted) (policy : ReleasePolicy).

Local Abbreviation u := (updateState wv pool at_ soak rev policy).

Lemma updateState_yours : yours u = reported wv.
Proof. unfold updateState, reported. repeat case_match; done. Qed.

Lemma updateState_revoked : u_revoked u = isRevoked (reported wv) policy.
Proof. unfold updateState, reported. repeat case_match; done. Qed.

Lemma updateState_graces :
  (last_good_until u = None \/
     last_good_until u = lastGoodUntil rev (reported wv) (version pool) at_ policy)
  /\ (soaking_until u = None \/
     exists p, parseTag (Some (version pool)) = Some p /\ isRevoked (reported wv) policy = false
       /\ soaking_until u = soakGraceUntil soak p (parse_opt (deployed_at pool)) at_).
Proof.
  unfold updateState. fold (reported wv).
  destruct (parseTag (reported wv)) as [[[w0 w1] w2]|]; [|simpl; auto].
  destruct (parseTag (Some (version pool))) as [[[p0 p1] p2]|] eqn:Ep; [|simpl; auto].
  simpl. split.
  - case_match; auto.
  - repeat (case_match; simpl; auto); right; breflect; eauto.
Qed.

(** What [required] is: refused for a revoked release, or fallen behind with
    no grace left. *)
Lemma updateState_required :
  required u = true <->
  isRevoked (reported wv) policy = true
  \/ (fell_behind (reported wv) pool at_ /\ last_good_until u = None /\ soaking_until u = None).
Proof.
  unfold updateState, fell_behind. fold (reported wv).
  destruct (parseTag (reported wv)) as [[[w0 w1] w2]|] eqn:Ew.
  2: { simpl. split; [auto|]. intros [?|[(?&?&?&?&?&?&?&?&?) _]]; done. }
  destruct (parseTag (Some (version pool))) as [[[p0 p1] p2]|] eqn:Ep.
  2: { simpl. split; [auto|]. intros [?|[(?&?&?&?&?&?&?&?&?&?) _]]; done. }
  cbn [required last_good_until soaking_until]. rewrite orb_true_iff.
  apply or_iff_compat_l.
  destruct (Z.ltb_spec (compareTags (w0, w1, w2) (p0, p1, p2)) 0) as [Ho|Ho].
  2: { simpl. split; [done|].
       intros [(?&?&?&?&?&?&?&[= -> -> ->]&[= -> -> ->]&?&?) _]; lia. }
  destruct (parse_opt (deployed_at pool)) as [d|] eqn:Ed.
  2: { simpl. split; [done|]. intros [(?&?&?&?&?&?&?&?&?&?&?&?) _]; done. }
  cbn [andb].
  set (pst := match (if (w0 =? p0) && (w1 =? p1) then Some (p2 - w2) else None) with
              | Some b => (2 <=? b) || (UPDATE_GRACE_MINUTES * 60000 <? at_ - d)
              | None => true end).
  assert (Hp : pst = true <->
    ((w0, w1) <> (p0, p1) \/ 2 <= p2 - w2 \/ UPDATE_GRACE_MINUTES * 60000 < at_ - d)).
  { unfold pst. destruct (Z.eqb_spec w0 p0) as [->|], (Z.eqb_spec w1 p1) as [->|]; simpl;
      rewrite ?orb_true_iff, ?Z.leb_le, ?Z.ltb_lt; split; intros; try done;
      try (left; congruence); tauto. }
  clearbody pst. destruct pst; simpl.
  - split.
    + intros Hx. split.
      * exists w0, w1, w2, p0, p1, p2, d. repeat split; try done. by apply Hp.
      * repeat case_match; done.
    + intros [_ [-> Hs]]. by rewrite Hs.
  - split; [done|].
    intros [(?&?&?&?&?&?&?&[= <- <- <-]&[= <- <- <-]&?&[= <-]&H) _].
    by apply Hp in H.
Qed.

Lemma fell_behind_outdated : fell_behind (reported wv) pool at_ -> outdated u = true.
Proof.
  intros (w0&w1&w2&p0&p1&p2&d&Hw&Hp&Hlt&_). unfold updateState. fold (reported wv).
  rewrite Hw, Hp. cbn [outdated]. by apply Z.ltb_lt.
Qed.
End Gate.

(** ** Properties *)

(** the gate is decided exactly. A claim is refused (426) if and only if its release is
    revoked, or it fell behind the pool's release past the rollout's grace and neither its
    last-good nor its owner's soak carries it. *)
Theorem gate_required_iff wv pool at_ soak rev policy :
  required (updateState wv pool at_ soak rev policy) = true <->
  isRevoked (reported wv) policy = true
  \/ (fell_behind (reported wv) pool at_
      /\ last_good_until (updateState wv pool at_ soak rev policy) = None
      /\ soaking_until (updateState wv pool at_ soak rev policy) = None).
Proof. apply updateState_required. Qed.

(** a revoked release is handed nothing, whatever the grace: it is refused, and neither
    a soak nor a revert gives it a time to claim until. *)
Theorem gate_revoked wv pool at_ soak rev policy :
  isRevoked (reported wv) policy = true ->
  let u := updateState wv pool at_ soak rev policy in
  required u = true /\ u_revoked u = true /\ last_good_until u = None /\ soaking_until u = None.
Proof.
  intros Hr u. unfold u. rewrite updateState_required, updateState_revoked.
  destruct (updateState_graces wv pool at_ soak rev policy) as [Hl Hs].
  split; [by left|]. split; [done|]. split.
  - destruct Hl as [?|Hl]; [done|]. rewrite Hl.
    destruct (lastGoodUntil _ _ _ _ _) eqn:E; [|done].
    apply lastGoodUntil_spec in E as (?&?&?&?&?&?&?&?&?&?); congruence.
  - destruct Hs as [?|(?&?&?&_)]; [done|congruence].
Qed.

(** every grace ends. Two hours after the pool's deploy, a worker that fell behind and
    whose host's revert, if any, is six hours old is refused, whatever soak it reports. *)
Theorem gate_grace_ends wv pool at_ soak rev policy d :
  fell_behind (reported wv) pool at_ ->
  parse_opt (deployed_at pool) = Some d ->
  d + SOAK_GRACE_MAX_MINUTES * 60000 <= at_ ->
  (forall r t, rev = Some r -> parse_opt (r_at r) = Some t -> t + LAST_GOOD_HOURS * 3600000 <= at_) ->
  required (updateState wv pool at_ soak rev policy) = true.
Proof.
  intros Hf Hd Hat Hrev. apply updateState_required. right. split; [done|].
  destruct (updateState_graces wv pool at_ soak rev policy) as [Hl Hs]. split.
  - destruct Hl as [?|Hl]; [done|]. rewrite Hl.
    destruct (lastGoodUntil _ _ _ _ _) eqn:E; [|done].
    apply lastGoodUntil_spec in E as (r0&t&?&?&Hr&Ht&Hlt&_). pose proof (Hrev r0 t Hr Ht). lia.
  - destruct Hs as [?|(p&_&_&Hs)]; [done|]. rewrite Hs.
    destruct (soakGraceUntil _ _ _ _) eqn:E; [|done].
    apply soakGraceUntil_spec in E as (?&?&dep&_&Hdep&_&_&Hlt&_). rewrite Hd in Hdep.
    injection Hdep as <-. lia.
Qed.

Lemma gate_grace_ends_witness :
  required (updateState (Some "v1.0.3") {| version := "v1.0.5"; deployed_at := Some (iso 1791000000000) |}
    (1791000000000 + 7200000) (Some {| s_until := Some (iso 1791100000000); s_quarantined := [] |})
    (Some {| r_from := "v1.0.5"; r_at := Some (iso 1790000000000); r_applied := Some "v1.0.3" |})
    RELEASE_POLICY) = true.
Proof.
  apply (gate_grace_ends _ _ _ _ _ _ 1791000000000).
  - exists 1, 0, 3, 1, 0, 5, 1791000000000. repeat split; try (vm_compute; reflexivity).
    right. left. lia.
  - vm_compute. reflexivity.
  - vm_compute. discriminate.
  - intros r t [= <-] Ht. vm_compute in Ht. injection Ht as <-. vm_compute. discriminate.
Defined.

Lemma gate_revoked_witness :
  required (updateState (Some "v1.0.4") {| version := "v1.0.4"; deployed_at := None |} 0 None None
    {| min_release := "v1.0.0"; revoked := ["v1.0.4"] |}) = true.
Proof. apply gate_revoked. vm_compute. reflexivity. Defined.

(** The reports a host sends, each with the pool's time of it. *)
Definition after_reports (st : RevertState) (reports : list (json * string)) : RevertState :=
  fold_left (fun st r => revertAfter st (fst r) (snd r)) reports st.

Lemma revertAfter_from_same st j a :
  rv_from (revertAfter st j a) = rv_from st -> truthyo (rv_at st) = true ->
  rv_from st <> None -> rv_at (revertAfter st j a) = rv_at st.
Proof.
  unfold revertAfter. cbn [rv_from rv_at]. intros -> Ht Hn.
  destruct (rv_from st) as [f|]; [|done].
  assert (ostr_eqb (Some f) (Some f) = true) as -> by (by apply ostr_eqb_eq).
  by rewrite Ht.
Qed.

Lemma revertAfter_from_new st j a f :
  rv_from (revertAfter st j a) = Some f -> rv_from st <> Some f ->
  rv_at (revertAfter st j a) = Some a.
Proof.
  unfold revertAfter. cbn [rv_from rv_at]. intros -> Hn.
  destruct (ostr_eqb (Some f) (rv_from st)) eqn:E; [|done].
  apply ostr_eqb_eq in E. congruence.
Qed.

Lemma after_reports_at st reports f a :
  rv_from st = Some f -> rv_at st = Some a -> truthy a = true ->
  (forall n, (n <= length reports)%nat -> rv_from (after_reports st (firstn n reports)) = Some f) ->
  rv_at (after_reports st reports) = Some a.
Proof.
  revert st. induction reports as [|[j b] rs IH]; intros st Hf Ha Ht Hall; [done|].
  cbn [after_reports fold_left fst snd]. apply IH; [|  | done |].
  - apply (Hall 1%nat). simpl. lia.
  - rewrite <- Ha. apply revertAfter_from_same; [|by rewrite Ha|by rewrite Hf].
    rewrite Hf. apply (Hall 1%nat). simpl. lia.
  - intros n Hn. apply (Hall (S n)). simpl. lia.
Qed.

(** a revert's six hours start once. Over any sequence of reports that keep naming the
    release reverted in the first, the host claims on its last-good no later than six hours
    after that first report, however often it reverts the release again. *)
Theorem revert_clock_never_restarts st first a reports f yours latest applied at_ policy t0 :
  rv_from st <> Some f ->
  (forall n, (n <= length reports)%nat ->
     rv_from (after_reports (revertAfter st first a) (firstn n reports)) = Some f) ->
  parse_opt (Some a) = Some t0 ->
  t0 + LAST_GOOD_HOURS * 3600000 <= at_ ->
  let st' := after_reports (revertAfter st first a) reports in
  lastGoodUntil (Some {| r_from := f; r_at := rv_at st'; r_applied := applied |}) yours latest at_ policy
  = None.
Proof.
  intros Hn Hall Ha Hat st'.
  assert (Hat' : rv_at st' = Some a).
  { apply (after_reports_at _ _ f); [apply (Hall 0%nat); lia| | |done].
    - apply (revertAfter_from_new _ _ _ f); [apply (Hall 0%nat); lia|done].
    - unfold parse_opt in Ha. simpl in Ha. by destruct (truthy a). }
  destruct (lastGoodUntil _ _ _ _ _) eqn:E; [|done].
  apply lastGoodUntil_spec in E as (r0&t&?&?&[= <-]&Ht&Hlt&_). cbn [r_at] in Ht.
  rewrite Hat', Ha in Ht. injection Ht as <-. lia.
Qed.

Definition rolled_back_report : json :=
  JObj [("round", JObj [("outcome", JStr "rolled-back"); ("from", JStr "v1.0.5")]);
        ("quarantine", JArr [JObj [("release", JStr "v1.0.5"); ("until", JNull)]])].
Definition held_report : json :=
  JObj [("round", JObj [("outcome", JStr "held")]);
        ("quarantine", JArr [JObj [("release", JStr "v1.0.5"); ("until", JNull)]])].

Lemma revert_clock_never_restarts_witness :
  lastGoodUntil
    (Some {| r_from := "v1.0.5";
             r_at := rv_at (after_reports (revertAfter {| rv_from := None; rv_at := None |}
                              rolled_back_report (iso 1791000000000))
                              [(held_report, iso 1791000300000); (rolled_back_report, iso 1791010000000)]);
             r_applied := Some "v1.0.4" |})
    (Some "v1.0.4") "v1.0.5" 1791021600000 RELEASE_POLICY = None.
Proof.
  apply (revert_clock_never_restarts {| rv_from := None; rv_at := None |} rolled_back_report
           (iso 1791000000000) [(held_report, iso 1791000300000); (rolled_back_report, iso 1791010000000)]
           "v1.0.5" _ _ _ _ _ 1791000000000).
  - done.
  - intros [|[|[|n]]] Hn; vm_compute; reflexivity.
  - vm_compute. reflexivity.
  - vm_compute. discriminate.
Defined.

(** the host page says what the gate does: its words open with "refused with 426" for
    a claim the gate refuses, and only for one; a host on the pool's release has none. *)
Theorem gateWords_agree wv pool at_ soak rev policy da :
  let u := updateState wv pool at_ soak rev policy in
  (required u = true <->
   exists m, gateWords u soak da at_ rev = Some ("refused with 426 — " +:+ m))
  /\ (gateWords u soak da at_ rev = None <-> u_revoked u = false /\ outdated u = false).
Proof.
  intros u.
  assert (Hrev : u_revoked u = true -> required u = true).
  { unfold u. rewrite updateState_required, updateState_revoked. auto. }
  assert (Hout : u_revoked u = false -> outdated u = false -> required u = false).
  { intros Hv Ho. destruct (required u) eqn:E; [|done]. unfold u in *.
    apply updateState_required in E as [E|[E _]].
    - rewrite updateState_revoked in Hv. congruence.
    - rewrite fell_behind_outdated in Ho; done. }
  assert (Hgr : u_revoked u = false -> last_good_until u <> None \/ soaking_until u <> None ->
                required u = false).
  { intros Hv Hg. destruct (required u) eqn:E; [|done]. unfold u in *.
    apply updateState_required in E as [E|(_&?&?)]; [|by destruct Hg].
    rewrite updateState_revoked in Hv. congruence. }
  clearbody u. unfold gateWords.
  destruct (u_revoked u) eqn:Er.
  { split; [|split; [done|by intros [? _]]]. split; [|auto]. intros _. eexists. reflexivity. }
  destruct (outdated u) eqn:Eo.
  2: { rewrite (Hout eq_refl eq_refl). simpl. split; [|done]. split; [done|]. by intros [? ?]. }
  cbn [negb]. destruct (last_good_until u) eqn:El.
  { rewrite (Hgr eq_refl) by (left; discriminate).
    split; [|split; [done|by intros [_ ?]]]. split; [done|]. by intros [? ?]. }
  destruct (soaking_until u) eqn:Es.
  { rewrite (Hgr eq_refl) by (right; discriminate).
    split; [|split; [done|by intros [_ ?]]]. split; [done|]. by intros [? ?]. }
  destruct (required u); cbn [negb].
  - split; [|split; [done|by intros [_ ?]]]. split; [|done]. intros _. eexists. reflexivity.
  - split; [|split; [done|by intros [_ ?]]]. split; [done|]. by intros [? ?].
Qed.
