(* ===== verification/Selection.v ===== *)
(** * Selection (worker/src/selection.ts): the data and the operations

    Which queued task a claim of a registration is handed, over the fleet
    alive, the leases the pool holds and a clock. Pure, as the source is. Times
    are milliseconds; free disk is a rational number of GB, as hosts report it;
    every other number is whole. An optional field the source leaves undefined
    is [None] or [false], as the source reads it. *)
From S2P Require Import Prelude JsTime.
Local Open Scope string_scope.
Local Open Scope Z_scope.

Inductive Mode := native | emulated.
#[export] Instance Mode_eq_dec : EqDecision Mode.
Proof. solve_decision. Defined.

Definition mode_eqb (a b : Mode) : bool :=
  match a, b with native, native | emulated, emulated => true | _, _ => false end.

Record Lane := { l_arch : string; l_mode : Mode; page16k : option bool }.

(** A lease the pool holds. *)
Record Held := {
  h_task : Z; by_ : string; h_kind : string; h_arch : string; h_lane : option Mode;
  h_units : Z; h_model : bool; h_trust : string; h_owner : option string; h_disk_gb : Z }.

Inductive Scope := Shost | Sproject | Scommunity.

Record Disk := { work : Q; engine : Q }.

(** A host's reservation mark. *)
Record Mark := { mk_task : Z; mk_since : Z }.

(** A registration of the fleet. *)
Record Member := {
  m_id : string;
  legacy : bool;
  m_lanes : list Lane;
  sandbox : bool;
  m_units : Z;
  agent_slots : Z;
  m_disk : option Disk;
  m_kinds : list string;
  probe_ok : bool;
  drained : bool;
  below_minimum : bool;
  below_disk : option Disk;
  may_claim : bool;
  m_behind : bool;
  seen_at : Z;
  alive_ms : option Z;
  reserving : option Mark;
  m_scope : Scope;
  busy : bool;
  asleep : bool;
  offer : option Z;
  m_owner : option string;
  m_model : option string }.

(** A registration's machine, as far as the pool tells machines apart. *)
Record Machine := { mc_owner : option string }.

Record Candidate := {
  c_id : Z;
  c_name : string;
  c_kind : string;
  c_arch : string;
  c_trust : string;
  c_owner : option string;
  c_priority : Z;
  c_queued_at : Z;
  c_pinned_to : option string;
  needs_native : bool;
  refused_4k : bool;
  c_model : bool;
  c_size : option Z;
  c_disk_gb : option Z;
  native_ms : option Z;
  reserved_at : option Z;
  job_arch : option string;
  publish_bound : bool;
  requesters : list string;
  any_host : option string;
  solo : option string;
  built_by : option string;
  built_with : option string;
  built_on : option Machine }.

(** The signed constants and the settings selection runs with. *)
Record Rules := {
  r_build_per_size : Z; r_trial : Z; r_audit : Z; r_job : Z; r_job_reserved : Z;
  r_max_size : Z; r_community_max_size : Z; r_gb_per_size : Z; r_floor_gb : Z;
  r_emulated_share : Q; r_owner_divisor : Z; r_legacy_any_arch : list string }.

(** A registration's model and when it last answered. *)
Record ModelSeen := { ms_id : string; ms_model : string; ms_at : Z }.

Record Fleet := { members : list Member; leases : list Held; models : list ModelSeen }.

Inductive Independence := Imodel | Ihost | Inone.

(** A candidate a registration may take, as its lease is written. *)
Record Choice := {
  ch_id : Z; ch_lane : option Mode; ch_size : option Z; ch_asked : option Z; ch_units : Z;
  ch_disk_gb : option Z; share : bool; independent : option Independence }.

Definition ALIVE_MS : Z := 2 * MIN.
Definition T_MIN_MS : Z := 3 * MIN.
Definition T_MAX_MS : Z := 60 * MIN.
Definition RESERVE_AFTER_MS : Z := 30 * MIN.
Definition RESERVE_FOR_MS : Z := 120 * MIN.
Definition MODEL_WINDOW_MS : Z := 24 * 60 * MIN.
Definition ELSEWHERE_MS : Z := T_MIN_MS.

Definition cooling (reservedAt : option Z) (now : Z) : bool :=
  match reservedAt with
  | None => false
  | Some t => (t <=? now - RESERVE_FOR_MS) && (now - RESERVE_FOR_MS - RESERVE_AFTER_MS <? t)
  end.

Definition OWNER_DIVISOR : Z := 4.
Definition LANE_KINDS : list string := ["build"; "trial"].
Definition HELPER_KINDS : list string := ["health"].
Definition RING_ARCHES : list string := ["x86_64"; "aarch64"].
Definition RING_JOBS : list string := ["promote"; "security"].

(** The architectures a job's helper containers run; [None] for a kind that starts none. *)
Definition helperArches (c : Candidate) : option (list string) :=
  if str_in (c_kind c) HELPER_KINDS then Some [c_arch c]
  else if String.eqb (c_kind c) "promote" then
    Some (match job_arch c with
          | Some a => if truthy a && str_in a RING_ARCHES then [a] else RING_ARCHES
          | None => RING_ARCHES
          end)
  else if String.eqb (c_kind c) "security" then Some RING_ARCHES
  else None.

Definition TASK_KINDS : list string := ["build"; "trial"; "audit"].

Definition alive (m : Member) (now : Z) : bool := now - default ALIVE_MS (alive_ms m) <? seen_at m.

Definition thresholdMs (nativeMs : option Z) : Z :=
  match nativeMs with
  | None => T_MIN_MS
  | Some n => if 0 <? n then Z.min T_MAX_MS (Z.max T_MIN_MS (2 * n)) else T_MIN_MS
  end.

Definition buildsOf (m : Member) (r : Rules) : Z :=
  if legacy m then (if str_in "build" (m_kinds m) then 1 else 0)
  else Z.max 0 ((m_units m - r_job_reserved r) / r_build_per_size r).

Definition counts (m : Member) (now : Z) : bool :=
  alive m now && may_claim m && negb (below_minimum m) && negb (asleep m).

Definition largestSize (fleet : Fleet) (now : Z) (r : Rules) : Z :=
  fold_left (fun best m => if counts m now then Z.max best (Z.min (r_max_size r) (buildsOf m r)) else best)
    (members fleet) 1.

(** The size a build gets, and the size asked after the signed clamp. *)
Record Sized := { s_size : Z; s_asked : Z }.

Definition sizeOf (c : Candidate) (largest : Z) (r : Rules) : option Sized :=
  if negb (String.eqb (c_kind c) "build") then None
  else
    let max := if String.eqb (c_trust c) "community" then r_community_max_size r else r_max_size r in
    let asked := Z.min (Z.max (default 1 (c_size c)) 1) max in
    Some {| s_size := Z.min asked largest; s_asked := asked |}.

Definition unitsOf (kind : string) (size : option Z) (r : Rules) : Z :=
  if String.eqb kind "build" then r_build_per_size r * default 1 size
  else if String.eqb kind "trial" then r_trial r
  else if String.eqb kind "audit" then r_audit r
  else r_job r.

Definition diskOf (c : Candidate) (size : option Z) (r : Rules) : option Z :=
  if negb (String.eqb (c_kind c) "build") then None
  else Some (default (r_gb_per_size r * default 1 size) (c_disk_gb c)).

Definition contributorsCode (c : Candidate) : bool :=
  negb (String.eqb (c_kind c) "build" && String.eqb (c_trust c) "project" && negb (publish_bound c)).

(** The lane a registration runs a candidate on; [byLane] when native is
    preferred and the emulated lane waits. *)
Record LaneChoice := { lc_mode : option Mode; byLane : bool }.

Definition laneFor (m : Member) (c : Candidate) (r : Rules) : option LaneChoice :=
  let ls := List.filter (fun l => String.eqb (l_arch l) (c_arch c)) (m_lanes m) in
  let nat := existsb (fun l => mode_eqb (l_mode l) native) ls in
  if str_in (c_kind c) LANE_KINDS then
    if nat then Some {| lc_mode := Some native; byLane := true |}
    else if sandbox m && contributorsCode c then None
    else match ls with [] => None | _ => Some {| lc_mode := Some emulated; byLane := true |} end
  else if legacy m then
    match ls with
    | l :: _ => Some {| lc_mode := Some (l_mode l); byLane := false |}
    | [] => if str_in (c_kind c) (r_legacy_any_arch r) then Some {| lc_mode := None; byLane := false |} else None
    end
  else if str_in (c_kind c) HELPER_KINDS then
    match ls with
    | [] => None
    | _ => Some {| lc_mode := Some (if nat then native else emulated); byLane := false |}
    end
  else
    match helperArches c with
    | Some hs =>
        if forallb (fun a => existsb (fun l => String.eqb (l_arch l) a) (m_lanes m)) hs
        then Some {| lc_mode := None; byLane := false |} else None
    | None => Some {| lc_mode := None; byLane := false |}
    end.

Definition is_4k (l : Lane) : bool := match page16k l with Some false => true | _ => false end.

Definition emulationRefuses (m : Member) (c : Candidate) : bool :=
  if refused_4k c then true
  else needs_native c
       && negb (existsb (fun l => String.eqb (l_arch l) (c_arch c) && mode_eqb (l_mode l) emulated && is_4k l)
                  (m_lanes m)).

Definition takes (m : Member) (c : Candidate) : bool :=
  if negb (str_in (c_kind c) (m_kinds m)) then false
  else if match c_pinned_to c with Some p => negb (String.eqb p (m_id m)) | None => false end then false
  else if c_model c && negb (probe_ok m) then false
  else match m_scope m with
       | Sproject => negb (String.eqb (c_kind c) "build" && String.eqb (c_trust c) "community")
       | Scommunity => String.eqb (c_trust c) "community"
       | Shost => true
       end.

Definition heldBy (fleet : Fleet) (m : Member) : list Held :=
  if legacy m then [] else List.filter (fun l => String.eqb (by_ l) (m_id m)) (leases fleet).

(** Free units for a task, and for a pool job. *)
Record Room := { rm_task : Z; rm_job : Z }.

Definition is_task_kind (k : string) : bool := str_in k TASK_KINDS.
Definition task_units (held : list Held) : Z :=
  zsum (fun l => if is_task_kind (h_kind l) then h_units l else 0) held.
Definition job_units (held : list Held) : Z :=
  zsum (fun l => if is_task_kind (h_kind l) then 0 else h_units l) held.

Definition roomOf (m : Member) (held : list Held) (r : Rules) : Room :=
  let tasks := task_units held in
  let jobs := job_units held in
  {| rm_task := m_units m - Z.max (r_job_reserved r) jobs - tasks; rm_job := m_units m - tasks - jobs |}.

(** The disk budgets of the builds a registration holds. *)
Definition budgets (held : list Held) : Z :=
  zsum (fun l => if String.eqb (h_kind l) "build" then h_disk_gb l else 0) held.

Definition Qmin (a b : Q) : Q := if Qle_bool a b then a else b.
Definition Qltb (a b : Q) : bool := negb (Qle_bool b a).

(** Why a candidate does not fit a registration's free capacity now; [None] when it fits. *)
Definition noRoom (m : Member) (held : list Held) (c : Candidate) (units : Z) (disk_ : option Z)
    (r : Rules) : option string :=
  if legacy m then (if r_build_per_size r <? units then Some "units" else None)
  else
    let room := roomOf m held r in
    if (if is_task_kind (c_kind c) then rm_task room else rm_job room) <? units then Some "units"
    else if match offer m with Some o => o <? units | None => false end then Some "memory"
    else if c_model c && (agent_slots m <=? Z.of_nat (length (List.filter h_model held))) then Some "agent slot"
    else if String.eqb (c_kind c) "build" then
      match m_disk m with
      | None => Some "disk"
      | Some d =>
          let free := (Qmin (work d) (engine d) - inject_Z (budgets held))%Q in
          if Qltb free (inject_Z (default 0 disk_ + r_floor_gb r)) then Some "disk" else None
      end
    else None.

Definition reservingNow (m : Member) (now : Z) : option Mark :=
  match reserving m with
  | Some mk => if now - RESERVE_FOR_MS <? mk_since mk then Some mk else None
  | None => None
  end.

(** The project's copy of a package: a publish-bound build. *)
Definition projectCopy (c : Candidate) : bool := String.eqb (c_kind c) "build" && publish_bound c.

(** A registration of one of the package's requesters never takes the
    project's copy of it, unless another maintainer released it to any host or
    the solo-maintainer exception names its owner. *)
Definition requesterHost (m : Member) (c : Candidate) : bool :=
  projectCopy c && negb (truthyo (any_host c))
  && match m_owner m with
     | None => false
     | Some o => negb (ostr_eqb (Some o) (solo c)) && str_in o (requesters c)
     end.

(** A legacy registration that holds something. *)
Definition legacy_busy (fleet : Fleet) (m : Member) : bool :=
  legacy m && (busy m || existsb (fun l => String.eqb (by_ l) (m_id m)) (leases fleet)).

(** It reserves for another task. *)
Definition reservesOther (m : Member) (c : Candidate) (now : Z) : bool :=
  match reservingNow m now with Some mk => negb (mk_task mk =? c_id c) | None => false end.

Definition fits (m : Member) (held : list Held) (c : Candidate) (units : Z) (disk : option Z) (r : Rules) : bool :=
  match noRoom m held c units disk r with None => true | Some _ => false end.

Definition nativeCapacity (fleet : Fleet) (c : Candidate) (now : Z) (r : Rules) (except : string) : bool :=
  let largest := largestSize fleet now r in
  let s := s_size <$> sizeOf c largest r in
  let units := unitsOf (c_kind c) s r in
  let disk := diskOf c s r in
  existsb (fun x =>
    negb (String.eqb (m_id x) except || negb (counts x now) || drained x || m_behind x)
    && existsb (fun l => String.eqb (l_arch l) (c_arch c) && mode_eqb (l_mode l) native) (m_lanes x)
    && negb (negb (takes x c) || requesterHost x c)
    && negb (reservesOther x c now)
    && negb (legacy_busy fleet x)
    && fits x (heldBy fleet x) c units disk r) (members fleet).

(** A host's free disk once the builds it holds end. *)
Definition idleDisk (d : Disk) (held : list Held) : Disk :=
  {| work := (work d + inject_Z (budgets held))%Q; engine := (engine d + inject_Z (budgets held))%Q |}.

(** The registration once it holds nothing and nothing holds its builds back. *)
Definition idle_of (m : Member) (held : list Held) : Member :=
  if legacy m then m
  else {| m_id := m_id m; legacy := legacy m; m_lanes := m_lanes m; sandbox := sandbox m;
          m_units := m_units m; agent_slots := agent_slots m;
          m_disk := (fun d => idleDisk d held) <$> m_disk m;
          m_kinds := if str_in "build" (m_kinds m) then m_kinds m else m_kinds m ++ ["build"];
          probe_ok := probe_ok m; drained := drained m; below_minimum := below_minimum m;
          below_disk := below_disk m; may_claim := may_claim m; m_behind := m_behind m;
          seen_at := seen_at m; alive_ms := alive_ms m; reserving := reserving m;
          m_scope := m_scope m; busy := busy m; asleep := asleep m; offer := None;
          m_owner := m_owner m; m_model := m_model m |}.

Definition emulated_refused (m : Member) (c : Candidate) (lane : LaneChoice) : bool :=
  byLane lane && match lc_mode lane with Some emulated => emulationRefuses m c | _ => false end.

Definition mayRun (m : Member) (c : Candidate) (now : Z) (r : Rules) (largest : Z) (held : list Held) : bool :=
  let idle := idle_of m held in
  let below := below_minimum m
    && negb (match below_disk m, m_disk idle with
             | Some b, Some d => Qle_bool (work b) (work d) && Qle_bool (engine b) (engine d)
             | _, _ => false
             end) in
  if negb (alive m now) || negb (may_claim m) || below || drained m || m_behind m || asleep m
     || negb (takes idle c) then false
  else match laneFor m c r with
       | None => false
       | Some lane =>
           if emulated_refused m c lane then false
           else let size := s_size <$> sizeOf c largest r in
                fits idle [] c (unitsOf (c_kind c) size r) (diskOf c size r) r
       end.

Definition notClaiming (m : Member) (now : Z) : option string :=
  if negb (may_claim m) then Some "it is handed nothing: it is not active, or its owner is no longer a maintainer"
  else if drained m then Some "its registration is drained"
  else if m_behind m then Some "it is behind the pool's release past the grace (426)"
  else if asleep m then Some "its agent says it sleeps"
  else if below_minimum m && match below_disk m with None => true | Some _ => false end
  then Some "it is below the signed minimum to join"
  else if negb (alive m now)
  then Some ("it has not claimed in the last " +:+ zstr (round_div (default ALIVE_MS (alive_ms m)) MIN) +:+ " minutes")
  else None.

(** The candidate pinned to a registration. *)
Definition pin_to (c : Candidate) (m : string) : Candidate :=
  {| c_id := c_id c; c_name := c_name c; c_kind := c_kind c; c_arch := c_arch c; c_trust := c_trust c;
     c_owner := c_owner c; c_priority := c_priority c; c_queued_at := c_queued_at c;
     c_pinned_to := Some m; needs_native := needs_native c; refused_4k := refused_4k c;
     c_model := c_model c; c_size := c_size c; c_disk_gb := c_disk_gb c; native_ms := native_ms c;
     reserved_at := reserved_at c; job_arch := job_arch c; publish_bound := publish_bound c;
     requesters := requesters c; any_host := any_host c; solo := solo c; built_by := built_by c;
     built_with := built_with c; built_on := built_on c |}.

Definition repinRefusal (m : Member) (c : Candidate) (now : Z) (r : Rules) (largest : Z)
    (held : list Held) (agent : option string) : option string :=
  match notClaiming m now with
  | Some w => Some w
  | None =>
  if requesterHost m c then
    Some ("the project's copy of " +:+ c_name c +:+ " is not built on its requester's host (D35)")
  else match laneFor m c r with
  | None =>
      Some (if existsb (fun l => String.eqb (l_arch l) (c_arch c)) (m_lanes m)
            then "its " +:+ c_arch c +:+ " lane is emulated beside a sandbox, which takes the project's own recipes only (#330)"
            else "it has no lane for " +:+ c_arch c)
  | Some lane =>
  if emulated_refused m c lane then
    Some (if refused_4k c then
            "it needs a native " +:+ c_arch c +:+ " lane (a 4K-page emulated lane refused it too), and this host runs "
            +:+ c_arch c +:+ " emulated"
          else
            "it needs a native or 4K-page " +:+ c_arch c +:+ " lane, and this host runs " +:+ c_arch c +:+ " emulated "
            +:+ (if existsb (fun l => String.eqb (l_arch l) (c_arch c) && mode_eqb (l_mode l) emulated
                                      && match page16k l with Some b => b | None => false end) (m_lanes m)
                 then "on 16K pages" else "on pages it does not report"))
  else if negb (str_in (c_kind c) (m_kinds m)) && negb (String.eqb (c_kind c) "build") then
    Some ("it takes no " +:+ c_kind c)
  else if truthyo agent && negb (ostr_eqb (m_model m) agent) then
    Some ("its pin chose the agent " +:+ default "" agent +:+ ", and this host's is "
          +:+ default "not reported" (m_model m))
  else if c_model c && negb (probe_ok m) then
    Some "its agent's probe fails: model work would wait for it"
  else if mayRun m (pin_to c (m_id m)) now r largest held then None
  else Some "it could not hold it once idle at its size: its units under the pool's cap, an agent slot or its disk"
  end
  end.

(** Where the project's copy of a package may run. *)
Record SoloPlacement := { maintainer : string; hosts : list string }.
Record Placement := { others : list string; mine : list string; held_ : bool; p_solo : option SoloPlacement }.

Definition placementOf (fleet : Fleet) (c : Candidate) (now : Z) (r : Rules) : Placement :=
  let exempt := match solo c with
                | Some s => if str_in s (requesters c) then Some s else None
                | None => None
                end in
  let largest := largestSize fleet now r in
  let able := if projectCopy c
              then List.filter (fun m => match m_owner m with
                                    | None => false
                                    | Some _ => mayRun m c now r largest (heldBy fleet m)
                                    end) (members fleet)
              else [] in
  let ours := fun m => match m_owner m with Some o => str_in o (requesters c) | None => false end in
  let mine := map m_id (List.filter ours able) in
  let others := map m_id (List.filter (fun m => negb (ours m)) able) in
  let own := map m_id (List.filter (fun m => ostr_eqb (m_owner m) exempt) able) in
  {| others := others; mine := mine;
     held_ := projectCopy c && negb (truthyo (any_host c))
              && match others with [] => true | _ => false end
              && match own with [] => true | _ => false end
              && match mine with [] => false | _ => true end;
     p_solo := match exempt with
               | Some s => if projectCopy c && truthy s then Some {| maintainer := s; hosts := own |} else None
               | None => None
               end |}.

Definition otherModels (fleet : Fleet) (c : Candidate) (now : Z) : list string :=
  match built_with c with
  | Some w =>
      if truthy w then
        dedup (map ms_model (List.filter (fun x => (now - MODEL_WINDOW_MS <? ms_at x)
                                              && negb (String.eqb (ms_model x) w)) (models fleet)))
      else []
  | None => []
  end.

Definition needsOtherModel (fleet : Fleet) (c : Candidate) (now : Z) : bool :=
  String.eqb (c_kind c) "audit" && publish_bound c
  && match otherModels fleet c now with [] => false | _ => true end.

(** Another model than the one that built what an audit audits: both known, and not the same. *)
Definition anotherModel (m : Member) (c : Candidate) : bool :=
  truthyo (m_model m) && truthyo (built_with c) && negb (ostr_eqb (m_model m) (built_with c)).

(** Certainly different machines: different owners, both known. *)
Definition apart (a b : Machine) : bool :=
  match mc_owner a, mc_owner b with
  | Some x, Some y => negb (String.eqb x y)
  | _, _ => false
  end.

Definition besideBuilder (m : Member) (c : Candidate) : bool :=
  match built_by c with
  | None => false
  | Some b => String.eqb (m_id m) b
              || negb (apart {| mc_owner := m_owner m |} (default {| mc_owner := None |} (built_on c)))
  end.

Definition auditElsewhere (fleet : Fleet) (c : Candidate) (now : Z) (r : Rules) (except : string) : bool :=
  let model := needsOtherModel fleet c now in
  existsb (fun x =>
    negb (String.eqb (m_id x) except || besideBuilder x c || negb (counts x now) || drained x || m_behind x)
    && negb (negb (takes x c) || match laneFor x c r with None => true | Some _ => false end
             || (model && negb (anotherModel x c)))
    && negb (reservesOther x c now)
    && negb (legacy_busy fleet x)
    && fits x (heldBy fleet x) c (unitsOf (c_kind c) None r) None r) (members fleet).

Definition independenceOf (m : Member) (c : Candidate) : option Independence :=
  if negb (String.eqb (c_kind c) "audit") then None
  else if anotherModel m c then Some Imodel
  else if negb (publish_bound c) && match built_by c with Some _ => true | None => false end
          && negb (besideBuilder m c) then Some Ihost
  else Some Inone.

(** The per-owner cap; [None] when the divisor lifts it. *)
Definition ownerCap (fleet : Fleet) (now : Z) (r : Rules) : option Z :=
  if 0 <? r_owner_divisor r then
    let total := zsum (fun m => if counts m now then buildsOf m r else 0) (members fleet) in
    Some (Z.max 1 ((total + r_owner_divisor r - 1) / r_owner_divisor r))
  else None.

Definition communityBuild (kind trust : string) : bool :=
  String.eqb kind "build" && String.eqb trust "community".

(** Each owner's community builds leased across the fleet. *)
Definition ownersLeased (fleet : Fleet) : gmap string Z :=
  fold_left (fun n l =>
    match h_owner l with
    | Some o => if communityBuild (h_kind l) (h_trust l) && truthy o
                then <[o := default 0 (n !! o) + 1]> n else n
    | None => n
    end) (leases fleet) ∅.

(** How many the candidate's owner holds, and whether the cap holds it back. *)
Definition leasedOf (leased : gmap string Z) (c : Candidate) : Z :=
  match c_owner c with
  | Some o => if communityBuild (c_kind c) (c_trust c) && truthy o then default 0 (leased !! o) else 0
  | None => 0
  end.
Definition capped (leased : gmap string Z) (cap : option Z) (c : Candidate) : bool :=
  match c_owner c, cap with
  | Some o, Some cap => communityBuild (c_kind c) (c_trust c) && truthy o && (cap <=? default 0 (leased !! o))
  | _, _ => false
  end.

(** ** [select] *)

(** What [select] reads once for a claim, before it weighs the candidates. *)
Record Claim := {
  k_held : list Held; k_largest : Z; k_cap : option Z; k_leased : gmap string Z;
  k_emulatedCap : Z; k_emulatedHeld : Z }.

(** The mark of a host, and the marked task among the candidates. *)
Definition markOf (H : Member) (now : Z) : option Mark := if legacy H then None else reservingNow H now.
Definition markedOf (H : Member) (candidates : list Candidate) (now : Z) : option Candidate :=
  mk ← markOf H now; List.find (fun c => c_id c =? mk_task mk) candidates.

(** While the host's free units are below its marked task's, it takes that
    task and pool jobs only. *)
Definition poolOf (H : Member) (fleet : Fleet) (candidates : list Candidate) (now : Z) (r : Rules)
  : list Candidate :=
  match markOf H now, markedOf H candidates now with
  | Some mk, Some marked =>
      let free := rm_task (roomOf H (heldBy fleet H) r) in
      if free <? unitsOf (c_kind marked) (s_size <$> sizeOf marked (largestSize fleet now r) r) r
      then List.filter (fun c => (c_id c =? mk_task mk) || negb (is_task_kind (c_kind c))) candidates
      else candidates
  | _, _ => candidates
  end.

Definition emulatedCapOf (H : Member) (pool : list Candidate) (r : Rules) : Z :=
  let nativeQueued := existsb (fun c =>
    takes H c
    && match laneFor H c r with Some l => match lc_mode l with Some native => true | _ => false end | None => false end
    && str_in (c_kind c) LANE_KINDS) pool in
  let builds := buildsOf H r in
  Z.max 1 (if nativeQueued then Qceiling (inject_Z builds * r_emulated_share r) else builds - 1)
  * r_build_per_size r.

Definition emulatedHeldOf (held : list Held) : Z :=
  zsum (fun l => if match h_lane l with Some emulated => true | _ => false end && str_in (h_kind l) LANE_KINDS
                 then h_units l else 0) held.

Definition claimOf (H : Member) (fleet : Fleet) (pool : list Candidate) (now : Z) (r : Rules) : Claim :=
  let held := heldBy fleet H in
  {| k_held := held; k_largest := largestSize fleet now r; k_cap := ownerCap fleet now r;
     k_leased := ownersLeased fleet; k_emulatedCap := emulatedCapOf H pool r;
     k_emulatedHeld := emulatedHeldOf held |}.

(** A candidate that passed every filter: its place among the candidates (an
    object's identity), the choice, its effective age and its owner's count. *)
Record Entry := { e_ix : nat; e_choice : Choice; e_c : Candidate; e_age : Z; e_key : Z }.

(** An audit's second opinion holds it back from this registration now. *)
Definition audit_waits (H : Member) (fleet : Fleet) (c : Candidate) (now : Z) (r : Rules) : bool :=
  String.eqb (c_kind c) "audit"
  && ((needsOtherModel fleet c now && negb (anotherModel H c))
      || (besideBuilder H c && (now - c_queued_at c <? ELSEWHERE_MS)
          && auditElsewhere fleet c now r (m_id H))).

(** Native is preferred, and this lane is emulated. *)
Definition on_emulated (lane : LaneChoice) : bool :=
  byLane lane && match lc_mode lane with Some emulated => true | _ => false end.

(** What an emulated lane asks: its marks, its wait, the work-conserving cap. *)
Definition emulated_waits (H : Member) (fleet : Fleet) (k : Claim) (c : Candidate) (units now : Z) (r : Rules) : bool :=
  emulationRefuses H c
  || ((now - c_queued_at c <? thresholdMs (native_ms c)) && nativeCapacity fleet c now r (m_id H))
  || (negb (legacy H) && (0 <? k_emulatedHeld k) && (k_emulatedCap k <? k_emulatedHeld k + units)).

Definition weigh (H : Member) (fleet : Fleet) (k : Claim) (now : Z) (r : Rules) (ix : nat) (c : Candidate)
  : option Entry :=
  if negb (takes H c) then None
  else if requesterHost H c then None
  else if audit_waits H fleet c now r then None
  else match laneFor H c r with
  | None => None
  | Some lane =>
      let s := sizeOf c (k_largest k) r in
      let units := unitsOf (c_kind c) (s_size <$> s) r in
      let disk := diskOf c (s_size <$> s) r in
      if negb (fits H (k_held k) c units disk r) then None
      else if on_emulated lane && emulated_waits H fleet k c units now r then None
      else if capped (k_leased k) (k_cap k) c then None
      else
        let penalty := if on_emulated lane then thresholdMs (native_ms c) else 0 in
        Some {| e_ix := ix;
                e_choice :=
                  {| ch_id := c_id c; ch_lane := lc_mode lane; ch_size := s_size <$> s;
                     ch_asked := (s ← s; if s_size s <? s_asked s then Some (s_asked s) else None);
                     ch_units := units; ch_disk_gb := disk; share := false;
                     independent := independenceOf H c |};
                e_c := c; e_age := now - c_queued_at c - penalty; e_key := leasedOf (k_leased k) c |}
  end.

(** [a || b || c || d] over numbers: the first that is not 0. *)
Definition orelse (a b : Z) : Z := if a =? 0 then b else a.

(** Priority, the owner's builds (fewest first), effective age (oldest first), id. *)
Definition entry_cmp (a b : Entry) : Z :=
  orelse (c_priority (e_c a) - c_priority (e_c b))
    (orelse (e_key a - e_key b)
       (orelse (e_age b - e_age a) (ch_id (e_choice a) - ch_id (e_choice b)))).

(** The guaranteed emulated share's order: oldest first. *)
Definition share_cmp (a b : Entry) : Z :=
  orelse (c_queued_at (e_c a) - c_queued_at (e_c b)) (ch_id (e_choice a) - ch_id (e_choice b)).

(** An emulated lane the host holds no lease of, whose arch no registration alive runs natively. *)
Definition starved (H : Member) (fleet : Fleet) (held : list Held) (now : Z) (a : string) : bool :=
  (legacy H || negb (existsb (fun l => match h_lane l with Some emulated => String.eqb (h_arch l) a | _ => false end) held))
  && negb (existsb (fun m => alive m now && may_claim m && negb (asleep m)
             && existsb (fun l => String.eqb (l_arch l) a && mode_eqb (l_mode l) native) (m_lanes m)) (members fleet)).

Definition shareable (H : Member) (fleet : Fleet) (held : list Held) (now : Z) (x : Entry) : bool :=
  match ch_lane (e_choice x) with Some emulated => true | _ => false end
  && str_in (c_kind (e_c x)) LANE_KINDS && starved H fleet held now (c_arch (e_c x)).

Definition with_share (ch : Choice) : Choice :=
  {| ch_id := ch_id ch; ch_lane := ch_lane ch; ch_size := ch_size ch; ch_asked := ch_asked ch;
     ch_units := ch_units ch; ch_disk_gb := ch_disk_gb ch; share := true; independent := independent ch |}.

(** The first entry that satisfies [p] goes first. *)
Fixpoint pull {A} (p : A -> bool) (l : list A) : option (A * list A) :=
  match l with
  | [] => None
  | x :: l' => if p x then Some (x, l')
               else match pull p l' with Some (y, rest) => Some (y, x :: rest) | None => None end
  end.
Definition to_front {A} (p : A -> bool) (l : list A) : list A :=
  match pull p l with Some (x, rest) => x :: rest | None => l end.

(** The entries in the order of the queue, and the choices in the order the host takes them. *)
Definition entries (H : Member) (fleet : Fleet) (candidates : list Candidate) (now : Z) (r : Rules) : list Entry :=
  let pool := poolOf H fleet candidates now r in
  let k := claimOf H fleet pool now r in
  sort_by entry_cmp (omap (fun x => x) (imap (weigh H fleet k now r) pool)).

Definition select (H : Member) (fleet : Fleet) (candidates : list Candidate) (now : Z) (r : Rules) : list Choice :=
  if asleep H then []
  else
    let ok := entries H fleet candidates now r in
    let shared := head (sort_by share_cmp (List.filter (shareable H fleet (heldBy fleet H) now) ok)) in
    let order := match shared with
                 | Some s => with_share (e_choice s)
                             :: map e_choice (List.filter (fun x => negb (Nat.eqb (e_ix x) (e_ix s))) ok)
                 | None => map e_choice ok
                 end in
    match markedOf H candidates now with
    | Some marked => to_front (fun x => ch_id x =? c_id marked) order
    | None => order
    end.

(** ** [reserve] *)

Record SetMark := { set_host : string; set_task : Z }.
Record Marks := { m_set : option SetMark; m_clear : list string }.

(** A registration weighed as not reserving and without a claim's memory offer. *)
Definition unmarked (m : Member) : Member :=
  {| m_id := m_id m; legacy := legacy m; m_lanes := m_lanes m; sandbox := sandbox m;
     m_units := m_units m; agent_slots := agent_slots m; m_disk := m_disk m; m_kinds := m_kinds m;
     probe_ok := probe_ok m; drained := drained m; below_minimum := below_minimum m;
     below_disk := below_disk m; may_claim := may_claim m; m_behind := m_behind m;
     seen_at := seen_at m; alive_ms := alive_ms m; reserving := None; m_scope := m_scope m;
     busy := busy m; asleep := asleep m; offer := None; m_owner := m_owner m; m_model := m_model m |}.

(** The mark a member keeps: one that holds, whose task still waits, on a host alive and awake. *)
Definition keeps_mark (queued : Z -> bool) (now : Z) (m : Member) : bool :=
  match reservingNow m now with
  | Some mk => queued (mk_task mk) && alive m now && negb (asleep m)
  | None => false
  end.

(** Free units, most first, then the lowest id. *)
Definition best_cmp (fleet : Fleet) (r : Rules) (a b : Member) : Z :=
  let free m := rm_task (roomOf m (heldBy fleet m) r) in
  orelse (free b - free a) (if str_ltb (m_id a) (m_id b) then -1 else 1).

Definition without (m : Member) (fleet : Fleet) : Fleet :=
  {| members := members fleet;
     leases := List.filter (fun l => negb (String.eqb (by_ l) (m_id m))) (leases fleet);
     models := [] |}.

Definition nonempty {A} (l : list A) : bool := match l with [] => false | _ => true end.

(** The search for the task to reserve for: [Some] ends it. *)
Definition reserve_one (fleet : Fleet) (claiming : list Member) (now : Z) (r : Rules) (c : Candidate)
  : option (option SetMark) :=
  if negb (String.eqb (c_kind c) "build") || (now - c_queued_at c <=? RESERVE_AFTER_MS) then None
  else if cooling (reserved_at c) now then None
  else if capped (ownersLeased fleet) (ownerCap fleet now r) c then None
  else if unitsOf (c_kind c) (s_size <$> sizeOf c (largestSize fleet now r) r) r <=? r_build_per_size r then None
  else
    let could := List.filter (fun m => negb (legacy m) && nonempty (select m (without m fleet) [c] now r)) claiming in
    match sort_by (best_cmp fleet r) could with
    | [] => None
    | best :: _ =>
        if existsb (fun m => nonempty (select m fleet [c] now r)) claiming then Some None
        else Some (Some {| set_host := m_id best; set_task := c_id c |})
    end.

Fixpoint reserve_search (fleet : Fleet) (claiming : list Member) (now : Z) (r : Rules) (oldest : list Candidate)
  : option SetMark :=
  match oldest with
  | [] => None
  | c :: rest => match reserve_one fleet claiming now r c with
                 | Some answer => answer
                 | None => reserve_search fleet claiming now r rest
                 end
  end.

Definition reserve (fleet : Fleet) (oldest : list Candidate) (queued : Z -> bool) (now : Z) (r : Rules) : Marks :=
  let marked := List.filter (fun m => match reserving m with Some _ => true | None => false end) (members fleet) in
  let clear := map m_id (List.filter (fun m => negb (keeps_mark queued now m)) marked) in
  if existsb (keeps_mark queued now) marked then {| m_set := None; m_clear := clear |}
  else
    let claiming := map unmarked (List.filter (fun m => counts m now && negb (drained m) && negb (m_behind m)) (members fleet)) in
    {| m_set := reserve_search fleet claiming now r oldest; m_clear := clear |}.
