(* ===== verification/Tasks.v ===== *)
(** * Tasks: the queue's rows and every statement that moves a lease
    (worker/src/lease.ts, worker/src/routes/factory.ts)

    A row of [build_tasks] and each SQL statement over it as a function: the
    claim's lease, the replay, the heartbeat, the completion and failure
    reports, the cron's and the claims' requeues, the stop's fence, the
    cancel and Retry at size. D1 runs one statement at a time, so a sequence
    of statements with whatever arguments their handlers read before is an
    interleaving of requests. Times are milliseconds; a time column compares
    as its text does ([JsTime.iso_order]). *)
From S2P Require Import Prelude JsTime Manifest Selection Update.
Local Open Scope string_scope.
Local Open Scope Z_scope.

Inductive Status := queued | leased | staged | done_ | failed | cancelled.
#[export] Instance Status_eq_dec : EqDecision Status.
Proof. solve_decision. Defined.
Definition status_word (s : Status) : string :=
  match s with
  | queued => "queued" | leased => "leased" | staged => "staged" | done_ => "done" | failed => "failed" | cancelled => "cancelled"
  end.

(** What a task is; no statement here changes it. *)
Record What := {
  t_name : string; t_arch : string; t_kind : string; t_trust : string; t_owner : option string;
  max_attempts : Z; publish : bool; review : option Z; pkgbuild_ref : string }.

(** A lease's columns. *)
Record Lease := {
  lease_owner : option string; lease_expires_at : option Z; lease_gen : option string;
  claim_id : option string; release : option string; lane : option Mode; size : option Z;
  units : option Z; disk_gb : option Z; t_independent : option Independence; lease_missed : Z;
  stop_order : option string; started_at : option Z }.

(** A row of [build_tasks]; [m_native] and [m_4k] are its params' [needs_native] and [refused_4k]. *)
Record Task := {
  what : What; status : Status; lease : Lease; attempts : Z; host_losses : Z; priority : Z;
  error : option string; finished_at : option Z; pinned_to : option string; reserved_at : option Z;
  m_native : bool; m_4k : bool; p_size : option Z }.

(** A host's row as the lease statement reads it. *)
Record HostRow := {
  h_active : bool; h_owner_removed : bool; h_owner_listed : bool;
  asleep_at : option Z; reported_at : option Z }.

Record DB := { tasks : gmap Z Task; host_rows : gmap string HostRow }.

Definition no_lease : Lease :=
  {| lease_owner := None; lease_expires_at := None; lease_gen := None; claim_id := None; release := None;
     lane := None; size := None; units := None; disk_gb := None; t_independent := None; lease_missed := 0;
     stop_order := None; started_at := None |}.

Definition MAX_ATTEMPTS : Z := 3.
Definition LEASE_MINUTES : Z := 30.
Definition HOST_LEASE_GRACE_MIN : Z := 2.
Definition HOST_LOSSES_MAX : Z := 2.
Definition LEASE_TRIES : nat := 3.

(** ** The leases as selection reads them *)

Definition unitsOfKind (kind : string) (sz : option Z) (r : Rules) : Z :=
  if String.eqb kind "build" then r_build_per_size r * default 1 sz
  else if String.eqb kind "trial" then r_trial r
  else if String.eqb kind "audit" then r_audit r
  else r_job r.

(** The work that needs an agent that answers. *)
Definition agentScope (w : What) : bool :=
  String.eqb (t_kind w) "audit"
  || (String.eqb (t_kind w) "build" && (starts_with "draft:" (pkgbuild_ref w) || starts_with "review:" (pkgbuild_ref w))).

(** A leased row, as selection counts it: one without units counts its kind's. *)
Definition heldOf (r : Rules) (id : Z) (t : Task) : Held :=
  {| h_task := id; by_ := default "" (lease_owner (lease t)); h_kind := t_kind (what t); h_arch := t_arch (what t);
     h_lane := lane (lease t);
     h_units := match units (lease t) with Some u => u | None => unitsOfKind (t_kind (what t)) (size (lease t)) r end;
     h_model := agentScope (what t); h_trust := t_trust (what t); h_owner := t_owner (what t);
     h_disk_gb := default 0 (disk_gb (lease t)) |}.

(** ** The lease *)

(** The claimer's host, as the guard of its lease binds it. *)
Record HostGuard := { g_host : string; g_since : Z; g_kept : Z; g_units : Z }.

(** What the claim's UPDATE binds. *)
Record LeaseArgs := {
  a_worker : string; a_until : Z; a_at : Z; a_gen : option string; a_lane : option Mode;
  a_size : option Z; a_units : Z; a_disk : option Z; a_version : option string;
  a_claim : option string; a_independent : option Independence; a_host : option HostGuard }.

Definition is_leased (t : Task) : bool := match status t with leased => true | _ => false end.
Definition is_queued (t : Task) : bool := match status t with queued => true | _ => false end.

(** LEASES_HELD_SQL: every lease the pool holds. *)
Definition leases_held (r : Rules) (db : DB) : list Held :=
  map (fun p => heldOf r p.1 p.2) (List.filter (fun p => is_leased p.2) (map_to_list (tasks db))).

(** [lease_owner = w] in SQL: NULL equals nothing. *)
Definition owned_by (w : string) (t : Task) : bool :=
  match lease_owner (lease t) with Some o => String.eqb o w | None => false end.
Definition leased_to (w : string) (t : Task) : bool := is_leased t && owned_by w t.

(** SUM skips NULL. *)
Definition sum_tasks (w : string) (t : Task) : Z :=
  if leased_to w t && is_task_kind (t_kind (what t)) then default 0 (units (lease t)) else 0.
Definition sum_jobs (w : string) (t : Task) : Z :=
  if leased_to w t && negb (is_task_kind (t_kind (what t))) then default 0 (units (lease t)) else 0.

(** A sum over the table. *)
Definition tsum (f : Task -> Z) (m : gmap Z Task) : Z := zsum (fun p => f p.2) (map_to_list m).

(** HOST_MAY_LEASE_SQL and HOST_AWAKE_SQL *)
Definition host_ok (db : DB) (h : string) (since : Z) : bool :=
  match host_rows db !! h with
  | None => false
  | Some r =>
      h_active r && negb (h_owner_removed r) && h_owner_listed r
      && negb (match asleep_at r, reported_at r with Some _, Some t => since <? t | _, _ => false end)
  end.

(** The units of the claim's lease, in the statement itself. *)
Definition guard_ok (db : DB) (w : string) (g : HostGuard) (u : Z) : bool :=
  tsum (sum_tasks w) (tasks db) + Z.max (g_kept g) (tsum (sum_jobs w) (tasks db)) + u <=? g_units g.

Definition leasable (db : DB) (a : LeaseArgs) : bool :=
  match a_host a with
  | Some g => host_ok db (g_host g) (g_since g) && guard_ok db (a_worker a) g (a_units a)
  | None => true
  end.

Definition leased_row (t : Task) (a : LeaseArgs) : Task :=
  {| what := what t; status := leased;
     lease := {| lease_owner := Some (a_worker a); lease_expires_at := Some (a_until a); lease_gen := a_gen a;
                 claim_id := a_claim a; release := a_version a; lane := a_lane a; size := a_size a;
                 units := Some (a_units a); disk_gb := a_disk a; t_independent := a_independent a;
                 lease_missed := 0; stop_order := None; started_at := Some (a_at a) |};
     attempts := attempts t + 1; host_losses := host_losses t; priority := priority t; error := None;
     finished_at := finished_at t; pinned_to := pinned_to t; reserved_at := None;
     m_native := m_native t; m_4k := m_4k t; p_size := p_size t |}.

(** A statement on one row: [None] when its WHERE refuses. *)
Definition update (id : Z) (f : Task -> option Task) (db : DB) : option DB :=
  t ← tasks db !! id; t' ← f t; Some {| tasks := <[id := t']> (tasks db); host_rows := host_rows db |}.

Definition lease_task (id : Z) (a : LeaseArgs) (db : DB) : option DB :=
  update id (fun t => if is_queued t && leasable db a then Some (leased_row t a) else None) db.

(** The claimer, as the lease's bindings name it. *)
Record Claimer := { k_worker : string; k_version : option string; k_host : option string;
  k_claim : option string; k_units : Z }.

(** A choice's lease: a host's carries a new generation and the guard, a legacy one neither. *)
Definition args_of (k : Claimer) (r : Rules) (now : Z) (gen kind : string) (c : Choice) : LeaseArgs :=
  {| a_worker := k_worker k; a_until := now + LEASE_MINUTES * MIN; a_at := now;
     a_gen := match k_host k with Some _ => Some gen | None => None end;
     a_lane := ch_lane c; a_size := ch_size c; a_units := ch_units c; a_disk := ch_disk_gb c;
     a_version := k_version k; a_claim := match k_host k with Some _ => k_claim k | None => None end;
     a_independent := independent c;
     a_host := (fun h => {| g_host := h; g_since := now - HOST_REPORT_FRESH_MIN * MIN;
                            g_kept := if is_task_kind kind then r_job_reserved r else 0;
                            g_units := k_units k |}) <$> k_host k |}.

(** The first of the choices whose statement takes its task, three tries at most. *)
Fixpoint lease_first (k : Claimer) (r : Rules) (now : Z) (gen : string) (kind_of : Z -> string)
    (choices : list Choice) (db : DB) : option (Z * DB) :=
  match choices with
  | [] => None
  | c :: rest =>
      match lease_task (ch_id c) (args_of k r now gen (kind_of (ch_id c)) c) db with
      | Some db' => Some (ch_id c, db')
      | None => lease_first k r now gen kind_of rest db
      end
  end.
Definition lease_choices k r now gen kind_of (choices : list Choice) (db : DB) : option (Z * DB) :=
  lease_first k r now gen kind_of (take LEASE_TRIES choices) db.

(** ** A lease held: the heartbeat and the reports *)

(** LEASE_HELD: leased to the caller, by this lease, and not fenced. *)
Definition lease_held (who : string) (gen : option string) (t : Task) : bool :=
  leased_to who t && ostr_eqb (lease_gen (lease t)) gen
  && match stop_order (lease t) with None => true | Some _ => false end.

(** A lease's columns with its end, its owner and its independence moved. *)
Definition lease_moved (l : Lease) (owner : option string) (expires : option Z) (ind : option Independence)
    (missed : Z) (stop : option string) : Lease :=
  {| lease_owner := owner; lease_expires_at := expires; lease_gen := lease_gen l; claim_id := claim_id l;
     release := release l; lane := lane l; size := size l; units := units l; disk_gb := disk_gb l;
     t_independent := ind; lease_missed := missed; stop_order := stop; started_at := started_at l |}.

(** A row with its status, its lease and what the queue counts moved. *)
Definition moved (t : Task) (s : Status) (l : Lease) (att losses prio : Z) (err : option string)
    (fin : option Z) (pin : option string) (nat r4k : bool) : Task :=
  {| what := what t; status := s; lease := l; attempts := att; host_losses := losses; priority := prio;
     error := err; finished_at := fin; pinned_to := pin; reserved_at := reserved_at t; m_native := nat;
     m_4k := r4k; p_size := p_size t |}.

Definition with_lease (t : Task) (l : Lease) : Task :=
  moved t (status t) l (attempts t) (host_losses t) (priority t) (error t) (finished_at t) (pinned_to t)
    (m_native t) (m_4k t).

(** handleHeartbeat *)
Definition renew (id : Z) (who : string) (gen : option string) (until : Z) : DB -> option DB :=
  update id (fun t =>
    if lease_held who gen t then
      Some (with_lease t (lease_moved (lease t) (lease_owner (lease t)) (Some until) (t_independent (lease t))
              (lease_missed (lease t)) (stop_order (lease t))))
    else None).

(** REPLAY_SQL, on the one row its claim leased *)
Definition replay (id : Z) (who claim : string) (until : Z) : DB -> option DB :=
  update id (fun t =>
    if leased_to who t && ostr_eqb (claim_id (lease t)) (Some claim)
       && match stop_order (lease t) with None => true | Some _ => false end
    then Some (with_lease t (lease_moved (lease t) (lease_owner (lease t)) (Some until) (t_independent (lease t))
                 (lease_missed (lease t)) (stop_order (lease t))))
    else None).

(** handleComplete's writes: a pool job and a project build end done, a build for review staged. *)
Definition complete (id : Z) (who : string) (gen : option string) (to_staging : bool) (at_ : Z) : DB -> option DB :=
  update id (fun t =>
    if lease_held who gen t then
      Some (moved t (if to_staging then staged else done_)
              (lease_moved (lease t) (lease_owner (lease t)) None (t_independent (lease t))
                 (lease_missed (lease t)) (stop_order (lease t)))
              (attempts t) (host_losses t) (priority t) (error t) (Some at_) (pinned_to t) (m_native t) (m_4k t))
    else None).

(** A failure report's words; [said] is its error line, already withheld and cut. *)
Record FailBody := { said : string; final : bool; needs_native_ : bool; b_lost : bool; b_oom : bool }.

(** What handleFail decides from the row it read and the body. *)
Record FailOut := { f_exhausted : bool; f_native : bool; f_4k : bool; f_lost : bool; f_error : string }.

Definition out_of_memory_at (t : Task) : string :=
  "out of memory at " +:+ zstr (default 1 (units (lease t)) * mem_gb UNIT) +:+ " GB"
  +:+ (if String.eqb (t_kind (what t)) "build" then " (size " +:+ zstr (default 1 (size (lease t))) +:+ ")" else "").

(** [on_4k]: its host reports this lane on 4K pages; [labels]: what a legacy registration said of itself. *)
Definition failOut (t : Task) (b : FailBody) (on_4k labels : bool) : FailOut :=
  let hostLease := match lease_gen (lease t) with Some _ => true | None => false end in
  let oom := hostLease && b_oom b in
  let lost := hostLease && b_lost b && (host_losses t <? HOST_LOSSES_MAX) in
  let lostSpent := hostLease && b_lost b && negb lost in
  let emulatedLane := match lane (lease t) with
                      | Some emulated => true
                      | Some native => false
                      | None => negb hostLease && labels
                      end in
  let spent4k := m_4k t in
  let needsNative := negb lost && needs_native_ b && emulatedLane && negb spent4k in
  {| f_exhausted := negb needsNative && negb lost && (final b || (max_attempts (what t) <=? attempts t));
     f_native := needsNative;
     f_4k := needsNative && (m_native t || (hostLease && on_4k));
     f_lost := lost;
     f_error := str_take 2000
       (if oom then out_of_memory_at t +:+ " — the engine killed it: " +:+ said b
        else if lostSpent then "lost a third time on its host, the attempt spent: " +:+ said b
        else said b) |}.

(** handleFail's write, under LEASE_HELD of the row it [read]. *)
Definition fail (id : Z) (who : string) (read : Task) (b : FailBody) (on_4k labels : bool) (at_ : Z) : DB -> option DB :=
  update id (fun t =>
    let o := failOut read b on_4k labels in
    if lease_held who (lease_gen (lease read)) t then
      Some (moved t (if f_exhausted o then failed else queued)
              (lease_moved (lease t) (if f_exhausted o then lease_owner (lease read) else None) None
                 (if f_exhausted o then t_independent (lease t) else None)
                 (lease_missed (lease t)) (stop_order (lease t)))
              (attempts t - (if f_native o then 1 else 0) - (if f_lost o then 1 else 0))
              (host_losses t + (if f_lost o then 1 else 0))
              (priority t + 10) (Some (f_error o)) (if f_exhausted o then Some at_ else None)
              (if f_native o then None else pinned_to t)
              (m_native t || f_native o) (m_4k t || f_4k o))
    else None).

(** ** A lease taken back *)

(** REQUEUE_SQL *)
Definition requeue_row (t : Task) (err : string) (at_ : Z) : Task :=
  let last := max_attempts (what t) <=? attempts t in
  moved t (if last then failed else queued)
    (lease_moved (lease t) (if last then lease_owner (lease t) else None) None
       (if last then t_independent (lease t) else None) (lease_missed (lease t)) None)
    (attempts t) (host_losses t) (priority t + 10) (Some err) (if last then Some at_ else None)
    (pinned_to t) (m_native t) (m_4k t).

Definition requeueStatement (id : Z) (owner err : string) (stop : option string) (at_ : Z) (expiredBefore : option Z)
  : DB -> option DB :=
  update id (fun t =>
    if leased_to owner t && ostr_eqb (stop_order (lease t)) stop
       && match expiredBefore with
          | None => true
          | Some e => match lease_expires_at (lease t) with Some x => x <? e | None => false end
          end
    then Some (requeue_row t err at_) else None).

(** What a stop's requeue says of the task. *)
Definition stopError (worker by_ : string) (reason : option string) (leaseEnded : bool) : string :=
  str_take 2000 ("stopped on " +:+ worker +:+ " by " +:+ by_
    +:+ (match reason with Some r => if truthy r then ": " +:+ r else "" | None => "" end)
    +:+ (if leaseEnded then "; its lease ended" else "")).

(** REVOKED_REQUEUE_SQL *)
Definition requeueRevoked (id : Z) (owner : string) (gen : option string) (err : string) : DB -> option DB :=
  update id (fun t =>
    if lease_held owner gen t then
      Some (moved t queued (lease_moved (lease t) None None None 0 (stop_order (lease t)))
              (Z.max (attempts t - 1) 0) (host_losses t) (priority t) (Some err) None
              (pinned_to t) (m_native t) (m_4k t))
    else None).

Definition revokedError (rel pool : string) : string :=
  "leased on " +:+ rel +:+ ", which the pool's release " +:+ pool
  +:+ " revokes: nothing it sent on that release is taken; the attempt is given back".

(** LOST_LEASE_SQL *)
Definition lost_row (t : Task) (err : string) (at_ : Z) : Task :=
  let spent := HOST_LOSSES_MAX <=? host_losses t in
  let last := spent && (max_attempts (what t) <=? attempts t) in
  moved t (if last then failed else queued)
    (lease_moved (lease t) (if last then lease_owner (lease t) else None) None
       (if last then t_independent (lease t) else None) 0 (stop_order (lease t)))
    (if spent then attempts t else Z.max (attempts t - 1) 0) (host_losses t + 1)
    (if spent then priority t + 10 else priority t)
    (Some (err +:+ (if spent then " — lost too often on its host: the attempt is spent"
                    else "; the attempt is given back")))
    (if last then Some at_ else None) (pinned_to t) (m_native t) (m_4k t).

Definition lostLease (id : Z) (owner gen err : string) (at_ : Z) : DB -> option DB :=
  update id (fun t => if lease_held owner (Some gen) t then Some (lost_row t err at_) else None).

(** The count of claims that did not list a lease. *)
Definition countMissed (id : Z) (owner gen : string) (n : Z) : DB -> option DB :=
  update id (fun t =>
    if leased_to owner t && ostr_eqb (lease_gen (lease t)) (Some gen) then
      Some (with_lease t (lease_moved (lease t) (lease_owner (lease t)) (lease_expires_at (lease t))
              (t_independent (lease t)) n (stop_order (lease t))))
    else None).

(** A Stop its task fences the lease (orders.ts issueOrder). *)
Definition fence (id : Z) (owner order : string) : DB -> option DB :=
  update id (fun t =>
    if leased_to owner t && match stop_order (lease t) with None => true | Some _ => false end then
      Some (with_lease t (lease_moved (lease t) (lease_owner (lease t)) (lease_expires_at (lease t))
              (t_independent (lease t)) (lease_missed (lease t)) (Some order)))
    else None).

(** handleCancelTask *)
Definition handleCancelTask (id at_ : Z) : DB -> option DB :=
  update id (fun t =>
    if is_queued t || is_leased t then
      Some (moved t cancelled (lease t) (attempts t) (host_losses t) (priority t) (error t) (Some at_)
              (pinned_to t) (m_native t) (m_4k t))
    else None).

(** handleRetryAtSize's write. *)
Definition is_oom (e : option string) : bool :=
  match e with Some e => starts_with "out of memory at " e | None => false end.
Definition retryAtSize (id sz : Z) : DB -> option DB :=
  update id (fun t =>
    if String.eqb (t_kind (what t)) "build"
       && match status t with failed | queued => true | _ => false end && is_oom (error t) then
      Some {| what := what t; status := queued;
              lease := lease_moved (lease t) None None (t_independent (lease t)) (lease_missed (lease t)) (stop_order (lease t));
              attempts := Z.min (attempts t) (max_attempts (what t) - 1); host_losses := host_losses t;
              priority := priority t; error := error t; finished_at := None; pinned_to := pinned_to t;
              reserved_at := reserved_at t; m_native := m_native t; m_4k := m_4k t; p_size := Some sz |}
    else None).

(** A new task, as every INSERT leaves it: queued, no attempt, the schema's three attempts. *)
Definition new_task (w : What) (prio : Z) (pin : option string) : Task :=
  {| what := {| t_name := t_name w; t_arch := t_arch w; t_kind := t_kind w; t_trust := t_trust w;
                t_owner := t_owner w; max_attempts := MAX_ATTEMPTS; publish := publish w; review := review w;
                pkgbuild_ref := pkgbuild_ref w |};
     status := queued; lease := no_lease; attempts := 0; host_losses := 0; priority := prio; error := None;
     finished_at := None; pinned_to := pin; reserved_at := None; m_native := false; m_4k := false; p_size := None |}.
Definition enqueue (id : Z) (w : What) (prio : Z) (pin : option string) (db : DB) : option DB :=
  match tasks db !! id with
  | Some _ => None
  | None => Some {| tasks := <[id := new_task w prio pin]> (tasks db); host_rows := host_rows db |}
  end.

(** ** Reconciliation (routes/factory.ts reconcileHost) *)

Record Listed := { ls_task : Z; ls_gen : string }.

Definition lists (ls : list Listed) (id : Z) (gen : string) : bool :=
  existsb (fun l => (ls_task l =? id) && String.eqb (ls_gen l) gen) ls.

(** What a claim's list says of one lease: a statement, or nothing. *)
Inductive Verdict := Vrevoked (rel : string) | Vlost | Vcount (missed : Z) | Vnothing.

Definition reconcile_one (ls : list Listed) (at_ : Z) (id : Z) (t : Task) : Verdict :=
  match stop_order (lease t), lease_gen (lease t) with
  | Some _, _ => Vnothing
  | _, None => Vnothing
  | None, Some gen =>
      let seen := lists ls id gen in
      let missed := if seen then 0 else lease_missed (lease t) + 1 in
      if negb seen && (2 <=? missed)
         && (default at_ (started_at (lease t)) <=? at_ - HOST_LEASE_GRACE_MIN * MIN)
      then match release (lease t) with
           | Some rel => if isRevoked (Some rel) RELEASE_POLICY then Vrevoked rel else Vlost
           | None => Vlost
           end
      else if missed =? lease_missed (lease t) then Vnothing else Vcount missed
  end.

Definition attempt (f : DB -> option DB) (db : DB) : DB := default db (f db).

Definition reconcile_apply (worker pool : string) (at_ : Z) (db : DB) (p : Z * Task) (v : Verdict) : DB :=
  let gen := default "" (lease_gen (lease p.2)) in
  match v with
  | Vrevoked rel => attempt (requeueRevoked p.1 worker (lease_gen (lease p.2)) (revokedError rel pool)) db
  | Vlost => attempt (lostLease p.1 worker gen
               ("lease by " +:+ worker +:+ " lost: two claims of its host did not list it") at_) db
  | Vcount n => attempt (countMissed p.1 worker gen n) db
  | Vnothing => db
  end.

(** The leases read at its start, each weighed against the claim's list. *)
Definition reconcileHost (worker pool : string) (ls : list Listed) (at_ : Z) (db : DB) : DB :=
  let held := List.filter (fun p => leased_to worker p.2) (map_to_list (tasks db)) in
  fold_left (fun db p => reconcile_apply worker pool at_ db p (reconcile_one ls at_ p.1 p.2)) held db.
