(* ===== verification/SelectionSamples.v ===== *)
(** * A small fleet (worker/test fixtures in miniature)

    Two hosts, the signed rules and candidates of each kind: the concrete
    inputs the selection, placement and claim properties are exercised on. *)
From S2P Require Import Prelude JsTime Manifest Selection.
Local Open Scope string_scope.
Local Open Scope Z_scope.

Definition signed_rules : Rules :=
  {| r_build_per_size := build_per_size TASK_UNITS; r_trial := trial TASK_UNITS; r_audit := audit TASK_UNITS;
     r_job := job TASK_UNITS; r_job_reserved := job_reserved TASK_UNITS; r_max_size := MAX_SIZE;
     r_community_max_size := COMMUNITY_MAX_SIZE; r_gb_per_size := BUILD_GB_PER_SIZE; r_floor_gb := DISK_FLOOR_GB;
     r_emulated_share := EMULATED_SHARE; r_owner_divisor := OWNER_DIVISOR; r_legacy_any_arch := [] |}.

(** Ten in the morning of some day. *)
Definition noon : Z := 1750000000000.

Definition x86_native : Lane := {| l_arch := "x86_64"; l_mode := native; page16k := None |}.
Definition arm_native : Lane := {| l_arch := "aarch64"; l_mode := native; page16k := None |}.
Definition x86_emulated : Lane := {| l_arch := "x86_64"; l_mode := emulated; page16k := Some false |}.

Definition host (id owner model : string) (lanes : list Lane) (sandbox : bool) (units : Z) : Member :=
  {| m_id := id; legacy := false; m_lanes := lanes; sandbox := sandbox; m_units := units; agent_slots := 2;
     m_disk := Some {| work := 200; engine := 200 |}; m_kinds := ["build"; "trial"; "audit"; "health"; "promote"];
     probe_ok := true; drained := false; below_minimum := false; below_disk := None; may_claim := true;
     m_behind := false; seen_at := noon; alive_ms := None; reserving := None; m_scope := Shost; busy := false;
     asleep := false; offer := None; m_owner := Some owner; m_model := Some model |}.

Definition ana : Member := host "ana-1" "ana" "claude-x" [arm_native; x86_emulated] true 9.
Definition ben : Member := host "ben-1" "ben" "gpt-y" [arm_native] false 5.

Definition task (id : Z) (kind arch trust : string) (queued : Z) : Candidate :=
  {| c_id := id; c_name := "pkg"; c_kind := kind; c_arch := arch; c_trust := trust;
     c_owner := if String.eqb trust "community" then Some "ben" else None; c_priority := 50; c_queued_at := queued;
     c_pinned_to := None; needs_native := false; refused_4k := false; c_model := false; c_size := None;
     c_disk_gb := None; native_ms := None; reserved_at := None; job_arch := None; publish_bound := false;
     requesters := []; any_host := None; solo := None; built_by := None; built_with := None; built_on := None |}.

(** The project's copy of a package [who] requested. *)
Definition copy_of (c : Candidate) (who : list string) (size : option Z) : Candidate :=
  {| c_id := c_id c; c_name := c_name c; c_kind := c_kind c; c_arch := c_arch c; c_trust := c_trust c;
     c_owner := c_owner c; c_priority := c_priority c; c_queued_at := c_queued_at c; c_pinned_to := c_pinned_to c;
     needs_native := false; refused_4k := false; c_model := false; c_size := size; c_disk_gb := None;
     native_ms := None; reserved_at := None; job_arch := None; publish_bound := true; requesters := who;
     any_host := None; solo := None; built_by := None; built_with := None; built_on := None |}.

(** The audit of a publish-bound build another machine built with [model]. *)
Definition audit_of (c : Candidate) (model : string) : Candidate :=
  {| c_id := c_id c; c_name := c_name c; c_kind := "audit"; c_arch := c_arch c; c_trust := c_trust c;
     c_owner := None; c_priority := c_priority c; c_queued_at := c_queued_at c; c_pinned_to := None;
     needs_native := false; refused_4k := false; c_model := true; c_size := None; c_disk_gb := None;
     native_ms := None; reserved_at := None; job_arch := None; publish_bound := true; requesters := [];
     any_host := None; solo := None; built_by := Some "ben-1"; built_with := Some model;
     built_on := Some {| mc_owner := Some "ben" |} |}.

Definition two_hosts : Fleet := {| members := [ana; ben]; leases := []; models := [] |}.
Definition build_arm := task 1 "build" "aarch64" "community" (noon - HOUR).
Definition build_x86 := task 2 "build" "x86_64" "project" (noon - HOUR).
Definition copy_bens := copy_of (task 3 "build" "aarch64" "community" (noon - HOUR)) ["ben"] None.
Definition audit_x := audit_of (task 4 "audit" "aarch64" "community" (noon - HOUR)) "gpt-y".
Definition with_model : Fleet :=
  {| members := [ana; ben]; leases := [];
     models := [{| ms_id := "ana-1"; ms_model := "claude-x"; ms_at := noon |}] |}.

(** A size-4 build no host has room for: ana holds a size-2 build. *)
Definition big_build := copy_of (task 5 "build" "aarch64" "project" (noon - HOUR)) [] (Some 4).
Definition ana_busy : Fleet :=
  {| members := [ana; ben];
     leases := [{| h_task := 9; by_ := "ana-1"; h_kind := "build"; h_arch := "aarch64"; h_lane := Some native;
                   h_units := 4; h_model := false; h_trust := "project"; h_owner := None; h_disk_gb := 40 |}];
     models := [] |}.
