(* ===== verification/SelectionFacts.v ===== *)
(** * Selection: what a claim is handed

    Lemmas and properties of [Selection.select], [placementOf],
    [repinRefusal] and [reserve]. *)
From Stdlib Require Import Lqa.
From S2P Require Import Prelude JsTime Selection SelectionSamples.
Local Open Scope string_scope.
Local Open Scope Z_scope.

#[local] Arguments noRoom : simpl never.
#[local] Arguments laneFor : simpl never.
#[local] Arguments takes : simpl never.
#[local] Arguments requesterHost : simpl never.
#[local] Arguments audit_waits : simpl never.
#[local] Arguments emulated_waits : simpl never.
#[local] Arguments capped : simpl never.
#[local] Arguments unitsOf : simpl never.
#[local] Arguments sizeOf : simpl never.
#[local] Arguments on_emulated : simpl never.

(** ** Lists *)

Section Pull.
Context {A : Type} (p : A -> bool).

Lemma pull_perm l x rest : pull p l = Some (x, rest) -> l ≡ₚ x :: rest /\ p x = true.
Proof.
  revert x rest. induction l as [|y l IH]; intros x rest; simpl; [done|].
  destruct (p y) eqn:E; [by intros [= <- <-]|].
  destruct (pull p l) as [[z r]|] eqn:Ep; [|done]. intros [= <- <-].
  destruct (IH _ _ eq_refl) as [Hp Hx]. split; [|done].
  rewrite Hp. constructor.
Qed.

Lemma to_front_perm l : to_front p l ≡ₚ l.
Proof.
  unfold to_front. destruct (pull p l) as [[x r]|] eqn:E; [|done].
  symmetry. by apply pull_perm in E as [-> _].
Qed.

Lemma pull_none l : pull p l = None -> forall x, In x l -> p x = false.
Proof.
  induction l as [|y l IH]; simpl; [done|].
  destruct (p y) eqn:E; [done|]. destruct (pull p l) as [[z r]|]; [done|].
  intros _ x [<-|Hx]; [done|]. by apply IH.
Qed.
End Pull.

Lemma In_omap_imap {A B} (f : nat -> A -> option B) l e :
  In e (omap (fun x => x) (imap f l)) <-> exists i x, l !! i = Some x /\ f i x = Some e.
Proof.
  rewrite <- list_elem_of_In, list_elem_of_omap. split.
  - intros (o & Ho & Hs). simpl in Hs. subst o.
    apply elem_of_lookup_imap in Ho as (i & x & Hf & Hl). eauto.
  - intros (i & x & Hl & Hf). exists (Some e). split; [|done].
    apply elem_of_lookup_imap. eauto.
Qed.

(** ** The entries *)

Section Entries.
Context (H : Member) (fleet : Fleet) (now : Z) (r : Rules).

Lemma poolOf_incl cands c : In c (poolOf H fleet cands now r) -> In c cands.
Proof.
  unfold poolOf. repeat case_match; try done. intros Hc. by apply filter_In in Hc as [? _].
Qed.

(** What a choice's units, size and disk are computed from. *)
Definition sized (k : Claim) (c : Candidate) : option Z := s_size <$> sizeOf c (k_largest k) r.

(** A candidate that passed every filter of the loop. *)
Record Passes (k : Claim) (c : Candidate) (lane : LaneChoice) : Prop := {
  p_takes : takes H c = true;
  p_requester : requesterHost H c = false;
  p_audit : audit_waits H fleet c now r = false;
  p_lane : laneFor H c r = Some lane;
  p_room : noRoom H (k_held k) c (unitsOf (c_kind c) (sized k c) r) (diskOf c (sized k c) r) r = None;
  p_emulated : on_emulated lane = true ->
    emulated_waits H fleet k c (unitsOf (c_kind c) (sized k c) r) now r = false;
  p_cap : capped (k_leased k) (k_cap k) c = false }.

(** The entry a candidate that passed becomes. *)
Definition entry_of (k : Claim) (ix : nat) (c : Candidate) (lane : LaneChoice) : Entry :=
  {| e_ix := ix;
     e_choice :=
       {| ch_id := c_id c; ch_lane := lc_mode lane; ch_size := sized k c;
          ch_asked := (s ← sizeOf c (k_largest k) r; if s_size s <? s_asked s then Some (s_asked s) else None);
          ch_units := unitsOf (c_kind c) (sized k c) r; ch_disk_gb := diskOf c (sized k c) r;
          share := false; independent := independenceOf H c |};
     e_c := c;
     e_age := now - c_queued_at c - (if on_emulated lane then thresholdMs (native_ms c) else 0);
     e_key := leasedOf (k_leased k) c |}.

Lemma weigh_iff k ix c e :
  weigh H fleet k now r ix c = Some e <-> exists lane, Passes k c lane /\ e = entry_of k ix c lane.
Proof.
  unfold weigh. split.
  - destruct (takes H c) eqn:Et; [|done]. cbn [negb].
    destruct (requesterHost H c) eqn:Er; [done|].
    destruct (audit_waits H fleet c now r) eqn:Ea; [done|].
    destruct (laneFor H c r) as [lane|] eqn:El; [|done]. cbv zeta.
    unfold fits. destruct (noRoom _ _ _ _ _ _) eqn:En; [done|]. cbn [negb].
    destruct (on_emulated lane && _) eqn:Ee; [done|].
    destruct (capped _ _ _) eqn:Ec; [done|].
    intros [= <-]. exists lane. split; [|done]. constructor; try done.
    intros Ho. rewrite Ho in Ee. done.
  - intros (lane & [Ht Hr Ha Hl Hn He Hc] & ->).
    rewrite Ht, Hr, Ha, Hl. cbn [negb]. cbv zeta. unfold fits.
    unfold sized in *. rewrite Hn. cbn [negb].
    destruct (on_emulated lane) eqn:Eo; cbn [andb].
    + rewrite (He eq_refl), Hc. unfold entry_of, sized. by rewrite Eo.
    + rewrite Hc. unfold entry_of, sized. by rewrite Eo.
Qed.

Section Candidates.
Context (cands : list Candidate).
Local Abbreviation pool := (poolOf H fleet cands now r).
Local Abbreviation k := (claimOf H fleet pool now r).

Lemma In_entries e :
  In e (entries H fleet cands now r) <->
  exists ix c lane, pool !! ix = Some c /\ Passes k c lane /\ e = entry_of k ix c lane.
Proof.
  unfold entries. cbv zeta. rewrite sort_by_In, In_omap_imap. split.
  - intros (i & c & Hl & Hw). apply weigh_iff in Hw as (lane & ? & ?). eauto 6.
  - intros (i & c & lane & Hl & Hp & He). exists i, c. split; [done|].
    apply weigh_iff. eauto.
Qed.

Lemma entries_ix_unique e e' :
  In e (entries H fleet cands now r) -> In e' (entries H fleet cands now r) ->
  e_ix e = e_ix e' -> e = e'.
Proof.
  rewrite !In_entries. intros (i & c & l & Hi & Hp & ->) (i' & c' & l' & Hi' & Hp' & ->).
  cbn. intros <-. rewrite Hi in Hi'. injection Hi' as <-.
  pose proof (p_lane _ _ _ Hp) as E1. pose proof (p_lane _ _ _ Hp') as E2. congruence.
Qed.

(** Every choice comes from an entry, marked as the share's or not. *)
Lemma In_select ch :
  In ch (select H fleet cands now r) ->
  asleep H = false /\
  exists e, In e (entries H fleet cands now r) /\ (ch = e_choice e \/ ch = with_share (e_choice e)).
Proof.
  unfold select. destruct (asleep H); [done|]. cbv zeta. intros Hin. split; [done|].
  set (order := match head _ with Some _ => _ | None => _ end) in Hin.
  assert (In ch order) as Ho.
  { destruct (markedOf H cands now); [|done].
    rewrite <- list_elem_of_In, to_front_perm, list_elem_of_In in Hin. done. }
  clear Hin. subst order.
  destruct (head _) as [s|] eqn:Eh.
  - assert (In s (entries H fleet cands now r)) as Hs.
    { destruct (sort_by share_cmp _) as [|s' rest] eqn:Es; [done|]. simpl in Eh. injection Eh as ->.
      assert (In s (sort_by share_cmp (List.filter (shareable H fleet (heldBy fleet H) now)
        (entries H fleet cands now r)))) as Hf by (rewrite Es; by left).
      rewrite sort_by_In in Hf. by apply filter_In in Hf as [? _]. }
    destruct Ho as [<-|Ho]; [eauto|].
    apply in_map_iff in Ho as (e & <- & He). apply filter_In in He as [He _]. eauto.
  - apply in_map_iff in Ho as (e & <- & He). eauto.
Qed.

(** No entry is lost: each is handed out, in some place. *)
Lemma entries_selected e :
  asleep H = false -> In e (entries H fleet cands now r) ->
  exists ch, In ch (select H fleet cands now r) /\ (ch = e_choice e \/ ch = with_share (e_choice e)).
Proof.
  intros Ha He. unfold select. rewrite Ha. cbv zeta.
  set (order := match head _ with Some _ => _ | None => _ end).
  enough (exists ch, In ch order /\ (ch = e_choice e \/ ch = with_share (e_choice e))) as (ch & Hin & Hch).
  { exists ch. split; [|done]. destruct (markedOf H cands now); [|done].
    rewrite <- list_elem_of_In, to_front_perm, list_elem_of_In. done. }
  subst order. destruct (head _) as [s|] eqn:Eh.
  - destruct (Nat.eq_dec (e_ix e) (e_ix s)) as [E|E].
    + assert (In s (entries H fleet cands now r)) as Hs.
      { destruct (sort_by share_cmp _) as [|s' rest] eqn:Es; [done|]. simpl in Eh. injection Eh as ->.
        assert (In s (sort_by share_cmp (List.filter (shareable H fleet (heldBy fleet H) now)
          (entries H fleet cands now r)))) as Hf by (rewrite Es; by left).
        rewrite sort_by_In in Hf. by apply filter_In in Hf as [? _]. }
      rewrite (entries_ix_unique e s He Hs E). eexists. split; [by left|]. by right.
    + eexists. split; [right|by left]. apply in_map, filter_In. split; [done|].
      apply negb_true_iff. by apply Nat.eqb_neq.
  - eexists. split; [by apply in_map|]. by left.
Qed.
End Candidates.
End Entries.

(** ** What a choice satisfies *)

(** The candidate a choice is of, with everything its filters established. *)
Lemma choice_passes H fleet cands now r ch :
  In ch (select H fleet cands now r) ->
  exists c lane, let k := claimOf H fleet (poolOf H fleet cands now r) now r in
    In c cands /\ c_id c = ch_id ch /\ asleep H = false /\ Passes H fleet now r k c lane
    /\ ch_lane ch = lc_mode lane /\ ch_units ch = unitsOf (c_kind c) (sized r k c) r
    /\ ch_size ch = sized r k c /\ ch_disk_gb ch = diskOf c (sized r k c) r
    /\ independent ch = independenceOf H c.
Proof.
  intros (Ha & e & He & Hch)%In_select.
  apply In_entries in He as (ix & c & lane & Hl & Hp & ->).
  assert (In c cands) as Hc.
  { apply list_elem_of_lookup_2, list_elem_of_In in Hl. by eapply poolOf_incl. }
  exists c, lane. cbv zeta. destruct Hch as [-> | ->]; split_and!; done.
Qed.

Lemma sizeOf_bounds c largest r s :
  1 <= r_max_size r -> 1 <= r_community_max_size r -> 1 <= largest -> sizeOf c largest r = Some s ->
  1 <= s_size s <= s_asked s /\ s_size s <= largest
  /\ (c_trust c = "community" -> s_asked s <= r_community_max_size r)
  /\ (c_trust c <> "community" -> s_asked s <= r_max_size r).
Proof.
  intros H1 H2 H3. unfold sizeOf. destruct (String.eqb (c_kind c) "build"); [|done]. cbn [negb].
  destruct (String.eqb_spec (c_trust c) "community"); intros [= <-]; simpl; repeat split; try done; lia.
Qed.

Lemma largestSize_pos fleet now r : 1 <= largestSize fleet now r.
Proof.
  unfold largestSize. assert (1 <= 1) as Hacc by lia. revert Hacc.
  generalize 1 at 2 4. induction (members fleet) as [|m l IH]; intros acc Hacc; simpl; [done|].
  apply IH. case_match; lia.
Qed.

Lemma room_free H held r c units :
  noRoom H held c units None r = None \/ (exists d, noRoom H held c units d r = None) ->
  legacy H = false ->
  (is_task_kind (c_kind c) = true -> units <= rm_task (roomOf H held r))
  /\ (is_task_kind (c_kind c) = false -> units <= rm_job (roomOf H held r))
  /\ (forall o, offer H = Some o -> units <= o)
  /\ (c_model c = true -> Z.of_nat (length (List.filter h_model held)) < agent_slots H).
Proof.
  intros Hn Hl. assert (exists d, noRoom H held c units d r = None) as [d Hd] by (destruct Hn; eauto).
  clear Hn. unfold noRoom in Hd. rewrite Hl in Hd. cbv zeta in Hd.
  destruct (_ <? units) eqn:E1 in Hd; [done|].
  destruct (match offer H with Some _ => _ | None => _ end) eqn:E2 in Hd; [done|].
  destruct (c_model c && _) eqn:E3 in Hd; [done|]. clear Hd. breflect.
  repeat split.
  - intros Ht. by rewrite Ht in E1.
  - intros Ht. by rewrite Ht in E1.
  - intros o Ho. rewrite Ho in E2. breflect. done.
  - intros Hm. rewrite Hm in E3. simpl in E3. by breflect.
Qed.

(** ** Properties: whom a task may go to *)

(** a claim never hands the project's copy of a package to a host of one of its
    requesters, unless another maintainer released it to any host or the solo-maintainer
    exception names exactly that owner. *)
Theorem project_copy_not_on_requesters_host H fleet cands now r ch :
  In ch (select H fleet cands now r) ->
  exists c, In c cands /\ c_id c = ch_id ch /\
    (projectCopy c = true -> truthyo (any_host c) = false ->
     forall o, m_owner H = Some o -> In o (requesters c) -> solo c = Some o).
Proof.
  intros Hch. destruct (choice_passes _ _ _ _ _ _ Hch) as (c & lane & Hc & Hid & _ & Hp & _).
  exists c. split; [done|]. split; [done|]. intros Hpc Hany o Ho Hreq.
  pose proof (p_requester _ _ _ _ _ _ _ Hp) as Hr. unfold requesterHost in Hr.
  rewrite Hpc, Hany, Ho in Hr. cbn [negb andb] in Hr. apply andb_false_iff in Hr as [Hr|Hr].
  - apply negb_false_iff, ostr_eqb_eq in Hr. done.
  - apply str_in_In in Hreq. congruence.
Qed.

(** what a contributor wrote runs on a sandboxed host's native lane only: a build or a
    trial handed to a host that applies a sandbox is native unless it is the project's own
    recipe. *)
Theorem contributors_code_in_the_sandbox H fleet cands now r ch :
  sandbox H = true ->
  In ch (select H fleet cands now r) ->
  exists c, In c cands /\ c_id c = ch_id ch /\
    (In (c_kind c) LANE_KINDS -> contributorsCode c = true -> ch_lane ch = Some native).
Proof.
  intros Hs Hch. destruct (choice_passes _ _ _ _ _ _ Hch) as (c & lane & Hc & Hid & _ & Hp & Hl & _).
  exists c. split; [done|]. split; [done|]. intros Hk Hcc.
  pose proof (p_lane _ _ _ _ _ _ _ Hp) as E. unfold laneFor in E. cbv zeta in E.
  apply str_in_In in Hk. rewrite Hk, Hs, Hcc in E. simpl in E.
  destruct (existsb _ _) in E; [|done]. injection E as <-. done.
Qed.

(** the second opinion. While a registration with another model answered in the last 24
    hours, an audit of a publish-bound build is only leased to a registration that runs
    another model, and its lease records that independence. *)
Theorem publish_bound_audit_is_independent H fleet cands now r ch :
  In ch (select H fleet cands now r) ->
  exists c, In c cands /\ c_id c = ch_id ch /\
    (c_kind c = "audit" -> publish_bound c = true ->
     (exists x w, In x (models fleet) /\ built_with c = Some w /\ truthy w = true
                  /\ ms_model x <> w /\ now - MODEL_WINDOW_MS < ms_at x) ->
     independent ch = Some Imodel /\ exists a b, m_model H = Some a /\ built_with c = Some b /\ a <> b).
Proof.
  intros Hch. destruct (choice_passes _ _ _ _ _ _ Hch) as (c & lane & Hc & Hid & _ & Hp & _ & _ & _ & _ & Hi).
  exists c. split; [done|]. split; [done|]. intros Hk Hpb (x & w & Hx & Hw & Ht & Hne & Hat).
  assert (needsOtherModel fleet c now = true) as Hn.
  { unfold needsOtherModel. rewrite Hk, Hpb. simpl. unfold otherModels. rewrite Hw, Ht.
    assert (In (ms_model x) (dedup (map ms_model (List.filter (fun x => (now - MODEL_WINDOW_MS <? ms_at x)
      && negb (String.eqb (ms_model x) w)) (models fleet))))) as Hin.
    { apply dedup_In, in_map, filter_In. split; [done|]. apply andb_true_iff. split; [by apply Z.ltb_lt|].
      apply negb_true_iff. by apply String.eqb_neq. }
    destruct (dedup _); [done|done]. }
  pose proof (p_audit _ _ _ _ _ _ _ Hp) as Ha. unfold audit_waits in Ha. rewrite Hk, Hn in Ha.
  cbn [String.eqb Ascii.eqb Bool.eqb andb] in Ha. apply orb_false_iff in Ha as [Ha _].
  apply negb_false_iff in Ha. rewrite Hi. unfold independenceOf. rewrite Hk, Ha. simpl. split; [done|].
  unfold anotherModel in Ha. breflect. destruct (m_model H) as [a|]; [|done].
  rewrite Hw in *. exists a, w. repeat split; try done. intros ->.
  match goal with Hf : ostr_eqb _ _ = false |- _ =>
    assert (ostr_eqb (Some w) (Some w) = true) by (by apply ostr_eqb_eq); congruence end.
Qed.

(** ** Properties: capacity *)

(** C32: a host that takes a choice holds it: its units are within the units free for its kind
    and within what the claim offers, model work finds an agent slot, and a build's disk
    budget and the floor fit both free disks beside the budgets it already holds. *)
Theorem choice_fits_the_host H fleet cands now r ch :
  legacy H = false ->
  In ch (select H fleet cands now r) ->
  exists c, In c cands /\ c_id c = ch_id ch /\
    let held := heldBy fleet H in
    (is_task_kind (c_kind c) = true -> ch_units ch <= rm_task (roomOf H held r))
    /\ (is_task_kind (c_kind c) = false -> ch_units ch <= rm_job (roomOf H held r))
    /\ (forall o, offer H = Some o -> ch_units ch <= o)
    /\ (c_model c = true -> Z.of_nat (length (List.filter h_model held)) < agent_slots H)
    /\ (c_kind c = "build" -> exists d b, m_disk H = Some d /\ ch_disk_gb ch = Some b
          /\ (inject_Z (b + r_floor_gb r + budgets held) <= work d)%Q
          /\ (inject_Z (b + r_floor_gb r + budgets held) <= engine d)%Q).
Proof.
  intros Hl Hch.
  destruct (choice_passes _ _ _ _ _ _ Hch) as (c & lane & Hc & Hid & _ & Hp & _ & Hu & _ & Hd & _).
  exists c. split; [done|]. split; [done|]. cbv zeta. rewrite Hu, Hd.
  pose proof (p_room _ _ _ _ _ _ _ Hp) as Hr. cbn [k_held claimOf] in Hr.
  destruct (room_free _ _ _ _ _ (or_intror (ex_intro _ _ Hr)) Hl) as (H1 & H2 & H3 & H4).
  do 4 (split; [done|]). intros Hk.
  unfold noRoom in Hr. rewrite Hl in Hr. cbv zeta in Hr.
  destruct (_ <? _) in Hr; [done|].
  destruct (match offer H with Some _ => _ | None => _ end) in Hr; [done|].
  destruct (c_model c && _) in Hr; [done|].
  rewrite Hk in Hr. cbn [String.eqb Ascii.eqb Bool.eqb] in Hr.
  destruct (m_disk H) as [d|]; [|done].
  unfold diskOf in *. rewrite Hk in *. cbn [String.eqb Ascii.eqb Bool.eqb negb] in *.
  eexists d, _. split; [done|]. split; [done|].
  unfold Qltb in Hr. destruct (Qle_bool _ _) eqn:Eq in Hr; [|done]. clear Hr.
  apply Qle_bool_iff in Eq.
  match type of Eq with context [default 0 (Some ?x)] => change (default 0 (Some x)) with x in Eq end.
  rewrite !inject_Z_plus in *. unfold Qmin in Eq.
  destruct (Qle_bool (work d) (engine d)) eqn:E.
  - apply Qle_bool_iff in E. split; lra.
  - assert (engine d < work d)%Q by (apply Qnot_le_lt; intros ?%Qle_bool_iff; congruence). split; lra.
Qed.

(** ** Properties: the order *)

#[export] Instance entry_cmp_comparator : Comparator entry_cmp.
Proof.
  constructor; intros; unfold entry_cmp, orelse in *; repeat case_match; breflect; lia.
Qed.

#[export] Instance share_cmp_comparator : Comparator share_cmp.
Proof.
  constructor; intros; unfold share_cmp, orelse in *; repeat case_match; breflect; lia.
Qed.

(** Priority, then the owner's leased builds, then effective age, then id. *)
Definition before (a b : Entry) : Prop :=
  c_priority (e_c a) < c_priority (e_c b)
  \/ (c_priority (e_c a) = c_priority (e_c b)
      /\ (e_key a < e_key b
          \/ (e_key a = e_key b
              /\ (e_age b < e_age a \/ (e_age a = e_age b /\ ch_id (e_choice a) <= ch_id (e_choice b)))))).

Lemma entry_cmp_before a b : entry_cmp a b <= 0 <-> before a b.
Proof. unfold entry_cmp, before, orelse. repeat case_match; breflect; lia. Qed.

Section Order.
Context (H : Member) (fleet : Fleet) (cands : list Candidate) (now : Z) (r : Rules).
Local Abbreviation es := (entries H fleet cands now r).

Lemma entries_sorted e rest e' : es = e :: rest -> In e' es -> before e e'.
Proof.
  intros Hes Hin. unfold entries in *. cbv zeta in *. rewrite sort_by_In in Hin.
  destruct (sort_by_head entry_cmp _ _ _ _ Hes Hin) as [->|Hc].
  - unfold before. lia.
  - by apply entry_cmp_before.
Qed.

Lemma shared_none :
  (forall e, In e es -> shareable H fleet (heldBy fleet H) now e = false) ->
  List.filter (shareable H fleet (heldBy fleet H) now) es = [].
Proof.
  intros Hn. destruct (List.filter _ _) as [|e l] eqn:E; [done|].
  assert (In e (e :: l)) as Hin by (by left). rewrite <- E in Hin.
  apply filter_In in Hin as [Hin Hs]. by rewrite Hn in Hs.
Qed.

(** the queue's order. With no reservation mark to serve and no emulated lane starved, the
    first task a host is handed comes before every other it could take: by priority, then by
    how few community builds its owner holds, then by effective age, then by id. *)
Theorem first_choice_is_the_queues_first ch rest :
  markedOf H cands now = None ->
  (forall e, In e es -> shareable H fleet (heldBy fleet H) now e = false) ->
  select H fleet cands now r = ch :: rest ->
  exists e, In e es /\ ch = e_choice e /\ forall e', In e' es -> before e e'.
Proof.
  intros Hm Hn Hs. unfold select in Hs. destruct (asleep H); [done|]. cbv zeta in Hs.
  rewrite (shared_none Hn), Hm in Hs. simpl in Hs.
  destruct es as [|e l] eqn:E; [done|]. simpl in Hs. injection Hs as <- <-.
  exists e. split; [by left|]. split; [done|]. intros e' He'.
  rewrite <- E in He'. by eapply entries_sorted.
Qed.

(** the guaranteed emulated share. With no mark to serve, when a task this host could run
    emulated waits for an architecture nobody alive runs natively and the host holds no lease
    of it, the first task handed is such a one, the oldest queued of them, whatever the
    priorities of the rest. *)
Theorem starved_lane_goes_first e0 :
  asleep H = false ->
  markedOf H cands now = None ->
  In e0 es -> shareable H fleet (heldBy fleet H) now e0 = true ->
  exists e rest, In e es /\ shareable H fleet (heldBy fleet H) now e = true
    /\ select H fleet cands now r = with_share (e_choice e) :: rest
    /\ forall e', In e' es -> shareable H fleet (heldBy fleet H) now e' = true ->
         c_queued_at (e_c e) <= c_queued_at (e_c e').
Proof.
  intros Ha Hm Hin Hsh. unfold select. rewrite Ha, Hm. cbv zeta.
  set (fs := List.filter (shareable H fleet (heldBy fleet H) now) es).
  assert (In e0 fs) as H0 by (by apply filter_In).
  destruct (sort_by share_cmp fs) as [|e l] eqn:Es.
  { apply sort_by_nil in Es. by rewrite Es in H0. }
  assert (In e (sort_by share_cmp fs)) as He by (rewrite Es; by left).
  rewrite sort_by_In in He. apply filter_In in He as [He Hse].
  eexists e, _. split; [done|]. split; [done|]. split; [reflexivity|].
  intros e' He' Hs'.
  assert (In e' fs) as Hf by (by apply filter_In).
  destruct (sort_by_head share_cmp _ _ _ _ Es Hf) as [->|Hc]; [lia|].
  unfold share_cmp, orelse in Hc. case_match; breflect; lia.
Qed.

(** an emulated lane never waits for good. A build or a trial that this host would run
    emulated — its marks allow it, it fits, its owner is under their cap — is offered to it
    once it has waited an hour (sooner after a short native build), while the host's emulated
    lanes hold nothing, whatever native capacity the fleet says it has. *)
Theorem emulated_task_is_offered c :
  asleep H = false ->
  In c (poolOf H fleet cands now r) ->
  let k := claimOf H fleet (poolOf H fleet cands now r) now r in
  takes H c = true -> requesterHost H c = false -> In (c_kind c) LANE_KINDS ->
  laneFor H c r = Some {| lc_mode := Some emulated; byLane := true |} ->
  emulationRefuses H c = false ->
  noRoom H (k_held k) c (unitsOf (c_kind c) (sized r k c) r) (diskOf c (sized r k c) r) r = None ->
  capped (k_leased k) (k_cap k) c = false ->
  k_emulatedHeld k <= 0 ->
  T_MAX_MS <= now - c_queued_at c ->
  exists ch, In ch (select H fleet cands now r) /\ ch_id ch = c_id c /\ ch_lane ch = Some emulated.
Proof.
  intros Ha Hin k Ht Hr Hk Hl He Hn Hc Hh Hw.
  apply list_elem_of_In, list_elem_of_lookup in Hin as [ix Hix].
  assert (Passes H fleet now r k c {| lc_mode := Some emulated; byLane := true |}) as Hp.
  { constructor; try done.
    - unfold audit_waits. destruct Hk as [<-|[<-|[]]]; done.
    - intros _. unfold emulated_waits. rewrite He.
      assert (thresholdMs (native_ms c) <= T_MAX_MS).
      { unfold thresholdMs, T_MAX_MS, T_MIN_MS, MIN. repeat case_match; lia. }
      replace (now - c_queued_at c <? thresholdMs (native_ms c)) with false by lia.
      replace (0 <? k_emulatedHeld k) with false by lia. by rewrite andb_false_r. }
  destruct (entries_selected H fleet now r cands
    (entry_of H now r k ix c {| lc_mode := Some emulated; byLane := true |}) Ha) as (ch & Hch & Hor).
  { apply In_entries. exists ix, c. eauto. }
  exists ch. split; [done|]. by destruct Hor as [-> | ->].
Qed.
End Order.

(** the unit kept for pool jobs is theirs. On a host whose tasks respect it (free task
    units not negative) and that holds no pool job, a job of at most the kept unit always has
    room, whatever builds and trials it runs. *)
Theorem pool_job_has_its_unit m held c r disk :
  legacy m = false -> offer m = None ->
  is_task_kind (c_kind c) = false -> c_model c = false ->
  0 <= rm_task (roomOf m held r) -> job_units held = 0 -> 0 <= r_job r <= r_job_reserved r ->
  noRoom m held c (unitsOf (c_kind c) None r) disk r = None.
Proof.
  intros Hl Ho Hk Hm Hroom Hj Hr. unfold noRoom. rewrite Hl, Ho, Hk, Hm. cbv zeta.
  assert (String.eqb (c_kind c) "build" = false /\ unitsOf (c_kind c) None r = r_job r) as [Hb ->].
  { unfold is_task_kind in Hk. assert (~ In (c_kind c) TASK_KINDS) as Hni by (rewrite <- str_in_In; congruence).
    unfold unitsOf. destruct (String.eqb_spec (c_kind c) "build") as [E|_]; [destruct Hni; rewrite E; simpl; tauto|].
    destruct (String.eqb_spec (c_kind c) "trial") as [E|_]; [destruct Hni; rewrite E; simpl; tauto|].
    destruct (String.eqb_spec (c_kind c) "audit") as [E|_]; [destruct Hni; rewrite E; simpl; tauto|]. done. }
  rewrite Hb. unfold roomOf in *. cbn [rm_task rm_job] in *. rewrite Hj in *.
  replace (m_units m - task_units held - 0 <? r_job r) with false by lia. done.
Qed.

(** ** Properties: placement and reservation *)

(** A registration with an owner whose machine may run the package's copy, idle. *)
Definition able (fleet : Fleet) (c : Candidate) (now : Z) (r : Rules) (m : Member) : Prop :=
  In m (members fleet) /\ m_owner m <> None
  /\ mayRun m c now r (largestSize fleet now r) (heldBy fleet m) = true.

Lemma map_filter_nil {A B} (f : A -> B) (p : A -> bool) l :
  map f (List.filter p l) = [] <-> forall x, In x l -> p x = false.
Proof.
  split.
  - intros Hn x Hx. destruct (p x) eqn:E; [|done].
    assert (In (f x) (map f (List.filter p l))) as Hin by (by apply in_map, filter_In).
    by rewrite Hn in Hin.
  - intros Hn. destruct (List.filter p l) as [|x l'] eqn:E; [done|].
    assert (In x (x :: l')) as Hin by (by left). rewrite <- E in Hin.
    apply filter_In in Hin as [Hin Hp]. by rewrite Hn in Hp.
Qed.

(** placement of the project's copy. A package's copy is held for a release exactly when
    some owned registration may run it and every one that may is barred by the requester rule:
    [placementOf] and the claim's own [requesterHost] never disagree. *)
Theorem held_iff_only_requesters fleet c now r :
  projectCopy c = true ->
  held_ (placementOf fleet c now r) = true <->
  (exists m, able fleet c now r m) /\ (forall m, able fleet c now r m -> requesterHost m c = true).
Proof.
  intros Hpc. unfold placementOf. rewrite Hpc. cbn [held_ andb]. cbv zeta.
  set (sel := fun m : Member => match m_owner m with None => false
                      | Some _ => mayRun m c now r (largestSize fleet now r) (heldBy fleet m) end).
  assert (forall m, In m (List.filter sel (members fleet)) <-> able fleet c now r m) as Hab.
  { intros m. rewrite filter_In. unfold able, sel.
    destruct (m_owner m); naive_solver. }
  set (ab := List.filter sel (members fleet)) in *. clearbody ab. clear sel.
  unfold requesterHost. rewrite Hpc.
  set (ours := fun m => match m_owner m with Some o => str_in o (requesters c) | None => false end).
  set (ex := match solo c with Some s => if str_in s (requesters c) then Some s else None | None => None end).
  assert (forall {A} (l : list A), match l with [] => true | _ => false end = true <-> l = []) as Hnil
    by (intros A []; done).
  rewrite !andb_true_iff, !Hnil, !map_filter_nil.
  split.
  - intros [[[Hany Ho] Hown] Hmine].
    destruct (map m_id (List.filter ours ab)) as [|i rest] eqn:E; [done|].
    assert (In i (i :: rest)) as Hi by (by left). rewrite <- E in Hi.
    apply in_map_iff in Hi as (m0 & _ & Hm0). apply filter_In in Hm0 as [Hm0 _].
    split; [exists m0; by apply Hab|]. intros m Hm. apply Hab in Hm.
    specialize (Ho m Hm). specialize (Hown m Hm). apply negb_false_iff in Ho. subst ours ex.
    cbn beta in Ho. rewrite Hany. destruct (m_owner m) as [o|]; [|done]. rewrite Ho.
    apply andb_true_iff. split; [done|]. apply andb_true_iff. split; [|done]. apply negb_true_iff.
    destruct (ostr_eqb (Some o) (solo c)) eqn:Es; [|done]. apply ostr_eqb_eq in Es.
    rewrite <- Es, Ho in Hown. cbn in Hown. by rewrite String.eqb_refl in Hown.
  - intros [[m0 Hm0] Hall].
    assert (forall m, In m ab -> negb (truthyo (any_host c)) = true /\ ours m = true
                                 /\ ostr_eqb (m_owner m) ex = false) as Hq.
    { intros m Hm. apply Hab, Hall in Hm. subst ours ex. cbn beta.
      destruct (negb (truthyo (any_host c))); [|done]. cbn [andb] in Hm.
      destruct (m_owner m) as [o|]; [|done]. apply andb_true_iff in Hm as [Hs Ho].
      rewrite Ho. split_and!; [done|done|]. destruct (solo c) as [s|]; [|done].
      case_match; [|done]. apply negb_true_iff in Hs. done. }
    apply Hab in Hm0. destruct (Hq _ Hm0) as (Hany & Hours & _). split_and!.
    + done.
    + intros m Hm. destruct (Hq _ Hm) as (_ & Hu & _). apply negb_false_iff. exact Hu.
    + intros m Hm. destruct (Hq _ Hm) as (_ & _ & Hu). exact Hu.
    + assert (In (m_id m0) (map m_id (List.filter ours ab))) as Hin
        by (by apply in_map, filter_In).
      by destruct (map m_id _).
Qed.

Lemma reserve_search_some fleet claiming now r oldest sm :
  reserve_search fleet claiming now r oldest = Some sm ->
  exists c, In c oldest /\ reserve_one fleet claiming now r c = Some (Some sm).
Proof.
  induction oldest as [|c l IH]; simpl; [done|].
  destruct (reserve_one fleet claiming now r c) as [[x|]|] eqn:E.
  - intros [= ->]. exists c. auto.
  - done.
  - intros (c' & Hc & He)%IH. eauto.
Qed.

(** a reservation is the last resort. [reserve] marks a host only while no member keeps a
    mark, for a build queued over 30 minutes and larger than one unit build, outside its
    cool-down and under its owner's cap, which no claiming host can take now and the marked
    host could take once its own leases end. *)
Theorem reserve_is_last_resort fleet oldest queued now r sm :
  m_set (reserve fleet oldest queued now r) = Some sm ->
  (forall m, In m (members fleet) -> keeps_mark queued now m = false)
  /\ exists c m, In c oldest /\ c_id c = set_task sm /\ c_kind c = "build"
      /\ In m (members fleet) /\ m_id m = set_host sm /\ legacy m = false
      /\ counts m now = true /\ drained m = false /\ m_behind m = false
      /\ RESERVE_AFTER_MS < now - c_queued_at c /\ cooling (reserved_at c) now = false
      /\ capped (ownersLeased fleet) (ownerCap fleet now r) c = false
      /\ r_build_per_size r < unitsOf "build" (s_size <$> sizeOf c (largestSize fleet now r) r) r
      /\ select (unmarked m) (without (unmarked m) fleet) [c] now r <> []
      /\ forall x, In x (members fleet) -> counts x now = true -> drained x = false -> m_behind x = false ->
           select (unmarked x) fleet [c] now r = [].
Proof.
  unfold reserve. cbv zeta.
  set (claims := fun m => counts m now && negb (drained m) && negb (m_behind m)).
  destruct (existsb _ _) eqn:Ek; [done|]. cbn [m_set].
  intros (c & Hc & Ho)%reserve_search_some. split.
  { intros m Hm. destruct (keeps_mark queued now m) eqn:E; [|done].
    enough (existsb (keeps_mark queued now)
      (List.filter (fun m => match reserving m with Some _ => true | None => false end) (members fleet)) = true)
      by congruence.
    apply existsb_exists. exists m. split; [|done]. apply filter_In. split; [done|].
    unfold keeps_mark, reservingNow in E. by destruct (reserving m). }
  unfold reserve_one in Ho.
  destruct (negb _ || _) eqn:E1 in Ho; [done|]. destruct (cooling _ _) eqn:E2; [done|].
  destruct (capped _ _ _) eqn:E3; [done|]. destruct (_ <=? _) eqn:E4 in Ho; [done|].
  cbv zeta in Ho. destruct (sort_by _ _) as [|best rest] eqn:Es; [done|].
  destruct (existsb _ _) eqn:E5 in Ho; [done|]. injection Ho as <-.
  assert (In best (best :: rest)) as Hb by (by left). rewrite <- Es in Hb.
  rewrite sort_by_In in Hb. apply filter_In in Hb as [Hb Hsel].
  apply in_map_iff in Hb as (m & <- & Hm). apply filter_In in Hm as [Hm Hcl].
  apply andb_true_iff in Hsel as [Hleg Hsel]. cbn in Hleg. unfold claims in Hcl.
  apply orb_false_iff in E1 as [Ekind Ewait]. apply negb_false_iff, String.eqb_eq in Ekind.
  rewrite Ekind in E4. breflect.
  exists c, m. cbn [set_task set_host]. split_and!; try done.
  - unfold nonempty in *. by destruct (select _ _ _ _ _).
  - intros x Hx Hcx Hdx Hbx. destruct (select (unmarked x) fleet [c] now r) as [|y l] eqn:Ex; [done|].
    enough (existsb (fun m => nonempty (select m fleet [c] now r))
       (map unmarked (List.filter claims (members fleet))) = true) by congruence.
    apply existsb_exists. exists (unmarked x). rewrite Ex. split; [|done].
    apply in_map, filter_In. split; [done|]. subst claims. cbn. by rewrite Hcx, Hdx, Hbx.
Qed.

(** ** Witnesses: the properties at the two-host fleet of [SelectionSamples] *)

Local Abbreviation three := [build_arm; build_x86; copy_bens].
Definition chosen (m : Member) (fleet : Fleet) (cands : list Candidate) (n : nat) : Choice :=
  default {| ch_id := 0; ch_lane := None; ch_size := None; ch_asked := None; ch_units := 0;
             ch_disk_gb := None; share := false; independent := None |}
    (select m fleet cands noon signed_rules !! n).

Lemma project_copy_not_on_requesters_host_witness :
  exists c, In c three /\ c_id c = ch_id (chosen ana two_hosts three 2) /\
    (projectCopy c = true -> truthyo (any_host c) = false ->
     forall o, m_owner ana = Some o -> In o (requesters c) -> solo c = Some o).
Proof.
  apply (project_copy_not_on_requesters_host ana two_hosts three noon signed_rules).
  vm_compute. right; right; left. reflexivity.
Defined.

Lemma contributors_code_in_the_sandbox_witness :
  exists c, In c three /\ c_id c = ch_id (chosen ana two_hosts three 1) /\
    (In (c_kind c) LANE_KINDS -> contributorsCode c = true -> ch_lane (chosen ana two_hosts three 1) = Some native).
Proof.
  apply (contributors_code_in_the_sandbox ana two_hosts three noon signed_rules); [reflexivity|].
  vm_compute. right; left. reflexivity.
Defined.

Lemma publish_bound_audit_is_independent_witness :
  exists c, In c [audit_x] /\ c_id c = ch_id (chosen ana with_model [audit_x] 0) /\
    (c_kind c = "audit" -> publish_bound c = true ->
     (exists x w, In x (models with_model) /\ built_with c = Some w /\ truthy w = true
                  /\ ms_model x <> w /\ noon - MODEL_WINDOW_MS < ms_at x) ->
     independent (chosen ana with_model [audit_x] 0) = Some Imodel
     /\ exists a b, m_model ana = Some a /\ built_with c = Some b /\ a <> b).
Proof.
  apply (publish_bound_audit_is_independent ana with_model [audit_x] noon signed_rules).
  vm_compute. left. reflexivity.
Defined.

Lemma choice_fits_the_host_witness :
  exists c, In c three /\ c_id c = ch_id (chosen ana two_hosts three 1) /\
    let held := heldBy two_hosts ana in
    let ch := chosen ana two_hosts three 1 in
    (is_task_kind (c_kind c) = true -> ch_units ch <= rm_task (roomOf ana held signed_rules))
    /\ (is_task_kind (c_kind c) = false -> ch_units ch <= rm_job (roomOf ana held signed_rules))
    /\ (forall o, offer ana = Some o -> ch_units ch <= o)
    /\ (c_model c = true -> Z.of_nat (length (List.filter h_model held)) < agent_slots ana)
    /\ (c_kind c = "build" -> exists d b, m_disk ana = Some d /\ ch_disk_gb ch = Some b
          /\ (inject_Z (b + r_floor_gb signed_rules + budgets held) <= work d)%Q
          /\ (inject_Z (b + r_floor_gb signed_rules + budgets held) <= engine d)%Q).
Proof.
  apply (choice_fits_the_host ana two_hosts three noon signed_rules); [reflexivity|].
  vm_compute. right; left. reflexivity.
Defined.

Lemma first_choice_is_the_queues_first_witness :
  exists e, In e (entries ben two_hosts three noon signed_rules) /\ chosen ben two_hosts three 0 = e_choice e
    /\ forall e', In e' (entries ben two_hosts three noon signed_rules) -> before e e'.
Proof.
  apply (first_choice_is_the_queues_first ben two_hosts three noon signed_rules _ []); [reflexivity| |reflexivity].
  intros e He. vm_compute in He. destruct He as [<-|[]]. vm_compute. reflexivity.
Defined.

Definition share_entry : Entry :=
  {| e_ix := 1; e_choice := {| ch_id := 2; ch_lane := Some emulated; ch_size := Some 1; ch_asked := None;
       ch_units := 2; ch_disk_gb := Some 20; share := false; independent := None |};
     e_c := build_x86; e_age := HOUR - 3 * MIN; e_key := 0 |}.

Lemma starved_lane_goes_first_witness :
  exists e rest, In e (entries ana two_hosts three noon signed_rules)
    /\ shareable ana two_hosts (heldBy two_hosts ana) noon e = true
    /\ select ana two_hosts three noon signed_rules = with_share (e_choice e) :: rest
    /\ forall e', In e' (entries ana two_hosts three noon signed_rules) ->
         shareable ana two_hosts (heldBy two_hosts ana) noon e' = true ->
         c_queued_at (e_c e) <= c_queued_at (e_c e').
Proof.
  apply (starved_lane_goes_first ana two_hosts three noon signed_rules share_entry);
    [reflexivity|reflexivity| |reflexivity].
  vm_compute. right; right; left. reflexivity.
Defined.

Lemma emulated_task_is_offered_witness :
  exists ch, In ch (select ana two_hosts three noon signed_rules) /\ ch_id ch = c_id build_x86
    /\ ch_lane ch = Some emulated.
Proof.
  apply (emulated_task_is_offered ana two_hosts three noon signed_rules build_x86);
    try (vm_compute; reflexivity).
  - vm_compute. right; left. reflexivity.
  - vm_compute. left. reflexivity.
  - vm_compute. discriminate.
  - vm_compute. discriminate.
Defined.

Lemma pool_job_has_its_unit_witness :
  noRoom ana (heldBy ana_busy ana) (task 7 "promote" "x86_64" "project" noon)
    (unitsOf "promote" None signed_rules) None signed_rules = None.
Proof.
  apply (pool_job_has_its_unit ana (heldBy ana_busy ana) (task 7 "promote" "x86_64" "project" noon) signed_rules None);
    try reflexivity; vm_compute; try split; discriminate.
Defined.

Lemma held_iff_only_requesters_witness :
  held_ (placementOf {| members := [ben]; leases := []; models := [] |} copy_bens noon signed_rules) = true <->
  (exists m, able {| members := [ben]; leases := []; models := [] |} copy_bens noon signed_rules m)
  /\ (forall m, able {| members := [ben]; leases := []; models := [] |} copy_bens noon signed_rules m ->
       requesterHost m copy_bens = true).
Proof. apply held_iff_only_requesters. reflexivity. Defined.

Lemma reserve_is_last_resort_witness :
  let sm := {| set_host := "ana-1"; set_task := 5 |} in
  let queued := fun _ : Z => true in
  (forall m, In m (members ana_busy) -> keeps_mark queued noon m = false)
  /\ exists c m, In c [big_build] /\ c_id c = set_task sm /\ c_kind c = "build"
      /\ In m (members ana_busy) /\ m_id m = set_host sm /\ legacy m = false
      /\ counts m noon = true /\ drained m = false /\ m_behind m = false
      /\ RESERVE_AFTER_MS < noon - c_queued_at c /\ cooling (reserved_at c) noon = false
      /\ capped (ownersLeased ana_busy) (ownerCap ana_busy noon signed_rules) c = false
      /\ r_build_per_size signed_rules
         < unitsOf "build" (s_size <$> sizeOf c (largestSize ana_busy noon signed_rules) signed_rules) signed_rules
      /\ select (unmarked m) (without (unmarked m) ana_busy) [c] noon signed_rules <> []
      /\ forall x, In x (members ana_busy) -> counts x noon = true -> drained x = false -> m_behind x = false ->
           select (unmarked x) ana_busy [c] noon signed_rules = [].
Proof.
  apply (reserve_is_last_resort ana_busy [big_build] (fun _ => true) noon signed_rules).
  vm_compute. reflexivity.
Defined.
