(* ===== verification/TasksFacts.v ===== *)
(** * The lease lifecycle: what holds over every interleaving of statements

    A run is a list of statements with whatever arguments their handlers
    read before; a statement whose WHERE refuses changes nothing. *)
From S2P Require Import Prelude JsTime Manifest Selection Update Tasks SelectionSamples SelectionFacts.
Local Open Scope string_scope.
Local Open Scope Z_scope.
Local Open Scope list_scope.

(** ** Runs *)

Inductive Op :=
| Enqueue (id : Z) (w : What) (prio : Z) (pin : option string)
| LeaseOp (id : Z) (a : LeaseArgs)
| Renew (id : Z) (who : string) (gen : option string) (until : Z)
| Replay (id : Z) (who claim : string) (until : Z)
| Complete (id : Z) (who : string) (gen : option string) (to_staging : bool) (at_ : Z)
| Fail (id : Z) (who : string) (read : Task) (b : FailBody) (on_4k labels : bool) (at_ : Z)
| Requeue (id : Z) (owner err : string) (stop : option string) (at_ : Z) (expiredBefore : option Z)
| Revoked (id : Z) (owner : string) (gen : option string) (err : string)
| Lost (id : Z) (owner gen err : string) (at_ : Z)
| Missed (id : Z) (owner gen : string) (n : Z)
| Fence (id : Z) (owner order : string)
| Cancel (id at_ : Z)
| Retry (id sz : Z)
| Hosts (rows : gmap string HostRow).

Definition stmt (o : Op) : DB -> option DB :=
  match o with
  | Enqueue id w p pin => enqueue id w p pin
  | LeaseOp id a => lease_task id a
  | Renew id who gen until => renew id who gen until
  | Replay id who claim until => replay id who claim until
  | Complete id who gen st at_ => complete id who gen st at_
  | Fail id who read b k l at_ => fail id who read b k l at_
  | Requeue id owner err stop at_ e => requeueStatement id owner err stop at_ e
  | Revoked id owner gen err => requeueRevoked id owner gen err
  | Lost id owner gen err at_ => lostLease id owner gen err at_
  | Missed id owner gen n => countMissed id owner gen n
  | Fence id owner order => fence id owner order
  | Cancel id at_ => handleCancelTask id at_
  | Retry id sz => retryAtSize id sz
  | Hosts rows => fun db => Some {| tasks := tasks db; host_rows := rows |}
  end.

Definition exec (o : Op) (db : DB) : DB := attempt (stmt o) db.
Definition run (ops : list Op) (db : DB) : DB := fold_left (fun db o => exec o db) ops db.
Definition empty_db : DB := {| tasks := ∅; host_rows := ∅ |}.

Lemma run_app a b db : run (a ++ b) db = run b (run a db).
Proof. unfold run. apply fold_left_app. Qed.

(** A condition on every statement, at the table it runs on. *)
Fixpoint all_along (P : DB -> Op -> Prop) (db : DB) (ops : list Op) : Prop :=
  match ops with
  | [] => True
  | o :: rest => P db o /\ all_along P (exec o db) rest
  end.

(** ** Statements on one row *)

Lemma update_some id f db db' :
  update id f db = Some db' ->
  exists t t', tasks db !! id = Some t /\ f t = Some t' /\ tasks db' = <[id := t']> (tasks db)
               /\ host_rows db' = host_rows db.
Proof.
  unfold update. intros H. apply bind_Some in H as (t & Ht & H). apply bind_Some in H as (t' & Ht' & H).
  injection H as <-. eauto 10.
Qed.

Lemma tsum_insert f m i x : m !! i = None -> tsum f (<[i := x]> m) = f x + tsum f m.
Proof. intros H. unfold tsum. rewrite (zsum_perm _ _ _ (map_to_list_insert m i x H)). done. Qed.

Lemma tsum_update f m i t t' : m !! i = Some t -> tsum f (<[i := t']> m) = tsum f m - f t + f t'.
Proof.
  intros H. rewrite <- (insert_delete_id m i t H) at 2. rewrite <- insert_delete_eq.
  rewrite !tsum_insert by apply lookup_delete_eq. lia.
Qed.

Lemma tsum_empty f : tsum f ∅ = 0.
Proof. unfold tsum. by rewrite map_to_list_empty. Qed.

Lemma tsum_nonneg f m : (forall i t, m !! i = Some t -> 0 <= f t) -> 0 <= tsum f m.
Proof.
  intros H. unfold tsum. apply zsum_nonneg. intros [i t] Hin. cbn.
  apply list_elem_of_In, elem_of_map_to_list in Hin. eauto.
Qed.

(** What every statement but the lease and the insert does to its row: it stays that task, its
    units stay, it takes no lease and moves no lease to another worker or generation. *)
Definition shrinks (t t' : Task) : Prop :=
  what t' = what t /\ units (lease t') = units (lease t) /\ lease_gen (lease t') = lease_gen (lease t)
  /\ (is_leased t' = true -> is_leased t = true /\ lease_owner (lease t') = lease_owner (lease t)
      /\ attempts t' = attempts t /\ host_losses t' = host_losses t /\ m_native t' = m_native t /\ m_4k t' = m_4k t).

(** Close [shrinks] for a row a statement rebuilt. *)
Ltac shrink :=
  unfold shrinks, is_leased, with_lease, moved, lease_moved, requeue_row, lost_row; cbn;
  split; [done|]; split; [done|]; split; [done|];
  repeat (case_match; try done).

Lemma stmt_cases o db db' :
  stmt o db = Some db' ->
  (exists id w p pin, o = Enqueue id w p pin /\ tasks db !! id = None
      /\ tasks db' = <[id := new_task w p pin]> (tasks db))
  \/ (exists id a t, o = LeaseOp id a /\ tasks db !! id = Some t /\ is_queued t = true /\ leasable db a = true
      /\ tasks db' = <[id := leased_row t a]> (tasks db))
  \/ (exists id t t', tasks db !! id = Some t /\ shrinks t t' /\ tasks db' = <[id := t']> (tasks db))
  \/ tasks db' = tasks db.
Proof.
  destruct o; cbn [stmt]; intros H;
    [left|right; left|right; right; left ..|right; right; right];
    try (apply update_some in H as (t & t' & Ht & Hf & Hdb & _));
    try (exists id, t, t'; split; [done|]; split; [|done]; cbv zeta in Hf; match type of Hf with (if ?b then _ else _) = _ => destruct b eqn:Hb; [|done] end;
         injection Hf as <-; shrink).
  - unfold enqueue in H. destruct (tasks db !! id) eqn:E; [done|]. injection H as <-. eauto 10.
  - destruct (is_queued t && leasable db a) eqn:E; [|done]. injection Hf as <-.
    apply andb_true_iff in E as [? ?]. eauto 10.
  - by injection H as <-.
Qed.

(** ** A host's units *)

Section Units.
Context (w : string) (R C : Z).

(** A lease of [w] runs under its guard: the kept unit for a task, its units at most [C]. *)
Definition guarded (db : DB) (o : Op) : Prop :=
  match o with
  | LeaseOp id a => a_worker a = w ->
      0 <= a_units a /\ exists g, a_host a = Some g /\ g_units g <= C /\ 0 <= g_kept g
        /\ forall t, tasks db !! id = Some t -> is_task_kind (t_kind (what t)) = true -> R <= g_kept g
  | _ => True
  end.

Definition held_units (db : DB) : Prop :=
  (forall i t, tasks db !! i = Some t -> leased_to w t = true -> 0 <= default 0 (units (lease t)))
  /\ tsum (sum_tasks w) (tasks db) + Z.max R (tsum (sum_jobs w) (tasks db)) <= C.

Lemma leased_to_leased t a : leased_to w (leased_row t a) = String.eqb (a_worker a) w.
Proof. done. Qed.

Lemma queued_not_leased t : is_queued t = true -> leased_to w t = false.
Proof. unfold is_queued, leased_to, is_leased. by destruct (status t). Qed.

Lemma shrinks_leased t t' : shrinks t t' -> leased_to w t' = true -> leased_to w t = true.
Proof.
  unfold leased_to, owned_by. intros (_ & _ & _ & Hl) H. breflect.
  destruct Hl as (-> & <- & _); [done|]. by apply andb_true_iff.
Qed.

Lemma shrinks_sums t t' :
  shrinks t t' -> (leased_to w t = true -> 0 <= default 0 (units (lease t))) ->
  sum_tasks w t' <= sum_tasks w t /\ sum_jobs w t' <= sum_jobs w t.
Proof.
  intros Hs Hu. pose proof (shrinks_leased _ _ Hs) as Hl. destruct Hs as (Hw & Hun & _).
  unfold sum_tasks, sum_jobs. rewrite Hw, Hun.
  destruct (leased_to w t'); [rewrite Hl by done; cbn [andb]; lia|].
  destruct (leased_to w t); [|done]. specialize (Hu eq_refl).
  cbn [andb]. repeat case_match; lia.
Qed.

Lemma held_units_step db o : R <= C -> guarded db o -> held_units db -> held_units (exec o db).
Proof.
  intros HRC Hg [Hn Hs]. unfold exec, attempt. destruct (stmt o db) as [db'|] eqn:E; [|by split].
  cbn. apply stmt_cases in E as [(id & x & p & pin & -> & Hno & Hdb)|[(id & a & t & -> & Ht & Hq & Hok & Hdb)|
    [(id & t & t' & Ht & Hsh & Hdb)| Hdb]]]; unfold held_units; rewrite Hdb.
  - rewrite !tsum_insert by done. split; [|exact Hs].
    intros i t Hi. destruct (decide (id = i)) as [->|Hne].
    + rewrite lookup_insert_eq in Hi. by injection Hi as <-.
    + rewrite lookup_insert_ne in Hi by done. eauto.
  - rewrite !(tsum_update _ _ _ _ _ Ht). pose proof (queued_not_leased _ Hq) as Hnl.
    unfold sum_tasks at 2 3, sum_jobs at 2 3. rewrite Hnl, leased_to_leased. cbn [andb what leased_row].
    cbn [guarded] in Hg. split.
    + intros i x Hi Hl. destruct (decide (id = i)) as [->|Hne].
      * rewrite lookup_insert_eq in Hi. injection Hi as <-. rewrite leased_to_leased in Hl.
        apply String.eqb_eq in Hl. cbn. apply Hg in Hl. by destruct Hl.
      * rewrite lookup_insert_ne in Hi by done. eauto.
    + destruct (String.eqb_spec (a_worker a) w) as [Ew|Ew]; [|cbn [andb]; lia].
      destruct (Hg Ew) as (Hu & g & Hh & HC & Hk0 & Hk). unfold leasable in Hok. rewrite Hh in Hok.
      apply andb_true_iff in Hok as [_ Hgd]. unfold guard_ok in Hgd. rewrite Ew in Hgd. apply Z.leb_le in Hgd.
      cbn [andb lease units leased_row]. change (default 0 (Some (a_units a))) with (a_units a).
      specialize (Hk _ Ht).
      destruct (is_task_kind (t_kind (what t))); cbn [negb]; [specialize (Hk eq_refl)|clear Hk]; lia.
  - rewrite !(tsum_update _ _ _ _ _ Ht).
    destruct (shrinks_sums _ _ Hsh (Hn _ _ Ht)) as [H1 H2]. split; [|lia].
    intros i x Hi Hl. destruct (decide (id = i)) as [->|Hne].
    + rewrite lookup_insert_eq in Hi. injection Hi as <-. pose proof (shrinks_leased _ _ Hsh Hl) as Hl'.
      destruct Hsh as (_ & -> & _). eauto.
    + rewrite lookup_insert_ne in Hi by done. eauto.
  - by split.
Qed.

(** C1: a host's units are never overcommitted, whatever the interleaving. Over any sequence of
    statements from an empty table — claims with stale reads, reports, requeues, stops — in
    which each lease of a host runs under its guard for at most [C] units, the units its tasks
    hold plus the larger of the kept units and what its pool jobs hold never exceed [C]. *)
Theorem units_never_overcommitted ops :
  0 <= R <= C -> all_along guarded empty_db ops ->
  tsum (sum_tasks w) (tasks (run ops empty_db)) + Z.max R (tsum (sum_jobs w) (tasks (run ops empty_db))) <= C.
Proof.
  intros HR. assert (held_units empty_db) as H0.
  { split; [intros i t Hi; change (tasks empty_db) with (∅ : gmap Z Task) in Hi; by rewrite lookup_empty in Hi|].
    cbn [tasks empty_db]. rewrite !tsum_empty. lia. }
  revert H0. generalize empty_db. induction ops as [|o rest IH]; intros db H0 Ha.
  - apply H0.
  - destruct Ha as [Hg Ha]. apply (IH (exec o db)); [|exact Ha]. apply held_units_step; [lia|done|done].
Qed.
End Units.

(** ** How often a task is leased *)

Section Count.
Context (i : Z).

(** The generations the claims of the task carry. *)
Definition gens_of (ops : list Op) : list string :=
  omap (fun o => match o with LeaseOp id a => if id =? i then a_gen a else None | _ => None end) ops.

(** The task's statements are a host's: each lease has a new random generation, and a failure
    report carries the row its handler read — leased to it — at some earlier point of the run. *)
Record host_run (ops : list Op) : Prop := {
  hr_gen : forall a, In (LeaseOp i a) ops -> exists g, a_gen a = Some g;
  hr_fresh : NoDup (gens_of ops);
  hr_reads : forall pre who read b k l at_ post, ops = pre ++ Fail i who read b k l at_ :: post ->
    exists pre1 pre2, pre = pre1 ++ pre2 /\ tasks (run pre1 empty_db) !! i = Some read /\ is_leased read = true }.

Lemma host_run_prefix a b : host_run (a ++ b) -> host_run a.
Proof.
  intros [Hg Hf Hr]. constructor.
  - intros x Hx. apply Hg, in_or_app. by left.
  - unfold gens_of in *. rewrite omap_app in Hf. by apply NoDup_app in Hf as [? _].
  - intros pre who read bd k l at_ post E.
    apply (Hr pre who read bd k l at_ (post ++ b)). rewrite E, <- app_assoc. done.
Qed.

(** The statement's effect on the task's own row. *)
Lemma row_cases o db t' :
  tasks (exec o db) !! i = Some t' ->
  (tasks db !! i = None /\ exists w p pin, t' = new_task w p pin)
  \/ (exists a t, o = LeaseOp i a /\ tasks db !! i = Some t /\ is_queued t = true /\ t' = leased_row t a)
  \/ (exists t, tasks db !! i = Some t /\ shrinks t t').
Proof.
  unfold exec, attempt. destruct (stmt o db) as [db'|] eqn:E.
  - change (default db (Some db')) with db'. apply stmt_cases in E as [(id & x & p & pin & -> & Hno & ->)|[(id & a & t & -> & Ht & Hq & Hok & ->)|
      [(id & t & t1 & Ht & Hsh & ->)| ->]]].
    + destruct (decide (id = i)) as [->|Hne].
      * rewrite lookup_insert_eq. intros [= <-]. eauto 10.
      * rewrite lookup_insert_ne by done. intros Hi. right; right. exists t'. split; [done|]. unfold shrinks. tauto.
    + destruct (decide (id = i)) as [->|Hne].
      * rewrite lookup_insert_eq. intros [= <-]. eauto 10.
      * rewrite lookup_insert_ne by done. intros Hi. right; right. exists t'. split; [done|]. unfold shrinks. tauto.
    + destruct (decide (id = i)) as [->|Hne].
      * rewrite lookup_insert_eq. intros [= <-]. eauto 10.
      * rewrite lookup_insert_ne by done. intros Hi. right; right. exists t'. split; [done|]. unfold shrinks. tauto.
    + intros Hi. right; right. exists t'. split; [done|]. unfold shrinks. tauto.
  - cbn. intros Hi. right; right. exists t'. split; [done|]. unfold shrinks. tauto.
Qed.

Lemma run_snoc ops o db : run (ops ++ [o]) db = exec o (run ops db).
Proof. by rewrite run_app. Qed.

Lemma gens_snoc ops o :
  gens_of (ops ++ [o]) = gens_of ops ++ gens_of [o].
Proof. apply omap_app. Qed.

(** A leased row's generation is one the run's claims carried. *)
Lemma gen_seen ops t :
  host_run ops -> tasks (run ops empty_db) !! i = Some t -> is_leased t = true ->
  exists g, lease_gen (lease t) = Some g /\ In g (gens_of ops).
Proof.
  revert t. induction ops as [|o ops IH] using rev_ind; intros t Hr.
  - cbn. change (tasks empty_db) with (∅ : gmap Z Task). by rewrite lookup_empty.
  - rewrite run_snoc. intros Hi Hl. apply row_cases in Hi as [[_ (w & p & pin & ->)]|[(a & t0 & -> & Ht & Hq & ->)|
      (t0 & Ht & Hsh)]].
    + done.
    + destruct (hr_gen _ Hr a) as [g Hg]; [apply in_or_app; right; by left|].
      exists g. split; [exact Hg|]. rewrite gens_snoc. apply in_or_app. right. cbn.
      rewrite Z.eqb_refl, Hg. by left.
    + destruct Hsh as (_ & _ & Hgen & Hk). destruct (Hk Hl) as (Hl0 & _).
      destruct (IH _ (host_run_prefix _ _ Hr) Ht Hl0) as (g & Hg & Hin).
      exists g. rewrite Hgen. split; [done|]. rewrite gens_snoc. apply in_or_app. by left.
Qed.

(** What a report's handler decides from. *)
Definition same_lease (a b : Task) : Prop :=
  what b = what a /\ attempts b = attempts a /\ host_losses b = host_losses a
  /\ m_native b = m_native a /\ m_4k b = m_4k a /\ lease_gen (lease b) = lease_gen (lease a).

(** While the row is leased by the generation read, nothing the report decides from has moved. *)
Lemma read_is_current pre1 pre2 read t :
  host_run (pre1 ++ pre2) -> tasks (run pre1 empty_db) !! i = Some read -> is_leased read = true ->
  tasks (run (pre1 ++ pre2) empty_db) !! i = Some t -> is_leased t = true ->
  lease_gen (lease t) = lease_gen (lease read) -> same_lease read t.
Proof.
  intros Hr Hread Hlr. revert t. induction pre2 as [|o ops IH] using rev_ind; intros t Ht Hl Hg.
  - rewrite app_nil_r in Ht. rewrite Hread in Ht. injection Ht as <-. unfold same_lease. tauto.
  - rewrite app_assoc in Ht, Hr. rewrite run_snoc in Ht.
    apply row_cases in Ht as [[_ (w & p & pin & ->)]|[(a & t0 & -> & Ht & Hq & ->)|(t0 & Ht & Hsh)]].
    + done.
    + destruct (gen_seen pre1 read) as (g & Hgr & Hin).
      { eapply host_run_prefix. rewrite <- app_assoc in Hr. exact Hr. }
      { done. }
      { done. }
      cbn in Hg. rewrite Hgr in Hg. pose proof (hr_fresh _ Hr) as Hnd. rewrite gens_snoc in Hnd.
      cbn in Hnd. rewrite Z.eqb_refl, Hg in Hnd. apply NoDup_app in Hnd as (_ & Hd & _).
      destruct (Hd g); [|by left]. apply list_elem_of_In. unfold gens_of. rewrite omap_app, in_app_iff. by left.
    + destruct Hsh as (Hw & _ & Hgen & Hk). destruct (Hk Hl) as (Hl0 & _ & Ha & Hh & Hn & H4).
      rewrite Hgen in Hg. destruct (IH (host_run_prefix _ _ Hr) _ Ht Hl0 Hg) as (? & ? & ? & ? & ? & ?).
      unfold same_lease. split_and!; congruence.
Qed.

(** Whether a statement leases the task, and how often a run does. *)
Definition leases_it (o : Op) (db : DB) : Z :=
  match o with
  | LeaseOp id a => if (id =? i) && match lease_task id a db with Some _ => true | None => false end then 1 else 0
  | _ => 0
  end.
Fixpoint leases_in (ops : list Op) (db : DB) : Z :=
  match ops with
  | [] => 0
  | o :: rest => leases_it o db + leases_in rest (exec o db)
  end.

(** The statements that give an attempt back without a count of their own: a revoked release's
    requeue and a maintainer's Retry at size. *)
Definition given (o : Op) : Z :=
  match o with
  | Revoked id _ _ _ | Retry id _ => if id =? i then 1 else 0
  | _ => 0
  end.

Lemma leases_in_snoc ops o db : leases_in (ops ++ [o]) db = leases_in ops db + leases_it o (run ops db).
Proof.
  revert db. induction ops as [|x ops IH]; intros db; simpl; [lia|]. rewrite IH. unfold run at 2. simpl.
  unfold run. lia.
Qed.

Definition b2z (b : bool) : Z := if b then 1 else 0.

(** The accounts of a row after [n] leases and [x] attempts given back by hand. *)
Record accounts (n x : Z) (t : Task) : Prop := {
  ac_max : max_attempts (what t) = MAX_ATTEMPTS;
  ac_n : n <= attempts t + Z.min HOST_LOSSES_MAX (host_losses t) + b2z (m_native t) + b2z (m_4k t) + x;
  ac_losses : 0 <= host_losses t;
  ac_att : 0 <= attempts t <= MAX_ATTEMPTS;
  ac_queued : is_queued t = true -> attempts t < MAX_ATTEMPTS;
  ac_leased : is_leased t = true -> 1 <= attempts t }.

(** A failure report on the row it read. *)
Lemma fail_accounts n x t b k l at_ who db db' read :
  accounts n x t -> tasks db !! i = Some t -> is_leased t = true -> same_lease read t ->
  fail i who read b k l at_ db = Some db' ->
  exists t', tasks db' !! i = Some t' /\ accounts n x t'.
Proof.
  intros [Hm Hn Hl Ha Hq Hlt] Ht Hil (Hw & Hatt & Hlo & Hnat & H4 & _) Hf.
  unfold fail in Hf. apply update_some in Hf as (t0 & t' & Ht0 & Hf & -> & _).
  rewrite Ht in Ht0. injection Ht0 as <-. cbv zeta in Hf.
  match type of Hf with (if ?b then _ else _) = _ => destruct b; [|done] end. injection Hf as <-.
  exists (moved t (if f_exhausted (failOut read b k l) then failed else queued)
    (lease_moved (lease t) (if f_exhausted (failOut read b k l) then lease_owner (lease read) else None) None
       (if f_exhausted (failOut read b k l) then t_independent (lease t) else None)
       (lease_missed (lease t)) (stop_order (lease t)))
    (attempts t - (if f_native (failOut read b k l) then 1 else 0) - (if f_lost (failOut read b k l) then 1 else 0))
    (host_losses t + (if f_lost (failOut read b k l) then 1 else 0)) (priority t + 10)
    (Some (f_error (failOut read b k l))) (if f_exhausted (failOut read b k l) then Some at_ else None)
    (if f_native (failOut read b k l) then None else pinned_to t)
    (m_native t || f_native (failOut read b k l)) (m_4k t || f_4k (failOut read b k l))).
  split; [apply lookup_insert_eq|]. specialize (Hlt Hil).
  unfold failOut. cbn [f_exhausted f_native f_lost f_4k]. rewrite <- Hnat, <- H4, <- Hlo, <- Hatt, <- Hw, Hm.
  set (lost := _ && (host_losses t <? HOST_LOSSES_MAX)).
  assert (lost = true -> host_losses t < HOST_LOSSES_MAX) as Hlost.
  { subst lost. intros H. breflect. done. }
  clearbody lost. set (em := match lane (lease read) with Some _ => _ | None => _ end). clearbody em.
  set (on4 := match lease_gen (lease read) with Some _ => true | None => false end && k). clearbody on4.
  assert (0 <= b2z on4) by (destruct on4; simpl; lia).
  unfold HOST_LOSSES_MAX, MAX_ATTEMPTS in *.
  constructor; cbn [what attempts host_losses m_native m_4k moved]; unfold is_queued, is_leased, MAX_ATTEMPTS, HOST_LOSSES_MAX;
    cbn [status moved]; destruct lost; cbn [negb andb]; try (specialize (Hlost eq_refl));
    destruct (needs_native_ b), em, (m_4k t), (m_native t); cbn [negb andb orb b2z] in *;
    try lia; try (destruct (final b); cbn [orb]; try lia;
      destruct (Z.leb_spec 3 (attempts t)); try lia; intros; try done; lia); try (intros; done).
Qed.

(** Every statement on the task's row, reports on the row they read. *)
Lemma step_accounts n x o db t t' :
  accounts n x t -> tasks db !! i = Some t -> tasks (exec o db) !! i = Some t' ->
  (forall who read b k l at_, o = Fail i who read b k l at_ -> lease_held who (lease_gen (lease read)) t = true ->
     same_lease read t) ->
  accounts (n + leases_it o db) (x + given o) t'.
Proof.
  intros Hac Ht Ht' Hfail.
  assert (accounts n (x + given o) t) as Hac'.
  { destruct Hac. constructor; try done. assert (0 <= given o); [|lia]. unfold given. repeat case_match; lia. }
  unfold exec, attempt in Ht'. destruct (stmt o db) as [db'|] eqn:E; cycle 1.
  { cbn in Ht'. rewrite Ht in Ht'. injection Ht' as <-. replace (leases_it o db) with 0; [by rewrite Z.add_0_r|].
    destruct o; cbn in *; try done. rewrite E. by rewrite andb_false_r. }
  change (default db (Some db')) with db' in Ht'.
  assert ((forall a, o <> LeaseOp i a) -> leases_it o db = 0) as Hnl.
  { destruct o; cbn; try done. intros Hno. destruct (Z.eqb_spec id i) as [->|]; [by destruct (Hno a)|done]. }
  destruct o; cbn [stmt] in E;
    try (apply update_some in E as (t0 & t1 & Ht0 & Hf & Hdb & _); rewrite Hdb in Ht';
         destruct (decide (id = i)) as [->|Hne];
         [|rewrite lookup_insert_ne, Ht in Ht' by done; injection Ht' as <-;
           rewrite Hnl by congruence; rewrite Z.add_0_r; done];
         rewrite lookup_insert_eq in Ht'; injection Ht' as ->; rewrite Ht in Ht0; injection Ht0 as <-).
  - unfold enqueue in E. destruct (tasks db !! id) eqn:Eid; [done|]. injection E as <-. cbn in Ht'.
    rewrite lookup_insert_ne, Ht in Ht' by congruence. injection Ht' as <-. rewrite Hnl by done.
    by rewrite Z.add_0_r.
  - cbn [leases_it given]. rewrite Z.eqb_refl. cbn [andb]. unfold lease_task, update. rewrite Ht. cbn [mbind option_bind].
    destruct (is_queued t && leasable db a) eqn:Eq; [|done]. injection Hf as <-. cbn.
    apply andb_true_iff in Eq as [Eq _]. destruct Hac. constructor; cbn; try done; try lia.
    specialize (ac_queued0 Eq). lia.
  - case_match; [|done]. injection Hf as <-. rewrite Hnl, Z.add_0_r by done. destruct Hac'. constructor; done.
  - case_match; [|done]. injection Hf as <-. rewrite Hnl, Z.add_0_r by done. destruct Hac'. constructor; done.
  - case_match; [|done]. injection Hf as <-. rewrite Hnl, Z.add_0_r by done. destruct Hac'.
    constructor; try done; destruct to_staging; done.
  - rewrite Hnl, Z.add_0_r by done.
    destruct (lease_held who (lease_gen (lease read)) t) eqn:Eh; [|done].
    assert (is_leased t = true) as Hil by (unfold lease_held, leased_to in Eh; by breflect).
    destruct (fail_accounts n (x + given (Fail i who read b on_4k labels at_)) t b on_4k labels at_ who db
      {| tasks := <[i := t']> (tasks db); host_rows := host_rows db |} read) as (t2 & Ht2 & Hac2); try done.
    { by eapply Hfail. }
    { unfold fail, update. rewrite Ht. cbn [mbind option_bind]. rewrite Eh. cbv zeta. by injection Hf as <-. }
    cbn in Ht2. rewrite lookup_insert_eq in Ht2. by injection Ht2 as <-.
  - case_match; [|done]. injection Hf as <-. rewrite Hnl, Z.add_0_r by done. destruct Hac'.
    unfold requeue_row. rewrite ac_max0.
    constructor; cbn; try done; unfold is_queued, is_leased; cbn [status];
      destruct (Z.leb_spec MAX_ATTEMPTS (attempts t)); intros; try done; lia.
  - case_match eqn:Eh; [|done]. injection Hf as <-. rewrite Hnl, Z.add_0_r by done.
    assert (is_leased t = true) as Hil by (unfold lease_held, leased_to in Eh; by breflect).
    destruct Hac. specialize (ac_leased0 Hil). cbn [given]. rewrite Z.eqb_refl.
    constructor; cbn; try done; try lia.
  - case_match eqn:Eh; [|done]. injection Hf as <-. rewrite Hnl, Z.add_0_r by done.
    assert (is_leased t = true) as Hil by (unfold lease_held, leased_to in Eh; by breflect).
    destruct Hac. specialize (ac_leased0 Hil). unfold lost_row. rewrite ac_max0.
    cbn [given]. constructor; cbn [what attempts host_losses m_native m_4k moved];
      unfold is_queued, is_leased, HOST_LOSSES_MAX, MAX_ATTEMPTS in *; cbn [status moved]; try done;
      destruct (Z.leb_spec 2 (host_losses t)), (Z.leb_spec 3 (attempts t)); cbn [andb]; intros; try done; lia.
  - case_match; [|done]. injection Hf as <-. rewrite Hnl, Z.add_0_r by done. destruct Hac'. constructor; done.
  - case_match; [|done]. injection Hf as <-. rewrite Hnl, Z.add_0_r by done. destruct Hac'. constructor; done.
  - case_match; [|done]. injection Hf as <-. rewrite Hnl, Z.add_0_r by done. destruct Hac'. constructor; done.
  - case_match; [|done]. injection Hf as <-. rewrite Hnl, Z.add_0_r by done. destruct Hac. cbn [given]. rewrite Z.eqb_refl.
    rewrite ?ac_max0. constructor; cbn; rewrite ?ac_max0; try done; try (unfold MAX_ATTEMPTS in *; lia).
  - injection E as <-. cbn in Ht'. rewrite Ht in Ht'. injection Ht' as <-. rewrite Hnl by done. by rewrite Z.add_0_r.
Qed.

(** The statements that gave an attempt back by hand, over a run. *)
Definition given_in (ops : list Op) : Z := zsum given ops.

Lemma run_accounts ops :
  host_run ops ->
  match tasks (run ops empty_db) !! i with
  | None => leases_in ops empty_db = 0
  | Some t => accounts (leases_in ops empty_db) (given_in ops) t
  end.
Proof.
  induction ops as [|o ops IH] using rev_ind; intros Hr.
  { cbn. change (tasks empty_db) with (∅ : gmap Z Task). by rewrite lookup_empty. }
  specialize (IH (host_run_prefix _ _ Hr)). rewrite run_snoc, leases_in_snoc.
  unfold given_in in *. rewrite zsum_app. cbn [zsum foldr]. rewrite Z.add_0_r.
  destruct (tasks (run ops empty_db) !! i) as [t|] eqn:Et.
  - destruct (tasks (exec o (run ops empty_db)) !! i) as [t'|] eqn:Et'.
    + eapply step_accounts; try done. intros who read b k l at_ -> Hh.
      destruct (hr_reads _ Hr ops who read b k l at_ [] eq_refl) as (p1 & p2 & -> & Hrd & Hl).
      unfold lease_held, leased_to in Hh. breflect.
      apply (read_is_current p1 p2 read t); try done. by apply (host_run_prefix _ _ Hr).
    + exfalso. unfold exec, attempt in Et'. destruct (stmt o _) as [db'|] eqn:E.
      * change (default (run ops empty_db) (Some db')) with db' in Et'.
        apply stmt_cases in E as [(id & w & p & pin & _ & _ & E)|[(id & a & t0 & _ & _ & _ & _ & E)|
          [(id & t0 & t1 & _ & _ & E)|E]]]; rewrite E in Et';
          try (destruct (decide (id = i)) as [->|]; [by rewrite lookup_insert_eq in Et'|
            rewrite lookup_insert_ne in Et' by done]); congruence.
      * cbn in Et'. congruence.
  - assert (leases_it o (run ops empty_db) = 0) as Hz.
    { destruct o; cbn; try done. destruct (Z.eqb_spec id i) as [->|]; [|done].
      unfold lease_task, update. by rewrite Et. }
    rewrite IH, Hz. destruct (tasks (exec o _) !! i) as [t'|] eqn:Et'; [|done].
    apply row_cases in Et' as [[_ (w & p & pin & ->)]|[(a & t0 & _ & Ht & _)|(t0 & Ht & _)]]; try congruence.
    assert (0 <= zsum given ops + given o).
    { assert (forall x, 0 <= given x) as Hg by (intros x; unfold given; repeat case_match; lia).
      assert (0 <= zsum given ops) by (apply zsum_nonneg; intros; apply Hg). specialize (Hg o). lia. }
    constructor; cbn; try done; unfold MAX_ATTEMPTS; lia.
Qed.

End Count.

(** ** The fence *)

(** C25: a fenced lease has one way back. Whatever statement runs — a heartbeat, a replay, a
    completion, a failure, a lost or revoked lease's requeue, another claim — a task a Stop
    fenced stays leased to its worker by the same lease, fenced by the same order and with the
    same end, until the requeue that names that order, or a cancel, takes it. *)
Theorem fenced_lease_never_moves o db id t order :
  tasks db !! id = Some t -> is_leased t = true -> stop_order (lease t) = Some order ->
  (exists t', tasks (exec o db) !! id = Some t' /\ is_leased t' = true
     /\ stop_order (lease t') = Some order /\ lease_owner (lease t') = lease_owner (lease t)
     /\ lease_gen (lease t') = lease_gen (lease t) /\ lease_expires_at (lease t') = lease_expires_at (lease t)
     /\ attempts t' = attempts t)
  \/ (exists owner err at_ e, o = Requeue id owner err (Some order) at_ e) \/ (exists at_, o = Cancel id at_).
Proof.
  intros Ht Hl Hs.
  assert (forall w g, lease_held w g t = false) as Hh.
  { intros w g. unfold lease_held. rewrite Hs. apply andb_false_r. }
  assert (forall db', tasks db' !! id = Some t ->
    exists t', tasks db' !! id = Some t' /\ is_leased t' = true
     /\ stop_order (lease t') = Some order /\ lease_owner (lease t') = lease_owner (lease t)
     /\ lease_gen (lease t') = lease_gen (lease t) /\ lease_expires_at (lease t') = lease_expires_at (lease t)
     /\ attempts t' = attempts t) as Hsame by (intros db' H; exists t; tauto).
  unfold exec, attempt. destruct (stmt o db) as [db'|] eqn:E; [|left; by apply Hsame].
  change (default db (Some db')) with db'.
  assert (is_queued t = false) as Hq by (unfold is_queued, is_leased in *; by destruct (status t)).
  destruct o; cbn [stmt] in E;
    try (apply update_some in E as (t0 & t1 & Ht0 & Hf & Hdb & _);
         destruct (decide (id0 = id)) as [->|Hne];
         [rewrite Ht in Ht0; injection Ht0 as <-
         |left; apply Hsame; rewrite Hdb, lookup_insert_ne by done; done]);
    cbv zeta in *; try (rewrite Hh in Hf; done).
  - left. unfold enqueue in E. destruct (tasks db !! id0) eqn:Eid; [done|]. injection E as <-.
    apply Hsame. cbn. rewrite lookup_insert_ne by congruence. done.
  - by rewrite Hq in Hf.
  - rewrite Hs in Hf. by rewrite andb_false_r in Hf.
  - destruct (leased_to owner t && ostr_eqb (stop_order (lease t)) stop && _) eqn:Eb; [|done].
    breflect. right; left. replace stop with (Some order) by congruence. eauto.
  - left. case_match; [|done]. injection Hf as <-.
    eexists. rewrite Hdb, lookup_insert_eq. split; [done|]. cbn. tauto.
  - rewrite Hs in Hf. by rewrite andb_false_r in Hf.
  - right; right. eauto.
  - exfalso. unfold is_leased in Hl. destruct (status t); try done.
    by rewrite andb_false_r in Hf.
  - left. injection E as <-. by apply Hsame.
Qed.

(** ** Claims *)

Lemma by_units r w db f g :
  (forall i t, tasks db !! i = Some t -> leased_to w t = true -> f (heldOf r i t) = g t) ->
  (forall t, leased_to w t = false -> g t = 0) ->
  zsum f (List.filter (fun l => String.eqb (by_ l) w) (leases_held r db)) = tsum g (tasks db) \/ w = "".
Proof.
  intros Hf Hg. destruct (decide (w = "")) as [->|Hw]; [by right|left].
  unfold leases_held, tsum.
  assert (forall p, In p (map_to_list (tasks db)) -> tasks db !! p.1 = Some p.2) as Hin.
  { intros [j t] Hj. apply list_elem_of_In, elem_of_map_to_list in Hj. done. }
  revert Hin. generalize (map_to_list (tasks db)). intros l Hin.
  induction l as [|[j t] l IH]; [done|]. cbn [List.filter].
  specialize (IH (fun p Hp => Hin p (or_intror Hp))). specialize (Hin (j, t) (or_introl eq_refl)). cbn in Hin.
  cbn [snd]. destruct (is_leased t) eqn:El.
  - cbn [map List.filter fst snd]. cbn [by_ heldOf].
    destruct (String.eqb_spec (default "" (lease_owner (lease t))) w) as [E|E].
    + rewrite !zsum_cons, <- IH. cbn [snd]. f_equal. apply Hf; [done|].
      unfold leased_to, owned_by. rewrite El. destruct (lease_owner (lease t)) as [o|]; cbn in *; [|congruence].
      subst o. by rewrite String.eqb_refl.
    + rewrite zsum_cons. cbn [snd]. rewrite Hg; [exact IH|]. unfold leased_to, owned_by.
      rewrite El. destruct (lease_owner (lease t)) as [o|]; [|done]. cbn in *. by apply String.eqb_neq.
  - rewrite zsum_cons. cbn [snd]. rewrite Hg; [exact IH|]. unfold leased_to. by rewrite El.
Qed.

Section Claim.
Context (db : DB) (r : Rules) (w : string).
Hypothesis worker_named : w <> "".
(** Every lease of the host carries its units, as the claim's statement writes them. *)
Hypothesis units_written : forall i t, tasks db !! i = Some t -> leased_to w t = true ->
  exists u, units (lease t) = Some u /\ 0 <= u.

Lemma held_sums :
  task_units (List.filter (fun l => String.eqb (by_ l) w) (leases_held r db)) = tsum (sum_tasks w) (tasks db)
  /\ job_units (List.filter (fun l => String.eqb (by_ l) w) (leases_held r db)) = tsum (sum_jobs w) (tasks db)
  /\ 0 <= tsum (sum_jobs w) (tasks db).
Proof.
  unfold task_units, job_units. split_and!.
  - destruct (by_units r w db (fun l => if is_task_kind (h_kind l) then h_units l else 0) (sum_tasks w)) as [E|?]; [ | |exact E|done].
    + intros i t Hi Hl. destruct (units_written i t Hi Hl) as (u & Hu & _). cbn [h_kind h_units heldOf]. rewrite Hu.
      unfold sum_tasks. rewrite Hl, Hu. done.
    + intros t Hl. unfold sum_tasks. by rewrite Hl.
  - destruct (by_units r w db (fun l => if is_task_kind (h_kind l) then 0 else h_units l) (sum_jobs w)) as [E|?]; [ | |exact E|done].
    + intros i t Hi Hl. destruct (units_written i t Hi Hl) as (u & Hu & _). cbn [h_kind h_units heldOf]. rewrite Hu.
      unfold sum_jobs. rewrite Hl, Hu. by destruct (is_task_kind _).
    + intros t Hl. unfold sum_jobs. by rewrite Hl.
  - apply tsum_nonneg. intros i t Hi. unfold sum_jobs. destruct (leased_to w t) eqn:Hl; [|done].
    destruct (units_written i t Hi Hl) as (u & -> & Hu). cbn. case_match; lia.
Qed.

(** C26: what selection hands out, the lease statement takes. When nothing moved since the claim's
    reads, every choice of [select] for a host — its units computed in memory from the leases
    read — passes the guard of the one statement that leases it: the two counts of a host's
    units agree. *)
Theorem claim_takes_its_choice me fleet cands now k h gen ch t :
  legacy me = false -> m_id me = w -> k_worker k = w -> k_host k = Some h -> k_units k = m_units me ->
  leases fleet = leases_held r db -> 0 <= r_job_reserved r ->
  host_ok db h (now - HOST_REPORT_FRESH_MIN * MIN) = true ->
  In ch (select me fleet cands now r) ->
  tasks db !! ch_id ch = Some t -> is_queued t = true ->
  (forall c, In c cands -> c_id c = ch_id ch -> c_kind c = t_kind (what t)) ->
  exists db', lease_task (ch_id ch) (args_of k r now gen (t_kind (what t)) ch) db = Some db'
    /\ tasks db' !! ch_id ch = Some (leased_row t (args_of k r now gen (t_kind (what t)) ch)).
Proof.
  intros Hleg Hid Hkw Hkh Hku Hfl Hres Hok Hch Ht Hq Hkind.
  destruct (choice_passes _ _ _ _ _ _ Hch) as (c & lane & Hc & Hcid & _ & Hp & _ & Hu & _).
  specialize (Hkind c Hc Hcid).
  pose proof (p_room _ _ _ _ _ _ _ Hp) as Hroom. cbn [k_held claimOf] in Hroom.
  destruct (room_free _ _ _ _ _ (or_intror (ex_intro _ _ Hroom)) Hleg) as (H1 & H2 & _ & _).
  cbn [k_largest claimOf] in *. rewrite <- Hu in H1, H2. clear Hroom Hp Hu.
  unfold heldBy in H1, H2. rewrite Hleg, Hid, Hfl in H1, H2. rewrite Hkind in H1, H2.
  destruct held_sums as (Est & Esj & Hnn). unfold roomOf in H1, H2. cbn [rm_task rm_job] in H1, H2.
  rewrite Est, Esj in H1, H2.
  assert (leasable db (args_of k r now gen (t_kind (what t)) ch) = true) as Hl.
  { unfold leasable, args_of. cbn [a_host a_units a_worker]. rewrite Hkh. cbn [fmap option_fmap option_map g_host g_since].
    rewrite Hok. cbn [andb]. unfold guard_ok. cbn [g_kept g_units]. rewrite Hkw, Hku. apply Z.leb_le.
    destruct (is_task_kind (t_kind (what t))); [specialize (H1 eq_refl)|specialize (H2 eq_refl)]; lia. }
  eexists. unfold lease_task, update. rewrite Ht. cbn [mbind option_bind]. rewrite Hq, Hl. cbn [andb].
  split; [reflexivity|]. cbn [tasks]. apply lookup_insert_eq.
Qed.
End Claim.

(** ** Reconciliation *)

(** A row that is still the lease read: its count of misses aside. *)
Definition still (t t' : Task) : Prop :=
  is_leased t' = true /\ lease_owner (lease t') = lease_owner (lease t) /\ lease_gen (lease t') = lease_gen (lease t)
  /\ lease_expires_at (lease t') = lease_expires_at (lease t) /\ stop_order (lease t') = stop_order (lease t)
  /\ attempts t' = attempts t /\ host_losses t' = host_losses t.

Lemma attempt_update_ne id id' f db : id <> id' -> tasks (attempt (update id f) db) !! id' = tasks db !! id'.
Proof.
  intros Hne. unfold attempt. destruct (update id f db) as [db'|] eqn:E; [|done].
  apply update_some in E as (t & t' & _ & _ & E & _). cbn. by rewrite E, lookup_insert_ne.
Qed.

Lemma reconcile_apply_ne worker pool at_ db p v id :
  p.1 <> id -> tasks (reconcile_apply worker pool at_ db p v) !! id = tasks db !! id.
Proof. intros Hne. unfold reconcile_apply. destruct v; try done; by apply attempt_update_ne. Qed.

Lemma reconcile_keeps worker pool ls at_ id t t0 db :
  (forall g, lease_gen (lease t) = Some g -> stop_order (lease t) = None -> lists ls id g = true) ->
  tasks db !! id = Some t0 -> still t t0 ->
  exists t', tasks (reconcile_apply worker pool at_ db (id, t) (reconcile_one ls at_ id t)) !! id = Some t' /\ still t t'.
Proof.
  intros Hls Ht Hst. unfold reconcile_one.
  destruct (stop_order (lease t)) eqn:Es; [by eauto|]. destruct (lease_gen (lease t)) as [g|] eqn:Eg; [|by eauto].
  rewrite (Hls g eq_refl eq_refl). cbn [negb andb]. case_match; [by eauto|].
  cbn [reconcile_apply fst snd]. rewrite Eg. cbn [default]. unfold countMissed, attempt, update. rewrite Ht.
  cbn [mbind option_bind]. case_match; [|by eauto]. cbn. rewrite lookup_insert_eq. eexists. split; [done|].
  unfold still in *. cbn in *. tauto.
Qed.

(** reconciliation never takes back a lease its host still has. A lease the claim lists by its
    task and generation — or one a Stop fenced, or a legacy one — is, after the claim's
    reconciliation, the same lease: its owner, generation, end and attempts unmoved. *)
Theorem listed_lease_is_kept db worker pool ls at_ id t :
  tasks db !! id = Some t -> leased_to worker t = true ->
  (forall g, lease_gen (lease t) = Some g -> stop_order (lease t) = None -> lists ls id g = true) ->
  exists t', tasks (reconcileHost worker pool ls at_ db) !! id = Some t' /\ still t t'.
Proof.
  intros Ht Hl Hls. unfold reconcileHost.
  set (held := List.filter (fun p => leased_to worker p.2) (map_to_list (tasks db))).
  assert (forall p, In p held -> p.1 = id -> p.2 = t) as Hsame.
  { intros [j x] Hp Hj. cbn in Hj. subst j. apply filter_In in Hp as [Hp _].
    apply list_elem_of_In, elem_of_map_to_list in Hp. cbn. congruence. }
  clearbody held.
  assert (exists t0, tasks db !! id = Some t0 /\ still t t0) as H0.
  { exists t. split; [done|]. unfold leased_to in Hl. breflect. unfold still. tauto. }
  clear Ht Hl. revert db H0. induction held as [|p rest IH]; intros db (t0 & Ht0 & Hst); [by eauto|].
  cbn [fold_left]. apply IH; [intros q Hq; apply Hsame; by right|].
  destruct (decide (p.1 = id)) as [Hp|Hp].
  - pose proof (Hsame p (or_introl eq_refl) Hp) as Hx. destruct p as [j x]. cbn in Hp, Hx. subst j x.
    by eapply reconcile_keeps.
  - rewrite reconcile_apply_ne by done. eauto.
Qed.

(** ** Witnesses *)

Definition build_what : What :=
  {| t_name := "pkg"; t_arch := "aarch64"; t_kind := "build"; t_trust := "project"; t_owner := None;
     max_attempts := 3; publish := true; review := None; pkgbuild_ref := "0a1b" |}.
Definition lease_by (w : string) (gen : string) (u cap : Z) : LeaseArgs :=
  {| a_worker := w; a_until := noon + 30 * MIN; a_at := noon; a_gen := Some gen; a_lane := Some native;
     a_size := Some 1; a_units := u; a_disk := Some 20; a_version := Some "v1.0.0"; a_claim := Some "c_00000001";
     a_independent := None;
     a_host := Some {| g_host := "h_1"; g_since := noon - 15 * MIN; g_kept := 1; g_units := cap |} |}.
Definition up : gmap string HostRow :=
  {[ "h_1" := {| h_active := true; h_owner_removed := false; h_owner_listed := true; asleep_at := None;
                 reported_at := Some noon |} ]}.
(** Two claims of one host race for the last units: only one lease is taken. *)
Definition race : list Op :=
  [Hosts up; Enqueue 1 build_what 50 None; Enqueue 2 build_what 50 None;
   LeaseOp 1 (lease_by "ana-1" "g_1" 2 4); LeaseOp 2 (lease_by "ana-1" "g_2" 2 4)].

Lemma units_never_overcommitted_witness :
  tsum (sum_tasks "ana-1") (tasks (run race empty_db))
  + Z.max 1 (tsum (sum_jobs "ana-1") (tasks (run race empty_db))) <= 4.
Proof.
  apply (units_never_overcommitted "ana-1" 1 4 race); [lia|].
  assert (forall id g u db, 0 <= u -> guarded "ana-1" 1 4 db (LeaseOp id (lease_by "ana-1" g u 4))) as Hg.
  { intros id g u db Hu. intros _. cbn. split; [done|]. eexists. split; [reflexivity|]. cbn. split_and!; [lia|lia|].
    intros; lia. }
  cbn [all_along race]. split_and!; try exact I; apply Hg; lia.
Defined.

(** A lease, a report that the host lost it, and the next lease. *)
Definition read_row : Task := leased_row (new_task build_what 50 None) (lease_by "ana-1" "g_1" 2 4).
Definition lost_body : FailBody := {| said := "reboot"; final := false; needs_native_ := false; b_lost := true; b_oom := false |}.
Definition lose : list Op :=
  [Hosts up; Enqueue 1 build_what 50 None; LeaseOp 1 (lease_by "ana-1" "g_1" 2 4);
   Fail 1 "ana-1" read_row lost_body false false noon; LeaseOp 1 (lease_by "ana-1" "g_2" 2 4)].

Lemma lose_host_run : host_run 1 lose.
Proof.
  constructor.
  - intros a [H|[H|[H|[H|[H|[]]]]]]; try done; injection H as <-; eauto.
  - cbn. repeat constructor; set_solver.
  - intros pre who read b k l at_ post E. exists pre, []. rewrite app_nil_r. split; [done|].
    unfold lose in E.
    destruct pre as [|o1 [|o2 [|o3 [|o4 [|o5 [|o6 pre]]]]]]; simplify_eq/=; vm_compute; done.
Defined.


Definition fenced_db : DB := run (take 3 lose ++ [Fence 1 "ana-1" "o_1"]) empty_db.
Definition fenced_row : Task := with_lease read_row
  (lease_moved (lease read_row) (Some "ana-1") (Some (noon + 30 * MIN)) None 0 (Some "o_1")).

Lemma fenced_lease_never_moves_witness :
  let o := Renew 1 "ana-1" (Some "g_1") (noon + HOUR) in
  (exists t', tasks (exec o fenced_db) !! 1 = Some t' /\ is_leased t' = true
     /\ stop_order (lease t') = Some "o_1" /\ lease_owner (lease t') = lease_owner (lease fenced_row)
     /\ lease_gen (lease t') = lease_gen (lease fenced_row)
     /\ lease_expires_at (lease t') = lease_expires_at (lease fenced_row)
     /\ attempts t' = attempts fenced_row)
  \/ (exists owner err at_ e, o = Requeue 1 owner err (Some "o_1") at_ e) \/ (exists at_, o = Cancel 1 at_).
Proof. apply fenced_lease_never_moves; vm_compute; reflexivity. Defined.

Definition queue_db : DB := run (take 2 race) empty_db.
Definition ana_claims : Claimer :=
  {| k_worker := "ana-1"; k_version := Some "v1.0.0"; k_host := Some "h_1"; k_claim := Some "c_00000001"; k_units := 9 |}.
Definition arm_project : Candidate := task 1 "build" "aarch64" "project" (noon - HOUR).
Definition arm_choice : Choice := chosen ana two_hosts [arm_project] 0.

Lemma claim_takes_its_choice_witness :
  exists db', lease_task (ch_id arm_choice) (args_of ana_claims signed_rules noon "g_1" "build" arm_choice) queue_db = Some db'
    /\ tasks db' !! ch_id arm_choice
       = Some (leased_row (new_task build_what 50 None) (args_of ana_claims signed_rules noon "g_1" "build" arm_choice)).
Proof.
  apply (claim_takes_its_choice queue_db signed_rules "ana-1" ltac:(discriminate)) with
    (me := ana) (fleet := two_hosts) (cands := [arm_project]) (h := "h_1") (t := new_task build_what 50 None);
    try (vm_compute; reflexivity).
  - intros i t Hi. change (tasks queue_db) with (<[1 := new_task build_what 50 None]> (∅ : gmap Z Task)) in Hi.
    apply lookup_insert_Some in Hi as [[_ <-]|[_ Hi]]; [done|by rewrite lookup_empty in Hi].
  - vm_compute. discriminate.
  - left. reflexivity.
  - intros c [<-|[]] _. reflexivity.
Defined.

Lemma listed_lease_is_kept_witness :
  let db := run (take 3 lose) empty_db in
  exists t', tasks (reconcileHost "ana-1" "v1.0.0" [{| ls_task := 1; ls_gen := "g_1" |}] noon db) !! 1 = Some t'
    /\ still read_row t'.
Proof.
  apply (listed_lease_is_kept (run (take 3 lose) empty_db)); [vm_compute; reflexivity|reflexivity|].
  intros g [= <-] _. reflexivity.
Defined.
