(* ===== verification/Sizing.v ===== *)
(** * Sizing (worker/src/sizing.ts)

    The file's sizes, the size the pool learns from a package's builds and
    what a package's builds ask. The TOML parser is a library: [readSizing]
    takes what it answered, an error or a value. *)
From S2P Require Import Prelude JsTime Json Manifest.
Local Open Scope string_scope.
Local Open Scope Z_scope.

Record Sizing := { z_size : option Z; z_disk : option Z }.

Definition KEYS : list string := ["size"; "disk_gb"; "network"; "reason"].

(** Why a file does not read; each carries what its message names. *)
Inductive SizingError :=
| DoesNotParse (e : string) | BadSchema (v : option json) | UnknownKey (k : string) | NotATable
| PackageNotTable (name : string) | PackageKey (name k : string) | BadSize (name : string) | BadDisk (name : string).

Definition whole_upto (max : Z) (v : option json) : bool :=
  match v with
  | None => true
  | Some (JNum m O) => (1 <=? m) && (m <=? max)
  | _ => false
  end.

Definition first_unknown (known : list string) (o : list (string * json)) : option string :=
  fst <$> List.find (fun p => negb (str_in p.1 known)) o.

(** One package's table: its sizing, or none when it sets neither. *)
Definition readPackage (name : string) (v : json) : SizingError + option Sizing :=
  match v with
  | JObj e =>
      match first_unknown KEYS e with
      | Some k => inl (PackageKey name k)
      | None =>
          if negb (whole_upto 4096 (assoc "size" e)) then inl (BadSize name)
          else if negb (whole_upto 4096 (assoc "disk_gb" e)) then inl (BadDisk name)
          else match assoc "size" e, assoc "disk_gb" e with
               | None, None => inr None
               | s, d => inr (Some {| z_size := as_int s; z_disk := as_int d |})
               end
      end
  | _ => inl (PackageNotTable name)
  end.

Fixpoint readPackages (ps : list (string * json)) (out : gmap string Sizing) : SizingError + gmap string Sizing :=
  match ps with
  | [] => inr out
  | (name, v) :: rest =>
      match readPackage name v with
      | inl e => inl e
      | inr None => readPackages rest out
      | inr (Some z) => readPackages rest (<[name := z]> out)
      end
  end.

Definition readSizing (parsed : string + list (string * json)) : SizingError + gmap string Sizing :=
  match parsed with
  | inl e => inl (DoesNotParse e)
  | inr f =>
      match assoc "schema" f with
      | Some (JNum 1 O) =>
          match first_unknown ["schema"; "package"] f with
          | Some k => inl (UnknownKey k)
          | None =>
              match assoc "package" f with
              | None | Some JNull => inr ∅
              | Some (JObj pkgs) => readPackages pkgs ∅
              | Some _ => inl NotATable
              end
          end
      | v => inl (BadSchema v)
      end
  end.

(** The release's own file: one that does not read sizes nothing. *)
Definition shippedSizing (parsed : string + list (string * json)) : gmap string Sizing :=
  match readSizing parsed with inl _ => ∅ | inr m => m end.

Inductive Why := oom | decay.
Record Learned := { le_size : option Z; lower : Z; le_task : option Z; why : option Why; at_ : option string }.

Definition DECAY_AFTER : Z := 5.

(** The learned_* columns as the row holds them. *)
Definition whole_from (min : Z) (v : option json) : option Z :=
  match v with Some (JNum m O) => if min <=? m then Some m else None | _ => None end.

Definition learnedOf (r : option json) : Learned :=
  {| le_size := whole_from 2 (field r "learned_size"); lower := default 0 (whole_from 0 (field r "learned_lower"));
     le_task := whole_from 1 (field r "learned_task");
     why := match as_str (field r "learned_why") with
            | Some w => if String.eqb w "oom" then Some oom else if String.eqb w "decay" then Some decay else None
            | None => None
            end;
     at_ := as_str (field r "learned_at") |}.

Definition peakBelowMb (size : Z) : Z :=
  (size - 1) * build_per_size TASK_UNITS * mem_gb UNIT * 1024 - egress SIDECARS_MEM_MB - agent SIDECARS_MEM_MB.

Definition learnCap (trust : string) (review : bool) : Z :=
  if String.eqb trust "community" || review then COMMUNITY_MAX_SIZE else MAX_SIZE.

Record OomReport := { o_ran : Z; o_trust : string; o_review : bool; o_task : Z; o_at : string }.
Record PeakReport := { p_peak : Z; p_task : Z; p_at : string }.

Definition with_lower (cur : Learned) (n : Z) : Learned :=
  {| le_size := le_size cur; lower := n; le_task := le_task cur; why := why cur; at_ := at_ cur |}.

Definition afterOom (cur : Learned) (o : OomReport) : option Learned :=
  let was := default 1 (le_size cur) in
  let size := Z.max was (Z.min (learnCap (o_trust o) (o_review o)) (Z.max 1 (o_ran o) + 1)) in
  if size =? was then (if lower cur =? 0 then None else Some (with_lower cur 0))
  else Some {| le_size := Some size; lower := 0; le_task := Some (o_task o); why := Some oom; at_ := Some (o_at o) |}.

Definition afterBuild (cur : Learned) (o : PeakReport) : option Learned :=
  match le_size cur with
  | None => None
  | Some size =>
      if peakBelowMb size <=? p_peak o then (if lower cur =? 0 then None else Some (with_lower cur 0))
      else
        let n := lower cur + 1 in
        if n <? DECAY_AFTER then Some (with_lower cur n)
        else Some {| le_size := if 2 <? size then Some (size - 1) else None; lower := 0;
                     le_task := Some (p_task o); why := Some decay; at_ := Some (p_at o) |}
  end.

(** ** What a package's builds ask *)

Inductive From := Fpage | Ffile | Flearned.
Record LearnedView := { lv_size : Z; lv_lower : Z; lv_of : Z; lv_task : option Z; lv_why : option Why; lv_at : option string }.
Record SizingView := { v_size : Z; v_disk : Z; v_from : option From; v_disk_from : option From; v_learned : option LearnedView }.

Definition sizingView (shipped : gmap string Sizing) (pkg : option json) : SizingView :=
  let file := name ← as_str (field pkg "name"); shipped !! name in
  let pageSize := as_int (field pkg "size") in
  let pageDisk := as_int (field pkg "disk_gb") in
  let learned := learnedOf pkg in
  let fileSize := f ← file; z_size f in
  let fileDisk := f ← file; z_disk f in
  let first {A} (x y : option A) := match x with Some _ => x | None => y end in
  let size := default 1 (first (first pageSize fileSize) (le_size learned)) in
  let disk := first pageDisk fileDisk in
  {| v_size := size; v_disk := default (BUILD_GB_PER_SIZE * size) disk;
     v_from := match pageSize, fileSize, le_size learned with
               | Some _, _, _ => Some Fpage
               | None, Some z, l => if z =? 0 then (fun _ => Flearned) <$> l else Some Ffile
               | None, None, l => (fun _ => Flearned) <$> l
               end;
     v_disk_from := match pageDisk, fileDisk with
                    | Some _, _ => Some Fpage
                    | None, Some z => if z =? 0 then None else Some Ffile
                    | None, None => None
                    end;
     v_learned := (fun s => {| lv_size := s; lv_lower := lower learned; lv_of := DECAY_AFTER; lv_task := le_task learned;
                               lv_why := why learned; lv_at := at_ learned |}) <$> le_size learned |}.

(** ** Facts *)

(** A build's report: the engine's out-of-memory kill, or a completion's memory peak. *)
Inductive Report := Roomed (o : OomReport) | Rpeak (p : PeakReport).
Definition after (cur : Learned) (x : Report) : Learned :=
  default cur (match x with Roomed o => afterOom cur o | Rpeak p => afterBuild cur p end).
Definition nothing : Learned := {| le_size := None; lower := 0; le_task := None; why := None; at_ := None |}.

(** Nothing learned, or a size from 2 to [cap] with fewer than five lower peaks. *)
Definition learned_ok (cap : Z) (cur : Learned) : Prop :=
  0 <= lower cur < DECAY_AFTER /\ (le_size cur = None -> lower cur = 0)
  /\ forall s, le_size cur = Some s -> 2 <= s <= cap.

Definition capped_at (cap : Z) (x : Report) : Prop :=
  match x with Roomed o => learnCap (o_trust o) (o_review o) <= cap | Rpeak _ => True end.

Lemma after_ok cap cur x : 2 <= cap -> capped_at cap x -> learned_ok cap cur -> learned_ok cap (after cur x).
Proof.
  intros Hc Hx (Hl & Hn & Hs). unfold learned_ok, after, DECAY_AFTER in *. destruct x as [o|p]; cbn [capped_at] in Hx.
  - unfold afterOom. cbv zeta. set (was := default 1 (le_size cur)).
    assert (1 <= was <= Z.max 1 cap) as Hw.
    { subst was. destruct (le_size cur) as [s|]; cbn; [specialize (Hs s eq_refl); lia|lia]. }
    destruct (Z.eqb_spec (Z.max was (Z.min (learnCap (o_trust o) (o_review o)) (Z.max 1 (o_ran o) + 1))) was) as [E|E].
    + destruct (lower cur =? 0); cbn; split_and!; try done; lia.
    + cbn. split_and!; try done; intros s [= <-]; lia.
  - unfold afterBuild. destruct (le_size cur) as [s|] eqn:Es; [|cbn; rewrite Es; tauto].
    specialize (Hs s eq_refl). unfold DECAY_AFTER.
    destruct (Z.leb_spec (peakBelowMb s) (p_peak p)); [destruct (lower cur =? 0); cbn; rewrite Es|];
      try (split_and!; try done; try lia; intros ? [= <-]; lia).
    destruct (Z.ltb_spec (lower cur + 1) 5); cbn; rewrite ?Es.
    + split_and!; try done; try lia; intros ? [= <-]; lia.
    + destruct (Z.ltb_spec 2 s); split_and!; try done; try lia; intros ? [= <-]; lia.
Qed.

(** a learned size stays within its bound. Over any reports of a package's builds — kills at
    whatever size, peaks in any order — the size the pool remembers is none or from 2 to the
    signed maximum, and no more than a contributor's 2 when every kill was of a contributor's
    build or of the project's copy of one. *)
Theorem learned_size_bounded xs cap :
  (cap = MAX_SIZE \/ (cap = COMMUNITY_MAX_SIZE
     /\ forall o, In (Roomed o) xs -> o_trust o = "community" \/ o_review o = true)) ->
  learned_ok cap (fold_left after xs nothing).
Proof.
  intros Hcap. assert (2 <= cap /\ forall x, In x xs -> capped_at cap x) as [H2 Hall].
  { destruct Hcap as [->|[-> Hr]]; (split; [done|]); intros [o|p] Hin; cbn; try done; unfold learnCap.
    - case_match; done.
    - destruct (Hr o Hin) as [-> | ->]; [done|]. by rewrite orb_true_r. }
  assert (learned_ok cap nothing) as H0 by (unfold learned_ok; cbn; done).
  clear Hcap. revert H0 Hall. generalize nothing. induction xs as [|x xs IH]; intros cur H0 Hall; [done|].
  cbn. apply IH; [apply after_ok; try done; apply Hall; by left|]. intros y Hy. apply Hall. by right.
Qed.

Lemma learned_size_bounded_witness :
  let kill := Roomed {| o_ran := 3; o_trust := "community"; o_review := false; o_task := 7; o_at := "t" |} in
  learned_ok COMMUNITY_MAX_SIZE (fold_left after [kill; kill] nothing).
Proof.
  apply (learned_size_bounded _ COMMUNITY_MAX_SIZE). right. split; [done|].
  intros o [H|[H|[]]]; injection H as <-; by left.
Defined.

Lemma low_peaks cur s ps :
  le_size cur = Some s -> 0 <= lower cur -> lower cur + Z.of_nat (length ps) < DECAY_AFTER ->
  (forall p, In p ps -> p_peak p < peakBelowMb s) ->
  fold_left after (map Rpeak ps) cur = with_lower cur (lower cur + Z.of_nat (length ps)).
Proof.
  revert cur. induction ps as [|p ps IH]; intros cur Hs Hl Hlen Hps.
  - cbn. rewrite Z.add_0_r. by destruct cur.
  - cbn [map fold_left]. assert (after cur (Rpeak p) = with_lower cur (lower cur + 1)) as ->.
    { cbn. unfold afterBuild. rewrite Hs. specialize (Hps p (or_introl eq_refl)).
      replace (peakBelowMb s <=? p_peak p) with false by lia.
      cbn [length] in Hlen. replace (lower cur + 1 <? DECAY_AFTER) with true by lia. done. }
    rewrite IH; cbn [with_lower le_size lower]; try done.
    + cbn [length]. unfold with_lower. cbn. f_equal. lia.
    + lia.
    + cbn [length] in Hlen. lia.
    + intros q Hq. apply Hps. by right.
Qed.

(** a remembered size decays on the fifth lower peak in a row, one step, and no sooner: four
    builds that peaked below what the next size down gives leave it, the fifth takes one step
    down (to nothing learned from 2), and one that needed the size starts the count over. *)
Theorem size_decays_on_the_fifth cur s ps last :
  le_size cur = Some s -> lower cur = 0 -> length ps = 4%nat ->
  (forall p, In p ps -> p_peak p < peakBelowMb s) ->
  le_size (fold_left after (map Rpeak ps) cur) = Some s
  /\ (p_peak last < peakBelowMb s ->
      le_size (after (fold_left after (map Rpeak ps) cur) (Rpeak last)) = (if 2 <? s then Some (s - 1) else None)
      /\ lower (after (fold_left after (map Rpeak ps) cur) (Rpeak last)) = 0)
  /\ (peakBelowMb s <= p_peak last ->
      le_size (after (fold_left after (map Rpeak ps) cur) (Rpeak last)) = Some s
      /\ lower (after (fold_left after (map Rpeak ps) cur) (Rpeak last)) = 0).
Proof.
  intros Hs Hl Hlen Hps.
  rewrite (low_peaks cur s ps Hs); [|lia|rewrite Hlen, Hl; unfold DECAY_AFTER; lia|done].
  rewrite Hlen, Hl. change (0 + Z.of_nat 4) with 4. split; [done|].
  unfold after, afterBuild. cbn [with_lower le_size lower]. rewrite Hs. split; intros Hp.
  - replace (peakBelowMb s <=? p_peak last) with false by lia. cbn. done.
  - replace (peakBelowMb s <=? p_peak last) with true by lia. cbn. done.
Qed.

Lemma size_decays_on_the_fifth_witness :
  let low := {| p_peak := 100; p_task := 8; p_at := "t" |} in
  let cur := {| le_size := Some 3; lower := 0; le_task := Some 1; why := Some oom; at_ := None |} in
  le_size (fold_left after (map Rpeak [low; low; low; low]) cur) = Some 3
  /\ (p_peak low < peakBelowMb 3 ->
      le_size (after (fold_left after (map Rpeak [low; low; low; low]) cur) (Rpeak low)) = (if 2 <? 3 then Some (3 - 1) else None)
      /\ lower (after (fold_left after (map Rpeak [low; low; low; low]) cur) (Rpeak low)) = 0)
  /\ (peakBelowMb 3 <= p_peak low ->
      le_size (after (fold_left after (map Rpeak [low; low; low; low]) cur) (Rpeak low)) = Some 3
      /\ lower (after (fold_left after (map Rpeak [low; low; low; low]) cur) (Rpeak low)) = 0).
Proof.
  apply size_decays_on_the_fifth; try reflexivity.
  intros p H. repeat (destruct H as [<-|H]; [vm_compute; reflexivity|]). done.
Defined.
