(* ===== verification/Score.v ===== *)
(** * The score (worker/src/score.ts)

    A package's class from what the factory recorded: two halves of fifty
    points, the contributor's and the maintainer's. *)
From S2P Require Import Prelude JsTime Json.
Local Open Scope string_scope.
Local Open Scope Z_scope.

(** A bump, by what only the server writes: the ref, or the params' tag. [parsed]
    is the params column once [JSON.parse]d, [None] where it is no JSON. *)
Definition isBump (pkgbuild_ref : option string) (parsed : option json) : bool :=
  match pkgbuild_ref with
  | Some r => starts_with "bump:" r
  | None => false
  end
  || match as_str (field parsed "bump") with Some tag => truthy tag | None => false end.

Record Contributor := { co_attempts : Z; co_status : string; co_version : option string; co_bump : bool }.
Record Vet := { ve_verdict : string; ve_fails : Z; ve_warnings : Z }.
Record Audit := { au_status : string; au_verdict : option string; au_high : Z; au_findings : Z }.
Record Request := { rq_license : option string; rq_source : option string; rq_complete : option bool; rq_version : option string }.
Record Project := { pr_status : string; pr_attempts : Z }.
Record Trial := { tr_status : string; tr_verdict : option string }.
Record Approval := { ap_decision : string; ap_note : option string }.

Record ChainInput := {
  contributor : option Contributor; vet : option Vet; audit : option Audit; request : option Request;
  project : option Project; projectVet : option Vet; trial : option Trial; approval : option Approval;
  category : option string }.

Inductive Who := by_contributor | by_maintainer.
Inductive ItemState := done_ | pending.
Record ScoreItem := { who : Who; item : string; points : Z; max : Z; state : ItemState; note : string }.

Inductive Class_ := A | B | C | D.
Record Score := { s_points : Z; s_max : Z; class_ : Class_; projected : Class_; ready : bool; items : list ScoreItem }.

Definition CLASSES : list (Z * Class_) := [(90, A); (75, B); (55, C); (0, D)].
Definition classOf (p : Z) : Class_ :=
  match List.find (fun x => fst x <=? p) CLASSES with Some x => snd x | None => D end.

Definition is_done_status (s : string) : bool := str_in s ["staged"; "done"].

(** A release's version as both sides read it: no leading v, no pkgrel, dashes as underscores. *)
Definition strip_v (s : string) : string :=
  match s with String c r => if (Ascii.eqb c "v" || Ascii.eqb c "V")%char then r else s | _ => s end.
Definition strip_pkgrel (s : string) : string :=
  match rev (split_on "-"%char s) with
  | last :: (_ :: _) as parts => match dec last with Some _ => join "-" (rev (tl (rev (split_on "-"%char s)))) | None => s end
  | _ => s
  end.
Definition underscores (s : string) : string := join "_" (split_on "-"%char s).
Definition asVersion (tag : string) : string := underscores (strip_pkgrel (strip_v tag)).

Definition mk (w : Who) (i : string) (p m : Z) (s : ItemState) (n : string) : ScoreItem :=
  {| who := w; item := i; points := p; max := m; state := s; note := n |}.
Definition done_if (b : bool) : ItemState := if b then done_ else pending.

(** A build that took [n] leases: three points less for each after the first. *)
Definition build_points (least n : Z) : Z := Z.max least (15 - 3 * Z.max 0 (n - 1)).

Definition named (c : ChainInput) : bool :=
  match request c with Some r => truthyo (rq_license r) && truthyo (rq_source r) | None => false end.
Definition built (c : ChainInput) : bool :=
  match contributor c with Some b => is_done_status (co_status b) | None => false end.

Definition stale (c : ChainInput) : bool :=
  named c
  && match request c, contributor c with
     | Some r, Some b =>
         match rq_version r, co_version b with
         | Some v, Some w => truthy v && truthy w && negb (String.eqb v "unknown") && negb (String.eqb (asVersion v) (asVersion w))
         | _, _ => false
         end
     | _, _ => false
     end.

(** The request judges the chains a maintainer has yet to decide. *)
Definition judged (c : ChainInput) : bool :=
  negb match contributor c with Some b => co_bump b | None => false end
  && match approval c with Some _ => false | None => true end.

Definition says_incomplete (c : ChainInput) : bool :=
  match request c with Some r => match rq_complete r with Some false => true | _ => false end | None => false end.

Definition incomplete (c : ChainInput) : bool :=
  judged c && (match request c with None => true | Some _ => false end || negb (named c) || says_incomplete c || stale c).

Definition otext (o : option string) : string := default "undefined" o.

Definition request_item (c : ChainInput) : ScoreItem :=
  mk by_contributor "A request on the record" (if named c then (if incomplete c then 2 else 5) else 0) 5
    (done_if match request c with Some _ => true | None => false end)
    match request c with
    | None => "no request on the record"
    | Some r =>
        if negb (named c) then "the licence or the source is missing"
        else if negb (judged c) then "licence and source named"
        else if says_incomplete c then "licence and source named, but the request is incomplete — renew it"
        else if stale c then "the request names " +:+ otext (rq_version r) +:+ ", this build is "
               +:+ otext (b ← contributor c; co_version b) +:+ " — build again"
        else "licence and source named"
    end.

Definition build_item (c : ChainInput) : ScoreItem :=
  match contributor c with
  | None => mk by_contributor "A build that succeeds" 0 15 pending "no build yet"
  | Some b =>
      mk by_contributor "A build that succeeds" (if built c then build_points 4 (co_attempts b) else 0) 15
        (done_if (built c || String.eqb (co_status b) "failed" || String.eqb (co_status b) "cancelled"))
        (if built c then (if co_attempts b <=? 1 then "first attempt" else zstr (co_attempts b) +:+ " attempts")
         else if String.eqb (co_status b) "failed" then "the build failed" else co_status b)
  end.

Definition gate_points (full some : Z) (v : option Vet) : Z :=
  match v with
  | Some v => if String.eqb (ve_verdict v) "pass" then (if ve_warnings v =? 0 then full else some) else 0
  | None => 0
  end.
Definition is_some {X} (o : option X) : bool := match o with Some _ => true | None => false end.

Definition gate_item (c : ChainInput) : ScoreItem :=
  mk by_contributor "The gate passed" (gate_points 15 10 (vet c)) 15 (done_if (is_some (vet c)))
    match vet c with
    | Some v => if String.eqb (ve_verdict v) "pass"
                then (if ve_warnings v =? 0 then "clean" else zstr (ve_warnings v) +:+ " warning(s)")
                else zstr (ve_fails v) +:+ " check(s) failed"
    | None => if built c then "no verdict on the record (built before the gate)" else "not run yet"
    end.

Definition auditDone (c : ChainInput) : bool :=
  match audit c with Some a => String.eqb (au_status a) "done" | None => false end.
Definition auditFailed (c : ChainInput) : bool :=
  match audit c with Some a => String.eqb (au_status a) "failed" | None => false end.
Definition verdict_is (v : option string) (x : string) : bool := match v with Some v => String.eqb v x | None => false end.

Definition audit_points (c : ChainInput) : Z :=
  match audit c with
  | Some a => if negb (auditDone c) then 0
              else if verdict_is (au_verdict a) "ok" then 15
              else if verdict_is (au_verdict a) "warn" then (if au_high a =? 0 then 10 else 5)
              else 0
  | None => 0
  end.
Definition audit_item (c : ChainInput) : ScoreItem :=
  mk by_contributor "The audit" (audit_points c) 15 (done_if (auditDone c || auditFailed c))
    match audit c with
    | Some a =>
        if auditDone c then
          default "done" (au_verdict a)
          +:+ (if au_findings a =? 0 then "" else ", " +:+ zstr (au_findings a) +:+ " finding(s)")
          +:+ (if au_high a =? 0 then "" else ", " +:+ zstr (au_high a) +:+ " high")
        else if auditFailed c then "the audit did not run" else au_status a
    | None => "not queued yet"
    end.

Definition rebuilt_item (c : ChainInput) : ScoreItem :=
  match project c with
  | None => mk by_maintainer "The project built it again" 0 15 pending "not asked yet"
  | Some p =>
      let rebuilt := is_done_status (pr_status p) in
      let failed := String.eqb (pr_status p) "failed" in
      mk by_maintainer "The project built it again" (if rebuilt then build_points 6 (pr_attempts p) else 0) 15
        (done_if (rebuilt || failed))
        (if rebuilt then "on a trusted worker, with the project's agent"
         else if failed then "the project's build failed" else pr_status p)
  end.

Definition project_gate_item (c : ChainInput) : ScoreItem :=
  mk by_maintainer "The project's gate" (gate_points 10 7 (projectVet c)) 10 (done_if (is_some (projectVet c)))
    match projectVet c with
    | Some v => if String.eqb (ve_verdict v) "pass"
                then (if ve_warnings v =? 0 then "clean" else zstr (ve_warnings v) +:+ " warning(s)") else "failed"
    | None => "not run yet"
    end.

Definition trial_item (c : ChainInput) : ScoreItem :=
  match trial c with
  | None => mk by_maintainer "The trial installed it" 0 15 pending "not tried yet"
  | Some t =>
      let tried := String.eqb (tr_status t) "done" in
      let ok := verdict_is (tr_verdict t) "ok" in
      mk by_maintainer "The trial installed it" (if tried && ok then 15 else 0) 15
        (done_if (tried || String.eqb (tr_status t) "failed"))
        (if tried then (if ok then "a real pacman, from the lab" else "could not: " +:+ otext (tr_verdict t))
         else tr_status t)
  end.

Definition decision_item (c : ChainInput) : ScoreItem :=
  mk by_maintainer "A decision with a note"
    match approval c with
    | Some a => if String.eqb (ap_decision a) "approved" then (if truthyo (ap_note a) then 5 else 3) else 0
    | None => 0
    end 5 (done_if (is_some (approval c)))
    match approval c with
    | Some a => ap_decision a +:+ (if truthyo (ap_note a) then ", with a note" else "")
    | None => "waiting"
    end.

Definition category_item (c : ChainInput) : ScoreItem :=
  mk by_maintainer "The category settled" (if truthyo (category c) then 5 else 0) 5 (done_if (truthyo (category c)))
    (if truthyo (category c) then default "" (category c) else "a maintainer picks one").

Definition is_contributors (i : ScoreItem) : bool := match who i with by_contributor => true | by_maintainer => false end.

Definition scoreChain (c : ChainInput) : Score :=
  let items := [request_item c; build_item c; gate_item c; audit_item c;
                rebuilt_item c; project_gate_item c; trial_item c; decision_item c; category_item c] in
  let points_ := zsum points items in
  let contributorPts := zsum points (List.filter is_contributors items) in
  {| s_points := points_; s_max := zsum max items; class_ := classOf points_;
     projected := classOf (contributorPts + 50);
     ready := built c && match vet c with Some v => String.eqb (ve_verdict v) "pass" | None => false end
              && (auditDone c || auditFailed c) && negb (incomplete c);
     items := items |}.

(** ** Facts *)

(** Every item's points are within its maximum. *)
Lemma item_bounds c i : In i (items (scoreChain c)) -> 0 <= points i <= max i.
Proof.
  assert (forall full some v, 0 <= some <= full -> 0 <= gate_points full some v <= full) as Hg.
  { intros full some v H. unfold gate_points. repeat case_match; lia. }
  assert (forall least n, 0 <= least <= 15 -> 0 <= build_points least n <= 15) as Hb
    by (intros; unfold build_points; lia).
  intros Hin. cbn in Hin.
  repeat (destruct Hin as [<-|Hin]); try done;
    unfold request_item, build_item, gate_item, audit_item, rebuilt_item, project_gate_item, trial_item,
      decision_item, category_item, audit_points; cbn [points max mk].
  all: try (apply Hg; lia).
  all: repeat (case_match; cbn [points max mk]); try (apply Hb; lia); try lia.
Qed.

Definition rank (k : Class_) : Z := match k with A => 3 | B => 2 | C => 1 | D => 0 end.

Lemma classOf_mono p q : p <= q -> rank (classOf p) <= rank (classOf q).
Proof.
  intros H. unfold classOf. cbn [List.find CLASSES fst].
  repeat (match goal with |- context [?a <=? ?b] => destruct (Z.leb_spec a b) end; cbn [snd rank]; try lia).
Qed.

(** the score is out of a hundred, half the contributor's and half the maintainer's: its
    points lie between 0 and 100, every item within its own maximum, and the class projected for
    a complete maintainer's half is never below the class the chain has today. *)
Theorem score_is_out_of_100 c :
  s_max (scoreChain c) = 100 /\ 0 <= s_points (scoreChain c) <= 100
  /\ zsum max (List.filter is_contributors (items (scoreChain c))) = 50
  /\ rank (class_ (scoreChain c)) <= rank (projected (scoreChain c)).
Proof.
  pose proof (fun i => item_bounds c i) as Hb. unfold scoreChain in *. cbn [items s_max s_points class_ projected] in *.
  assert (forall j, max (build_item j) = 15 /\ max (rebuilt_item j) = 15 /\ max (trial_item j) = 15) as Hm.
  { intros j. unfold build_item, rebuilt_item, trial_item. split_and!; by case_match. }
  assert (is_contributors (build_item c) = true) as H1 by (unfold build_item; by case_match).
  assert (is_contributors (rebuilt_item c) = false) as H2 by (unfold rebuilt_item; by case_match).
  assert (is_contributors (trial_item c) = false) as H3 by (unfold trial_item; by case_match).
  destruct (Hm c) as (M1 & M2 & M3).
  cbn [List.filter]. rewrite H1, H2, H3. cbn [List.filter is_contributors who mk request_item gate_item audit_item
    project_gate_item decision_item category_item].
  rewrite !zsum_cons, M1, M2, M3. cbn [zsum foldr max mk request_item gate_item audit_item project_gate_item
    decision_item category_item].
  set (l := [request_item c; build_item c; gate_item c; audit_item c; rebuilt_item c; project_gate_item c;
             trial_item c; decision_item c; category_item c]) in *.
  assert (Forall (fun i => 0 <= points i <= max i) l) as Hf by (apply List.Forall_forall; exact Hb).
  subst l. rewrite !Forall_cons in Hf. destruct Hf as (F1 & F2 & F3 & F4 & F5 & F6 & F7 & F8 & F9 & _).
  rewrite M1 in F2. rewrite M2 in F5. rewrite M3 in F7.
  change (max (request_item c)) with 5 in F1. change (max (gate_item c)) with 15 in F3.
  change (max (audit_item c)) with 15 in F4. change (max (project_gate_item c)) with 10 in F6.
  change (max (decision_item c)) with 5 in F8. change (max (category_item c)) with 5 in F9.
  split; [done|]. split; [lia|]. split; [done|]. apply classOf_mono. lia.
Qed.
