(* ===== verification/Targets.v ===== *)
(** * Targets (worker/src/targets.ts)

    Where each architecture of a package stands, from its builds and the
    decisions on them. *)
From S2P Require Import Prelude JsTime Json Selection Tasks.
Local Open Scope string_scope.
Local Open Scope Z_scope.

Inductive TargetState :=
| waiting | building | built | not_supported | reviewing | reviewed | approved | published | not_shipping.
#[export] Instance TargetState_eq_dec : EqDecision TargetState.
Proof. solve_decision. Defined.

Record Target := { tg_status : TargetState; tg_task : option Z }.

Record TargetBuild := { tb_id : Z; tb_arch : string; tb_status : Status; tb_trust : string; tb_publish : Z; tb_review : option Z }.
Record TargetDecision := { td_arch : string; td_task : Z; td_rebuild : option Z; td_decision : string; td_withdrawn : option string }.

(** The architectures the newest standing approval set aside, each with the build its target stood on. *)
Definition NotShipping : Type := list (string * option Z).

Definition REPO_ARCHES : list string := ["x86_64"; "aarch64"].
Definition isRepoArch (a : string) : bool := str_in a REPO_ARCHES.

Definition stands (a : TargetDecision) : bool :=
  String.eqb (td_decision a) "approved" && match td_withdrawn a with None => true | Some _ => false end.

(** An approval names the build; [standing] or taken back. *)
Definition approves (ds : list TargetDecision) (b : TargetBuild) (standing : bool) : bool :=
  existsb (fun a => String.eqb (td_arch a) (tb_arch b) && String.eqb (td_decision a) "approved"
    && Bool.eqb match td_withdrawn a with None => true | Some _ => false end standing
    && ((td_task a =? tb_id b) || oz_eqb (td_rebuild a) (Some (tb_id b)))) ds.

Definition standsOn (ds : list TargetDecision) (arch : string) : bool :=
  existsb (fun a => String.eqb (td_arch a) arch && stands a) ds.

Definition stateOf (b : TargetBuild) (standing : bool) : TargetState :=
  let project := String.eqb (tb_trust b) "project" in
  match tb_status b with
  | queued | leased => if project then reviewing else building
  | staged => if standing then approved else if project then reviewed else built
  | done_ => published
  | failed | cancelled => not_supported
  end.

Definition in_flight (s : Status) : bool := match s with queued | leased | staged => true | _ => false end.
Definition is_status (x s : Status) : bool := bool_decide (s = x).

(** The builds that may say where an architecture stands. *)
Definition dry_run (b : TargetBuild) : bool :=
  String.eqb (tb_trust b) "project" && match tb_review b with None => true | Some _ => false end && (tb_publish b =? 0).
Definition spent (ds : list TargetDecision) (b : TargetBuild) : bool :=
  is_status done_ (tb_status b) && negb (approves ds b true)
  && (approves ds b false || String.eqb (tb_trust b) "community").
Definition counts_for (ds : list TargetDecision) (closedThrough : Z) (arch : string) (b : TargetBuild) : bool :=
  String.eqb (tb_arch b) arch && negb (is_status cancelled (tb_status b)) && negb (dry_run b)
  && (in_flight (tb_status b) || approves ds b true || (closedThrough <? tb_id b))
  && negb (spent ds b)
  && negb (standsOn ds arch && is_status failed (tb_status b)).

Definition newest_first (x y : TargetBuild) : Z := tb_id y - tb_id x.
Definition newestOf (builds : list TargetBuild) (ds : list TargetDecision) (closedThrough : Z) (arch : string)
  : option TargetBuild :=
  head (sort_by newest_first (List.filter (counts_for ds closedThrough arch) builds)).

Definition targetOf (builds : list TargetBuild) (ds : list TargetDecision) (closedThrough : Z) (ns : NotShipping)
    (arch : string) : Target :=
  let newest := newestOf builds ds closedThrough arch in
  let by_rule := match newest with
                 | Some b => {| tg_status := stateOf b (approves ds b true); tg_task := Some (tb_id b) |}
                 | None => {| tg_status := waiting; tg_task := None |}
                 end in
  match assoc arch ns with
  | Some task =>
      if negb (standsOn ds arch)
         && match newest with None => true | Some b => tb_id b <=? default 0 task end
      then {| tg_status := not_shipping; tg_task := task |}
      else by_rule
  | None => by_rule
  end.

Definition targetsOf (arches : list string) (builds : list TargetBuild) (ds : list TargetDecision)
    (closedThrough : Z) (ns : NotShipping) : list (string * Target) :=
  let wanted := (arches ++ map td_arch (List.filter stands ds))%list in
  map (fun a => (a, targetOf builds ds closedThrough ns a)) (List.filter (fun a => str_in a wanted) REPO_ARCHES).

(** reviews.not_shipping, [JSON.parse]d; anything that is no object, or no JSON, is none. *)
Definition parseNotShipping (v : option json) : NotShipping :=
  match v with
  | Some (JObj o) =>
      omap (fun p => if isRepoArch p.1
                     then Some (p.1, match p.2 with JNum m O => Some m | _ => None end) else None) o
  | _ => []
  end.

(** ** Facts *)

#[export] Instance newest_first_comparator : Comparator newest_first.
Proof. constructor; intros; unfold newest_first in *; lia. Qed.

Lemma newestOf_spec builds ds ct arch b :
  newestOf builds ds ct arch = Some b ->
  In b builds /\ counts_for ds ct arch b = true
  /\ forall x, In x builds -> counts_for ds ct arch x = true -> tb_id x <= tb_id b.
Proof.
  unfold newestOf. destruct (sort_by _ _) as [|y rest] eqn:E; [done|]. cbn. intros [= ->].
  assert (In b (sort_by newest_first (List.filter (counts_for ds ct arch) builds))) as Hb by (rewrite E; by left).
  rewrite sort_by_In in Hb. apply filter_In in Hb as [Hb Hc]. split; [done|]. split; [done|].
  intros x Hx Hcx. assert (In x (List.filter (counts_for ds ct arch) builds)) as Hin by (by apply filter_In).
  destruct (sort_by_head newest_first _ _ _ _ E Hin) as [->|Hle]; [lia|]. unfold newest_first in Hle. lia.
Qed.

Lemma targetsOf_In arches builds ds ct ns a t :
  In (a, t) (targetsOf arches builds ds ct ns) -> t = targetOf builds ds ct ns a.
Proof. unfold targetsOf. cbv zeta. intros (x & [= -> <-] & _)%in_map_iff. done. Qed.

(** what pacman installs is never shown as unsupported. While an approval of an architecture
    stands, its target is never not_supported nor not_shipping, whatever failed or was set aside
    since, and it is on the page even when the registration no longer asks for it. *)
Theorem approved_arch_is_never_unsupported arches builds ds ct ns a :
  isRepoArch a = true -> standsOn ds a = true ->
  exists t, In (a, t) (targetsOf arches builds ds ct ns)
    /\ tg_status t <> not_supported /\ tg_status t <> not_shipping.
Proof.
  intros Ha Hs. exists (targetOf builds ds ct ns a). split.
  - unfold targetsOf. cbv zeta. apply in_map_iff. exists a. split; [done|].
    apply filter_In. split; [by apply str_in_In|].
    apply str_in_In, in_or_app. right. unfold standsOn in Hs. apply existsb_exists in Hs as (d & Hd & Hx).
    apply andb_true_iff in Hx as [Hx Hst]. apply String.eqb_eq in Hx. subst a. by apply in_map, filter_In.
  - assert (forall b, newestOf builds ds ct a = Some b ->
      stateOf b (approves ds b true) <> not_supported /\ stateOf b (approves ds b true) <> not_shipping) as Hb.
    { intros b Hn. apply newestOf_spec in Hn as (_ & Hc & _). unfold counts_for in Hc. rewrite Hs in Hc.
      breflect. unfold stateOf, is_status in *. destruct (tb_status b); repeat case_match; done. }
    unfold targetOf. rewrite Hs. cbn [negb andb].
    destruct (assoc a ns); destruct (newestOf builds ds ct a) as [b|] eqn:En; cbn; try done; by apply Hb.
Qed.

Lemma approved_arch_is_never_unsupported_witness :
  let d := {| td_arch := "aarch64"; td_task := 4; td_rebuild := Some 5; td_decision := "approved"; td_withdrawn := None |} in
  let b := {| tb_id := 9; tb_arch := "aarch64"; tb_status := failed; tb_trust := "project"; tb_publish := 1; tb_review := Some 8 |} in
  exists t, In ("aarch64", t) (targetsOf ["x86_64"] [b] [d] 0 [("aarch64", None)])
    /\ tg_status t <> not_supported /\ tg_status t <> not_shipping.
Proof. apply approved_arch_is_never_unsupported; reflexivity. Defined.

(** a target says what its newest build says. Each architecture's target, unless its newest
    standing approval set it aside, is the state of the newest build that counts for it — no
    dry run, no cancelled or spent build, none a closed round left behind — and waiting exactly
    when there is none. *)
Theorem target_is_the_newest_build builds ds ct ns a :
  let t := targetOf builds ds ct ns a in
  tg_status t <> not_shipping ->
  (tg_task t = None -> tg_status t = waiting /\ forall x, In x builds -> counts_for ds ct a x = false)
  /\ (forall id, tg_task t = Some id -> exists b, In b builds /\ tb_id b = id /\ counts_for ds ct a b = true
        /\ tg_status t = stateOf b (approves ds b true)
        /\ forall x, In x builds -> counts_for ds ct a x = true -> tb_id x <= id).
Proof.
  intros t Hns. subst t. revert Hns. unfold targetOf. cbv zeta.
  assert (forall r, r = match newestOf builds ds ct a with
       | Some b => {| tg_status := stateOf b (approves ds b true); tg_task := Some (tb_id b) |}
       | None => {| tg_status := waiting; tg_task := None |} end ->
     (tg_task r = None -> tg_status r = waiting /\ forall x, In x builds -> counts_for ds ct a x = false)
     /\ (forall id, tg_task r = Some id -> exists b, In b builds /\ tb_id b = id /\ counts_for ds ct a b = true
        /\ tg_status r = stateOf b (approves ds b true)
        /\ forall x, In x builds -> counts_for ds ct a x = true -> tb_id x <= id)) as Hrule.
  { intros r ->. destruct (newestOf builds ds ct a) as [b|] eqn:En; cbn.
    - split; [done|]. intros id [= <-]. apply newestOf_spec in En as (Hb & Hc & Hm). eauto 10.
    - split; [|done]. intros _. split; [done|]. intros x Hx. unfold newestOf in En.
      destruct (sort_by newest_first (List.filter (counts_for ds ct a) builds)) eqn:E; [|done].
      apply sort_by_nil in E. destruct (counts_for ds ct a x) eqn:Ec; [|done].
      assert (In x (List.filter (counts_for ds ct a) builds)) as Hin by (by apply filter_In).
      by rewrite E in Hin. }
  intros Hns. destruct (assoc a ns); [|by apply Hrule]. revert Hns.
  match goal with |- context [if ?c then _ else _] => destruct c end; [done|]. intros _. by apply Hrule.
Qed.

Lemma target_is_the_newest_build_witness :
  let b := {| tb_id := 9; tb_arch := "aarch64"; tb_status := failed; tb_trust := "project"; tb_publish := 1; tb_review := Some 8 |} in
  let t := targetOf [b] [] 0 [] "aarch64" in
  (tg_task t = None -> tg_status t = waiting /\ forall x, In x [b] -> counts_for [] 0 "aarch64" x = false)
  /\ (forall id, tg_task t = Some id -> exists y, In y [b] /\ tb_id y = id /\ counts_for [] 0 "aarch64" y = true
        /\ tg_status t = stateOf y (approves [] y true)
        /\ forall x, In x [b] -> counts_for [] 0 "aarch64" x = true -> tb_id x <= id).
Proof. apply target_is_the_newest_build. discriminate. Defined.
