(* ===== verification/OrderRules.v ===== *)
(** * Orders: what a claim says and what the pool's rules decide
    (worker/src/orders.ts, first part)

    The kinds and bounds, a claim's checked words, a set's rollout, the
    instance step (which process claims, crash loops, two processes on one
    token), the classes of an agent's error and [decideAuto]. Text columns
    hold ISO times as the pool writes them; a JSON column is what
    [JSON.parse] makes of it, [None] when it is NULL or does not parse. *)
From S2P Require Import Prelude JsTime Json Manifest Pattern Update.
Local Open Scope string_scope.
Local Open Scope Z_scope.

(** ** Kinds and bounds *)

Definition ORDER_KINDS : list string :=
  ["recheck-agent"; "restart"; "restart-agent"; "drain"; "resume"; "update"; "stop-task"].
Definition isOrderKind (k : option json) : bool :=
  match as_str k with Some k => str_in k ORDER_KINDS | None => false end.
Definition DECLARABLE : list string := ["drain"; "recheck-agent"; "restart"; "restart-agent"; "stop-task"].
Definition LIVE_KINDS : list string := ["recheck-agent"; "restart"; "restart-agent"; "drain"; "resume"; "stop-task"].
Definition POOL_KINDS : list string := ["drain"; "resume"; "stop-task"].
Definition RESTART_GROUP : list string := ["restart"; "restart-agent"; "update"; "stop-task"].
Definition HOST_RESTART_GROUP : list string := List.filter (fun k => negb (String.eqb k "stop-task")) RESTART_GROUP.
Definition MAX_STOPS_PER_LOGIN_HOUR : Z := 30.
Definition POOL_RESTARTS : list string := ["restart"; "restart-agent"].

Definition RECHECK_AFTER_MIN : Z := 5.
Definition RESTART_AFTER_MIN : Z := 10.
Definition RESTART_SPACING_MIN : Z := 30.
Definition GIVE_UP_AFTER_MIN : Z := 30.
Definition SITE_SPACING_MIN : Z := 5.
Definition MIN_UPTIME_S : Z := 120.
Definition MAX_POOL_RESTARTS_PER_SPELL : Z := 2.
Definition MAX_POOL_RESTARTS_PER_DAY : Z := 3.
Definition MAX_POOL_RECHECKS_PER_SPELL : Z := 1.
Definition MAX_POOL_RECHECKS_PER_DAY : Z := 3.
Definition MAX_RESTARTS_PER_HOUR : Z := 6.
Definition MAX_RECHECKS_PER_HOUR : Z := 6.
Definition MAX_ORDERS_PER_LOGIN_HOUR : Z := 20.
Definition MAX_POOL_RESTARTS_PER_HOUR : Z := 10.
Definition MAX_POOL_ORDERS_PER_DAY : Z := 60.
Definition BREAKER_SITES : Z := 3.
Definition BREAKER_CLEAR_BELOW : Z := 2.
Definition BREAKER_CLEAR_MIN : Z := 15.

Definition POOL_PROJECT : string := "pool:project".
Definition POOL_COMMUNITY : string := "pool:community".
Definition isPool (by_ : string) : bool := String.eqb by_ POOL_PROJECT || String.eqb by_ POOL_COMMUNITY.
Definition poolFor (trust : string) : string := if String.eqb trust "project" then POOL_PROJECT else POOL_COMMUNITY.
Definition MAX_POOL_COMMUNITY_ORDERS_PER_DAY : Z := 40.
Definition MAX_POOL_COMMUNITY_RESTARTS_PER_HOUR : Z := 6.

Definition TTL_PERSON_MIN : Z := 360.
Definition TTL_POOL_MIN : Z := 30.
Definition TTL_UPDATE_MIN : Z := 360.
Definition ANSWER_WITHIN_MIN : Z := 30.
Definition FOLLOW_POLL_S : Z := 120.
Definition FOLLOW_MAX_IDS : Z := 16.
Definition CHURN_WINDOW_MIN : Z := 10.
Definition CHURN_CLEAR_MIN : Z := 30.
Definition CRASH_LOOP_AT : Z := 3.
Definition CONFLICT_WINDOW_MIN : Z := 10.
Definition WATCHDOG_MIN : Z := 20.
Definition WATCHDOG_TASK_MIN : Z := 35.
Definition WATCHDOG_MAX_MIN : Z := 1440.
Definition WATCHDOG_RESET_H : Z := 24.
Definition TOUCH_MINUTES : Z := 3.

(** The time of day of a time, and of an ISO text. *)
Definition clock (t : Z) : string := str_take 5 (str_drop 11 (iso t)).
Definition clock_of (s : string) : string := match date_parse s with Some t => clock t | None => "" end.
Definition utc (t : Z) : string := clock t +:+ " UTC".

(** ** What a claim says *)

Record PreviousExit := { pe_why : string; pe_at : option string; pe_stuck : option string; pe_n : option Z }.

Definition one_of_strings (l : list string) (v : option json) : option string :=
  match as_str v with Some s => if str_in s l then Some s else None | None => None end.
Definition iso_of (v : option json) : option string :=
  s ← as_str v; t ← date_parse s; Some (iso t).

Definition parsePreviousExit (v : option json) : option PreviousExit :=
  if negb (is_obj v) then None
  else
    why ← one_of_strings ["idle"; "drain"; "restart"; "watchdog"] (field v "why");
    let watchdog := String.eqb why "watchdog" in
    Some {| pe_why := why; pe_at := iso_of (field v "at");
            pe_stuck := if watchdog then one_of_strings ["claim"; "task"; "order"] (field v "stuck_in") else None;
            pe_n := if watchdog
                    then match as_int (field v "n") with
                         | Some n => if (0 <? n) && (n <? 1000) then Some n else None
                         | None => None
                         end
                    else None |}.

Definition text_cmp (a b : string) : Z := if str_ltb a b then -1 else if String.eqb a b then 0 else 1.

(** Known kinds only, sorted, once each; [None] without the field. *)
Definition canonicalKinds (v : option json) : option (list string) :=
  l ← as_arr v;
  Some (sort_by text_cmp (dedup (omap (fun k => one_of_strings DECLARABLE (Some k)) l))).

Record Probe := { pb_status : option string; pb_error : option string; pb_checked_at : option string }.

(** What a worker says of its set: the updater beside it and its host's script, or why it cannot say. *)
Record Updater := { up_image : option string; up_follows : bool }.
Inductive HostScript := kick_v1 | old | none_.
Inductive RolloutReport := Reports (u : option Updater) (script : HostScript) | Unknown (bare : bool).

Definition host_script (v : option json) : option HostScript :=
  match as_str v with
  | Some s => if String.eqb s "kick-v1" then Some kick_v1
              else if String.eqb s "old" then Some old
              else if String.eqb s "none" then Some none_ else None
  | None => None
  end.

(** [/^[A-Za-z0-9._+-]{1,40}$/] *)
Definition image_name (s : string) : bool :=
  (1 <=? String.length s)%nat && (String.length s <=? 40)%nat
  && str_forallb (fun c => is_digit c || is_upper c || is_lower c
       || existsb (Ascii.eqb c) ["."; "_"; "+"; "-"]%char) s.

Definition parseUpdater (u : json) : option Updater :=
  if negb (is_obj (Some u)) then None
  else follows ← as_bool (field (Some u) "follows");
       Some {| up_image := match as_str (field (Some u) "image") with
                           | Some i => if image_name i then Some i else None
                           | None => None
                           end;
               up_follows := follows |}.

Definition parseRollout (v : option json) : option RolloutReport :=
  if negb (is_obj v) then None
  else
    let said := as_str (field v "unknown") in
    if ostr_eqb said (Some "bare") then Some (Unknown true)
    else if ostr_eqb said (Some "unidentified") then Some (Unknown false)
    else
      script ← host_script (field v "host_script");
      match field v "updater" with
      | None => None
      | Some JNull => Some (Reports None script)
      | Some u => u ← parseUpdater u; Some (Reports (Some u) script)
      end.

Definition script_word (s : HostScript) : string :=
  match s with kick_v1 => "kick-v1" | old => "old" | none_ => "none" end.

(** The report as the row keeps it: one form. *)
Definition rolloutJson (r : RolloutReport) : json :=
  match r with
  | Unknown bare => JObj [("unknown", JStr (if bare then "bare" else "unidentified"))]
  | Reports u script =>
      JObj [("updater", match u with
                        | None => JNull
                        | Some u => JObj [("image", match up_image u with Some i => JStr i | None => JNull end);
                                          ("follows", JBool (up_follows u))]
                        end);
            ("host_script", JStr (script_word script))]
  end.
Definition rolloutOf (v : option json) : option RolloutReport := parseRollout v.

(** The claim's words for the orders path, checked. *)
Record ClaimFacts := {
  takes_ : option (list string); instance : option string; started_at_ : option string;
  agent_via_ : option string; site_ : option string; restarts_left_ : option Z;
  previous_exit : option PreviousExit; version_ : option string; probe : option Probe;
  pairRestart : bool; rollout_ : option RolloutReport }.

(** [/^[0-9a-f]{n}$/] *)
Definition hex (n : nat) (s : string) : bool := (String.length s =? n)%nat && str_forallb is_hex_lower s.
Definition hex_of (n : nat) (v : option json) : option string :=
  match as_str v with Some s => if hex n s then Some s else None | None => None end.

(** [broker]: the claim's x-omarchy-broker-takes header. *)
Definition claimFacts (b : json) (broker : option string) (pb : option Probe) (now : Z) : ClaimFacts :=
  let f := field (Some b) in
  let inst := hex_of 32 (f "instance") in
  {| takes_ := match inst with Some _ => canonicalKinds (f "orders") | None => None end;
     instance := inst;
     started_at_ := (s ← as_str (f "started_at"); t ← date_parse s;
                     if t <=? now + 5 * MIN then Some (iso t) else None);
     agent_via_ := one_of_strings ["direct"; "sibling"; "broker"; "none"] (f "agent_via");
     site_ := hex_of 16 (f "site");
     restarts_left_ := match as_int (f "restarts_left") with
                       | Some n => if (0 <=? n) && (n <? 10000) then Some n else None
                       | None => None
                       end;
     previous_exit := parsePreviousExit (f "previous_exit");
     version_ := as_str (f "version");
     probe := pb;
     pairRestart := str_in "pair-restart" (map trim (split_on ","%char (default "" broker)));
     rollout_ := parseRollout (f "rollout") |}.

(** ** The set's rollout *)

Inductive SetRollout := follows | old_updater | both | timer | stopped | none | unknown.

Definition setRollout (r : option RolloutReport) : SetRollout :=
  match r with
  | None | Some (Unknown _) => unknown
  | Some (Reports u old) => match u with Some _ => both | None => timer end
  | Some (Reports None kick_v1) => stopped
  | Some (Reports None none_) => none
  | Some (Reports (Some u) _) => if up_follows u then follows else old_updater
  end.

Definition HOST_SET_LINE : string := "rolled out by its host's agent (omarchy-agent), which follows each release".

Definition hostRolloutRefusal (reportedAt : option string) (now : Z) : option string :=
  let at_ := r ← reportedAt; date_parse r in
  match reportedAt with
  | Some r =>
      if truthy r then
        if match at_ with Some t => now - t <? HOST_REPORT_FRESH_MIN * MIN | None => false end then None
        else Some ("its host's agent has not reported for " +:+
          match at_ with Some t => zstr (round_div (now - t) MIN) | None => "NaN" end +:+ " min (since "
          +:+ clock_of r +:+ " UTC): an Update waits for an agent that reports — its owner looks at the host")
      else Some "its host's agent has not reported yet: an Update waits for an agent that reports"
  | None => Some "its host's agent has not reported yet: an Update waits for an agent that reports"
  end.

Definition tag_text (t : Tag) : string := "v" +:+ zstr (t.1.1) +:+ "." +:+ zstr (t.1.2) +:+ "." +:+ zstr (t.2).
(** A version as the pool's public words say it: a release tag it parsed. *)
Definition versionWord (v : option string) (otherwise : string) : string :=
  match parseTag v with Some t => tag_text t | None => otherwise end.

Definition unknownWhy (r : option RolloutReport) (version : option string) : string :=
  match r with
  | Some (Unknown true) => "started without compose: nothing replaces it"
  | Some (Unknown false) => "it cannot identify its own container (its log says why), so the pool cannot tell what replaces it"
  | _ => "its image (" +:+ versionWord version "unknown" +:+ ") does not report its set: its host's updater or timer replaces it"
  end.

Definition reported_image (r : option RolloutReport) : option (option string) :=
  match r with Some (Reports (Some u) _) => Some (up_image u) | _ => None end.

Definition rolloutRefusal (r : option RolloutReport) (version : option string) : option string :=
  let image := match reported_image r with Some i => versionWord i "its image" | None => "its image" end in
  match setRollout r with
  | follows => None
  | timer => Some "this host rolls out by its own timer (a rollout.sh from before #277) and has no updater: the runbook's The Studio host has the one-time step. Until then its timer updates it within 15 min of a release"
  | both => Some "two rollouts run on this host (an updater, and a timer's rollout.sh from before #277): finish the one-time step of the runbook's The Studio host"
  | old_updater => Some ("its updater (" +:+ image +:+ ") is older than #277: it rolls this set out at its own 15-min round and cannot take Update. That round replaces it with one that can")
  | stopped => Some "this host was moved to an updater, but none is running: releases do not reach it. Its ./rollout.sh starts it again"
  | none => Some "no updater runs beside it: omarchy-worker start adds one"
  | unknown => Some (unknownWhy r version)
  end.

Definition setLine (r : option RolloutReport) (version trust : option string) : string :=
  let image := match reported_image r with
               | Some i => match parseTag i with Some t => " (" +:+ tag_text t +:+ ")" | None => "" end
               | None => ""
               end in
  match setRollout r with
  | follows => "rolled out by its updater" +:+ image +:+ " — follows each release within " +:+ zstr (FOLLOW_POLL_S / 60) +:+ " min"
  | old_updater => "rolled out by an updater from before #277" +:+ image +:+ ", every 15 min — its next round replaces it with one that follows the pool"
  | both => "two rollouts on this host — finish the one-time step of the runbook's The Studio host"
  | timer => "rolled out by the host's timer (a rollout.sh from before #277) — the one-time step of the runbook's The Studio host gives it an updater"
  | stopped => "this host's updater is not running — releases do not reach it"
  | none => "no updater beside it"
  | unknown => if negb (ostr_eqb trust (Some "project"))
               then "rolled out by its set's updater (not visible from the pool: a builder has no socket)"
               else unknownWhy r version
  end.

(** ** The worker's row *)

Record OpenOrder := { oo_id : string; oo_kind : string; oo_state : option string; oo_by : option string; oo_at : option string; oo_task : option Z }.

Definition openOrdersOf (v : option json) : list OpenOrder :=
  match as_arr v with
  | Some l =>
      omap (fun o =>
        match as_str (field (Some o) "id"), as_str (field (Some o) "kind") with
        | Some id, Some kind =>
            if str_in kind ORDER_KINDS then
              Some {| oo_id := id; oo_kind := kind; oo_state := as_str (field (Some o) "state");
                      oo_by := as_str (field (Some o) "by"); oo_at := as_str (field (Some o) "at");
                      oo_task := as_int (field (Some o) "task") |}
            else None
        | _, _ => None
        end) l
  | None => []
  end.

Record WatchdogExits := { we_n : Z; we_since : string; we_last : string; we_stuck : option string }.

(** The columns of a worker's row the orders path decides on. *)
Record OrdersRow := {
  o_id : string; o_owner : option string; o_trust : string; o_version : option string;
  o_agent_checked_at : option string; o_last_task : option Z; o_open_orders : option json;
  o_order_kinds : option (list string); o_instance : option string; o_instance_prev : option string;
  o_instance_since : option string; o_conflict_at : option string; o_other_at : option string;
  o_churn : option Z; o_finished : option string; o_crash_loop : option string;
  o_watchdog : option WatchdogExits; o_started_at : option string; o_agent_via : option string;
  o_site : option string; o_restarts_left : option Z; o_rollout : option RolloutReport;
  o_probed_at : option string; o_drained_at : option string; o_auto : option json }.

Definition siteKey (row : OrdersRow) (site : option string) : option string :=
  match site with
  | Some s => if truthy s then
                Some (if String.eqb (o_trust row) "project" then "project/" +:+ s
                      else default "?" (o_owner row) +:+ "/" +:+ s)
              else None
  | None => None
  end.

(** ** The instance step *)

(** A column the step writes. *)
Inductive Write :=
| W_instance (v : option string) | W_prev (v : option string) | W_since (v : string) | W_other (v : option string)
| W_conflict (v : option string) | W_kinds (v : option (list string)) | W_via (v : option string)
| W_site (v : option string) | W_left (v : option Z) | W_started (v : string) | W_watchdog (v : WatchdogExits)
| W_crash (v : option string) | W_churn (v : Z).

Inductive LineStatus := Lok | Lwarn.
(** A journal line, and the column whose value guards it. *)
Record StepLine := { sl_status : LineStatus; sl_summary : string; sl_guard : Write }.

Record InstanceStep := {
  st_set : list Write; st_guard : option string; st_journal : list StepLine;
  st_conflict : bool; st_instance : option string; st_since : option string }.

Definition short (i : option string) : string :=
  match i with Some s => if truthy s then str_take 4 s +:+ "…" else "none" | None => "none" end.

Definition kinds_eqb (a b : option (list string)) : bool := bool_decide (a = b).

Definition step (row : OrdersRow) (set : list Write) (journal : list StepLine) (conflict : bool)
    (inst since : option string) : InstanceStep :=
  {| st_set := set; st_guard := o_instance row; st_journal := journal; st_conflict := conflict;
     st_instance := inst; st_since := since |}.

(** The other process of a conflict is recorded, and becomes the one the row names. *)
Definition other_recorded (row : OrdersRow) (c : ClaimFacts) (at_ : string) : list Write :=
  [W_prev (o_instance row); W_instance (instance c); W_other (Some at_); W_kinds (takes_ c)].

(** The process the row names goes on. *)
Definition same_process (row : OrdersRow) (c : ClaimFacts) (conflict : bool) (set : list Write)
    (journal : list StepLine) (now : Z) : InstanceStep :=
  let up := negb conflict && truthyo (o_crash_loop row)
            && match s ← o_instance_since row; date_parse s with
               | Some since => CHURN_CLEAR_MIN * MIN <=? now - since
               | None => false
               end in
  let set := (if up then set ++ [W_crash None; W_churn 0] else set)%list in
  let journal := (if up then journal ++
      [{| sl_status := Lok;
          sl_summary := o_id row +:+ ": stays up again — its process has run " +:+ zstr CHURN_CLEAR_MIN +:+ " min";
          sl_guard := W_crash None |}] else journal)%list in
  let set := (if kinds_eqb (takes_ c) (o_order_kinds row) then set else set ++ [W_kinds (takes_ c)])%list in
  step row set journal conflict (o_instance row) (o_instance_since row).

(** A process's end counts toward a crash loop: it lived under ten minutes,
    finished no task and nothing explains it. *)
Definition explained (row : OrdersRow) (c : ClaimFacts) : bool :=
  match previous_exit c with Some _ => true | None => false end
  || existsb (fun o => (String.eqb (oo_kind o) "restart" && ostr_eqb (oo_state o) (Some "delivered"))
                       || String.eqb (oo_kind o) "stop-task") (openOrdersOf (o_open_orders row))
  || negb (ostr_eqb (o_version row) (version_ c)).

Definition finished (row : OrdersRow) : bool :=
  match o_instance row with Some prev => ostr_eqb (o_finished row) (Some prev) | None => false end.

Definition short_lived (row : OrdersRow) (now : Z) : bool :=
  match o_instance row, (s ← o_instance_since row; date_parse s) with
  | Some _, Some since => now - since <? CHURN_WINDOW_MIN * MIN
  | _, _ => false
  end.

Definition churn_of (row : OrdersRow) (c : ClaimFacts) (now : Z) : Z :=
  if short_lived row now && negb (finished row) && negb (explained row c) then default 0 (o_churn row) + 1 else 0.

Definition watchdog_exit (c : ClaimFacts) : option PreviousExit :=
  match previous_exit c with Some p => if String.eqb (pe_why p) "watchdog" then Some p else None | None => None end.

Definition watchdog_next (row : OrdersRow) (p : PreviousExit) (now : Z) : WatchdogExits :=
  match o_watchdog row with
  | Some w =>
      if match date_parse (we_since w) with Some t => now - t <? WATCHDOG_RESET_H * HOUR | None => false end
      then {| we_n := we_n w + 1; we_since := we_since w; we_last := iso now; we_stuck := pe_stuck p |}
      else {| we_n := 1; we_since := iso now; we_last := iso now; we_stuck := pe_stuck p |}
  | None => {| we_n := 1; we_since := iso now; we_last := iso now; we_stuck := pe_stuck p |}
  end.

Definition stuck_words (s : option string) : string :=
  match s with
  | Some "task" => ", stuck in a task" | Some "order" => ", stuck in an order"
  | Some _ => ", stuck in its claim" | None => ""
  end.
Definition watchdog_lines (row : OrdersRow) (w : WatchdogExits) : list StepLine :=
  if we_n w =? 1 then
    [{| sl_status := Lwarn;
        sl_summary := o_id row +:+ ": its watchdog restarted it — no claim and no accepted heartbeat for "
          +:+ zstr (if ostr_eqb (we_stuck w) (Some "task") then WATCHDOG_TASK_MIN else WATCHDOG_MIN) +:+ " min"
          +:+ stuck_words (we_stuck w) +:+ " (the next only after longer without progress); its log has why";
        sl_guard := W_watchdog w |}]
  else if we_n w =? 3 then
    [{| sl_status := Lwarn;
        sl_summary := o_id row +:+ ": " +:+ zstr (we_n w) +:+ " watchdog restarts since " +:+ clock_of (we_since w)
          +:+ ": it wedges the same way each time — a person looks";
        sl_guard := W_watchdog w |}]
  else [].

(** A new process: what it declares once, and the churn a crash loop shows as. *)
Definition new_process (row : OrdersRow) (c : ClaimFacts) (conflict : bool) (set : list Write)
    (journal : list StepLine) (now : Z) : InstanceStep :=
  let at_ := iso now in
  let declared :=
    ([W_prev (o_instance row); W_instance (instance c); W_since at_; W_kinds (takes_ c); W_via (agent_via_ c);
      W_site (siteKey row (site_ c)); W_left (restarts_left_ c)]
     ++ match started_at_ c with
        | Some s => [W_started match o_started_at row with
                               | Some t => if truthy t && str_ltb s t then t else s
                               | None => s
                               end]
        | None => []
        end)%list in
  let w := (fun p => watchdog_next row p now) <$> watchdog_exit c in
  let churn := match w with Some _ => 0 | None => churn_of row c now end in
  let wset := match w with Some w => [W_watchdog w] | None => [] end in
  let wlines := match w with Some w => watchdog_lines row w | None => [] end in
  let '(cset, churn, clines) :=
    if truthyo (o_crash_loop row) && finished row then
      ([W_crash None], 0,
       [{| sl_status := Lok;
           sl_summary := o_id row +:+ ": works again"
             +:+ match o_last_task row with
                 | Some t => if t =? 0 then ": it finished a task" else ": it finished task #" +:+ zstr t
                 | None => ": it finished a task"
                 end;
           sl_guard := W_crash None |}])
    else if (CRASH_LOOP_AT <=? churn) && negb (truthyo (o_crash_loop row)) then
      let on := versionWord (version_ c) "its image" in
      ([W_crash (Some at_)], churn,
       [{| sl_status := Lwarn;
           sl_summary := o_id row +:+ ": a new process every few minutes on " +:+ on +:+ " (" +:+ zstr churn
             +:+ " in a row, none finished a task, none explained) — it may be crash-looping; its log has why";
           sl_guard := W_crash (Some at_) |}])
    else ([], churn, []) in
  step row (set ++ declared ++ wset ++ cset ++ [W_churn churn])%list (journal ++ wlines ++ clines)%list
    conflict (instance c) (Some at_).

(** The process before this one, back within ten minutes of this one's first claim. *)
Definition comes_back (row : OrdersRow) (c : ClaimFacts) (now : Z) : bool :=
  match instance c with
  | Some ci => truthyo (o_instance_prev row) && ostr_eqb (Some ci) (o_instance_prev row)
               && match s ← o_instance_since row; date_parse s with
                  | Some since => now - since <? CONFLICT_WINDOW_MIN * MIN
                  | None => false
                  end
  | None => false
  end.

(** Outside a conflict. *)
Definition alone (row : OrdersRow) (c : ClaimFacts) (set : list Write) (journal : list StepLine) (now : Z) : InstanceStep :=
  if ostr_eqb (instance c) (o_instance row) then same_process row c false set journal now
  else if comes_back row c now then
    let at_ := iso now in
    step row (set ++ [W_conflict (Some at_)] ++ other_recorded row c at_)%list
      (journal ++ [{| sl_status := Lwarn;
         sl_summary := o_id row +:+ ": two processes share this worker's token (instances " +:+ short (o_instance row)
           +:+ " and " +:+ short (instance c)
           +:+ ") — orders are held until one stops; if you did not start two, revoke the token on its page";
         sl_guard := W_conflict (Some at_) |}])%list
      true (instance c) (o_instance_since row)
  else new_process row c false set journal now.

Definition instanceStep (row : OrdersRow) (c : ClaimFacts) (now : Z) : InstanceStep :=
  let other := s ← o_other_at row; date_parse s in
  let within m := match other with Some t => now - t <? m * MIN | None => false end in
  if truthyo (o_conflict_at row) then
    if negb (ostr_eqb (instance c) (o_instance row)) then
      if negb (within TOUCH_MINUTES) then
        step row (other_recorded row c (iso now)) [] true (instance c) (o_instance_since row)
      else step row [] [] true (o_instance row) (o_instance_since row)
    else if within (CONFLICT_WINDOW_MIN + TOUCH_MINUTES) then step row [] [] true (o_instance row) (o_instance_since row)
    else alone row c [W_conflict None; W_other None]
           [{| sl_status := Lok; sl_summary := o_id row +:+ ": one process again on its token — orders are delivered again";
               sl_guard := W_conflict None |}] now
  else alone row c [] [] now.

(** What the claim's one write makes of the row. *)
Definition write (w : Write) (r : OrdersRow) : OrdersRow :=
  let mk inst prev since other conflict kinds via site left started wd crash churn :=
    {| o_id := o_id r; o_owner := o_owner r; o_trust := o_trust r; o_version := o_version r;
       o_agent_checked_at := o_agent_checked_at r; o_last_task := o_last_task r; o_open_orders := o_open_orders r;
       o_order_kinds := kinds; o_instance := inst; o_instance_prev := prev; o_instance_since := since;
       o_conflict_at := conflict; o_other_at := other; o_churn := churn; o_finished := o_finished r;
       o_crash_loop := crash; o_watchdog := wd; o_started_at := started; o_agent_via := via; o_site := site;
       o_restarts_left := left; o_rollout := o_rollout r; o_probed_at := o_probed_at r;
       o_drained_at := o_drained_at r; o_auto := o_auto r |} in
  let keep f := f (o_instance r) (o_instance_prev r) (o_instance_since r) (o_other_at r) (o_conflict_at r)
    (o_order_kinds r) (o_agent_via r) (o_site r) (o_restarts_left r) (o_started_at r) (o_watchdog r)
    (o_crash_loop r) (o_churn r) in
  keep (fun inst prev since other conflict kinds via site left started wd crash churn =>
    match w with
    | W_instance v => mk v prev since other conflict kinds via site left started wd crash churn
    | W_prev v => mk inst v since other conflict kinds via site left started wd crash churn
    | W_since v => mk inst prev (Some v) other conflict kinds via site left started wd crash churn
    | W_other v => mk inst prev since v conflict kinds via site left started wd crash churn
    | W_conflict v => mk inst prev since other v kinds via site left started wd crash churn
    | W_kinds v => mk inst prev since other conflict v via site left started wd crash churn
    | W_via v => mk inst prev since other conflict kinds v site left started wd crash churn
    | W_site v => mk inst prev since other conflict kinds via v left started wd crash churn
    | W_left v => mk inst prev since other conflict kinds via site v started wd crash churn
    | W_started v => mk inst prev since other conflict kinds via site left (Some v) wd crash churn
    | W_watchdog v => mk inst prev since other conflict kinds via site left started (Some v) crash churn
    | W_crash v => mk inst prev since other conflict kinds via site left started wd v churn
    | W_churn v => mk inst prev since other conflict kinds via site left started wd crash (Some v)
    end).

(** A claim's step applied to the row it read (the compare-and-set held). *)
Definition claim_row (row : OrdersRow) (c : ClaimFacts) (now : Z) : OrdersRow :=
  fold_left (fun r w => write w r) (st_set (instanceStep row c now)) row.

(** ** The classes of an agent's error *)

Inductive ErrorClass := auth | credit | rate | remote | refused | dns | install | sibling | unknown_class.
#[export] Instance ErrorClass_eq_dec : EqDecision ErrorClass.
Proof. solve_decision. Defined.

Definition NOTHING_CLASSES : list ErrorClass := [auth; credit; rate; remote].
Definition RESTART_CLASSES : list ErrorClass := [refused; dns; install; sibling].
Definition class_in (c : ErrorClass) (l : list ErrorClass) : bool := existsb (fun x => bool_decide (x = c)) l.

Definition sep : re := opt (one_of " _-").
Definition digits3 (l : list string) : re :=
  seqs [Wb; match l with [] => Eps | x :: r => alts (lit x) (map lit r) end; Wb].

Definition AUTH : re :=
  alts (seqs [Wb; lit "40"; one_of "13"; Wb])
    [seqs [lit "invalid"; sep; opt (lit "x-"); opt (seqs [lit "api"; sep]); lit "key"];
     seqs [lit "unauthori"; one_of "sz"; lit "ed"]; lit "forbidden"; lit "authentication"; lit "permission denied"].
Definition CREDIT : re :=
  alts (word "402") [lit "credit"; lit "quota"; lit "billing"; lit "payment required";
                     seqs [lit "insufficient"; sep; lit "funds"]; lit "hit your limit"].
Definition RATE : re := alts (word "429") [seqs [lit "rate"; sep; lit "limit"]; lit "too many requests"].
Definition INSTALL : re :=
  alts (lit "did not install") [lit "not installed"; seqs [lit "no "; opt (lit "`"); lit "claude"; opt (lit "`"); lit " binary"];
                                lit "command not found"; lit "missing agent binary"].
Definition REFUSED : re :=
  alts (lit "connection refused") [lit "errno 111"; seqs [lit "errno 61"; Wb]; lit "econnrefused"; lit "connection reset";
                                   lit "errno 104"; lit "econnreset"].
Definition DNS : re :=
  alts (lit "name or service not known") [lit "nodename nor servname"; lit "getaddrinfo"; lit "name resolution";
    lit "could not resolve"; seqs [lit "errno -"; one_of "23"; Wb]; lit "enotfound"].
Definition STATUS : re :=
  alts (digits3 ["500"; "503"; "504"; "529"]) [lit "overloaded"; lit "internal server error"; lit "service unavailable"; lit "gateway timeout"].
Definition TIMEOUT : re :=
  alts (seqs [lit "time"; opt (lit "d"); opt (lit " "); lit "out"]) [lit "timeout"; lit "did not answer"; lit "no answer"].
Definition GATEWAY : re := alts (word "502") [lit "bad gateway"].

Definition errorClass (error via : option string) : ErrorClass :=
  let e := to_lower (default "" error) in
  if String.eqb (trim e) "" then unknown_class
  else if test AUTH e then auth
  else if test CREDIT e then credit
  else if test RATE e then rate
  else if test INSTALL e then install
  else if test REFUSED e then refused
  else if test DNS e then dns
  else
    let status := test STATUS e in
    let timeout := test TIMEOUT e in
    let gateway := test GATEWAY e in
    if ostr_eqb via (Some "sibling") || ostr_eqb via (Some "broker") then
      if status then remote
      else if gateway || timeout then sibling
      else unknown_class
    else if status || timeout || gateway then remote
    else unknown_class.

Definition class_word (c : ErrorClass) : string :=
  match c with
  | auth => "auth" | credit => "credit" | rate => "rate" | remote => "remote" | refused => "refused"
  | dns => "dns" | install => "install" | sibling => "sibling" | unknown_class => "unknown"
  end.

(** ** The probe's age, on the pool's clock *)

Inductive Age := Infinite | NaN | Ms (ms : Z).
Definition age_of (s : string) (now : Z) : Age := match date_parse s with Some t => Ms (now - t) | None => NaN end.

Definition probeAge (row : OrdersRow) (pb : option Probe) (now : Z) : Age :=
  let told := match pb with Some p => negb (ostr_eqb (pb_checked_at p) (o_agent_checked_at row)) | None => false end in
  if told then Ms 0
  else match o_probed_at row with
       | Some s => if truthy s then age_of s now else Infinite
       | None => Infinite
       end.

(** ** The pool's rules *)

Inductive DayKind := Kc | Kr.
#[export] Instance DayKind_eq_dec : EqDecision DayKind.
Proof. solve_decision. Defined.
Record DayIssue := { d_k : DayKind; d_at : string }.

Record AutoState := {
  a_spell : option string; rechecks : Z; restarts : Z; last_recheck : option string;
  last_restart : option string; gave_up : option string; a_day : list DayIssue }.

(** An issue of the last 24 hours. *)
Definition recent (now : Z) (d : DayIssue) : bool :=
  match date_parse (d_at d) with Some t => now - t <? DAY | None => false end.

Definition day_of (v : option json) : list DayIssue :=
  omap (fun d =>
    k ← as_str (field (Some d) "k");
    let at_ := default "" (as_str (field (Some d) "at")) in
    if String.eqb k "c" then Some {| d_k := Kc; d_at := at_ |}
    else if String.eqb k "r" then Some {| d_k := Kr; d_at := at_ |} else None) (default [] (as_arr v)).

Definition autoOf (v : option json) (spell : option string) (now : Z) : AutoState :=
  let day := List.filter (recent now) (day_of (field v "day")) in
  if negb (ostr_eqb (as_str (field v "spell")) spell) then
    {| a_spell := spell; rechecks := 0; restarts := 0; last_recheck := None; last_restart := None; gave_up := None; a_day := day |}
  else
    {| a_spell := spell; rechecks := default 0 (as_int (field v "rechecks")); restarts := default 0 (as_int (field v "restarts"));
       last_recheck := as_str (field v "last_recheck"); last_restart := as_str (field v "last_restart");
       gave_up := as_str (field v "gave_up"); a_day := day |}.

(** The state as the row keeps it. *)
Definition jopt (s : option string) : json := match s with Some s => JStr s | None => JNull end.
Definition autoJson (a : AutoState) : json :=
  JObj [("spell", jopt (a_spell a)); ("rechecks", JInt (rechecks a)); ("restarts", JInt (restarts a));
        ("last_recheck", jopt (last_recheck a)); ("last_restart", jopt (last_restart a)); ("gave_up", jopt (gave_up a));
        ("day", JArr (map (fun d => JObj [("k", JStr (match d_k d with Kc => "c" | Kr => "r" end)); ("at", JStr (d_at d))]) (a_day a)))].

(** The pace of the rules, and whether a scale was asked and ignored. *)
Definition rulesScale (pool_version scale : option string) : Z * bool :=
  let n := default 0 (s ← scale; dec (trim s)) in
  let asked := if (1 <=? n) && (n <=? 60) then n else 1 in
  match parseTag pool_version with
  | Some _ => (1, negb (asked =? 1))
  | None => (asked, false)
  end.

Definition rulesOn (setting : option string) : bool := negb (String.eqb (to_lower (trim (default "" setting))) "off").

Inductive OrderWord := Wrecheck | Wrestart | Wrestart_agent.
#[export] Instance OrderWord_eq_dec : EqDecision OrderWord.
Proof. solve_decision. Defined.
Definition order_word (k : OrderWord) : string :=
  match k with Wrecheck => "recheck-agent" | Wrestart => "restart" | Wrestart_agent => "restart-agent" end.

Inductive Decision :=
| Order (kind : OrderWord) (rule reason : string) (unless : bool) (next : AutoState) (cls : ErrorClass)
| GiveUp (summary : string) (next : AutoState) (cls : ErrorClass)
| Nothing (why : option string) (cls : option ErrorClass).

Record RuleInput := {
  x_row : OrdersRow; x_claim : ClaimFacts; x_status : option string; x_error : option string;
  x_spell : option string; x_since : option string; x_conflict : bool; x_needs_agent : bool;
  x_sibling_answers : bool; x_host : bool }.

Definition span (a : Age) : string :=
  match a with
  | Ms ms => if ms <? 90000 then zstr (Z.max 0 (round_div ms 1000)) +:+ " s" else zstr (round_div ms MIN) +:+ " min"
  | NaN => "NaN min"
  | Infinite => "Infinity min"
  end.

(** [a >= (m * MIN) / scale] and [a < (m * MIN) / scale]: both false of a time that does not parse. *)
Definition past (scale : Z) (a : Age) (m : Z) : bool :=
  match a with Ms ms => m * MIN <=? ms * scale | NaN => false | Infinite => true end.
Definition before (scale : Z) (a : Age) (m : Z) : bool :=
  match a with Ms ms => ms * scale <? m * MIN | NaN => false | Infinite => false end.

Definition count_day (k : DayKind) (a : AutoState) : Z :=
  Z.of_nat (length (List.filter (fun d => bool_decide (d_k d = k)) (a_day a))).

Definition issued (a : AutoState) (k : DayKind) (now : Z) : list DayIssue := (a_day a ++ [{| d_k := k; d_at := iso now |}])%list.

Definition after_recheck (a : AutoState) (now : Z) : AutoState :=
  {| a_spell := a_spell a; rechecks := rechecks a + 1; restarts := restarts a; last_recheck := Some (iso now);
     last_restart := last_restart a; gave_up := gave_up a; a_day := issued a Kc now |}.
Definition after_restart (a : AutoState) (now : Z) : AutoState :=
  {| a_spell := a_spell a; rechecks := rechecks a; restarts := restarts a + 1; last_recheck := last_recheck a;
     last_restart := Some (iso now); gave_up := gave_up a; a_day := issued a Kr now |}.
Definition after_give_up (a : AutoState) (now : Z) : AutoState :=
  {| a_spell := a_spell a; rechecks := rechecks a; restarts := restarts a; last_recheck := last_recheck a;
     last_restart := last_restart a; gave_up := Some (iso now); a_day := a_day a |}.

(** Step 0: one re-check, when the worker's own has stalled. *)
Definition recheck_due (x : RuleInput) (auto : AutoState) (takes : list string) (spellAge : Age) (now scale : Z) : bool :=
  past scale spellAge RECHECK_AFTER_MIN && (restarts auto =? 0) && (rechecks auto <? MAX_POOL_RECHECKS_PER_SPELL)
  && str_in "recheck-agent" takes && (count_day Kc auto <? MAX_POOL_RECHECKS_PER_DAY)
  && past scale (probeAge (x_row x) (probe (x_claim x)) now) RECHECK_AFTER_MIN.

(** Which order helps, by where the agent is; [None] for a broker older than pair restart. *)
Definition restart_kind (x : RuleInput) (auto : AutoState) (takes : list string) (via : option string) : option OrderWord :=
  if ostr_eqb via (Some "sibling") then
    let kind := if str_in "restart-agent" takes && negb (x_sibling_answers x) then Wrestart_agent else Wrestart in
    Some (if bool_decide (kind = Wrestart_agent) && (1 <=? restarts auto) then Wrestart else kind)
  else if ostr_eqb via (Some "broker") then (if pairRestart (x_claim x) then Some Wrestart else None)
  else Some Wrestart.

(** Not yet: the first restart's wait, or the spacing after one. *)
Definition too_soon (auto : AutoState) (spellAge : Age) (now scale : Z) : bool :=
  if restarts auto =? 0 then
    before scale spellAge RESTART_AFTER_MIN
    || match last_recheck auto with
       | Some s => truthy s && before scale (age_of s now) RECHECK_AFTER_MIN
       | None => false
       end
  else match last_restart auto with
       | Some s => negb (truthy s) || before scale (age_of s now) RESTART_SPACING_MIN
       | None => true
       end.

Definition too_young (x : RuleInput) (now : Z) : bool :=
  match x_since x with
  | Some s => negb (truthy s) || match date_parse s with Some t => now - t <? MIN_UPTIME_S * 1000 | None => false end
  | None => true
  end.

Definition restart_reason (auto : AutoState) (kind : OrderWord) (spellWords : string) : string :=
  let n := zstr (restarts auto + 1) in
  let max := zstr MAX_POOL_RESTARTS_PER_SPELL in
  match kind with
  | Wrestart_agent => spellWords +:+ ": its agent service does not answer — the pool restarts it through this worker ("
                      +:+ n +:+ " of " +:+ max +:+ " in this spell)"
  | _ => spellWords +:+ ": " +:+ (if rechecks auto =? 0 then "its own re-checks" else "its re-checks")
         +:+ " did not bring it back — restart " +:+ n +:+ " of " +:+ max +:+ " in this spell"
  end.

(** The restart part of the rules: past the re-check, on a class a restart may help. *)
Definition decideRestart (x : RuleInput) (auto : AutoState) (takes : list string) (via : option string)
    (cls : ErrorClass) (spellAge : Age) (now scale : Z) : Decision :=
  let spellWords := "not ready for " +:+ span spellAge +:+ " (" +:+ class_word cls +:+ ")" in
  let nothing why := Nothing why (Some cls) in
  if MAX_POOL_RESTARTS_PER_SPELL <=? restarts auto then
    if match last_restart auto with
       | Some s => truthy s && past scale (age_of s now) GIVE_UP_AFTER_MIN
       | None => false
       end
    then
      GiveUp (o_id (x_row x) +:+ ": the pool stops restarting it — " +:+ spellWords +:+ ", " +:+ zstr (restarts auto)
              +:+ " restarts did not bring it back; a person looks: /worker/" +:+ o_id (x_row x))
        (after_give_up auto now) cls
    else nothing (Some ("restarted " +:+ zstr (restarts auto) +:+ " times in this spell; the pool waits to see"))
  else match restart_kind x auto takes via with
  | None => nothing (Some "its broker is older than pair restart: its updater replaces it; the pool only re-checks")
  | Some kind =>
      if negb (str_in (order_word kind) takes) then
        nothing (if bool_decide (kind = Wrestart) then Some "it declares no restart it can survive: a person looks" else None)
      else if too_soon auto spellAge now scale then nothing None
      else if too_young x now then
        nothing (Some ("its process started under " +:+ zstr (MIN_UPTIME_S / 60) +:+ " min ago: the pool waits"))
      else if MAX_POOL_RESTARTS_PER_DAY <=? count_day Kr auto then
        nothing (Some ("restarted " +:+ zstr MAX_POOL_RESTARTS_PER_DAY +:+ " times by the pool in 24 h: a person looks"))
      else Order kind (order_word kind +:+ "-" +:+ zstr (restarts auto + 1) +:+ "of" +:+ zstr MAX_POOL_RESTARTS_PER_SPELL)
             (restart_reason auto kind spellWords) true (after_restart auto now) cls
  end.

Definition decideAuto (x : RuleInput) (now scale : Z) : Decision :=
  let row := x_row x in
  let claim := x_claim x in
  match takes_ claim, (s ← x_spell x; if truthy s then Some s else None) with
  | Some takes, Some spell =>
      if x_conflict x || truthyo (o_drained_at row) || negb (x_needs_agent x)
         || negb (ostr_eqb (x_status x) (Some "error"))
         || match openOrdersOf (o_open_orders row) with [] => false | _ => true end
      then Nothing None None
      else
        let via := match agent_via_ claim with Some v => Some v | None => o_agent_via row end in
        let cls := errorClass (x_error x) via in
        if class_in cls NOTHING_CLASSES then
          Nothing (Some (class_word cls +:+ ": a restart cannot help — its own re-check runs every 30 min")) (Some cls)
        else
          let auto := autoOf (o_auto row) (Some spell) now in
          if truthyo (gave_up auto) then
            Nothing (Some ("the pool gave up at " +:+ clock_of (default "" (gave_up auto)) +:+ " after "
                           +:+ zstr (restarts auto) +:+ " restart(s) — a person looks")) (Some cls)
          else
            let spellAge := age_of spell now in
            if recheck_due x auto takes spellAge now scale then
              Order Wrecheck "recheck-stale"
                ("not ready for " +:+ span spellAge +:+ " (" +:+ class_word cls +:+ "): its own re-check has not run for "
                 +:+ match probeAge row (probe claim) now with Ms age => span (Ms age) | _ => "a while" end
                 +:+ " — the pool re-checks it") false (after_recheck auto now) cls
            else if x_host x then
              Nothing (Some "a host's agent is a fresh probe sidecar: the pool re-checks it, never restarts its dispatcher for it") (Some cls)
            else if bool_decide (cls = unknown_class) then
              Nothing (Some "an error the pool does not know: it does not restart on it — a person looks") (Some cls)
            else decideRestart x auto takes via cls spellAge now scale
  | _, _ => Nothing None None
  end.

(** How soon a stopped task stops, by what runs it. *)
Inductive StopWay := child | child_or_call | next_call | lease_end.
Definition stopWay (kind : string) (orderKinds : option json) : StopWay :=
  match as_arr orderKinds with
  | Some takes =>
      if existsb (fun k => ostr_eqb (as_str (Some k)) (Some "stop-task")) takes then
        if String.eqb kind "audit" || String.eqb kind "health" then child
        else if String.eqb kind "build" || String.eqb kind "trial" then child_or_call
        else next_call
      else lease_end
  | None => lease_end
  end.
