(* ===== verification/OrderRulesFacts.v ===== *)
(** * What the orders' rules guarantee

    Facts of [OrderRules]: which restarts the pool orders, how many in a spell
    and in any 24 hours, how long two processes on one token are told apart,
    and the round trip of what the row keeps. *)
From S2P Require Import Prelude JsTime Json Manifest Pattern Update OrderRules.
Local Open Scope string_scope.
Local Open Scope Z_scope.

(** ** A decision, opened *)

(** What every order of the rules stands on. *)
Record allowed (x : RuleInput) (now : Z) (takes : list string) (spell : string) (cls : ErrorClass) : Prop := {
  al_takes : takes_ (x_claim x) = Some takes;
  al_spell : x_spell x = Some spell;
  al_conflict : x_conflict x = false;
  al_drained : truthyo (o_drained_at (x_row x)) = false;
  al_needs : x_needs_agent x = true;
  al_status : x_status x = Some "error";
  al_open : openOrdersOf (o_open_orders (x_row x)) = [];
  al_class : class_in cls NOTHING_CLASSES = false;
  al_on : truthyo (gave_up (autoOf (o_auto (x_row x)) (Some spell) now)) = false }.

Definition via_of (x : RuleInput) : option string :=
  match agent_via_ (x_claim x) with Some v => Some v | None => o_agent_via (x_row x) end.

(** The rules gave nothing, or everything [allowed] names holds and either the re-check is due or the restart part decides. *)
Lemma decideAuto_cases x now scale :
  (exists why cls, decideAuto x now scale = Nothing why cls)
  \/ exists takes spell,
       let cls := errorClass (x_error x) (via_of x) in
       let auto := autoOf (o_auto (x_row x)) (Some spell) now in
       allowed x now takes spell cls
       /\ ((exists reason, decideAuto x now scale = Order Wrecheck "recheck-stale" reason false (after_recheck auto now) cls
              /\ recheck_due x auto takes (age_of spell now) now scale = true)
           \/ (x_host x = false /\ cls <> unknown_class
               /\ decideAuto x now scale = decideRestart x auto takes (via_of x) cls (age_of spell now) now scale)).
Proof.
  unfold decideAuto. destruct (takes_ (x_claim x)) as [takes|] eqn:Ht; [|eauto].
  destruct (x_spell x) as [spell|] eqn:Hs; cbn [mbind option_bind]; [|eauto].
  destruct (truthy spell) eqn:Hsp; [|eauto].
  destruct (_ || _) eqn:Hguard; [eauto|]. breflect.
  fold (via_of x).
  destruct (class_in _ _) eqn:Hc; [eauto|].
  destruct (truthyo (gave_up _)) eqn:Hg; [eauto|].
  destruct (openOrdersOf _) eqn:Ho; [|done].
  destruct (recheck_due _ _ _ _ _ _) eqn:Hr.
  { right. exists takes, spell. split; [by constructor|]. left. eauto. }
  destruct (x_host x) eqn:Hh; [eauto|].
  case_bool_decide; [eauto|].
  right. exists takes, spell. split; [by constructor|]. by right.
Qed.

(** The restart part: what it orders, and on what. *)
Lemma decideRestart_order x auto takes via cls age now scale k rule reason unless next cls' :
  decideRestart x auto takes via cls age now scale = Order k rule reason unless next cls' ->
  (k <> Wrecheck /\ In (order_word k) takes /\ unless = true)
  /\ (next = after_restart auto now /\ cls' = cls /\ restarts auto < MAX_POOL_RESTARTS_PER_SPELL)
  /\ (count_day Kr auto < MAX_POOL_RESTARTS_PER_DAY /\ too_soon auto age now scale = false /\ too_young x now = false).
Proof.
  unfold decideRestart.
  destruct (MAX_POOL_RESTARTS_PER_SPELL <=? restarts auto) eqn:Hsp; [by case_match|].
  destruct (restart_kind _ _ _ _) as [k'|] eqn:Hk; [|done].
  destruct (str_in (order_word k') takes) eqn:Hin; [|done]. simpl negb. cbv iota.
  destruct (too_soon _ _ _ _) eqn:Hts; [done|]. destruct (too_young _ _) eqn:Hty; [done|].
  destruct (_ <=? count_day Kr auto) eqn:Hd; [done|]. intros [=]; subst. breflect.
  repeat split; try done. intros ->. unfold restart_kind in Hk. repeat case_match; simplify_eq/=.
Qed.

Lemma parse_opt_some s t : parse_opt (Some s) = Some t -> date_parse s = Some t.
Proof. unfold parse_opt. simpl. by destruct (truthy s). Qed.

Lemma restart_class cls : class_in cls NOTHING_CLASSES = false -> cls <> unknown_class -> class_in cls RESTART_CLASSES = true.
Proof. destruct cls; vm_compute; congruence. Qed.

Lemma too_soon_first auto spell now scale t :
  too_soon auto (age_of spell now) now scale = false -> restarts auto = 0 -> date_parse spell = Some t ->
  RESTART_AFTER_MIN * MIN <= (now - t) * scale.
Proof.
  unfold too_soon, age_of. intros H H0 Ht. rewrite H0, Ht in H. cbn [Z.eqb before] in H. breflect. lia.
Qed.

Lemma too_soon_next auto age now scale s t :
  too_soon auto age now scale = false -> restarts auto <> 0 -> last_restart auto = Some s -> date_parse s = Some t ->
  RESTART_SPACING_MIN * MIN <= (now - t) * scale.
Proof.
  unfold too_soon, age_of. intros H H0 Hs Ht. apply Z.eqb_neq in H0. rewrite H0, Hs, Ht in H.
  cbn [before] in H. breflect. lia.
Qed.

Lemma too_young_not x now t :
  too_young x now = false -> parse_opt (x_since x) = Some t -> MIN_UPTIME_S * 1000 <= now - t.
Proof.
  unfold too_young, parse_opt. destruct (x_since x) as [s|]; [|done]. simpl.
  destruct (truthy s); [|done]. simpl. intros H Ht. rewrite Ht in H. breflect. lia.
Qed.

(** the pool only restarts a worker when every guard holds: not a host,
    its error is of a class a restart may help, one process on its token, not
    drained, no order open, the kind declared, the order conditional on its
    agent still failing, its process at least two minutes old, ten minutes
    into the spell for the first restart and half an hour after the one
    before for the next (the times scaled in development). *)
Theorem restarts_are_safe x now scale k rule reason unless next cls :
  decideAuto x now scale = Order k rule reason unless next cls -> k <> Wrecheck ->
  let auto := autoOf (o_auto (x_row x)) (x_spell x) now in
  unless = true /\ x_host x = false /\ class_in cls RESTART_CLASSES = true /\ x_status x = Some "error"
  /\ x_conflict x = false /\ truthyo (o_drained_at (x_row x)) = false /\ openOrdersOf (o_open_orders (x_row x)) = []
  /\ (exists takes, takes_ (x_claim x) = Some takes /\ In (order_word k) takes)
  /\ (forall t, parse_opt (x_since x) = Some t -> MIN_UPTIME_S * 1000 <= now - t)
  /\ (forall t, restarts auto = 0 -> parse_opt (x_spell x) = Some t -> RESTART_AFTER_MIN * MIN <= (now - t) * scale)
  /\ (forall t, restarts auto <> 0 -> parse_opt (last_restart auto) = Some t -> RESTART_SPACING_MIN * MIN <= (now - t) * scale).
Proof.
  intros Hd Hk. destruct (decideAuto_cases x now scale) as [(why & c & Hn)|(takes & spell & Ha & Hc)]; [congruence|].
  destruct Hc as [(r & Hr & _)|(Hh & Hu & Hr)]; [congruence|]. rewrite Hr in Hd.
  apply decideRestart_order in Hd as ((_ & Hin & ->) & (-> & -> & _) & (_ & Hts & Hty)).
  destruct Ha. rewrite al_spell0. split_and!; try done.
  - by apply restart_class.
  - eauto.
  - intros t. by apply too_young_not.
  - intros t H0 Ht. eapply too_soon_first; [exact Hts|done|by apply parse_opt_some].
  - intros t H0 Ht. destruct (last_restart _) as [s|] eqn:Hl; [|done]. eapply too_soon_next; [exact Hts|exact H0|exact Hl|by apply parse_opt_some].
Qed.

(** A restart is only ever proposed on a class it may help. *)
Lemma restart_proposed_on_its_class x now scale k rule reason unless next cls :
  decideAuto x now scale = Order k rule reason unless next cls -> k <> Wrecheck -> class_in cls RESTART_CLASSES = true.
Proof.
  intros Hd Hk. destruct (decideAuto_cases x now scale) as [(why & c & Hn)|(takes & spell & Ha & Hc)]; [congruence|].
  destruct Hc as [(r & Hr & _)|(Hh & Hu & Hr)]; [congruence|]. rewrite Hr in Hd.
  apply decideRestart_order in Hd as (_ & (-> & -> & _) & _). destruct Ha. by apply restart_class.
Qed.

(** ** A worker's row over many claims *)

Definition set_auto (a : option json) (r : OrdersRow) : OrdersRow :=
  {| o_id := o_id r; o_owner := o_owner r; o_trust := o_trust r; o_version := o_version r;
     o_agent_checked_at := o_agent_checked_at r; o_last_task := o_last_task r; o_open_orders := o_open_orders r;
     o_order_kinds := o_order_kinds r; o_instance := o_instance r; o_instance_prev := o_instance_prev r;
     o_instance_since := o_instance_since r; o_conflict_at := o_conflict_at r; o_other_at := o_other_at r;
     o_churn := o_churn r; o_finished := o_finished r; o_crash_loop := o_crash_loop r; o_watchdog := o_watchdog r;
     o_started_at := o_started_at r; o_agent_via := o_agent_via r; o_site := o_site r; o_restarts_left := o_restarts_left r;
     o_rollout := o_rollout r; o_probed_at := o_probed_at r; o_drained_at := o_drained_at r; o_auto := a |}.
Definition with_auto (a : option json) (x : RuleInput) : RuleInput :=
  {| x_row := set_auto a (x_row x); x_claim := x_claim x; x_status := x_status x; x_error := x_error x; x_spell := x_spell x;
     x_since := x_since x; x_conflict := x_conflict x; x_needs_agent := x_needs_agent x;
     x_sibling_answers := x_sibling_answers x; x_host := x_host x |}.

(** What became of a proposal: written with its order; held by a cap, the breaker, the site or the
    compare-and-set; or the site's give-up written instead (autoOrder, routes/factory.ts). *)
Inductive Fate := Taken | HeldBack | SiteGaveUp.
(** A claim the rules see: what they read of it beside their own column, when, and its proposal's fate. *)
Record Seen := { se_x : RuleInput; se_now : Z; se_fate : Fate }.
Record Issued := { is_kind : DayKind; is_at : Z }.
Definition day_kind (k : OrderWord) : DayKind := match k with Wrecheck => Kc | _ => Kr end.

Definition rules_step (scale : Z) (st : option json * list Issued) (e : Seen) : option json * list Issued :=
  let auto := autoOf st.1 (x_spell (se_x e)) (se_now e) in
  match decideAuto (with_auto st.1 (se_x e)) (se_now e) scale, se_fate e with
  | Nothing _ _, _ | _, HeldBack => st
  | Order k _ _ _ next _, Taken =>
      (Some (autoJson next), (st.2 ++ [{| is_kind := day_kind k; is_at := se_now e |}])%list)
  | Order _ _ _ _ _ _, SiteGaveUp => (Some (autoJson (after_give_up auto (se_now e))), st.2)
  | GiveUp _ next _, _ => (Some (autoJson next), st.2)
  end.
Definition rules_run (scale : Z) (a : option json) (es : list Seen) : option json * list Issued :=
  fold_left (rules_step scale) es (a, []).

(** *** What the column gives back *)

Definition issue_entry (i : Issued) : DayIssue := {| d_k := is_kind i; d_at := iso (is_at i) |}.

Lemma day_of_autoJson a : day_of (field (Some (autoJson a)) "day") = a_day a.
Proof.
  change (field (Some (autoJson a)) "day") with
    (Some (JArr (map (fun d => JObj [("k", JStr (match d_k d with Kc => "c" | Kr => "r" end)); ("at", JStr (d_at d))]) (a_day a)))).
  unfold day_of. cbn [as_arr default]. induction (a_day a) as [|[[] at_] l IH]; [done| |];
    cbn [map omap list_omap] in *; cbn; f_equal; exact IH.
Qed.

Lemma autoOf_day a spell now :
  a_day (autoOf a spell now) = List.filter (recent now) (day_of (field a "day")).
Proof. unfold autoOf. by destruct (negb _). Qed.

Lemma as_str_jopt s : as_str (Some (jopt s)) = s.
Proof. by destruct s. Qed.

Lemma autoOf_autoJson a spell now :
  a_spell a = spell ->
  let b := autoOf (Some (autoJson a)) spell now in
  rechecks b = rechecks a /\ restarts b = restarts a /\ gave_up b = gave_up a /\ a_spell b = spell.
Proof.
  intros <-. unfold autoOf.
  change (field (Some (autoJson a)) "spell") with (Some (jopt (a_spell a))). rewrite as_str_jopt.
  replace (ostr_eqb (a_spell a) (a_spell a)) with true by (symmetry; by apply ostr_eqb_eq).
  cbn [negb]. cbn. split_and!; try done. apply as_str_jopt.
Qed.

Lemma autoOf_spell a spell now : a_spell (autoOf a spell now) = spell.
Proof. unfold autoOf. by destruct (negb _). Qed.

(** *** One claim *)

(** What a claim changed: the column after it, and what it issued. *)
Inductive stepped (a : option json) (spell : option string) (now : Z) : option json -> list Issued -> Prop :=
| st_same : stepped a spell now a []
| st_recheck (auto := autoOf a spell now) :
    rechecks auto < MAX_POOL_RECHECKS_PER_SPELL -> count_day Kc auto < MAX_POOL_RECHECKS_PER_DAY ->
    stepped a spell now (Some (autoJson (after_recheck auto now))) [{| is_kind := Kc; is_at := now |}]
| st_restart (auto := autoOf a spell now) :
    restarts auto < MAX_POOL_RESTARTS_PER_SPELL -> count_day Kr auto < MAX_POOL_RESTARTS_PER_DAY ->
    stepped a spell now (Some (autoJson (after_restart auto now))) [{| is_kind := Kr; is_at := now |}]
| st_give_up (auto := autoOf a spell now) :
    stepped a spell now (Some (autoJson (after_give_up auto now))) [].

Lemma decideRestart_give_up x auto takes via cls age now scale s next cls' :
  decideRestart x auto takes via cls age now scale = GiveUp s next cls' -> next = after_give_up auto now.
Proof. unfold decideRestart. intros H. repeat case_match; congruence. Qed.

Lemma rules_step_spec scale a log e :
  exists a' l, rules_step scale (a, log) e = (a', (log ++ l)%list) /\ stepped a (x_spell (se_x e)) (se_now e) a' l.
Proof.
  assert (Hsame : exists a' l, (a, log) = (a', (log ++ l)%list) /\ stepped a (x_spell (se_x e)) (se_now e) a' l).
  { exists a, []. rewrite app_nil_r. split; [done|constructor]. }
  unfold rules_step. cbn [fst snd]. set (x := with_auto a (se_x e)). set (now := se_now e).
  destruct (decideAuto_cases x now scale) as [(why & c & ->)|(takes & spell & Ha & Hc)]; [done|].
  destruct Ha as [_ Hsp _ _ _ _ _ _ _]. change (x_spell (se_x e)) with (x_spell x) in *. rewrite Hsp in *.
  change (o_auto (x_row x)) with a in Hc.
  assert (Hgave : exists a' l, (Some (autoJson (after_give_up (autoOf a (Some spell) now) now)), log) = (a', (log ++ l)%list)
      /\ stepped a (Some spell) now a' l).
  { eexists _, []. rewrite app_nil_r. split; [reflexivity|constructor]. }
  destruct Hc as [(r & -> & Hdue)|(_ & _ & ->)].
  { destruct (se_fate e); [|done|done]. eexists _, _. split; [reflexivity|]. unfold recheck_due in Hdue. breflect. by constructor. }
  destruct (decideRestart _ _ _ _ _ _ _ _) as [k rule reason unless next cls|s next cls|why cls] eqn:Hd.
  - destruct (se_fate e); [|done|done].
    apply decideRestart_order in Hd as ((Hk & _ & _) & (-> & _ & Hr) & (Hd & _ & _)).
    eexists _, [_]. split; [reflexivity|]. replace (day_kind k) with Kr by (destruct k; done). by constructor.
  - apply decideRestart_give_up in Hd as ->. by destruct (se_fate e).
  - done.
Qed.

(** *** The day's window *)

Definition in_range (t : Z) : Prop := T_LO <= t < T_HI.
Definition all_kinds (i : Issued) : bool := true.
(** From [tl] on, the column remembers every issue of the last day. *)
Definition remembers (a : option json) (log : list Issued) (tl : Z) : Prop :=
  forall now, tl <= now ->
    List.filter (recent now) (day_of (field a "day")) = map issue_entry (List.filter (recent_of is_at DAY all_kinds now) log).

Lemma filter_filter {A} (f g : A -> bool) l :
  (forall x, f x = true -> g x = true) -> List.filter f (List.filter g l) = List.filter f l.
Proof.
  intros H. induction l as [|x l IH]; simpl; [done|].
  destruct (g x) eqn:Hg; simpl; [by rewrite IH|]. destruct (f x) eqn:Hf; [|done]. rewrite (H x Hf) in Hg. done.
Qed.

Lemma recent_earlier now now' d : now <= now' -> recent now' d = true -> recent now d = true.
Proof. unfold recent. destruct (date_parse _); [|done]. intros. breflect. apply Z.ltb_lt. lia. Qed.

Lemma recent_issue now i : in_range (is_at i) -> recent now (issue_entry i) = recent_of is_at DAY all_kinds now i.
Proof. intros H. unfold recent, issue_entry, recent_of. cbn [d_at]. by rewrite date_parse_iso. Qed.

Lemma remembers_issue a log tl spell now k a' :
  remembers a log tl -> tl <= now -> in_range now ->
  day_of (field a' "day") = (a_day (autoOf a spell now) ++ [{| d_k := k; d_at := iso now |}])%list ->
  remembers a' (log ++ [{| is_kind := k; is_at := now |}]) now.
Proof.
  intros Hr Hle Hrg Hd now' Hle'. rewrite Hd, autoOf_day, List.filter_app, (filter_filter (recent now') (recent now)).
  2:{ intros d. by apply recent_earlier. }
  rewrite (Hr now') by lia. rewrite List.filter_app, List.map_app. f_equal.
  cbn [List.filter]. change {| d_k := k; d_at := iso now |} with (issue_entry {| is_kind := k; is_at := now |}).
  rewrite recent_issue by done. by destruct (recent_of _ _ _ _ _).
Qed.

Lemma remembers_kept a log tl spell now a' :
  remembers a log tl -> tl <= now -> day_of (field a' "day") = a_day (autoOf a spell now) -> remembers a' log now.
Proof.
  intros Hr Hle Hd now' Hle'. rewrite Hd, autoOf_day, (filter_filter (recent now') (recent now)).
  2:{ intros d. by apply recent_earlier. }
  apply Hr. lia.
Qed.

Lemma stepped_remembers a spell now a' l log tl :
  stepped a spell now a' l -> remembers a log tl -> tl <= now -> in_range now -> remembers a' (log ++ l) now.
Proof.
  destruct 1; intros Hr Hle Hrg.
  - rewrite app_nil_r. intros now' Hle'. apply Hr. lia.
  - eapply remembers_issue; [exact Hr|done|done|]. by rewrite day_of_autoJson.
  - eapply remembers_issue; [exact Hr|done|done|]. by rewrite day_of_autoJson.
  - rewrite app_nil_r. eapply remembers_kept; [exact Hr|done|]. by rewrite day_of_autoJson.
Qed.

Definition of_kind (k : DayKind) (i : Issued) : bool := bool_decide (is_kind i = k).

(** The rules' count of a kind is the log's. *)
Lemma count_day_log a spell now log tl k :
  remembers a log tl -> tl <= now ->
  count_day k (autoOf a spell now) = zlen (List.filter (recent_of is_at DAY (of_kind k) now) log).
Proof.
  intros Hr Hle. unfold count_day, zlen. rewrite autoOf_day, (Hr now Hle). f_equal. clear Hr.
  induction log as [|i log IH]; [done|]. cbn [List.filter].
  change (recent_of is_at DAY all_kinds now i) with (now - is_at i <? DAY).
  change (recent_of is_at DAY (of_kind k) now i) with (bool_decide (is_kind i = k) && (now - is_at i <? DAY)).
  destruct (_ <? DAY); cbn [List.filter map].
  - rewrite andb_true_r. cbn [issue_entry d_k]. destruct (bool_decide _); cbn [length]; by rewrite IH.
  - by rewrite andb_false_r.
Qed.

Definition day_capped (log : list Issued) : Prop :=
  forall k, windowed is_at DAY 3 (of_kind k) log.

Lemma stepped_capped a spell now a' l log tl :
  stepped a spell now a' l -> remembers a log tl -> tl <= now -> day_capped log -> day_capped (log ++ l).
Proof.
  intros H Hr Hle Hc k. pose proof (fun k => count_day_log a spell now log tl k Hr Hle) as Hcount.
  destruct H as [|auto Hs Hd|auto Hs Hd|auto]; rewrite ?app_nil_r; try apply Hc;
    apply windowed_snoc; [apply Hc| |apply Hc|]; unfold of_kind at 1; intros Hk%bool_decide_eq_true; cbn [is_kind] in Hk; subst k;
    cbn [is_at]; rewrite <- Hcount; exact Hd.
Qed.

Lemma run_capped scale es a log tl :
  remembers a log tl -> day_capped log -> Forall in_range (map se_now es) -> StronglySorted Z.le (tl :: map se_now es) ->
  day_capped (fold_left (rules_step scale) es (a, log)).2.
Proof.
  revert a log tl. induction es as [|e es IH]; intros a log tl Hr Hc Hrg Hs; [done|].
  inversion Hrg as [|? ? Hr1 Hr2]; subst. inversion Hs as [|? ? Hs1 Hs2]; subst.
  assert (Hle : tl <= se_now e) by (by inversion Hs2).
  cbn [fold_left]. destruct (rules_step_spec scale a log e) as (a' & l & -> & Hst).
  apply (IH a' _ (se_now e)); [by eapply stepped_remembers|by eapply stepped_capped|done|done].
Qed.

(** over any run of claims of a worker, at times that never go back,
    whatever each claim reports, whichever proposals the caps, the site or
    the breaker refuse, and whatever spells begin and end, the pool issues at
    most three re-checks and at most three restarts in any 24 hours. *)
Theorem at_most_three_restarts_a_day scale es :
  Forall in_range (map se_now es) -> StronglySorted Z.le (map se_now es) ->
  forall w, zlen (List.filter (in_window is_at DAY (of_kind Kr) w) (rules_run scale None es).2) <= MAX_POOL_RESTARTS_PER_DAY
    /\ zlen (List.filter (in_window is_at DAY (of_kind Kc) w) (rules_run scale None es).2) <= MAX_POOL_RECHECKS_PER_DAY.
Proof.
  intros Hrg Hs w.
  assert (H : day_capped (rules_run scale None es).2).
  { destruct es as [|e es]; [intros k; by apply windowed_nil|]. unfold rules_run.
    apply (run_capped scale (e :: es) None [] (se_now e)); [done|intros k; by apply windowed_nil|done|].
    constructor; [done|]. cbn [map] in *. constructor; [lia|]. by inversion Hs. }
  split; apply (H _ w).
Qed.

(** *** The spell's counts *)

Definition counted (a : option json) (spell : option string) (log : list Issued) : Prop :=
  forall now, let auto := autoOf a spell now in
    rechecks auto = zlen (List.filter (of_kind Kc) log) /\ restarts auto = zlen (List.filter (of_kind Kr) log).
Definition spell_capped (log : list Issued) : Prop :=
  zlen (List.filter (of_kind Kc) log) <= MAX_POOL_RECHECKS_PER_SPELL /\ zlen (List.filter (of_kind Kr) log) <= MAX_POOL_RESTARTS_PER_SPELL.

Lemma zlen_kind_snoc k k' now (log : list Issued) :
  zlen (List.filter (of_kind k) (log ++ [{| is_kind := k'; is_at := now |}])) =
  zlen (List.filter (of_kind k) log) + match k, k' with Kc, Kc | Kr, Kr => 1 | _, _ => 0 end.
Proof. unfold zlen. rewrite List.filter_app, length_app. destruct k, k'; simpl; lia. Qed.

Ltac by_spell_caps := unfold MAX_POOL_RECHECKS_PER_SPELL, MAX_POOL_RESTARTS_PER_SPELL in *; lia.

Lemma stepped_counted a spell now a' l log :
  stepped a spell now a' l -> counted a spell log -> spell_capped log ->
  counted a' spell (log ++ l) /\ spell_capped (log ++ l).
Proof.
  intros H Hc [Hs1 Hs2]. destruct (Hc now) as [Hc1 Hc2]. unfold spell_capped.
  destruct H as [|auto Hs Hd|auto Hs Hd|auto].
  - by rewrite app_nil_r.
  - rewrite !zlen_kind_snoc. cbn -[zlen List.filter]. split; [|fold auto in Hc1; by_spell_caps].
    intros now'. cbn zeta. rewrite !zlen_kind_snoc.
    destruct (autoOf_autoJson (after_recheck auto now) spell now') as (-> & -> & _); [apply autoOf_spell|].
    fold auto in Hc1, Hc2. cbn -[zlen List.filter]. lia.
  - rewrite !zlen_kind_snoc. cbn -[zlen List.filter]. split; [|fold auto in Hc2; by_spell_caps].
    intros now'. cbn zeta. rewrite !zlen_kind_snoc.
    destruct (autoOf_autoJson (after_restart auto now) spell now') as (-> & -> & _); [apply autoOf_spell|].
    fold auto in Hc1, Hc2. cbn -[zlen List.filter]. lia.
  - rewrite app_nil_r. split; [|done]. intros now'. cbn zeta.
    destruct (autoOf_autoJson (after_give_up auto now) spell now') as (-> & -> & _); [apply autoOf_spell|]. done.
Qed.

(** over any run of claims of one spell, from the column of another
    spell, the pool re-checks the agent at most once and restarts the worker
    at most twice. *)
Theorem at_most_two_restarts_a_spell scale a spell es :
  as_str (field a "spell") <> spell -> Forall (fun e => x_spell (se_x e) = spell) es ->
  let log := (rules_run scale a es).2 in
  zlen (List.filter (of_kind Kc) log) <= MAX_POOL_RECHECKS_PER_SPELL /\ zlen (List.filter (of_kind Kr) log) <= MAX_POOL_RESTARTS_PER_SPELL.
Proof.
  intros Ha Hes. cbn zeta. change (spell_capped (rules_run scale a es).2). unfold rules_run.
  assert (H0 : counted a spell [] /\ spell_capped []).
  { split; [|by vm_compute]. intros now. unfold autoOf.
    destruct (ostr_eqb _ _) eqn:E; [by apply ostr_eqb_eq in E|]. done. }
  revert H0. generalize (@nil Issued) as log. clear Ha. revert a.
  induction Hes as [|e es He Hes IH]; intros a log [Hc Hs]; [done|].
  cbn [fold_left]. destruct (rules_step_spec scale a log e) as (a' & l & -> & Hst). rewrite He in Hst.
  apply IH. by eapply stepped_counted.
Qed.

(** *** A concrete worker *)

Definition t0 : Z := 1780000000000.
Definition blank_row : OrdersRow :=
  {| o_id := "w1"; o_owner := Some "ana"; o_trust := "community"; o_version := Some "v1.2.3"; o_agent_checked_at := None;
     o_last_task := None; o_open_orders := None; o_order_kinds := None; o_instance := Some "a"; o_instance_prev := Some "b";
     o_instance_since := None; o_conflict_at := None; o_other_at := None; o_churn := None; o_finished := None;
     o_crash_loop := None; o_watchdog := None; o_started_at := None; o_agent_via := None; o_site := None;
     o_restarts_left := None; o_rollout := None; o_probed_at := Some (iso (t0 + 10 * MIN)); o_drained_at := None; o_auto := None |}.
Definition claim_from (i : option string) : ClaimFacts :=
  {| takes_ := Some ["recheck-agent"; "restart"]; instance := i; started_at_ := None; agent_via_ := Some "direct"; site_ := None;
     restarts_left_ := None; previous_exit := None; version_ := Some "v1.2.3"; probe := None; pairRestart := false; rollout_ := None |}.
Definition refused_input : RuleInput :=
  {| x_row := blank_row; x_claim := claim_from (Some "a"); x_status := Some "error"; x_error := Some "connect: Connection refused";
     x_spell := Some (iso t0); x_since := Some (iso t0); x_conflict := false; x_needs_agent := true; x_sibling_answers := false;
     x_host := false |}.
Definition seen_at (m : Z) : Seen := {| se_x := refused_input; se_now := t0 + m * MIN; se_fate := Taken |}.

Lemma restarts_are_safe_witness :
  exists rule reason next cls,
    decideAuto refused_input (t0 + 11 * MIN) 1 = Order Wrestart rule reason true next cls
    /\ class_in cls RESTART_CLASSES = true.
Proof.
  destruct (decideAuto refused_input (t0 + 11 * MIN) 1) as [k rule reason unless next cls| |] eqn:E;
    [|vm_compute in E; discriminate E|vm_compute in E; discriminate E].
  assert (k = Wrestart) as -> by (vm_compute in E; congruence).
  exists rule, reason, next, cls.
  destruct (restarts_are_safe _ _ _ _ _ _ _ _ _ E ltac:(discriminate)) as (-> & _ & H & _).
  split; [reflexivity|exact H].
Defined.

Lemma seen_sorted : StronglySorted Z.le (map se_now [seen_at 11; seen_at 41; seen_at 50]).
Proof. repeat (constructor; try (vm_compute; discriminate)). Qed.
Lemma seen_ranged : Forall in_range (map se_now [seen_at 11; seen_at 41; seen_at 50]).
Proof. repeat constructor; vm_compute; congruence. Qed.

Definition seen_run : list Issued := (rules_run 1 None [seen_at 11; seen_at 41; seen_at 50]).2.

Lemma at_most_three_restarts_a_day_witness :
  map is_kind seen_run = [Kr; Kr] /\ zlen (List.filter (in_window is_at DAY (of_kind Kr) t0) seen_run) <= 3.
Proof.
  split; [vm_compute; reflexivity|]. apply (at_most_three_restarts_a_day 1 _ seen_ranged seen_sorted t0).
Defined.

Lemma at_most_two_restarts_a_spell_witness :
  map is_kind seen_run = [Kr; Kr] /\ zlen (List.filter (of_kind Kr) seen_run) <= 2.
Proof.
  split; [vm_compute; reflexivity|].
  refine (proj2 (at_most_two_restarts_a_spell 1 None (Some (iso t0)) _ _ _)); [discriminate|repeat constructor].
Defined.

(** ** Two processes on one token *)

(** The row over a run of claims, each with its time. *)
Definition run_claims (row : OrdersRow) (es : list (ClaimFacts * Z)) : OrdersRow :=
  fold_left (fun r e => claim_row r e.1 e.2) es row.

(** Two processes claim, each at most ten minutes after its claim before. *)
Fixpoint both_claim (A B : option string) (la lb : Z) (es : list (ClaimFacts * Z)) : Prop :=
  match es with
  | [] => True
  | (c, now) :: es =>
      in_range now /\ la <= now <= la + CONFLICT_WINDOW_MIN * MIN /\ lb <= now <= lb + CONFLICT_WINDOW_MIN * MIN
      /\ (instance c = A /\ both_claim A B now lb es \/ instance c = B /\ both_claim A B la now es)
  end.

Lemma both_claim_swap A B la lb es : both_claim A B la lb es -> both_claim B A lb la es.
Proof.
  revert la lb. induction es as [|[c now] es IH]; intros la lb; [done|]. simpl.
  intros (Hr & Ha & Hb & [[Hi H]|[Hi H]]); split_and!; auto; lia.
Qed.

(** In a conflict, [X] is the process the row names and the other was last recorded at [o]. *)
Record in_conflict (row : OrdersRow) (X : option string) (o : Z) : Prop := {
  ic_on : truthyo (o_conflict_at row) = true;
  ic_named : o_instance row = X;
  ic_other : o_other_at row = Some (iso o);
  ic_range : in_range o }.

Lemma other_claims row c now X o :
  in_conflict row X o -> in_range now -> instance c <> X ->
  (now - o < TOUCH_MINUTES * MIN /\ claim_row row c now = row)
  \/ in_conflict (claim_row row c now) (instance c) now.
Proof.
  intros [H1 H2 H3 H4] Hn Hx. unfold claim_row, instanceStep. rewrite H1, H2, H3. cbn [mbind option_bind].
  rewrite date_parse_iso by done.
  replace (ostr_eqb (instance c) X) with false by (destruct (ostr_eqb _ _) eqn:E; [by apply ostr_eqb_eq in E|done]).
  cbn [negb]. destruct (now - o <? TOUCH_MINUTES * MIN) eqn:E; cbn [negb].
  - left. breflect. done.
  - right. cbn [step st_set other_recorded fold_left]. by constructor.
Qed.

Lemma named_claims row c now X o :
  in_conflict row X o -> instance c = X -> now - o < (CONFLICT_WINDOW_MIN + TOUCH_MINUTES) * MIN -> claim_row row c now = row.
Proof.
  intros [H1 H2 H3 H4] Hx Hlt. unfold claim_row, instanceStep. rewrite H1, H2, H3, Hx. cbn [mbind option_bind].
  rewrite date_parse_iso by done. replace (ostr_eqb X X) with true by (symmetry; by apply ostr_eqb_eq).
  apply Z.ltb_lt in Hlt. rewrite Hlt. done.
Qed.

Lemma conflict_kept A B row la lb o es :
  A <> B -> in_conflict row A o -> lb < o + TOUCH_MINUTES * MIN -> both_claim A B la lb es ->
  truthyo (o_conflict_at (run_claims row es)) = true.
Proof.
  revert A B row la lb o. induction es as [|[c now] es IH]; intros A B row la lb o Hne Hc Hlb Hes; [apply Hc|].
  cbn [run_claims fold_left fst snd]. destruct Hes as (Hr & Ha & Hb & [[Hi Hes]|[Hi Hes]]).
  - rewrite (named_claims row c now A o Hc Hi).
    2:{ unfold CONFLICT_WINDOW_MIN, TOUCH_MINUTES, MIN in *. lia. }
    eapply (IH A B row now lb o); eauto.
  - destruct (other_claims row c now A o Hc Hr) as [(Hlt & ->)|Hc']; [congruence| |].
    + eapply (IH A B row la now o); eauto; unfold TOUCH_MINUTES, MIN in *; lia.
    + rewrite Hi in Hc'. apply (IH B A (claim_row row c now) now la now); try done; [|by apply both_claim_swap].
      unfold TOUCH_MINUTES, MIN. lia.
Qed.

(** The process before this one, back within ten minutes: the conflict begins. *)
Lemma conflict_begins row c now :
  truthyo (o_conflict_at row) = false -> instance c <> o_instance row -> comes_back row c now = true -> in_range now ->
  in_conflict (claim_row row c now) (instance c) now.
Proof.
  intros H1 H2 H3 H4. unfold claim_row, instanceStep, alone. rewrite H1, H3.
  replace (ostr_eqb (instance c) (o_instance row)) with false by (destruct (ostr_eqb _ _) eqn:E; [by apply ostr_eqb_eq in E|done]).
  cbn [step st_set other_recorded fold_left app]. by constructor.
Qed.

(** once a process comes back beside the one that took its place, the
    pool holds the worker's orders for as long as the two processes each claim
    at least every ten minutes, in whatever order, whatever else they say. *)
Theorem conflict_holds_while_two_claim row c now lb es :
  truthyo (o_conflict_at row) = false -> instance c <> o_instance row -> comes_back row c now = true -> in_range now ->
  lb <= now -> both_claim (instance c) (o_instance row) now lb es ->
  truthyo (o_conflict_at (run_claims row ((c, now) :: es))) = true.
Proof.
  intros H1 H2 H3 H4 Hlb Hes. cbn [run_claims fold_left fst snd].
  apply (conflict_kept (instance c) (o_instance row) _ now lb now); [done|by apply conflict_begins| |done].
  unfold TOUCH_MINUTES, MIN. lia.
Qed.

(** The kept fields of a process that goes on. *)
Lemma alone_same row c set journal now :
  instance c = o_instance row -> set = [] \/ set = [W_conflict None; W_other None] ->
  truthyo (o_conflict_at row) = false \/ set <> [] ->
  let row' := fold_left (fun r w => write w r) (st_set (alone row c set journal now)) row in
  truthyo (o_conflict_at row') = false /\ o_instance row' = o_instance row.
Proof.
  intros Hi Hset Hoff. unfold alone. rewrite Hi. replace (ostr_eqb _ _) with true by (symmetry; by apply ostr_eqb_eq).
  unfold same_process. destruct Hset as [-> | ->]; destruct (_ && _); destruct (kinds_eqb _ _);
    cbn [step st_set app fold_left]; (split; [|done]); first [done | by destruct Hoff].
Qed.

(** and it ends: a process that has claimed three minutes past the last
    record of the other, and again thirteen minutes later with none other's
    claim between, is one process again; its orders are delivered. *)
Theorem conflict_ends_for_one_process row X o c1 t1 c2 t2 :
  in_conflict row X o -> in_range t1 -> in_range t2 -> instance c1 = instance c2 ->
  o + TOUCH_MINUTES * MIN <= t1 -> t1 + (CONFLICT_WINDOW_MIN + TOUCH_MINUTES) * MIN <= t2 ->
  truthyo (o_conflict_at (run_claims row [(c1, t1); (c2, t2)])) = false.
Proof.
  intros Hc Hr1 Hr2 Hi Ht1 Ht2. cbn [run_claims fold_left fst snd].
  assert (Hend : forall r Y o' c t, in_conflict r Y o' -> instance c = Y -> (CONFLICT_WINDOW_MIN + TOUCH_MINUTES) * MIN <= t - o' ->
      truthyo (o_conflict_at (claim_row r c t)) = false /\ o_instance (claim_row r c t) = Y).
  { intros r Y o' c t [H1 <- H3 H4] HY Hlt. unfold claim_row, instanceStep. rewrite H1, H3, HY. cbn [mbind option_bind].
    rewrite date_parse_iso by done. replace (ostr_eqb _ _) with true by (symmetry; by apply ostr_eqb_eq).
    cbn [negb]. apply Z.ltb_ge in Hlt. rewrite Hlt. apply alone_same; auto. }
  destruct (decide (instance c1 = X)) as [Hx|Hx].
  - destruct (Z.lt_ge_cases (t1 - o) ((CONFLICT_WINDOW_MIN + TOUCH_MINUTES) * MIN)) as [Hlt|Hge].
    + rewrite (named_claims row c1 t1 X o Hc Hx Hlt). eapply Hend; [exact Hc|congruence|].
      unfold TOUCH_MINUTES, MIN in *. lia.
    + destruct (Hend row X o c1 t1 Hc Hx Hge) as [Hoff Hin]. unfold claim_row at 1, instanceStep. rewrite Hoff.
      apply alone_same; [congruence|by left|by left].
  - destruct (other_claims row c1 t1 X o Hc Hr1 Hx) as [(Hlt & _)|Hc']; [unfold TOUCH_MINUTES, MIN in *; lia|].
    eapply Hend; [exact Hc'|congruence|lia].
Qed.

Definition back_row : OrdersRow :=
  {| o_id := "w1"; o_owner := Some "ana"; o_trust := "community"; o_version := Some "v1.2.3"; o_agent_checked_at := None;
     o_last_task := None; o_open_orders := None; o_order_kinds := None; o_instance := Some "b"; o_instance_prev := Some "a";
     o_instance_since := Some (iso t0); o_conflict_at := None; o_other_at := None; o_churn := None; o_finished := None;
     o_crash_loop := None; o_watchdog := None; o_started_at := None; o_agent_via := None; o_site := None;
     o_restarts_left := None; o_rollout := None; o_probed_at := None; o_drained_at := None; o_auto := None |}.
Definition min_at (m : Z) : Z := t0 + m * MIN.

Lemma conflict_holds_while_two_claim_witness :
  truthyo (o_conflict_at (run_claims back_row
    [(claim_from (Some "a"), min_at 5); (claim_from (Some "b"), min_at 10); (claim_from (Some "a"), min_at 14);
     (claim_from (Some "b"), min_at 19)])) = true.
Proof.
  apply (conflict_holds_while_two_claim back_row (claim_from (Some "a")) (min_at 5) (min_at 4)
    [(claim_from (Some "b"), min_at 10); (claim_from (Some "a"), min_at 14); (claim_from (Some "b"), min_at 19)]).
  - reflexivity.
  - discriminate.
  - vm_compute. reflexivity.
  - split; vm_compute; congruence.
  - vm_compute. congruence.
  - cbn [both_claim]; unfold in_range. split_and!; try (vm_compute; congruence). right. split; [reflexivity|].
    unfold in_range; split_and!; try (vm_compute; congruence). left. split; [reflexivity|].
    unfold in_range; split_and!; try (vm_compute; congruence). right. by split.
Defined.

Lemma conflict_ends_for_one_process_witness :
  truthyo (o_conflict_at (claim_row back_row (claim_from (Some "a")) (min_at 5))) = true
  /\ truthyo (o_conflict_at (run_claims (claim_row back_row (claim_from (Some "a")) (min_at 5))
       [(claim_from (Some "b"), min_at 9); (claim_from (Some "b"), min_at 22)])) = false.
Proof.
  split; [vm_compute; reflexivity|].
  apply (conflict_ends_for_one_process _ (Some "a") (min_at 5)); try (vm_compute; first [reflexivity|congruence|split; congruence]).
  split; vm_compute; first [reflexivity|congruence|split; congruence].
Defined.

(** ** What the row keeps of a set's report *)

Lemma parseUpdater_image u r i : parseUpdater u = Some r -> up_image r = Some i -> image_name i = true.
Proof.
  unfold parseUpdater. destruct (negb _); [done|]. destruct (as_bool _); [|done]. cbn [mbind option_bind]. intros [=<-].
  cbn [up_image]. destruct (as_str _) as [i'|]; [|done]. destruct (image_name i') eqn:E; congruence.
Qed.

Lemma parseRollout_updater v u script :
  parseRollout v = Some (Reports (Some u) script) -> exists j, parseUpdater j = Some u.
Proof.
  unfold parseRollout. destruct (negb _); [done|]. destruct (ostr_eqb _ _); [done|]. destruct (ostr_eqb _ _); [done|].
  destruct (host_script _); [|done]. cbn [mbind option_bind]. destruct (field v "updater") as [j|]; [|done].
  intros H. exists j. destruct j; try done; destruct (parseUpdater _) eqn:E; try done; by injection H as -> _.
Qed.

(** a set's report survives the row: what the pool writes of a checked
    report reads back as the same report. *)
Theorem rollout_round_trip v r :
  parseRollout v = Some r -> parseRollout (Some (rolloutJson r)) = Some r.
Proof.
  intros H. destruct r as [[u|] script|[]]; [|by destruct script|reflexivity|reflexivity].
  apply parseRollout_updater in H as (j & Hj). pose proof (fun i => parseUpdater_image j u i Hj) as Hi.
  destruct u as [[i|] fol]; destruct script; cbn; rewrite ?(Hi i eq_refl); done.
Qed.

Lemma rollout_round_trip_witness :
  let r := Reports (Some {| up_image := Some "v1.2.3"; up_follows := true |}) kick_v1 in
  parseRollout (Some (rolloutJson r)) = Some r.
Proof.
  apply (rollout_round_trip (Some (JObj [("host_script", JStr "kick-v1"); ("extra", JNull);
    ("updater", JObj [("follows", JBool true); ("image", JStr "v1.2.3")])]))). reflexivity.
Defined.
