(* ===== verification/OrderDoor.v ===== *)
(** * Orders: the table and every statement that moves one
    (worker/src/orders.ts, worker/src/routes/orders.ts)

    A row of [worker_orders] with the unique indexes over it, the worker's own
    columns, the journal's lines, and each batch as one function of the
    database: the issue under every cap, the claim's closes and deliveries, the
    worker's answer, a Cancel, the sweep and a revoke. D1 runs a batch in one
    transaction and one at a time, so a sequence of batches with whatever
    arguments their handlers read before is an interleaving of requests. Times
    are milliseconds: a time column compares as its text does
    ([JsTime.iso_order]). *)
From S2P Require Import Prelude JsTime Json Manifest Update Selection Tasks OrderRules.
Local Open Scope string_scope.
Local Open Scope Z_scope.

(** ** The rows *)

Inductive OState := Spending | Sdelivered | Sdone | Srefused | Sfailed | Sexpired | Scancelled.
#[export] Instance OState_eq_dec : EqDecision OState.
Proof. solve_decision. Defined.
Definition is_open (s : OState) : bool := match s with Spending | Sdelivered => true | _ => false end.
Definition is_pending (s : OState) : bool := match s with Spending => true | _ => false end.
Definition is_delivered (s : OState) : bool := match s with Sdelivered => true | _ => false end.

Inductive Answerer := by_worker | by_pool.
#[export] Instance Answerer_eq_dec : EqDecision Answerer.
Proof. solve_decision. Defined.

(** What an order is from its issue on: no statement changes it. *)
Record Issue := {
  w_id : string; w_worker : string; w_kind : string; w_reason : string; w_by : string; w_via : option string;
  w_rule : option string; w_unless : bool; w_task : option Z; w_site : option string; w_issued : Z; w_expires : Z;
  w_base_issue : option string }.

(** A row of [worker_orders]. *)
Record WOrder := {
  iss : Issue; w_state : OState; w_delivered_at : option Z; w_to : option string; w_base : option string;
  w_accepted : option Z; w_answered_at : option Z; w_answered_by : option Answerer; w_code : option string;
  w_detail : option string }.

(** What an open order is in its worker's [open_orders]. *)
Record OpenEntry := { e_id : string; e_kind : string; e_state : OState; e_by : string; e_at : Z; e_task : option Z }.

(** The columns of [build_workers] the orders write; [NULL] open orders are the empty list. *)
Record WRow := {
  r_host : bool; r_drained_at : option Z; r_drained_by : option string; r_drain_reason : option string;
  r_auto : option string; r_open : list OpenEntry; r_spell : option string }.

(** A journal line of an order: at its issue (no state), or its final one. *)
Record Line := { ln_order : string; ln_state : option OState; ln_status : string; ln_at : Z }.

Record ODB := { ords : list WOrder; wrows : gmap string WRow; tdb : Tasks.DB; journal : list Line }.

Definition set_ords (l : list WOrder) (db : ODB) : ODB :=
  {| ords := l; wrows := wrows db; tdb := tdb db; journal := journal db |}.
Definition set_row (w : string) (f : WRow -> WRow) (db : ODB) : ODB :=
  {| ords := ords db; wrows := alter f w (wrows db); tdb := tdb db; journal := journal db |}.
Definition set_tasks (t : Tasks.DB) (db : ODB) : ODB :=
  {| ords := ords db; wrows := wrows db; tdb := t; journal := journal db |}.
Definition say (ls : list Line) (db : ODB) : ODB :=
  {| ords := ords db; wrows := wrows db; tdb := tdb db; journal := (journal db ++ ls)%list |}.

Definition o_key (o : WOrder) : string := w_id (iss o).
(** [UPDATE worker_orders SET … WHERE id = ? AND p] *)
Definition upd (id : string) (p : WOrder -> bool) (f : WOrder -> WOrder) (l : list WOrder) : list WOrder :=
  map (fun o => if String.eqb (o_key o) id && p o then f o else o) l.
(** [EXISTS (SELECT 1 FROM worker_orders WHERE id = ? AND p)] *)
Definition has (id : string) (p : WOrder -> bool) (l : list WOrder) : bool :=
  existsb (fun o => String.eqb (o_key o) id && p o) l.
Definition any (o : WOrder) : bool := true.

(** An order closed by the pool: its state, when, the pool's words. *)
Definition closed_by_pool (s : OState) (at_ : Z) (detail : string) (o : WOrder) : WOrder :=
  {| iss := iss o; w_state := s; w_delivered_at := w_delivered_at o; w_to := w_to o; w_base := w_base o;
     w_accepted := w_accepted o; w_answered_at := Some at_; w_answered_by := Some by_pool; w_code := w_code o;
     w_detail := Some detail |}.

(** ** The worker's open list (REFRESH_OPEN_SQL): recomputed from the table *)

Definition open_of (w : string) (o : WOrder) : bool := String.eqb (w_worker (iss o)) w && is_open (w_state o).
Definition entry (o : WOrder) : OpenEntry :=
  {| e_id := w_id (iss o); e_kind := w_kind (iss o); e_state := w_state o; e_by := w_by (iss o); e_at := w_issued (iss o);
     e_task := w_task (iss o) |}.
Definition kind_cmp (a b : WOrder) : Z := text_cmp (w_kind (iss a)) (w_kind (iss b)).
Definition open_list (w : string) (l : list WOrder) : list OpenEntry :=
  map entry (sort_by kind_cmp (List.filter (open_of w) l)).
Definition with_open (l : list OpenEntry) (r : WRow) : WRow :=
  {| r_host := r_host r; r_drained_at := r_drained_at r; r_drained_by := r_drained_by r; r_drain_reason := r_drain_reason r;
     r_auto := r_auto r; r_open := l; r_spell := r_spell r |}.
Definition refreshOpen (w : string) (db : ODB) : ODB := set_row w (with_open (open_list w (ords db))) db.

(** ** The caps' counts *)

Definition count (p : WOrder -> bool) (db : ODB) : Z := zlen (List.filter p (ords db)).
(** [issued_at > since] *)
Definition after_ (since : Z) (o : WOrder) : bool := since <? w_issued (iss o).
(** COUNT_WORKER_SQL *)
Definition in_group (w : string) (group : list string) (o : WOrder) : bool :=
  String.eqb (w_worker (iss o)) w && str_in (w_kind (iss o)) group.
(** COUNT_ISSUER_SQL, COUNT_LOGIN_STOPS_SQL *)
Definition issued_by (who : string) (o : WOrder) : bool := String.eqb (w_by (iss o)) who.
Definition counted_for (who : string) (o : WOrder) : bool :=
  String.eqb (w_by (iss o)) who && negb (String.eqb (w_kind (iss o)) "resume").
Definition stop_of (who : string) (o : WOrder) : bool :=
  String.eqb (w_by (iss o)) who && String.eqb (w_kind (iss o)) "stop-task".
(** POOL_ORDERS_SQL, POOL_RESTARTS_SQL, COMMUNITY_RESTARTS_SQL *)
Definition pools (o : WOrder) : bool := isPool (w_by (iss o)).
Definition pool_restart (o : WOrder) : bool := isPool (w_by (iss o)) && str_in (w_kind (iss o)) POOL_RESTARTS.
Definition community_restart (o : WOrder) : bool :=
  String.eqb (w_by (iss o)) POOL_COMMUNITY && str_in (w_kind (iss o)) POOL_RESTARTS.
Definition community_order (o : WOrder) : bool := String.eqb (w_by (iss o)) POOL_COMMUNITY.

Definition count_since (p : WOrder -> bool) (since : Z) (db : ODB) : Z := count (fun o => p o && after_ since o) db.

(** ** The issue *)

Record IssueAsk := {
  a_id : string; a_worker : string; a_kind : string; a_reason : string; a_by : string; a_via : option string;
  a_rule : option string; a_unless : bool; a_site : option string; a_baseline : option string;
  a_auto : option (option string * string); a_deliver : option (string * option string);
  a_task : option Z; a_host : bool; a_resumed : option (string * string); a_now : Z; a_status : string }.

Definition ttl (a : IssueAsk) : Z :=
  if String.eqb (a_kind a) "update" then TTL_UPDATE_MIN else if isPool (a_by a) then TTL_POOL_MIN else TTL_PERSON_MIN.
Definition hostStop (a : IssueAsk) : bool := a_host a && String.eqb (a_kind a) "stop-task".
Definition group_of (a : IssueAsk) : list string :=
  if hostStop a then []
  else if str_in (a_kind a) RESTART_GROUP then (if a_host a then HOST_RESTART_GROUP else RESTART_GROUP)
  else [a_kind a].
Definition cap_of (a : IssueAsk) : Z :=
  if String.eqb (a_kind a) "recheck-agent" then MAX_RECHECKS_PER_HOUR else MAX_RESTARTS_PER_HOUR.
(** The task a stop names; 0 counts as none, as the code's [task ?] does. *)
Definition task_of (a : IssueAsk) : option Z := if String.eqb (a_kind a) "stop-task" then a_task a else None.

(** The row the INSERT writes. *)
Definition new_order (a : IssueAsk) : WOrder :=
  {| iss := {| w_id := a_id a; w_worker := a_worker a; w_kind := a_kind a; w_reason := a_reason a; w_by := a_by a;
               w_via := a_via a; w_rule := a_rule a; w_unless := a_unless a; w_task := task_of a; w_site := a_site a;
               w_issued := a_now a; w_expires := a_now a + ttl a * MIN; w_base_issue := a_baseline a |};
     w_state := match a_deliver a with Some _ => Sdelivered | None => Spending end;
     w_delivered_at := match a_deliver a with Some _ => Some (a_now a) | None => None end;
     w_to := match a_deliver a with Some d => Some d.1 | None => None end;
     w_base := match a_deliver a with Some d => d.2 | None => None end;
     w_accepted := None; w_answered_at := None; w_answered_by := None; w_code := None; w_detail := None |}.

(** A scalar subquery on the worker's row: NULL without one. *)
Definition row_get {X} (f : WRow -> option X) (w : string) (db : ODB) : option X := r ← wrows db !! w; f r.
Definition row_is_host (w : string) (db : ODB) : bool :=
  match wrows db !! w with Some r => r_host r | None => false end.
(** The stop's task: leased to the worker and not fenced. *)
Definition stoppable (task : option Z) (w : string) (db : ODB) : bool :=
  match (id ← task; tasks (tdb db) !! id) with
  | Some t => leased_to w t && match stop_order (lease t) with None => true | Some _ => false end
  | None => false
  end.

(** The WHERE of ISSUE_SQL, conjunct by conjunct. *)
Definition worker_cap (a : IssueAsk) (db : ODB) : bool :=
  String.eqb (a_kind a) "resume"
  || (count_since (in_group (a_worker a) (group_of a)) (a_now a - HOUR) db <? cap_of a).
Definition login_cap (a : IssueAsk) (db : ODB) : bool :=
  isPool (a_by a) || String.eqb (a_kind a) "resume"
  || (if String.eqb (a_kind a) "stop-task" && row_is_host (a_worker a) db
      then count_since (stop_of (a_by a)) (a_now a - HOUR) db <? MAX_STOPS_PER_LOGIN_HOUR
      else count_since (counted_for (a_by a)) (a_now a - HOUR) db <? MAX_ORDERS_PER_LOGIN_HOUR).
Definition pool_caps (a : IssueAsk) (db : ODB) : bool :=
  (negb (isPool (a_by a)) || negb (str_in (a_kind a) POOL_RESTARTS)
   || (count_since pool_restart (a_now a - HOUR) db <? MAX_POOL_RESTARTS_PER_HOUR))
  && (negb (String.eqb (a_by a) POOL_COMMUNITY) || negb (str_in (a_kind a) POOL_RESTARTS)
   || (count_since community_restart (a_now a - HOUR) db <? MAX_POOL_COMMUNITY_RESTARTS_PER_HOUR))
  && (negb (isPool (a_by a)) || (count_since pools (a_now a - DAY) db <? MAX_POOL_ORDERS_PER_DAY))
  && (negb (String.eqb (a_by a) POOL_COMMUNITY)
      || (count_since community_order (a_now a - DAY) db <? MAX_POOL_COMMUNITY_ORDERS_PER_DAY)).
Definition state_ok (a : IssueAsk) (db : ODB) : bool :=
  (match a_rule a with
   | None => true
   | Some _ => ostr_eqb (row_get r_auto (a_worker a) db) (match a_auto a with Some p => p.1 | None => None end)
   end)
  && (negb (String.eqb (a_kind a) "drain") || match row_get r_drained_at (a_worker a) db with None => true | Some _ => false end)
  && (negb (String.eqb (a_kind a) "resume") || match row_get r_drained_at (a_worker a) db with None => false | Some _ => true end)
  && (negb (String.eqb (a_kind a) "stop-task") || stoppable (task_of a) (a_worker a) db).
Definition issue_ok (a : IssueAsk) (db : ODB) : bool :=
  worker_cap a db && login_cap a db && pool_caps a db && state_ok a db.

(** The unique indexes over the open orders: one per worker, kind and task; one restart-agent per site. *)
Definition same_open (n o : WOrder) : bool :=
  is_open (w_state n) && is_open (w_state o) && String.eqb (w_worker (iss n)) (w_worker (iss o))
  && String.eqb (w_kind (iss n)) (w_kind (iss o)) && (default 0 (w_task (iss n)) =? default 0 (w_task (iss o))).
Definition same_site (n o : WOrder) : bool :=
  is_open (w_state n) && is_open (w_state o)
  && String.eqb (w_kind (iss n)) "restart-agent" && String.eqb (w_kind (iss o)) "restart-agent"
  && match w_site (iss n), w_site (iss o) with Some s, Some t => String.eqb s t | _, _ => false end.

Inductive IssueResult := Issued_ok | Refused_cap | Refused_open | Refused_site.

(** *** The batch's other statements, each only when the INSERT went in *)

Definition drained (at_ : Z) (by_ reason : string) (r : WRow) : WRow :=
  {| r_host := r_host r; r_drained_at := Some at_; r_drained_by := Some by_; r_drain_reason := Some reason;
     r_auto := r_auto r; r_open := r_open r; r_spell := r_spell r |}.
Definition undrained (r : WRow) : WRow :=
  {| r_host := r_host r; r_drained_at := None; r_drained_by := None; r_drain_reason := None;
     r_auto := r_auto r; r_open := r_open r; r_spell := r_spell r |}.
Definition with_auto_text (v : option string) (r : WRow) : WRow :=
  {| r_host := r_host r; r_drained_at := r_drained_at r; r_drained_by := r_drained_by r; r_drain_reason := r_drain_reason r;
     r_auto := v; r_open := r_open r; r_spell := r_spell r |}.

Definition exists_ (a : IssueAsk) (db : ODB) : bool := has (a_id a) any (ords db).
Definition when (b : bool) (f : ODB -> ODB) (db : ODB) : ODB := if b then f db else db.

Definition auto_stmt (a : IssueAsk) (db : ODB) : ODB :=
  match a_auto a with
  | Some (prev, next) =>
      when (exists_ a db)
        (set_row (a_worker a) (fun r => if ostr_eqb (r_auto r) prev then with_auto_text (Some next) r else r)) db
  | None => db
  end.
Definition drain_stmt (a : IssueAsk) (db : ODB) : ODB :=
  when (String.eqb (a_kind a) "drain" && exists_ a db)
    (set_row (a_worker a) (fun r => match r_drained_at r with
                                    | None => drained (a_now a) (a_by a) (a_reason a) r
                                    | Some _ => r
                                    end)) db.
Definition fence_stmt (a : IssueAsk) (db : ODB) : ODB :=
  match task_of a with
  | Some id => when (negb (id =? 0) && exists_ a db) (set_tasks (attempt (fence id (a_worker a) (a_id a)) (tdb db))) db
  | None => db
  end.

(** RESUME_DRAIN_LINE_SQL and RESUME_DRAIN_CLOSE_SQL: the drain the resume ends, while it still waits. *)
Definition waiting_drain (w : string) (o : WOrder) : bool :=
  String.eqb (w_worker (iss o)) w && String.eqb (w_kind (iss o)) "drain" && is_pending (w_state o).
Definition final_line (o : WOrder) (s : OState) (at_ : Z) (status : string) : Line :=
  {| ln_order := o_key o; ln_state := Some s; ln_status := status; ln_at := at_ |}.
Definition resume_stmts (a : IssueAsk) (db : ODB) : ODB :=
  match a_resumed a with
  | Some (detail, drain_detail) =>
      if String.eqb (a_kind a) "resume" then
        let db := when (exists_ a db)
          (say (map (fun o => final_line o Sdone (a_now a) "ok") (List.filter (waiting_drain (a_worker a)) (ords db)))) db in
        let db := when (exists_ a db)
          (set_ords (map (fun o => if waiting_drain (a_worker a) o then closed_by_pool Sdone (a_now a) drain_detail o else o)
                       (ords db))) db in
        let db := when (exists_ a db)
          (set_row (a_worker a) (fun r => match r_drained_at r with Some _ => undrained r | None => r end)) db in
        set_ords (upd (a_id a) (fun o => is_pending (w_state o)) (closed_by_pool Sdone (a_now a) detail) (ords db)) db
      else db
  | None => db
  end.
Definition issue_line (a : IssueAsk) (db : ODB) : ODB :=
  when (exists_ a db) (say [{| ln_order := a_id a; ln_state := None; ln_status := a_status a; ln_at := a_now a |}]) db.
Definition resume_line (a : IssueAsk) (db : ODB) : ODB :=
  match a_resumed a with
  | Some _ =>
      when (String.eqb (a_kind a) "resume"
            && has (a_id a) (fun o => bool_decide (w_state o = Sdone) && oz_eqb (w_answered_at o) (Some (a_now a))) (ords db))
        (say [{| ln_order := a_id a; ln_state := Some Sdone; ln_status := "ok"; ln_at := a_now a |}]) db
  | None => db
  end.

Definition issue_batch (a : IssueAsk) (db : ODB) : ODB :=
  resume_line a (issue_line a (refreshOpen (a_worker a) (resume_stmts a (fence_stmt a (drain_stmt a (auto_stmt a db)))))).

(** One order, issued atomically with its line; [None] is the batch that throws (the id taken already), rolled back whole.
    When both indexes refuse, the open kind's is named. *)
Definition issueOrder (a : IssueAsk) (db : ODB) : option (ODB * IssueResult) :=
  if negb (issue_ok a db) then Some (issue_batch a db, Refused_cap)
  else
    let n := new_order a in
    if has (a_id a) any (ords db) then None
    else if existsb (same_open n) (ords db) then Some (db, Refused_open)
    else if existsb (same_site n) (ords db) then Some (db, Refused_site)
    else Some (issue_batch a (set_ords (ords db ++ [n])%list db), Issued_ok).

(** ** Delivery at the claim (takeOrders) *)

(** The claim, after its own words: what staleness and observation compare with. *)
Record AfterClaim := {
  c_worker : string; c_claim : ClaimFacts; c_instance : option string; c_instance_since : option string;
  c_conflict : bool; c_status : option string; c_checked_at : option string; c_listed : option (list Listed) }.

(** Whether a claim's version is the pool's release. *)
Definition runsRelease (v : option string) (pool : RunningVersion) (now : Z) : bool :=
  (truthyo v && ostr_eqb v (Some (version pool)))
  || (match parseTag v, parseTag (Some (version pool)) with
      | Some _, Some _ => negb (outdated (updateState v pool now None None RELEASE_POLICY))
      | _, _ => false
      end).

Definition UPDATE_EXPIRED : string :=
  "not replaced within " +:+ zstr (TTL_UPDATE_MIN / 60)
  +:+ " h: no updater beside it took the order (one from before #277 takes none; it replaces its set at its own 15-min round)".

Definition DELIVERY_ORDER (kind : string) : Z :=
  if String.eqb kind "drain" then 0 else if String.eqb kind "recheck-agent" then 1
  else if String.eqb kind "restart-agent" then 2 else if String.eqb kind "restart" then 3 else 9.

Definition refusedFor (kind : string) (via : option string) : string :=
  if String.eqb kind "recheck-agent" then "it runs no agent to re-check"
  else if String.eqb kind "restart" then "its container has no restart policy it can count on: a restart would stop it for good"
  else if String.eqb kind "restart-agent" then
    "it calls no agent service of its own host (its agent is "
    +:+ (if ostr_eqb via (Some "broker") then "its broker's" else "the provider's, direct") +:+ ")"
  else "its process does not take this order".

(** A stop whose task is no longer fenced by it, in the pool's words. *)
Definition stopEnded (t : option (Z * Status)) (issuedAt : Z) : OState * string :=
  match t with
  | Some (id, cancelled) => (Sdone, "task #" +:+ zstr id +:+ " was cancelled meanwhile: nothing left to stop")
  | _ =>
      let then_ := match t with
                   | None => ""
                   | Some (id, failed) => ". Task #" +:+ zstr id +:+ " failed then: that was its last attempt"
                   | Some (id, (done_ | staged)) => ". Task #" +:+ zstr id +:+ " went back to the queue then, and has run to its end since"
                   | Some (id, _) => ". Task #" +:+ zstr id +:+ " went back to the queue then"
                   end in
      (Sfailed, "no claim before its lease ended at " +:+ utc (issuedAt + LEASE_MINUTES * MIN)
        +:+ ": its image may not stop on the heartbeat's answer (before #277), or the process is wedged (its watchdog restarts it)"
        +:+ then_)
  end.

(** What a claim does with one of its open orders. *)
Inductive Act := Close (s : OState) (detail : string) (notice : bool) | Deliver | Stop | Leave.

Definition or_no_status (s : option string) : string := default "no status" s.

(** An order this worker was handed: closed by what this claim shows. *)
Definition act_delivered (x : AfterClaim) (o : WOrder) (now : Z) : Act :=
  let kind := w_kind (iss o) in
  let mine := match c_instance x with Some i => ostr_eqb (Some i) (w_to o) | None => false end in
  let agent_kind := String.eqb kind "recheck-agent" || String.eqb kind "restart-agent" in
  let probed := negb (ostr_eqb (c_checked_at x) (w_base o)) in
  if c_conflict x then Leave
  else if String.eqb kind "restart" && truthyo (c_instance x) && negb mine then
    Close Sdone ("back as a new process (" +:+ zstr (round_div (now - w_issued (iss o)) 1000) +:+ " s after the order, on the pool's clock)") false
  else if agent_kind && truthyo (c_instance x) && negb mine then
    Close (if String.eqb kind "recheck-agent" then Sexpired else Sfailed) "its process ended before it answered" false
  else if mine && String.eqb kind "recheck-agent" && probed then
    Close Sdone ("re-checked: " +:+ or_no_status (c_status x)) false
  else if mine && String.eqb kind "restart-agent" && probed && ostr_eqb (c_status x) (Some "ok") then
    Close Sdone "its agent answers again" false
  else Leave.

(** A waiting order that a worker's process takes: refused, done already, or handed out. *)
Definition act_live (x : AfterClaim) (o : WOrder) : Act :=
  let i := iss o in
  let kind := w_kind i in
  let ok := ostr_eqb (c_status x) (Some "ok") in
  match takes_ (c_claim x) with
  | None => Close Srefused ("its image (" +:+ versionWord (version_ (c_claim x)) "its version"
                            +:+ ") takes no orders — its host's updater replaces it") false
  | Some takes =>
      if negb (str_in kind takes) then Close Srefused (refusedFor kind (agent_via_ (c_claim x))) false
      else if String.eqb kind "restart"
              && match c_instance_since x with Some s => truthy s && str_ltb (iso (w_issued i)) s | None => false end then
        Close Sdone ("restarted since the order (a new process at " +:+ clock_of (default "" (c_instance_since x)) +:+ ")") false
      else if String.eqb kind "recheck-agent" && negb (ostr_eqb (c_checked_at x) (w_base_issue i)) then
        Close Sdone ("probed since the order: " +:+ or_no_status (c_status x)) false
      else if ((String.eqb kind "restart" && w_unless i) || String.eqb kind "restart-agent") && ok then
        Close Sdone "its agent answers now; nothing to do" false
      else if negb (truthyo (c_instance x)) then Leave
      else Deliver
  end.

Definition act_pending (x : AfterClaim) (pool : RunningVersion) (o : WOrder) (now : Z) : Act :=
  let i := iss o in
  let kind := w_kind i in
  let late := w_expires i <=? now in
  if String.eqb kind "drain" then
    if late then Close Sdone "drained while it was not heard from: it is handed nothing until it is resumed" false
    else if c_conflict x then Leave
    else Close Sdone "drained: it heard, and is handed nothing until it is resumed"
           match takes_ (c_claim x) with Some _ => true | None => false end
  else if String.eqb kind "stop-task" then (if c_conflict x then Leave else Stop)
  else if late then
    Close Sexpired (if String.eqb kind "update" then UPDATE_EXPIRED else "not delivered in time: the worker did not claim") false
  else if String.eqb kind "update" then
    if negb (c_conflict x) && runsRelease (version_ (c_claim x)) pool now then
      Close Sdone ("now runs " +:+ versionWord (version_ (c_claim x)) (default "the pool's release" (version_ (c_claim x)))) false
    else Leave
  else if negb (str_in kind LIVE_KINDS) then Leave
  else if c_conflict x then Leave
  else act_live x o.

Definition act (x : AfterClaim) (pool : RunningVersion) (o : WOrder) (now : Z) : Act :=
  if is_delivered (w_state o) then act_delivered x o now else act_pending x pool o now.

(** *** The batch a claim writes *)

(** A statement of the batch, for an order as the claim read it: a close with its final line, the
    requeue of a fenced task with its order's close, or a stop whose fence ended. *)
Inductive Planned :=
| P_close (o : WOrder) (s : OState) (detail : string)
| P_requeue (o : WOrder) (task : Z) (error detail : string)
| P_ended (o : WOrder) (s : OState) (detail : string).

(** What a stop's order does at the claim, from its task as read then. *)
Definition plan_stop (x : AfterClaim) (o : WOrder) (task : option (Z * Task)) (now : Z) : option Planned :=
  let fenced := match task with
                | Some (_, t) => leased_to (c_worker x) t && ostr_eqb (stop_order (lease t)) (Some (o_key o))
                | None => false
                end in
  match task with
  | Some (id, t) =>
      if fenced then
        if match c_listed x with Some ls => lists ls id (default "null" (lease_gen (lease t))) | None => false end then None
        else
          let mins := Z.max 0 (round_div (now - w_issued (iss o)) MIN) in
          let last := max_attempts (what t) <=? attempts t in
          Some (P_requeue o id (stopError (c_worker x) (w_by (iss o)) (Some (w_reason (iss o))) false)
                  ("stopped: it claimed again " +:+ zstr mins +:+ " min after the order; task #" +:+ zstr id +:+ " "
                   +:+ (if last then "failed: that was its last attempt" else "is back in the queue")))
      else let e := stopEnded (Some (id, status t)) (w_issued (iss o)) in Some (P_ended o e.1 e.2)
  | None => let e := stopEnded None (w_issued (iss o)) in Some (P_ended o e.1 e.2)
  end.

(** The task a stop names, as the database has it. *)
Definition task_read (o : WOrder) (db : ODB) : option (Z * Task) :=
  id ← w_task (iss o); if id =? 0 then None else t ← tasks (tdb db) !! id; Some (id, t).

Definition closes_of (x : AfterClaim) (pool : RunningVersion) (rows : list WOrder) (now : Z) : list Planned :=
  omap (fun o => match act x pool o now with Close s d _ => Some (P_close o s d) | _ => None end) rows.
Definition stops_of (x : AfterClaim) (pool : RunningVersion) (rows : list WOrder) (now : Z) (db : ODB) : list Planned :=
  omap (fun o => match act x pool o now with Stop => plan_stop x o (task_read o db) now | _ => None end) rows.
Definition deliver_of (x : AfterClaim) (pool : RunningVersion) (rows : list WOrder) (now : Z) : list WOrder :=
  sort_by (fun a b => DELIVERY_ORDER (w_kind (iss a)) - DELIVERY_ORDER (w_kind (iss b)))
    (List.filter (fun o => match act x pool o now with Deliver => true | _ => false end) rows).
Definition notices_of (x : AfterClaim) (pool : RunningVersion) (rows : list WOrder) (now : Z) : list WOrder :=
  List.filter (fun o => match act x pool o now with Close _ _ n => n | _ => false end) rows.

(** OPEN_ORDERS_SQL *)
Definition open_rows (w : string) (db : ODB) : list WOrder :=
  sort_by kind_cmp (List.filter (open_of w) (ords db)).

Definition STATUS_OF_STATE (s : OState) : string :=
  match s with Sdone | Srefused | Scancelled => "ok" | Sexpired => "warn" | Sfailed => "error" | _ => "ok" end.
Definition ostate_in (s : OState) (o : WOrder) : bool := bool_decide (w_state o = s).

(** [WHERE id = ? AND state = ?] closed by the pool, then its final line: only when the row holds what this close wrote. *)
Definition close_stmt (o : WOrder) (from s : OState) (at_ : Z) (detail : string) (db : ODB) : ODB :=
  set_ords (upd (o_key o) (ostate_in from) (closed_by_pool s at_ detail) (ords db)) db.
Definition as_closed (s : OState) (at_ : Z) (detail : string) (o : WOrder) : bool :=
  ostate_in s o && oz_eqb (w_answered_at o) (Some at_) && bool_decide (w_answered_by o = Some by_pool)
  && ostr_eqb (w_detail o) (Some detail).
Definition finalLine (o : WOrder) (s : OState) (at_ : Z) (detail : string) (db : ODB) : ODB :=
  when (has (o_key o) (as_closed s at_ detail) (ords db)) (say [final_line o s at_ (STATUS_OF_STATE s)]) db.

(** The order of a requeue closes only by the requeue that happened. *)
Definition requeued_with (task : Z) (error_ : string) (db : ODB) : bool :=
  match tasks (tdb db) !! task with
  | Some t => match stop_order (lease t) with None => true | Some _ => false end && ostr_eqb (error t) (Some error_)
  | None => false
  end.

Definition run_planned (w : string) (now : Z) (db : ODB) (p : Planned) : ODB :=
  match p with
  | P_close o s d => finalLine o s now d (close_stmt o (w_state o) s now d db)
  | P_ended o s d => finalLine o s now d (close_stmt o Spending s now d db)
  | P_requeue o task err d =>
      let db := set_tasks (attempt (requeueStatement task w err (Some (o_key o)) now None) (tdb db)) db in
      let db := when (requeued_with task err db) (close_stmt o Spending Sdone now d) db in
      finalLine o Sdone now d db
  end.

Definition delivered_to (x : AfterClaim) (now : Z) (o : WOrder) : WOrder :=
  {| iss := iss o; w_state := Sdelivered; w_delivered_at := Some now; w_to := c_instance x;
     w_base := if String.eqb (w_kind (iss o)) "restart" then c_instance x else c_checked_at x;
     w_accepted := w_accepted o; w_answered_at := w_answered_at o; w_answered_by := w_answered_by o;
     w_code := w_code o; w_detail := w_detail o |}.
(** One statement per delivery; RETURNING says whether the row was still pending. *)
Definition deliver_stmt (x : AfterClaim) (now : Z) (st : ODB * list string) (o : WOrder) : ODB * list string :=
  let db := st.1 in
  (set_ords (upd (o_key o) (ostate_in Spending) (delivered_to x now) (ords db)) db,
   if has (o_key o) (ostate_in Spending) (ords db) then (st.2 ++ [o_key o])%list else st.2).

(** The batch, with what the claim planned from its earlier reads; the ids it handed out. *)
Definition take_batch (x : AfterClaim) (plan : list Planned) (deliver : list WOrder) (now : Z) (db : ODB) : ODB * list string :=
  let db := fold_left (run_planned (c_worker x) now) plan db in
  let st := fold_left (deliver_stmt x now) deliver (db, []) in
  (refreshOpen (c_worker x) st.1, st.2).

(** takeOrders: the rows and the stopped tasks as [read] has them, the batch on the database [db] has become. *)
Definition takeOrders (x : AfterClaim) (pool : RunningVersion) (now : Z) (read db : ODB) : ODB * list string :=
  match wrows read !! c_worker x with
  | Some r =>
      match r_open r with
      | [] => (db, [])
      | _ =>
          let rows := open_rows (c_worker x) read in
          let plan := (closes_of x pool rows now ++ stops_of x pool rows now read)%list in
          let deliver := deliver_of x pool rows now in
          match plan, deliver with [], [] => (db, []) | _, _ => take_batch x plan deliver now db end
      end
  | None => (db, [])
  end.

(** ** A person's Cancel (handleCancelOrder), after the door's verdict *)

Definition cancelRefusal (o : WOrder) : option string :=
  if negb (is_pending (w_state o)) then
    Some (if is_delivered (w_state o) then "delivered already: its worker has it, and answers it" else "closed already")
  else if String.eqb (w_kind (iss o)) "stop-task" then
    Some (match w_task (iss o) with
          | Some t => if t =? 0 then "its task" else "task #" +:+ zstr t
          | None => "its task"
          end +:+ " is being stopped already: it goes back to the queue once this worker has stopped it")
  else if String.eqb (w_kind (iss o)) "drain" then Some "a drain holds from its issue: Resume ends it"
  else None.
Definition cancelOrder (o : WOrder) (by_ : string) (now : Z) (db : ODB) : ODB :=
  match cancelRefusal o with
  | Some _ => db
  | None =>
      let db := close_stmt o Spending Scancelled now ("cancelled by " +:+ by_) db in
      let db := when (has (o_key o) (fun r => ostate_in Scancelled r && oz_eqb (w_answered_at r) (Some now)) (ords db))
                  (say [final_line o Scancelled now "ok"]) db in
      refreshOpen (w_worker (iss o)) db
  end.

(** ** The worker's answer (handleAnswerOrder) *)

Inductive Outcome := accepted | o_done | o_refused | o_failed.
#[export] Instance Outcome_eq_dec : EqDecision Outcome.
Proof. solve_decision. Defined.
Definition outcome_word (o : Outcome) : string :=
  match o with accepted => "accepted" | o_done => "done" | o_refused => "refused" | o_failed => "failed" end.

(** The closed codes of a worker's answer, per kind, with the outcome each belongs to and the pool's sentence. *)
Definition CODES (kind : string) : list (string * (Outcome * string)) :=
  if String.eqb kind "recheck-agent" then
    [("probed", (o_done, "re-checked its agent")); ("probe-failed", (o_failed, "its re-check did not run"))]
  else if String.eqb kind "restart" then
    [("exiting", (accepted, "exiting; its restart policy starts it again"));
     ("agent-ok", (o_refused, "its agent answers now: no restart needed"));
     ("too-young", (o_refused, "started under " +:+ zstr (MIN_UPTIME_S / 60) +:+ " min ago: a restart this soon would loop"));
     ("no-policy", (o_refused, "its container has no restart policy: a restart would stop it for good"));
     ("no-retries", (o_refused, "its restart policy has too few restarts left: a restart could stop it for good"))]
  else if String.eqb kind "restart-agent" then
    [("restarting", (accepted, "restarting its agent service"));
     ("restarted", (o_done, "restarted its agent service; it answers again"));
     ("not-answering", (o_failed, "restarted its agent service, which does not answer yet"));
     ("not-a-sibling", (o_refused, "it calls no agent service of its own host"));
     ("agent-ok", (o_refused, "its agent answers now: nothing to restart"));
     ("docker-error", (o_failed, "the container engine refused the restart"))]
  else [].
Definition code_of (kind code : string) : option (Outcome * string) :=
  snd <$> List.find (fun p => String.eqb (fst p) code) (CODES kind).

Definition answerCode (kind : string) (outcome : Outcome) (code : option json) : string :=
  match as_str code with
  | Some c =>
      if String.eqb c "unknown-kind" && bool_decide (outcome = o_refused) then "unknown-kind"
      else match code_of kind c with
           | Some (o, _) => if bool_decide (o = outcome) then c else "other"
           | None => "other"
           end
  | None => "other"
  end.

(** [seconds] in thousandths, as the body's number; [None] without a number. *)
Definition codeSentence (kind code : string) (outcome : Outcome) (vers service : option string) (millis : option Z) : string :=
  if String.eqb code "unknown-kind" then "does not know this order (" +:+ versionWord vers "its version" +:+ ")"
  else match code_of kind code with
  | None => if bool_decide (outcome = accepted) then "accepted" else "answered " +:+ outcome_word outcome
  | Some (_, said) =>
      if String.eqb kind "restart-agent" && (String.eqb code "restarted" || String.eqb code "not-answering") then
        let svc := match service with
                   | Some s => if str_in s ["agent-proxy"; "broker"] then s else "its agent service"
                   | None => "its agent service"
                   end in
        let secs := match millis with
                    | Some m => if (0 <=? m) && (m <=? 600000) then Some (zstr (round_div m 1000)) else None
                    | None => None
                    end in
        if String.eqb code "restarted" then
          "restarted " +:+ svc +:+ "; it answers again" +:+ match secs with Some s => " after " +:+ s +:+ " s" | None => "" end
        else "restarted " +:+ svc +:+ ", which does not answer yet"
             +:+ match secs with Some s => " (waited " +:+ s +:+ " s)" | None => "" end
      else said
  end.

Record Answer := {
  an_worker : string; an_instance : string; an_outcome : Outcome; an_code : option json; an_version : option string;
  an_service : option string; an_millis : option Z }.

(** The kinds the worker never answers. *)
Definition unanswered (kind : string) : bool := str_in kind ["drain"; "resume"; "update"; "stop-task"].
(** Why an answer is refused, from the order as the handler read it. *)
Definition answerRefusal (o : WOrder) (a : Answer) : option string :=
  if negb (String.eqb (w_worker (iss o)) (an_worker a)) then Some "no such order"
  else if unanswered (w_kind (iss o)) then Some ("a " +:+ w_kind (iss o) +:+ " is not answered by the worker")
  else if negb (is_delivered (w_state o)) then Some "the order is not waiting for an answer"
  else if negb (ostr_eqb (w_to o) (Some (an_instance a))) then Some "delivered to another process of this token"
  else if bool_decide (an_outcome a = accepted) && match w_accepted o with Some _ => true | None => false end then Some "accepted already"
  else None.

Definition answerable (a : Answer) (o : WOrder) : bool :=
  String.eqb (w_worker (iss o)) (an_worker a) && ostr_eqb (w_to o) (Some (an_instance a)) && is_delivered (w_state o).
Definition answered (s : OState) (at_ : Z) (code detail : string) (o : WOrder) : WOrder :=
  {| iss := iss o; w_state := s; w_delivered_at := w_delivered_at o; w_to := w_to o; w_base := w_base o;
     w_accepted := w_accepted o; w_answered_at := Some at_; w_answered_by := Some by_worker; w_code := Some code;
     w_detail := Some detail |}.
Definition acceptance (at_ : Z) (code detail : string) (o : WOrder) : WOrder :=
  {| iss := iss o; w_state := w_state o; w_delivered_at := w_delivered_at o; w_to := w_to o; w_base := w_base o;
     w_accepted := Some at_; w_answered_at := w_answered_at o; w_answered_by := w_answered_by o; w_code := Some code;
     w_detail := Some detail |}.
Definition state_of (o : Outcome) : OState :=
  match o with o_done => Sdone | o_refused => Srefused | o_failed => Sfailed | accepted => Sdelivered end.

Definition answerOrder (o : WOrder) (a : Answer) (now : Z) (db : ODB) : ODB :=
  match answerRefusal o a with
  | Some _ => db
  | None =>
      let code := answerCode (w_kind (iss o)) (an_outcome a) (an_code a) in
      let detail := codeSentence (w_kind (iss o)) code (an_outcome a) (an_version a) (an_service a) (an_millis a) in
      if bool_decide (an_outcome a = accepted) then
        set_ords (upd (o_key o) (fun r => answerable a r && match w_accepted r with None => true | Some _ => false end)
                    (acceptance now code detail) (ords db)) db
      else
        let s := state_of (an_outcome a) in
        let db := set_ords (upd (o_key o) (answerable a) (answered s now code detail) (ords db)) db in
        let db := when (has (o_key o) (fun r => ostate_in s r && oz_eqb (w_answered_at r) (Some now)
                                        && bool_decide (w_answered_by r = Some by_worker)) (ords db))
                    (say [final_line o s now (if bool_decide (an_outcome a = o_failed) then "error" else "ok")]) db in
        refreshOpen (an_worker a) db
  end.

(** ** The sweep's orders (sweepOrders) *)

(** DUE_ORDERS_SQL, stops apart *)
Definition due (now : Z) (o : WOrder) : bool :=
  is_open (w_state o)
  && ((is_pending (w_state o) && (w_expires (iss o) <=? now))
      || match w_delivered_at o with Some d => d <=? now - ANSWER_WITHIN_MIN * MIN | None => false end)
  && negb (String.eqb (w_kind (iss o)) "stop-task").
(** STOPS_DUE_SQL *)
Definition stop_due (db : ODB) (o : WOrder) : bool :=
  is_open (w_state o) && String.eqb (w_kind (iss o)) "stop-task"
  && negb match (id ← w_task (iss o); tasks (tdb db) !! id) with
          | Some t => leased_to (w_worker (iss o)) t && ostr_eqb (stop_order (lease t)) (Some (o_key o))
          | None => false
          end.

Definition due_close (o : WOrder) : OState * string :=
  let drain := String.eqb (w_kind (iss o)) "drain" && is_pending (w_state o) in
  (if drain then Sdone
   else if is_pending (w_state o) || String.eqb (w_kind (iss o)) "recheck-agent" then Sexpired else Sfailed,
   if drain then "drained while it was not heard from: it is handed nothing until it is resumed"
   else if is_pending (w_state o) then
     (if String.eqb (w_kind (iss o)) "update" then UPDATE_EXPIRED else "not delivered in time: the worker did not claim")
   else "no answer within " +:+ zstr ANSWER_WITHIN_MIN +:+ " min of delivery").
Definition stop_close (db : ODB) (o : WOrder) : OState * string :=
  stopEnded (id ← w_task (iss o); t ← tasks (tdb db) !! id; Some (id, status t)) (w_issued (iss o)).

(** A close of the sweep: the row as it read it, then its line, when the row holds this time and state. *)
Definition sweep_stmt (now : Z) (db : ODB) (c : WOrder * (OState * string)) : ODB :=
  let '(o, (s, detail)) := c in
  let db := close_stmt o (w_state o) s now detail db in
  when (has (o_key o) (fun r => oz_eqb (w_answered_at r) (Some now) && ostate_in s r) (ords db))
    (say [final_line o s now (STATUS_OF_STATE s)]) db.
Definition sweep_plan (now : Z) (read : ODB) : list (WOrder * (OState * string)) :=
  (map (fun o => (o, stop_close read o)) (List.filter (stop_due read) (ords read))
   ++ map (fun o => (o, due_close o)) (List.filter (due now) (ords read)))%list.
Definition sweep_batch (now : Z) (plan : list (WOrder * (OState * string))) (db : ODB) : ODB :=
  let db := fold_left (sweep_stmt now) plan db in
  fold_left (fun db w => refreshOpen w db) (dedup (map (fun c => w_worker (iss (fst c))) plan)) db.
Definition sweepOrders (now : Z) (read db : ODB) : ODB := sweep_batch now (sweep_plan now read) db.

(** ** Revoke (cancelOrdersOf): every open order of the workers named *)

Definition open_among (which : list string) (o : WOrder) : bool := str_in (w_worker (iss o)) which && is_open (w_state o).
Definition revoked_row (r : WRow) : WRow :=
  {| r_host := r_host r; r_drained_at := r_drained_at r; r_drained_by := r_drained_by r; r_drain_reason := r_drain_reason r;
     r_auto := r_auto r; r_open := []; r_spell := None |}.
Definition cancelOrdersOf (which : list string) (detail : string) (now : Z) (db : ODB) : ODB :=
  let db := say (map (fun o => final_line o Scancelled now "ok") (List.filter (open_among which) (ords db))) db in
  let db := set_ords (map (fun o => if open_among which o then closed_by_pool Scancelled now detail o else o) (ords db)) db in
  {| ords := ords db; wrows := map_imap (fun w r => Some (if str_in w which then revoked_row r else r)) (wrows db);
     tdb := tdb db; journal := journal db |}.

(** ** One batch after another *)

Inductive Op :=
| Op_issue (a : IssueAsk)
| Op_take (x : AfterClaim) (pool : RunningVersion) (now : Z) (read : ODB)
| Op_cancel (o : WOrder) (by_ : string) (now : Z)
| Op_answer (o : WOrder) (a : Answer) (now : Z)
| Op_sweep (now : Z) (read : ODB)
| Op_revoke (which : list string) (detail : string) (now : Z)
| Op_tasks (f : Tasks.DB -> Tasks.DB).

(** The database after a batch, and the ids it handed to a process. *)
Definition run_op (db : ODB) (p : Op) : ODB * list string :=
  match p with
  | Op_issue a =>
      match issueOrder a db with
      | Some (db', Issued_ok) => (db', match a_deliver a with Some _ => [a_id a] | None => [] end)
      | Some (db', _) => (db', [])
      | None => (db, [])
      end
  | Op_take x pool now read => takeOrders x pool now read db
  | Op_cancel o by_ now => (cancelOrder o by_ now db, [])
  | Op_answer o a now => (answerOrder o a now db, [])
  | Op_sweep now read => (sweepOrders now read db, [])
  | Op_revoke which detail now => (cancelOrdersOf which detail now db, [])
  | Op_tasks f => (set_tasks (f (tdb db)) db, [])
  end.
Definition run_ops (db : ODB) (ps : list Op) : ODB := fold_left (fun db p => fst (run_op db p)) ps db.
(** Every id handed out, in order. *)
Fixpoint handed (db : ODB) (ps : list Op) : list string :=
  match ps with [] => [] | p :: ps => (snd (run_op db p) ++ handed (fst (run_op db p)) ps)%list end.
