(* ===== verification/OrderDoorFacts.v ===== *)
(** * What the orders' table guarantees

    Over every interleaving of the batches of [OrderDoor], each with whatever
    it read at some earlier moment: the caps, one open order per kind, one
    hand-out and one final line per order, and the open list a claim reads. *)
From S2P Require Import Prelude JsTime Json Manifest Update Selection Tasks OrderRules OrderDoor.
Local Open Scope Z_scope.

(** ** How a row may move *)

Definition is_closed (s : OState) : bool := negb (is_open s).

(** The row keeps what it was issued as; a closed one never changes; a delivered one stays its process's. *)
Record moves (o o' : WOrder) : Prop := {
  mv_iss : iss o' = iss o;
  mv_closed : is_closed (w_state o) = true -> o' = o;
  mv_delivered : w_state o = Sdelivered -> w_state o' <> Spending /\ w_to o' = w_to o }.

#[export] Instance moves_refl : Reflexive moves.
Proof. intros o. split; try done. intros ->. done. Qed.
#[export] Instance moves_trans : Transitive moves.
Proof.
  intros a b c [I1 C1 D1] [I2 C2 D2]. split; [congruence| |].
  - intros H. rewrite (C1 H) in *. by apply C2.
  - intros H. destruct (D1 H) as [Hp Ht]. destruct (w_state b) eqn:E; try done.
    + destruct (D2 eq_refl). split; [done|congruence].
    + rewrite C2 by done. rewrite E. done.
    + rewrite C2 by done. rewrite E. done.
    + rewrite C2 by done. rewrite E. done.
    + rewrite C2 by done. rewrite E. done.
    + rewrite C2 by done. rewrite E. done.
Qed.

(** The rows move, and new ones may follow. *)
Definition grows (l l' : list WOrder) : Prop := exists l1 new, l' = (l1 ++ new)%list /\ Forall2 moves l l1.

#[export] Instance grows_refl : Reflexive grows.
Proof. intros l. exists l, []. rewrite app_nil_r. split; [done|]. apply Forall2_same_length_lookup_2; [done|]. intros. simplify_eq. reflexivity. Qed.
#[export] Instance grows_trans : Transitive grows.
Proof.
  intros a b c (l1 & n1 & -> & H1) (l2 & n2 & -> & H2).
  apply Forall2_app_inv_l in H2 as (m1 & m2 & H3 & H4 & ->).
  exists m1, (m2 ++ n2)%list. split; [by rewrite app_assoc|]. etransitivity; [exact H1|exact H3].
Qed.

Lemma grows_moved l l' : Forall2 moves l l' -> grows l l'.
Proof. intros H. exists l', []. by rewrite app_nil_r. Qed.
Lemma grows_snoc l o : grows l (l ++ [o]).
Proof. exists l, [o]. split; [done|]. apply Forall2_same_length_lookup_2; [done|]. intros. simplify_eq. reflexivity. Qed.

Lemma moved_map f l : (forall o, In o l -> moves o (f o)) -> Forall2 moves l (map f l).
Proof.
  induction l as [|o l IH]; intros H; [constructor|]. constructor; [apply H; by left|]. apply IH. intros. apply H. by right.
Qed.

Lemma upd_moves id p f l :
  (forall o, p o = true -> moves o (f o)) -> Forall2 moves l (upd id p f l).
Proof.
  intros H. apply moved_map. intros o _. destruct (_ && p o) eqn:E; [|reflexivity]. apply H. by breflect.
Qed.

Lemma closed_moves s at_ d o : is_open (w_state o) = true -> is_closed s = true -> moves o (closed_by_pool s at_ d o).
Proof.
  intros Ho Hs. split; [done| |].
  - unfold is_closed. by rewrite Ho.
  - intros _. split; [|done]. by destruct s.
Qed.

Lemma when_moves b f db : (b = true -> Forall2 moves (ords db) (ords (f db))) -> Forall2 moves (ords db) (ords (when b f db)).
Proof. unfold when. destruct b; intros H; [by apply H|reflexivity]. Qed.

Lemma close_stmt_moves o from s at_ d db :
  is_open from = true -> is_closed s = true -> Forall2 moves (ords db) (ords (close_stmt o from s at_ d db)).
Proof.
  intros Hf Hs. apply upd_moves. intros r Hr. unfold ostate_in in Hr. apply bool_decide_eq_true in Hr.
  apply closed_moves; [by rewrite Hr|done].
Qed.

(** Lines and rows of workers leave the orders as they are. *)
Lemma finalLine_ords o s at_ d db : ords (finalLine o s at_ d db) = ords db.
Proof. unfold finalLine, when. by destruct (has _ _ _). Qed.

(** ** The batches *)

Definition planned_ok (p : Planned) : Prop :=
  match p with
  | P_close o s _ => is_open (w_state o) = true /\ is_closed s = true
  | P_requeue _ _ _ _ => True
  | P_ended _ s _ => is_closed s = true
  end.

Lemma run_planned_moves w now db p : planned_ok p -> Forall2 moves (ords db) (ords (run_planned w now db p)).
Proof.
  destruct p as [o s d|o t e d|o s d]; cbn [run_planned planned_ok].
  - intros [H1 H2]. rewrite finalLine_ords. by apply close_stmt_moves.
  - intros _. rewrite finalLine_ords. apply (when_moves _ _ (set_tasks _ db)). intros _. by apply close_stmt_moves.
  - intros H. rewrite finalLine_ords. by apply close_stmt_moves.
Qed.

Lemma fold_moves {X} (f : ODB -> X -> ODB) l db :
  (forall db x, In x l -> Forall2 moves (ords db) (ords (f db x))) -> Forall2 moves (ords db) (ords (fold_left f l db)).
Proof.
  revert db. induction l as [|x l IH]; intros db H; cbn [fold_left]; [reflexivity|].
  etransitivity; [apply H; by left|]. apply IH. intros. apply H. by right.
Qed.

Lemma deliver_stmt_moves x now st o : Forall2 moves (ords st.1) (ords (deliver_stmt x now st o).1).
Proof.
  cbn. apply upd_moves. intros r Hr. unfold ostate_in in Hr. apply bool_decide_eq_true in Hr.
  split; [done| |]; rewrite Hr; done.
Qed.

Lemma deliver_fold_moves x now l st : Forall2 moves (ords st.1) (ords (fold_left (deliver_stmt x now) l st).1).
Proof.
  revert st. induction l as [|o l IH]; intros st; cbn [fold_left]; [reflexivity|].
  etransitivity; [|apply IH]. apply deliver_stmt_moves.
Qed.

Lemma take_batch_moves x plan deliver now db :
  (forall p, In p plan -> planned_ok p) -> Forall2 moves (ords db) (ords (take_batch x plan deliver now db).1).
Proof.
  intros H. unfold take_batch. cbn [fst].
  change (ords (refreshOpen (c_worker x) ?d)) with (ords d).
  etransitivity; [|apply (deliver_fold_moves x now deliver (_, []))]. cbn [fst].
  apply fold_moves. intros. apply run_planned_moves. by apply H.
Qed.

Lemma act_closes x pool o now s d n : act x pool o now = Close s d n -> is_closed s = true.
Proof.
  unfold act, act_delivered, act_pending, act_live. intros H. repeat (case_match; simplify_eq/=; try done).
Qed.

Lemma stopEnded_closed t at_ : is_closed (stopEnded t at_).1 = true.
Proof. destruct t as [[id []]|]; done. Qed.

Lemma In_omap {X Y} (f : X -> option Y) l y : In y (omap f l) <-> exists x, In x l /\ f x = Some y.
Proof.
  rewrite <- list_elem_of_In, list_elem_of_omap. split; intros (x & H1 & H2); exists x; by rewrite ?list_elem_of_In in *.
Qed.

Lemma closes_ok x pool rows now p :
  (forall o, In o rows -> is_open (w_state o) = true) -> In p (closes_of x pool rows now) -> planned_ok p.
Proof.
  intros Hr (o & Ho & Hp)%In_omap. destruct (act _ _ _ _) eqn:E; simplify_eq. split; [by apply Hr|by eapply act_closes].
Qed.

Lemma plan_stop_ok x o t now p : plan_stop x o t now = Some p -> planned_ok p.
Proof.
  unfold plan_stop. intros H. repeat (case_match; simplify_eq/=; try done); apply stopEnded_closed.
Qed.

Lemma stops_ok x pool rows now db p : In p (stops_of x pool rows now db) -> planned_ok p.
Proof. intros (o & Ho & Hp)%In_omap. destruct (act _ _ _ _); simplify_eq. by eapply plan_stop_ok. Qed.

Lemma open_rows_In w db o : In o (open_rows w db) <-> In o (ords db) /\ open_of w o = true.
Proof. unfold open_rows. by rewrite sort_by_In, filter_In. Qed.

Lemma plan_ok x pool now read p :
  In p (closes_of x pool (open_rows (c_worker x) read) now ++ stops_of x pool (open_rows (c_worker x) read) now read) -> planned_ok p.
Proof.
  intros [Hp|Hp]%in_app_iff; [|by eapply stops_ok]. eapply closes_ok; [|exact Hp].
  intros row [_ Ho]%open_rows_In. unfold open_of in Ho. by breflect.
Qed.

(** A claim does nothing, or the batch of what it planned from its reads. *)
Lemma take_cases x pool now read db :
  let rows := open_rows (c_worker x) read in
  takeOrders x pool now read db = (db, [])
  \/ takeOrders x pool now read db =
       take_batch x (closes_of x pool rows now ++ stops_of x pool rows now read) (deliver_of x pool rows now) now db.
Proof.
  unfold takeOrders. destruct (wrows read !! _) as [r|]; [|by left]. destruct (r_open r); [by left|]. cbn zeta.
  destruct (_ ++ _)%list; [destruct (deliver_of _ _ _ _)|]; [by left|by right|by right].
Qed.

Lemma takeOrders_moves x pool now read db : Forall2 moves (ords db) (ords (takeOrders x pool now read db).1).
Proof.
  destruct (take_cases x pool now read db) as [-> | ->]; [reflexivity|]. apply take_batch_moves, plan_ok.
Qed.

Lemma say_ords ls db : ords (say ls db) = ords db.
Proof. done. Qed.
Lemma when_say_ords b ls db : ords (when b (say ls) db) = ords db.
Proof. by destruct b. Qed.

Lemma cancelOrder_moves o by_ now db : Forall2 moves (ords db) (ords (cancelOrder o by_ now db)).
Proof.
  unfold cancelOrder. destruct (cancelRefusal o); [reflexivity|].
  change (ords (refreshOpen ?w ?d)) with (ords d). rewrite when_say_ords. by apply close_stmt_moves.
Qed.

Lemma answered_moves o s at_ c d :
  w_state o = Sdelivered -> is_closed s = true -> moves o (answered s at_ c d o).
Proof. intros Ho Hs. split; [done|by rewrite Ho|]. intros _. split; [|done]. by destruct s. Qed.

Lemma answerOrder_moves o a now db : Forall2 moves (ords db) (ords (answerOrder o a now db)).
Proof.
  unfold answerOrder. destruct (answerRefusal o a); [reflexivity|].
  case_bool_decide as Hacc.
  - cbn [set_ords ords]. apply upd_moves. intros r Hr. unfold answerable, is_delivered in Hr. breflect.
    destruct (w_state r) eqn:E; try done. split; [done|by rewrite E|]. intros _. cbn. by rewrite E.
  - change (ords (refreshOpen ?w ?d)) with (ords d). rewrite when_say_ords. cbn [set_ords ords].
    apply upd_moves. intros r Hr. unfold answerable, is_delivered in Hr. breflect.
    apply answered_moves; [by destruct (w_state r)|by destruct (an_outcome a)].
Qed.

Lemma sweep_stmt_moves now db o s d :
  is_open (w_state o) = true -> is_closed s = true -> Forall2 moves (ords db) (ords (sweep_stmt now db (o, (s, d)))).
Proof. intros H1 H2. unfold sweep_stmt. rewrite when_say_ords. by apply close_stmt_moves. Qed.

Lemma sweep_plan_ok now read o s d :
  In (o, (s, d)) (sweep_plan now read) -> In o (ords read) /\ is_open (w_state o) = true /\ is_closed s = true.
Proof.
  unfold sweep_plan. intros [H|H]%in_app_iff; apply in_map_iff in H as (r & Hr & Hin); apply filter_In in Hin as [Hin Hd].
  - injection Hr as -> Hc. unfold stop_due in Hd. breflect. split_and!; [done|done|].
    pose proof (stopEnded_closed (id ← w_task (iss o); t ← tasks (tdb read) !! id; Some (id, status t)) (w_issued (iss o))) as Hs.
    unfold stop_close in Hc. by rewrite Hc in Hs.
  - injection Hr as -> <- <-. unfold due in Hd. breflect. split_and!; [done|done|].
    by repeat case_match.
Qed.

Lemma refresh_fold_ords ws db : ords (fold_left (fun db w => refreshOpen w db) ws db) = ords db.
Proof. revert db. induction ws as [|w ws IH]; intros db; [done|]. cbn [fold_left]. by rewrite IH. Qed.

Lemma sweepOrders_moves now read db : Forall2 moves (ords db) (ords (sweepOrders now read db)).
Proof.
  unfold sweepOrders, sweep_batch. rewrite refresh_fold_ords. apply fold_moves. intros db' [o [s d]] Hin.
  apply sweep_plan_ok in Hin as (_ & H1 & H2). by apply sweep_stmt_moves.
Qed.

Lemma cancelOrdersOf_moves which d now db : Forall2 moves (ords db) (ords (cancelOrdersOf which d now db)).
Proof.
  cbn. apply moved_map. intros o _. destruct (open_among which o) eqn:E; [|reflexivity].
  unfold open_among in E. breflect. by apply closed_moves.
Qed.

(** *** The issue *)

Lemma auto_stmt_ords a db : ords (auto_stmt a db) = ords db.
Proof. unfold auto_stmt. destruct (a_auto a) as [[]|]; [|done]. by destruct (exists_ a db). Qed.
Lemma drain_stmt_ords a db : ords (drain_stmt a db) = ords db.
Proof. unfold drain_stmt. by destruct (_ && _). Qed.
Lemma fence_stmt_ords a db : ords (fence_stmt a db) = ords db.
Proof. unfold fence_stmt. destruct (task_of a); [|done]. by destruct (_ && _). Qed.
Lemma issue_line_ords a db : ords (issue_line a db) = ords db.
Proof. apply when_say_ords. Qed.
Lemma resume_line_ords a db : ords (resume_line a db) = ords db.
Proof. unfold resume_line. destruct (a_resumed a); [|done]. apply when_say_ords. Qed.

Lemma resume_stmts_moves a db : Forall2 moves (ords db) (ords (resume_stmts a db)).
Proof.
  unfold resume_stmts. destruct (a_resumed a) as [[d dd]|]; [|reflexivity]. destruct (String.eqb _ _); [|reflexivity].
  cbn zeta. set (db1 := when _ (say _) db). assert (E1 : ords db1 = ords db) by apply when_say_ords. rewrite <- E1.
  set (db2 := when (exists_ a db1) _ db1). set (db3 := when (exists_ a db2) _ db2).
  assert (E3 : ords db3 = ords db2) by (unfold db3, when; by destruct (exists_ a db2)).
  transitivity (ords db2).
  - apply when_moves. intros _. apply moved_map. intros o _. destruct (waiting_drain _ o) eqn:E; [|reflexivity].
    unfold waiting_drain in E. breflect. apply closed_moves; [by destruct (w_state o)|done].
  - cbn [set_ords ords]. rewrite E3. apply upd_moves. intros o Ho.
    apply closed_moves; [by destruct (w_state o)|done].
Qed.

Lemma issue_batch_moves a db : Forall2 moves (ords db) (ords (issue_batch a db)).
Proof.
  unfold issue_batch. rewrite resume_line_ords, issue_line_ords. change (ords (refreshOpen ?w ?d)) with (ords d).
  etransitivity; [|apply resume_stmts_moves]. by rewrite fence_stmt_ords, drain_stmt_ords, auto_stmt_ords.
Qed.

(** A batch moves the rows, after the new row of an issue that went in. *)
Lemma run_op_ords db p :
  Forall2 moves (ords db) (ords (fst (run_op db p)))
  \/ exists a, p = Op_issue a /\ issue_ok a db = true /\ has (a_id a) any (ords db) = false
        /\ existsb (same_open (new_order a)) (ords db) = false /\ existsb (same_site (new_order a)) (ords db) = false
        /\ Forall2 moves (ords db ++ [new_order a]) (ords (fst (run_op db p)))
        /\ snd (run_op db p) = match a_deliver a with Some _ => [a_id a] | None => [] end.
Proof.
  destruct p as [a|x pool now read|o b now|o a now|now read|which d now|f]; cbn [run_op fst].
  - destruct (issueOrder a db) as [[db' res]|] eqn:E; [|by left]. unfold issueOrder in E.
    destruct (issue_ok a db) eqn:Hok; cbn [negb] in E.
    2:{ left. injection E as <- <-. apply issue_batch_moves. }
    destruct (has _ _ _) eqn:Hhas; [done|].
    destruct (existsb (same_open _) _) eqn:Ho; [left; by injection E as <- <-|].
    destruct (existsb (same_site _) _) eqn:Hs; [left; by injection E as <- <-|].
    right. exists a. injection E as <- <-. split_and!; try done.
    apply (issue_batch_moves a (set_ords (ords db ++ [new_order a]) db)).
  - left. apply takeOrders_moves.
  - left. apply cancelOrder_moves.
  - left. apply answerOrder_moves.
  - left. apply sweepOrders_moves.
  - left. apply cancelOrdersOf_moves.
  - by left.
Qed.

Lemma run_op_grows db p : grows (ords db) (ords (fst (run_op db p))).
Proof.
  destruct (run_op_ords db p) as [H|(a & -> & _ & _ & _ & _ & H & _)]; [by apply grows_moved|].
  etransitivity; [apply grows_snoc|by apply grows_moved].
Qed.

(** ** The caps *)

Definition issues (db : ODB) : list Issue := map iss (ords db).

Lemma moves_issues l l' : Forall2 moves l l' -> map iss l' = map iss l.
Proof. induction 1 as [|o o' l l' [H _ _] _ IH]; [done|]. cbn [map]. by rewrite H, IH. Qed.

(** An order a person gave, other than a resume or a stop; a stop; a worker's restarts, re-checks and drains. *)
Definition given_by (who : string) (i : Issue) : bool :=
  String.eqb (w_by i) who && negb (str_in (w_kind i) ["resume"; "stop-task"]).
Definition stop_by (who : string) (i : Issue) : bool := String.eqb (w_by i) who && String.eqb (w_kind i) "stop-task".
Definition kinds_at (w : string) (kinds : list string) (i : Issue) : bool := String.eqb (w_worker i) w && str_in (w_kind i) kinds.
Definition by_pool_ (i : Issue) : bool := isPool (w_by i).
Definition by_community (i : Issue) : bool := String.eqb (w_by i) POOL_COMMUNITY.
Definition restarts_ (p : Issue -> bool) (i : Issue) : bool := p i && str_in (w_kind i) POOL_RESTARTS.

Record caps_hold (l : list Issue) : Prop := {
  cap_login who : isPool who = false -> windowed w_issued HOUR MAX_ORDERS_PER_LOGIN_HOUR (given_by who) l;
  cap_stops who : isPool who = false -> windowed w_issued HOUR MAX_STOPS_PER_LOGIN_HOUR (stop_by who) l;
  cap_restarts w : windowed w_issued HOUR MAX_RESTARTS_PER_HOUR (kinds_at w HOST_RESTART_GROUP) l;
  cap_rechecks w : windowed w_issued HOUR MAX_RECHECKS_PER_HOUR (kinds_at w ["recheck-agent"]) l;
  cap_drains w : windowed w_issued HOUR MAX_RESTARTS_PER_HOUR (kinds_at w ["drain"]) l;
  cap_pool_restarts : windowed w_issued HOUR MAX_POOL_RESTARTS_PER_HOUR (restarts_ by_pool_) l;
  cap_community_restarts : windowed w_issued HOUR MAX_POOL_COMMUNITY_RESTARTS_PER_HOUR (restarts_ by_community) l;
  cap_pool : windowed w_issued DAY MAX_POOL_ORDERS_PER_DAY by_pool_ l;
  cap_community : windowed w_issued DAY MAX_POOL_COMMUNITY_ORDERS_PER_DAY by_community l }.

Lemma count_since_le p q now len db :
  (forall o, p (iss o) = true -> q o = true) ->
  zlen (List.filter (recent_of w_issued len p now) (issues db)) <= count_since q (now - len) db.
Proof.
  intros H. unfold count_since, count, issues, zlen. apply Nat2Z.inj_le.
  induction (ords db) as [|o l IH]; [done|]. cbn [map List.filter]. unfold recent_of at 1, after_ at 1.
  destruct (p (iss o)) eqn:Hp; cbn [andb].
  - rewrite (H o Hp). cbn [andb]. destruct (Z.ltb_spec (now - w_issued (iss o)) len), (Z.ltb_spec (now - len) (w_issued (iss o)));
      cbn [length]; lia.
  - destruct (q o && _); cbn [length]; lia.
Qed.

Lemma cap_step p q len cap a db :
  windowed w_issued len cap p (issues db) ->
  (forall o, p (iss o) = true -> q o = true) ->
  (p (iss (new_order a)) = true -> count_since q (a_now a - len) db < cap) ->
  windowed w_issued len cap p (issues db ++ [iss (new_order a)]).
Proof.
  intros Hw Hq Hc. apply windowed_snoc; [done|]. intros Hp. specialize (Hc Hp).
  pose proof (count_since_le p q (a_now a) len db Hq). cbn [iss new_order w_issued] in *. lia.
Qed.

(** A kind of the group's list is counted with all of that list. *)
Lemma group_incl a kinds :
  In kinds [HOST_RESTART_GROUP; ["recheck-agent"]; ["drain"]]%string -> In (a_kind a) kinds ->
  a_kind a <> "resume"%string /\ incl kinds (group_of a)
  /\ cap_of a = (if str_in "recheck-agent" kinds then MAX_RECHECKS_PER_HOUR else MAX_RESTARTS_PER_HOUR).
Proof.
  unfold group_of, cap_of, hostStop. cbn [In]. intros H Hk.
  destruct H as [<-|[<-|[<-|[]]]]; cbn in Hk; repeat destruct Hk as [Hk|Hk]; try done; rewrite <- Hk;
    destruct (a_host a); (split; [done|]; split; [|done]); intros k Hin; cbn in *; intuition.
Qed.

Lemma worker_cap_step w kinds a db :
  In kinds [HOST_RESTART_GROUP; ["recheck-agent"]; ["drain"]]%string ->
  worker_cap a db = true ->
  windowed w_issued HOUR (if str_in "recheck-agent" kinds then MAX_RECHECKS_PER_HOUR else MAX_RESTARTS_PER_HOUR) (kinds_at w kinds) (issues db) ->
  windowed w_issued HOUR (if str_in "recheck-agent" kinds then MAX_RECHECKS_PER_HOUR else MAX_RESTARTS_PER_HOUR) (kinds_at w kinds)
    (issues db ++ [iss (new_order a)]).
Proof.
  intros Hk Hc Hw. destruct (kinds_at w kinds (iss (new_order a))) eqn:Hp.
  - unfold kinds_at in Hp. cbn [iss new_order w_worker w_kind] in Hp. breflect.
    destruct (group_incl a kinds Hk) as (Hr & Hi & Hcap); [done|].
    apply (cap_step _ (in_group (a_worker a) (group_of a))); [done| |].
    + intros o Ho. unfold kinds_at in Ho. breflect. unfold in_group. subst w.
      apply andb_true_iff. split; [by apply String.eqb_eq|]. apply str_in_In. by apply Hi.
    + intros _. rewrite <- Hcap. unfold worker_cap in Hc. apply orb_true_iff in Hc as [Hc|Hc]; [by apply String.eqb_eq in Hc|].
      by breflect.
  - apply windowed_snoc; [done|congruence].
Qed.

Ltac by_cap := intros; unfold given_by, stop_by, by_pool_, by_community, restarts_, counted_for, stop_of, pools, pool_restart,
  community_restart, community_order in *; cbn [iss new_order w_by w_kind] in *.

Lemma login_step who a db :
  isPool who = false -> login_cap a db = true -> caps_hold (issues db) ->
  windowed w_issued HOUR MAX_ORDERS_PER_LOGIN_HOUR (given_by who) (issues db ++ [iss (new_order a)])
  /\ windowed w_issued HOUR MAX_STOPS_PER_LOGIN_HOUR (stop_by who) (issues db ++ [iss (new_order a)]).
Proof.
  intros Hwho Hc Hcaps. unfold login_cap in Hc. apply orb_true_iff in Hc as [Hc|Hc].
  { apply orb_true_iff in Hc as [Hc|Hc].
    - split; apply windowed_snoc; try apply Hcaps; try done; by_cap; breflect; congruence.
    - breflect. split; apply windowed_snoc; try apply Hcaps; try done; by_cap; rewrite Hc in *;
        rewrite ?andb_false_r in *; done. }
  destruct (String.eqb (a_kind a) "stop-task" && _) eqn:Hs; breflect.
  - split; [apply windowed_snoc; [by apply Hcaps|]; by_cap; rewrite H in *; by rewrite andb_false_r in *|].
    apply (cap_step _ (stop_of who)); [by apply Hcaps|done|]. by_cap. breflect. subst who. done.
  - split.
    + apply (cap_step _ (counted_for who)); [by apply Hcaps| |].
      * by_cap. breflect. apply andb_true_iff. split; [by apply String.eqb_eq|].
        destruct (String.eqb_spec (w_kind (iss o)) "resume") as [E|]; [|done]. rewrite E in *. done.
      * by_cap. breflect. by subst who.
    + apply (cap_step _ (counted_for who)); [by apply Hcaps| |].
      * by_cap. breflect. apply andb_true_iff. split; [by apply String.eqb_eq|]. by rewrite H0.
      * by_cap. breflect. subst who. unfold MAX_STOPS_PER_LOGIN_HOUR, MAX_ORDERS_PER_LOGIN_HOUR in *. lia.
Qed.

Lemma pool_in by_ : String.eqb by_ POOL_COMMUNITY = true -> isPool by_ = true.
Proof. intros ->%String.eqb_eq. done. Qed.

Lemma pool_step a db :
  pool_caps a db = true -> caps_hold (issues db) ->
  windowed w_issued HOUR MAX_POOL_RESTARTS_PER_HOUR (restarts_ by_pool_) (issues db ++ [iss (new_order a)])
  /\ windowed w_issued HOUR MAX_POOL_COMMUNITY_RESTARTS_PER_HOUR (restarts_ by_community) (issues db ++ [iss (new_order a)])
  /\ windowed w_issued DAY MAX_POOL_ORDERS_PER_DAY by_pool_ (issues db ++ [iss (new_order a)])
  /\ windowed w_issued DAY MAX_POOL_COMMUNITY_ORDERS_PER_DAY by_community (issues db ++ [iss (new_order a)]).
Proof.
  unfold pool_caps. intros [[[H1 H2]%andb_true_iff H3]%andb_true_iff H4]%andb_true_iff Hcaps.
  split_and!; [apply (cap_step _ pool_restart)|apply (cap_step _ community_restart)|apply (cap_step _ pools)|apply (cap_step _ community_order)];
    try apply Hcaps; try done; by_cap.
  - apply andb_true_iff in H as [Ha Hb]. rewrite Ha, Hb in H1. cbn [negb orb] in H1. by breflect.
  - apply andb_true_iff in H as [Ha Hb]. rewrite Ha, Hb in H2. cbn [negb orb] in H2. by breflect.
  - rewrite H in H3. cbn [negb orb] in H3. by breflect.
  - rewrite H in H4. cbn [negb orb] in H4. by breflect.
Qed.

Lemma issue_keeps_caps a db : issue_ok a db = true -> caps_hold (issues db) -> caps_hold (issues db ++ [iss (new_order a)]).
Proof.
  unfold issue_ok. intros H Hcaps. apply andb_true_iff in H as [H _]. apply andb_true_iff in H as [H Hp].
  apply andb_true_iff in H as [Hw Hl]. destruct (pool_step a db Hp Hcaps) as (H1 & H2 & H3 & H4).
  split; try done.
  - intros who Hwho. by apply (login_step who a db Hwho Hl Hcaps).
  - intros who Hwho. by apply (login_step who a db Hwho Hl Hcaps).
  - intros w. apply (worker_cap_step w HOST_RESTART_GROUP); [by left|done|]. apply Hcaps.
  - intros w. apply (worker_cap_step w ["recheck-agent"%string]); [by right; left|done|]. apply Hcaps.
  - intros w. apply (worker_cap_step w ["drain"%string]); [by right; right; left|done|]. apply Hcaps.
Qed.

Lemma run_op_caps db p : caps_hold (issues db) -> caps_hold (issues (fst (run_op db p))).
Proof.
  intros Hc. destruct (run_op_ords db p) as [H|(a & -> & Hok & _ & _ & _ & H & _)].
  - unfold issues. by rewrite (moves_issues _ _ H).
  - unfold issues. rewrite (moves_issues _ _ H), List.map_app. by apply issue_keeps_caps.
Qed.

(** ** Traces: batches one after another, each with reads of earlier states

    An order's id is 128 random bits: a new one is no other's. *)

Definition reads_from (h : list ODB) (p : Op) : Prop :=
  match p with
  | Op_take _ _ _ read | Op_sweep _ read => In read h
  | Op_cancel o _ _ | Op_answer o _ _ => exists s, In s h /\ In o (ords s)
  | Op_issue a => match h with db :: _ => has (a_id a) any (ords db) = false | [] => True end
  | _ => True
  end.

Record fresh_db (db : ODB) : Prop := {
  fr_ords : ords db = [];
  fr_journal : journal db = [];
  fr_open w r : wrows db !! w = Some r -> r_open r = [] }.

(** The states, newest first; the batches; every id handed to a process. *)
Inductive trace : list ODB -> list Op -> list string -> Prop :=
| tr_start db : fresh_db db -> trace [db] [] []
| tr_step db h ps out p :
    trace (db :: h) ps out -> reads_from (db :: h) p ->
    trace (fst (run_op db p) :: db :: h) (p :: ps) (out ++ snd (run_op db p)).

Lemma trace_caps h ps out : trace h ps out -> forall db, head h = Some db -> caps_hold (issues db).
Proof.
  induction 1 as [db [H _ _]|db h ps out p Ht IH Hr]; intros db' [= <-].
  - unfold issues. rewrite H. split; intros; by apply windowed_nil.
  - apply run_op_caps. by apply IH.
Qed.


(** ** One open order per worker, kind and task; one restart of an agent service per site *)

Lemma moves_open o o' : moves o o' -> is_open (w_state o') = true -> is_open (w_state o) = true.
Proof. intros [_ Hc _] Ho. unfold is_closed in Hc. destruct (is_open (w_state o)) eqn:E; [done|]. rewrite (Hc eq_refl) in Ho. congruence. Qed.

Definition clash (a b : WOrder) : bool := same_open a b || same_site a b.
Definition one_open (l : list WOrder) : Prop :=
  forall i j a b, i <> j -> l !! i = Some a -> l !! j = Some b -> clash a b = false.

Lemma clash_moves a a' b b' : moves a a' -> moves b b' -> clash a' b' = true -> clash a b = true.
Proof.
  intros Ha Hb. pose proof (moves_open _ _ Ha) as Oa. pose proof (moves_open _ _ Hb) as Ob.
  destruct Ha as [Ia _ _], Hb as [Ib _ _]. unfold clash, same_open, same_site. rewrite Ia, Ib.
  destruct (is_open (w_state a')); [|done]. destruct (is_open (w_state b')); [|by rewrite !andb_false_r].
  by rewrite Oa, Ob.
Qed.

Lemma clash_sym a b : clash a b = clash b a.
Proof.
  unfold clash, same_open, same_site. f_equal.
  - rewrite (andb_comm (is_open (w_state a))), (String.eqb_sym (w_worker (iss a))), (String.eqb_sym (w_kind (iss a))), Z.eqb_sym. done.
  - rewrite (andb_comm (is_open (w_state a))), <- !andb_assoc. f_equal. f_equal.
    rewrite !andb_assoc, (andb_comm (String.eqb (w_kind (iss a)) _)). f_equal.
    destruct (w_site (iss a)), (w_site (iss b)); try done. apply String.eqb_sym.
Qed.

Lemma one_open_moves l l' : Forall2 moves l l' -> one_open l -> one_open l'.
Proof.
  intros H Ho i j a' b' Hij Ha Hb.
  destruct (Forall2_lookup_r _ _ _ _ _ H Ha) as (a & Hla & Hma). destruct (Forall2_lookup_r _ _ _ _ _ H Hb) as (b & Hlb & Hmb).
  destruct (clash a' b') eqn:E; [|done]. apply (clash_moves _ _ _ _ Hma Hmb) in E.
  by rewrite (Ho i j a b Hij Hla Hlb) in E.
Qed.

Lemma existsb_false {A} (f : A -> bool) l x : existsb f l = false -> In x l -> f x = false.
Proof. intros H Hin. destruct (f x) eqn:E; [|done]. assert (existsb f l = true) by (apply existsb_exists; eauto). congruence. Qed.

Lemma one_open_snoc l n :
  one_open l -> existsb (same_open n) l = false -> existsb (same_site n) l = false -> one_open (l ++ [n]).
Proof.
  intros Ho H1 H2.
  assert (Hn : forall o, In o l -> clash n o = false).
  { intros o Hin. unfold clash. by rewrite (existsb_false _ _ _ H1 Hin), (existsb_false _ _ _ H2 Hin). }
  intros i j a b Hij Ha Hb. rewrite lookup_app_Some in Ha, Hb.
  destruct Ha as [Ha|[Hi Ha]], Hb as [Hb|[Hj Hb]].
  - by apply (Ho i j).
  - apply list_lookup_singleton_Some in Hb as [_ <-]. rewrite clash_sym. apply Hn.
    apply list_elem_of_In, list_elem_of_lookup. eauto.
  - apply list_lookup_singleton_Some in Ha as [_ <-]. apply Hn. apply list_elem_of_In, list_elem_of_lookup. eauto.
  - apply list_lookup_singleton_Some in Ha as [Hi' _], Hb as [Hj' _]. lia.
Qed.

Lemma trace_one_open h ps out : trace h ps out -> forall db, head h = Some db -> one_open (ords db).
Proof.
  induction 1 as [db [H _ _]|db h ps out p Ht IH Hr]; intros db' [= <-].
  - rewrite H. by intros i j a b _ Ha; rewrite lookup_nil in Ha.
  - specialize (IH db eq_refl). destruct (run_op_ords db p) as [Hm|(a & -> & _ & _ & Ho & Hs & Hm & _)].
    + by eapply one_open_moves.
    + eapply one_open_moves; [exact Hm|]. by apply one_open_snoc.
Qed.

(** over every interleaving, no two open orders are for the same worker,
    kind and task, and no two open restarts of an agent service for the same
    site: one restart of a host's service at a time. *)
Theorem one_open_order_per_kind db h ps out i j a b :
  trace (db :: h) ps out -> ords db !! i = Some a -> ords db !! j = Some b -> i <> j ->
  same_open a b = false /\ same_site a b = false.
Proof.
  intros H Ha Hb Hij. pose proof (trace_one_open _ _ _ H db eq_refl i j a b Hij Ha Hb) as Hc.
  unfold clash in Hc. by breflect.
Qed.

(** ** Handed out once *)

Definition settled (l : list WOrder) (id : string) : Prop :=
  (exists o, In o l /\ o_key o = id) /\ forall o, In o l -> o_key o = id -> w_state o <> Spending.

Lemma moves_In l l' o' : Forall2 moves l l' -> In o' l' -> exists o, In o l /\ moves o o'.
Proof.
  intros H Hin. apply list_elem_of_In, list_elem_of_lookup in Hin as (i & Hi).
  destruct (Forall2_lookup_r _ _ _ _ _ H Hi) as (o & Ho & Hm). exists o. split; [|done].
  apply list_elem_of_In, list_elem_of_lookup. eauto.
Qed.
Lemma moves_In_l l l' o : Forall2 moves l l' -> In o l -> exists o', In o' l' /\ moves o o'.
Proof.
  intros H Hin. apply list_elem_of_In, list_elem_of_lookup in Hin as (i & Hi).
  destruct (Forall2_lookup_l _ _ _ _ _ H Hi) as (o' & Ho & Hm). exists o'. split; [|done].
  apply list_elem_of_In, list_elem_of_lookup. eauto.
Qed.
Lemma moves_key o o' : moves o o' -> o_key o' = o_key o.
Proof. intros [H _ _]. unfold o_key. by rewrite H. Qed.

Lemma settled_moves l l' id : Forall2 moves l l' -> settled l id -> settled l' id.
Proof.
  intros H [(o & Hin & Hk) Hs]. split.
  - destruct (moves_In_l _ _ _ H Hin) as (o' & Hin' & Hm). exists o'. split; [done|]. by rewrite (moves_key _ _ Hm).
  - intros o' Hin' Hk'. destruct (moves_In _ _ _ H Hin') as (r & Hr & Hm). rewrite (moves_key _ _ Hm) in Hk'.
    specialize (Hs r Hr Hk'). destruct Hm as [_ Hc Hd].
    destruct (w_state r) eqn:E; try done; [by apply (Hd eq_refl)| | | | |]; rewrite (Hc eq_refl), E; done.
Qed.

Definition handed_ok (db : ODB) (out : list string) : Prop := NoDup out /\ forall id, In id out -> settled (ords db) id.

Lemma handed_moves db db' out : Forall2 moves (ords db) (ords db') -> handed_ok db out -> handed_ok db' out.
Proof. intros H [Hn Hs]. split; [done|]. intros id Hid. eapply settled_moves; eauto. Qed.

Lemma has_spec id p l : has id p l = true <-> exists o, In o l /\ o_key o = id /\ p o = true.
Proof.
  unfold has. rewrite existsb_exists. split; intros (o & Ho & H); exists o.
  - breflect. done.
  - destruct H as [<- ->]. by rewrite String.eqb_refl.
Qed.

Lemma deliver_stmt_handed x now st o out :
  handed_ok st.1 (out ++ st.2) -> handed_ok (deliver_stmt x now st o).1 (out ++ (deliver_stmt x now st o).2).
Proof.
  intros [Hn Hs]. pose proof (deliver_stmt_moves x now st o) as Hm.
  unfold deliver_stmt in *. cbn [fst snd] in *. destruct (has _ _ _) eqn:Hh.
  2:{ split; [done|]. intros id Hid. eapply settled_moves; [exact Hm|]. by apply Hs. }
  apply has_spec in Hh as (r & Hr & Hk & Hp). unfold ostate_in in Hp. apply bool_decide_eq_true in Hp.
  rewrite app_assoc. split.
  - apply NoDup_app. split_and!; [done| |apply NoDup_singleton].
    intros id Hid ->%list_elem_of_singleton. apply list_elem_of_In in Hid. destruct (Hs _ Hid) as [_ Hx]. by apply (Hx r).
  - intros id [Hid|[<-|[]]]%in_app_iff; [eapply settled_moves; [exact Hm|by apply Hs]|].
    split.
    + destruct (moves_In_l _ _ _ Hm Hr) as (r' & Hr' & Hmr). exists r'. split; [done|]. rewrite (moves_key _ _ Hmr). done.
    + intros r' Hin Hk'. cbn [set_ords ords] in Hin. unfold upd in Hin. apply in_map_iff in Hin as (q & Hq & _).
      destruct (_ && ostate_in Spending q) eqn:E; subst r'; [done|].
      rewrite Hk', String.eqb_refl in E. unfold ostate_in in E. cbn [andb] in E. by apply bool_decide_eq_false in E.
Qed.

Lemma deliver_fold_handed x now out ds st :
  handed_ok st.1 (out ++ st.2) ->
  handed_ok (fold_left (deliver_stmt x now) ds st).1 (out ++ (fold_left (deliver_stmt x now) ds st).2).
Proof.
  revert st. induction ds as [|o ds IH]; intros st Hst; [exact Hst|]. cbn [fold_left]. apply IH. by apply deliver_stmt_handed.
Qed.

Lemma take_batch_handed x plan deliver now db out :
  (forall p, In p plan -> planned_ok p) -> handed_ok db out ->
  handed_ok (take_batch x plan deliver now db).1 (out ++ (take_batch x plan deliver now db).2).
Proof.
  intros Hp H. apply (deliver_fold_handed x now out deliver (fold_left (run_planned (c_worker x) now) plan db, [])).
  cbn [fst snd]. rewrite app_nil_r. eapply handed_moves; [|exact H]. apply fold_moves. intros. apply run_planned_moves. by apply Hp.
Qed.

Lemma take_handed x pool now read db out :
  handed_ok db out -> handed_ok (takeOrders x pool now read db).1 (out ++ (takeOrders x pool now read db).2).
Proof.
  intros H. destruct (take_cases x pool now read db) as [-> | ->]; [by rewrite app_nil_r|].
  apply take_batch_handed; [apply plan_ok|done].
Qed.

Lemma run_op_handed db p out : handed_ok db out -> handed_ok (fst (run_op db p)) (out ++ snd (run_op db p)).
Proof.
  intros H. destruct p as [a| x pool now read | | | | | ].
  2:{ by apply take_handed. }
  1:{ destruct (run_op_ords db (Op_issue a)) as [Hm|(a' & [= <-] & _ & Hnew & _ & _ & Hm & Hout)].
    - assert (Hs : snd (run_op db (Op_issue a)) = [] \/ exists d, issueOrder a db = Some (d, Issued_ok)).
      { cbn [run_op]. destruct (issueOrder a db) as [[d []]|]; eauto. }
      destruct Hs as [->|(d & Hd)]; [rewrite app_nil_r; by eapply handed_moves|].
      exfalso. cbn [run_op] in Hm. rewrite Hd in Hm. cbn [fst] in Hm.
      unfold issueOrder in Hd. destruct (issue_ok a db); cbn [negb] in Hd; [|done].
      destruct (has _ _ _); [done|]. destruct (existsb _ _); [done|]. destruct (existsb _ _); [done|].
      injection Hd as <-. apply Forall2_length in Hm.
      pose proof (Forall2_length _ _ _ (issue_batch_moves a (set_ords (ords db ++ [new_order a]) db))) as Hl.
      cbn [set_ords ords] in Hl. rewrite length_app in Hl. cbn in Hl. lia.
    - rewrite Hout. assert (Hold : handed_ok (fst (run_op db (Op_issue a))) out).
      { split; [apply H|]. intros id Hid. eapply settled_moves; [exact Hm|]. destruct (proj2 H id Hid) as [(o & Ho & Hk) Hs].
        split; [exists o; split; [apply in_app_iff; by left|done]|].
        intros o' [Ho'|[<-|[]]]%in_app_iff Hk'; [by apply Hs|]. exfalso.
        assert (has (a_id a) any (ords db) = true) by (apply has_spec; exists o; split_and!; [done| |done]; by rewrite Hk, <- Hk').
        congruence. }
      destruct (a_deliver a) as [dl|] eqn:Hd; [|by rewrite app_nil_r].
      assert (Hnot : forall o, In o (ords db) -> o_key o <> a_id a).
      { intros o Ho Hk. assert (has (a_id a) any (ords db) = true) by (apply has_spec; by exists o). congruence. }
      split.
      + apply NoDup_app. split_and!; [apply H| |apply NoDup_singleton].
        intros id Hid ->%list_elem_of_singleton. apply list_elem_of_In in Hid. destruct (proj2 H _ Hid) as [(o & Ho & Hk) _].
        by apply (Hnot o).
      + intros id [Hid|[<-|[]]]%in_app_iff; [by apply Hold|].
        eapply settled_moves; [exact Hm|]. split; [exists (new_order a); split; [apply in_app_iff; right; by left|done]|].
        intros o [Ho|[<-|[]]]%in_app_iff Hk; [by destruct (Hnot o Ho)|]. cbn. by rewrite Hd. }
  all: cbn [run_op snd fst]; rewrite app_nil_r; eapply handed_moves; [|exact H].
  - apply cancelOrder_moves.
  - apply answerOrder_moves.
  - apply sweepOrders_moves.
  - apply cancelOrdersOf_moves.
  - done.
Qed.

Lemma trace_handed h ps out : trace h ps out -> forall db, head h = Some db -> handed_ok db out.
Proof.
  induction 1 as [db [H _ _]|db h ps out p Ht IH Hr]; intros db' [= <-].
  - split; [constructor|done].
  - apply run_op_handed. by apply IH.
Qed.

(** C35: over every interleaving of claims, Cancels, answers, sweeps and
    revokes, an order is handed to a process at most once. *)
Theorem order_handed_once db h ps out : trace (db :: h) ps out -> NoDup out.
Proof. intros H. by apply (trace_handed _ _ _ H db eq_refl). Qed.

(** ** One final line per order *)

Definition is_final (k : string) (l : Line) : bool :=
  String.eqb (ln_order l) k && match ln_state l with Some _ => true | None => false end.
Definition finals (k : string) (db : ODB) : Z := zlen (List.filter (is_final k) (journal db)).

(** At [now]: ids are unique, every closed order has its one final line and an open one none, and nothing closed later. *)
Record ledger (now : Z) (db : ODB) : Prop := {
  lg_keys : NoDup (map o_key (ords db));
  lg_one o : In o (ords db) -> finals (o_key o) db = if is_open (w_state o) then 0 else 1;
  lg_none k : ~ In k (map o_key (ords db)) -> finals k db = 0;
  lg_time o t : In o (ords db) -> is_open (w_state o) = false -> w_answered_at o = Some t -> t <= now }.

(** No order of this id closed at [now] yet. *)
Definition unclosed_at (k : string) (now : Z) (db : ODB) : Prop :=
  forall o, In o (ords db) -> o_key o = k -> is_open (w_state o) = false -> w_answered_at o <> Some now.

Lemma finals_say k ls db : finals k (say ls db) = finals k db + zlen (List.filter (is_final k) ls).
Proof. unfold finals, zlen. cbn [say journal]. rewrite List.filter_app, length_app. lia. Qed.

Lemma upd_In id p f l o' :
  In o' (upd id p f l) <-> exists o, In o l /\ o' = if String.eqb (o_key o) id && p o then f o else o.
Proof. unfold upd. rewrite in_map_iff. split; intros (o & H1 & H2); exists o; split; congruence. Qed.

Lemma upd_keys id p f l : (forall o, p o = true -> o_key (f o) = o_key o) -> map o_key (upd id p f l) = map o_key l.
Proof.
  intros H. unfold upd. rewrite map_map. apply map_ext. intros o. destruct (_ && p o) eqn:E; [|done].
  apply H. by breflect.
Qed.

Lemma key_inj db o o' : NoDup (map o_key (ords db)) -> In o (ords db) -> In o' (ords db) -> o_key o = o_key o' -> o = o'.
Proof.
  generalize (ords db) as l. induction l as [|r l IH]; [done|]. cbn [map]. intros [Hr Hl]%NoDup_cons Ho Ho' Hk.
  rewrite list_elem_of_In, in_map_iff in Hr.
  destruct Ho as [->|Ho], Ho' as [->|Ho']; [done| | |by apply IH]; exfalso; apply Hr; eauto.
Qed.

(** A guarded close and its guarded line. *)
Record closing (now : Z) (p g : WOrder -> bool) (f : WOrder -> WOrder) : Prop := {
  cg_open o : p o = true -> is_open (w_state o) = true;
  cg_key o : o_key (f o) = o_key o;
  cg_closed o : is_open (w_state (f o)) = false;
  cg_time o : w_answered_at (f o) = Some now;
  cg_guard o : g (f o) = true;
  cg_only o : g o = true -> is_open (w_state o) = false /\ w_answered_at o = Some now }.

Section CloseSay.
Context (now : Z) (k : string) (p g : WOrder -> bool) (f : WOrder -> WOrder) (line : Line).
Context (Hc : closing now p g f) (Hline : is_final k line = true).

Definition close_say (db : ODB) : ODB :=
  let db := set_ords (upd k p f (ords db)) db in when (has k g (ords db)) (say [line]) db.

Lemma close_say_ords db : ords (close_say db) = upd k p f (ords db).
Proof. unfold close_say. by destruct (has k g _). Qed.

Lemma line_other k' : k' <> k -> is_final k' line = false.
Proof.
  intros Hk. unfold is_final in *. breflect. destruct (String.eqb_spec (ln_order line) k'); [congruence|done].
Qed.

Lemma close_say_finals db k' : k' <> k -> finals k' (close_say db) = finals k' db.
Proof.
  intros Hk. unfold close_say, when. destruct (has k g _); [|done]. rewrite finals_say. cbn [List.filter].
  rewrite line_other by done. cbn. rewrite Z.add_0_r. done.
Qed.

(** The guard holds exactly when the close found its row. *)
Lemma close_say_guard db :
  unclosed_at k now db -> has k g (upd k p f (ords db)) = has k p (ords db).
Proof.
  intros Hu. apply eq_true_iff_eq. rewrite !has_spec. split.
  - intros (o' & (o & Ho & ->)%upd_In & Hk & Hg). exists o. destruct (_ && p o) eqn:E; [by breflect|].
    destruct (cg_only _ _ _ _ Hc _ Hg) as [Hcl Ht]. by destruct (Hu o Ho Hk Hcl).
  - intros (o & Ho & Hk & Hp). exists (f o). split_and!; [|by rewrite (cg_key _ _ _ _ Hc)|by apply Hc].
    apply upd_In. exists o. by rewrite Hk, String.eqb_refl, Hp.
Qed.

Lemma close_say_ledger db : unclosed_at k now db -> ledger now db -> ledger now (close_say db).
Proof.
  intros Hu [Hkeys Hone Hnone Htime].
  assert (Hk' : map o_key (ords (close_say db)) = map o_key (ords db)).
  { rewrite close_say_ords. apply upd_keys. intros o _. by apply Hc. }
  assert (Hfk : finals k (close_say db) = finals k db + if has k p (ords db) then 1 else 0).
  { unfold close_say. cbn [set_ords ords]. rewrite close_say_guard by done. unfold when.
    destruct (has k p (ords db)); [|by rewrite Z.add_0_r].
    rewrite finals_say. cbn [List.filter]. by rewrite Hline. }
  split.
  - by rewrite Hk'.
  - intros o' Ho'. rewrite close_say_ords in Ho'. apply upd_In in Ho' as (o & Ho & ->).
    destruct (decide (o_key o = k)) as [Hk|Hk].
    + rewrite Hk, String.eqb_refl. cbn [andb]. destruct (p o) eqn:Hp.
      * rewrite (cg_key _ _ _ _ Hc), (cg_closed _ _ _ _ Hc), Hk, Hfk, <- Hk, (Hone o Ho), (cg_open _ _ _ _ Hc o Hp).
        replace (has (o_key o) p (ords db)) with true; [done|]. symmetry. apply has_spec. by exists o.
      * rewrite Hk, Hfk, <- Hk, (Hone o Ho). replace (has (o_key o) p (ords db)) with false; [lia|].
        symmetry. apply not_true_iff_false. rewrite has_spec. intros (r & Hr & Hrk & Hrp).
        rewrite (key_inj db r o Hkeys Hr Ho Hrk) in Hrp. congruence.
    + destruct (String.eqb_spec (o_key o) k); [done|]. cbn [andb]. rewrite close_say_finals by done. by apply Hone.
  - intros k' Hk''. rewrite Hk' in Hk''. destruct (decide (k' = k)) as [->|Hne].
    + rewrite Hfk, (Hnone k Hk''). replace (has k p (ords db)) with false; [done|].
      symmetry. apply not_true_iff_false. rewrite has_spec. intros (r & Hr & Hrk & _). apply Hk''. rewrite <- Hrk. by apply in_map.
    + rewrite close_say_finals by done. by apply Hnone.
  - intros o' t Ho' Hcl Ht. rewrite close_say_ords in Ho'. apply upd_In in Ho' as (o & Ho & ->).
    destruct (_ && p o); [rewrite (cg_time _ _ _ _ Hc) in Ht; simplify_eq; lia|]. by apply (Htime o).
Qed.

Lemma close_say_unclosed db k' : k' <> k -> unclosed_at k' now db -> unclosed_at k' now (close_say db).
Proof.
  intros Hk Hu o' Ho'. rewrite close_say_ords in Ho'. apply upd_In in Ho' as (o & Ho & ->).
  destruct (String.eqb_spec (o_key o) k) as [E|E]; cbn [andb]; [|by apply Hu].
  destruct (p o); [|by apply Hu]. rewrite (cg_key _ _ _ _ Hc), E. intros Hkk. by destruct Hk.
Qed.
End CloseSay.

(** *** Statements that close nothing, and those that close many *)

Lemma ledger_ext now db db' :
  ords db' = ords db -> (forall k, finals k db' = finals k db) -> ledger now db -> ledger now db'.
Proof.
  intros Ho Hf [H1 H2 H3 H4]. split; rewrite ?Ho.
  - done.
  - intros o Hin. rewrite Hf. by apply H2.
  - intros k Hk. rewrite Hf. by apply H3.
  - apply H4.
Qed.

Definition still (o o' : WOrder) : Prop :=
  o_key o' = o_key o /\ is_open (w_state o') = is_open (w_state o) /\ w_answered_at o' = w_answered_at o.

Lemma still_ledger now f db :
  (forall o, still o (f o)) -> ledger now db -> ledger now (set_ords (map f (ords db)) db).
Proof.
  intros Hf [H1 H2 H3 H4].
  assert (Hk : map o_key (map f (ords db)) = map o_key (ords db)).
  { rewrite map_map. apply map_ext. intros o. by apply Hf. }
  split; cbn [set_ords ords]; rewrite ?Hk; try done.
  - intros o' (o & <- & Ho)%in_map_iff. destruct (Hf o) as (-> & -> & _). by apply H2.
  - intros o' t (o & <- & Ho)%in_map_iff. destruct (Hf o) as (_ & -> & ->). by apply H4.
Qed.

Lemma still_unclosed now k f db :
  (forall o, still o (f o)) -> unclosed_at k now db -> unclosed_at k now (set_ords (map f (ords db)) db).
Proof.
  intros Hf Hu o' (o & <- & Ho)%in_map_iff. destruct (Hf o) as (-> & -> & ->). by apply Hu.
Qed.

Lemma ledger_snoc now n db :
  ledger now db -> has (o_key n) any (ords db) = false -> is_open (w_state n) = true ->
  ledger now (set_ords (ords db ++ [n]) db).
Proof.
  intros [H1 H2 H3 H4] Hn Ho.
  assert (Hk : ~ In (o_key n) (map o_key (ords db))).
  { intros (r & Hr & Hin)%in_map_iff. apply not_true_iff_false in Hn. apply Hn, has_spec. by exists r. }
  split; cbn [set_ords ords].
  - rewrite List.map_app. apply NoDup_app. split_and!; [done| |apply NoDup_singleton].
    intros k Hin ->%list_elem_of_singleton. apply list_elem_of_In in Hin. done.
  - intros o [Hin|[<-|[]]]%in_app_iff; [by apply H2|]. rewrite Ho. by apply H3.
  - intros k Hin. rewrite List.map_app in Hin. apply H3. intros Hx. apply Hin. apply in_app_iff. by left.
  - intros o t [Hin|[<-|[]]]%in_app_iff; [by apply H4|]. by rewrite Ho.
Qed.

Definition close_all (p : WOrder -> bool) (f : WOrder -> WOrder) (line : WOrder -> Line) (db : ODB) : ODB :=
  set_ords (map (fun o => if p o then f o else o) (ords db)) (say (map line (List.filter p (ords db))) db).

Lemma finals_of_rows k p line l :
  (forall o, is_final k (line o) = String.eqb (o_key o) k) -> NoDup (map o_key l) ->
  zlen (List.filter (is_final k) (map line (List.filter p l))) = if has k p l then 1 else 0.
Proof.
  intros Hl. induction l as [|o l IH]; [done|]. cbn [map]. intros [Ho Hn]%NoDup_cons. specialize (IH Hn).
  assert (Hz : o_key o = k -> has k p l = false).
  { intros <-. apply not_true_iff_false. rewrite has_spec. intros (r & Hr & Hk & _). apply Ho.
    rewrite list_elem_of_In, in_map_iff. eauto. }
  cbn [List.filter]. unfold has in *. cbn [existsb].
  destruct (p o); cbn [map List.filter]; [|by rewrite andb_false_r].
  rewrite Hl, andb_true_r. destruct (String.eqb_spec (o_key o) k); cbn [orb]; [|done].
  unfold zlen in *. cbn [length]. rewrite (Hz e) in IH. lia.
Qed.

Section CloseAll.
Context (now : Z) (p : WOrder -> bool) (f : WOrder -> WOrder) (line : WOrder -> Line).
Context (Hopen : forall o, p o = true -> is_open (w_state o) = true).
Context (Hf : forall o, o_key (f o) = o_key o /\ is_open (w_state (f o)) = false /\ w_answered_at (f o) = Some now).
Context (Hline : forall o k, is_final k (line o) = String.eqb (o_key o) k).

Lemma close_all_ledger db : ledger now db -> ledger now (close_all p f line db).
Proof.
  intros [H1 H2 H3 H4].
  assert (Hk : map o_key (ords (close_all p f line db)) = map o_key (ords db)).
  { cbn. rewrite map_map. apply map_ext. intros o. destruct (p o); [|done]. apply Hf. }
  assert (Hfin : forall k, finals k (close_all p f line db) = finals k db + if has k p (ords db) then 1 else 0).
  { intros k. change (finals k (close_all p f line db)) with (finals k (say (map line (List.filter p (ords db))) db)).
    rewrite finals_say, finals_of_rows; [done|by intros|done]. }
  split.
  - by rewrite Hk.
  - intros o' (o & <- & Ho)%in_map_iff. destruct (p o) eqn:Hp.
    + destruct (Hf o) as (-> & -> & _). rewrite Hfin, (H2 o Ho), (Hopen o Hp).
      replace (has (o_key o) p (ords db)) with true; [done|]. symmetry. apply has_spec. by exists o.
    + rewrite Hfin, (H2 o Ho). replace (has (o_key o) p (ords db)) with false; [lia|].
      symmetry. apply not_true_iff_false. rewrite has_spec. intros (r & Hr & Hrk & Hrp).
      rewrite (key_inj db r o H1 Hr Ho Hrk) in Hrp. congruence.
  - intros k Hin. rewrite Hk in Hin. rewrite Hfin, (H3 k Hin). replace (has k p (ords db)) with false; [done|].
    symmetry. apply not_true_iff_false. rewrite has_spec. intros (r & Hr & Hrk & _). apply Hin. rewrite <- Hrk. by apply in_map.
  - intros o' t (o & <- & Ho)%in_map_iff. destruct (p o); [|by apply H4].
    destruct (Hf o) as (_ & _ & ->). intros _ [= <-]. lia.
Qed.

Lemma close_all_unclosed k db :
  (forall o, In o (ords db) -> o_key o = k -> p o = false) -> unclosed_at k now db -> unclosed_at k now (close_all p f line db).
Proof.
  intros Hp Hu o' (o & <- & Ho)%in_map_iff. destruct (p o) eqn:E; [|by apply Hu].
  destruct (Hf o) as (-> & _). intros Hk. by rewrite (Hp o Ho Hk) in E.
Qed.
End CloseAll.

(** *** Each batch keeps the ledger *)

Definition plan_key (p : Planned) : string :=
  match p with P_close o _ _ | P_requeue o _ _ _ | P_ended o _ _ => o_key o end.

Lemma closing_pool now from s d :
  is_open from = true -> is_closed s = true -> closing now (ostate_in from) (as_closed s now d) (closed_by_pool s now d).
Proof.
  intros Hf Hs. split; try done.
  - intros o Ho. unfold ostate_in in Ho. apply bool_decide_eq_true in Ho. by rewrite Ho.
  - intros o. by destruct s.
  - intros o. unfold as_closed, ostate_in. cbn. rewrite !bool_decide_true by done. rewrite Z.eqb_refl, String.eqb_refl. done.
  - intros o Ho. unfold as_closed, ostate_in in Ho. breflect. apply bool_decide_eq_true in H. rewrite H.
    split; [by destruct s|by apply oz_eqb_eq].
Qed.

Lemma final_line_is k o s at_ st : is_final k (final_line o s at_ st) = String.eqb (o_key o) k.
Proof. unfold is_final. cbn. by rewrite andb_true_r. Qed.

Lemma ledger_tasks now t db : ledger now db -> ledger now (set_tasks t db).
Proof. by apply ledger_ext. Qed.
Lemma ledger_row now w f db : ledger now db -> ledger now (set_row w f db).
Proof. by apply ledger_ext. Qed.

(** What one statement of a batch keeps, given its order had not closed at this time. *)
Definition keeps_ledger (now : Z) (k : string) (db db' : ODB) : Prop :=
  unclosed_at k now db -> ledger now db -> ledger now db' /\ forall k', k' <> k -> unclosed_at k' now db -> unclosed_at k' now db'.

Lemma close_say_keeps now k p g f line db :
  closing now p g f -> is_final k line = true -> keeps_ledger now k db (close_say k p g f line db).
Proof. intros Hc Hl Hu Hg. split; [by eapply close_say_ledger|]. intros. by eapply close_say_unclosed. Qed.

Lemma run_planned_ledger w now db p : planned_ok p -> keeps_ledger now (plan_key p) db (run_planned w now db p).
Proof.
  destruct p as [o s d|o t e d|o s d]; cbn [run_planned planned_ok plan_key].
  - intros [H1 H2]. apply (close_say_keeps now _ (ostate_in (w_state o)) (as_closed s now d) (closed_by_pool s now d));
      [by apply closing_pool|]. by rewrite final_line_is, String.eqb_refl.
  - intros _. set (db1 := set_tasks _ db). unfold when at 1. destruct (requeued_with t e db1).
    + intros Hu Hg.
      apply (close_say_keeps now _ (ostate_in Spending) (as_closed Sdone now d) (closed_by_pool Sdone now d)
        (final_line o Sdone now (STATUS_OF_STATE Sdone)) db1); [by apply closing_pool| |exact Hu|by apply ledger_tasks].
      by rewrite final_line_is, String.eqb_refl.
    + intros Hu Hg. unfold finalLine. replace (has _ _ _) with false; [split; [by apply ledger_tasks|done]|].
      symmetry. apply not_true_iff_false. rewrite has_spec. intros (r & Hr & Hk & Ha).
      destruct (cg_only _ _ _ _ (closing_pool now Spending Sdone d eq_refl eq_refl) r Ha) as [Hcl Ht]. by apply (Hu r).
  - intros H. apply (close_say_keeps now _ (ostate_in Spending) (as_closed s now d) (closed_by_pool s now d));
      [by apply closing_pool|]. by rewrite final_line_is, String.eqb_refl.
Qed.

Lemma fold_ledger {X} (f : ODB -> X -> ODB) (key : X -> string) (now : Z) l db :
  (forall db x, In x l -> keeps_ledger now (key x) db (f db x)) -> NoDup (map key l) ->
  (forall k, unclosed_at k now db) -> ledger now db -> ledger now (fold_left f l db).
Proof.
  intros Hf Hn Hu. assert (Hu' : forall x, In x l -> unclosed_at (key x) now db) by auto. clear Hu.
  revert db Hf Hn Hu'. induction l as [|x l IH]; intros db Hf Hn Hu Hl; [done|]. cbn [fold_left].
  cbn [map] in Hn. apply NoDup_cons in Hn as [Hx Hn].
  destruct (Hf db x (or_introl eq_refl) (Hu x (or_introl eq_refl)) Hl) as [Hl' Hu'].
  apply IH; [intros; apply Hf; by right|done| |done].
  intros y Hy. apply Hu'; [|apply Hu; by right]. intros E. apply Hx. rewrite <- E.
  apply list_elem_of_In. by apply in_map.
Qed.

Lemma NoDup_omap {X Y} (f : X -> option Y) (kx : X -> string) (ky : Y -> string) l :
  (forall x y, f x = Some y -> ky y = kx x) -> NoDup (map kx l) -> NoDup (map ky (omap f l)).
Proof.
  intros Hf. induction l as [|x l IH]; [constructor|]. cbn [map]. intros [Hx Hn]%NoDup_cons.
  cbn [omap list_omap]. destruct (f x) as [y|] eqn:E; [|by apply IH]. cbn [map]. apply NoDup_cons. split; [|by apply IH].
  rewrite list_elem_of_In, in_map_iff. intros (y' & Hy & Hin). apply Hx. apply In_omap in Hin as (x' & Hx' & Hfx).
  rewrite <- (Hf _ _ E), <- Hy, (Hf _ _ Hfx). apply list_elem_of_In. by apply in_map.
Qed.

Lemma plan_stop_key x o t now p : plan_stop x o t now = Some p -> plan_key p = o_key o.
Proof. unfold plan_stop. intros H. by repeat (case_match; simplify_eq/=). Qed.

Lemma filter_keys (p : WOrder -> bool) l : NoDup (map o_key l) -> NoDup (map o_key (List.filter p l)).
Proof.
  induction l as [|o l IH]; [done|]. cbn [map List.filter]. intros [Ho Hn]%NoDup_cons. destruct (p o); [|by apply IH].
  cbn [map]. apply NoDup_cons. split; [|by apply IH]. rewrite list_elem_of_In, in_map_iff in *.
  intros (r & Hr & Hin). apply Ho. exists r. split; [done|]. by apply filter_In in Hin as [? _].
Qed.

Lemma plan_keys x pool read now :
  NoDup (map o_key (ords read)) ->
  NoDup (map plan_key (closes_of x pool (open_rows (c_worker x) read) now ++ stops_of x pool (open_rows (c_worker x) read) now read)).
Proof.
  intros Hk. set (rows := open_rows (c_worker x) read).
  assert (Hr : NoDup (map o_key rows)).
  { unfold rows, open_rows. rewrite (sort_by_perm kind_cmp). by apply filter_keys. }
  rewrite List.map_app. apply NoDup_app. split_and!.
  - apply (NoDup_omap _ o_key); [|done]. intros o y H. destruct (act _ _ _ _); by simplify_eq.
  - intros k Hc Hs. apply list_elem_of_In, in_map_iff in Hc as (c & Hck & (o & Ho & Hoc)%In_omap).
    apply list_elem_of_In, in_map_iff in Hs as (s & Hsk & (r & Hrr & Hrs)%In_omap).
    assert (o = r) as ->.
    { destruct (act x pool o now); simplify_eq. destruct (act x pool r now); try done. apply plan_stop_key in Hrs.
      eapply (key_inj read); [done|by apply open_rows_In in Ho as [? _]|by apply open_rows_In in Hrr as [? _]|]. by rewrite <- Hrs, Hsk. }
    by destruct (act x pool r now).
  - apply (NoDup_omap _ o_key); [|done]. intros o y H. destruct (act _ _ _ _); simplify_eq. by eapply plan_stop_key.
Qed.

Lemma deliver_ledger x now ds st : ledger now st.1 -> ledger now (fold_left (deliver_stmt x now) ds st).1.
Proof.
  revert st. induction ds as [|o ds IH]; intros st H; [done|]. cbn [fold_left]. apply IH. cbn [deliver_stmt fst].
  apply still_ledger; [|done]. intros r. destruct (_ && _) eqn:E; [|done]. unfold ostate_in in E. breflect.
  apply bool_decide_eq_true in H1. unfold still. cbn. by rewrite H1.
Qed.

Lemma takeOrders_ledger x pool now read db :
  NoDup (map o_key (ords read)) -> (forall k, unclosed_at k now db) -> ledger now db ->
  ledger now (takeOrders x pool now read db).1.
Proof.
  intros Hr Hu Hl. destruct (take_cases x pool now read db) as [-> | ->]; [done|].
  unfold take_batch. cbn [fst]. apply ledger_row. apply (deliver_ledger x now (deliver_of _ _ _ _) (_, [])). cbn [fst].
  apply (fold_ledger _ plan_key); [|by apply plan_keys|done|done]. intros. by eapply run_planned_ledger, plan_ok.
Qed.

Lemma cancelOrder_ledger o by_ now db :
  (forall k, unclosed_at k now db) -> ledger now db -> ledger now (cancelOrder o by_ now db).
Proof.
  intros Hu Hl. unfold cancelOrder. destruct (cancelRefusal o); [done|]. apply ledger_row.
  apply (close_say_keeps now (o_key o) (ostate_in Spending)
    (fun r => ostate_in Scancelled r && oz_eqb (w_answered_at r) (Some now)) (closed_by_pool Scancelled now _)
    (final_line o Scancelled now "ok") db); [|by rewrite final_line_is, String.eqb_refl|done|done].
  split; try done.
  - intros r Hr. unfold ostate_in in Hr. apply bool_decide_eq_true in Hr. by rewrite Hr.
  - intros r. cbn. by rewrite Z.eqb_refl.
  - intros r Hr. unfold ostate_in in Hr. breflect. apply bool_decide_eq_true in H. rewrite H. split; [done|by apply oz_eqb_eq].
Qed.

Lemma answerOrder_ledger o a now db :
  (forall k, unclosed_at k now db) -> ledger now db -> ledger now (answerOrder o a now db).
Proof.
  intros Hu Hl. unfold answerOrder. destruct (answerRefusal o a); [done|]. case_bool_decide as Hacc.
  - apply still_ledger; [|done]. intros r. destruct (_ && _); [|done]. done.
  - apply ledger_row.
    apply (close_say_keeps now (o_key o) (answerable a)
      (fun r => ostate_in (state_of (an_outcome a)) r && oz_eqb (w_answered_at r) (Some now) && bool_decide (w_answered_by r = Some by_worker))
      (answered (state_of (an_outcome a)) now _ _)
      (final_line o (state_of (an_outcome a)) now _) db); [|by rewrite final_line_is, String.eqb_refl|done|done].
    assert (Hc : is_open (state_of (an_outcome a)) = false) by (by destruct (an_outcome a)).
    split; try done.
    + intros r Hr. unfold answerable in Hr. breflect. by destruct (w_state r).
    + intros r. unfold ostate_in. cbn. rewrite Z.eqb_refl, !bool_decide_true by done. done.
    + intros r Hr. unfold ostate_in in Hr. breflect. apply bool_decide_eq_true in H. rewrite H. split; [done|by apply oz_eqb_eq].
Qed.

Lemma sweep_stmt_ledger now db o s d :
  is_open (w_state o) = true -> is_closed s = true -> keeps_ledger now (o_key o) db (sweep_stmt now db (o, (s, d))).
Proof.
  intros H1 H2.
  apply (close_say_keeps now (o_key o) (ostate_in (w_state o)) (fun r => oz_eqb (w_answered_at r) (Some now) && ostate_in s r)
    (closed_by_pool s now d) (final_line o s now (STATUS_OF_STATE s)) db); [|by rewrite final_line_is, String.eqb_refl].
  split; try done.
  - intros r Hr. unfold ostate_in in Hr. apply bool_decide_eq_true in Hr. by rewrite Hr.
  - intros r. unfold is_closed in H2. by apply negb_true_iff in H2.
  - intros r. unfold ostate_in. cbn. rewrite Z.eqb_refl, bool_decide_true by done. done.
  - intros r Hr. unfold ostate_in in Hr. breflect. apply bool_decide_eq_true in H0. rewrite H0.
    split; [unfold is_closed in H2; by apply negb_true_iff in H2|by apply oz_eqb_eq].
Qed.

Lemma sweep_keys now read : NoDup (map o_key (ords read)) -> NoDup (map (fun c => o_key (fst c)) (sweep_plan now read)).
Proof.
  intros Hk. unfold sweep_plan. rewrite List.map_app, !map_map. cbn [fst]. apply NoDup_app. split_and!; [by apply filter_keys| |by apply filter_keys].
  intros k Hs Hd. apply list_elem_of_In, in_map_iff in Hs as (o & Ho & Hin). apply list_elem_of_In, in_map_iff in Hd as (r & Hr & Hin').
  apply filter_In in Hin as [Hin Hs]. apply filter_In in Hin' as [Hin' Hd].
  assert (o = r) as -> by (eapply (key_inj read); [done|done|done|congruence]).
  unfold stop_due in Hs. unfold due in Hd. breflect. congruence.
Qed.

Lemma refresh_fold_ledger now ws db : ledger now db -> ledger now (fold_left (fun db w => refreshOpen w db) ws db).
Proof. revert db. induction ws as [|w ws IH]; intros db H; [done|]. cbn [fold_left]. apply IH. by apply ledger_row. Qed.

Lemma sweepOrders_ledger now read db :
  NoDup (map o_key (ords read)) -> (forall k, unclosed_at k now db) -> ledger now db -> ledger now (sweepOrders now read db).
Proof.
  intros Hr Hu Hl. unfold sweepOrders, sweep_batch. apply refresh_fold_ledger.
  apply (fold_ledger _ (fun c => o_key (fst c))); [|by apply sweep_keys|done|done].
  intros db' [o [s d]] Hin. apply sweep_plan_ok in Hin as (_ & H1 & H2). by apply sweep_stmt_ledger.
Qed.

Lemma cancelOrdersOf_ledger which d now db : ledger now db -> ledger now (cancelOrdersOf which d now db).
Proof.
  intros Hl. eapply (ledger_ext now (close_all (open_among which) (closed_by_pool Scancelled now d) (fun o => final_line o Scancelled now "ok") db)); [done|done|].
  apply close_all_ledger; [| |by intros; apply final_line_is|done].
  - intros o Ho. unfold open_among in Ho. by breflect.
  - done.
Qed.

(** *** The issue's batch *)

Lemma waiting_open w o : waiting_drain w o = true -> is_open (w_state o) = true.
Proof. unfold waiting_drain. intros H. breflect. by destruct (w_state o). Qed.

Lemma fence_row_ledger now a db : ledger now db -> ledger now (fence_stmt a (drain_stmt a (auto_stmt a db))).
Proof.
  apply ledger_ext; [by rewrite fence_stmt_ords, drain_stmt_ords, auto_stmt_ords|].
  intros k. unfold fence_stmt, drain_stmt, auto_stmt, when.
  destruct (a_auto a) as [[]|]; destruct (task_of a); repeat (case_match; try done).
Qed.

Lemma issue_line_finals k a db : finals k (issue_line a db) = finals k db.
Proof.
  unfold issue_line, when. destruct (exists_ a db); [|done]. rewrite finals_say. cbn [List.filter]. unfold is_final.
  cbn [ln_state]. rewrite andb_false_r. apply Z.add_0_r.
Qed.

(** The drain a resume ends: its line and its close, or nothing of both. *)
Lemma resume_drain_ledger now w id b (d : string) db :
  ledger now db -> unclosed_at id now db ->
  (forall o, In o (ords db) -> o_key o = id -> waiting_drain w o = false) ->
  let db1 := when b (say (map (fun o => final_line o Sdone now "ok") (List.filter (waiting_drain w) (ords db)))) db in
  let db2 := when b (set_ords (map (fun o => if waiting_drain w o then closed_by_pool Sdone now d o else o) (ords db1))) db1 in
  ledger now db2 /\ unclosed_at id now db2.
Proof.
  intros Hl Hu Hk. destruct b; [|done]. cbn zeta. unfold when.
  change (ords (say ?l db)) with (ords db).
  split.
  - apply (close_all_ledger now (waiting_drain w) (closed_by_pool Sdone now d) (fun o => final_line o Sdone now "ok"));
      [apply waiting_open|done|by intros; apply final_line_is|done].
  - by apply (close_all_unclosed now (waiting_drain w) (closed_by_pool Sdone now d) (fun o => final_line o Sdone now "ok")).
Qed.

Definition resumed_row (now : Z) (o : WOrder) : bool := bool_decide (w_state o = Sdone) && oz_eqb (w_answered_at o) (Some now).

Lemma closing_resume now d : closing now (fun o => is_pending (w_state o)) (resumed_row now) (closed_by_pool Sdone now d).
Proof.
  split; try done.
  - intros o Ho. by destruct (w_state o).
  - intros o. unfold resumed_row. cbn. by rewrite Z.eqb_refl.
  - intros o Ho. unfold resumed_row in Ho. breflect. apply bool_decide_eq_true in H. rewrite H. split; [done|by apply oz_eqb_eq].
Qed.

(** The resume's statements: the drain it ends, then its own close and line. *)
Lemma resume_ledger a db :
  (forall k, unclosed_at k (a_now a) db) -> ledger (a_now a) db ->
  (forall o, In o (ords db) -> o_key o = a_id a -> w_kind (iss o) = a_kind a) ->
  ledger (a_now a) (resume_line a (issue_line a (refreshOpen (a_worker a) (resume_stmts a db)))).
Proof.
  intros Hu Hl Hkind.
  assert (Hplain : ledger (a_now a) (issue_line a (refreshOpen (a_worker a) db))).
  { apply (ledger_ext (a_now a) db); [by rewrite issue_line_ords|by intros; rewrite issue_line_finals|done]. }
  unfold resume_line, resume_stmts. destruct (a_resumed a) as [[d dd]|]; [|done].
  destruct (String.eqb_spec (a_kind a) "resume") as [Hk|]; cbn [andb]; [|done]. cbn zeta.
  set (db1 := when (exists_ a db) _ db).
  assert (E1 : exists_ a db1 = exists_ a db) by (unfold exists_, db1; by rewrite when_say_ords). rewrite E1.
  set (db2 := when (exists_ a db) _ db1). set (db3 := when (exists_ a db2) _ db2).
  destruct (resume_drain_ledger (a_now a) (a_worker a) (a_id a) (exists_ a db) dd db) as [Hl2 Hu2]; [done|done| |].
  { intros o Ho Hko. unfold waiting_drain. rewrite (Hkind o Ho Hko), Hk. by rewrite andb_false_r. }
  change (ledger (a_now a) db2) in Hl2. change (unclosed_at (a_id a) (a_now a) db2) in Hu2.
  assert (E3 : ords db3 = ords db2 /\ journal db3 = journal db2) by (unfold db3, when; by destruct (exists_ a db2)).
  destruct E3 as [E3 J3].
  set (line := {| ln_order := a_id a; ln_state := Some Sdone; ln_status := "ok"; ln_at := a_now a |}).
  apply (ledger_ext (a_now a) (close_say (a_id a) (fun o => is_pending (w_state o)) (resumed_row (a_now a))
    (closed_by_pool Sdone (a_now a) d) line db2)).
  - rewrite when_say_ords, issue_line_ords, close_say_ords. cbn. by rewrite E3.
  - intros k. rewrite issue_line_ords. unfold close_say. change (ords (refreshOpen ?w ?x)) with (ords x).
    cbn [set_ords ords]. rewrite E3. unfold when.
    change (fun o : WOrder => bool_decide (w_state o = Sdone) && oz_eqb (w_answered_at o) (Some (a_now a))) with (resumed_row (a_now a)).
    destruct (has (a_id a) (resumed_row (a_now a)) _); rewrite ?finals_say, issue_line_finals; unfold finals; cbn; by rewrite J3.
  - apply close_say_ledger; [apply closing_resume| |done|done].
    unfold is_final. cbn. by rewrite String.eqb_refl.
Qed.

Lemma issue_ledger a db :
  has (a_id a) any (ords db) = false -> (forall k, unclosed_at k (a_now a) db) -> ledger (a_now a) db ->
  ledger (a_now a) (fst (run_op db (Op_issue a))).
Proof.
  intros Hn Hu Hl.
  assert (Hb : forall d, (forall o, In o (ords d) -> o_key o = a_id a -> w_kind (iss o) = a_kind a) ->
    (forall k, unclosed_at k (a_now a) d) -> ledger (a_now a) d -> ledger (a_now a) (issue_batch a d)).
  { intros d Hk Hud Hld. unfold issue_batch.
    assert (Eo : ords (fence_stmt a (drain_stmt a (auto_stmt a d))) = ords d) by (by rewrite fence_stmt_ords, drain_stmt_ords, auto_stmt_ords).
    apply resume_ledger; [intros k; unfold unclosed_at; rewrite Eo; apply Hud|by apply fence_row_ledger|by rewrite Eo]. }
  assert (Hno : forall o, In o (ords db) -> o_key o <> a_id a).
  { intros o Ho Hk. assert (has (a_id a) any (ords db) = true) by (apply has_spec; by exists o). congruence. }
  cbn [run_op]. unfold issueOrder. rewrite Hn. destruct (issue_ok a db); cbn [negb fst].
  - destruct (existsb (same_open _) _); [done|]. destruct (existsb (same_site _) _); [done|]. cbn [fst]. apply Hb.
    + intros o [Ho|[<-|[]]]%in_app_iff Hk; [by destruct (Hno o Ho)|done].
    + intros k o [Ho|[<-|[]]]%in_app_iff; [by apply Hu|]. cbn. by destruct (a_deliver a).
    + apply ledger_snoc; [done|exact Hn|]. cbn. by destruct (a_deliver a).
  - apply Hb; [|done|done]. intros o Ho Hk. by destruct (Hno o Ho).
Qed.

(** *** Traces *)

Definition op_time (p : Op) : option Z :=
  match p with
  | Op_issue a => Some (a_now a)
  | Op_take _ _ now _ | Op_cancel _ _ now | Op_answer _ _ now | Op_sweep now _ | Op_revoke _ _ now => Some now
  | Op_tasks _ => None
  end.

Lemma ledger_mono t u db : t <= u -> ledger t db -> ledger u db.
Proof. intros Hle [H1 H2 H3 H4]. split; try done. intros o x Ho Hc Hx. specialize (H4 o x Ho Hc Hx). lia. Qed.
Lemma ledger_unclosed t u db k : t < u -> ledger t db -> unclosed_at k u db.
Proof. intros Hlt [_ _ _ H4] o Ho _ Hc Hx. specialize (H4 o u Ho Hc Hx). lia. Qed.

Lemma run_op_ledger h db p t :
  reads_from (db :: h) p -> (forall s, In s (db :: h) -> NoDup (map o_key (ords s))) ->
  match op_time p with Some now => t < now | None => True end -> ledger t db ->
  ledger (default t (op_time p)) (fst (run_op db p)).
Proof.
  intros Hr Hk Ht Hl.
  assert (Hn : forall now, t < now -> (forall k, unclosed_at k now db) /\ ledger now db).
  { intros now Hlt. split; [intros k; by eapply ledger_unclosed|eapply ledger_mono; [|exact Hl]; lia]. }
  destruct p; cbn [op_time default reads_from] in *.
  - destruct (Hn _ Ht). by apply issue_ledger.
  - destruct (Hn _ Ht). apply takeOrders_ledger; [by apply Hk|done|done].
  - destruct (Hn _ Ht). by apply cancelOrder_ledger.
  - destruct (Hn _ Ht). by apply answerOrder_ledger.
  - destruct (Hn _ Ht). apply sweepOrders_ledger; [by apply Hk|done|done].
  - destruct (Hn _ Ht). by apply cancelOrdersOf_ledger.
  - by apply ledger_tasks.
Qed.

Lemma trace_ledger h ps out :
  trace h ps out -> StronglySorted Z.gt (omap op_time ps) ->
  (forall s, In s h -> NoDup (map o_key (ords s)))
  /\ forall db, head h = Some db -> forall t, Forall (fun x => x <= t) (omap op_time ps) -> ledger t db.
Proof.
  induction 1 as [db [H J _]|db h ps out p Htr IH Hr]; intros Hs.
  - split.
    + intros s [<-|[]]. rewrite H. constructor.
    + intros db' [= <-] t _. split; rewrite ?H; try done; [constructor|]. intros k _. unfold finals. by rewrite J.
  - assert (Hs' : StronglySorted Z.gt (omap op_time ps)).
    { cbn in Hs. destruct (op_time p); [by inversion Hs|done]. }
    destruct (IH Hs') as [Hk Hl]. specialize (Hl db eq_refl).
    assert (Hnew : forall t, Forall (fun x => x <= t) (omap op_time (p :: ps)) -> ledger t (fst (run_op db p))).
    { intros t Ht. cbn in Hs, Ht. destruct (op_time p) as [now|] eqn:Ep.
      - inversion Hs as [|? ? Hs1 Hs2]; subst. inversion Ht as [|? ? Ht1 Ht2]; subst.
        eapply ledger_mono; [exact Ht1|]. change now with (default (now - 1) (Some now)). rewrite <- Ep.
        apply (run_op_ledger h); [done|done|rewrite Ep; lia|]. apply Hl. eapply Forall_impl; [exact Hs2|]. intros x Hx. lia.
      - change t with (default t (@None Z)). rewrite <- Ep. apply (run_op_ledger h); [done|done|by rewrite Ep|by apply Hl]. }
    split; [|by intros db' [= <-]].
    intros s [<-|Hin]; [|by apply Hk].
    destruct (omap op_time (p :: ps)) as [|x xs] eqn:E.
    + by apply (Hnew 0).
    + apply (Hnew x). constructor; [lia|]. inversion Hs as [|? ? _ Hx]; subst. eapply Forall_impl; [exact Hx|]. intros y Hy. lia.
Qed.

(** over every interleaving of batches at times that never repeat, the
    journal holds exactly one final line for each closed order and none for an
    open one, whichever path closed it. *)
Theorem one_final_line_per_order db h ps out o :
  trace (db :: h) ps out -> StronglySorted Z.gt (omap op_time ps) -> In o (ords db) ->
  finals (o_key o) db = if is_open (w_state o) then 0 else 1.
Proof.
  intros Ht Hs Ho. destruct (trace_ledger _ _ _ Ht Hs) as [_ Hl].
  destruct (omap op_time ps) as [|x xs] eqn:E.
  - by apply (lg_one 0 db); [apply Hl|].
  - apply (lg_one x db); [|done]. apply Hl; [done|]. constructor; [lia|].
    inversion Hs as [|? ? _ Hx]; subst. eapply Forall_impl; [exact Hx|]. intros y Hy. lia.
Qed.

(** ** The open list a claim reads *)

(** The row's column says the worker's open orders, and only them. *)
Definition column (db : ODB) : Prop :=
  forall w r, wrows db !! w = Some r -> r_open r = open_list w (ords db).

(** Only the workers of [W] have their open orders, or their column, changed. *)
Definition quiet (W : list string) (db db' : ODB) : Prop :=
  forall w, ~ In w W ->
    List.filter (open_of w) (ords db') = List.filter (open_of w) (ords db)
    /\ forall r', wrows db' !! w = Some r' -> exists r, wrows db !! w = Some r /\ r_open r' = r_open r.

#[export] Instance quiet_refl W : Reflexive (quiet W).
Proof. intros db w _. split; [done|]. eauto. Qed.
#[export] Instance quiet_trans W : Transitive (quiet W).
Proof.
  intros a b c H1 H2 w Hw. destruct (H1 w Hw) as [F1 R1], (H2 w Hw) as [F2 R2]. split; [congruence|].
  intros r Hr. destruct (R2 r Hr) as (r2 & Hr2 & E2). destruct (R1 r2 Hr2) as (r1 & Hr1 & E1). exists r1. split; [done|congruence].
Qed.

Lemma filter_map_quiet w f l :
  (forall o, In o l -> iss (f o) = iss o) -> (forall o, In o l -> w_worker (iss o) = w -> f o = o) ->
  List.filter (open_of w) (map f l) = List.filter (open_of w) l.
Proof.
  induction l as [|o l IH]; intros Hi Hw; [done|]. cbn [map List.filter].
  rewrite IH by (intros; first [apply Hi|apply Hw]; auto; by right).
  destruct (decide (w_worker (iss o) = w)) as [E|E]; [by rewrite (Hw o (or_introl eq_refl) E)|].
  assert (Hn : String.eqb (w_worker (iss o)) w = false) by (by apply String.eqb_neq).
  unfold open_of. rewrite (Hi o (or_introl eq_refl)), Hn. done.
Qed.

Lemma quiet_ords W db l :
  (forall w, ~ In w W -> List.filter (open_of w) l = List.filter (open_of w) (ords db)) -> quiet W db (set_ords l db).
Proof. intros H w Hw. split; [by apply H|]. eauto. Qed.

Lemma quiet_row W w f db : (forall r, r_open (f r) = r_open r) -> quiet W db (set_row w f db).
Proof.
  intros Hf w' _. split; [done|]. intros r'. cbn [set_row wrows]. intros Hr. rewrite lookup_alter in Hr.
  destruct (decide (w = w')) as [<-|Hne]; [|eauto]. destruct (wrows db !! w) as [r|] eqn:E; [|done].
  cbn in Hr. injection Hr as <-. exists r. split; [done|apply Hf].
Qed.
Lemma quiet_when W b f db : quiet W db (f db) -> quiet W db (when b f db).
Proof. by destruct b. Qed.
Lemma quiet_say W ls db : quiet W db (say ls db).
Proof. intros w _. split; [done|]. eauto. Qed.
Lemma quiet_tasks W t db : quiet W db (set_tasks t db).
Proof. intros w _. split; [done|]. eauto. Qed.

(** The rows of an id are a worker's. *)
Definition owned (k w : string) (db : ODB) : Prop := forall o, In o (ords db) -> o_key o = k -> w_worker (iss o) = w.

Lemma owned_moves k w db db' : Forall2 moves (ords db) (ords db') -> owned k w db -> owned k w db'.
Proof.
  intros H Ho o' Hin Hk. destruct (moves_In _ _ _ H Hin) as (o & Hio & Hm). destruct Hm as [Hi _ _].
  rewrite Hi. apply Ho; [done|]. unfold o_key in *. by rewrite Hi in Hk.
Qed.

Lemma upd_quiet W k w p f db :
  (forall o, iss (f o) = iss o) -> owned k w db -> In w W -> quiet W db (set_ords (upd k p f (ords db)) db).
Proof.
  intros Hf Ho Hw. apply quiet_ords. intros w' Hw'. apply filter_map_quiet.
  - intros o _. destruct (_ && p o); [apply Hf|done].
  - intros o Hin E. destruct (String.eqb_spec (o_key o) k) as [Hk|]; [|done]. exfalso. apply Hw'. by rewrite <- E, (Ho o Hin Hk).
Qed.

Lemma refresh_lookup w db w' :
  wrows (refreshOpen w db) !! w' =
  if decide (w = w') then with_open (open_list w (ords db)) <$> (wrows db !! w') else wrows db !! w'.
Proof.
  unfold refreshOpen, set_row. cbn [wrows]. rewrite lookup_alter. by repeat case_decide; subst.
Qed.

(** What the workers a batch refreshes leave to check. *)
Lemma refresh_column W db :
  (forall w r, ~ In w W -> wrows db !! w = Some r -> r_open r = open_list w (ords db)) ->
  column (fold_left (fun db w => refreshOpen w db) W db).
Proof.
  revert db. induction W as [|w W IH]; intros db H; cbn [fold_left].
  - intros w r Hr. apply H; [by intros []|done].
  - apply IH. intros w' r Hw' Hr. rewrite refresh_lookup in Hr. change (ords (refreshOpen w db)) with (ords db).
    destruct (decide (w = w')) as [<-|Hne].
    + destruct (wrows db !! w) as [r0|]; [|done]. cbn in Hr. by injection Hr as <-.
    + apply H; [|done]. intros [E|E]; [by destruct Hne|done].
Qed.

Lemma quiet_column W db db' :
  quiet W db db' -> column db -> column (fold_left (fun db w => refreshOpen w db) W db').
Proof.
  intros Hq Hc. apply refresh_column. intros w r' Hw Hr. destruct (Hq w Hw) as [Hf Hrow].
  destruct (Hrow r' Hr) as (r & Hr0 & ->). rewrite (Hc w r Hr0). unfold open_list. by rewrite Hf.
Qed.

Lemma run_planned_quiet w now db p : owned (plan_key p) w db -> quiet [w] db (run_planned w now db p).
Proof.
  intros Ho. destruct p as [o s d|o t e d|o s d]; cbn [run_planned plan_key] in *.
  - etransitivity; [|apply quiet_when, quiet_say].
    by apply (upd_quiet [w] (o_key o) w (ostate_in (w_state o)) (closed_by_pool s now d)); [|done|left].
  - etransitivity; [|apply quiet_when, quiet_say]. etransitivity; [|apply quiet_when]; [apply quiet_tasks|].
    by apply (upd_quiet [w] (o_key o) w (ostate_in Spending) (closed_by_pool Sdone now d) (set_tasks _ db)); [|done|left].
  - etransitivity; [|apply quiet_when, quiet_say].
    by apply (upd_quiet [w] (o_key o) w (ostate_in Spending) (closed_by_pool s now d)); [|done|left].
Qed.

Lemma fold_quiet {X} (f : ODB -> X -> ODB) (key own : X -> string) W l db :
  (forall db x, In x l -> Forall2 moves (ords db) (ords (f db x))) ->
  (forall db x, In x l -> owned (key x) (own x) db -> quiet W db (f db x)) ->
  (forall x, In x l -> owned (key x) (own x) db) -> quiet W db (fold_left f l db).
Proof.
  revert db. induction l as [|x l IH]; intros db Hm Hq Ho; cbn [fold_left]; [reflexivity|].
  etransitivity; [apply Hq; [by left|apply Ho; by left]|]. apply IH.
  - intros. apply Hm. by right.
  - intros. apply Hq; [by right|done].
  - intros y Hy. eapply owned_moves; [apply Hm; by left|]. apply Ho. by right.
Qed.

Lemma deliver_quiet x now ds st :
  (forall o, In o ds -> owned (o_key o) (c_worker x) st.1) -> quiet [c_worker x] st.1 (fold_left (deliver_stmt x now) ds st).1.
Proof.
  revert st. induction ds as [|o ds IH]; intros st Ho; cbn [fold_left]; [reflexivity|].
  etransitivity; [|apply IH; intros r Hr; eapply owned_moves; [apply deliver_stmt_moves|]; apply Ho; by right].
  apply (upd_quiet [c_worker x] (o_key o) (c_worker x) (ostate_in Spending) (delivered_to x now)); [done|apply Ho; by left|by left].
Qed.

(** *** Each batch keeps the column *)

Lemma column_ext db db' : ords db' = ords db -> wrows db' = wrows db -> column db -> column db'.
Proof. unfold column. by intros -> ->. Qed.

Lemma issue_quiet a db :
  owned (a_id a) (a_worker a) db ->
  quiet [a_worker a] db (resume_stmts a (fence_stmt a (drain_stmt a (auto_stmt a db)))).
Proof.
  intros Ho.
  assert (H1 : quiet [a_worker a] db (auto_stmt a db)).
  { unfold auto_stmt. destruct (a_auto a) as [[]|]; [|done]. apply quiet_when, quiet_row. intros r. by destruct (ostr_eqb _ _). }
  assert (H2 : quiet [a_worker a] (auto_stmt a db) (drain_stmt a (auto_stmt a db))).
  { apply quiet_when, quiet_row. intros r. by destruct (r_drained_at r). }
  assert (H3 : quiet [a_worker a] (drain_stmt a (auto_stmt a db)) (fence_stmt a (drain_stmt a (auto_stmt a db)))).
  { unfold fence_stmt. destruct (task_of a); [|done]. apply quiet_when, quiet_tasks. }
  etransitivity; [exact H1|]. etransitivity; [exact H2|]. etransitivity; [exact H3|].
  set (d := fence_stmt a _). assert (Hod : owned (a_id a) (a_worker a) d).
  { unfold owned, d. by rewrite fence_stmt_ords, drain_stmt_ords, auto_stmt_ords. }
  clearbody d. clear H1 H2 H3 Ho. unfold resume_stmts. destruct (a_resumed a) as [[det dd]|]; [|done].
  destruct (String.eqb _ _); [|done]. cbn zeta.
  set (d1 := when _ (say _) d). set (d2 := when _ _ d1). set (d3 := when _ _ d2).
  assert (Q1 : quiet [a_worker a] d d1) by (apply quiet_when, quiet_say).
  assert (Q2 : quiet [a_worker a] d1 d2).
  { apply quiet_when, quiet_ords. intros w Hw. apply filter_map_quiet.
    - intros o _. by destruct (waiting_drain _ o).
    - intros o _ E. destruct (waiting_drain _ o) eqn:Hd; [|done]. exfalso. apply Hw. left. unfold waiting_drain in Hd. breflect. congruence. }
  assert (Q3 : quiet [a_worker a] d2 d3) by (apply quiet_when, quiet_row; intros r; by destruct (r_drained_at r)).
  assert (Hm : Forall2 moves (ords d) (ords d3)).
  { assert (E3 : ords d3 = ords d2) by (unfold d3, when; by destruct (exists_ a d2)). rewrite E3.
    assert (E1 : ords d1 = ords d) by apply when_say_ords. rewrite <- E1. apply when_moves. intros _. apply moved_map.
    intros o _. destruct (waiting_drain _ o) eqn:E; [|reflexivity]. apply closed_moves; [by apply (waiting_open (a_worker a))|done]. }
  etransitivity; [exact Q1|]. etransitivity; [exact Q2|]. etransitivity; [exact Q3|].
  apply (upd_quiet [a_worker a] (a_id a) (a_worker a)); [done|by eapply owned_moves|by left].
Qed.

Lemma issue_batch_column a db0 db :
  owned (a_id a) (a_worker a) db -> quiet [a_worker a] db0 db -> column db0 -> column (issue_batch a db).
Proof.
  intros Ho Hq Hc. unfold issue_batch.
  assert (Hcol : column (refreshOpen (a_worker a) (resume_stmts a (fence_stmt a (drain_stmt a (auto_stmt a db)))))).
  { apply (quiet_column [a_worker a] db0); [|done]. etransitivity; [exact Hq|by apply issue_quiet]. }
  revert Hcol. generalize (refreshOpen (a_worker a) (resume_stmts a (fence_stmt a (drain_stmt a (auto_stmt a db))))) as d.
  intros d. apply column_ext; unfold resume_line, issue_line; by destruct (a_resumed a), (exists_ a d); cbn [when];
    unfold when; repeat case_match.
Qed.

Lemma issue_column a db :
  has (a_id a) any (ords db) = false -> column db -> column (fst (run_op db (Op_issue a))).
Proof.
  intros Hn Hc.
  assert (Hno : forall o, In o (ords db) -> o_key o <> a_id a).
  { intros o Ho Hk. assert (has (a_id a) any (ords db) = true) by (apply has_spec; by exists o). congruence. }
  cbn [run_op]. unfold issueOrder. rewrite Hn. destruct (issue_ok a db); cbn [negb fst].
  - destruct (existsb (same_open _) _); [done|]. destruct (existsb (same_site _) _); [done|]. cbn [fst].
    apply (issue_batch_column a db); [| |done].
    + intros o [Ho|[<-|[]]]%in_app_iff Hk; [by destruct (Hno o Ho)|done].
    + apply quiet_ords. intros w Hw. rewrite List.filter_app. cbn [List.filter].
      replace (open_of w (new_order a)) with false; [by rewrite app_nil_r|].
      symmetry. unfold open_of. cbn [iss new_order w_worker]. destruct (String.eqb_spec (a_worker a) w) as [E|]; [|done].
      exfalso. apply Hw. by left.
  - apply (issue_batch_column a db); [|done|done]. intros o Ho Hk. by destruct (Hno o Ho).
Qed.

Lemma take_batch_column x plan deliver now db :
  (forall p, In p plan -> planned_ok p) -> (forall p, In p plan -> owned (plan_key p) (c_worker x) db) ->
  (forall o, In o deliver -> owned (o_key o) (c_worker x) db) -> column db -> column (take_batch x plan deliver now db).1.
Proof.
  intros Hp Ho Hd Hc. unfold take_batch. cbn [fst]. apply (quiet_column [c_worker x] db); [|done].
  assert (Hm : Forall2 moves (ords db) (ords (fold_left (run_planned (c_worker x) now) plan db))).
  { apply fold_moves. intros. apply run_planned_moves. by apply Hp. }
  etransitivity; [|apply (deliver_quiet x now deliver (_, []))].
  - apply (fold_quiet _ plan_key (fun _ => c_worker x)); [|by intros; apply run_planned_quiet|done].
    intros. apply run_planned_moves. by apply Hp.
  - intros o Hin. cbn [fst]. eapply owned_moves; [exact Hm|by apply Hd].
Qed.

Lemma sort_by_map {A} (cmp : A -> A -> Z) (f : A -> A) l :
  (forall a b, cmp (f a) (f b) = cmp a b) -> sort_by cmp (map f l) = map f (sort_by cmp l).
Proof.
  intros Hf. assert (Hi : forall x l, insert_by cmp (f x) (map f l) = map f (insert_by cmp x l)).
  { intros x k. induction k as [|y k IH]; [done|]. cbn [map insert_by]. rewrite Hf. destruct (_ <=? 0); [done|].
    cbn [map]. by rewrite IH. }
  induction l as [|x l IH]; [done|]. cbn [map]. unfold sort_by in *. cbn [foldr]. by rewrite IH, Hi.
Qed.

(** A change that keeps what the open list says. *)
Lemma open_list_map w f l :
  (forall o, iss (f o) = iss o /\ w_state (f o) = w_state o) -> open_list w (map f l) = open_list w l.
Proof.
  intros Hf. unfold open_list.
  assert (Hfil : List.filter (open_of w) (map f l) = map f (List.filter (open_of w) l)).
  { assert (Ho : forall o, open_of w (f o) = open_of w o) by (intros o; unfold open_of; by destruct (Hf o) as [-> ->]).
    induction l as [|o l IH]; [done|]. cbn [map List.filter]. rewrite Ho, IH. by destruct (open_of w o). }
  rewrite Hfil, sort_by_map.
  - rewrite map_map. apply map_ext. intros o. unfold entry. by destruct (Hf o) as [-> ->].
  - intros a b. unfold kind_cmp. by destruct (Hf a) as [-> _], (Hf b) as [-> _].
Qed.

Lemma cancelOrder_column o by_ now db :
  owned (o_key o) (w_worker (iss o)) db -> column db -> column (cancelOrder o by_ now db).
Proof.
  intros Ho Hc. unfold cancelOrder. destruct (cancelRefusal o); [done|].
  apply (quiet_column [w_worker (iss o)] db); [|done]. etransitivity; [|apply quiet_when, quiet_say].
  by apply (upd_quiet [w_worker (iss o)] (o_key o) (w_worker (iss o)) (ostate_in Spending) (closed_by_pool Scancelled now _)); [|done|left].
Qed.

Lemma answerOrder_column o a now db :
  owned (o_key o) (w_worker (iss o)) db -> column db -> column (answerOrder o a now db).
Proof.
  intros Ho Hc. unfold answerOrder. destruct (answerRefusal o a) eqn:Hr; [done|].
  assert (Hw : w_worker (iss o) = an_worker a).
  { unfold answerRefusal in Hr. destruct (String.eqb _ _) eqn:E; [by apply String.eqb_eq|done]. }
  rewrite Hw in Ho. case_bool_decide.
  - intros w r Hw'. cbn [set_ords wrows ords] in *. rewrite (Hc w r Hw'). symmetry. apply open_list_map.
    intros r'. by destruct (_ && _).
  - apply (quiet_column [an_worker a] db); [|done]. etransitivity; [|apply quiet_when, quiet_say].
    by apply (upd_quiet [an_worker a] (o_key o) (an_worker a) (answerable a) (answered (state_of (an_outcome a)) now _ _)); [|done|left].
Qed.

Lemma sweepOrders_column now read db :
  (forall o, In o (ords read) -> owned (o_key o) (w_worker (iss o)) db) -> column db -> column (sweepOrders now read db).
Proof.
  intros Ho Hc. unfold sweepOrders, sweep_batch. apply (quiet_column _ db); [|done].
  set (W := dedup _).
  apply (fold_quiet _ (fun c => o_key (fst c)) (fun c => w_worker (iss (fst c)))).
  - intros d [o [s det]] Hin. apply sweep_plan_ok in Hin as (_ & H1 & H2). by apply sweep_stmt_moves.
  - intros d [o [s det]] Hin Hod. cbn [fst] in Hod. etransitivity; [|apply quiet_when, quiet_say].
    apply (upd_quiet W (o_key o) (w_worker (iss o)) (ostate_in (w_state o)) (closed_by_pool s now det)); [done|done|].
    apply dedup_In, in_map_iff. by exists (o, (s, det)).
  - intros [o [s det]] Hin. apply sweep_plan_ok in Hin as (Hin & _). by apply Ho.
Qed.

Lemma cancelOrdersOf_column which d now db : column db -> column (cancelOrdersOf which d now db).
Proof.
  intros Hc w r' Hr. cbn [cancelOrdersOf wrows ords set_ords say] in *. rewrite map_lookup_imap in Hr.
  destruct (wrows db !! w) as [r|] eqn:Er; [|done]. cbn in Hr. injection Hr as <-.
  destruct (str_in w which) eqn:Ew.
  - cbn [revoked_row r_open]. unfold open_list.
    replace (List.filter (open_of w) _) with (@nil WOrder); [done|]. symmetry.
    induction (ords db) as [|o l IH]; [done|]. cbn [map List.filter]. rewrite IH.
    unfold open_among. destruct (str_in (w_worker (iss o)) which && is_open (w_state o)) eqn:E; unfold open_of.
    + cbn. by rewrite andb_false_r.
    + destruct (String.eqb_spec (w_worker (iss o)) w) as [Ew'|]; [|done]. rewrite Ew', Ew in E. cbn [andb] in *. by rewrite E.
  - rewrite (Hc w r Er). unfold open_list. f_equal. f_equal. symmetry. apply filter_map_quiet.
    + intros o _. by destruct (open_among which o).
    + intros o _ E. unfold open_among. by rewrite E, Ew.
Qed.

Lemma trace_keys h ps out :
  trace h ps out -> forall db, head h = Some db ->
  NoDup (map o_key (ords db)) /\ forall s, In s h -> grows (ords s) (ords db).
Proof.
  induction 1 as [db [H _ _]|db h ps out p Htr IH Hr]; intros db' [= <-].
  - split; [rewrite H; constructor|]. intros s [<-|[]]. reflexivity.
  - destruct (IH db eq_refl) as [Hn Hg]. split.
    + assert (Hk : forall l l', Forall2 moves l l' -> map o_key l' = map o_key l).
      { induction 1 as [|a b l l' Hab _ IHl]; [done|]. cbn [map]. by rewrite (moves_key _ _ Hab), IHl. }
      destruct (run_op_ords db p) as [Hm|(a & -> & _ & Hnew & _ & _ & Hm & _)]; rewrite (Hk _ _ Hm); [done|].
      rewrite List.map_app. apply NoDup_app. split_and!; [done| |apply NoDup_singleton].
      intros k Hin ->%list_elem_of_singleton. apply list_elem_of_In, in_map_iff in Hin as (o & Ho & Hin).
      assert (has (a_id a) any (ords db) = true) by (apply has_spec; by exists o). congruence.
    + intros s [<-|Hin]; [reflexivity|]. etransitivity; [by apply Hg|]. apply run_op_grows.
Qed.

Lemma grows_owned db s o :
  NoDup (map o_key (ords db)) -> grows (ords s) (ords db) -> In o (ords s) -> owned (o_key o) (w_worker (iss o)) db.
Proof.
  intros Hn (l1 & new & E & Hm) Ho r Hr Hk. destruct (moves_In_l _ _ _ Hm Ho) as (o' & Ho' & Hmv).
  assert (Hin : In o' (ords db)) by (rewrite E; apply in_app_iff; by left).
  rewrite (key_inj db r o' Hn Hr Hin) by (rewrite Hk; symmetry; by apply moves_key). by destruct Hmv as [-> _ _].
Qed.

Lemma plan_row x pool now read p :
  In p (closes_of x pool (open_rows (c_worker x) read) now ++ stops_of x pool (open_rows (c_worker x) read) now read) ->
  exists o, plan_key p = o_key o /\ In o (open_rows (c_worker x) read).
Proof.
  intros [(o & Ho & Hp)%In_omap|(o & Ho & Hp)%In_omap]%in_app_iff; exists o; (split; [|done]).
  - destruct (act _ _ _ _); by simplify_eq.
  - destruct (act _ _ _ _); simplify_eq. by eapply plan_stop_key.
Qed.

Lemma run_op_column h db p :
  reads_from (db :: h) p -> NoDup (map o_key (ords db)) -> (forall s, In s (db :: h) -> grows (ords s) (ords db)) ->
  column db -> column (fst (run_op db p)).
Proof.
  intros Hr Hn Hg Hc.
  assert (Ho : forall s o, In s (db :: h) -> In o (ords s) -> owned (o_key o) (w_worker (iss o)) db).
  { intros s o Hs Hin. by apply (grows_owned db s); [|apply Hg|]. }
  destruct p as [a|x pool now read|o b now|o a now|now read|which d now|f]; cbn [reads_from] in Hr.
  - by apply issue_column.
  - cbn [run_op]. destruct (take_cases x pool now read db) as [-> | ->]; [done|].
    assert (Hrow : forall o, In o (open_rows (c_worker x) read) -> owned (o_key o) (c_worker x) db).
    { intros o [Hin Ho']%open_rows_In. unfold open_of in Ho'. breflect. rewrite <- H. by apply (Ho read).  }
    apply take_batch_column; [apply plan_ok| | |done].
    + intros p Hin. destruct (plan_row _ _ _ _ _ Hin) as (o & -> & Hor). by apply Hrow.
    + intros o Hin. apply Hrow. unfold deliver_of in Hin. apply sort_by_In in Hin. by apply filter_In in Hin as [? _].
  - cbn [run_op fst]. destruct Hr as (s & Hs & Hin). apply cancelOrder_column; [by apply (Ho s)|done].
  - cbn [run_op fst]. destruct Hr as (s & Hs & Hin). apply answerOrder_column; [by apply (Ho s)|done].
  - cbn [run_op fst]. apply sweepOrders_column; [|done]. intros o. by apply Ho.
  - cbn [run_op fst]. by apply cancelOrdersOf_column.
  - done.
Qed.

(** over every interleaving, a worker's row carries exactly its open
    orders: a claim that reads none on its row, and no table, misses none. *)
Theorem open_column_is_the_table db h ps out w r :
  trace (db :: h) ps out -> wrows db !! w = Some r ->
  r_open r = open_list w (ords db) /\ (r_open r = [] -> forall o, In o (ords db) -> w_worker (iss o) = w -> is_open (w_state o) = false).
Proof.
  intros Ht Hr.
  assert (Hc : forall h ps out, trace h ps out -> forall db, head h = Some db -> column db).
  { clear. induction 1 as [db [H _ Ho]|db h ps out p Htr IH Hr]; intros db' [= <-].
    - intros w r Hw. rewrite (Ho w r Hw), H. done.
    - destruct (trace_keys _ _ _ Htr db eq_refl). by apply (run_op_column h db p); auto. }
  assert (E : r_open r = open_list w (ords db)) by (by apply (Hc _ _ _ Ht db eq_refl)). split; [done|].
  intros Hnil o Ho Hw. rewrite E in Hnil. unfold open_list in Hnil. apply map_eq_nil, sort_by_nil in Hnil.
  destruct (is_open (w_state o)) eqn:Eo; [|done]. exfalso.
  assert (Hin : In o (List.filter (open_of w) (ords db))).
  { apply filter_In. split; [done|]. unfold open_of. by rewrite Hw, String.eqb_refl, Eo. }
  by rewrite Hnil in Hin.
Qed.

(** ** A concrete worker and its orders *)

Definition W1 : string := "w1".
Definition row0 : WRow :=
  {| r_host := false; r_drained_at := None; r_drained_by := None; r_drain_reason := None; r_auto := None; r_open := []; r_spell := None |}.
Definition db0 : ODB :=
  {| ords := []; wrows := {[ W1 := row0 ]}; tdb := {| tasks := empty; host_rows := empty |}; journal := [] |}.
Definition ask (id kind by_ : string) (now : Z) : IssueAsk :=
  {| a_id := id; a_worker := W1; a_kind := kind; a_reason := "asked"; a_by := by_; a_via := Some "web"%string; a_rule := None;
     a_unless := false; a_site := None; a_baseline := None; a_auto := None; a_deliver := None; a_task := None; a_host := false;
     a_resumed := None; a_now := now; a_status := "ok" |}.
Definition claim1 : AfterClaim :=
  {| c_worker := W1;
     c_claim := {| takes_ := Some ["recheck-agent"; "restart"]%string; instance := Some "p1"%string; started_at_ := None;
                   agent_via_ := None; site_ := None; restarts_left_ := None; previous_exit := None; version_ := Some "v1.2.3"%string;
                   probe := None; pairRestart := false; rollout_ := None |};
     c_instance := Some "p1"%string; c_instance_since := None; c_conflict := false; c_status := Some "error"%string;
     c_checked_at := None; c_listed := None |}.
Definition pool1 : RunningVersion := {| version := "v1.2.3"; deployed_at := None |}.
Definition T1 : Z := 1780000000000.

Definition p1 : Op := Op_issue (ask "wo_1" "restart" "ana" T1).
Definition s1 : ODB := fst (run_op db0 p1).
Definition p2 : Op := Op_issue (ask "wo_2" "restart" "bo" (T1 + 1)).
Definition s2 : ODB := fst (run_op s1 p2).
Definition p3 : Op := Op_take claim1 pool1 (T1 + 2) s1.
Definition s3 : ODB := fst (run_op s2 p3).
Definition p4 : Op := Op_sweep (T1 + 3 + 31 * MIN) s3.
Definition s4 : ODB := fst (run_op s3 p4).

Lemma db0_fresh : fresh_db db0.
Proof.
  split; [reflexivity|reflexivity|]. intros w r H. unfold db0 in H; cbn [wrows] in H. apply lookup_singleton_Some in H as [_ <-]. reflexivity.
Qed.

Lemma trace4 : trace [s4; s3; s2; s1; db0] [p4; p3; p2; p1] ["wo_1"%string].
Proof.
  assert (H1 : trace [s1; db0] [p1] ([] ++ snd (run_op db0 p1))) by (apply tr_step; [apply tr_start, db0_fresh|reflexivity]).
  assert (H2 : trace [s2; s1; db0] [p2; p1] ([] ++ snd (run_op db0 p1) ++ snd (run_op s1 p2))).
  { rewrite app_assoc. apply tr_step; [exact H1|reflexivity]. }
  assert (H3 : trace [s3; s2; s1; db0] [p3; p2; p1] (([] ++ snd (run_op db0 p1) ++ snd (run_op s1 p2)) ++ snd (run_op s2 p3))).
  { apply tr_step; [exact H2|right; left; reflexivity]. }
  assert (H4 := tr_step _ _ _ _ p4 H3 (or_introl eq_refl)). exact H4.
Qed.

Lemma times4 : StronglySorted Z.gt (omap op_time [p4; p3; p2; p1]).
Proof. repeat constructor. Qed.


Definition p2r : Op := Op_issue (ask "wo_2" "recheck-agent" "bo" (T1 + 1)).
Definition s2r : ODB := fst (run_op s1 p2r).
Lemma trace2r : trace [s2r; s1; db0] [p2r; p1] [].
Proof. exact (tr_step s1 [db0] [p1] [] p2r (tr_step db0 [] [] [] p1 (tr_start db0 db0_fresh) eq_refl) eq_refl). Qed.

Lemma one_open_order_per_kind_witness :
  exists a b, ords s2r !! 0%nat = Some a /\ ords s2r !! 1%nat = Some b /\ same_open a b = false.
Proof.
  eexists _, _. split; [reflexivity|]. split; [reflexivity|].
  eapply (one_open_order_per_kind s2r _ _ _ 0%nat 1%nat _ _ trace2r); [reflexivity|reflexivity|discriminate].
Defined.

Lemma order_handed_once_witness : NoDup ["wo_1"%string].
Proof. exact (order_handed_once _ _ _ _ trace4). Defined.

Definition first_order : WOrder := default (new_order (ask "" "" "" 0)) (head (ords s4)).
Lemma one_final_line_per_order_witness : o_key first_order = "wo_1"%string /\ finals (o_key first_order) s4 = 1.
Proof.
  split; [reflexivity|].
  assert (Hin : In first_order (ords s4)) by (left; reflexivity).
  assert (H := one_final_line_per_order s4 _ _ _ first_order trace4 times4 Hin).
  assert (E : is_open (w_state first_order) = false) by (vm_compute; reflexivity). rewrite E in H. exact H.
Defined.

Lemma open_column_is_the_table_witness : exists r, wrows s2r !! W1 = Some r /\ length (r_open r) = 2%nat /\ r_open r = open_list W1 (ords s2r).
Proof.
  eexists. split; [vm_compute; reflexivity|]. split; [reflexivity|].
  refine (proj1 (open_column_is_the_table s2r _ _ _ W1 _ trace2r _)). vm_compute. reflexivity.
Defined.

(** Two sweeps that read the same rows in the same millisecond: the second closes nothing, and still
    writes the final line, since its guard compares what the row holds with what it would have written. *)
Lemma same_millisecond_two_lines :
  finals "wo_1" (fst (run_op s4 p4)) = 2 /\ reads_from [s4; s3] p4.
Proof. split; [vm_compute; reflexivity|]. right. left. reflexivity. Qed.
