(* ===== verification/OrderRights.v ===== *)
(** * Orders: who may press what (worker/src/orders.ts orderVerdicts)

    The one predicate of the door and of the page's greyed buttons: the caller,
    the worker as its row says it, and the counts read once. Times are
    milliseconds; a column of a time is what its text parses to. *)
From S2P Require Import Prelude JsTime Json Manifest Update Selection Tasks OrderRules OrderDoor.
Local Open Scope string_scope.
Local Open Scope Z_scope.

Inductive Verdict := Allow | No (status : Z) (why : string).
Definition allowed_ (v : Verdict) : bool := match v with Allow => true | No _ _ => false end.
(** [a ?? b]: the first refusal, or [b]. *)
Definition orElse (a : option Verdict) (b : Verdict) : Verdict := default b a.
Definition or_else (a b : option Verdict) : option Verdict := match a with Some _ => a | None => b end.

Inductive OrderRight := recheck | restart_ | restart_agent | drain_ | resume_ | stop_task | update_ | cancel_.
#[export] Instance OrderRight_eq_dec : EqDecision OrderRight.
Proof. solve_decision. Defined.
Definition RIGHT_OF (kind : string) : option OrderRight :=
  if String.eqb kind "recheck-agent" then Some recheck
  else if String.eqb kind "restart" then Some restart_
  else if String.eqb kind "restart-agent" then Some restart_agent
  else if String.eqb kind "drain" then Some drain_
  else if String.eqb kind "resume" then Some resume_
  else if String.eqb kind "stop-task" then Some stop_task
  else if String.eqb kind "update" then Some update_ else None.
Definition KIND_OF (r : OrderRight) : option string :=
  match r with
  | recheck => Some "recheck-agent" | restart_ => Some "restart" | restart_agent => Some "restart-agent"
  | drain_ => Some "drain" | resume_ => Some "resume" | stop_task => Some "stop-task" | update_ => Some "update"
  | cancel_ => None
  end.

(** The worker as the predicate reads it; [ow_takes] is its declared kinds, [Some []] when they do not parse. *)
Record OrderWorker := {
  ow_id : string; ow_owner : option string; ow_revoked : bool; ow_version : option string; ow_takes : option (list string);
  ow_open : list OpenOrder; ow_conflict : option string; ow_restarts_left : option Z; ow_via : option string;
  ow_project : bool; ow_drained_at : option string; ow_drained_by : option string; ow_drain_reason : option string;
  ow_current_task : option Z; ow_rollout : option RolloutReport; ow_host : bool; ow_reported_at : option string;
  ow_release : option string }.

(** The task a stop is of, as read by its key. *)
Record HeldTask := { ht_id : Z; ht_leased : bool; ht_owner : option string; ht_stop : option string }.

Record OrderFacts := {
  of_now : Z; of_restarts : Z; of_rechecks : Z; of_login : Z; of_drains : Z; of_stops : Z;
  of_restarts_free : option string; of_rechecks_free : option string; of_login_free : option string;
  of_drains_free : option string; of_stops_free : option string; of_task : option HeldTask; of_pool : option RunningVersion }.

Record Caller := { ca_login : string; ca_maintainer : bool }.

(** *** Words *)

Definition free_words (freeAt : option string) (otherwise : string) : string :=
  match freeAt with Some s => if truthy s then clock_of s else otherwise | None => otherwise end.
Definition utc_of (s : string) : string := clock_of s +:+ " UTC".
Definition stopCapWords (login : string) (freeAt : option string) : string :=
  login +:+ " stopped " +:+ zstr MAX_STOPS_PER_LOGIN_HOUR +:+ " host tasks in an hour; further stops refused until "
  +:+ free_words freeAt "the hour ends".
Definition loginCapWords (login : string) (freeAt : option string) : string :=
  login +:+ " reached " +:+ zstr MAX_ORDERS_PER_LOGIN_HOUR +:+ " orders in an hour; further orders refused until "
  +:+ free_words freeAt "the hour ends".
Definition KIND_WORD (kind : string) : string :=
  if String.eqb kind "recheck-agent" then "a re-check" else if String.eqb kind "restart" then "a restart"
  else if String.eqb kind "restart-agent" then "a restart of its agent service"
  else if String.eqb kind "drain" then "a drain" else if String.eqb kind "resume" then "a resume"
  else if String.eqb kind "stop-task" then "a stop of its task" else "an update".
Definition because (reason : option string) : string :=
  match reason with Some r => if truthy r then ": " +:+ r else "" | None => "" end.
Definition since_words (at_ : option string) : string :=
  match at_ with Some t => if truthy t then utc_of t else "?" | None => "?" end.
Definition drainWords (by_ at_ reason : option string) : string :=
  "by " +:+ default "?" by_ +:+ ", " +:+ since_words at_ +:+ because reason.
Definition drainCapWords (freeAt : option string) : string :=
  "drained " +:+ zstr MAX_RESTARTS_PER_HOUR +:+ " times in the last hour; the next from "
  +:+ match freeAt with Some s => if truthy s then utc_of s else "within the hour" | None => "within the hour" end.

Section Verdicts.
Context (c : option Caller) (w : OrderWorker) (f : OrderFacts).

Definition login_of : string := match c with Some c => ca_login c | None => "" end.
Definition is_maintainer : bool := match c with Some c => ca_maintainer c | None => false end.
(** The caller is the worker's owner: [w.owner !== null && c.login === w.owner]. *)
Definition is_owner : bool := match c, ow_owner w with Some c, Some o => String.eqb (ca_login c) o | _, _ => false end.

(** Its owner and every maintainer give a worker orders. *)
Definition first : option Verdict :=
  match c with
  | None => Some (No 401 "sign in with GitHub")
  | Some c' =>
      if ow_revoked w then Some (No 404 (ow_id w +:+ " is revoked already"))
      else if negb (ca_maintainer c') && negb is_owner then
        Some (No 403 match ow_owner w with
                     | Some o => if truthy o then "only " +:+ o +:+ " or a maintainer gives it orders" else "only a maintainer gives it orders"
                     | None => "only a maintainer gives it orders"
                     end)
      else None
  end.

Definition login_capped : option Verdict :=
  if MAX_ORDERS_PER_LOGIN_HOUR <=? of_login f then
    Some (No 409 (loginCapWords (match c with Some c => ca_login c | None => "you" end) (of_login_free f))) else None.
Definition conflicted : option Verdict :=
  match ow_conflict w with
  | Some s => if truthy s then Some (No 409 ("two processes share this token since " +:+ clock_of s +:+ ": orders are held")) else None
  | None => None
  end.
Definition restarts_capped : option Verdict :=
  if MAX_RESTARTS_PER_HOUR <=? of_restarts f then
    Some (No 409 ("restarted " +:+ zstr MAX_RESTARTS_PER_HOUR +:+ " times in the last hour; the next from "
                  +:+ free_words (of_restarts_free f) "within the hour")) else None.
Definition waiting (kind : string) : option Verdict :=
  match List.find (fun o => String.eqb (oo_kind o) kind) (ow_open w) with
  | Some o => Some (No 409 (KIND_WORD kind +:+ " is waiting already (" +:+ oo_id o +:+ ", by " +:+ default "undefined" (oo_by o) +:+ ", "
                            +:+ clock_of (default "" (oo_at o)) +:+ ")"))
  | None => None
  end.

Definition drainVerdict : Verdict :=
  if truthyo (ow_drained_at w) then
    No 409 ("drained already (" +:+ drainWords (ow_drained_by w) (ow_drained_at w) (ow_drain_reason w) +:+ ") — Resume ends it")
  else
    let capped := if MAX_RESTARTS_PER_HOUR <=? of_drains f then Some (No 409 (drainCapWords (of_drains_free f))) else None in
    orElse (or_else (waiting "drain") (or_else capped login_capped)) Allow.

Definition owner_words : string := default "null" (ow_owner w).
Definition resumeVerdict : Verdict :=
  if negb (truthyo (ow_drained_at w)) then No 409 "it is not drained: there is nothing to resume"
  else
    let said := since_words (ow_drained_at w) +:+ because (ow_drain_reason w) in
    if ow_host w then
      if ostr_eqb (ow_drained_by w) (ow_owner w) && negb is_owner then
        No 403 (owner_words +:+ " drained their host (" +:+ said +:+ "): it goes back to work on " +:+ owner_words
                +:+ "'s word only — they may need the machine")
      else if negb (ostr_eqb (ow_drained_by w) (ow_owner w)) && negb is_owner && negb (ostr_eqb (Some login_of) (ow_drained_by w)) then
        No 403 (default "a maintainer" (ow_drained_by w) +:+ " drained it (" +:+ said +:+ "): " +:+ default "its owner" (ow_owner w)
                +:+ " or " +:+ default "that maintainer" (ow_drained_by w) +:+ " resumes it")
      else Allow
    else if ow_project w && negb is_maintainer && negb (ostr_eqb (ow_drained_by w) (Some login_of)) then
      No 403 (default "a maintainer" (ow_drained_by w) +:+ " drained it (" +:+ said +:+ "): a project worker goes back to work on a maintainer's word")
    else if negb (ow_project w) && negb is_owner && match ow_owner w with Some o => ostr_eqb (ow_drained_by w) (Some o) | None => false end then
      No 403 (owner_words +:+ " drained it (" +:+ said +:+ "): putting their machine back to work is theirs — to keep it out, revoke it")
    else Allow.

(** The stop's task: leased to this worker. *)
Definition holds (t : HeldTask) : bool := ht_leased t && ostr_eqb (ht_owner t) (Some (ow_id w)).
Definition stopVerdict : Verdict :=
  if ow_host w then
    match of_task f with
    | None => No 409 "no task to stop: name one of the leases it holds now (task)"
    | Some t =>
        if negb (holds t) then No 409 ("it does not hold #" +:+ zstr (ht_id t) +:+ " now: there is nothing to stop")
        else if truthyo (ht_stop t) then
          No 409 ("task #" +:+ zstr (ht_id t) +:+ " is being stopped already: it goes back to the queue once this host's dispatcher has stopped it")
        else if MAX_STOPS_PER_LOGIN_HOUR <=? of_stops f then No 409 (stopCapWords login_of (of_stops_free f))
        else Allow
    end
  else
    match of_task f, ow_current_task w with
    | Some t, Some cur =>
        if (cur =? 0) || negb (ht_id t =? cur) || negb (holds t) then No 409 "idle: there is no task to stop"
        else if truthyo (ht_stop t) then
          No 409 ("task #" +:+ zstr (ht_id t) +:+ " is being stopped already: it goes back to the queue once this worker has stopped it")
        else orElse (or_else (waiting "stop-task") (or_else restarts_capped login_capped)) Allow
    | _, _ => No 409 "idle: there is no task to stop"
    end.

(** Update: its set's updater executes it. *)
Definition updateVerdict : Verdict :=
  match first with
  | Some v => v
  | None =>
      match of_pool f with
      | Some pool =>
          if negb (match parseTag (Some (version pool)) with Some _ => true | None => false end) then
            No 409 ("the pool runs no release (" +:+ version pool +:+ "): there is nothing to update to")
          else
            let runs := match ow_version w with Some v => Some v | None => if ow_host w then ow_release w else None end in
            match parseTag runs with
            | None =>
                No 409 (if ow_host w
                        then "its host's agent reports no release applied (" +:+ default "none" runs +:+ "): the pool cannot tell whether it is behind"
                        else "its image reports no release (" +:+ default "none" (ow_version w) +:+ "): the pool cannot tell whether it is behind")
            | Some _ =>
                let follows_ := if ow_host w then "host's agent" else "updater" in
                let minutes := zstr (FOLLOW_POLL_S / 60) +:+ " min" in
                if negb (outdated (updateState runs pool (of_now f) None None RELEASE_POLICY)) then
                  No 409 (if String.eqb (versionWord runs "its version") (versionWord (Some (version pool)) "its version")
                          then "runs " +:+ versionWord runs "its version" +:+ ", the latest — its " +:+ follows_ +:+ " follows each release within " +:+ minutes
                          else "runs " +:+ versionWord runs "its version" +:+ ", newer than the pool's " +:+ versionWord (Some (version pool)) "its version"
                               +:+ " — its " +:+ follows_ +:+ " follows the pool back within " +:+ minutes)
                else
                  let refused := if ow_host w then hostRolloutRefusal (ow_reported_at w) (of_now f)
                                 else if ow_project w then rolloutRefusal (ow_rollout w) (ow_version w) else None in
                  match refused with
                  | Some why => No 409 why
                  | None => orElse (or_else (waiting "update") (or_else conflicted (or_else restarts_capped login_capped))) Allow
                  end
            end
      | None => No 409 "the pool runs no release (unknown): there is nothing to update to"
      end
  end.

(** A kind its process takes. *)
Definition liveVerdict (kind : string) : Verdict :=
  match ow_takes w with
  | None => No 409 ("its image (" +:+ default "unknown" (ow_version w) +:+ ") takes no orders — its host's updater replaces it")
  | Some takes =>
      if negb (str_in kind takes) then
        No 409 (if String.eqb kind "recheck-agent" then "it runs no agent to re-check"
                else if String.eqb kind "restart" then "its container has no restart policy it can count on: a restart would stop it for good"
                else "it calls no agent service of its own host (its agent is "
                     +:+ (if ostr_eqb (ow_via w) (Some "broker") then "its broker's"
                          else if ostr_eqb (ow_via w) (Some "sibling") then "a service it could not identify" else "the provider's, direct")
                     +:+ ")")
      else
        let spent := if String.eqb kind "restart" then
                       match ow_restarts_left w with
                       | Some n => if n <? 3 then
                                     Some (No 409 ("its restart policy (on-failure) has " +:+ zstr n +:+ " restart" +:+ (if n =? 1 then "" else "s")
                                                   +:+ " left: a restart could stop it for good"))
                                   else None
                       | None => None
                       end else None in
        let recheck_cap := if String.eqb kind "recheck-agent" && (MAX_RECHECKS_PER_HOUR <=? of_rechecks f) then
                             Some (No 409 ("re-checked " +:+ zstr MAX_RECHECKS_PER_HOUR +:+ " times in the last hour; the next from "
                                           +:+ free_words (of_rechecks_free f) "within the hour")) else None in
        let restart_cap := if str_in kind RESTART_GROUP then restarts_capped else None in
        orElse (or_else spent (or_else (waiting kind) (or_else conflicted (or_else recheck_cap (or_else restart_cap login_capped))))) Allow
  end.

Definition kindVerdict (kind : string) : Verdict :=
  if String.eqb kind "update" then updateVerdict
  else match first with
  | Some v => v
  | None =>
      if String.eqb kind "drain" then drainVerdict
      else if String.eqb kind "resume" then resumeVerdict
      else if String.eqb kind "stop-task" then stopVerdict
      else liveVerdict kind
  end.

Definition orderVerdicts (r : OrderRight) : Verdict :=
  match KIND_OF r with Some kind => kindVerdict kind | None => orElse first Allow end.
End Verdicts.

(** ** The counts behind the verdicts (orderFacts), from the table *)

Definition state_word (s : OState) : string :=
  match s with
  | Spending => "pending" | Sdelivered => "delivered" | Sdone => "done" | Srefused => "refused" | Sfailed => "failed"
  | Sexpired => "expired" | Scancelled => "cancelled"
  end.
Definition open_order (e : OpenEntry) : OpenOrder :=
  {| oo_id := e_id e; oo_kind := e_kind e; oo_state := Some (state_word (e_state e)); oo_by := Some (e_by e);
     oo_at := Some (iso (e_at e)); oo_task := e_task e |}.

(** MIN(issued_at) of what a count counts, one hour later. *)
Definition oldest (p : WOrder -> bool) (since : Z) (db : ODB) : option Z :=
  foldr (fun o m => if p o && after_ since o then Some (match m with Some x => Z.min x (w_issued (iss o)) | None => w_issued (iss o) end) else m)
    None (ords db).
Definition freeAt (p : WOrder -> bool) (since : Z) (db : ODB) : option string := (fun t => iso (t + HOUR)) <$> oldest p since db.

Definition orderFacts (worker : string) (login : option string) (now : Z) (host : bool) (task : option HeldTask)
    (pool : option RunningVersion) (db : ODB) : OrderFacts :=
  let since := now - HOUR in
  let restarts_p := in_group worker (if host then HOST_RESTART_GROUP else RESTART_GROUP) in
  let login_p := match login with Some l => counted_for l | None => fun _ => false end in
  let stops_p := match login with Some l => if host then stop_of l else fun _ => false | None => fun _ => false end in
  {| of_now := now; of_restarts := count_since restarts_p since db;
     of_rechecks := count_since (in_group worker ["recheck-agent"]) since db;
     of_login := count_since login_p since db; of_drains := count_since (in_group worker ["drain"]) since db;
     of_stops := count_since stops_p since db;
     of_restarts_free := freeAt restarts_p since db; of_rechecks_free := freeAt (in_group worker ["recheck-agent"]) since db;
     of_login_free := freeAt login_p since db; of_drains_free := freeAt (in_group worker ["drain"]) since db;
     of_stops_free := freeAt stops_p since db; of_task := task; of_pool := pool |}.

(** The task as the database has it. *)
Definition held_task (id : Z) (db : ODB) : option HeldTask :=
  t ← tasks (tdb db) !! id;
  Some {| ht_id := id; ht_leased := is_leased t; ht_owner := lease_owner (lease t); ht_stop := stop_order (lease t) |}.

(** What the worker's row says, as the door reads it. *)
Record reads_row (w : OrderWorker) (db : ODB) : Prop := {
  rr_row : exists r, wrows db !! ow_id w = Some r /\ ow_host w = r_host r
             /\ (truthyo (ow_drained_at w) = match r_drained_at r with Some _ => true | None => false end)
             /\ ow_open w = map open_order (r_open r) }.

(** ** What the verdicts guarantee *)

Lemma first_refuses c w v : first c w = Some v -> v <> Allow.
Proof. unfold first. intros H ->. repeat case_match; simplify_eq. Qed.

(** nobody else presses anything: every button the door allows is its
    signed-in owner's or a maintainer's, on a worker not revoked. *)
Theorem orders_need_owner_or_maintainer c w f r :
  orderVerdicts c w f r = Allow ->
  exists who, c = Some who /\ ow_revoked w = false /\ (ca_maintainer who = true \/ ow_owner w = Some (ca_login who)).
Proof.
  intros H. assert (Hf : first c w = None).
  { destruct (first c w) as [v|] eqn:E; [|done]. pose proof (first_refuses _ _ _ E) as Hv.
    unfold orderVerdicts, kindVerdict, updateVerdict in H.
    rewrite E in H. destruct r; cbn in H; congruence. }
  unfold first in Hf. destruct c as [who|]; [|done]. exists who. destruct (ow_revoked w) eqn:Er; [done|].
  split; [done|]. split; [done|]. destruct (ca_maintainer who) eqn:Em; [by left|right].
  unfold is_owner in Hf. destruct (ow_owner w) as [o|]; [|done].
  destruct (String.eqb_spec (ca_login who) o); [congruence|done].
Qed.

(** who resumes a drained worker: a host's owner always, and whoever else
    drained it, but nobody else when its owner did; a project worker any
    maintainer, and who drained it; a contributor's own worker its owner, and a
    maintainer when its owner did not drain it. *)
Theorem resume_rights c w f :
  orderVerdicts c w f resume_ = Allow <->
  first c w = None /\ truthyo (ow_drained_at w) = true
  /\ (if ow_host w then is_owner c w = true \/ (ow_drained_by w <> ow_owner w /\ ow_drained_by w = Some (login_of c))
      else if ow_project w then is_maintainer c = true \/ ow_drained_by w = Some (login_of c)
      else is_owner c w = true \/ ow_owner w = None \/ ow_drained_by w <> ow_owner w).
Proof.
  unfold orderVerdicts, kindVerdict. cbn [KIND_OF]. change (String.eqb "resume" "update") with false.
  change (String.eqb "resume" "drain") with false. change (String.eqb "resume" "resume") with true. cbv iota.
  destruct (first c w) as [v|] eqn:Hf.
  { split; [|by intros [? _]]. intros Hv. by destruct (first_refuses _ _ _ Hf). }
  unfold resumeVerdict. destruct (truthyo (ow_drained_at w)); cbn [negb]; [|split; [done|by intros (_ & ? & _)]].
  assert (Hs : forall a b, ostr_eqb a b = false <-> a <> b).
  { intros a b. rewrite <- ostr_eqb_eq. by destruct (ostr_eqb a b). }
  assert (Hn : forall b why, (if b : bool then No 403 why else Allow) = Allow <-> b = false) by (intros [] ?; split; done).
  destruct (ow_host w).
  - destruct (is_owner c w); cbn [negb andb]; rewrite ?andb_false_r, ?andb_true_r; cbn [andb].
    { split; [intros _; split_and!; [done|done|by left]|done]. }
    destruct (ostr_eqb (ow_drained_by w) (ow_owner w)) eqn:E.
    + apply ostr_eqb_eq in E. split; [done|]. intros (_ & _ & [?|[? _]]); done.
    + apply Hs in E. cbn [negb andb]. rewrite Hn, negb_false_iff, ostr_eqb_eq. split.
      * intros E2. split_and!; [done|done|]. right. by split; [|symmetry].
      * intros (_ & _ & [?|[_ ->]]); done.
  - destruct (ow_project w); cbn [negb andb].
    + destruct (is_maintainer c); cbn [negb andb]; [split; [intros _; split_and!; [done|done|by left]|done]|].
      rewrite Hn, negb_false_iff, ostr_eqb_eq. split; [intros ->; split_and!; [done|done|by right]|].
      by intros (_ & _ & [?|?]).
    + destruct (is_owner c w); cbn [negb andb]; [split; [intros _; split_and!; [done|done|by left]|done]|].
      rewrite Hn. destruct (ow_owner w) as [o|]; [rewrite Hs|]; split; try done.
      * intros H. split_and!; [done|done|by right; right].
      * by intros (_ & _ & [?|[?|?]]).
      * intros _. split_and!; [done|done|by right; left].
Qed.

(** ** The door's word and the INSERT's agree *)

(** A person's order, as the door issues it. *)
Definition person_ask (id : string) (w : OrderWorker) (kind reason login : string) (site : option string) (task : option Z)
    (resumed : option (string * string)) (now : Z) : IssueAsk :=
  {| a_id := id; a_worker := ow_id w; a_kind := kind; a_reason := reason; a_by := login; a_via := Some "web"; a_rule := None;
     a_unless := false; a_site := site; a_baseline := None; a_auto := None; a_deliver := None; a_task := task;
     a_host := ow_host w; a_resumed := resumed; a_now := now; a_status := "ok" |}.

(** A check that refuses, or says nothing. *)
Definition refuses (v : option Verdict) : Prop := v <> Some Allow.
Lemma login_refuses c f : refuses (login_capped c f).
Proof. unfold refuses, login_capped. by destruct (_ <=? _). Qed.
Lemma restarts_refuses f : refuses (restarts_capped f).
Proof. unfold refuses, restarts_capped. by destruct (_ <=? _). Qed.
Lemma conflict_refuses w : refuses (conflicted w).
Proof. unfold refuses, conflicted. destruct (ow_conflict w) as [s|]; [|done]. by destruct (truthy s). Qed.
Lemma waiting_refuses w kind : refuses (waiting w kind).
Proof. unfold refuses, waiting. by destruct (List.find _ _). Qed.
Lemma if_refuses (b : bool) v : refuses v -> refuses (if b then v else None).
Proof. by destruct b. Qed.
Lemma no_refuses status why : refuses (Some (No status why)).
Proof. done. Qed.
Create HintDb verdicts.
#[local] Hint Resolve login_refuses restarts_refuses conflict_refuses waiting_refuses if_refuses no_refuses : verdicts.

(** Past a chain of checks an [Allow] says that each said nothing. *)
Lemma chain_allow l :
  Forall refuses l -> orElse (foldr or_else None l) Allow = Allow -> Forall (fun x => x = None) l.
Proof.
  induction 1 as [|a l Ha Hl IH]; intros H; [constructor|]. cbn [foldr] in H. destruct a as [v|].
  - cbn in H. subst v. done.
  - constructor; [done|]. by apply IH.
Qed.
Lemma or_else_None_r a : or_else a None = a.
Proof. by destruct a. Qed.

Lemma not_waiting w kind :
  waiting w kind = None -> forall o, In o (ow_open w) -> oo_kind o <> kind.
Proof.
  unfold waiting. destruct (List.find _ _) eqn:E; [done|]. intros _ o Ho Hk.
  apply (List.find_none _ _ E) in Ho. cbn in Ho. by apply String.eqb_neq in Ho.
Qed.

Section Door.
Context (c : Caller) (w : OrderWorker) (db : ODB) (now : Z) (pool : option RunningVersion) (task : option HeldTask).
Context (id reason : string) (site : option string) (resumed : option (string * string)).
Context (Hlogin : isPool (ca_login c) = false) (Hrow : reads_row w db).

Definition facts : OrderFacts := orderFacts (ow_id w) (Some (ca_login c)) now (ow_host w) task pool db.
Definition ask_of (kind : string) : IssueAsk :=
  person_ask id w kind reason (ca_login c) site (if String.eqb kind "stop-task" then ht_id <$> task else None) resumed now.

Lemma count_nil w' since : count_since (in_group w' []) since db = 0.
Proof.
  unfold count_since, count, zlen. replace (List.filter _ (ords db)) with (@nil WOrder); [done|]. symmetry.
  induction (ords db) as [|o l IH]; [done|]. cbn [List.filter]. unfold in_group. by rewrite andb_false_r.
Qed.

Lemma pool_caps_person kind : pool_caps (ask_of kind) db = true.
Proof.
  unfold pool_caps. cbn [ask_of person_ask a_by]. rewrite Hlogin. cbn [negb orb].
  assert (E : String.eqb (ca_login c) POOL_COMMUNITY = false).
  { apply not_true_iff_false. intros H. unfold isPool in Hlogin. rewrite H, orb_true_r in Hlogin. done. }
  by rewrite E.
Qed.

Lemma login_free : login_capped (Some c) facts = None -> count_since (counted_for (ca_login c)) (now - HOUR) db <? MAX_ORDERS_PER_LOGIN_HOUR = true.
Proof.
  unfold login_capped, facts. cbn [orderFacts of_login]. intros H. apply Z.ltb_lt.
  destruct (Z.leb_spec MAX_ORDERS_PER_LOGIN_HOUR (count_since (counted_for (ca_login c)) (now - HOUR) db)); [done|lia].
Qed.

Lemma restarts_free :
  restarts_capped facts = None ->
  count_since (in_group (ow_id w) (if ow_host w then HOST_RESTART_GROUP else RESTART_GROUP)) (now - HOUR) db <? MAX_RESTARTS_PER_HOUR = true.
Proof.
  unfold restarts_capped, facts. cbn [orderFacts of_restarts]. intros H. apply Z.ltb_lt.
  match goal with |- ?n < _ => destruct (Z.leb_spec MAX_RESTARTS_PER_HOUR n) end; [done|lia].
Qed.

Lemma row_host : row_is_host (ow_id w) db = ow_host w.
Proof. destruct Hrow as [(r & Hr & Hh & _)]. unfold row_is_host. by rewrite Hr. Qed.
Lemma row_drained : row_get r_drained_at (ow_id w) db = None <-> truthyo (ow_drained_at w) = false.
Proof.
  destruct Hrow as [(r & Hr & _ & Hd & _)]. unfold row_get. rewrite Hr. cbn [mbind option_bind]. rewrite Hd.
  by destruct (r_drained_at r).
Qed.

(** A live kind: what the chain's absences give the INSERT. *)
Lemma live_ok kind :
  In kind ["recheck-agent"; "restart"; "restart-agent"] -> liveVerdict (Some c) w facts kind = Allow ->
  issue_ok (ask_of kind) db = true /\ waiting w kind = None.
Proof.
  intros Hk H. unfold liveVerdict in H. destruct (ow_takes w) as [takes|]; [|done]. destruct (negb _); [done|].
  set (spent := if String.eqb kind "restart" then _ else _) in H. set (rc := if _ && _ then _ else _) in H.
  set (sc := if str_in kind RESTART_GROUP then _ else _) in H.
  assert (Hall : Forall (fun x => x = None) [spent; waiting w kind; conflicted w; rc; sc; login_capped (Some c) facts]).
  { apply chain_allow; [|cbn [foldr]; by rewrite or_else_None_r].
    repeat constructor; unfold spent, rc, sc; auto with verdicts.
    destruct (String.eqb _ _); [|done]. destruct (ow_restarts_left w) as [n|]; [|done]. auto with verdicts. }
  repeat (apply Forall_cons in Hall as [? Hall]). split; [|done].
  assert (Hlog := login_free H5).
  unfold issue_ok. rewrite pool_caps_person, andb_true_r.
  assert (Hw : worker_cap (ask_of kind) db = true).
  { rename H4 into Hsc, H3 into Hrc. unfold worker_cap, group_of, cap_of, hostStop. cbn [ask_of person_ask a_kind a_host a_worker a_now].
    destruct Hk as [<-|[<-|[<-|[]]]]; cbn -[count_since HOUR facts] in *; rewrite ?andb_false_r.
    - unfold rc, facts in Hrc. cbn -[count_since HOUR] in Hrc. apply Z.ltb_lt.
      match goal with |- ?n < _ => destruct (Z.leb_spec MAX_RECHECKS_PER_HOUR n) end; [|lia].
      destruct (Z.leb_spec MAX_RECHECKS_PER_HOUR (count_since (in_group (ow_id w) ["recheck-agent"]) (now - HOUR) db)); [done|lia].
    - apply restarts_free in Hsc. by destruct (ow_host w).
    - apply restarts_free in Hsc. by destruct (ow_host w). }
  assert (Hl : login_cap (ask_of kind) db = true).
  { unfold login_cap. cbn [ask_of person_ask a_kind a_by a_worker a_now]. rewrite Hlog.
    destruct Hk as [<-|[<-|[<-|[]]]]; cbn -[count_since]; by rewrite orb_true_r. }
  rewrite Hw, Hl. unfold state_ok. cbn [ask_of person_ask a_rule a_kind]. by destruct Hk as [<-|[<-|[<-|[]]]].
Qed.

Ltac chain H checks :=
  let Hall := fresh in
  assert (Hall : Forall (fun x => x = None) checks) by
    (apply chain_allow; [repeat (constructor; [auto with verdicts|]); constructor|cbn [foldr]; by rewrite or_else_None_r]);
  repeat (apply Forall_cons in Hall as [? Hall]); clear H.

Lemma login_cap_other kind :
  login_capped (Some c) facts = None -> String.eqb kind "stop-task" && ow_host w = false -> login_cap (ask_of kind) db = true.
Proof.
  intros H Hs. unfold login_cap. cbn [ask_of person_ask a_kind a_by a_worker a_now]. rewrite row_host, Hs, (login_free H).
  apply orb_true_r.
Qed.

Lemma issue_ok_of kind :
  worker_cap (ask_of kind) db = true -> login_cap (ask_of kind) db = true -> state_ok (ask_of kind) db = true ->
  issue_ok (ask_of kind) db = true.
Proof. intros H1 H2 H3. unfold issue_ok. by rewrite H1, H2, pool_caps_person, H3. Qed.

Lemma drain_ok : drainVerdict (Some c) w facts = Allow -> issue_ok (ask_of "drain") db = true /\ waiting w "drain" = None.
Proof.
  unfold drainVerdict. destruct (truthyo (ow_drained_at w)) eqn:Hd; [done|]. cbn zeta. set (capped := if _ <=? _ then _ else _). intros H.
  assert (Hcap : refuses capped) by (unfold capped; auto with verdicts).
  chain H [waiting w "drain"; capped; login_capped (Some c) facts]. split; [|done].
  apply issue_ok_of; [|by apply login_cap_other|].
  - unfold worker_cap, group_of, cap_of, hostStop. cbn -[count_since HOUR]. rewrite andb_false_r. apply Z.ltb_lt.
    assert (Hc : capped = None) by done. unfold capped, facts in Hc. cbn [orderFacts of_drains] in Hc.
    destruct (Z.leb_spec MAX_RESTARTS_PER_HOUR (count_since (in_group (ow_id w) ["drain"]) (now - HOUR) db)); [done|].
    unfold MAX_RESTARTS_PER_HOUR in *. lia.
  - unfold state_ok. cbn -[row_get]. apply row_drained in Hd. by rewrite Hd.
Qed.

Lemma resume_ok : resumeVerdict (Some c) w = Allow -> issue_ok (ask_of "resume") db = true.
Proof.
  unfold resumeVerdict. destruct (truthyo (ow_drained_at w)) eqn:Hd; [|done]. intros _.
  apply issue_ok_of.
  - done.
  - unfold login_cap. cbn [ask_of person_ask a_kind a_by]. by rewrite orb_true_r.
  - unfold state_ok. cbn -[row_get]. destruct (row_get r_drained_at (ow_id w) db) eqn:E; [done|].
    apply row_drained in E. congruence.
Qed.

Context (Htask : forall t, task = Some t -> held_task (ht_id t) db = Some t /\ ht_stop t <> Some "").

Lemma stoppable_task t :
  task = Some t -> holds w t = true -> truthyo (ht_stop t) = false -> stoppable (Some (ht_id t)) (ow_id w) db = true.
Proof.
  intros Ht Hh Hs. destruct (Htask t Ht) as [Hheld Hne]. unfold held_task in Hheld. unfold stoppable. cbn [mbind option_bind].
  destruct (tasks (tdb db) !! ht_id t) as [r|]; [|done]. cbn in Hheld. injection Hheld as Hr.
  rewrite <- Hr in *. unfold holds in Hh. cbn in Hh, Hs, Hne. breflect. unfold leased_to, owned_by. rewrite H, H0, String.eqb_refl.
  destruct (stop_order (lease r)) as [s|]; [|done]. cbn in Hs. unfold truthy in Hs. breflect. congruence.
Qed.

Lemma stop_ok : stopVerdict (Some c) w facts = Allow -> issue_ok (ask_of "stop-task") db = true.
Proof.
  unfold stopVerdict. destruct (ow_host w) eqn:Hh.
  - destruct (of_task facts) as [t|] eqn:Ht; [|done]. change (task = Some t) in Ht. destruct (holds w t) eqn:Hho; cbn [negb]; [|done].
    destruct (truthyo (ht_stop t)) eqn:Hs; [done|]. destruct (_ <=? of_stops facts) eqn:Hc; [done|]. intros _. breflect.
    apply issue_ok_of.
    + unfold worker_cap, group_of, hostStop. cbn -[count_since HOUR]. rewrite Hh. cbn [andb]. rewrite count_nil. done.
    + unfold login_cap. cbn [ask_of person_ask a_kind a_by a_worker a_now]. rewrite row_host, Hh, Hlogin. cbn [andb orb String.eqb].
      unfold facts in Hc. cbn [orderFacts of_stops] in Hc. rewrite Hh in Hc. cbn -[count_since HOUR]. by apply Z.ltb_lt.
    + unfold state_ok. cbn -[stoppable]. rewrite Ht. cbn -[stoppable]. by apply stoppable_task.
  - destruct (of_task facts) as [t|] eqn:Ht; [|done]. change (task = Some t) in Ht. destruct (ow_current_task w) as [cur|]; [|done]. destruct (_ || _) eqn:Hg; [done|].
    destruct (truthyo (ht_stop t)) eqn:Hs; [done|]. intros H. breflect.
    chain H [waiting w "stop-task"; restarts_capped facts; login_capped (Some c) facts].
    apply issue_ok_of; [|apply login_cap_other; [done|by rewrite Hh]|].
    + unfold worker_cap, group_of, hostStop, cap_of. cbn -[count_since HOUR]. rewrite Hh. cbn -[count_since HOUR].
      assert (Hc : restarts_capped facts = None) by done. apply restarts_free in Hc. by rewrite Hh in Hc.
    + unfold state_ok. cbn -[stoppable]. rewrite Ht. cbn -[stoppable]. by apply stoppable_task.
Qed.

Lemma update_ok : updateVerdict (Some c) w facts = Allow -> issue_ok (ask_of "update") db = true /\ waiting w "update" = None.
Proof.
  unfold updateVerdict. destruct (first (Some c) w) as [v|] eqn:Hf; [intros ->; by destruct (first_refuses _ _ _ Hf)|].
  destruct (of_pool facts) as [pl|]; [|done]. destruct (negb _); [done|]. cbn zeta. destruct (parseTag _); [|done].
  destruct (negb _); [done|]. destruct (if ow_host w then _ else _); [done|]. intros H.
  chain H [waiting w "update"; conflicted w; restarts_capped facts; login_capped (Some c) facts]. split; [|done].
  apply issue_ok_of; [|by apply login_cap_other|done].
  unfold worker_cap, group_of, hostStop, cap_of. cbn -[count_since HOUR]. rewrite andb_false_r. cbn -[count_since HOUR].
  by apply restarts_free.
Qed.

(** the buttons and the INSERT agree: what the door allows on counts and
    rows as the table has them, the guard of the INSERT accepts, and — a resume
    and a host's stop apart, which wait for no other — no open order of that
    kind stands in its way. *)
Theorem allowed_button_goes_in kind r :
  RIGHT_OF kind = Some r -> orderVerdicts (Some c) w facts r = Allow ->
  issue_ok (ask_of kind) db = true /\ (kind <> "resume" -> kind <> "stop-task" -> waiting w kind = None).
Proof.
  intros Hk H. assert (Hk' : KIND_OF r = Some kind).
  { unfold RIGHT_OF in Hk. repeat (case_match; breflect; simplify_eq/=; try done); subst; done. }
  unfold orderVerdicts in H. rewrite Hk' in H. unfold kindVerdict in H.
  destruct (String.eqb_spec kind "update") as [->|Hu]; [by destruct (update_ok H)|].
  destruct (first (Some c) w) as [v|] eqn:Hf; [subst v; by destruct (first_refuses _ _ _ Hf)|].
  destruct (String.eqb_spec kind "drain") as [->|Hd]; [by destruct (drain_ok H)|].
  destruct (String.eqb_spec kind "resume") as [->|Hr]; [split; [by apply resume_ok|done]|].
  destruct (String.eqb_spec kind "stop-task") as [->|Hs]; [split; [by apply stop_ok|done]|].
  destruct (live_ok kind) as [H1 H2]; [|done|done].
  destruct r; cbn in Hk'; simplify_eq; cbn; tauto.
Qed.
End Door.

(** ** A concrete worker *)

Definition ana : Caller := {| ca_login := "ana"; ca_maintainer := false |}.
Definition ana_worker : OrderWorker :=
  {| ow_id := "w1"; ow_owner := Some "ana"; ow_revoked := false; ow_version := Some "v1.2.3"; ow_takes := Some ["restart"];
     ow_open := []; ow_conflict := None; ow_restarts_left := None; ow_via := None; ow_project := false; ow_drained_at := None;
     ow_drained_by := None; ow_drain_reason := None; ow_current_task := None; ow_rollout := None; ow_host := false;
     ow_reported_at := None; ow_release := None |}.
Definition ana_row : WRow :=
  {| r_host := false; r_drained_at := None; r_drained_by := None; r_drain_reason := None; r_auto := None; r_open := []; r_spell := None |}.
Definition ana_db : ODB :=
  {| ords := []; wrows := {[ "w1" := ana_row ]}; tdb := {| tasks := empty; host_rows := empty |}; journal := [] |}.

Lemma orders_need_owner_or_maintainer_witness :
  exists who, Some ana = Some who /\ (ca_maintainer who = true \/ ow_owner ana_worker = Some (ca_login who)).
Proof.
  destruct (orders_need_owner_or_maintainer (Some ana) ana_worker (facts ana ana_worker ana_db 0 None None) restart_ eq_refl)
    as (who & H1 & _ & H2). exists who. split; [exact H1|exact H2].
Defined.

Lemma ana_reads : reads_row ana_worker ana_db.
Proof. split. exists ana_row. split_and!; reflexivity. Qed.

Lemma allowed_button_goes_in_witness :
  issue_ok (ask_of ana ana_worker 0 None "wo_1" "asked" None None "restart") ana_db = true.
Proof.
  refine (proj1 (allowed_button_goes_in ana ana_worker ana_db 0 None None "wo_1" "asked" None None eq_refl ana_reads _ "restart" restart_ eq_refl eq_refl)).
  intros t H. discriminate H.
Defined.
