(* ===== verification/OrderSite.v ===== *)
(** * Orders: the site and the fleet breaker (worker/src/orders.ts, "the site,
    and the fleet breaker", the sweep's clear, [capRefusal];
    worker/src/routes/factory.ts [afterClaim], [autoOrder], [giveUp])

    What a claim reads beside its own row before the pool restarts anything:
    the site's live workers and its pacing, and the provider's breaker in the
    worker's scope. The breaker's keys are the settings under
    ["worker-breaker:"]; a value is what the pool wrote there, or a text it did
    not. *)
From S2P Require Import Prelude JsTime Json Manifest Update Selection Tasks OrderRules OrderDoor OrderRights.
Local Open Scope string_scope.
Local Open Scope Z_scope.

Definition WORKER_ALIVE_MINUTES : Z := 10.

(** ** The workers' rows the site and the breaker read *)

(** [sw_takes] is the row's [order_kinds] parsed, [None] when it is NULL or no list. *)
Record SiteWorker := {
  sw_id : string; sw_via : option string; sw_status : option string; sw_class : option ErrorClass;
  sw_takes : option (list string); sw_since : option string; sw_error_since : option string; sw_auto : option json }.

(** A row of [build_workers]. *)
Record FleetRow := {
  fr_worker : SiteWorker; fr_site : option string; fr_agent : option string; fr_trust : option string;
  fr_revoked : bool; fr_seen : Z }.

Definition live (now : Z) (r : FleetRow) : bool := negb (fr_revoked r) && (now - WORKER_ALIVE_MINUTES * MIN <? fr_seen r).

Record SiteRead := { sr_live : list SiteWorker; sr_last : option string; sr_open : Z }.

(** The site's restart-type orders of the last day. *)
Definition on_site (site : string) (since : Z) (o : WOrder) : bool :=
  ostr_eqb (w_site (iss o)) (Some site) && after_ since o && str_in (w_kind (iss o)) ["restart"; "restart-agent"].
Definition latest (p : WOrder -> bool) (l : list WOrder) : option Z :=
  foldr (fun o m => if p o then Some (match m with Some x => Z.max x (w_issued (iss o)) | None => w_issued (iss o) end) else m) None l.

Definition readSite (workers : list FleetRow) (db : ODB) (site : string) (now : Z) : SiteRead :=
  {| sr_live := map fr_worker (List.filter (fun r => ostr_eqb (fr_site r) (Some site) && live now r) workers);
     sr_last := iso <$> latest (fun o => on_site site (now - DAY) o && isPool (w_by (iss o))) (ords db);
     sr_open := count (fun o => on_site site (now - DAY) o && is_open (w_state o)) db |}.

Definition by_sibling (status : string) (s : SiteWorker) : bool :=
  ostr_eqb (sw_via s) (Some "sibling") && ostr_eqb (sw_status s) (Some status).

Definition siblingsAnswering (self : string) (l : list SiteWorker) : list string :=
  sort_by text_cmp (map sw_id (List.filter (fun s => negb (String.eqb (sw_id s) self) && by_sibling "ok" s) l)).

Inductive SiteVerdict := Site_ok (others : list string) | Site_no (why : string) (giveUp : bool).

Definition takes_agent (s : SiteWorker) : bool := str_in "restart-agent" (default [] (sw_takes s)).
Definition id_cmp (a b : SiteWorker) : Z := text_cmp (sw_id a) (sw_id b).

(** The site's live workers whose shared agent service fails, and the one of them that restarts it. *)
Definition failing (read : SiteRead) : list SiteWorker := List.filter (by_sibling "error") (sr_live read).
Definition elected (read : SiteRead) : option SiteWorker := head (sort_by id_cmp (List.filter takes_agent (failing read))).
Definition others_of (self : string) (read : SiteRead) : list string :=
  sort_by text_cmp (List.filter (fun id => negb (String.eqb id self)) (map sw_id (failing read))).

(** The election's word against this worker: another one is elected. *)
Definition election (self : string) (read : SiteRead) (now : Z) : option SiteVerdict :=
  match elected read with
  | Some e =>
      if String.eqb (sw_id e) self then None
      else
        let gave := match sw_error_since e with
                    | Some s => if truthy s then gave_up (autoOf (sw_auto e) (Some s) now) else None
                    | None => None
                    end in
        let names := join ", " (others_of self read) in
        if truthyo gave
        then Some (Site_no ("its agent service, shared with " +:+ names +:+ ", was restarted through " +:+ sw_id e
                            +:+ ", which did not bring it back") true)
        else Some (Site_no ("its agent service is shared with " +:+ names +:+ "; the pool restarts it once, through " +:+ sw_id e) false)
  | None => None
  end.

(** One restart open per site, and the spacing between two of the pool's. *)
Definition pacing (read : SiteRead) (now scale : Z) : option SiteVerdict :=
  if 0 <? sr_open read then Some (Site_no "a restart is open on this host already; one at a time" false)
  else match sr_last read with
       | Some last =>
           if truthy last && before scale (age_of last now) SITE_SPACING_MIN
           then Some (Site_no ("the pool restarted something on this host at " +:+ clock_of last +:+ "; the next "
                               +:+ zstr SITE_SPACING_MIN +:+ " min after it") false)
           else None
       | None => None
       end.

Definition siteVerdict (self : string) (kind : OrderWord) (read : SiteRead) (now scale : Z) : SiteVerdict :=
  match (if bool_decide (kind = Wrestart_agent) then election self read now else None) with
  | Some v => v
  | None => default (Site_ok (others_of self read)) (pacing read now scale)
  end.

(** What a worker's page says of its host. *)
Definition siteWords (self : string) (order_kinds : option (list string)) (open_orders : option json) (read : SiteRead)
    (now scale : Z) : option string :=
  let answering := siblingsAnswering self (sr_live read) in
  let kind := if str_in "restart-agent" (default [] order_kinds) && match answering with [] => true | _ => false end
              then Wrestart_agent else Wrestart in
  let mine := existsb (fun o => str_in (oo_kind o) POOL_RESTARTS) (openOrdersOf open_orders) in
  let v := siteVerdict self kind (if mine then {| sr_live := sr_live read; sr_last := None; sr_open := 0 |} else read) now scale in
  let why := match v with
             | Site_ok _ => None
             | Site_no why giveUp => Some (if giveUp then why +:+ ": the pool stops restarting it — a person looks" else why)
             end in
  match answering with
  | _ :: _ =>
      Some ("its agent service answers for " +:+ join ", " answering
            +:+ ": the pool restarts this worker's own process, not the service"
            +:+ match why with Some w => " — " +:+ w | None => "" end)
  | [] =>
      match why, v with
      | Some w, _ => Some w
      | None, Site_ok (_ :: _ as others) =>
          if bool_decide (kind = Wrestart_agent)
          then Some ("its agent service is shared with " +:+ join ", " others +:+ ": the pool restarts it once, through this worker")
          else None
      | None, _ => None
      end
  end.

(** ** The fleet breaker *)

Definition before_slash (s : string) : string := hd "" (split_on "/" s).
Definition providerOf (agent : option string) : string :=
  match agent with
  | Some a => if truthy a then before_slash a else "unknown"
  | None => "unknown"
  end.

(** An agent as a claim's write keeps it (touchWorker): [/^[a-z0-9-]+\/[A-Za-z0-9._:-]{1,60}$/], else none. *)
Definition provider_char (c : ascii) : bool := is_lower c || is_digit c || Ascii.eqb c "-".
Definition model_char (c : ascii) : bool :=
  is_lower c || is_upper c || is_digit c || existsb (Ascii.eqb c) ["."; "_"; ":"; "-"]%char.
Definition agent_word (s : string) : bool :=
  match split_on "/" s with
  | [provider; model] =>
      truthy provider && str_forallb provider_char provider
      && (1 <=? String.length model)%nat && (String.length model <=? 60)%nat && str_forallb model_char model
  | _ => false
  end.
Definition agentKept (said : option string) : option string := s ← said; if agent_word s then Some s else None.

Record Breaker := { b_since : string; b_peak : Z; b_below : option string }.
Inductive Setting := Brk (b : Breaker) | Text (s : string).
Definition breakerOf (v : option Setting) : option Breaker := match v with Some (Brk b) => Some b | _ => None end.

Inductive BreakerScope := project | all.
#[export] Instance BreakerScope_eq_dec : EqDecision BreakerScope.
Proof. solve_decision. Defined.
Definition breakerScope (trust : option string) : BreakerScope := if ostr_eqb trust (Some "project") then project else all.
Definition KEY : string := "worker-breaker:".
Definition PROJECT_KEY : string := ":project".
Definition breakerKey (provider : string) (scope : BreakerScope) : string :=
  KEY +:+ provider +:+ match scope with project => PROJECT_KEY | all => "" end.
Definition breakerOfKey (key : string) : string * BreakerScope :=
  let rest := str_drop (String.length KEY) key in
  if ends_with PROJECT_KEY rest then (str_take (String.length rest - String.length PROJECT_KEY) rest, project) else (rest, all).

Definition scope_sites (s : BreakerScope) : string := match s with project => "sites of the project's own" | all => "sites" end.
Definition scope_workers (s : BreakerScope) : string :=
  match s with project => "none of the project's workers of this provider" | all => "no community registration of this provider" end.

(** A worker in a spell, as the breaker's read has it. *)
Record SpellRow := {
  sp_id : string; sp_site : option string; sp_agent : option string; sp_class : option ErrorClass; sp_trust : option string }.

(** OPEN_SPELLS_SQL *)
Definition spell_row (r : FleetRow) : SpellRow :=
  {| sp_id := sw_id (fr_worker r); sp_site := fr_site r; sp_agent := fr_agent r; sp_class := sw_class (fr_worker r);
     sp_trust := fr_trust r |}.
Definition in_spell (now : Z) (r : FleetRow) : bool :=
  match sw_error_since (fr_worker r) with Some _ => true | None => false end
  && ostr_eqb (sw_status (fr_worker r)) (Some "error") && live now r
  && match sw_class (fr_worker r) with Some c => class_in c RESTART_CLASSES | None => false end.
Definition openSpells (workers : list FleetRow) (now : Z) : list SpellRow := map spell_row (List.filter (in_spell now) workers).

Definition in_scope (scope : BreakerScope) (r : SpellRow) : bool :=
  match scope with project => ostr_eqb (sp_trust r) (Some "project") | all => true end.
Definition site_of (r : SpellRow) : string := default ("worker:" +:+ sp_id r) (sp_site r).
(** The map's entry of one provider: its sites with an open spell, once each. *)
Definition sitesByProvider (rows : list SpellRow) (scope : BreakerScope) (provider : string) : list string :=
  dedup (map site_of (List.filter (fun r => in_scope scope r && String.eqb (providerOf (sp_agent r)) provider) rows)).

(** The settings, and the journal's lines that are not an order's own. *)
Record BDB := { settings : gmap string Setting; blines : list string }.
Definition set_settings (s : gmap string Setting) (db : BDB) : BDB := {| settings := s; blines := blines db |}.
Definition bsay (l : string) (db : BDB) : BDB := {| settings := settings db; blines := (blines db ++ [l])%list |}.

Definition class_words (rows : list SpellRow) (scope : BreakerScope) (provider : string) : string :=
  join ", " (sort_by text_cmp (dedup (map (fun r => match sp_class r with Some c => class_word c | None => "?" end)
    (List.filter (fun r => String.eqb (providerOf (sp_agent r)) provider && in_scope scope r) rows)))).

(** The claiming worker as the breaker counts it. *)
Record Claimer := {
  cl_id : string; cl_site : option string; cl_agent : option string; cl_class : ErrorClass; cl_trust : option string }.
Definition claimer_row (s : Claimer) : SpellRow :=
  {| sp_id := cl_id s; sp_site := cl_site s; sp_agent := cl_agent s; sp_class := Some (cl_class s); sp_trust := cl_trust s |}.
(** The rows a claim counts: the others' open spells, and its own by what this claim says. *)
Definition counted_rows (s : Claimer) (spells : list SpellRow) : list SpellRow :=
  (List.filter (fun r => negb (String.eqb (sp_id r) (cl_id s))) spells
   ++ (if class_in (cl_class s) RESTART_CLASSES then [claimer_row s] else []))%list.

(** [read] is what the key's read found, [db] the table when the INSERT runs. *)
Definition breakerHolds (s : Claimer) (spells : list SpellRow) (now : Z) (read db : BDB) : BDB * option Breaker :=
  let provider := providerOf (cl_agent s) in
  let scope := breakerScope (cl_trust s) in
  let key := breakerKey provider scope in
  match settings read !! key with
  | Some held => (db, breakerOf (Some held))
  | None =>
      let rows := counted_rows s spells in
      let n := zlen (sitesByProvider rows scope provider) in
      if n <? BREAKER_SITES then (db, None)
      else
        let b := {| b_since := iso now; b_peak := n; b_below := None |} in
        match settings db !! key with
        | Some other => (db, breakerOf (Some other))
        | None =>
            (bsay ("provider outage suspected: " +:+ zstr n +:+ " " +:+ provider +:+ " " +:+ scope_sites scope
                   +:+ " have an open agent error (" +:+ class_words rows scope provider +:+ ") since " +:+ clock now
                   +:+ " — the pool restarts " +:+ scope_workers scope +:+ " until fewer than " +:+ zstr BREAKER_CLEAR_BELOW
                   +:+ " have had one for " +:+ zstr BREAKER_CLEAR_MIN +:+ " min")
               (set_settings (<[key := Brk b]> (settings db)) db), Some b)
        end
  end.

(** *** The sweep's clear *)

Definition setting_eqb (a b : Setting) : bool :=
  match a, b with
  | Brk a, Brk b => String.eqb (b_since a) (b_since b) && (b_peak a =? b_peak b) && ostr_eqb (b_below a) (b_below b)
  | Text a, Text b => String.eqb a b
  | _, _ => false
  end.
(** [UPDATE/DELETE … WHERE key = ? AND value = ?] *)
Definition swap (key : string) (old : Setting) (new : option Setting) (db : BDB) : BDB :=
  match settings db !! key with
  | Some v => if setting_eqb v old then set_settings (partial_alter (fun _ => new) key (settings db)) db else db
  | None => db
  end.
Definition holds_value (key : string) (v : Setting) (db : BDB) : bool :=
  match settings db !! key with Some w => setting_eqb w v | None => false end.

Definition cleared_line (provider : string) (scope : BreakerScope) (b : Breaker) (below : string) : string :=
  "provider outage over: fewer than " +:+ zstr BREAKER_CLEAR_BELOW +:+ " " +:+ provider +:+ " " +:+ scope_sites scope
  +:+ " have had an open agent error since " +:+ clock_of below +:+ " (at most " +:+ zstr (b_peak b) +:+ " at once, from "
  +:+ clock_of (b_since b) +:+ ") — the pool restarts again".

Definition clear_one (spells : list SpellRow) (now : Z) (db : BDB) (kv : string * Setting) : BDB :=
  let '(key, v) := kv in
  let '(provider, scope) := breakerOfKey key in
  let b := default {| b_since := iso now; b_peak := 0; b_below := None |} (breakerOf (Some v)) in
  let n := zlen (sitesByProvider spells scope provider) in
  if BREAKER_CLEAR_BELOW <=? n then
    let next := {| b_since := b_since b; b_peak := Z.max (b_peak b) n; b_below := None |} in
    if negb (b_peak next =? b_peak b) || match b_below b with Some _ => true | None => false end
    then swap key v (Some (Brk next)) db else db
  else match (s ← b_below b; if truthy s then Some s else None) with
  | None => swap key v (Some (Brk {| b_since := b_since b; b_peak := b_peak b; b_below := Some (iso now) |})) db
  | Some below =>
      if match date_parse below with Some t => BREAKER_CLEAR_MIN * MIN <=? now - t | None => false end then
        if holds_value key v db then bsay (cleared_line provider scope b below) (swap key v None db) else db
      else db
  end.

Definition breaker_keys (db : BDB) : list (string * Setting) :=
  List.filter (fun kv => starts_with KEY kv.1) (map_to_list (settings db)).
Definition clearBreakers (spells : list SpellRow) (now : Z) (read db : BDB) : BDB :=
  fold_left (clear_one spells now) (breaker_keys read) db.

(** ** The rules at a claim with nothing waiting (routes/factory.ts autoOrder) *)

Record AgentReport := { ar_status : option string; ar_error : option string; ar_checked : option string }.

Definition spellAfter (since : option string) (pb : option AgentReport) (at_ : string) : option string :=
  match pb with
  | None => since
  | Some p => if ostr_eqb (ar_status p) (Some "error") then Some (default at_ since)
              else if ostr_eqb (ar_status p) (Some "ok") then None else since
  end.

(** The claim as the orders path reads it: the row with this claim's words on it. *)
Record Claim := {
  cm_row : OrdersRow; cm_auto : option string; cm_agent_status : option string; cm_agent_error : option string;
  cm_error_since : option string }.
Definition rule_input (m : Claim) (facts : ClaimFacts) (step : option InstanceStep) (pb : option AgentReport)
    (needs_agent host : bool) (at_ : string) : RuleInput :=
  {| x_row := match step with Some s => fold_left (fun r w => write w r) (st_set s) (cm_row m) | None => cm_row m end;
     x_claim := facts;
     x_status := match pb with Some p => ar_status p | None => cm_agent_status m end;
     x_error := match pb with Some p => ar_error p | None => cm_agent_error m end;
     x_spell := spellAfter (cm_error_since m) pb at_;
     x_since := match step with Some s => st_since s | None => o_instance_since (cm_row m) end;
     x_conflict := match step with Some s => st_conflict s | None => truthyo (o_conflict_at (cm_row m)) end;
     x_needs_agent := needs_agent; x_sibling_answers := false; x_host := host |}.
Definition afterClaim (m : Claim) (facts : ClaimFacts) (step : option InstanceStep) (pb : option AgentReport)
    (listed : option (list Listed)) : AfterClaim :=
  {| c_worker := o_id (cm_row m); c_claim := facts;
     c_instance := match step with Some s => st_instance s | None => o_instance (cm_row m) end;
     c_instance_since := match step with Some s => st_since s | None => o_instance_since (cm_row m) end;
     c_conflict := match step with Some s => st_conflict s | None => truthyo (o_conflict_at (cm_row m)) end;
     c_status := match pb with Some p => ar_status p | None => cm_agent_status m end;
     c_checked_at := match pb with Some p => ar_checked p | None => o_agent_checked_at (cm_row m) end;
     c_listed := listed |}.

(** The same input once the site said the shared service answers another worker. *)
Definition answers_elsewhere (x : RuleInput) : RuleInput :=
  {| x_row := x_row x; x_claim := x_claim x; x_status := x_status x; x_error := x_error x; x_spell := x_spell x;
     x_since := x_since x; x_conflict := x_conflict x; x_needs_agent := x_needs_agent x; x_sibling_answers := true;
     x_host := x_host x |}.

(** What the rules do at a claim: nothing, the end of the spell's restarts, or one order. *)
Inductive AutoAct :=
| Auto_none
| Auto_give_up (next : AutoState) (summary : string)
| Auto_issue (kind : OrderWord) (rule reason : string) (unless : bool) (next : AutoState).

Definition shared_words (kind : OrderWord) (others : list string) : string :=
  match others with
  | _ :: _ => if bool_decide (kind = Wrestart_agent)
              then " — shared by " +:+ zstr (zlen others + 1) +:+ " workers (with " +:+ join ", " others +:+ "), restarted once, through this one"
              else ""
  | [] => ""
  end.

(** The site's share of a restart-type proposal. *)
Definition at_site (x : RuleInput) (kind : OrderWord) (rule reason : string) (unless : bool) (next : AutoState)
    (site : SiteRead) (now scale : Z) : AutoAct :=
  let self := o_id (x_row x) in
  match siteVerdict self kind site now scale with
  | Site_no why true =>
      let auto := autoOf (o_auto (x_row x)) (x_spell x) now in
      Auto_give_up (after_give_up auto now)
        (self +:+ ": the pool stops restarting it — " +:+ why +:+ "; a person looks: /worker/" +:+ self)
  | Site_no _ false => Auto_none
  | Site_ok others => Auto_issue kind rule (reason +:+ shared_words kind others) unless next
  end.

Definition site_act (x : RuleInput) (kind : OrderWord) (rule reason : string) (unless : bool) (next : AutoState)
    (site : option SiteRead) (now scale : Z) : AutoAct :=
  match site with
  | None => Auto_issue kind rule reason unless next
  | Some s =>
      if bool_decide (kind = Wrestart_agent) && match siblingsAnswering (o_id (x_row x)) (sr_live s) with [] => false | _ => true end then
        match decideAuto (answers_elsewhere x) now scale with
        | Order Wrestart rule reason unless next _ => at_site x Wrestart rule reason unless next s now scale
        | _ => Auto_none
        end
      else at_site x kind rule reason unless next s now scale
  end.

(** [held]: the breaker's word, asked for a restart-type proposal alone; [site]: the site's read, of a worker that has one. *)
Definition auto_act (x : RuleInput) (held : bool) (site : option SiteRead) (now scale : Z) : AutoAct :=
  match decideAuto x now scale with
  | Nothing _ _ => Auto_none
  | GiveUp summary next _ => Auto_give_up next summary
  | Order kind rule reason unless next _ =>
      if bool_decide (kind = Wrecheck) then Auto_issue kind rule reason unless next
      else if x_host x then Auto_none
      else if held then Auto_none
      else site_act x kind rule reason unless next site now scale
  end.

(** The order the rules issue, delivered in the same answer. *)
Definition auto_ask (id : string) (x : RuleInput) (a : AfterClaim) (old : option string) (kind : OrderWord)
    (rule reason : string) (unless : bool) (next : AutoState) (now : Z) : IssueAsk :=
  let row := x_row x in
  {| a_id := id; a_worker := o_id row; a_kind := order_word kind; a_reason := str_take 300 reason; a_by := poolFor (o_trust row);
     a_via := None; a_rule := Some rule; a_unless := unless; a_site := o_site row; a_baseline := c_checked_at a;
     a_auto := Some (old, json_text (autoJson next));
     a_deliver := Some (default "" (c_instance a), if bool_decide (kind = Wrestart) then c_instance a else c_checked_at a);
     a_task := None; a_host := x_host x; a_resumed := None; a_now := now;
     a_status := if bool_decide (kind = Wrecheck) then "ok" else "warn" |}.

(** The rules stop restarting a worker in this spell: compare-and-set, and one line by the write that said it. *)
Definition giveUp (w : string) (old : option string) (next : AutoState) (summary : string) (bdb : BDB) (db : ODB) : BDB * ODB :=
  let value := Some (json_text (autoJson next)) in
  let db := set_row w (fun r => if ostr_eqb (r_auto r) old then with_auto_text value r else r) db in
  (if ostr_eqb (row_get r_auto w db) value then bsay summary bdb else bdb, db).

Definition claimer_of (x : RuleInput) (agent : option string) (cls : ErrorClass) : Claimer :=
  {| cl_id := o_id (x_row x); cl_site := o_site (x_row x); cl_agent := agent; cl_class := cls;
     cl_trust := Some (o_trust (x_row x)) |}.
Definition proposes_restart (x : RuleInput) (now scale : Z) : option ErrorClass :=
  match decideAuto x now scale with
  | Order kind _ _ _ _ cls => if bool_decide (kind = Wrecheck) || x_host x then None else Some cls
  | _ => None
  end.

(** ** The words of a cap (capRefusal, drainFacts), and its line once per window (capLine) *)

(** Each of several workers' drains in the hour, and the caller's orders in it; the other counts are not read. *)
Definition drainFacts (workers : list string) (login : string) (now : Z) (db : ODB) : list (string * OrderFacts) :=
  let since := now - HOUR in
  map (fun w =>
    (w, {| of_now := now; of_restarts := 0; of_rechecks := 0; of_login := count_since (counted_for login) since db;
           of_drains := count_since (in_group w ["drain"]) since db; of_stops := 0; of_restarts_free := None;
           of_rechecks_free := None; of_login_free := freeAt (counted_for login) since db;
           of_drains_free := freeAt (in_group w ["drain"]) since db; of_stops_free := None; of_task := None;
           of_pool := None |})) workers.

(** The keys of the lines said already: [INSERT OR IGNORE INTO settings]. *)
Definition capLine (key words : string) (db : BDB) : BDB :=
  match settings db !! key with
  | Some _ => db
  | None => bsay words (set_settings (<[key := Text words]> (settings db)) db)
  end.

Definition day_words (oldest : option Z) : string := match oldest with Some t => clock (t + DAY) | None => "tomorrow" end.
Definition hour_key (now : Z) : string := str_take 13 (iso now).
Definition day_key (now : Z) : string := str_take 10 (iso now).

(** The pool's own caps, in the order they are read: the key of the window and the words. *)
Definition pool_refusal (a : IssueAsk) (db : ODB) : option (string * string) :=
  let now := a_now a in
  let community := String.eqb (a_by a) POOL_COMMUNITY in
  let max := zstr MAX_POOL_ORDERS_PER_DAY in
  if MAX_POOL_ORDERS_PER_DAY <=? count_since pools (now - DAY) db then
    Some ("order-budget:" +:+ day_key now,
          "the pool's daily budget of " +:+ max +:+ " automatic orders is spent: it acts again from "
          +:+ day_words (oldest pools (now - DAY) db) +:+ " tomorrow; people's orders still work")
  else if community && (MAX_POOL_COMMUNITY_ORDERS_PER_DAY <=? count_since (counted_for POOL_COMMUNITY) (now - DAY) db) then
    Some ("order-budget:community:" +:+ day_key now,
          "the community's share of the pool's daily budget (" +:+ zstr MAX_POOL_COMMUNITY_ORDERS_PER_DAY +:+ " of " +:+ max
          +:+ ") is spent: the pool orders community registrations again from "
          +:+ day_words (oldest (counted_for POOL_COMMUNITY) (now - DAY) db)
          +:+ " tomorrow; the project's keep the rest, and people's orders still work")
  else if str_in (a_kind a) POOL_RESTARTS then
    if MAX_POOL_RESTARTS_PER_HOUR <=? count_since pool_restart (now - HOUR) db then
      Some ("order-cap:pool:all:" +:+ hour_key now,
            "the pool gave " +:+ zstr MAX_POOL_RESTARTS_PER_HOUR
            +:+ " restart-type orders in the last hour across the fleet: it waits for the hour to pass")
    else if community && (MAX_POOL_COMMUNITY_RESTARTS_PER_HOUR <=? count_since community_restart (now - HOUR) db) then
      Some ("order-cap:pool:community:" +:+ hour_key now,
            "the pool gave community registrations " +:+ zstr MAX_POOL_COMMUNITY_RESTARTS_PER_HOUR
            +:+ " restart-type orders in the last hour, their share of " +:+ zstr MAX_POOL_RESTARTS_PER_HOUR
            +:+ ": it waits for the hour to pass")
    else None
  else None.

(** After an INSERT the caps refused: which cap, in the words the door answers. *)
Definition capRefusal (a : IssueAsk) (db : ODB) (bdb : BDB) : BDB * string :=
  let pool := isPool (a_by a) in
  let f := orderFacts (a_worker a) (if pool then None else Some (a_by a)) (a_now a) (a_host a) None None db in
  if a_host a && String.eqb (a_kind a) "stop-task" then
    (bdb, if MAX_STOPS_PER_LOGIN_HOUR <=? of_stops f then stopCapWords (a_by a) (of_stops_free f)
          else "the task's lease moved meanwhile: it is no longer this host's, or a stop fences it already")
  else if negb pool && (MAX_ORDERS_PER_LOGIN_HOUR <=? of_login f) then
    let why := loginCapWords (a_by a) (of_login_free f) in
    (capLine ("order-cap:" +:+ a_by a +:+ ":" +:+ hour_key (a_now a)) why bdb, why)
  else match (if pool then pool_refusal a db else None) with
  | Some (key, why) => (capLine key why bdb, why)
  | None =>
      (bdb,
       if String.eqb (a_kind a) "recheck-agent" && (MAX_RECHECKS_PER_HOUR <=? of_rechecks f) then
         "re-checked " +:+ zstr MAX_RECHECKS_PER_HOUR +:+ " times in the last hour; the next from "
         +:+ free_words (of_rechecks_free f) "within the hour"
       else if str_in (a_kind a) RESTART_GROUP && (MAX_RESTARTS_PER_HOUR <=? of_restarts f) then
         "restarted " +:+ zstr MAX_RESTARTS_PER_HOUR +:+ " times in the last hour; the next from "
         +:+ free_words (of_restarts_free f) "within the hour"
       else if String.eqb (a_kind a) "drain" && (MAX_RESTARTS_PER_HOUR <=? of_drains f) then drainCapWords (of_drains_free f)
       else "the rules' state moved under this order: the next claim decides again")
  end.

(** The whole step: the breaker's table, then the orders', and the order handed in this answer. *)
Definition autoOrder (id : string) (x : RuleInput) (a : AfterClaim) (old agent : option string) (workers : list FleetRow)
    (now scale : Z) (bdb : BDB) (db : ODB) : BDB * ODB * option string :=
  let '(bdb, held) := match proposes_restart x now scale with
                      | Some cls => breakerHolds (claimer_of x agent cls) (openSpells workers now) now bdb bdb
                      | None => (bdb, None)
                      end in
  let site := (fun s => readSite workers db s now) <$> (s ← o_site (x_row x); if truthy s then Some s else None) in
  match auto_act x (match held with Some _ => true | None => false end) site now scale with
  | Auto_none => (bdb, db, None)
  | Auto_give_up next summary => (giveUp (o_id (x_row x)) old next summary bdb db, None)
  | Auto_issue kind rule reason unless next =>
      let ask := auto_ask id x a old kind rule reason unless next now in
      match issueOrder ask db with
      | Some (db', Issued_ok) => (bdb, db', Some id)
      | Some (db', Refused_cap) => ((capRefusal ask db' bdb).1, db', None)
      | Some (db', _) => (bdb, db', None)
      | None => (bdb, db, None)
      end
  end.
