(* ===== verification/OrderSiteFacts.v ===== *)
(** * Orders: what the site and the breaker guarantee

    One worker of a site restarts the agent service it shares; the community's
    spells never hold the project's restarts; the pool restarts a worker of its
    own only where the rules, the breaker and the site all allow it. *)
From S2P Require Import Prelude JsTime TextFacts Json Manifest Update Selection Tasks OrderRules OrderRulesFacts OrderDoor OrderRights OrderSite.
Local Open Scope string_scope.
Local Open Scope Z_scope.

(** ** The order of names *)

Lemma str_ltb_total a b : str_ltb a b = false -> str_ltb b a = false -> a = b.
Proof.
  revert b. induction a as [|c a IH]; intros [|d b]; try done.
  rewrite !ltb_cons. intros [H1 H2]%orb_false_iff [H3 H4]%orb_false_iff.
  apply N.ltb_ge in H1, H3. assert (Hcd : N_of_ascii c = N_of_ascii d) by lia.
  assert (c = d) as ->. { rewrite <- (ascii_N_embedding c), Hcd. apply ascii_N_embedding. }
  rewrite N.eqb_refl in H2, H4. f_equal. by apply IH.
Qed.

Lemma str_ltb_trans a b c : str_ltb a b = true -> str_ltb b c = true -> str_ltb a c = true.
Proof.
  revert b c. induction a as [|x a IH]; intros [|y b] [|z c]; try done.
  rewrite !ltb_cons, !orb_true_iff, !andb_true_iff, !N.ltb_lt, !N.eqb_eq.
  intros [H1|[H1 H2]] [H3|[H3 H4]]; [left; lia|left; lia|left; lia|right; split; [lia|by eapply IH]].
Qed.

Lemma text_cmp_le a b : text_cmp a b <= 0 <-> str_ltb b a = false.
Proof.
  unfold text_cmp. destruct (str_ltb a b) eqn:E; [pose proof (str_ltb_asym _ _ E); split; [done|lia]|].
  destruct (String.eqb_spec a b) as [->|Hn]; [rewrite str_ltb_irrefl; split; [done|lia]|].
  split; [lia|]. intros H. destruct Hn. by apply str_ltb_total.
Qed.

Lemma text_le_trans a b c : str_ltb b a = false -> str_ltb c b = false -> str_ltb c a = false.
Proof.
  intros H1 H2. destruct (str_ltb c a) eqn:E; [|done]. exfalso.
  destruct (str_ltb a b) eqn:E2.
  - by rewrite (str_ltb_trans _ _ _ E E2) in H2.
  - rewrite (str_ltb_total _ _ E2 H1) in E. congruence.
Qed.

#[export] Instance text_cmp_comparator : Comparator text_cmp.
Proof.
  split; intros; rewrite !text_cmp_le in *.
  - destruct (str_ltb y x) eqn:E; [right|left; done]. by apply str_ltb_asym.
  - by eapply text_le_trans.
Qed.
#[export] Instance id_cmp_comparator : Comparator id_cmp.
Proof.
  split; unfold id_cmp; intros x y; [apply (cmp_total text_cmp)|].
  intros z. apply (cmp_trans text_cmp).
Qed.

(** ** The election *)

(** A live worker of the site whose shared agent service fails and that takes its restart. *)
Definition candidate (read : SiteRead) (w : string) : Prop :=
  exists s, In s (sr_live read) /\ by_sibling "error" s = true /\ takes_agent s = true /\ sw_id s = w.

Lemma candidates_of read s :
  In s (List.filter takes_agent (failing read)) <-> In s (sr_live read) /\ by_sibling "error" s = true /\ takes_agent s = true.
Proof. unfold failing. rewrite !filter_In. tauto. Qed.

Lemma elected_lowest read e :
  elected read = Some e ->
  candidate read (sw_id e) /\ (forall v, candidate read v -> str_ltb v (sw_id e) = false).
Proof.
  unfold elected. intros H. destruct (sort_by id_cmp _) as [|x r] eqn:E; [done|]. cbn in H. injection H as <-.
  assert (Hx : In x (sort_by id_cmp (List.filter takes_agent (failing read)))) by (rewrite E; by left).
  apply sort_by_In, candidates_of in Hx as (H1 & H2 & H3). split; [by exists x|].
  intros v (s & Hs1 & Hs2 & Hs3 & <-).
  destruct (sort_by_head id_cmp _ _ _ s E) as [->|Hle]; [by apply candidates_of|apply str_ltb_irrefl|].
  by apply text_cmp_le.
Qed.

Lemma elected_some read w : candidate read w -> exists e, elected read = Some e.
Proof.
  intros (s & H1 & H2 & H3 & _). unfold elected.
  destruct (sort_by id_cmp _) as [|x r] eqn:E; [|by eexists].
  apply sort_by_nil in E. assert (In s []) as [] by (rewrite <- E; by apply candidates_of).
Qed.

Lemma pacing_refuses read now scale others : pacing read now scale <> Some (Site_ok others).
Proof. unfold pacing. by repeat case_match. Qed.

(** one worker of a site restarts the agent service its workers share: of
    the live workers the service fails that take its restart, the site lets
    exactly the one with the lowest name go on, and it only while no restart is
    open on the host and five minutes passed since the pool's last there. *)
Theorem site_restarts_through_one read now scale w :
  candidate read w ->
  (exists others, siteVerdict w Wrestart_agent read now scale = Site_ok others)
  <-> pacing read now scale = None /\ (forall v, candidate read v -> str_ltb v w = false).
Proof.
  intros Hw. unfold siteVerdict. rewrite bool_decide_true by done. unfold election.
  destruct (elected_some _ _ Hw) as [e He]. rewrite He. destruct (elected_lowest _ _ He) as [Hc Hl].
  destruct (String.eqb_spec (sw_id e) w) as [<-|Hn].
  - destruct (pacing read now scale) as [v|] eqn:Hp; [|split; eauto].
    split; [|by intros [? _]]. cbn. intros [others Hv]. destruct (pacing_refuses read now scale others). congruence.
  - split; [intros [others H]; exfalso; revert H; cbv zeta; destruct (truthyo _); discriminate|].
    intros [_ Hlow]. destruct Hn. apply str_ltb_total; [by apply Hlow|by apply Hl].
Qed.

(** ** The pool's own restart *)

Lemma at_site_issue x kind rule reason unless next s now scale k ru re un ne :
  at_site x kind rule reason unless next s now scale = Auto_issue k ru re un ne ->
  k = kind /\ un = unless /\ exists others, siteVerdict (o_id (x_row x)) kind s now scale = Site_ok others.
Proof. unfold at_site. intros H. repeat case_match; simplify_eq/=; split_and!; eauto. Qed.

(** the pool restarts a worker's process or its agent service of its own
    accord only for a worker that is no host, with an error of a class a restart
    may help, while its provider's breaker is not tripped; and on a site with
    other workers only when the site's word is yes, the service answers none of
    them (else the worker's own process is restarted, not the service). *)
Theorem automatic_restart_is_allowed x held site now scale kind rule reason unless next :
  auto_act x held site now scale = Auto_issue kind rule reason unless next -> kind <> Wrecheck ->
  held = false /\ x_host x = false
  /\ (exists cls, proposes_restart x now scale = Some cls /\ class_in cls RESTART_CLASSES = true)
  /\ (forall s, site = Some s -> exists others, siteVerdict (o_id (x_row x)) kind s now scale = Site_ok others)
  /\ (forall s, site = Some s -> kind = Wrestart_agent -> siblingsAnswering (o_id (x_row x)) (sr_live s) = []).
Proof.
  unfold auto_act, proposes_restart. intros H Hk.
  destruct (decideAuto x now scale) as [k ru re un ne cls| |] eqn:Hd; [|done|done].
  destruct (bool_decide_reflect (k = Wrecheck)) as [->|Hkr]; [congruence|]. cbn [orb].
  destruct (x_host x) eqn:Hh; [done|]. destruct held; [done|].
  pose proof (restart_proposed_on_its_class _ _ _ _ _ _ _ _ _ Hd Hkr) as Hcls.
  split; [done|]. split; [done|]. split; [by exists cls|].
  unfold site_act in H. destruct site as [s|]; [|split; done].
  destruct (bool_decide (k = Wrestart_agent) && _) eqn:E.
  - case_match eqn:Hd2; try done. case_match; try done.
    apply at_site_issue in H as (-> & _ & Hv). split; [by intros ? [= <-]|done].
  - apply at_site_issue in H as (-> & _ & Hv). split; [by intros ? [= <-]|].
    intros ? [= <-] ->. rewrite bool_decide_true in E by done. cbn in E. by case_match.
Qed.

(** ** The breaker's keys *)

(** An agent of a row: none, or what [agentKept] keeps; its provider has no colon. *)
Definition kept_agent (a : option string) : bool := match a with Some a => agent_word a | None => true end.
Definition no_colon (s : string) : bool := str_forallb (fun c => negb (Ascii.eqb c ":")) s.


Lemma agentKept_kept said : kept_agent (agentKept said) = true.
Proof. unfold agentKept, kept_agent. destruct said as [s|]; [|done]. cbn. by destruct (agent_word s) eqn:E. Qed.

Lemma kept_provider a : kept_agent a = true -> no_colon (providerOf a) = true.
Proof.
  unfold kept_agent, providerOf. destruct a as [a|]; [|done]. intros H.
  destruct (truthy a); [|done]. unfold before_slash, agent_word in *.
  destruct (split_on "/" a) as [|p [|m [|? ?]]]; try done. cbn [hd]. breflect.
  revert H3. apply str_forallb_weaken. intros c. destruct (Ascii.eqb_spec c ":") as [->|]; [by vm_compute|done].
Qed.

(** The project's key of a provider reads back as that provider's, in the project's scope. *)
Lemma project_key_back p : breakerOfKey (breakerKey p project) = (p, project).
Proof.
  unfold breakerOfKey, breakerKey. rewrite str_drop_app, ends_with_app, length_app_s.
  replace (String.length p + String.length PROJECT_KEY - String.length PROJECT_KEY)%nat with (String.length p) by lia.
  by rewrite str_take_app.
Qed.

Lemma key_apart q p : no_colon q = true -> breakerKey q all <> breakerKey p project.
Proof.
  unfold breakerKey. intros Hq H%sapp_inj. rewrite app_nil_s in H. subst q.
  unfold no_colon in Hq. rewrite str_forallb_app in Hq. apply andb_true_iff in Hq as [_ Hq]. by vm_compute in Hq.
Qed.

(** ** The sites of a scope *)

Definition project_rows (l : list SpellRow) : list SpellRow := List.filter (in_scope project) l.

Lemma filter_and {A} (f g : A -> bool) l : List.filter f (List.filter g l) = List.filter (fun x => g x && f x) l.
Proof.
  induction l as [|x l IH]; cbn; [done|]. destruct (g x) eqn:E; cbn; [|exact IH]. by rewrite IH.
Qed.
Lemma filter_ext_in {A} (f g : A -> bool) l : (forall x, In x l -> f x = g x) -> List.filter f l = List.filter g l.
Proof.
  induction l as [|x l IH]; cbn; intros H; [done|]. rewrite (H x) by by left. rewrite IH; [done|]. auto.
Qed.

Lemma sites_project l p : sitesByProvider l project p = sitesByProvider (project_rows l) project p.
Proof.
  unfold sitesByProvider, project_rows. rewrite filter_and. do 2 f_equal. apply filter_ext_in. intros r _.
  cbn. by destruct (ostr_eqb _ _).
Qed.

Lemma counted_project s l : breakerScope (cl_trust s) = project ->
  project_rows (counted_rows s l) = counted_rows s (project_rows l).
Proof.
  intros Hs. unfold counted_rows, project_rows. rewrite List.filter_app, !filter_and. f_equal.
  - apply filter_ext_in. intros. apply andb_comm.
  - destruct (class_in _ _); [|done]. cbn. unfold breakerScope in Hs. destruct (ostr_eqb (cl_trust s) _); done.
Qed.

(** A provider whose rows name it with a colon is named by the claiming worker alone. *)
Lemma lonely_sites s l : forallb (fun r => kept_agent (sp_agent r)) l = true -> no_colon (providerOf (cl_agent s)) = false ->
  zlen (sitesByProvider (counted_rows s l) all (providerOf (cl_agent s))) <= 1.
Proof.
  intros Hl Hs. unfold sitesByProvider, counted_rows. rewrite List.filter_app, filter_and, map_app.
  replace (List.filter _ l) with (@nil SpellRow).
  - cbn [app map]. destruct (class_in _ _); cbn; [|done]. rewrite String.eqb_refl. done.
  - symmetry. induction l as [|r l IH]; [done|]. cbn in Hl |- *. apply andb_true_iff in Hl as [Hr Hl].
    destruct (negb _ && _) eqn:E; [|by apply IH]. apply andb_true_iff in E as [_ E]. apply String.eqb_eq in E.
    pose proof (kept_provider _ Hr). congruence.
Qed.

(** ** The breaker over any sequence of claims and sweeps *)

Inductive BStep := B_claim (s : Claimer) (spells : list SpellRow) (now : Z) | B_sweep (spells : list SpellRow) (now : Z).
Definition run_b (db : BDB) (b : BStep) : BDB :=
  match b with
  | B_claim s spells now => (breakerHolds s spells now db db).1
  | B_sweep spells now => clearBreakers spells now db db
  end.
Definition run_bs (db : BDB) (l : list BStep) : BDB := fold_left run_b l db.

(** What the project does of a step: its workers' claims and the sweeps, on its workers' rows alone. *)
Definition project_step (b : BStep) : option BStep :=
  match b with
  | B_claim s spells now =>
      if bool_decide (breakerScope (cl_trust s) = project) then Some (B_claim s (project_rows spells) now) else None
  | B_sweep spells now => Some (B_sweep (project_rows spells) now)
  end.
Definition kept_rows (b : BStep) : Prop :=
  match b with B_claim _ spells _ | B_sweep spells _ => forallb (fun r => kept_agent (sp_agent r)) spells = true end.

(** Two states that agree on every key of the project's scope. *)
Definition agree (d e : BDB) : Prop := forall p, settings d !! breakerKey p project = settings e !! breakerKey p project.
#[export] Instance agree_equiv : Equivalence agree.
Proof. split; intros ?; unfold agree; intros; [done|done|etrans; eauto]. Qed.

Lemma bsay_settings l d : settings (bsay l d) = settings d.
Proof. done. Qed.

Lemma claim_settings s spells now d :
  settings (breakerHolds s spells now d d).1 = settings d
  \/ (let p := providerOf (cl_agent s) in let sc := breakerScope (cl_trust s) in
      BREAKER_SITES <= zlen (sitesByProvider (counted_rows s spells) sc p)
      /\ exists b, settings (breakerHolds s spells now d d).1 = <[breakerKey p sc := b]> (settings d)).
Proof.
  unfold breakerHolds. cbv zeta. destruct (settings d !! _) eqn:E; [by left|].
  destruct (Z.ltb_spec (zlen (sitesByProvider (counted_rows s spells) (breakerScope (cl_trust s)) (providerOf (cl_agent s)))) BREAKER_SITES);
    [by left|]. right. split; [done|]. by eexists.
Qed.

(** A community worker's claim never touches a key of the project's. *)
Lemma community_claim s spells now d :
  breakerScope (cl_trust s) = all -> forallb (fun r => kept_agent (sp_agent r)) spells = true ->
  agree (breakerHolds s spells now d d).1 d.
Proof.
  intros Hs Hk p. destruct (claim_settings s spells now d) as [->|[Hn [b ->]]]; [done|]. rewrite Hs in *.
  apply lookup_insert_ne. destruct (no_colon (providerOf (cl_agent s))) eqn:Hc; [by apply key_apart|].
  pose proof (lonely_sites _ _ Hk Hc). unfold BREAKER_SITES in Hn. lia.
Qed.

(** A project worker's claim: the project's rows and keys decide it. *)
Lemma project_claim s spells now d e :
  breakerScope (cl_trust s) = project -> agree d e ->
  agree (breakerHolds s spells now d d).1 (breakerHolds s (project_rows spells) now e e).1
  /\ (breakerHolds s spells now d d).2 = (breakerHolds s (project_rows spells) now e e).2.
Proof.
  intros Hs Hd. unfold breakerHolds. rewrite Hs. cbv zeta. rewrite <- (Hd (providerOf (cl_agent s))).
  destruct (settings d !! breakerKey _ project) as [v|] eqn:E; [by split|].
  rewrite (sites_project (counted_rows s spells)), counted_project by done.
  destruct (_ <? BREAKER_SITES); [by split|]. split; [|done]. intros p. cbn.
  destruct (decide (breakerKey (providerOf (cl_agent s)) project = breakerKey p project)) as [->|].
  - by rewrite !lookup_insert_eq.
  - by rewrite !lookup_insert_ne.
Qed.

(** *** The sweep, key by key *)

Lemma setting_eqb_refl v : setting_eqb v v = true.
Proof. destruct v as [[s p [b|]]|s]; cbn; rewrite ?String.eqb_refl, ?Z.eqb_refl; done. Qed.

(** What a sweep makes of one key's value: [None] when it clears it. *)
Definition swept (spells : list SpellRow) (now : Z) (key : string) (v : Setting) : option Setting :=
  settings (clear_one spells now {| settings := {[key := v]}; blines := [] |} (key, v)) !! key.

Lemma swap_lookup key old new d k :
  settings (swap key old new d) !! k =
  (if bool_decide (k = key) && holds_value key old d then new else settings d !! k).
Proof.
  unfold swap, holds_value. destruct (settings d !! key) as [w|] eqn:E; [|by rewrite andb_false_r].
  destruct (setting_eqb w old); [|by rewrite andb_false_r]. rewrite andb_true_r. cbn.
  destruct (bool_decide_reflect (k = key)) as [->|]; [apply lookup_partial_alter_eq|by apply lookup_partial_alter_ne].
Qed.

(** A key's step writes that key alone, and what it writes is a function of the key, its value and its provider's sites. *)
Lemma clear_one_lookup spells now d key v k :
  settings d !! key = Some v ->
  settings (clear_one spells now d (key, v)) !! k = if bool_decide (k = key) then swept spells now key v else settings d !! k.
Proof.
  intros Hv. unfold swept, clear_one. destruct (breakerOfKey key) as [p sc].
  assert (Hh : holds_value key v d = true) by (unfold holds_value; by rewrite Hv, setting_eqb_refl).
  assert (Hh1 : holds_value key v {| settings := {[key := v]}; blines := [] |} = true)
    by (unfold holds_value; cbn; by rewrite lookup_singleton_eq, setting_eqb_refl).
  assert (H1 : forall new, settings (swap key v new d) !! k = (if bool_decide (k = key) then new else settings d !! k)).
  { intros new. by rewrite swap_lookup, Hh, andb_true_r. }
  assert (H2 : forall new, settings (swap key v new {| settings := {[key := v]}; blines := [] |}) !! key = new).
  { intros new. by rewrite swap_lookup, Hh1, bool_decide_true. }
  assert (H3 : settings d !! k = if bool_decide (k = key) then Some v else settings d !! k).
  { destruct (bool_decide_reflect (k = key)) as [->|]; done. }
  cbv zeta. repeat (case_match; cbn [bsay settings]); rewrite ?H1, ?H2; try done; rewrite ?lookup_singleton_eq; try done; try congruence.
Qed.

Lemma fold_clear spells now l d k :
  NoDup (map fst l) -> (forall key v, In (key, v) l -> settings d !! key = Some v) ->
  settings (fold_left (clear_one spells now) l d) !! k =
  match assoc k l with Some v => swept spells now k v | None => settings d !! k end.
Proof.
  revert d. induction l as [|[key v] l IH]; intros d Hn Hl; [done|]. cbn [fold_left assoc].
  inversion Hn as [|? ? Hx Hn']; subst. rewrite IH; [|done|].
  - destruct (String.eqb_spec k key) as [->|Hk].
    + replace (assoc key l) with (@None Setting).
      * rewrite clear_one_lookup by (apply Hl; by left). by rewrite bool_decide_true.
      * symmetry. clear -Hx. induction l as [|[k' v'] l IH]; [done|]. cbn in Hx |- *.
        apply not_elem_of_cons in Hx as [Hne Hx]. destruct (String.eqb_spec key k'); [done|auto].
    + destruct (assoc k l); [done|]. rewrite clear_one_lookup by (apply Hl; by left). by rewrite bool_decide_false.
  - intros k' v' Hin. rewrite clear_one_lookup by (apply Hl; by left).
    rewrite bool_decide_false; [apply Hl; by right|]. intros ->. apply Hx. apply list_elem_of_In, in_map_iff. by exists (key, v').
Qed.

Lemma sweep_lookup spells now d k :
  starts_with KEY k = true ->
  settings (clearBreakers spells now d d) !! k = (v ← settings d !! k; swept spells now k v).
Proof.
  intros Hk. unfold clearBreakers, breaker_keys. rewrite fold_clear.
  - destruct (assoc k _) as [v|] eqn:E.
    + apply assoc_In, filter_In in E as [E _]. apply list_elem_of_In, elem_of_map_to_list in E. by rewrite E.
    + destruct (settings d !! k) as [v|] eqn:Hv; [|done]. destruct (assoc_None _ v _ E).
      apply filter_In. split; [|done]. by apply list_elem_of_In, elem_of_map_to_list.
  - assert (Hs : forall l : list (string * Setting), NoDup (map fst l) -> NoDup (map fst (List.filter (fun kv => starts_with KEY kv.1) l))).
    { induction l as [|x l IH]; cbn; [done|]. inversion 1; subst. destruct (starts_with KEY x.1); [|auto]. cbn. constructor; [|auto].
      rewrite list_elem_of_In, in_map_iff. intros (y & Hy & [Hin _]%filter_In). destruct H2.
      apply list_elem_of_In. rewrite <- Hy. by apply in_map. }
    apply Hs. apply NoDup_fst_map_to_list.
  - intros key v [Hin _]%filter_In. by apply elem_of_map_to_list, list_elem_of_In.
Qed.

Lemma swept_project spells now p v :
  swept spells now (breakerKey p project) v = swept (project_rows spells) now (breakerKey p project) v.
Proof. unfold swept, clear_one. rewrite project_key_back. by rewrite (sites_project spells). Qed.

Lemma sweep_agree spells now d e :
  agree d e -> agree (clearBreakers spells now d d) (clearBreakers (project_rows spells) now e e).
Proof.
  intros Hd p. unfold breakerKey at 1 2. rewrite !sweep_lookup by apply starts_with_app.
  fold (breakerKey p project). rewrite <- (Hd p). destruct (settings d !! _) as [v|]; [|done]. apply swept_project.
Qed.

Lemma run_agree b d e : kept_rows b -> agree d e ->
  agree (run_b d b) (match project_step b with Some b' => run_b e b' | None => e end).
Proof.
  intros Hk Hd. destruct b as [s spells now|spells now]; cbn in *.
  - destruct (bool_decide_reflect (breakerScope (cl_trust s) = project)) as [Hp|Hp]; cbn.
    + by apply project_claim.
    + rewrite community_claim; [done| |done]. by destruct (breakerScope _).
  - by apply sweep_agree.
Qed.

Lemma runs_agree l d e : Forall kept_rows l -> agree d e -> agree (run_bs d l) (run_bs e (omap project_step l)).
Proof.
  intros Hl. revert d e. induction Hl as [|b l Hb _ IH]; intros d e Hd; [done|].
  pose proof (run_agree b d e Hb Hd) as H. unfold run_bs in *. cbn [omap list_omap fold_left].
  destruct (project_step b); cbn [fold_left]; by apply IH.
Qed.

(** a community registration never holds the pool's restarts of the
    project's workers, whatever agent it claims to run and however many of them
    are in a spell: over any sequence of claims and sweeps, what the breaker
    answers a worker of the project is what it would answer had no community
    worker claimed and had their rows not been there. *)
Theorem community_never_holds_the_project l s spells now d :
  Forall kept_rows l -> breakerScope (cl_trust s) = project ->
  let seen := run_bs d l in
  let alone := run_bs d (omap project_step l) in
  (breakerHolds s spells now seen seen).2 = (breakerHolds s (project_rows spells) now alone alone).2.
Proof. intros Hl Hs seen alone. apply project_claim; [done|]. by apply runs_agree. Qed.

(** ** Witnesses *)

Definition t_site : Z := 1790000000000.
Definition sib (id status : string) : SiteWorker :=
  {| sw_id := id; sw_via := Some "sibling"; sw_status := Some status; sw_class := Some refused;
     sw_takes := Some ["restart-agent"]; sw_since := None; sw_error_since := Some (iso t_site); sw_auto := None |}.
Definition two_failing : SiteRead := {| sr_live := [sib "w2" "error"; sib "w1" "error"; sib "w3" "error"]; sr_last := None; sr_open := 0 |}.

Lemma site_restarts_through_one_witness :
  siteVerdict "w1" Wrestart_agent two_failing t_site 1 = Site_ok ["w2"; "w3"]
  /\ forall v, candidate two_failing v -> str_ltb v "w1" = false.
Proof.
  split; [vm_compute; reflexivity|].
  refine (proj2 (proj1 (site_restarts_through_one two_failing t_site 1 "w1" _) _)).
  - exists (sib "w1" "error"). split; [right; left; reflexivity|]. split; [reflexivity|]. split; reflexivity.
  - exists ["w2"; "w3"]. vm_compute. reflexivity.
Defined.

Lemma automatic_restart_is_allowed_witness :
  exists rule reason next,
    auto_act refused_input false None (t0 + 11 * MIN) 1 = Auto_issue Wrestart rule reason true next
    /\ x_host refused_input = false.
Proof.
  destruct (auto_act refused_input false None (t0 + 11 * MIN) 1) as [| |k rule reason unless next] eqn:E;
    [vm_compute in E; discriminate E|vm_compute in E; discriminate E|].
  assert (k = Wrestart /\ unless = true) as [-> ->] by (split; vm_compute in E; congruence).
  exists rule, reason, next. split; [reflexivity|].
  exact (proj1 (proj2 (automatic_restart_is_allowed _ _ _ _ _ _ _ _ _ _ E ltac:(discriminate)))).
Defined.

Definition claimer (id agent trust : string) : Claimer :=
  {| cl_id := id; cl_site := Some id; cl_agent := Some agent; cl_class := refused; cl_trust := Some trust |}.
Definition spell (id agent trust : string) : SpellRow :=
  {| sp_id := id; sp_site := Some id; sp_agent := Some agent; sp_class := Some refused; sp_trust := Some trust |}.
Definition community_spells : list SpellRow :=
  map (fun id => spell id "anthropic/claude" "community") ["c1"; "c2"; "c3"; "c4"].

(** Four community workers of one provider in a spell, one naming a key of the project's: the project's worker is restarted still. *)
Lemma community_never_holds_the_project_witness :
  let l := [B_claim (claimer "c1" "anthropic/claude" "community") community_spells t_site;
            B_claim (claimer "c2" "anthropic:project/claude" "community") community_spells t_site;
            B_sweep community_spells t_site] in
  let d := run_bs {| settings := ∅; blines := [] |} l in
  map_size (settings d) = 1%nat
  /\ (breakerHolds (claimer "p1" "anthropic/claude" "project") community_spells t_site d d).2
     = (breakerHolds (claimer "p1" "anthropic/claude" "project") [] t_site {| settings := ∅; blines := [] |} {| settings := ∅; blines := [] |}).2.
Proof.
  split; [vm_compute; reflexivity|].
  refine (community_never_holds_the_project _ (claimer "p1" "anthropic/claude" "project") community_spells t_site _ _ _).
  - repeat constructor.
  - reflexivity.
Defined.
