(* ===== verification/JsonText.v ===== *)
(** * JSON text: [JSON.parse]

    The language's parser on the UTF-8 text of a string. A number is read as the
    exact decimal it writes; an object's key written twice keeps the last value
    at the first one's place. Every value takes a character, so the length of the
    text bounds the depth and each loop. *)
From S2P Require Import Prelude JsTime Json.
Local Open Scope string_scope.
Local Open Scope Z_scope.

Definition json_space (c : ascii) : bool := existsb (fun n => (N_of_ascii c =? n)%N) [32; 9; 10; 13]%N.
Fixpoint skip_space (s : string) : string :=
  match s with String c s' => if json_space c then skip_space s' else s | EmptyString => s end.

(** A literal's characters, taken off the front. *)
Fixpoint eat (p s : string) : option string :=
  match p, s with
  | EmptyString, _ => Some s
  | String c p', String d s' => if Ascii.eqb c d then eat p' s' else None
  | _, _ => None
  end.

(** ** Strings *)

Definition hex_val (c : ascii) : option Z :=
  let n := Z.of_N (N_of_ascii c) in
  if is_digit c then Some (n - 48)
  else if (97 <=? n) && (n <=? 102) then Some (n - 87)
  else if (65 <=? n) && (n <=? 70) then Some (n - 55) else None.
Definition unit_of (s : string) : option (Z * string) :=
  match s with
  | String a (String b (String c (String d s'))) =>
      w ← hex_val a; x ← hex_val b; y ← hex_val c; z ← hex_val d; Some (((w * 16 + x) * 16 + y) * 16 + z, s')
  | _ => None
  end.
(** A code point's UTF-8; a lone surrogate keeps its three bytes. *)
Definition utf8_char (v : Z) : string :=
  let b x := ascii_of_N (Z.to_N x) in
  if v <? 128 then String (b v) ""
  else if v <? 2048 then String (b (192 + v / 64)) (String (b (128 + v mod 64)) "")
  else if v <? 65536 then String (b (224 + v / 4096)) (String (b (128 + v / 64 mod 64)) (String (b (128 + v mod 64)) ""))
  else String (b (240 + v / 262144)) (String (b (128 + v / 4096 mod 64)) (String (b (128 + v / 64 mod 64)) (String (b (128 + v mod 64)) ""))).
Definition escaped (c : ascii) : option string :=
  let n := N_of_ascii c in
  let one m := Some (String (ascii_of_N m) "") in
  if existsb (fun m => (n =? m)%N) [34; 92; 47]%N then Some (String c "")
  else if (n =? 98)%N then one 8%N else if (n =? 102)%N then one 12%N else if (n =? 110)%N then one 10%N
  else if (n =? 114)%N then one 13%N else if (n =? 116)%N then one 9%N else None.

(** What follows the opening quote: the text, and what follows the closing one. *)
Fixpoint read_string (fuel : nat) (s : string) : option (string * string) :=
  match fuel with
  | O => None
  | S fuel' =>
      match s with
      | EmptyString => None
      | String c s' =>
          let n := N_of_ascii c in
          if (n =? 34)%N then Some ("", s')
          else if (n <? 32)%N then None
          else if (n =? 92)%N then
            match s' with
            | EmptyString => None
            | String d s2 =>
                if Ascii.eqb d "u" then
                  p ← unit_of s2;
                  let '(hi, s3) := p in
                  let low := if (55296 <=? hi) && (hi <? 56320)
                             then (s4 ← eat "\u" s3; q ← unit_of s4; if (56320 <=? q.1) && (q.1 <? 57344) then Some q else None)
                             else None in
                  match low with
                  | Some (lo, s4) => r ← read_string fuel' s4; Some (utf8_char (65536 + (hi - 55296) * 1024 + (lo - 56320)) +:+ r.1, r.2)
                  | None => r ← read_string fuel' s3; Some (utf8_char hi +:+ r.1, r.2)
                  end
                else t ← escaped d; r ← read_string fuel' s2; Some (t +:+ r.1, r.2)
            end
          else r ← read_string fuel' s'; Some (String c r.1, r.2)
      end
  end.

(** ** Numbers *)

Fixpoint read_digits (acc : Z) (n : nat) (s : string) : Z * nat * string :=
  match s with
  | String c s' => if is_digit c then read_digits (10 * acc + digit_val c) (S n) s' else (acc, n, s)
  | EmptyString => (acc, n, s)
  end.
(** A decimal with no fraction digit to spare. *)
Fixpoint normal (m : Z) (s : nat) : json :=
  match s with O => JNum m 0 | S s' => if m mod 10 =? 0 then normal (m / 10) s' else JNum m s end.
Definition scaled (m : Z) (places : nat) (e : Z) : json :=
  let d := Z.of_nat places - e in if d <=? 0 then JNum (m * 10 ^ (- d)) 0 else normal m (Z.to_nat d).

(** What follows the whole digits: the fraction's, then the exponent's. *)
Definition read_fraction (whole : Z) (s : string) : option (Z * nat * string) :=
  match s with
  | String "." s' => let '(m, k, s2) := read_digits whole 0 s' in if (k =? 0)%nat then None else Some (m, k, s2)
  | _ => Some (whole, O, s)
  end.
Definition signed_digits (s : string) : option (Z * string) :=
  let '(neg, s) := match s with String "-" r => (true, r) | String "+" r => (false, r) | _ => (false, s) end in
  let '(e, k, s2) := read_digits 0 0 s in
  if (k =? 0)%nat then None else Some (if neg then - e else e, s2).
Definition read_exponent (m : Z) (places : nat) (s : string) : option (json * string) :=
  match s with
  | String c s' =>
      if Ascii.eqb c "e" || Ascii.eqb c "E" then p ← signed_digits s'; Some (scaled m places p.1, p.2)
      else Some (scaled m places 0, s)
  | EmptyString => Some (scaled m places 0, s)
  end.
Definition read_unsigned (neg : bool) (s : string) : option (json * string) :=
  let '(whole, n, s1) := read_digits 0 0 s in
  if (n =? 0)%nat || ((1 <? n)%nat && starts_with "0" s) then None
  else f ← read_fraction whole s1; let '(m, places, s2) := f in read_exponent (if neg then - m else m) places s2.
Definition read_number (s : string) : option (json * string) :=
  match s with String "-" s' => read_unsigned true s' | _ => read_unsigned false s end.

(** ** Values *)

Fixpoint put {A} (k : string) (v : A) (o : list (string * A)) : list (string * A) :=
  match o with [] => [(k, v)] | (k', v') :: o' => if String.eqb k k' then (k', v) :: o' else (k', v') :: put k v o' end.

Section Loops.
Context (value : string -> option (json * string)).

(** After a value of an array: [","] and another, or ["]"]. *)
Fixpoint elements (fuel : nat) (acc : list json) (s : string) : option (json * string) :=
  match fuel with
  | O => None
  | S fuel' =>
      p ← value s;
      match skip_space p.2 with
      | String "," s' => elements fuel' (acc ++ [p.1])%list s'
      | String "]" s' => Some (JArr (acc ++ [p.1])%list, s')
      | _ => None
      end
  end.
Fixpoint members (fuel : nat) (acc : list (string * json)) (s : string) : option (json * string) :=
  match fuel with
  | O => None
  | S fuel' =>
      match skip_space s with
      | String c s1 =>
          if negb (N_of_ascii c =? 34)%N then None
          else
            k ← read_string (S (String.length s1)) s1;
            match skip_space k.2 with
            | String ":" s2 =>
                p ← value s2;
                match skip_space p.2 with
                | String "," s' => members fuel' (put k.1 p.1 acc) s'
                | String "}" s' => Some (JObj (put k.1 p.1 acc), s')
                | _ => None
                end
            | _ => None
            end
      | EmptyString => None
      end
  end.
End Loops.

Fixpoint read_value (fuel : nat) (s : string) : option (json * string) :=
  match fuel with
  | O => None
  | S fuel' =>
      let s := skip_space s in
      match s with
      | EmptyString => None
      | String c s' =>
          if Ascii.eqb c "[" then
            match skip_space s' with
            | String "]" r => Some (JArr [], r)
            | _ => elements (read_value fuel') (S (String.length s')) [] s'
            end
          else if Ascii.eqb c "{" then
            match skip_space s' with
            | String "}" r => Some (JObj [], r)
            | _ => members (read_value fuel') (S (String.length s')) [] s'
            end
          else if (N_of_ascii c =? 34)%N then p ← read_string (S (String.length s')) s'; Some (JStr p.1, p.2)
          else if Ascii.eqb c "t" then r ← eat "rue" s'; Some (JBool true, r)
          else if Ascii.eqb c "f" then r ← eat "alse" s'; Some (JBool false, r)
          else if Ascii.eqb c "n" then r ← eat "ull" s'; Some (JNull, r)
          else read_number s
      end
  end.

(** [JSON.parse(s)]: [None] where it throws. *)
Definition json_parse (s : string) : option json :=
  p ← read_value (S (String.length s)) s;
  match skip_space p.2 with EmptyString => Some p.1 | _ => None end.

(** The reader on the writer's text. *)
Example json_parse_sample :
  let v := JObj [("a", JArr [JNum (-15) 1; JNull; JObj []; JArr []]); ("b", JStr (quote_char +:+ "\" +:+ String (ascii_of_nat 10) "x")); ("c", JBool true)] in
  json_parse (json_text v) = Some v.
Proof. vm_compute. reflexivity. Qed.
Example json_parse_numbers :
  map json_parse ["1e3"; "-0.50"; " 12 "; "01"; "1."; "2E-2"] =
  [Some (JNum 1000 0); Some (JNum (-5) 1); Some (JNum 12 0); None; None; Some (JNum 2 2)].
Proof. vm_compute. reflexivity. Qed.
