(* ===== verification/JsonFacts.v ===== *)
(** * JSON text reads back

    [json_parse (json_text v) = Some v] for every value the writer can be given:
    decimals normalised, an object's keys distinct. Shared by the components that
    store JSON in a column, a token or a signed document. *)
From Stdlib Require Import DecimalString DecimalZ DecimalPos DecimalFacts.
From S2P Require Import Prelude JsTime TextFacts Json JsonText.
Local Open Scope string_scope.
Local Open Scope Z_scope.

Section JsonInd.
Context (P : json -> Prop).
Hypotheses (Hnull : P JNull) (Hbool : forall b, P (JBool b)) (Hnum : forall m s, P (JNum m s)) (Hstr : forall s, P (JStr s))
  (Harr : forall l, Forall P l -> P (JArr l)) (Hobj : forall o, Forall (fun p => P p.2) o -> P (JObj o)).
Fixpoint json_nested (v : json) : P v :=
  match v with
  | JNull => Hnull
  | JBool b => Hbool b
  | JNum m s => Hnum m s
  | JStr s => Hstr s
  | JArr l => Harr l ((fix go l : Forall P l := match l with [] => Forall_nil_2 _ | x :: l' => Forall_cons_2 _ _ _ (json_nested x) (go l') end) l)
  | JObj o => Hobj o ((fix go o : Forall (fun p => P p.2) o :=
      match o with [] => Forall_nil_2 _ | (k, x) :: o' => Forall_cons_2 _ (k, x) _ (json_nested x) (go o') end) o)
  end.
End JsonInd.

Fixpoint distinct (l : list string) : bool := match l with [] => true | k :: l' => negb (str_in k l') && distinct l' end.
(** What the writer is given: a normalised decimal, an object with a key once. *)
Fixpoint json_ok (v : json) : bool :=
  match v with
  | JNum m (S _) => negb (m mod 10 =? 0)
  | JArr l => forallb json_ok l
  | JObj o => distinct (map fst o) && forallb (fun p => json_ok p.2) o
  | _ => true
  end.

(** ** Text *)


(** ** Digits *)

(** What ends a number: the end of the text, or a character no number has. *)
Definition ends_number (s : string) : bool :=
  match s with EmptyString => true | String c _ => existsb (fun n => (N_of_ascii c =? n)%N) [44; 93; 125]%N end.
Definition no_digit (s : string) : bool := match s with EmptyString => true | String c _ => negb (is_digit c) end.

(** The value of a run of digits, from the left. *)
Fixpoint horner (acc : Z) (d : Decimal.uint) : Z :=
  match d with
  | Decimal.Nil => acc
  | Decimal.D0 d => horner (10 * acc) d | Decimal.D1 d => horner (10 * acc + 1) d | Decimal.D2 d => horner (10 * acc + 2) d
  | Decimal.D3 d => horner (10 * acc + 3) d | Decimal.D4 d => horner (10 * acc + 4) d | Decimal.D5 d => horner (10 * acc + 5) d
  | Decimal.D6 d => horner (10 * acc + 6) d | Decimal.D7 d => horner (10 * acc + 7) d | Decimal.D8 d => horner (10 * acc + 8) d
  | Decimal.D9 d => horner (10 * acc + 9) d
  end.
Lemma horner_acc d p : horner (Z.pos p) d = Z.pos (Pos.of_uint_acc d p).
Proof. revert p. induction d as [|d IH|d IH|d IH|d IH|d IH|d IH|d IH|d IH|d IH|d IH]; intros p; [done|..]; cbn [horner Pos.of_uint_acc]; rewrite <- IH; f_equal; lia. Qed.
Lemma horner_uint d : horner 0 d = Z.of_N (Pos.of_uint d).
Proof. induction d as [|d IH|d IH|d IH|d IH|d IH|d IH|d IH|d IH|d IH|d IH]; [done|exact IH|..]; cbn [horner Pos.of_uint]; apply (horner_acc d). Qed.

Lemma read_digits_stop acc n rest : no_digit rest = true -> read_digits acc n rest = (acc, n, rest).
Proof. destruct rest as [|c rest]; [done|]. cbn [no_digit read_digits]. intros ->%negb_true_iff. done. Qed.

Lemma read_digits_uint d acc n rest : no_digit rest = true ->
  read_digits acc n (NilEmpty.string_of_uint d +:+ rest) = (horner acc d, (n + Decimal.nb_digits d)%nat, rest).
Proof.
  intros Hr. revert acc n. induction d as [|d IH|d IH|d IH|d IH|d IH|d IH|d IH|d IH|d IH|d IH]; intros acc n.
  { cbn [horner Decimal.nb_digits]. rewrite Nat.add_0_r. by apply read_digits_stop. }
  all: cbn [NilEmpty.string_of_uint horner Decimal.nb_digits]; rewrite str_app_cons; cbn [read_digits].
  all: match goal with |- context [digit_val ?c] => let v := eval vm_compute in (digit_val c) in change (is_digit c) with true; change (digit_val c) with v end.
  all: rewrite IH; f_equal; f_equal; try lia; f_equal; lia.
Qed.

Lemma zstr_uint z : 0 <= z -> zstr z = NilEmpty.string_of_uint (N.to_uint (Z.to_N z)).
Proof.
  intros Hz. unfold zstr. destruct z as [|p|p]; [done| |lia]. cbn.
  destruct (Pos.to_uint p) eqn:E; try done. by destruct (Unsigned.to_uint_nonnil p).
Qed.
Lemma zstr_neg z : z < 0 -> zstr z = String "-" (zstr (- z)).
Proof. intros Hz. unfold zstr. destruct z as [|p|p]; try lia. done. Qed.

Lemma to_uint_head z d : 0 <= z -> N.to_uint (Z.to_N z) = Decimal.D0 d -> d = Decimal.Nil.
Proof.
  intros Hz E. pose proof (Unsigned.to_of (N.to_uint (Z.to_N z))) as H.
  assert (Ho : Pos.of_uint (N.to_uint (Z.to_N z)) = Z.to_N z).
  { destruct (Z.to_N z); [done|]. apply Unsigned.of_to. }
  rewrite Ho in H. rewrite E in H. unfold Decimal.unorm in H. cbn [Decimal.nzhead] in H.
  destruct (Decimal.nzhead d) eqn:En; try congruence.
  by destruct (nzhead_nonzero d u).
Qed.
Lemma to_uint_digits z : 0 <= z -> (1 <= Decimal.nb_digits (N.to_uint (Z.to_N z)))%nat.
Proof.
  intros Hz. destruct (Z.to_N z) as [|p]; [done|]. cbn.
  destruct (Pos.to_uint p) eqn:E; cbn; try lia. by destruct (Unsigned.to_uint_nonnil p).
Qed.

(** The digits of a number, read back. *)
Lemma read_digits_zstr z rest : 0 <= z -> no_digit rest = true ->
  exists n, read_digits 0 0 (zstr z +:+ rest) = (z, S n, rest)
  /\ ((1 <? S n)%nat && starts_with "0" (zstr z +:+ rest) = false).
Proof.
  intros Hz Hr. rewrite (zstr_uint z Hz), read_digits_uint, horner_uint by done. cbn [Nat.add].
  assert (Ho : Pos.of_uint (N.to_uint (Z.to_N z)) = Z.to_N z).
  { destruct (Z.to_N z); [done|]. apply Unsigned.of_to. }
  rewrite Ho, Z2N.id by done. pose proof (to_uint_digits z Hz) as Hn.
  destruct (Decimal.nb_digits (N.to_uint (Z.to_N z))) as [|n] eqn:E; [lia|]. exists n. split; [done|].
  destruct (N.to_uint (Z.to_N z)) as [|d|d|d|d|d|d|d|d|d|d] eqn:Ez; try (cbn; apply andb_false_r); [discriminate E|].
  rewrite (to_uint_head z d Hz Ez) in E. cbn in E. injection E as <-. done.
Qed.

Lemma read_digits_pad s v acc n rest : no_digit rest = true ->
  read_digits acc n (pad s v +:+ rest) = (acc * 10 ^ Z.of_nat s + v mod 10 ^ Z.of_nat s, (n + s)%nat, rest).
Proof.
  intros Hr. revert acc n. induction s as [|s IH]; intros acc n.
  { cbn [pad]. rewrite Z.mod_1_r, Nat.add_0_r. change ("" +:+ rest) with rest.
    replace (acc * 10 ^ Z.of_nat 0 + 0) with acc by (cbn; lia).
    by apply read_digits_stop. }
  pose proof (digit_char_cases (v / 10 ^ Z.of_nat s)) as (H1 & H2 & _).
  cbn [pad]. rewrite str_app_cons. cbn [read_digits]. rewrite H1, H2, IH, Nat2Z.inj_succ, Z.pow_succ_r by lia.
  rewrite (Z.mul_comm 10 (10 ^ _)), Z.rem_mul_r by lia. f_equal; f_equal; lia.
Qed.

Lemma ends_no_digit rest : ends_number rest = true -> no_digit rest = true.
Proof. destruct rest as [|c rest]; [done|]. revert c. intros [[] [] [] [] [] [] [] []]; done. Qed.
Lemma ends_no_space rest : ends_number rest = true -> skip_space rest = rest.
Proof. destruct rest as [|c rest]; [done|]. revert c. intros [[] [] [] [] [] [] [] []]; done. Qed.

Lemma ends_fraction m rest : ends_number rest = true -> read_fraction m rest = Some (m, O, rest).
Proof. destruct rest as [|c rest]; [done|]. revert c. intros [[] [] [] [] [] [] [] []]; done. Qed.
Lemma ends_exponent m k rest : ends_number rest = true -> read_exponent m k rest = Some (scaled m k 0, rest).
Proof. destruct rest as [|c rest]; [done|]. revert c. intros [[] [] [] [] [] [] [] []]; done. Qed.

Lemma zstr_head z rest : 0 <= z -> exists c s, zstr z +:+ rest = String c s /\ is_digit c = true.
Proof.
  intros Hz. rewrite zstr_uint by done. pose proof (to_uint_digits z Hz) as Hn.
  destruct (N.to_uint (Z.to_N z)) as [|d|d|d|d|d|d|d|d|d|d]; [cbn in Hn; lia|..]; cbn [NilEmpty.string_of_uint]; rewrite str_app_cons; by do 2 eexists.
Qed.
Lemma digit_unsigned c s : is_digit c = true -> read_number (String c s) = read_unsigned false (String c s).
Proof. revert c. intros [[] [] [] [] [] [] [] []]; done. Qed.

(** The text of a decimal without sign, read back whatever ends it. *)
Definition unsigned_text (m : Z) (s : nat) : string :=
  match s with O => zstr m | _ => zstr (m / 10 ^ Z.of_nat s) +:+ "." +:+ pad s (m mod 10 ^ Z.of_nat s) end.
Lemma read_unsigned_text neg m s rest : 0 <= m -> ends_number rest = true ->
  read_unsigned neg (unsigned_text m s +:+ rest) = Some (scaled (if neg then - m else m) s 0, rest).
Proof.
  intros Hm Hr. unfold read_unsigned. destruct s as [|s]; cbn [unsigned_text].
  - destruct (read_digits_zstr m rest Hm (ends_no_digit _ Hr)) as (n & -> & ->). cbn -[scaled Nat.ltb].
    rewrite ends_fraction by done. cbn -[scaled]. by apply ends_exponent.
  - rewrite <- app_assoc_s.
    assert (Hq : 0 <= m / 10 ^ Z.of_nat (S s)) by (apply Z.div_pos; lia).
    destruct (read_digits_zstr _ (("." +:+ pad (S s) (m mod 10 ^ Z.of_nat (S s))) +:+ rest) Hq eq_refl) as (n & -> & ->).
    cbn -[scaled Nat.ltb pad Z.of_nat]. change (("." +:+ ?x) +:+ ?y) with (String "." (x +:+ y)).
    cbn [read_fraction].
    rewrite read_digits_pad by (by apply ends_no_digit). cbn -[scaled pad Z.of_nat]. rewrite Z.mod_mod, Z.mul_comm by lia.
    rewrite <- Z.div_mod by lia. by apply ends_exponent.
Qed.

Lemma scaled_normal m s : scaled m s 0 = normal m s.
Proof. unfold scaled. destruct s as [|s]; [cbn; f_equal; lia|]. destruct (Z.leb_spec (Z.of_nat (S s) - 0) 0); [lia|]. by rewrite Z.sub_0_r, Nat2Z.id. Qed.
Lemma normal_ok m s : json_ok (JNum m s) = true -> normal m s = JNum m s.
Proof. destruct s as [|s]; [done|]. cbn [json_ok normal]. by intros ->%negb_true_iff. Qed.

Lemma read_num_text m s rest : json_ok (JNum m s) = true -> ends_number rest = true ->
  read_number (num_text m s +:+ rest) = Some (JNum m s, rest).
Proof.
  intros Hok Hr.
  assert (Ht : num_text m s = (if m <? 0 then "-" else "") +:+ unsigned_text (Z.abs m) s).
  { destruct s as [|s]; cbn [num_text unsigned_text]; [|done].
    destruct (Z.ltb_spec m 0); [by rewrite zstr_neg, Z.abs_neq by lia|by rewrite Z.abs_eq by lia]. }
  rewrite Ht. destruct (Z.ltb_spec m 0) as [Hm|Hm].
  - change (("-" +:+ unsigned_text (Z.abs m) s) +:+ rest) with (String "-" (unsigned_text (Z.abs m) s +:+ rest)).
    cbn [read_number]. rewrite read_unsigned_text by (done || lia). rewrite scaled_normal, Z.abs_neq, Z.opp_involutive, normal_ok by (done || lia). done.
  - change ("" +:+ unsigned_text (Z.abs m) s) with (unsigned_text (Z.abs m) s).
    assert (Hh : exists c r, unsigned_text (Z.abs m) s +:+ rest = String c r /\ is_digit c = true).
    { destruct s as [|s]; cbn [unsigned_text]; [|rewrite <- app_assoc_s]; apply zstr_head; [|apply Z.div_pos]; lia. }
    destruct Hh as (c & r & Hc & Hd). rewrite Hc, digit_unsigned, <- Hc, read_unsigned_text by (done || lia).
    rewrite scaled_normal, Z.abs_eq, normal_ok by (done || lia). done.
Qed.

(** ** Strings *)

Lemma read_escaped c f t :
  read_string (S f) (escape_char c +:+ t) = (r ← read_string f t; Some (String c r.1, r.2)).
Proof. destruct c as [[] [] [] [] [] [] [] []]; reflexivity. Qed.

Lemma read_string_back s rest fuel : (String.length s < fuel)%nat ->
  read_string fuel (escape s +:+ quote_char +:+ rest) = Some (s, rest).
Proof.
  revert fuel. induction s as [|c s IH]; intros fuel Hf; (destruct fuel as [|fuel]; [cbn in Hf; lia|]); [done|].
  cbn [escape]. rewrite <- app_assoc_s, read_escaped, IH; [done|]. cbn in Hf. lia.
Qed.

Lemma escape_length s : (String.length s <= String.length (escape s))%nat.
Proof.
  induction s as [|c s IH]; [done|]. cbn [escape String.length]. rewrite length_app_s.
  enough (1 <= String.length (escape_char c))%nat by lia. destruct c as [[] [] [] [] [] [] [] []]; apply Nat.leb_le; reflexivity.
Qed.

(** ** Values *)

(** No value's text begins with a space, or as an array's or an object's end. *)
Definition starts_value (s : string) : bool :=
  match s with String c _ => negb (json_space c) && negb (Ascii.eqb c "]") && negb (Ascii.eqb c "}") | EmptyString => false end.
Lemma starts_no_space s : starts_value s = true -> skip_space s = s.
Proof. destruct s as [|c s]; [done|]. cbn [starts_value skip_space]. destruct (json_space c); done. Qed.

Definition starts_number (c : ascii) : bool := is_digit c || Ascii.eqb c "-".
Lemma num_head m s rest : exists c r, num_text m s +:+ rest = String c r /\ starts_number c = true.
Proof.
  assert (Hz : forall z rest, 0 <= z -> exists c r, zstr z +:+ rest = String c r /\ starts_number c = true).
  { intros z r Hz. destruct (zstr_head z r Hz) as (c & r' & -> & Hc). exists c, r'. unfold starts_number. by rewrite Hc. }
  destruct s as [|s]; cbn [num_text].
  - destruct (Z.ltb_spec m 0); [rewrite zstr_neg by done; by do 2 eexists|]. apply Hz. lia.
  - destruct (m <? 0); [by do 2 eexists|]. change ("" +:+ ?x) with x. rewrite <- app_assoc_s.
    apply Hz, Z.div_pos; lia.
Qed.
Lemma text_starts v rest : starts_value (json_text v +:+ rest) = true.
Proof.
  destruct v as [| []|m s|s|l|o]; try done. destruct (num_head m s rest) as (c & r & Hc & Hn).
  cbn [json_text]. rewrite Hc. clear Hc. revert c Hn. intros [[] [] [] [] [] [] [] []]; done.
Qed.

(** How a number is told from the other values by its first character. *)
Lemma number_value fuel m s rest :
  read_value (S fuel) (num_text m s +:+ rest) = read_number (num_text m s +:+ rest).
Proof.
  cbn [read_value]. rewrite starts_no_space by apply (text_starts (JNum m s)).
  destruct (num_head m s rest) as (c & r & -> & Hc). revert Hc. generalize (read_number (String c r)). intros n. revert c.
  intros [[] [] [] [] [] [] [] []]; done.
Qed.

Section Containers.
Context (value : string -> option (json * string)).
Definition reads_back (v : json) : Prop := forall rest, ends_number rest = true -> value (json_text v +:+ rest) = Some (v, rest).

Lemma elements_back l x : Forall reads_back (x :: l) -> forall acc fuel rest, (length l < fuel)%nat -> ends_number rest = true ->
  elements value fuel acc (join "," (map json_text (x :: l)) +:+ "]" +:+ rest) = Some (JArr (acc ++ x :: l)%list, rest).
Proof.
  revert x. induction l as [|y l IH]; intros x Hall acc fuel rest Hf Hr; inversion_clear Hall as [|? ? Hx Hl];
    (destruct fuel as [|fuel]; [cbn in Hf; lia|]).
  - cbn [map join elements]. by rewrite Hx.
  - change (join "," (map json_text (x :: y :: l))) with (json_text x +:+ "," +:+ join "," (map json_text (y :: l))).
    rewrite <- !app_assoc_s. cbn [elements]. rewrite Hx by done. cbn [mbind option_bind fst snd].
    change (skip_space ("," +:+ ?a)) with (String "," a). cbv iota.
    rewrite IH by (done || cbn in Hf; lia). by rewrite <- app_assoc.
Qed.

Lemma put_new (k : string) (v : json) acc : ~ In k (map fst acc) -> put k v acc = (acc ++ [(k, v)])%list.
Proof.
  induction acc as [|[k' v'] acc IH]; [done|]. cbn. intros Hn. destruct (String.eqb_spec k k') as [->|]; [tauto|].
  rewrite IH; tauto.
Qed.

Definition entry_text (p : string * json) : string := quoted p.1 +:+ ":" +:+ json_text p.2.

(** One member: its key, its value, and what follows. *)
Lemma member_step fuel acc k v rest : reads_back v -> ends_number rest = true ->
  members value (S fuel) acc (entry_text (k, v) +:+ rest) =
  match skip_space rest with
  | String "," s' => members value fuel (put k v acc) s'
  | String "}" s' => Some (JObj (put k v acc), s')
  | _ => None
  end.
Proof.
  intros Hv Hr. unfold entry_text, quoted. cbn [fst snd]. rewrite <- !app_assoc_s.
  change (quote_char +:+ ?a) with (String (ascii_of_nat 34) a) at 1. cbn [members].
  change (skip_space (String (ascii_of_nat 34) ?a)) with (String (ascii_of_nat 34) a).
  cbv iota beta. change (negb (N_of_ascii (ascii_of_nat 34) =? 34)%N) with false. cbv iota.
  rewrite read_string_back.
  2:{ rewrite length_app_s. pose proof (escape_length k). lia. }
  cbn [mbind option_bind fst snd]. change (skip_space (":" +:+ ?a)) with (String ":" a). cbv iota.
  rewrite Hv by done. done.
Qed.

Lemma members_back o : forall k v, Forall (fun p => reads_back p.2) ((k, v) :: o) -> distinct (map fst ((k, v) :: o)) = true ->
  forall acc fuel rest, (length o < fuel)%nat -> ends_number rest = true -> (forall x, In x (map fst acc) -> ~ In x (map fst ((k, v) :: o))) ->
  members value fuel acc (join "," (map entry_text ((k, v) :: o)) +:+ "}" +:+ rest) = Some (JObj (acc ++ (k, v) :: o)%list, rest).
Proof.
  induction o as [|[k' v'] o IH]; intros k v Hall Hd acc fuel rest Hf Hr Hn; inversion_clear Hall as [|? ? Hx Hl];
    (destruct fuel as [|fuel]; [cbn in Hf; lia|]); cbn [snd] in Hx.
  - cbn [map join]. rewrite member_step by done. change (skip_space ("}" +:+ ?a)) with (String "}" a). cbv iota.
    rewrite put_new; [done|]. intros Hin. apply (Hn k Hin). by left.
  - change (join "," (map entry_text ((k, v) :: (k', v') :: o)))
      with (entry_text (k, v) +:+ "," +:+ join "," (map entry_text ((k', v') :: o))).
    rewrite <- !app_assoc_s, member_step by done. change (skip_space ("," +:+ ?a)) with (String "," a). cbv iota.
    cbn [map fst distinct] in Hd. apply andb_true_iff in Hd as [Hk Hd]. apply negb_true_iff in Hk.
    assert (Hk' : ~ In k (map fst ((k', v') :: o))) by (rewrite <- str_in_In; cbn [map fst]; congruence).
    rewrite put_new, IH; [by rewrite <- app_assoc|done|done|cbn in Hf; lia|done| |].
    + intros x. rewrite map_app, in_app_iff. intros [Hx'|[<-|[]]]; [|done]. intros Hin. apply (Hn x Hx'). by right.
    + intros Hin. apply (Hn k Hin). by left.
Qed.
End Containers.

Lemma join_mem (x : string) l : In x l -> (String.length x <= String.length (join "," l))%nat.
Proof.
  induction l as [|y [|z l] IH]; [done| |]; intros Hin.
  - destruct Hin as [->|[]]. done.
  - change (join "," (y :: z :: l)) with (y +:+ "," +:+ join "," (z :: l)). rewrite !length_app_s.
    destruct Hin as [->|Hin]; [|specialize (IH Hin)]; lia.
Qed.
Lemma text_nonempty v : (1 <= String.length (json_text v))%nat.
Proof. pose proof (text_starts v "") as H. rewrite app_nil_s in H. destruct (json_text v); [done|]. cbn. lia. Qed.
Lemma join_count (l : list string) : (forall x, In x l -> 1 <= String.length x)%nat -> (length l <= String.length (join "," l))%nat.
Proof.
  induction l as [|y [|z l] IH]; intros H; [done| |].
  - pose proof (H y (or_introl eq_refl)). cbn. lia.
  - change (join "," (y :: z :: l)) with (y +:+ "," +:+ join "," (z :: l)). rewrite !length_app_s.
    pose proof (H y (or_introl eq_refl)). pose proof (IH (fun x Hx => H x (or_intror Hx))). cbn [length] in *. lia.
Qed.

Lemma not_an_end {A} s (f : string -> A) (b : A) : starts_value s = true ->
  match skip_space s with String "]" r => f r | _ => b end = b /\ match skip_space s with String "}" r => f r | _ => b end = b.
Proof.
  intros Hs. rewrite starts_no_space by done. destruct s as [|c s]; [done|]. revert c Hs. intros [[] [] [] [] [] [] [] []]; done.
Qed.
Lemma array_value fuel s : starts_value s = true ->
  read_value (S fuel) ("[" +:+ s) = elements (read_value fuel) (S (String.length s)) [] s.
Proof.
  intros Hs. change ("[" +:+ s) with (String "[" s). cbn [read_value]. change (skip_space (String "[" s)) with (String "[" s).
  cbv iota. change (Ascii.eqb "[" "[") with true. cbv iota. by apply not_an_end.
Qed.
Lemma object_value fuel s : starts_value s = true ->
  read_value (S fuel) ("{" +:+ s) = members (read_value fuel) (S (String.length s)) [] s.
Proof.
  intros Hs. change ("{" +:+ s) with (String "{" s). cbn [read_value]. change (skip_space (String "{" s)) with (String "{" s).
  cbv iota. change (Ascii.eqb "{" "[") with false. change (Ascii.eqb "{" "{") with true. cbv iota. by apply not_an_end.
Qed.

Lemma read_value_back v : json_ok v = true -> forall fuel, (String.length (json_text v) <= fuel)%nat -> reads_back (read_value fuel) v.
Proof.
  induction v as [|b|m s|s|l IH|o IH] using json_nested; intros Hok fuel Hf rest Hr;
    (destruct fuel as [|fuel]; [match type of Hf with (String.length (json_text ?v) <= _)%nat => pose proof (text_nonempty v) end; lia|]).
  - done.
  - by destruct b.
  - cbn [json_text]. rewrite number_value. by apply read_num_text.
  - cbn [json_text]. unfold quoted. rewrite <- !app_assoc_s.
    change (quote_char +:+ ?a) with (String (ascii_of_nat 34) a) at 1. cbn [read_value].
    change (skip_space (String (ascii_of_nat 34) ?a)) with (String (ascii_of_nat 34) a). cbn -[read_string String.append quote_char].
    rewrite read_string_back; [done|]. rewrite length_app_s. pose proof (escape_length s). lia.
  - cbn [json_text] in Hf |- *. rewrite <- !app_assoc_s. cbn [json_ok] in Hok. rewrite forallb_forall in Hok.
    destruct l as [|x l]; [done|].
    assert (Hall : Forall (reads_back (read_value fuel)) (x :: l)).
    { rewrite List.Forall_forall in IH |- *. intros y Hy. apply IH; [done|by apply Hok|].
      pose proof (join_mem _ _ (in_map json_text _ _ Hy)). rewrite !length_app_s in Hf. cbn [String.length] in Hf. lia. }
    rewrite array_value, elements_back; [done|done| |done|].
    + rewrite length_app_s. pose proof (join_count (map json_text (x :: l))) as Hn. rewrite length_map in Hn. cbn [length] in Hn.
      apply le_n_S. etransitivity; [|apply Nat.le_add_r]. etransitivity; [|apply Hn]; [lia|].
      intros t (y & <- & _)%in_map_iff. apply text_nonempty.
    + destruct l as [|y l]; [apply text_starts|].
      change (join "," (map json_text (x :: y :: l))) with (json_text x +:+ "," +:+ join "," (map json_text (y :: l))).
      rewrite <- !app_assoc_s. apply text_starts.
  - cbn [json_text] in Hf |- *. fold entry_text in Hf |- *. rewrite <- !app_assoc_s. cbn [json_ok] in Hok.
    apply andb_true_iff in Hok as [Hd Hok]. rewrite forallb_forall in Hok.
    destruct o as [|[k v] o]; [done|].
    assert (Hall : Forall (fun p => reads_back (read_value fuel) p.2) ((k, v) :: o)).
    { rewrite List.Forall_forall in IH |- *. intros y Hy. apply IH; [done|by apply Hok|].
      pose proof (join_mem _ _ (in_map entry_text _ _ Hy)) as Hl. rewrite !length_app_s in Hf. cbn [String.length] in Hf.
      unfold entry_text at 1, quoted in Hl. rewrite !length_app_s in Hl. lia. }
    rewrite object_value, members_back; [done|done|done| |done|intros x []|].
    + rewrite length_app_s. pose proof (join_count (map entry_text ((k, v) :: o))) as Hn. rewrite length_map in Hn. cbn [length] in Hn.
      apply le_n_S. etransitivity; [|apply Nat.le_add_r]. etransitivity; [|apply Hn]; [lia|].
      intros t (y & <- & _)%in_map_iff. unfold entry_text, quoted. rewrite !length_app_s. cbn. lia.
    + by destruct o.
Qed.

(** The reader takes back what the writer wrote. *)
Theorem json_round_trip v : json_ok v = true -> json_parse (json_text v) = Some v.
Proof.
  intros Hok. unfold json_parse. rewrite <- (app_nil_s (json_text v)) at 2.
  rewrite (read_value_back v Hok) by (done || lia). done.
Qed.

(** ** What the reader gives is a value the writer can be given *)

Lemma normal_is_ok m s : json_ok (normal m s) = true.
Proof. revert m. induction s as [|s IH]; intros m; [done|]. cbn [normal]. destruct (m mod 10 =? 0) eqn:E; [apply IH|]. cbn. by rewrite E. Qed.
Lemma scaled_is_ok m k e : json_ok (scaled m k e) = true.
Proof. unfold scaled. destruct (_ <=? 0); [done|]. apply normal_is_ok. Qed.
Lemma exponent_is_ok m k s p : read_exponent m k s = Some p -> json_ok p.1 = true.
Proof.
  unfold read_exponent. destruct s as [|c s']; [intros [= <-]; apply scaled_is_ok|].
  destruct (_ || _); [|intros [= <-]; apply scaled_is_ok]. intros H. apply bind_Some in H as (d & _ & [= <-]). apply scaled_is_ok.
Qed.
Lemma unsigned_is_ok neg s p : read_unsigned neg s = Some p -> json_ok p.1 = true.
Proof.
  unfold read_unsigned. destruct (read_digits 0 0 s) as [[w n] s1]. destruct (_ || _); [done|].
  intros H. apply bind_Some in H as ([[m k] s2] & _ & H). by apply exponent_is_ok in H.
Qed.
Lemma number_is_ok s p : read_number s = Some p -> json_ok p.1 = true.
Proof. unfold read_number. repeat case_match; apply unsigned_is_ok. Qed.

Lemma put_keys {A} (k : string) (v : A) o x : In x (map fst (put k v o)) <-> x = k \/ In x (map fst o).
Proof.
  induction o as [|[k' v'] o IH]; cbn; [naive_solver|]. destruct (String.eqb k k') eqn:E; cbn.
  - apply String.eqb_eq in E as ->. naive_solver.
  - rewrite IH. naive_solver.
Qed.
Lemma put_is_ok k v o : json_ok v = true -> json_ok (JObj o) = true -> json_ok (JObj (put k v o)) = true.
Proof.
  intros Hv. cbn [json_ok]. induction o as [|[k' v'] o IH]; cbn [put map fst distinct forallb].
  { intros _. cbn [snd str_in existsb negb andb]. by rewrite Hv. }
  intros H. apply andb_true_iff in H as [H1 H2]. apply andb_true_iff in H1 as [Hn Hd]. apply andb_true_iff in H2 as [Hv' Ho]. cbn [snd] in Hv'.
  specialize (IH (proj2 (andb_true_iff _ _) (conj Hd Ho))). apply andb_true_iff in IH as [IH1 IH2].
  destruct (String.eqb k k') eqn:E; cbn [map fst distinct forallb snd].
  - rewrite Hn, Hd, Hv, Ho. done.
  - rewrite IH1, IH2, Hv', !andb_true_r. apply negb_true_iff. apply negb_true_iff in Hn.
    apply not_true_iff_false. intros Hi. apply str_in_In, put_keys in Hi as [->|Hi]; [by rewrite String.eqb_refl in E|].
    apply str_in_In in Hi. congruence.
Qed.

Section LoopsOk.
Context (value : string -> option (json * string)) (Hvalue : forall s p, value s = Some p -> json_ok p.1 = true).

Lemma elements_is_ok fuel : forall acc s p, json_ok (JArr acc) = true -> elements value fuel acc s = Some p -> json_ok p.1 = true.
Proof.
  induction fuel as [|fuel IH]; intros acc s p Ha H; [done|]. cbn [elements] in H. apply bind_Some in H as (q & Hq & H).
  assert (Hok : json_ok (JArr (acc ++ [q.1])) = true).
  { cbn [json_ok] in *. rewrite forallb_app, Ha. cbn. by rewrite (Hvalue _ _ Hq). }
  repeat case_match; try discriminate; first [by apply IH in H|by injection H as <-].
Qed.
Lemma members_is_ok fuel : forall acc s p, json_ok (JObj acc) = true -> members value fuel acc s = Some p -> json_ok p.1 = true.
Proof.
  induction fuel as [|fuel IH]; intros acc s p Ha H; [done|]. cbn [members] in H.
  destruct (skip_space s) as [|c s1]; [done|]. destruct (negb _); [done|]. apply bind_Some in H as (k & _ & H).
  destruct (skip_space k.2) as [|d s2]; [done|]. destruct d as [[] [] [] [] [] [] [] []]; try done.
  apply bind_Some in H as (q & Hq & H). pose proof (put_is_ok k.1 _ acc (Hvalue _ _ Hq) Ha) as Hok.
  repeat case_match; try discriminate; first [by apply IH in H|by injection H as <-].
Qed.
End LoopsOk.

Lemma read_value_is_ok fuel : forall s p, read_value fuel s = Some p -> json_ok p.1 = true.
Proof.
  induction fuel as [|fuel IH]; intros s p H; [done|]. cbn [read_value] in H.
  destruct (skip_space s) as [|c s']; [done|].
  destruct (Ascii.eqb c "["); [destruct (skip_space s') as [|d r]; [by apply (elements_is_ok _ IH) in H|]; 
    destruct d as [[] [] [] [] [] [] [] []]; first [by injection H as <-|by apply (elements_is_ok _ IH) in H]|].
  destruct (Ascii.eqb c "{"); [destruct (skip_space s') as [|d r]; [by apply (members_is_ok _ IH) in H|]; 
    destruct d as [[] [] [] [] [] [] [] []]; first [by injection H as <-|by apply (members_is_ok _ IH) in H]|].
  destruct (_ =? 34)%N; [by apply bind_Some in H as (q & _ & [= <-])|].
  destruct (Ascii.eqb c "t"); [by apply bind_Some in H as (q & _ & [= <-])|].
  destruct (Ascii.eqb c "f"); [by apply bind_Some in H as (q & _ & [= <-])|].
  destruct (Ascii.eqb c "n"); [by apply bind_Some in H as (q & _ & [= <-])|]. by apply number_is_ok in H.
Qed.

Theorem json_parse_is_ok s v : json_parse s = Some v -> json_ok v = true.
Proof.
  unfold json_parse. intros H. apply bind_Some in H as (p & Hp & H). apply read_value_is_ok in Hp.
  destruct (skip_space p.2); [|done]. by injection H as <-.
Qed.

Lemma assoc_is_ok k o v : json_ok (JObj o) = true -> assoc k o = Some v -> json_ok v = true.
Proof.
  cbn [json_ok]. intros H. apply andb_true_iff in H as [_ H]. induction o as [|[k' v'] o IH]; [done|].
  cbn in *. apply andb_true_iff in H as [Hv H]. destruct (String.eqb k k'); [by intros [= <-]|by apply IH].
Qed.
