(* ===== verification/Bytes.v ===== *)
(** * Bytes

    A byte string is a list of integers in [0, 256). What the program takes from
    the language and the runtime to read and write them: 32-bit shifts, big-endian
    numbers, base64, UTF-8; and the error monad its byte readers run in, where a
    loop that has not ended is told from a refusal. *)
From S2P Require Import Prelude.
Local Open Scope string_scope.
Local Open Scope Z_scope.

Abbreviation bytes := (list Z).
Definition is_byte (b : Z) : Prop := 0 <= b < 256.
Abbreviation are_bytes := (Forall is_byte).

(** ** 32-bit operations *)

Definition to_int32 (x : Z) : Z := (x + 2 ^ 31) mod 2 ^ 32 - 2 ^ 31.
(** [a << n], [a >>> 0] *)
Definition shl (a n : Z) : Z := to_int32 (Z.shiftl a n).
Definition ushr0 (a : Z) : Z := a mod 2 ^ 32.

(** Big-endian numbers of [n] bytes: the reference the readers are compared with. *)
Fixpoint be_num (acc : Z) (b : bytes) : Z := match b with [] => acc | x :: b' => be_num (256 * acc + x) b' end.
Fixpoint be_bytes (n : nat) (v : Z) : bytes := match n with O => [] | S n' => (v / 256 ^ Z.of_nat n') mod 256 :: be_bytes n' v end.

(** [[...b].map((x) => x.toString(16).padStart(2, "0")).join("")] *)
Definition hex_digit (v : Z) : ascii := ascii_of_N (Z.to_N (if v <? 10 then 48 + v else 87 + v)).
Fixpoint to_hex (b : bytes) : string :=
  match b with [] => "" | x :: b' => String (hex_digit (x / 16)) (String (hex_digit (x mod 16)) (to_hex b')) end.

(** ** base64 (btoa, atob), RFC 4648 §4 *)

Definition B64 : string := "ABCDEFGHIJKLMNOPQRSTUVWXYZabcdefghijklmnopqrstuvwxyz0123456789+/".
Definition b64_char (v : Z) : ascii := default "A"%char (String.get (Z.to_nat v) B64).
Definition b64_val (c : ascii) : option Z :=
  let n := Z.of_N (N_of_ascii c) in
  if is_upper c then Some (n - 65) else if is_lower c then Some (n - 71) else if is_digit c then Some (n + 4)
  else if Ascii.eqb c "+" then Some 62 else if Ascii.eqb c "/" then Some 63 else None.

Fixpoint btoa (b : bytes) : string :=
  match b with
  | [] => ""
  | [x] => String (b64_char (x / 4)) (String (b64_char (x mod 4 * 16)) "==")
  | [x; y] => String (b64_char (x / 4)) (String (b64_char (x mod 4 * 16 + y / 16)) (String (b64_char (y mod 16 * 4)) "="))
  | x :: y :: z :: b' =>
      String (b64_char (x / 4)) (String (b64_char (x mod 4 * 16 + y / 16))
        (String (b64_char (y mod 16 * 4 + z / 64)) (String (b64_char (z mod 64)) (btoa b'))))
  end.

(** Of text in the alphabet, padded to a multiple of four: the bits a last group leaves over are dropped. *)
Fixpoint atob (s : string) : option bytes :=
  match s with
  | "" => Some []
  | String a (String b (String c (String d s'))) =>
      x ← b64_val a; y ← b64_val b;
      let first := x * 4 + y / 16 in
      if Ascii.eqb c "=" then (if Ascii.eqb d "=" && String.eqb s' "" then Some [first] else None)
      else
        z ← b64_val c;
        let second := y mod 16 * 16 + z / 4 in
        if Ascii.eqb d "=" then (if String.eqb s' "" then Some [first; second] else None)
        else w ← b64_val d; r ← atob s'; Some (first :: second :: z mod 4 * 64 + w :: r)
  | _ => None
  end.

(** ** UTF-8, [new TextDecoder("utf-8", {fatal: true})]

    A string is its UTF-8 text; a leading byte order mark is taken off. *)
Definition cont (b : Z) : bool := (128 <=? b) && (b <? 192).
Definition between (lo hi b : Z) : bool := (lo <=? b) && (b <=? hi).
Fixpoint utf8_ok (l : bytes) : bool :=
  match l with
  | [] => true
  | a :: l1 =>
      if a <? 128 then utf8_ok l1
      else match l1 with
      | b :: l2 =>
          if between 194 223 a && cont b then utf8_ok l2
          else match l2 with
          | c :: l3 =>
              if cont c && ((between 225 236 a || between 238 239 a) && cont b
                            || (a =? 224) && between 160 191 b || (a =? 237) && between 128 159 b) then utf8_ok l3
              else match l3 with
              | d :: l4 =>
                  if cont c && cont d && (between 241 243 a && cont b || (a =? 240) && between 144 191 b
                                          || (a =? 244) && between 128 143 b) then utf8_ok l4
                  else false
              | [] => false
              end
          | [] => false
          end
      | [] => false
      end
  end.
Fixpoint text_of (l : bytes) : string :=
  match l with [] => "" | x :: l' => String (ascii_of_N (Z.to_N x)) (text_of l') end.
Fixpoint bytes_of (s : string) : bytes :=
  match s with EmptyString => [] | String c s' => Z.of_N (N_of_ascii c) :: bytes_of s' end.
Definition without_bom (l : bytes) : bytes := match l with 239 :: 187 :: 191 :: l' => l' | _ => l end.
Definition decode_utf8 (l : bytes) : option string := if utf8_ok l then Some (text_of (without_bom l)) else None.

(** ** Numbers read back *)

Lemma to_int32_small x : -2 ^ 31 <= x < 2 ^ 31 -> to_int32 x = x.
Proof. intros H. unfold to_int32. rewrite Z.mod_small; lia. Qed.

Lemma lor_add a b n : 0 <= n -> 0 <= b < 2 ^ n -> Z.lor (a * 2 ^ n) b = a * 2 ^ n + b.
Proof.
  intros Hn Hb. rewrite <- Z.lxor_lor, <- Z.add_nocarry_lxor; [done| |].
  all: apply Z.bits_inj'; intros i Hi; rewrite Z.land_spec, Z.bits_0.
  all: destruct (Z.lt_ge_cases i n) as [Hl|Hl];
    [by rewrite Z.mul_pow2_bits_low|rewrite <- (Z.mod_small b (2 ^ n)) by done; by rewrite Z.mod_pow2_bits_high, andb_false_r by lia].
Qed.

Lemma be_num_acc acc b : be_num acc b = acc * 256 ^ Z.of_nat (length b) + be_num 0 b.
Proof.
  revert acc. induction b as [|x b IH]; intros acc; [cbn; lia|].
  cbn [be_num length]. rewrite (IH (256 * acc + x)), (IH (256 * 0 + x)), Nat2Z.inj_succ, Z.pow_succ_r by lia. lia.
Qed.

Lemma be_num_bytes n v : 0 <= v < 256 ^ Z.of_nat n -> be_num 0 (be_bytes n v) = v.
Proof.
  intros Hv. enough (H : forall n v, be_num 0 (be_bytes n v) = v mod 256 ^ Z.of_nat n).
  { rewrite H. by apply Z.mod_small. }
  clear. induction n as [|n IH]; intros v; [cbn; by rewrite Z.mod_1_r|].
  cbn [be_bytes be_num]. rewrite be_num_acc, IH.
  assert (Hl : length (be_bytes n v) = n) by (clear; induction n; cbn; congruence). rewrite Hl.
  rewrite Nat2Z.inj_succ, Z.pow_succ_r by lia. rewrite (Z.mul_comm 256 (256 ^ Z.of_nat n)), Z.rem_mul_r by lia. lia.
Qed.

Lemma be_bytes_length n v : length (be_bytes n v) = n.
Proof. induction n; cbn; congruence. Qed.
Lemma be_bytes_ok n v : are_bytes (be_bytes n v).
Proof. induction n; cbn; constructor; [|done]. unfold is_byte. apply Z.mod_pos_bound. lia. Qed.

Lemma be_num_bounds b : are_bytes b -> 0 <= be_num 0 b < 256 ^ Z.of_nat (length b).
Proof.
  induction 1 as [|x b Hx _ IH]; [done|]. cbn [be_num length]. rewrite be_num_acc, Nat2Z.inj_succ, Z.pow_succ_r by lia.
  unfold is_byte in Hx. nia.
Qed.

(** The program's reads of two and four bytes. *)
Definition be16 (a b : Z) : Z := Z.lor (shl a 8) b.
Definition be32 (a b c d : Z) : Z := ushr0 (shl a 24) + Z.lor (Z.lor (shl b 16) (shl c 8)) d.

Lemma be16_num a b : is_byte a -> is_byte b -> be16 a b = be_num 0 [a; b].
Proof.
  unfold is_byte, be16, shl. intros Ha Hb. rewrite Z.shiftl_mul_pow2, to_int32_small by lia.
  rewrite lor_add by lia. cbn [be_num]. lia.
Qed.

Lemma be32_num a b c d : is_byte a -> is_byte b -> is_byte c -> is_byte d -> be32 a b c d = be_num 0 [a; b; c; d].
Proof.
  unfold is_byte, be32, shl. intros Ha Hb Hc Hd. rewrite !Z.shiftl_mul_pow2 by lia.
  rewrite (to_int32_small (b * 2 ^ 16)), (to_int32_small (c * 2 ^ 8)) by lia.
  rewrite (lor_add b (c * 2 ^ 8) 16) by lia.
  replace (b * 2 ^ 16 + c * 2 ^ 8) with ((b * 2 ^ 8 + c) * 2 ^ 8) by lia. rewrite lor_add by lia.
  replace (ushr0 (to_int32 (a * 2 ^ 24))) with (a * 2 ^ 24); [cbn [be_num]; lia|].
  unfold ushr0, to_int32. rewrite Zminus_mod, Zmod_mod, <- Zminus_mod.
  replace (a * 2 ^ 24 + 2 ^ 31 - 2 ^ 31) with (a * 2 ^ 24) by lia. symmetry. apply Z.mod_small. lia.
Qed.

(** ** Text and its bytes *)

Lemma text_of_bytes_of s : text_of (bytes_of s) = s.
Proof. induction s as [|c s IH]; [done|]. cbn. by rewrite IH, N2Z.id, ascii_N_embedding. Qed.
Lemma bytes_of_inj a b : bytes_of a = bytes_of b -> a = b.
Proof. intros H. by rewrite <- (text_of_bytes_of a), H, text_of_bytes_of. Qed.
Lemma bytes_of_bytes s : are_bytes (bytes_of s).
Proof.
  induction s as [|c s IH]; cbn; constructor; [|done]. unfold is_byte.
  pose proof (N_ascii_bounded c). lia.
Qed.
