(* ===== verification/WebAuthn.v ===== *)
(** * Passkeys: what the pool checks itself (worker/src/webauthn.ts)

    base64url, CBOR, authenticatorData, COSE keys, ECDSA's DER, and the two
    ceremonies. A position in a byte string is what is left to read. A check that
    refuses throws a [WebAuthnError]; [Spin] is a loop that has not ended within
    its fuel. The runtime's WebCrypto (SHA-256, a key's import, a signature's
    verification) is an argument. *)
From S2P Require Import Prelude JsTime Json JsonText Bytes.
Local Open Scope string_scope.
Local Open Scope Z_scope.

Definition ES256 : Z := -7.
Definition EDDSA : Z := -8.
Definition RS256 : Z := -257.
Definition ALGORITHMS (alg : Z) : option string :=
  if alg =? ES256 then Some "ES256" else if alg =? EDDSA then Some "EdDSA" else if alg =? RS256 then Some "RS256" else None.
Definition OFFERED_ALGORITHMS : list Z := [ES256; EDDSA; RS256].

Definition FLAG_UP : Z := 1.
Definition FLAG_UV : Z := 4.
Definition FLAG_AT : Z := 64.
Definition FLAG_ED : Z := 128.
Definition flag (flags f : Z) : bool := negb (Z.land flags f =? 0).

Definition MAX_CREDENTIAL_ID : Z := 1023.
Definition MAX_DEPTH : nat := 16.
Definition MIN_RSA_BYTES : Z := 256.

Inductive WebAuthnCode :=
| E_encoding | E_cbor | E_client_data | E_type | E_challenge | E_origin | E_cross_origin | E_auth_data | E_rp_id
| E_user_present | E_user_verified | E_attested | E_credential | E_attestation | E_algorithm | E_key | E_signature
| E_counter | E_user_handle.
#[export] Instance WebAuthnCode_eq_dec : EqDecision WebAuthnCode.
Proof. solve_decision. Defined.

Record WebAuthnError := { code : WebAuthnCode; message : string }.
Inductive res (A : Type) := Ok (a : A) | Err (e : WebAuthnError) | Spin.
Arguments Ok {A} a.
Arguments Err {A} e.
Arguments Spin {A}.
Definition fail {A} (c : WebAuthnCode) (m : string) : res A := Err {| code := c; message := m |}.
Definition bind {A B} (x : res A) (f : A -> res B) : res B :=
  match x with Ok a => f a | Err e => Err e | Spin => Spin end.
Notation "'let?' x ':=' a 'in' b" := (bind a (fun x => b)) (at level 200, x pattern, a at level 100, b at level 200) : js_scope.
(** A check: go on when it holds. *)
Definition check {A} (b : bool) (c : WebAuthnCode) (m : string) (k : res A) : res A := if b then k else fail c m.
(** [try … catch (e) { … }] *)
Definition catch {A} (x : res A) (f : WebAuthnError -> res A) : res A :=
  match x with Err e => f e | _ => x end.
Local Open Scope js_scope.

Definition blen (b : bytes) : Z := Z.of_nat (length b).

(** ** base64url *)

(** [/^[A-Za-z0-9_-]*$/] *)
Definition url_char (c : ascii) : bool := is_upper c || is_lower c || is_digit c || Ascii.eqb c "_" || Ascii.eqb c "-".
Fixpoint str_map (f : ascii -> ascii) (s : string) : string :=
  match s with EmptyString => EmptyString | String c s' => String (f c) (str_map f s') end.
(** [.replace(/=+$/, "")] *)
Fixpoint strip_padding (s : string) : string :=
  match s with
  | EmptyString => EmptyString
  | String c s' =>
      match strip_padding s' with
      | EmptyString => if Ascii.eqb c "=" then EmptyString else String c EmptyString
      | r => String c r
      end
  end.
Definition to_url (c : ascii) : ascii := if Ascii.eqb c "+" then "-" else if Ascii.eqb c "/" then "_" else c.
Definition of_url (c : ascii) : ascii := if Ascii.eqb c "-" then "+" else if Ascii.eqb c "_" then "/" else c.
Definition slen (s : string) : Z := Z.of_nat (String.length s).
Fixpoint repeat_char (n : nat) (c : ascii) : string := match n with O => "" | S n' => String c (repeat_char n' c) end.

Definition toB64url (b : bytes) : string := strip_padding (str_map to_url (btoa b)).
Definition fromB64url (s what : string) : res bytes :=
  if negb (str_forallb url_char s) || (slen s mod 4 =? 1) then fail E_encoding (what +:+ " is not base64url")
  else match atob (str_map of_url s +:+ repeat_char (Z.to_nat ((4 - slen s mod 4) mod 4)) "=") with
  | Some b => Ok b
  | None => fail E_encoding (what +:+ " is not base64url")
  end.

Fixpoint xor_all (a b : bytes) : Z := match a, b with x :: a', y :: b' => Z.lor (Z.lxor x y) (xor_all a' b') | _, _ => 0 end.
Definition sameBytes (a b : bytes) : bool := (blen a =? blen b) && (xor_all a b =? 0).

(** ** CBOR *)

Inductive cbor :=
| CInt (n : Z)
| CText (s : string)
| CBool (b : bool)
| CNull
| CBytes (b : bytes)
| CArr (l : list cbor)
| CMap (m : list (cbor * cbor)).

Definition ended {A} : res A := fail E_cbor "CBOR ended early".

(** The first [n] bytes, and what follows them. *)
Definition need (n : Z) (s : bytes) : res (bytes * bytes) :=
  if blen s <? n then ended else Ok (take (Z.to_nat n) s, drop (Z.to_nat n) s).

(** A head's argument, by its five low bits. *)
Definition read_arg (info : Z) (s : bytes) : res (Z * bytes) :=
  if info <? 24 then Ok (info, s)
  else if info =? 24 then match s with a :: s' => Ok (a, s') | _ => ended end
  else if info =? 25 then match s with a :: b :: s' => Ok (be16 a b, s') | _ => ended end
  else if info =? 26 then match s with a :: b :: c :: d :: s' => Ok (be32 a b c d, s') | _ => ended end
  else if info =? 27 then
    match s with
    | a :: b :: c :: d :: e :: f :: g :: h :: s' =>
        let hi := be32 a b c d in
        let lo := be32 e f g h in
        if 2097151 <? hi then fail E_cbor "a CBOR integer past 2^53" else Ok (hi * 4294967296 + lo, s')
    | _ => ended
    end
  else fail E_cbor (if info =? 31 then "an indefinite-length CBOR item" else "a reserved CBOR head").

Section Loops.
Context (item : bytes -> res (cbor * bytes)).

(** [for (let n = 0; n < arg; n++)] over an array's items. *)
Fixpoint items (fuel : nat) (n : Z) (s : bytes) : res (list cbor * bytes) :=
  if n <=? 0 then Ok ([], s)
  else match fuel with
  | O => Spin
  | S fuel' => let? (v, s) := item s in let? (l, s) := items fuel' (n - 1) s in Ok (v :: l, s)
  end.

(** [Map.has] of a key: integers and text strings, by value. *)
Definition key_eqb (a b : cbor) : bool :=
  match a, b with CInt x, CInt y => x =? y | CText x, CText y => String.eqb x y | _, _ => false end.
Definition is_key (k : cbor) : bool := match k with CInt _ | CText _ => true | _ => false end.

(** Over a map's entries; [seen] are the keys it has. *)
Fixpoint entries (fuel : nat) (n : Z) (seen : list cbor) (s : bytes) : res (list (cbor * cbor) * bytes) :=
  if n <=? 0 then Ok ([], s)
  else match fuel with
  | O => Spin
  | S fuel' =>
      let? (k, s) := item s in
      if negb (is_key k) then fail E_cbor "a CBOR map key that is neither an integer nor a text string"
      else if existsb (key_eqb k) seen then fail E_cbor "a CBOR map with a key twice"
      else
        let? (v, s) := item s in
        let? (l, s) := entries fuel' (n - 1) (k :: seen) s in Ok ((k, v) :: l, s)
  end.
End Loops.

(** One item; [left] is how many levels may still be entered. Every item takes a byte, so the bytes left bound each loop. *)
Fixpoint decode (left : nat) (s : bytes) : res (cbor * bytes) :=
  match left with
  | O => fail E_cbor "CBOR nested too deep"
  | S left' =>
      match s with
      | [] => ended
      | head :: s =>
          let major := Z.shiftr head 5 in
          let info := Z.land head 31 in
          let? (arg, s) := read_arg info s in
          if major =? 0 then Ok (CInt arg, s)
          else if major =? 1 then Ok (CInt (-1 - arg), s)
          else if major =? 2 then let? (b, s) := need arg s in Ok (CBytes b, s)
          else if major =? 3 then
            let? (b, s) := need arg s in
            match decode_utf8 b with
            | Some t => Ok (CText t, s)
            | None => fail E_cbor "a CBOR text string that is not UTF-8"
            end
          else if major =? 4 then let? (l, s) := items (decode left') (S (length s)) arg s in Ok (CArr l, s)
          else if major =? 5 then let? (m, s) := entries (decode left') (S (length s)) arg [] s in Ok (CMap m, s)
          else if major =? 6 then fail E_cbor "a CBOR tag"
          else if info =? 20 then Ok (CBool false, s)
          else if info =? 21 then Ok (CBool true, s)
          else if info =? 22 then Ok (CNull, s)
          else fail E_cbor "a CBOR float or simple value"
      end
  end.
Definition decodeCbor (s : bytes) : res (cbor * bytes) := decode (S MAX_DEPTH) s.
Definition decodeCborAll (s : bytes) : res cbor :=
  let? (v, rest) := decodeCbor s in check (blen rest =? 0) E_cbor "bytes after the CBOR item" (Ok v).

(** [m.get(k)] *)
Fixpoint get (k : cbor) (m : list (cbor * cbor)) : option cbor :=
  match m with [] => None | (k', v) :: m' => if key_eqb k k' then Some v else get k m' end.

(** ** authenticatorData *)

Record Attested := { aaguid : bytes; credentialId : bytes; publicKey : bytes; cose : list (cbor * cbor) }.
Record AuthenticatorData := { rpIdHash : bytes; flags : Z; counter : Z; attested : option Attested }.

(** The attested credential data at the front of [s], and what follows it. *)
Definition read_attested (s : bytes) : res (Attested * bytes) :=
  if blen s <? 18 then fail E_auth_data "authenticatorData ends inside its attested credential data"
  else
    let model := take 16 s in
    match drop 16 s with
    | hi :: lo :: s =>
        let len := be16 hi lo in
        if (len <? 1) || (MAX_CREDENTIAL_ID <? len) || (blen s <? len)
        then fail E_auth_data "authenticatorData's credential id has a length no authenticator writes"
        else
          let id := take (Z.to_nat len) s in
          let s := drop (Z.to_nat len) s in
          let? (v, rest) := catch (decodeCbor s)
            (fun e => fail E_key ("the credential's public key is not CBOR: " +:+ message e)) in
          match v with
          | CMap m => Ok ({| aaguid := model; credentialId := id; publicKey := take (length s - length rest) s; cose := m |}, rest)
          | _ => fail E_key "the credential's public key is not a COSE key"
          end
    | _ => fail E_auth_data "authenticatorData ends inside its attested credential data"
    end.

Definition read_extensions (s : bytes) : res bytes :=
  let? (v, rest) := decodeCbor s in
  match v with CMap _ => Ok rest | _ => fail E_auth_data "authenticatorData's extensions are not a CBOR map" end.

Definition parseAuthenticatorData (b : bytes) : res AuthenticatorData :=
  let hash := take 32 b in
  match drop 32 b with
  | fl :: c0 :: c1 :: c2 :: c3 :: s =>
      let? (att, s) := (if flag fl FLAG_AT then let? (a, s) := read_attested s in Ok (Some a, s) else Ok (None, s)) in
      let? s := (if flag fl FLAG_ED then read_extensions s else Ok s) in
      check (blen s =? 0) E_auth_data "bytes after authenticatorData's last field"
        (Ok {| rpIdHash := hash; flags := fl; counter := be32 c0 c1 c2 c3; attested := att |})
  | _ => fail E_auth_data "authenticatorData is shorter than 37 bytes"
  end.

(** ** COSE keys and signatures *)

(** What WebCrypto is asked to import: the JWK's or the raw key's parts. *)
Inductive KeyData := EC_P256 (x y : string) | RSA (n e : string) | Ed25519 (x : bytes).

(** [while (v.length > 1 && v[0] === 0) v = v.subarray(1)] *)
Fixpoint strip_zeros (b : bytes) : bytes :=
  match b with x :: b' => if (x =? 0) && negb (blen b' =? 0) then strip_zeros b' else b | [] => b end.

(** The runtime. [import] answers a key or the error's words; [verify] [None] when it cannot read the signature. *)
Class Runtime := {
  Key : Type;
  sha256 : bytes -> bytes;
  import_key : KeyData -> string + Key;
  verify : Z -> Key -> bytes -> bytes -> option bool }.

Definition coseBytes (m : list (cbor * cbor)) (label : Z) (what : string) (length : option Z) : res bytes :=
  match get (CInt label) m with
  | Some (CBytes v) =>
      if match length with Some n => blen v =? n | None => true end then Ok v
      else fail E_key ("the COSE key's " +:+ what +:+ " is missing or the wrong size")
  | _ => fail E_key ("the COSE key's " +:+ what +:+ " is missing or the wrong size")
  end.

(** [cose.get(k) === n] *)
Definition cose_is (m : list (cbor * cbor)) (label n : Z) : bool :=
  match get (CInt label) m with Some (CInt v) => v =? n | _ => false end.

(** [String(v)] of what a map holds, as a refusal says it. *)
Fixpoint cbor_words (v : cbor) : string :=
  match v with
  | CInt n => zstr n
  | CText s => s
  | CBool b => if b then "true" else "false"
  | CNull => "null"
  | CBytes b => join "," (map zstr b)
  | CArr l => join "," (map (fun x => match x with CNull => "" | _ => cbor_words x end) l)
  | CMap _ => "[object Map]"
  end.

Section Crypto.
Context `{R : Runtime}.

Definition imported (alg : Z) (d : KeyData) : res (Z * Key) :=
  match import_key d with
  | inr k => Ok (alg, k)
  | inl words => fail E_key ("the credential's public key does not import: " +:+ words)
  end.

Definition importCoseKey (m : list (cbor * cbor)) : res (Z * Key) :=
  match get (CInt 3) m with
  | Some (CInt alg) =>
      if match ALGORITHMS alg with None => true | Some _ => false end then
        fail E_algorithm ("the key's algorithm (" +:+ zstr alg +:+ ") is not one the pool takes: ES256, EdDSA or RS256")
      else if alg =? ES256 then
        check (cose_is m 1 2 && cose_is m (-1) 1) E_key "an ES256 key is an EC2 key on P-256"
          (let? x := coseBytes m (-2) "x" (Some 32) in let? y := coseBytes m (-3) "y" (Some 32) in
           imported alg (EC_P256 (toB64url x) (toB64url y)))
      else if alg =? RS256 then
        check (cose_is m 1 3) E_key "an RS256 key is an RSA key"
          (let? n := coseBytes m (-1) "modulus" None in let? e := coseBytes m (-2) "exponent" None in
           let n := strip_zeros n in let e := strip_zeros e in
           check (negb (blen n <? MIN_RSA_BYTES)) E_key
             ("an RS256 key of " +:+ zstr (blen n * 8) +:+ " bits: the pool takes 2048 or more")
             (imported alg (RSA (toB64url n) (toB64url e))))
      else
        check (cose_is m 1 1 && cose_is m (-1) 6) E_key "an EdDSA key is an OKP key on Ed25519"
          (let? x := coseBytes m (-2) "x" (Some 32) in imported alg (Ed25519 x))
  | v => fail E_algorithm ("the key's algorithm (" +:+ match v with Some v => cbor_words v | None => "undefined" end
                           +:+ ") is not one the pool takes: ES256, EdDSA or RS256")
  end.

(** *** ECDSA: DER to raw *)

Definition bad {A} : res A := fail E_signature "the ECDSA signature is not DER".

(** One INTEGER, left-padded to [size] bytes. *)
Definition der_integer (size : Z) (s : bytes) : res (bytes * bytes) :=
  match s with
  | tag :: l :: s =>
      if negb (tag =? 2) || (l <? 1) || (size + 1 <? l) || (blen s <? l) then bad
      else
        let v := take (Z.to_nat l) s in
        if flag (hd 0 v) 128 then bad
        else
          let v := strip_zeros v in
          if size <? blen v then bad
          else Ok (repeat 0 (Z.to_nat (size - blen v)) ++ v, drop (Z.to_nat l) s)%list
  | _ => bad
  end.

(** The sequence's length, and what it holds. *)
Definition der_length (s : bytes) : res (Z * bytes) :=
  match s with
  | [] => bad
  | len :: s =>
      if len =? 129 then match s with len :: s => Ok (len, s) | [] => bad end
      else if flag len 128 then bad else Ok (len, s)
  end.

Definition derToRaw (der : bytes) (size : Z) : res bytes :=
  match der with
  | [] => bad
  | tag :: s =>
      if negb (tag =? 48) then bad
      else
        let? (len, s) := der_length s in
        if negb (blen s =? len) then bad
        else
          let? (r, s) := der_integer size s in
          let? (v, s) := der_integer size s in
          check (blen s =? 0) E_signature "the ECDSA signature is not DER" (Ok (r ++ v)%list)
  end.

Definition verifySignature (alg : Z) (key : Key) (signature data : bytes) : res bool :=
  if match ALGORITHMS alg with None => true | Some _ => false end then
    fail E_algorithm ("algorithm " +:+ zstr alg +:+ " is not one the pool takes")
  else if (alg =? EDDSA) && negb (blen signature =? 64) then fail E_signature "the EdDSA signature is not 64 bytes"
  else
    let? sig := (if alg =? ES256 then derToRaw signature 32 else Ok signature) in
    match verify alg key sig data with
    | Some b => Ok b
    | None => fail E_signature "the signature could not be read"
    end.

(** ** The ceremonies *)

Record Expected := { x_challenge : string; x_origin : string; x_rpId : string }.

(** [JSON.stringify(v)] of a field that may be missing. *)
Definition said (v : option json) : string := match v with Some v => json_text v | None => "undefined" end.

Definition clientData (b : bytes) (type_ : string) (x : Expected) : res json :=
  match (s ← decode_utf8 b; json_parse s) with
  | None => fail E_client_data "clientDataJSON is not JSON"
  | Some c =>
      let f := field (Some c) in
      check (match c with JObj _ | JArr _ => true | _ => false end) E_client_data "clientDataJSON is not an object"
      (check (ostr_eqb (as_str (f "type")) (Some type_)) E_type ("clientDataJSON says " +:+ said (f "type") +:+ ", not " +:+ type_)
      (check (ostr_eqb (as_str (f "challenge")) (Some (x_challenge x))) E_challenge "the answer is not for the challenge the pool issued"
      (check (ostr_eqb (as_str (f "origin")) (Some (x_origin x))) E_origin
         ("the answer was made on " +:+ said (f "origin") +:+ ", not " +:+ x_origin x)
      (check (negb (match as_bool (f "crossOrigin") with Some true => true | _ => false end)) E_cross_origin
         "the answer was made in a frame of another site" (Ok c)))))
  end.

Definition checkAuthenticator (a : AuthenticatorData) (x : Expected) : res unit :=
  check (sameBytes (rpIdHash a) (sha256 (bytes_of (x_rpId x)))) E_rp_id
    ("the authenticator signed for another relying party, not " +:+ x_rpId x)
  (check (flag (flags a) FLAG_UP) E_user_present "the authenticator says nobody was present"
  (check (flag (flags a) FLAG_UV) E_user_verified
     "the authenticator did not verify the user (no PIN, no biometric): approve and block need user verification" (Ok tt))).

(** A string field a browser sends: there, and not longer than [max]. *)
Definition str_field (v : option json) (what : string) (max : Z) : res string :=
  match as_str v with
  | Some s => check (truthy s && (slen s <=? max)) E_encoding (what +:+ " is missing or too long") (Ok s)
  | None => fail E_encoding (what +:+ " is missing or too long")
  end.
Definition bytes_field (v : option json) (what : string) (max : Z) : res bytes :=
  let? s := str_field v what max in fromB64url s what.

Record RegistrationInput := { in_id : option json; in_client : option json; in_attestation : option json }.
Record Registered := { rg_id : string; rg_key : string; rg_alg : Z; rg_counter : Z; rg_aaguid : string }.

Definition verifyRegistration (input : RegistrationInput) (x : Expected) : res Registered :=
  let? idBytes := bytes_field (in_id input) "the credential's id" 1400 in
  let? cd := bytes_field (in_client input) "clientDataJSON" 4096 in
  let? _ := clientData cd "webauthn.create" x in
  let? att := catch (let? b := bytes_field (in_attestation input) "the attestation object" 16384 in decodeCborAll b)
    (fun e => if bool_decide (code e = E_encoding) then Err e
              else fail E_attestation ("the attestation object is not CBOR: " +:+ message e)) in
  match att with
  | CMap m =>
      match get (CText "fmt") m, get (CText "attStmt") m, get (CText "authData") m with
      | Some (CText fmt), Some (CMap stmt), Some (CBytes raw) =>
          check (negb (String.eqb fmt "none" && negb (Z.of_nat (length stmt) =? 0))) E_attestation
            ("a " +:+ quoted "none" +:+ " attestation carries a statement")
          (let? a := parseAuthenticatorData raw in
           let? _ := checkAuthenticator a x in
           match attested a with
           | None => fail E_attested "the authenticator sent no credential (no attested credential data)"
           | Some att =>
               check (sameBytes (credentialId att) idBytes) E_credential "the credential's id is not the one in authenticatorData"
               (let? (alg, _) := importCoseKey (cose att) in
                Ok {| rg_id := toB64url idBytes; rg_key := toB64url (publicKey att); rg_alg := alg; rg_counter := counter a;
                      rg_aaguid := to_hex (aaguid att) |})
           end)
      | _, _, _ => fail E_attestation "the attestation object lacks fmt, attStmt or authData"
      end
  | _ => fail E_attestation "the attestation object is not a CBOR map"
  end.

Record AssertionInput := { as_client : option json; as_auth : option json; as_sig : option json; as_handle : option json }.
Record StoredKey := { st_key : string; st_alg : Z; st_counter : Z; st_handle : bytes }.

(** [if (v)] *)
Definition truthy_json (v : option json) : bool :=
  match v with
  | None | Some JNull | Some (JBool false) => false
  | Some (JNum m _) => negb (m =? 0)
  | Some (JStr s) => truthy s
  | _ => true
  end.

(** A counter that did not move forward is a cloned key's, when either one is kept. *)
Definition counter_stuck (was now : Z) : bool := (negb (now =? 0) || negb (was =? 0)) && (now <=? was).

Definition verifyAssertion (input : AssertionInput) (x : Expected) (stored : StoredKey) : res (Z * Z) :=
  let? cd := bytes_field (as_client input) "clientDataJSON" 4096 in
  let? _ := clientData cd "webauthn.get" x in
  let? raw := bytes_field (as_auth input) "authenticatorData" 2048 in
  let? a := parseAuthenticatorData raw in
  let? _ := checkAuthenticator a x in
  let? _ := (if truthy_json (as_handle input) then
               let? h := bytes_field (as_handle input) "the user handle" 128 in
               check (sameBytes h (st_handle stored)) E_user_handle "the passkey belongs to another account" (Ok tt)
             else Ok tt) in
  let? kb := fromB64url (st_key stored) "the stored key" in
  let? c := decodeCborAll kb in
  match c with
  | CMap m =>
      let? (alg, key) := importCoseKey m in
      check (alg =? st_alg stored) E_algorithm "the stored key's algorithm changed"
      (let? sig := bytes_field (as_sig input) "the signature" 1024 in
       let? ok := verifySignature alg key sig (raw ++ sha256 cd)%list in
       check ok E_signature "the signature is not the passkey's"
       (check (negb (counter_stuck (st_counter stored) (counter a))) E_counter
          ("the passkey's counter went from " +:+ zstr (st_counter stored) +:+ " to " +:+ zstr (counter a)
           +:+ ": a copy of the key may be in use")
          (Ok (counter a, flags a))))
  | _ => fail E_key "the stored key is not a COSE key"
  end.
End Crypto.
