(* ===== verification/CborFacts.v ===== *)
(** * Passkeys: the CBOR reader

    The reader ends on every input and takes what it read from the front; what a
    conforming writer wrote (RFC 8949's preferred form) reads back. *)
From S2P Require Import Prelude JsTime Json Bytes WebAuthn.
Local Open Scope Z_scope.
Local Open Scope list_scope.
Local Open Scope js_scope.

(** ** Every item takes a byte *)

(** [s'] is what is left of [s] once at least [k] bytes were read. *)
Definition reads (k : nat) (s s' : bytes) : Prop := exists p, s = p ++ s' /\ (k <= length p)%nat.

Lemma reads_refl s : reads 0 s s.
Proof. exists []. split; [done|simpl; lia]. Qed.
Lemma reads_trans j k s t u : reads j s t -> reads k t u -> reads (j + k) s u.
Proof. intros (p & -> & Hp) (q & -> & Hq). exists (p ++ q). rewrite length_app, <- app_assoc. split; [done|lia]. Qed.
Lemma reads_le j k s t : reads k s t -> (j <= k)%nat -> reads j s t.
Proof. intros (p & -> & Hp) H. exists p. split; [done|lia]. Qed.
Lemma reads_length k s t : reads k s t -> (length t + k <= length s)%nat.
Proof. intros (p & -> & Hp). rewrite length_app. lia. Qed.
Lemma reads_cons x s t k : reads k s t -> reads (S k) (x :: s) t.
Proof. intros (p & -> & Hp). exists (x :: p). split; [done|simpl; lia]. Qed.

(** A reader that ends, and takes [k] bytes at least. *)
Definition reader {A} (k : nat) (f : bytes -> res (A * bytes)) : Prop :=
  forall s, f s <> Spin /\ (forall v s', f s = Ok (v, s') -> reads k s s').

Lemma bind_ok {A B} (x : res A) (f : A -> res B) b : bind x f = Ok b -> exists a, x = Ok a /\ f a = Ok b.
Proof. destruct x; cbn; [eauto|done|done]. Qed.
Lemma bind_spin {A B} (x : res A) (f : A -> res B) : bind x f = Spin -> x = Spin \/ exists a, x = Ok a /\ f a = Spin.
Proof. destruct x; cbn; [eauto|done|by left]. Qed.
Lemma check_ok {A} b c m (k : res A) a : check b c m k = Ok a -> b = true /\ k = Ok a.
Proof. by destruct b. Qed.

Lemma need_reads n s : need n s <> Spin /\ (forall v s', need n s = Ok (v, s') -> reads 0 s s').
Proof.
  unfold need. destruct (blen s <? n); [split; done|]. split; [done|]. intros v s' [= <- <-].
  exists (take (Z.to_nat n) s). rewrite take_drop. split; [done|lia].
Qed.

Lemma read_arg_reads info s : read_arg info s <> Spin /\ (forall v s', read_arg info s = Ok (v, s') -> reads 0 s s').
Proof.
  assert (Hk : forall k s t, reads k s t -> reads 0 s t) by (intros; eapply reads_le; [done|lia]).
  unfold read_arg, ended, fail. repeat case_match; split; try done; intros ? ? [= <- <-]; try apply reads_refl;
    eapply Hk; repeat apply reads_cons; apply reads_refl.
Qed.

Lemma items_reads item fuel n s : reader 1 item -> (length s < fuel)%nat ->
  items item fuel n s <> Spin /\ (forall l s', items item fuel n s = Ok (l, s') -> reads 0 s s').
Proof.
  intros Hi. revert n s. induction fuel as [|fuel IH]; intros n s Hf; [lia|]. cbn [items].
  destruct (n <=? 0); [split; [done|intros ? ? [= <- <-]; apply reads_refl]|].
  destruct (Hi s) as [Hs Hr]. destruct (item s) as [[v s1]| |]; cbn [bind]; [|split; done|done].
  specialize (Hr _ _ eq_refl). pose proof (reads_length _ _ _ Hr). destruct (IH (n - 1) s1 ltac:(lia)) as [Hs2 Hr2].
  destruct (items item fuel (n - 1) s1) as [[l s2]| |]; cbn [bind]; [|split; done|done].
  split; [done|]. intros ? ? [= <- <-]. eapply reads_le; [exact (reads_trans _ _ _ _ _ Hr (Hr2 _ _ eq_refl))|lia].
Qed.

Lemma entries_reads item fuel n seen s : reader 1 item -> (length s < fuel)%nat ->
  entries item fuel n seen s <> Spin /\ (forall l s', entries item fuel n seen s = Ok (l, s') -> reads 0 s s').
Proof.
  intros Hi. revert n seen s. induction fuel as [|fuel IH]; intros n seen s Hf; [lia|]. cbn [entries].
  destruct (n <=? 0); [split; [done|intros ? ? [= <- <-]; apply reads_refl]|].
  destruct (Hi s) as [Hs Hr]. destruct (item s) as [[k s1]| |]; cbn [bind]; [|split; done|done].
  destruct (negb (is_key k)); [split; done|]. destruct (existsb _ seen); [split; done|].
  specialize (Hr _ _ eq_refl). destruct (Hi s1) as [Hs1 Hr1]. destruct (item s1) as [[v s2]| |]; cbn [bind]; [|split; done|done].
  pose proof (reads_trans _ _ _ _ _ Hr (Hr1 _ _ eq_refl)) as H2. pose proof (reads_length _ _ _ H2).
  destruct (IH (n - 1) (k :: seen) s2 ltac:(lia)) as [Hs3 Hr3].
  destruct (entries item fuel (n - 1) (k :: seen) s2) as [[l s3]| |]; cbn [bind]; [|split; done|done].
  split; [done|]. intros ? ? [= <- <-]. eapply reads_le; [exact (reads_trans _ _ _ _ _ H2 (Hr3 _ _ eq_refl))|lia].
Qed.

(** A piece read, then wrapped. *)
Lemma wrap_reads {A B} (x : res (A * bytes)) (f : A -> B) s :
  (x <> Spin /\ (forall v s', x = Ok (v, s') -> reads 0 s s')) ->
  (let? (v, s') := x in Ok (f v, s')) <> Spin /\ (forall v s', (let? (v, s') := x in Ok (f v, s')) = Ok (v, s') -> reads 0 s s').
Proof.
  intros [Hs Hr]. destruct x as [[v t]| |]; cbn; [|split; done|done]. split; [done|].
  intros ? ? [= <- <-]. by eapply Hr.
Qed.

Lemma decode_reader left : reader 1 (decode left).
Proof.
  induction left as [|left IH]; intros s; [split; done|]. cbn [decode].
  destruct s as [|head s]; [split; done|]. cbv zeta.
  enough (H : forall x : res (cbor * bytes), x <> Spin /\ (forall v s', x = Ok (v, s') -> reads 0 s s') ->
            x <> Spin /\ (forall v s', x = Ok (v, s') -> reads 1 (head :: s) s')).
  { apply H. destruct (read_arg_reads (Z.land head 31) s) as [Hs Hr].
    destruct (read_arg (Z.land head 31) s) as [[arg s1]| |]; cbn [bind]; [|split; done|done]. specialize (Hr _ _ eq_refl).
    enough (H1 : forall x : res (cbor * bytes), x <> Spin /\ (forall v s', x = Ok (v, s') -> reads 0 s1 s') ->
              x <> Spin /\ (forall v s', x = Ok (v, s') -> reads 0 s s')).
    { apply H1. clear H H1 Hr Hs.
      repeat (destruct (_ =? _); [try (split; [done|intros ? ? [= <- <-]; apply reads_refl])|]); try (split; done).
      - apply wrap_reads, need_reads.
      - destruct (need_reads arg s1) as [Hs Hr]. destruct (need arg s1) as [[b s2]| |]; cbn [bind]; [|split; done|done].
        destruct (decode_utf8 b); [|split; done]. split; [done|]. intros ? ? [= <- <-]. by eapply Hr.
      - apply wrap_reads, items_reads; [done|lia].
      - apply wrap_reads, entries_reads; [done|lia]. }
    intros x [Hx1 Hx2]. split; [done|]. intros v s' Hv. exact (reads_trans _ _ _ _ _ Hr (Hx2 _ _ Hv)). }
  intros x [Hx1 Hx2]. split; [done|]. intros v s' Hv. apply reads_cons. eauto.
Qed.

(** the CBOR reader ends on every input, whatever lengths it announces, and
    an item it reads is a non-empty front of the bytes: it never reads past
    them. *)
Theorem cbor_reading_ends s :
  decodeCbor s <> Spin /\ (forall v rest, decodeCbor s = Ok (v, rest) -> exists p, s = p ++ rest /\ p <> []).
Proof.
  destruct (decode_reader (S MAX_DEPTH) s) as [H1 H2]. split; [done|]. intros v rest H.
  destruct (H2 _ _ H) as (p & -> & Hp). exists p. split; [done|]. destruct p; [simpl in Hp; lia|done].
Qed.

(** ** What a conforming writer wrote reads back *)

(** RFC 8949 §4.1, preferred serialization: the shortest head. *)
Definition encode_head (major arg : Z) : bytes :=
  if arg <? 24 then [major * 32 + arg]
  else if arg <? 256 then [major * 32 + 24; arg]
  else if arg <? 65536 then (major * 32 + 25) :: be_bytes 2 arg
  else if arg <? 4294967296 then (major * 32 + 26) :: be_bytes 4 arg
  else (major * 32 + 27) :: be_bytes 4 (arg / 4294967296) ++ be_bytes 4 (arg mod 4294967296).

Fixpoint encode (v : cbor) : bytes :=
  match v with
  | CInt n => if 0 <=? n then encode_head 0 n else encode_head 1 (-1 - n)
  | CBytes b => encode_head 2 (blen b) ++ b
  | CText s => encode_head 3 (slen s) ++ bytes_of s
  | CArr l => encode_head 4 (Z.of_nat (length l)) ++ flat_map encode l
  | CMap m => encode_head 5 (Z.of_nat (length m)) ++ flat_map (fun p => encode p.1 ++ encode p.2) m
  | CBool b => [if b then 245 else 244]
  | CNull => [246]
  end.

(** A value the reader takes whole: at most [left] levels, integers and lengths under 2^53, keys told apart, text with no mark. *)
Inductive writable : nat -> cbor -> Prop :=
| writable_int left n : -2 ^ 53 <= n < 2 ^ 53 -> writable (S left) (CInt n)
| writable_bytes left b : blen b < 2 ^ 53 -> writable (S left) (CBytes b)
| writable_text left s : slen s < 2 ^ 53 -> decode_utf8 (bytes_of s) = Some s -> writable (S left) (CText s)
| writable_bool left b : writable (S left) (CBool b)
| writable_null left : writable (S left) CNull
| writable_list left l : Z.of_nat (length l) < 2 ^ 53 -> Forall (writable left) l -> writable (S left) (CArr l)
| writable_map left m : Z.of_nat (length m) < 2 ^ 53 -> NoDup (map fst m) ->
    Forall (fun p => is_key p.1 = true) m -> Forall (fun p => writable left p.1) m -> Forall (fun p => writable left p.2) m ->
    writable (S left) (CMap m).

Lemma head_bits major info : 0 <= major < 8 -> 0 <= info < 32 ->
  Z.shiftr (major * 32 + info) 5 = major /\ Z.land (major * 32 + info) 31 = info.
Proof.
  intros Hm Hi. split.
  - rewrite Z.shiftr_div_pow2 by lia. change (2 ^ 5) with 32. rewrite Z.div_add_l, Z.div_small by lia. lia.
  - change 31 with (Z.ones 5). rewrite Z.land_ones by lia. change (2 ^ 5) with 32.
    rewrite Z.add_comm, Z.mod_add, Z.mod_small by lia. done.
Qed.

Lemma be_list4 v : exists a b c d, be_bytes 4 v = [a; b; c; d] /\ is_byte a /\ is_byte b /\ is_byte c /\ is_byte d.
Proof.
  cbn [be_bytes]. do 4 eexists. split; [reflexivity|]. unfold is_byte. split_and!; apply Z.mod_pos_bound; lia.
Qed.

Lemma be32_back v : 0 <= v < 2 ^ 32 -> forall a b c d, be_bytes 4 v = [a; b; c; d] -> is_byte a -> is_byte b -> is_byte c -> is_byte d ->
  be32 a b c d = v.
Proof. intros Hv a b c d H ? ? ? ?. rewrite be32_num, <- H by done. by apply be_num_bytes. Qed.

(** The head reads back as its kind and its argument. *)
Lemma read_head major arg rest : 0 <= major < 8 -> 0 <= arg < 2 ^ 53 ->
  exists head tl, encode_head major arg ++ rest = head :: tl /\ Z.shiftr head 5 = major
    /\ read_arg (Z.land head 31) tl = Ok (arg, rest).
Proof.
  intros Hm Ha. unfold encode_head.
  assert (H : forall info tl, 0 <= info < 32 -> read_arg info tl = Ok (arg, rest) ->
    exists head t, major * 32 + info :: tl = head :: t /\ Z.shiftr head 5 = major /\ read_arg (Z.land head 31) t = Ok (arg, rest)).
  { intros info tl Hi Hr. destruct (head_bits major info Hm Hi) as [H1 H2]. exists (major * 32 + info), tl. by rewrite H1, H2. }
  destruct (Z.ltb_spec arg 24).
  { apply H; [lia|]. unfold read_arg. by rewrite (proj2 (Z.ltb_lt arg 24)). }
  destruct (Z.ltb_spec arg 256); [by apply (H 24); [lia|]|].
  destruct (Z.ltb_spec arg 65536).
  { apply H; [lia|]. change (be_bytes 2 arg) with [(arg / 256 ^ Z.of_nat 1) mod 256; (arg / 256 ^ Z.of_nat 0) mod 256].
    cbn -[be16 Z.pow Z.modulo Z.div]. f_equal. f_equal. rewrite be16_num by (apply Z.mod_pos_bound; lia).
    change (be_num 0 (be_bytes 2 arg) = arg). apply be_num_bytes. simpl. lia. }
  destruct (Z.ltb_spec arg 4294967296).
  { apply H; [lia|]. destruct (be_list4 arg) as (a & b & c & d & E & ? & ? & ? & ?). rewrite E.
    cbn -[be32]. rewrite (be32_back arg) by (try done; lia). done. }
  apply H; [lia|].
  destruct (be_list4 (arg / 4294967296)) as (a & b & c & d & E & ? & ? & ? & ?).
  destruct (be_list4 (arg mod 4294967296)) as (e & f & g & h & E' & ? & ? & ? & ?). rewrite E, E'.
  assert (Hhi : 0 <= arg / 4294967296 < 2 ^ 21).
  { split; [apply Z.div_pos; lia|]. apply Z.div_lt_upper_bound; lia. }
  pose proof (Z.mod_pos_bound arg 4294967296 ltac:(lia)).
  cbn -[be32 Z.mul]. rewrite (be32_back (arg / 4294967296)), (be32_back (arg mod 4294967296)) by (try done; lia).
  rewrite (proj2 (Z.ltb_ge 2097151 (arg / 4294967296))) by lia. do 2 f_equal.
  pose proof (Z.div_mod arg 4294967296 ltac:(lia)). lia.
Qed.

Lemma blen_app a b : blen (a ++ b) = blen a + blen b.
Proof. unfold blen. rewrite length_app. lia. Qed.

Lemma need_front b rest : need (blen b) (b ++ rest) = Ok (b, rest).
Proof.
  unfold need. rewrite blen_app. rewrite (proj2 (Z.ltb_ge _ _)) by (unfold blen; lia).
  unfold blen. by rewrite Nat2Z.id, take_app_length, drop_app_length.
Qed.

Lemma blen_bytes_of s : blen (bytes_of s) = slen s.
Proof.
  unfold blen, slen. f_equal. induction s as [|c s IH]; cbn; [done|]. by f_equal.
Qed.

Lemma encode_head_nonempty major arg : (1 <= length (encode_head major arg))%nat.
Proof. unfold encode_head. repeat case_match; simpl; lia. Qed.
Lemma encode_nonempty v : (1 <= length (encode v))%nat.
Proof.
  destruct v; cbn [encode]; repeat case_match; rewrite ?length_app; try (simpl; lia);
    try (pose proof (encode_head_nonempty 0 n); lia); try (pose proof (encode_head_nonempty 1 (-1 - n)); lia).
  all: match goal with |- context [encode_head ?m ?a] => pose proof (encode_head_nonempty m a) end; lia.
Qed.

Lemma items_back item l fuel rest :
  (forall v, In v l -> forall t, item (encode v ++ t) = Ok (v, t)) -> (length l <= fuel)%nat ->
  items item fuel (Z.of_nat (length l)) (flat_map encode l ++ rest) = Ok (l, rest).
Proof.
  revert fuel. induction l as [|v l IH]; intros fuel Hi Hf; [by destruct fuel|]. destruct fuel as [|fuel]; [simpl in Hf; lia|].
  cbn [items length flat_map]. rewrite (proj2 (Z.leb_gt _ _)) by lia. rewrite <- app_assoc, Hi by by left. cbn [bind].
  replace (Z.of_nat (S (length l)) - 1) with (Z.of_nat (length l)) by lia.
  rewrite IH; [done| |simpl in Hf; lia]. intros. apply Hi. by right.
Qed.

Lemma key_eqb_eq a b : is_key a = true -> key_eqb a b = true -> a = b.
Proof.
  destruct a, b; cbn; try done; intros _; rewrite ?Z.eqb_eq, ?String.eqb_eq; congruence.
Qed.

Lemma entries_back item m fuel seen rest :
  (forall p, In p m -> is_key p.1 = true /\ forall t, item (encode p.1 ++ t) = Ok (p.1, t) /\ item (encode p.2 ++ t) = Ok (p.2, t)) ->
  NoDup (map fst m) -> (forall k, In k (map fst m) -> ~ In k seen) -> (length m <= fuel)%nat ->
  entries item fuel (Z.of_nat (length m)) seen (flat_map (fun p => encode p.1 ++ encode p.2) m ++ rest) = Ok (m, rest).
Proof.
  revert fuel seen. induction m as [|[k v] m IH]; intros fuel seen Hi Hn Hs Hf; [by destruct fuel|].
  destruct fuel as [|fuel]; [simpl in Hf; lia|].
  destruct (Hi (k, v) (or_introl eq_refl)) as [Hk Hp]. cbn [fst snd] in *. inversion Hn as [|? ? Hnk Hn']; subst.
  cbn [entries length flat_map fst snd]. rewrite (proj2 (Z.leb_gt _ _)) by lia. rewrite <- !app_assoc, (proj1 (Hp _)).
  cbn [bind]. rewrite Hk. cbn [negb].
  replace (existsb (key_eqb k) seen) with false.
  - rewrite (proj2 (Hp _)). cbn [bind]. replace (Z.of_nat (S (length m)) - 1) with (Z.of_nat (length m)) by lia.
    rewrite IH; [done|intros; apply Hi; by right|done| |simpl in Hf; lia].
    intros k' Hk' [->|Hin]; [|by eapply Hs; [right|]]. apply Hnk. by apply list_elem_of_In.
  - symmetry. apply not_true_iff_false. rewrite existsb_exists. intros (k' & Hin & He).
    rewrite (key_eqb_eq _ _ Hk He) in *. eapply Hs; [by left|done].
Qed.

Lemma flat_map_length {A} (f : A -> bytes) l : (forall x, 1 <= length (f x))%nat -> (length l <= length (flat_map f l))%nat.
Proof. intros H. induction l as [|x l IH]; simpl; [lia|]. rewrite length_app. pose proof (H x). lia. Qed.

Lemma decode_back left v rest : writable left v -> decode left (encode v ++ rest) = Ok (v, rest).
Proof.
  revert v rest. induction left as [|left IH]; intros v rest Hw; [inversion Hw|].
  assert (Hd : forall major arg tl, 0 <= major < 8 -> 0 <= arg < 2 ^ 53 ->
    exists head t, encode_head major arg ++ tl = head :: t /\ Z.shiftr head 5 = major /\ read_arg (Z.land head 31) t = Ok (arg, tl))
    by (intros; by apply read_head).
  inversion Hw as [? n Hn|? b Hl|? s Hl Ht|? b|?|? l Hl Hv|? m Hl Hn Hk Hp Hv]; subst; cbn [encode].
  - destruct (Z.leb_spec 0 n).
    + destruct (Hd 0 n rest) as (h & t & -> & Hh & Hr); [lia..|]. cbn [decode]. by rewrite Hr, Hh.
    + destruct (Hd 1 (-1 - n) rest) as (h & t & -> & Hh & Hr); [lia..|]. cbn [decode]. rewrite Hr, Hh. cbn.
      do 3 f_equal. lia.
  - rewrite <- app_assoc. destruct (Hd 2 (blen b) (b ++ rest)) as (h & t & -> & Hh & Hr); [lia|unfold blen in *; lia|].
    cbn [decode]. rewrite Hr, Hh. cbn -[need]. by rewrite need_front.
  - rewrite <- app_assoc.
    destruct (Hd 3 (slen s) (bytes_of s ++ rest)) as (h & t & -> & Hh & Hr); [lia|unfold slen in *; lia|].
    cbn [decode]. rewrite Hr, Hh. cbn -[need decode_utf8]. rewrite <- blen_bytes_of, need_front. cbn [bind]. by rewrite Ht.
  - by destruct b.
  - done.
  - rewrite <- app_assoc.
    destruct (Hd 4 (Z.of_nat (length l)) (flat_map encode l ++ rest)) as (h & t & -> & Hh & Hr); [lia..|].
    cbn [decode]. rewrite Hr, Hh. cbn -[items]. rewrite items_back; [done| |].
    + intros v Hin t'. apply IH. rewrite List.Forall_forall in Hv. by apply Hv.
    + pose proof (flat_map_length encode l encode_nonempty). rewrite length_app. lia.
  - rewrite <- app_assoc.
    destruct (Hd 5 (Z.of_nat (length m)) (flat_map (fun p => encode p.1 ++ encode p.2) m ++ rest)) as (h & t & -> & Hh & Hr); [lia..|].
    cbn [decode]. rewrite Hr, Hh. cbn -[entries]. rewrite entries_back; [done| |done|by intros ? ? []|].
    + intros p Hin. rewrite List.Forall_forall in Hk, Hp, Hv. split; [by apply Hk|]. split; apply IH; auto.
    + assert (H1 : forall p : cbor * cbor, (1 <= length (encode p.1 ++ encode p.2))%nat)
        by (intros p; rewrite length_app; pose proof (encode_nonempty p.1); lia).
      pose proof (flat_map_length _ m H1). rewrite length_app. lia.
Qed.

(** what an authenticator writes reads back: every value of the subset
    (integers under 2^53, text, byte strings, lists and maps with distinct keys,
    sixteen levels deep) in RFC 8949's preferred form decodes to itself, and what
    follows it is left unread. *)
Theorem cbor_round_trip v rest : writable (S MAX_DEPTH) v -> decodeCbor (encode v ++ rest) = Ok (v, rest).
Proof. apply decode_back. Qed.

(** An ES256 key as an authenticator writes it. *)
Definition cose_sample : cbor :=
  CMap [(CInt 1, CInt 2); (CInt 3, CInt (-7)); (CInt (-1), CInt 1); (CInt (-2), CBytes (repeat 7 32)); (CInt (-3), CBytes (repeat 9 32))].

Lemma cbor_reading_ends_witness :
  exists p, encode cose_sample ++ [1; 2] = p ++ [1; 2] /\ p <> [].
Proof. apply (proj2 (cbor_reading_ends (encode cose_sample ++ [1; 2])) cose_sample). vm_compute. reflexivity. Defined.

Lemma cose_sample_writable : writable (S MAX_DEPTH) cose_sample.
Proof.
  apply writable_map; [done| | | |]; repeat (apply Forall_cons; split; [by repeat constructor|]); try apply Forall_nil; try exact I.
  cbn [map fst]. repeat (apply NoDup_cons; split; [set_solver|]). apply NoDup_nil. exact I.
Qed.

Lemma cbor_round_trip_witness : length (encode cose_sample) = 77%nat /\ decodeCbor (encode cose_sample ++ [1]) = Ok (cose_sample, [1]).
Proof. split; [vm_compute; reflexivity|]. exact (cbor_round_trip cose_sample [1] cose_sample_writable). Defined.

(** ** What was read decides what it reads as

    An item read from the front of the bytes reads the same whatever follows
    it: the slice a registration stores is the key it parsed. *)

Definition extends {A} (f : bytes -> res (A * bytes)) : Prop :=
  forall s v s', f s = Ok (v, s') -> exists p, s = p ++ s' /\ forall t, f (p ++ t) = Ok (v, t).

Lemma need_extends n s v s' : need n s = Ok (v, s') -> exists p, s = p ++ s' /\ forall t, need n (p ++ t) = Ok (v, t).
Proof.
  unfold need. destruct (Z.ltb_spec (blen s) n) as [|Hn]; [done|]. intros [= <- <-]. unfold blen in *.
  exists (take (Z.to_nat n) s). rewrite take_drop. split; [done|]. intros t.
  assert (Hl : length (take (Z.to_nat n) s) = Z.to_nat n) by (rewrite length_take; lia).
  rewrite length_app, Hl. rewrite (proj2 (Z.ltb_ge _ _)) by lia. by rewrite take_app_length', drop_app_length'.
Qed.

Lemma read_arg_extends info s v s' :
  read_arg info s = Ok (v, s') -> exists p, s = p ++ s' /\ forall t, read_arg info (p ++ t) = Ok (v, t).
Proof.
  unfold read_arg. intros H. repeat (case_match; try done); simplify_eq;
    match goal with
    | |- exists p, ?l = p ++ ?l /\ _ => by exists []
    | |- exists p, ?a :: ?b :: ?c :: ?d :: ?e :: ?f :: ?g :: ?h :: ?l = p ++ ?l /\ _ => exists [a; b; c; d; e; f; g; h]
    | |- exists p, ?a :: ?b :: ?c :: ?d :: ?l = p ++ ?l /\ _ => exists [a; b; c; d]
    | |- exists p, ?a :: ?b :: ?l = p ++ ?l /\ _ => exists [a; b]
    | |- exists p, ?a :: ?l = p ++ ?l /\ _ => exists [a]
    end; (split; [done|]; intros t; cbn [app]; try done);
    match goal with H : (_ <? _) = false |- _ => rewrite H end; done.
Qed.

Lemma items_extends item fuel n s l s' : reader 1 item -> extends item ->
  items item fuel n s = Ok (l, s') ->
  exists p, s = p ++ s' /\ forall t fuel', (length (p ++ t) < fuel')%nat -> items item fuel' n (p ++ t) = Ok (l, t).
Proof.
  intros Hrd Hi. revert n s l. induction fuel as [|fuel IH]; intros n s l; cbn [items]; destruct (n <=? 0) eqn:En; try done.
  1,2: intros [= <- <-]; exists []; split; [done|]; intros t [|fuel'] Hf; [lia|]; cbn [items app]; by rewrite En.
  intros H. apply bind_ok in H as ([v s1] & Hv & H). apply bind_ok in H as ([l' s2] & Hl & H). injection H as <- <-.
  destruct (Hi _ _ _ Hv) as (p & -> & Hp). destruct (IH _ _ _ Hl) as (q & -> & Hq).
  pose proof (proj2 (Hrd _) _ _ Hv) as Hk. apply reads_length in Hk. rewrite length_app in Hk.
  exists (p ++ q). rewrite app_assoc. split; [done|]. intros t [|fuel'] Hf; [lia|]. cbn [items]. rewrite En.
  rewrite <- app_assoc, Hp. cbn [bind]. rewrite Hq; [done|]. rewrite !length_app in *. lia.
Qed.

Lemma entries_extends item fuel n seen s l s' : reader 1 item -> extends item ->
  entries item fuel n seen s = Ok (l, s') ->
  exists p, s = p ++ s' /\ forall t fuel', (length (p ++ t) < fuel')%nat -> entries item fuel' n seen (p ++ t) = Ok (l, t).
Proof.
  intros Hrd Hi. revert n seen s l. induction fuel as [|fuel IH]; intros n seen s l; cbn [entries]; destruct (n <=? 0) eqn:En; try done.
  1,2: intros [= <- <-]; exists []; split; [done|]; intros t [|fuel'] Hf; [lia|]; cbn [entries app]; by rewrite En.
  intros H. apply bind_ok in H as ([k s1] & Hk & H). destruct (negb (is_key k)) eqn:Ek; [done|].
  destruct (existsb _ seen) eqn:Es; [done|]. apply bind_ok in H as ([v s2] & Hv & H).
  apply bind_ok in H as ([l' s3] & Hl & H). injection H as <- <-.
  destruct (Hi _ _ _ Hk) as (p & -> & Hp). destruct (Hi _ _ _ Hv) as (q & -> & Hq). destruct (IH _ _ _ _ Hl) as (r & -> & Hr).
  pose proof (proj2 (Hrd _) _ _ Hk) as H1. apply reads_length in H1. rewrite length_app in H1.
  exists (p ++ q ++ r). rewrite !app_assoc. split; [done|]. intros t [|fuel'] Hf; [lia|]. cbn [entries]. rewrite En.
  rewrite <- !app_assoc, Hp. cbn [bind]. rewrite Ek, Es, Hq. cbn [bind]. rewrite Hr; [done|]. rewrite !length_app in *. lia.
Qed.

Lemma decode_extends left : extends (decode left).
Proof.
  induction left as [|left IH]; intros s v s'; [done|]. cbn [decode]. destruct s as [|head s]; [done|]. cbv zeta. intros H.
  apply bind_ok in H as ([arg s1] & Ha & H). destruct (read_arg_extends _ _ _ _ Ha) as (p & -> & Hp).
  enough (G : exists q, s1 = q ++ s' /\ forall t, decode (S left) (head :: p ++ q ++ t) = Ok (v, t)).
  { destruct G as (q & -> & G). exists (head :: p ++ q). rewrite <- app_comm_cons, <- app_assoc. split; [done|].
    intros t. rewrite <- app_comm_cons, <- app_assoc. apply G. }
  cbn [decode]. cbv zeta. setoid_rewrite Hp. cbn [bind].
  repeat (destruct (_ =? _); [try (injection H as <- <-; exists []; by split)|]); try done.
  - apply bind_ok in H as ([b s2] & Hb & H). injection H as <- <-. destruct (need_extends _ _ _ _ Hb) as (q & -> & Hq).
    exists q. split; [done|]. intros t. by rewrite Hq.
  - apply bind_ok in H as ([b s2] & Hb & H). destruct (need_extends _ _ _ _ Hb) as (q & -> & Hq).
    exists q. destruct (decode_utf8 b) eqn:Hd; [|done]. injection H as <- <-. split; [done|]. intros t. rewrite Hq. cbn [bind]. by rewrite Hd.
  - apply bind_ok in H as ([l s2] & Hl & H). injection H as <- <-.
    destruct (items_extends _ _ _ _ _ _ (decode_reader left) IH Hl) as (q & -> & Hq).
    exists q. split; [done|]. intros t. by rewrite Hq by lia.
  - apply bind_ok in H as ([l s2] & Hl & H). injection H as <- <-.
    destruct (entries_extends _ _ _ _ _ _ _ (decode_reader left) IH Hl) as (q & -> & Hq).
    exists q. split; [done|]. intros t. by rewrite Hq by lia.
Qed.

(** The slice an item was read from is a whole document of it. *)
Lemma slice_reads_back s v rest : decodeCbor s = Ok (v, rest) -> decodeCborAll (take (length s - length rest) s) = Ok v.
Proof.
  intros H. destruct (decode_extends _ _ _ _ H) as (p & -> & Hp). rewrite length_app.
  replace (length p + length rest - length rest)%nat with (length p) by lia. rewrite take_app_length.
  unfold decodeCborAll, decodeCbor. specialize (Hp []). rewrite app_nil_r in Hp. by rewrite Hp.
Qed.
