(* ===== verification/WebAuthnFacts.v ===== *)
(** * Passkeys: what the checks guarantee

    base64url and DER read back what a conforming writer wrote; the ceremonies
    accept exactly what WebAuthn asks of them, end on every input, and a passkey's
    counter never repeats. *)
From S2P Require Import Prelude JsTime Json JsonText Bytes WebAuthn CborFacts.
Local Open Scope string_scope.
Local Open Scope Z_scope.
Local Open Scope js_scope.

(** ** base64url *)

Lemma sextet (P : Z -> bool) : forallb P (map Z.of_nat (seq 0 64)) = true -> forall v, 0 <= v < 64 -> P v = true.
Proof.
  rewrite forallb_forall. intros H v Hv. apply H. apply in_map_iff. exists (Z.to_nat v).
  split; [lia|]. apply in_seq. lia.
Qed.
Lemma octet (P : Z -> bool) : forallb P (map Z.of_nat (seq 0 256)) = true -> forall v, is_byte v -> P v = true.
Proof.
  rewrite forallb_forall. intros H v Hv. unfold is_byte in Hv. apply H. apply in_map_iff. exists (Z.to_nat v).
  split; [lia|]. apply in_seq. lia.
Qed.

Definition u (v : Z) : ascii := to_url (b64_char v).
Lemma u_facts v : 0 <= v < 64 ->
  url_char (u v) = true /\ of_url (u v) = b64_char v /\ Ascii.eqb (u v) "=" = false
  /\ b64_val (b64_char v) = Some v /\ Ascii.eqb (b64_char v) "=" = false.
Proof.
  intros Hv.
  pose proof (sextet (fun v => url_char (u v) && Ascii.eqb (of_url (u v)) (b64_char v) && negb (Ascii.eqb (u v) "=")
    && oz_eqb (b64_val (b64_char v)) (Some v) && negb (Ascii.eqb (b64_char v) "=")) ltac:(vm_compute; reflexivity) v Hv) as H.
  cbv beta in H. breflect. rewrite oz_eqb_eq, Ascii.eqb_eq in *. done.
Qed.

Lemma url_char_u v : 0 <= v < 64 -> url_char (u v) = true. Proof. intros H. apply u_facts, H. Qed.
Lemma of_url_u v : 0 <= v < 64 -> of_url (u v) = b64_char v. Proof. intros H. apply u_facts, H. Qed.
Lemma u_no_pad v : 0 <= v < 64 -> Ascii.eqb (u v) "=" = false. Proof. intros H. apply u_facts, H. Qed.
Lemma b64_back v : 0 <= v < 64 -> b64_val (b64_char v) = Some v. Proof. intros H. apply u_facts, H. Qed.
Lemma b64_no_pad v : 0 <= v < 64 -> Ascii.eqb (b64_char v) "=" = false. Proof. intros H. apply u_facts, H. Qed.

(** The encoder three bytes at a time. *)
Fixpoint url_of (b : bytes) : string :=
  match b with
  | [] => ""
  | [x] => String (u (x / 4)) (String (u (x mod 4 * 16)) "")
  | [x; y] => String (u (x / 4)) (String (u (x mod 4 * 16 + y / 16)) (String (u (y mod 16 * 4)) ""))
  | x :: y :: z :: b' =>
      String (u (x / 4)) (String (u (x mod 4 * 16 + y / 16)) (String (u (y mod 16 * 4 + z / 64)) (String (u (z mod 64)) (url_of b'))))
  end.
Definition padding (b : bytes) : nat := match (length b mod 3)%nat with 1%nat => 2 | 2%nat => 1 | _ => 0 end.

Lemma by_three (P : bytes -> Prop) :
  P [] -> (forall x, is_byte x -> P [x]) -> (forall x y, is_byte x -> is_byte y -> P [x; y]) ->
  (forall x y z b, is_byte x -> is_byte y -> is_byte z -> are_bytes b -> P b -> P (x :: y :: z :: b)) ->
  forall b, are_bytes b -> P b.
Proof.
  intros H0 H1 H2 H3 b. remember (length b) as n eqn:Hn. revert b Hn.
  induction (lt_wf n) as [n _ IH]. intros b -> Hb.
  destruct b as [|x [|y [|z b]]]; [done| | |]; repeat match goal with H : are_bytes (_ :: _) |- _ => apply Forall_cons in H as [? ?] end; auto.
  apply H3; try done. eapply IH; [|done|done]. simpl. lia.
Qed.

Lemma strip_cons c s : Ascii.eqb c "=" = false -> strip_padding (String c s) = String c (strip_padding s).
Proof. intros H. cbn [strip_padding]. destruct (strip_padding s); [by rewrite H|done]. Qed.

Ltac u_side := try apply u_no_pad; try apply url_char_u; unfold is_byte in *; Z.div_mod_to_equations; lia.

Lemma toB64url_url b : are_bytes b -> toB64url b = url_of b.
Proof.
  revert b. apply by_three; unfold toB64url; [done| | |].
  - intros x Hx. cbn [btoa str_map url_of]. fold (u (x / 4)) (u (x mod 4 * 16)).
    rewrite !strip_cons by u_side. done.
  - intros x y Hx Hy. cbn [btoa str_map url_of]. fold (u (x / 4)) (u (x mod 4 * 16 + y / 16)) (u (y mod 16 * 4)).
    rewrite !strip_cons by u_side. done.
  - intros x y z b Hx Hy Hz _ IH. cbn [btoa str_map url_of].
    fold (u (x / 4)) (u (x mod 4 * 16 + y / 16)) (u (y mod 16 * 4 + z / 64)) (u (z mod 64)).
    rewrite !strip_cons by u_side. by rewrite IH.
Qed.

Lemma url_chars b : are_bytes b -> str_forallb url_char (url_of b) = true.
Proof.
  revert b. apply by_three; [done| | |]; intros; cbn [url_of str_forallb]; rewrite ?andb_true_iff; split_and!; try done; u_side.
Qed.

Lemma url_unpadded b : are_bytes b ->
  str_map of_url (url_of b) +:+ repeat_char (padding b) "=" = btoa b /\ (slen (url_of b) + Z.of_nat (padding b)) mod 4 = 0 /\ (padding b < 3)%nat.
Proof.
  revert b. apply by_three.
  - split_and!; [done|done|cbn; lia].
  - intros x Hx. cbn [url_of str_map btoa]. rewrite !of_url_u by u_side. split_and!; [done|done|cbn; lia].
  - intros x y Hx Hy. cbn [url_of str_map btoa]. rewrite !of_url_u by u_side. split_and!; [done|done|cbn; lia].
  - intros x y z b Hx Hy Hz _ (IH & Hm & Hp). cbn [url_of str_map btoa]. rewrite !of_url_u by u_side.
    replace (padding (x :: y :: z :: b)) with (padding b).
    + split; [|split; [|done]].
      * rewrite <- IH. done.
      * unfold slen in *. cbn [String.length]. replace (Z.of_nat (S (S (S (S (String.length (url_of b)))))) + Z.of_nat (padding b))
          with (Z.of_nat (String.length (url_of b)) + Z.of_nat (padding b) + 1 * 4) by lia. by rewrite Z.mod_add.
    + unfold padding. cbn [length]. replace (S (S (S (length b)))) with (length b + 1 * 3)%nat by lia. by rewrite Nat.Div0.mod_add.
Qed.

Lemma atob_btoa b : are_bytes b -> atob (btoa b) = Some b.
Proof.
  revert b. apply by_three; [done| | |].
  - intros x Hx. cbn [btoa atob]. rewrite !b64_back by u_side. cbn [mbind option_bind].
    cbn. do 2 f_equal. u_side.
  - intros x y Hx Hy. cbn [btoa atob]. rewrite !b64_back by u_side. cbn [mbind option_bind].
    rewrite (b64_no_pad (y mod 16 * 4)) by u_side. cbn [mbind option_bind]. do 2 f_equal; [u_side|f_equal; u_side].
  - intros x y z b Hx Hy Hz _ IH. cbn [btoa atob]. rewrite !b64_back by u_side.
    cbn [mbind option_bind]. rewrite !b64_no_pad by u_side. rewrite IH. cbn [mbind option_bind].
    do 2 f_equal; [u_side|f_equal; [u_side|f_equal; u_side]].
Qed.

(** bytes written base64url read back as themselves. *)
Theorem base64url_round_trip b what : are_bytes b -> fromB64url (toB64url b) what = Ok b.
Proof.
  intros Hb. rewrite toB64url_url by done. unfold fromB64url. rewrite url_chars by done. cbn [negb orb].
  destruct (url_unpadded b Hb) as (Hu & Hm & Hp). pose proof (Z.mod_pos_bound (slen (url_of b)) 4 ltac:(lia)).
  assert (Hpad : (4 - slen (url_of b) mod 4) mod 4 = Z.of_nat (padding b)).
  { set (l := slen (url_of b)) in *. set (k := Z.of_nat (padding b)) in *. assert (0 <= k < 3) by lia.
    Z.div_mod_to_equations. lia. }
  replace (slen (url_of b) mod 4 =? 1) with false.
  - rewrite Hpad, Nat2Z.id, Hu, atob_btoa by done. done.
  - symmetry. apply Z.eqb_neq. intros E. rewrite E in Hpad. change ((4 - 1) mod 4) with 3 in Hpad. lia.
Qed.

(** ** DER *)

(** X.690: an INTEGER of [v]'s value, with no octet to spare and a zero before a high bit; a SEQUENCE of two. *)
Definition der_int (v : bytes) : bytes :=
  let m := strip_zeros v in
  let m := if 128 <=? hd 0 m then 0 :: m else m in (2 :: blen m :: m)%list.
Definition der (r s : bytes) : bytes := let body := (der_int r ++ der_int s)%list in (48 :: blen body :: body)%list.

Lemma high_bit x : is_byte x -> flag x 128 = (128 <=? x).
Proof.
  intros Hx. apply eqb_prop. revert x Hx. apply octet. vm_compute. reflexivity.
Qed.

Lemma strip_facts b : are_bytes b -> b <> [] ->
  are_bytes (strip_zeros b) /\ strip_zeros b <> [] /\ (length (strip_zeros b) <= length b)%nat
  /\ (repeat 0 (length b - length (strip_zeros b)) ++ strip_zeros b)%list = b
  /\ strip_zeros (strip_zeros b) = strip_zeros b /\ strip_zeros (0 :: strip_zeros b)%list = strip_zeros b.
Proof.
  induction b as [|x b IH]; [done|]. intros [Hx Hb]%Forall_cons _.
  destruct ((x =? 0) && negb (blen b =? 0)) eqn:E.
  - cbn [strip_zeros]. rewrite E. apply andb_true_iff in E as [->%Z.eqb_eq E].
    destruct IH as (H1 & H2 & H3 & H4 & H5 & H6); [done|by destruct b|]. split_and!; cbn [length]; try done; try lia.
    replace (S (length b) - length (strip_zeros b))%nat with (S (length b - length (strip_zeros b))) by lia.
    cbn [repeat]. by rewrite <- app_comm_cons, H4.
  - assert (Hs : strip_zeros (x :: b) = (x :: b)%list) by (cbn [strip_zeros]; by rewrite E).
    rewrite Hs. split_and!; try done; try (by rewrite Nat.sub_diag). by apply Forall_cons.
Qed.

Lemma take_front {A} (a b : list A) n : n = length a -> take n (a ++ b) = a.
Proof. intros ->. apply take_app_length. Qed.
Lemma drop_front {A} (a b : list A) n : n = length a -> drop n (a ++ b) = b.
Proof. intros ->. apply drop_app_length. Qed.

Lemma der_integer_back v rest : are_bytes v -> length v = 32%nat ->
  der_integer 32 (der_int v ++ rest)%list = Ok (v, rest) /\ 3 <= blen (der_int v) <= 35.
Proof.
  intros Hv Hl. assert (v <> []) by (by intros ->).
  destruct (strip_facts v Hv ltac:(done)) as (Hb & Hn & Hle & Hpad & Hss & Hs0).
  unfold der_int. set (m := strip_zeros v) in *. set (w := if 128 <=? hd 0 m then (0 :: m)%list else m).
  assert (Hw : strip_zeros w = m /\ (length m <= length w <= 33)%nat /\ w <> [] /\ flag (hd 0 w) 128 = false).
  { unfold w. destruct (Z.leb_spec 128 (hd 0 m)) as [Hh|Hh]; cbn [length hd].
    - split_and!; try done; lia.
    - split_and!; try done; try lia. destruct m as [|x m']; [done|]. apply Forall_cons in Hb as [Hx _].
      cbn [hd] in *. rewrite high_bit by done. by apply Z.leb_gt. }
  destruct Hw as (Hw1 & Hw2 & Hw3 & Hw4). assert (1 <= length w)%nat by (destruct w; [done|simpl; lia]).
  assert (Hbw : Z.to_nat (blen w) = length w) by (unfold blen; lia).
  assert (Hbr : blen w <= blen (w ++ rest)) by (unfold blen; rewrite length_app; lia).
  assert (1 <= blen w <= 33) by (unfold blen; lia).
  cbn [app der_integer]. change (2 =? 2) with true. cbn [negb orb].
  rewrite (proj2 (Z.ltb_ge (blen w) 1)), (proj2 (Z.ltb_ge (32 + 1) (blen w))), (proj2 (Z.ltb_ge (blen (w ++ rest)) (blen w))) by lia.
  cbn [orb]. rewrite Hbw, take_front, drop_front, Hw4, Hw1 by done. cbn [negb].
  split.
  - rewrite (proj2 (Z.ltb_ge 32 (blen m))) by (unfold blen; lia). do 2 f_equal.
    replace (Z.to_nat (32 - blen m)) with (length v - length m)%nat by (unfold blen; lia). done.
  - unfold blen in *. cbn [length]. lia.
Qed.

(** an ECDSA signature's raw form is its DER's two integers, each to 32
    bytes, whatever zeros DER takes off or puts before a high bit. *)
Theorem der_round_trip r s : are_bytes r -> are_bytes s -> length r = 32%nat -> length s = 32%nat ->
  derToRaw (der r s) 32 = Ok (r ++ s)%list.
Proof.
  intros Hr Hs Hlr Hls. unfold derToRaw, der.
  destruct (der_integer_back r (der_int s) Hr Hlr) as [E1 B1].
  destruct (der_integer_back s [] Hs Hls) as [E2 B2]. rewrite app_nil_r in E2.
  assert (Hbody : 0 <= blen (der_int r ++ der_int s) <= 70) by (rewrite blen_app; lia).
  cbn [negb Z.eqb Pos.eqb der_length].
  replace (blen (der_int r ++ der_int s) =? 129) with false by (symmetry; apply Z.eqb_neq; lia).
  rewrite high_bit by (unfold is_byte; lia).
  rewrite (proj2 (Z.leb_gt _ _)) by lia. cbn [bind]. rewrite Z.eqb_refl. cbn [negb].
  rewrite E1. cbn [bind]. rewrite E2. done.
Qed.

Lemma base64url_round_trip_witness : toB64url [251; 255; 0; 17] = "-_8AEQ" /\ fromB64url "-_8AEQ" "" = Ok [251; 255; 0; 17].
Proof.
  split; [vm_compute; reflexivity|]. apply (base64url_round_trip [251; 255; 0; 17] "").
  repeat constructor; vm_compute; congruence.
Defined.

Lemma der_round_trip_witness :
  length (der (200 :: repeat 1 31) (0 :: repeat 3 31)%list) = 70%nat
  /\ derToRaw (der (200 :: repeat 1 31) (0 :: repeat 3 31)%list) 32 = Ok ((200 :: repeat 1 31) ++ (0 :: repeat 3 31))%list.
Proof.
  split; [vm_compute; reflexivity|].
  apply (der_round_trip (200 :: repeat 1 31)%list (0 :: repeat 3 31)%list); try reflexivity; repeat constructor; vm_compute; congruence.
Defined.

(** ** The ceremonies *)

Lemma lxor_lor_0 a b : Z.lor a b = 0 <-> a = 0 /\ b = 0.
Proof. apply Z.lor_eq_0_iff. Qed.
Lemma xor_all_eq a b : length a = length b -> xor_all a b = 0 <-> a = b.
Proof.
  revert b. induction a as [|x a IH]; intros [|y b]; try done. intros [= Hl]. cbn [xor_all].
  rewrite lxor_lor_0, IH, Z.lxor_eq_0_iff by done. split; [by intros [-> ->]|by intros [= -> ->]].
Qed.
Lemma sameBytes_eq a b : sameBytes a b = true <-> a = b.
Proof.
  unfold sameBytes, blen. rewrite andb_true_iff, !Z.eqb_eq. split.
  - intros [Hl%Nat2Z.inj H]. by apply xor_all_eq.
  - intros ->. split; [done|]. by apply xor_all_eq.
Qed.

Lemma check_iff {A} b c m (k : res A) a : check b c m k = Ok a <-> b = true /\ k = Ok a.
Proof. destruct b; cbn; split; try done; by intros [? ?]. Qed.
Lemma bind_iff {A B} (x : res A) (f : A -> res B) b : bind x f = Ok b <-> exists a, x = Ok a /\ f a = Ok b.
Proof. split; [apply bind_ok|by intros (a & -> & ?)]. Qed.
Lemma bind_no_spin {A B} (x : res A) (f : A -> res B) : x <> Spin -> (forall a, f a <> Spin) -> bind x f <> Spin.
Proof. destruct x; cbn; auto. Qed.
Lemma check_no_spin {A} b c m (k : res A) : k <> Spin -> check b c m k <> Spin.
Proof. by destruct b. Qed.
Lemma catch_no_spin {A} (x : res A) f : x <> Spin -> (forall e, f e <> Spin) -> catch x f <> Spin.
Proof. destruct x; cbn; auto. Qed.

(** What clientDataJSON must say (§5.8.1): the ceremony, the challenge, the page, and no frame of another site. *)
Definition client_says (cd : bytes) (type_ : string) (x : Expected) : Prop :=
  exists s o, decode_utf8 cd = Some s /\ json_parse s = Some (JObj o) /\ assoc "type" o = Some (JStr type_)
    /\ assoc "challenge" o = Some (JStr (x_challenge x)) /\ assoc "origin" o = Some (JStr (x_origin x))
    /\ assoc "crossOrigin" o <> Some (JBool true).

Lemma as_str_iff v s : ostr_eqb (as_str v) (Some s) = true <-> v = Some (JStr s).
Proof. rewrite ostr_eqb_eq. destruct v as [[]|]; cbn; split; congruence. Qed.

Lemma clientData_iff cd t x : (exists c, clientData cd t x = Ok c) <-> client_says cd t x.
Proof.
  unfold clientData, client_says. destruct (decode_utf8 cd) as [s|]; cbn [mbind option_bind];
    [|split; [by intros [? ?]|by intros (? & ? & ? & _)]].
  destruct (json_parse s) as [c|] eqn:Hp; [|split; [by intros [? ?]|intros (s' & o & [= ->] & ? & _); congruence]].
  split.
  - intros [c' H]. repeat (apply check_ok in H as [? H]).
    destruct c as [| | | |l|o]; try done. cbn [field] in *.
    exists s, o. rewrite !as_str_iff in *. split_and!; try done. intros Hx. by rewrite Hx in *.
  - intros (s' & o & [= <-] & [= ->]%(eq_trans (eq_sym Hp)) & Ht & Hc & Ho & Hx). exists (JObj o). cbn [field].
    rewrite !check_iff, !as_str_iff. split_and!; try done.
    destruct (assoc "crossOrigin" o) as [[|[]| | | |]|]; done.
Qed.

Section Ceremonies.
Context `{R : Runtime}.

Definition verified_here (a : AuthenticatorData) (x : Expected) : Prop :=
  rpIdHash a = sha256 (bytes_of (x_rpId x)) /\ flag (flags a) FLAG_UP = true /\ flag (flags a) FLAG_UV = true.
Lemma checkAuthenticator_iff a x : (exists t, checkAuthenticator a x = Ok t) <-> verified_here a x.
Proof.
  unfold checkAuthenticator, verified_here. split.
  - intros [t H]. repeat (apply check_ok in H as [? H]). by rewrite sameBytes_eq in *.
  - intros (H1 & H2 & H3). exists tt. by rewrite !check_iff, sameBytes_eq.
Qed.

(** The user handle, where the authenticator returned one, is the account's. *)
Definition handle_matches (input : AssertionInput) (stored : StoredKey) : Prop :=
  truthy_json (as_handle input) = true -> bytes_field (as_handle input) "the user handle" 128 = Ok (st_handle stored).
Definition moved_forward (was now : Z) : Prop := was < now \/ (was = 0 /\ now = 0).
Lemma counter_stuck_iff was now : counter_stuck was now = false <-> moved_forward was now.
Proof.
  unfold counter_stuck, moved_forward. rewrite andb_false_iff, orb_false_iff, !negb_false_iff, !Z.eqb_eq, Z.leb_gt. lia.
Qed.

(** An assertion as WebAuthn §7.2 asks it of the passkey the pool stored, with the counter and the flags it says. *)
Definition genuine (input : AssertionInput) (x : Expected) (stored : StoredKey) (n f : Z) : Prop :=
  exists cd raw a kb m key sig,
    (bytes_field (as_client input) "clientDataJSON" 4096 = Ok cd /\ client_says cd "webauthn.get" x)
    /\ (bytes_field (as_auth input) "authenticatorData" 2048 = Ok raw /\ parseAuthenticatorData raw = Ok a
        /\ verified_here a x /\ n = counter a /\ f = flags a)
    /\ handle_matches input stored
    /\ (fromB64url (st_key stored) "the stored key" = Ok kb /\ decodeCborAll kb = Ok (CMap m)
        /\ importCoseKey m = Ok (st_alg stored, key))
    /\ (bytes_field (as_sig input) "the signature" 1024 = Ok sig
        /\ verifySignature (st_alg stored) key sig (raw ++ sha256 cd)%list = Ok true)
    /\ moved_forward (st_counter stored) n.

Lemma handle_iff input stored :
  (exists t : unit, (if truthy_json (as_handle input) then
     let? h := bytes_field (as_handle input) "the user handle" 128 in
     check (sameBytes h (st_handle stored)) E_user_handle "the passkey belongs to another account" (Ok tt)
   else Ok tt) = Ok t) <-> handle_matches input stored.
Proof.
  unfold handle_matches. destruct (truthy_json _); [|split; [done|by exists tt]]. split.
  - intros [t H] _. apply bind_ok in H as (h & -> & H). apply check_ok in H as [H _]. by apply sameBytes_eq in H as ->.
  - intros H. exists tt. rewrite (H eq_refl). cbn [bind]. rewrite check_iff, sameBytes_eq. done.
Qed.

(** C36: the pool accepts an assertion exactly when WebAuthn does: it answers this
    ceremony's challenge on the pool's page, the authenticator saw and verified
    the user for the pool, the account's handle is the passkey's, the stored key
    signed it, and the passkey's counter moved forward; the counter and the flags
    it answers are the signed ones. *)
Theorem assertion_accepted_iff_genuine input x stored n f :
  verifyAssertion input x stored = Ok (n, f) <-> genuine input x stored n f.
Proof.
  unfold verifyAssertion, genuine. split.
  - intros H. apply bind_ok in H as (cd & Hcd & H). apply bind_ok in H as (c & Hc & H).
    apply bind_ok in H as (raw & Hraw & H). apply bind_ok in H as (a & Ha & H). apply bind_ok in H as (t & Ht & H).
    apply bind_ok in H as (t' & Hh & H). apply bind_ok in H as (kb & Hkb & H). apply bind_ok in H as (v & Hv & H).
    destruct v as [| | | | | |m]; try done. apply bind_ok in H as ([alg key] & Hk & H). apply check_ok in H as [Halg H].
    apply bind_ok in H as (sig & Hsig & H). apply bind_ok in H as (ok & Hok & H). apply check_ok in H as [-> H].
    apply check_ok in H as [Hn H]. injection H as <- <-. apply Z.eqb_eq in Halg as ->.
    exists cd, raw, a, kb, m, key, sig. split_and!; try done.
    + apply clientData_iff. by exists c.
    + apply checkAuthenticator_iff. by exists t.
    + apply handle_iff. by exists t'.
    + apply counter_stuck_iff. by apply negb_true_iff.
  - intros (cd & raw & a & kb & m & key & sig & (Hcd & Hc) & (Hraw & Ha & Hv & -> & ->) & Hh & (Hkb & Hm & Hk) & (Hs & Hok) & Hn).
    apply clientData_iff in Hc as [c Hc]. apply checkAuthenticator_iff in Hv as [t Ht]. apply handle_iff in Hh as [t' Hh].
    rewrite Hcd. cbn [bind]. rewrite Hc. cbn [bind]. rewrite Hraw. cbn [bind]. rewrite Ha. cbn [bind]. rewrite Ht. cbn [bind].
    rewrite Hh. cbn [bind]. rewrite Hkb. cbn [bind]. rewrite Hm. cbn [bind]. rewrite Hk. cbn [bind].
    rewrite Z.eqb_refl, Hs. cbn [bind check]. rewrite Hok. cbn [bind check].
    by rewrite (proj2 (counter_stuck_iff _ _) Hn).
Qed.

(** *** Every ceremony ends *)

Lemma fromB64url_ends s what : fromB64url s what <> Spin.
Proof. unfold fromB64url. by repeat case_match. Qed.
Lemma bytes_field_ends v what max : bytes_field v what max <> Spin.
Proof.
  apply bind_no_spin; [|intros; apply fromB64url_ends]. unfold str_field. destruct (as_str v); [|done]. by apply check_no_spin.
Qed.
Lemma clientData_ends cd t x : clientData cd t x <> Spin.
Proof. unfold clientData. case_match; [|done]. by repeat apply check_no_spin. Qed.
Lemma decodeCbor_ends s : decodeCbor s <> Spin.
Proof. apply decode_reader. Qed.
Lemma decodeCborAll_ends s : decodeCborAll s <> Spin.
Proof. apply bind_no_spin; [apply decodeCbor_ends|]. intros []. by apply check_no_spin. Qed.
Lemma read_attested_ends s : read_attested s <> Spin.
Proof.
  unfold read_attested. case_match; [done|]. case_match; [done|]. case_match; [done|]. case_match; [done|].
  apply bind_no_spin; [by apply catch_no_spin; [apply decodeCbor_ends|]|]. intros [[] ?]; done.
Qed.
Lemma parseAuthenticatorData_ends b : parseAuthenticatorData b <> Spin.
Proof.
  unfold parseAuthenticatorData. do 5 (case_match; [done|]). apply bind_no_spin.
  { case_match; [|done]. apply bind_no_spin; [apply read_attested_ends|]. by intros []. }
  intros [att s]. apply bind_no_spin.
  { case_match; [|done]. apply bind_no_spin; [apply decodeCbor_ends|]. intros [[] ?]; done. }
  intros. by apply check_no_spin.
Qed.
Lemma checkAuthenticator_ends a x : checkAuthenticator a x <> Spin.
Proof. by repeat apply check_no_spin. Qed.
Lemma coseBytes_ends m label what n : coseBytes m label what n <> Spin.
Proof. unfold coseBytes. by repeat case_match. Qed.
Lemma imported_ends alg d : imported alg d <> Spin.
Proof. unfold imported. by case_match. Qed.
Lemma importCoseKey_ends m : importCoseKey m <> Spin.
Proof.
  unfold importCoseKey. do 3 (case_match; try done). 
  all: repeat first [apply imported_ends | apply coseBytes_ends | apply check_no_spin | apply bind_no_spin; [|intros] | case_match; try done].
Qed.
Lemma derToRaw_ends d n : derToRaw d n <> Spin.
Proof.
  unfold derToRaw. repeat (case_match; try done). apply bind_no_spin.
  { unfold der_length. by repeat case_match. }
  intros []. case_match; [done|].
  assert (Hi : forall s, der_integer n s <> Spin) by (intros; unfold der_integer; by repeat case_match).
  apply bind_no_spin; [apply Hi|]. intros []. apply bind_no_spin; [apply Hi|]. intros []. by apply check_no_spin.
Qed.
Lemma verifySignature_ends alg key sig d : verifySignature alg key sig d <> Spin.
Proof.
  unfold verifySignature. destruct (ALGORITHMS alg); [|done]. cbv iota. destruct (_ && _); [done|]. apply bind_no_spin; [case_match; [apply derToRaw_ends|done]|].
  intros. by case_match.
Qed.

(** every ceremony ends: whatever bytes a browser sends, a registration and
    an assertion answer or refuse with a code of their own; no loop runs past
    them. *)
Theorem ceremonies_end reg input x stored : verifyRegistration reg x <> Spin /\ verifyAssertion input x stored <> Spin.
Proof.
  split.
  - unfold verifyRegistration. apply bind_no_spin; [apply bytes_field_ends|]. intros id.
    apply bind_no_spin; [apply bytes_field_ends|]. intros cd. apply bind_no_spin; [apply clientData_ends|]. intros _.
    apply bind_no_spin.
    { apply catch_no_spin; [apply bind_no_spin; [apply bytes_field_ends|intros; apply decodeCborAll_ends]|]. intros e. by case_match. }
    intros [| | | | | |m]; try done. repeat (case_match; try done). apply check_no_spin.
    apply bind_no_spin; [apply parseAuthenticatorData_ends|]. intros a. apply bind_no_spin; [apply checkAuthenticator_ends|]. intros _.
    case_match; [|done]. apply check_no_spin, bind_no_spin; [apply importCoseKey_ends|]. by intros [].
  - unfold verifyAssertion. apply bind_no_spin; [apply bytes_field_ends|]. intros cd.
    apply bind_no_spin; [apply clientData_ends|]. intros _. apply bind_no_spin; [apply bytes_field_ends|]. intros raw.
    apply bind_no_spin; [apply parseAuthenticatorData_ends|]. intros a. apply bind_no_spin; [apply checkAuthenticator_ends|]. intros _.
    apply bind_no_spin.
    { case_match; [|done]. apply bind_no_spin; [apply bytes_field_ends|]. intros. by apply check_no_spin. }
    intros _. apply bind_no_spin; [apply fromB64url_ends|]. intros kb. apply bind_no_spin; [apply decodeCborAll_ends|].
    intros [| | | | | |m]; try done. apply bind_no_spin; [apply importCoseKey_ends|]. intros [alg key].
    apply check_no_spin, bind_no_spin; [apply bytes_field_ends|]. intros sig. apply bind_no_spin; [apply verifySignature_ends|].
    intros ok. by repeat apply check_no_spin.
Qed.

(** *** Refusals *)

Definition refused_with {A} (r : res A) (c : WebAuthnCode) : Prop := match r with Err e => code e = c | _ => False end.
Lemma bind_refused {A B} (x : res A) (f : A -> res B) c : refused_with x c -> refused_with (bind x f) c.
Proof. by destruct x. Qed.


(** *** The counter *)

(** The key as the pool keeps it after an accepted assertion, and the counters a run of them answered. *)
Definition with_counter (stored : StoredKey) (n : Z) : StoredKey :=
  {| st_key := st_key stored; st_alg := st_alg stored; st_counter := n; st_handle := st_handle stored |}.
Fixpoint accepted_counters (stored : StoredKey) (l : list (AssertionInput * Expected)) : list Z :=
  match l with
  | [] => []
  | (input, x) :: l' =>
      match verifyAssertion input x stored with
      | Ok (n, _) => n :: accepted_counters (with_counter stored n) l'
      | _ => accepted_counters stored l'
      end
  end.

(** a passkey's copies are told apart by its counter: over any run of
    assertions the pool accepts, each counter is above the one before, or the
    authenticator keeps none and all are zero. *)
Theorem counters_never_repeat stored l :
  StronglySorted moved_forward (st_counter stored :: accepted_counters stored l).
Proof.
  revert stored. induction l as [|[input x] l IH]; intros stored; [by repeat constructor|]. cbn [accepted_counters].
  destruct (verifyAssertion input x stored) as [[n f]| |] eqn:E; [|apply IH|apply IH].
  assert (Hm : moved_forward (st_counter stored) n).
  { unfold verifyAssertion in E. repeat (apply bind_ok in E as (? & _ & E)). case_match; try done.
    apply bind_ok in E as ([] & _ & E). apply check_ok in E as [_ E]. do 2 (apply bind_ok in E as (? & _ & E)).
    apply check_ok in E as [_ E]. apply check_ok in E as [E1 [= <- _]]. by apply counter_stuck_iff, negb_true_iff. }
  specialize (IH (with_counter stored n)). cbn [st_counter with_counter] in IH. constructor; [done|].
  constructor; [done|]. inversion IH as [|? ? _ Hall]; subst. eapply Forall_impl; [exact Hall|].
  unfold moved_forward in *. intros m Hn. lia.
Qed.

(** *** The key a registration stores *)

Lemma atob_bytes s b : atob s = Some b -> are_bytes b.
Proof.
  enough (H : forall n s b, (String.length s <= n)%nat -> atob s = Some b -> are_bytes b) by (by eapply H).
  clear. assert (Hv : forall c v, b64_val c = Some v -> 0 <= v < 64).
  { intros c v. unfold b64_val, is_upper, is_lower, is_digit. repeat (case_match; try done); intros [= <-];
      repeat match goal with H : (_ && _) = true |- _ => apply andb_true_iff in H as [?%N.leb_le ?%N.leb_le] end; lia. }
  induction n as [|n IH]; intros s b Hl; (destruct s as [|a [|a1 [|a2 [|a3 s]]]]; try done; [by intros [= <-]|]); [simpl in Hl; lia|].
  cbn [atob]. destruct (b64_val a) as [x|] eqn:Ha; [|done]. destruct (b64_val a1) as [y|] eqn:Hb; [|done]. cbn [mbind option_bind].
  apply Hv in Ha, Hb.
  assert (H1 : is_byte (x * 4 + y / 16)) by (unfold is_byte; Z.div_mod_to_equations; lia).
  destruct (Ascii.eqb a2 "="); [case_match; [intros [= <-]; rewrite ?Forall_cons; split_and!; try done; by apply Forall_nil|done]|].
  destruct (b64_val a2) as [z|] eqn:Hz; [|done]. cbn [mbind option_bind]. apply Hv in Hz.
  assert (H2 : is_byte (y mod 16 * 16 + z / 4)) by (unfold is_byte; Z.div_mod_to_equations; lia).
  destruct (Ascii.eqb a3 "="); [case_match; [intros [= <-]; rewrite ?Forall_cons; split_and!; try done; by apply Forall_nil|done]|].
  destruct (b64_val a3) as [w|] eqn:Hw; [|done]. cbn [mbind option_bind]. apply Hv in Hw.
  assert (H3 : is_byte (z mod 4 * 64 + w)) by (unfold is_byte; Z.div_mod_to_equations; lia).
  destruct (atob s) as [r|] eqn:Hr; [|done]. intros [= <-]. rewrite !Forall_cons. split_and!; try done.
  eapply IH; [|exact Hr]. simpl in Hl. lia.
Qed.

Lemma fromB64url_bytes s what b : fromB64url s what = Ok b -> are_bytes b.
Proof. unfold fromB64url. case_match; [done|]. case_match eqn:E; [|done]. intros [= <-]. by eapply atob_bytes. Qed.

(** Every byte string inside a decoded value is made of bytes. *)
Lemma authData_bytes left s v s' : are_bytes s -> decode left s = Ok (v, s') ->
  forall m b k, v = CMap m -> get (CText k) m = Some (CBytes b) -> are_bytes b.
Proof.
  intros Hs Hd m b k -> Hg.
  assert (Hin : forall m, get (CText k) m = Some (CBytes b) -> exists k', In (k', CBytes b) m).
  { clear. induction m as [|[k' v'] m IH]; [done|]. cbn [get]. case_match; [intros [= ->]; exists k'; by left|].
    intros Hi. destruct (IH Hi) as [k2 ?]. exists k2. by right. }
  destruct (Hin _ Hg) as [k' Hk]. clear Hg Hin.
  enough (G : forall left s v s', are_bytes s -> decode left s = Ok (v, s') ->
            are_bytes s' /\ match v with CBytes b => are_bytes b | _ => True end).
  { destruct left as [|left]; [done|]. cbn [decode] in Hd. destruct s as [|h s]; [done|]. apply Forall_cons in Hs as [_ Hs].
    apply bind_ok in Hd as ([arg s1] & Ha & Hd). destruct (read_arg_extends _ _ _ _ Ha) as (p & -> & _).
    apply Forall_app in Hs as [_ Hs]. repeat (destruct (_ =? _); [try done|]); try done.
    - by apply bind_ok in Hd as ([? ?] & _ & [=]).
    - apply bind_ok in Hd as ([? ?] & _ & Hd). by case_match.
    - by apply bind_ok in Hd as ([? ?] & _ & [=]).
    - apply bind_ok in Hd as ([l s2] & He & [= <- <-]). revert He Hk Hs. generalize (@nil cbor) as seen. generalize arg as n.
      generalize (S (length s1)) as fuel. clear -G. intros fuel. revert s1 l. induction fuel as [|fuel IH]; intros s l n seen; cbn [entries];
        (destruct (n <=? 0); [by intros [= <- <-]|]); [done|]. intros H Hk Hs.
      apply bind_ok in H as ([a s1] & Ka & H). destruct (negb _); [done|]. destruct (existsb _ _); [done|].
      apply bind_ok in H as ([v s3] & Kv & H). apply bind_ok in H as ([l' s4] & Kl & H). injection H as <- <-.
      destruct (G _ _ _ _ Hs Ka) as [Hs1 _]. destruct (G _ _ _ _ Hs1 Kv) as [Hs3 Hv].
      destruct Hk as [[= -> ->]|Hk]; [done|]. by eapply IH. }
  clear. intros left s v s' Hs Hd. destruct (decode_extends _ _ _ _ Hd) as (p & -> & _).
  apply Forall_app in Hs as [Hp Hs]. split; [done|]. destruct v as [| | | |b| |]; try done.
  destruct left as [|left]; [done|]. cbn [decode] in Hd. destruct (p ++ s')%list as [|h t] eqn:E; [done|].
  assert (Ht : are_bytes (h :: t)) by (rewrite <- E; by apply Forall_app). apply Forall_cons in Ht as [_ Ht].
  apply bind_ok in Hd as ([arg s1] & Ha & Hd). destruct (read_arg_extends _ _ _ _ Ha) as (q & -> & _).
  apply Forall_app in Ht as [_ Ht]. repeat (destruct (_ =? _); [try done|]); try done.
  - apply bind_ok in Hd as ([? ?] & Hn & [= <- _]). destruct (need_extends _ _ _ _ Hn) as (r & -> & _).
    unfold need in Hn. case_match; [done|]. injection Hn as <- _. by apply Forall_take.
  - apply bind_ok in Hd as ([? ?] & _ & Hd). by case_match.
  - by apply bind_ok in Hd as ([? ?] & _ & [=]).
  - by apply bind_ok in Hd as ([? ?] & _ & [=]).
Qed.

(** what a registration stores is what an assertion will read: the stored
    text decodes to the very key whose algorithm the pool accepted, so the
    passkey a person registered is one the pool can ask. *)
Theorem registered_key_reads_back input x r :
  verifyRegistration input x = Ok r ->
  exists kb m key, fromB64url (rg_key r) "the stored key" = Ok kb /\ decodeCborAll kb = Ok (CMap m)
    /\ importCoseKey m = Ok (rg_alg r, key).
Proof.
  unfold verifyRegistration. intros H. apply bind_ok in H as (id & Hid & H). apply bind_ok in H as (cd & _ & H).
  apply bind_ok in H as (_ & _ & H). apply bind_ok in H as (att & Hatt & H). destruct att as [| | | | | |m]; try done.
  destruct (get (CText "fmt") m) as [[|fmt| | | | |]|]; try done. destruct (get (CText "attStmt") m) as [[| | | | | |stmt]|]; try done.
  destruct (get (CText "authData") m) as [[| | | |raw| |]|] eqn:Hraw; try done. apply check_ok in H as [_ H].
  assert (Hb : are_bytes raw).
  { unfold catch in Hatt. destruct (let? b := _ in decodeCborAll b) as [v|e|] eqn:E; [|by case_match|done]. injection Hatt as ->.
    apply bind_ok in E as (ab & Hab & E). apply bind_ok in Hab as (txt & _ & Hab). apply fromB64url_bytes in Hab.
    apply bind_ok in E as ([v rest] & Hd & E). apply check_ok in E as [_ [= ->]]. by eapply authData_bytes. }
  apply bind_ok in H as (a & Ha & H). apply bind_ok in H as (_ & _ & H). destruct (attested a) as [at_|] eqn:Eat; [|done].
  apply check_ok in H as [_ H]. apply bind_ok in H as ([alg key] & Hk & H). injection H as <-. cbn [rg_key rg_alg].
  assert (Hat : are_bytes (publicKey at_) /\ decodeCborAll (publicKey at_) = Ok (CMap (cose at_))).
  { unfold parseAuthenticatorData in Ha. destruct (drop 32 raw) as [|fl [|c0 [|c1 [|c2 [|c3 s]]]]] eqn:Er; try done.
    assert (Hs : are_bytes s).
    { assert (are_bytes (drop 32 raw)) as Hd by by apply Forall_drop. rewrite Er in Hd. by inversion_clear Hd as [|? ? _ H1];
        inversion_clear H1 as [|? ? _ H2]; inversion_clear H2 as [|? ? _ H3]; inversion_clear H3 as [|? ? _ H4]; inversion_clear H4. }
    apply bind_ok in Ha as ([o s1] & Ho & Ha). apply bind_ok in Ha as (s2 & _ & Ha). apply check_ok in Ha as [_ [= <-]].
    cbn [attested] in Eat. subst o. destruct (flag fl FLAG_AT); [|done]. apply bind_ok in Ho as ([t s3] & Ht & [= -> <-]).
    unfold read_attested in Ht. case_match; [done|]. destruct (drop 16 s) as [|hi [|lo s4]] eqn:E4; try done. case_match; [done|].
    assert (Hs4 : are_bytes s4).
    { assert (are_bytes (drop 16 s)) as Hd by by apply Forall_drop. rewrite E4 in Hd. by inversion_clear Hd as [|? ? _ H1]; inversion_clear H1. }
    apply bind_ok in Ht as ([v rest] & Hd & Ht). destruct v as [| | | | | |mm]; try done. injection Ht as <- _. cbn [publicKey cose].
    split; [by apply Forall_take, Forall_drop|]. unfold catch in Hd. destruct (decodeCbor _) as [[v' r']|e|] eqn:E; try done.
    injection Hd as -> ->. by apply slice_reads_back. }
  exists (publicKey at_), (cose at_), key. split; [|by split; [apply Hat|]]. by apply base64url_round_trip, Hat.
Qed.
End Ceremonies.

(** ** Witnesses: a registration and an assertion of one passkey *)

(** A runtime: a digest of 32 bytes, keys as they come, signatures by their first byte. *)
#[local] Instance sample_runtime : Runtime :=
  {| Key := KeyData; sha256 := fun b => be_bytes 32 (be_num 0 b); import_key := inr;
     verify := fun _ _ sig data => Some (match sig, data with s :: _, d :: _ => s =? d | _, _ => false end) |}.

Definition pool_x : Expected := {| x_challenge := "abc"; x_origin := "https://pool"; x_rpId := "pool" |}.
Definition client_json (type_ : string) : json :=
  JObj [("type", JStr type_); ("challenge", JStr "abc"); ("origin", JStr "https://pool"); ("crossOrigin", JBool false)].
Definition text_field (s : string) : option json := Some (JStr (toB64url (bytes_of s))).
Definition b64_field (b : bytes) : option json := Some (JStr (toB64url b)).
Definition auth_data (flags n : Z) (tail : bytes) : bytes := (be_bytes 32 (be_num 0 (bytes_of "pool")) ++ [flags] ++ be_bytes 4 n ++ tail)%list.
Definition registration_auth : bytes := auth_data 69 0 (repeat 0 16 ++ [0; 2; 5; 6] ++ encode cose_sample)%list.
Definition sample_registration : RegistrationInput :=
  {| in_id := b64_field [5; 6]; in_client := text_field (json_text (client_json "webauthn.create"));
     in_attestation := b64_field (encode (CMap [(CText "fmt", CText "none"); (CText "attStmt", CMap []); (CText "authData", CBytes registration_auth)])) |}.

Lemma registered_key_reads_back_witness :
  exists r, verifyRegistration sample_registration pool_x = Ok r /\ rg_alg r = ES256
    /\ exists kb m key, fromB64url (rg_key r) "the stored key" = Ok kb /\ decodeCborAll kb = Ok (CMap m) /\ importCoseKey m = Ok (rg_alg r, key).
Proof.
  destruct (verifyRegistration sample_registration pool_x) as [r| |] eqn:E; [|vm_compute in E; discriminate E|vm_compute in E; discriminate E].
  exists r. split; [reflexivity|]. split; [clear -E; vm_compute in E; injection E as <-; reflexivity|]. exact (registered_key_reads_back _ _ _ E).
Defined.

Definition sample_key : StoredKey :=
  {| st_key := toB64url (encode cose_sample); st_alg := ES256; st_counter := 3; st_handle := [1] |}.
Definition sample_assertion (x : Expected) (n : Z) : AssertionInput :=
  {| as_client := text_field (json_text (client_json "webauthn.get")); as_auth := b64_field (auth_data 5 n []);
     as_sig := b64_field (der (0 :: repeat 1 31) (0 :: repeat 3 31))%list; as_handle := None |}.
Example assertion_sample :
  accepted_counters sample_key (map (fun n => (sample_assertion pool_x n, pool_x)) [4; 4; 9; 3]) = [4; 9].
Proof. vm_compute. reflexivity. Qed.

Definition other_challenge : Expected := {| x_challenge := "abd"; x_origin := "https://pool"; x_rpId := "pool" |}.
