(* ===== verification/JobToken.v ===== *)
(** * Job tokens: what one lease may write (worker/src/jobtoken.ts, worker/src/auth.ts;
    worker/src/routes/factory.ts [owned], [taskAnswer], [handleHeartbeat])

    A claim's answer carries a token signed by the pool: the task, its scopes, the
    lease's generation, until when. The routes read it back and compare it with the
    task's row. WebCrypto's HMAC is the class [Mac]; the rest is the pool's own. *)
From S2P Require Import Prelude JsTime Json JsonText Bytes Manifest Update Selection Tasks WebAuthn.
Local Open Scope string_scope.
Local Open Scope Z_scope.

(** What [crypto.subtle] signs and verifies with an imported secret. *)
Class Mac := { mac_sign : string -> bytes -> bytes; mac_verify : string -> bytes -> bytes -> bool }.

(** A call that answers, or throws. *)
Inductive answer (A : Type) := Val (a : A) | Throws.
Arguments Val {A}. Arguments Throws {A}.

Record JobClaims := {
  jt : Z; jk : string; js : list string; je : Z; jw : string; jg : option string }.

(** ** base64url, as this file writes it *)

Definition b64url (b : bytes) : string := strip_padding (str_map to_url (btoa b)).
Definition pad4 (s : string) : string :=
  if slen s mod 4 =? 0 then "" else repeat_char (Z.to_nat (4 - slen s mod 4)) "="%char.
Definition unb64url (s : string) : option bytes := atob (str_map of_url s +:+ pad4 s).

(** ** [new TextDecoder().decode]: a byte that begins no character becomes U+FFFD *)

Definition REPLACEMENT : string := text_of [239; 191; 189].
Definition chr (b : Z) : ascii := ascii_of_N (Z.to_N b).
(** The second bytes a lead byte of three or of four takes. *)
Definition second3 (a b : Z) : bool :=
  if a =? 224 then between 160 191 b else if a =? 237 then between 128 159 b else between 225 239 a && cont b.
Definition second4 (a b : Z) : bool :=
  if a =? 240 then between 144 191 b else if a =? 244 then between 128 143 b else between 241 243 a && cont b.
Fixpoint lossy (l : bytes) : string :=
  match l with
  | [] => ""
  | a :: l1 =>
      if a <? 128 then String (chr a) (lossy l1)
      else match l1 with
      | b :: l2 =>
          if between 194 223 a && cont b then String (chr a) (String (chr b) (lossy l2))
          else if second3 a b then
            match l2 with
            | c :: l3 => if cont c then String (chr a) (String (chr b) (String (chr c) (lossy l3))) else REPLACEMENT +:+ lossy l2
            | [] => REPLACEMENT
            end
          else if second4 a b then
            match l2 with
            | c :: l3 =>
                if cont c then
                  match l3 with
                  | d :: l4 => if cont d then String (chr a) (String (chr b) (String (chr c) (String (chr d) (lossy l4)))) else REPLACEMENT +:+ lossy l3
                  | [] => REPLACEMENT
                  end
                else REPLACEMENT +:+ lossy l2
            | [] => REPLACEMENT
            end
          else REPLACEMENT +:+ lossy l1
      | [] => REPLACEMENT
      end
  end.
Definition decode_text (l : bytes) : string := lossy (without_bom l).

(** ** The claims as the token carries them *)

Definition claims_json (c : JobClaims) : json :=
  JObj ([("t", JInt (jt c)); ("k", JStr (jk c)); ("s", JArr (map JStr (js c))); ("e", JInt (je c)); ("w", JStr (jw c))]
        ++ match jg c with Some g => [("g", JStr g)] | None => [] end)%list.

Fixpoint strings (l : list json) : option (list string) :=
  match l with [] => Some [] | JStr s :: l' => (fun r => s :: r) <$> strings l' | _ => None end.
(** [as JobClaims]: the shape the pool signs. *)
Definition claims_of (v : json) : option JobClaims :=
  t ← as_int (field (Some v) "t"); k ← as_str (field (Some v) "k");
  s ← (l ← as_arr (field (Some v) "s"); strings l);
  e ← as_int (field (Some v) "e"); w ← as_str (field (Some v) "w");
  Some {| jt := t; jk := k; js := s; je := e; jw := w; jg := as_str (field (Some v) "g") |}.

(** [/^omj\.([A-Za-z0-9_-]+)\.([A-Za-z0-9_-]+)$/] *)
Definition token_parts (token : string) : option (string * string) :=
  rest ← eat "omj." token;
  match split_on "."%char rest with
  | [p; s] => if truthy p && truthy s && str_forallb url_char p && str_forallb url_char s then Some (p, s) else None
  | _ => None
  end.
Definition bearer (authorization : option string) : string :=
  let h := default "" authorization in if starts_with "Bearer " h then str_drop 7 h else "".

Section Tokens.
Context `{M : Mac} (secret : string).

Definition payload_of (c : JobClaims) : string := b64url (bytes_of (json_text (claims_json c))).
Definition token_of (c : JobClaims) : string :=
  "omj." +:+ payload_of c +:+ "." +:+ b64url (mac_sign secret (bytes_of (payload_of c))).
Definition issueJobToken (c : JobClaims) : answer string := if truthy secret then Val (token_of c) else Throws.

(** The payload's claims, still good at [now]. *)
Definition read_claims (payload : string) : option JobClaims :=
  b ← unb64url payload; v ← json_parse (decode_text b); claims_of v.
Definition payload_claims (payload : string) (now : Z) : option JobClaims :=
  c ← read_claims payload;
  if (je c =? 0) || (je c * 1000 <? now) then None else Some c.

Definition jobOf (authorization : option string) (now : Z) : answer (option JobClaims) :=
  match token_parts (bearer authorization) with
  | None => Val None
  | Some (payload, sig) =>
      if truthy secret then
        match unb64url sig with
        | None => Throws
        | Some sig => Val (if mac_verify secret sig (bytes_of payload) then payload_claims payload now else None)
        end
      else Throws
  end.

Definition jobHas (authorization : option string) (now : Z) (scope : string) : answer (option JobClaims) :=
  match jobOf authorization now with
  | Val (Some c) => Val (if str_in scope (js c) then Some c else None)
  | r => r
  end.
End Tokens.

(** ** The scopes of a kind *)

(** [String(v)] *)
Fixpoint js_string (v : json) : string :=
  match v with
  | JNull => "null"
  | JBool b => if b then "true" else "false"
  | JNum m s => num_text m s
  | JStr s => s
  | JArr l => join "," (map (fun x => match x with JNull => "" | _ => js_string x end) l)
  | JObj _ => "[object Object]"
  end.
Abbreviation Params := (list (string * json)).

Definition ring_of (p : Params) : string := default "edge" (as_str (assoc "ring" p)).
Definition staged_task (p : Params) : list string :=
  match assoc "task" p with Some ((JNum _ _ | JStr _) as v) => ["staging:" +:+ js_string v] | _ => [] end.
Definition ring_scopes (r : string) : list string := ["release:" +:+ r; "artifacts:*:" +:+ r].
Definition sync_rings (p : Params) : list string :=
  let sources := match assoc "sources" p with
                 | Some (JStr s) => default (JArr []) (json_parse s)
                 | Some v => v
                 | None => JNull
                 end in
  dedup (ring_of p :: match sources with
                      | JArr l => omap (fun src => as_str (field (Some src) "ring")) l
                      | _ => []
                      end).
Definition promoted_to (p : Params) : string :=
  match assoc "to" p with Some JNull | None => "rc" | Some v => js_string v end.

Definition kind_scopes (kind : string) (id : Z) (trust : string) (p : Params) (publish : bool) : list string :=
  let ring := ring_of p in
  (if String.eqb kind "build" then
    if String.eqb trust "community" || match assoc "review" p with Some _ => true | None => false end then ["staging:" +:+ zstr id]
    else if publish then "pool:write" :: ring_scopes ring else []
  else if String.eqb kind "publish" then
    staged_task p ++ "pool:write" :: ring_scopes "edge"
    ++ (if match assoc "trial" p with Some (JStr "ok") => true | _ => false end then ring_scopes "rc" ++ ring_scopes "stable" else [])
  else if String.eqb kind "trial" then staged_task p ++ "pool:write" :: ring_scopes "lab"
  else if String.eqb kind "sync" then "pool:write" :: flat_map ring_scopes (sync_rings p)
  else if String.eqb kind "promote" then ring_scopes (promoted_to p)
  else if String.eqb kind "rollback" then ring_scopes ring
  else if String.eqb kind "render" then ["artifacts:*:" +:+ ring]
  else if String.eqb kind "security" then ["security:write"; "release:rc"; "release:stable"; "artifacts:*:rc"; "artifacts:*:stable"]
  else if String.eqb kind "gc" then ["gc"]
  else if String.eqb kind "relayout" then ["relayout"; "artifacts:*:edge"; "artifacts:*:rc"; "artifacts:*:stable"]
  else if String.eqb kind "enqueue" then ["factory:write"]
  else if String.eqb kind "verify" then
    ["pool:write"; "release:edge"; "release:rc"; "release:stable"; "artifacts:*:edge"; "artifacts:*:rc"; "artifacts:*:stable"]
  else if String.eqb kind "audit" then staged_task p
  else [])%list.
Definition scopesFor (kind : string) (id : Z) (trust : string) (p : Params) (publish : bool) : list string :=
  (("task:" +:+ zstr id) :: (if String.eqb trust "community" then [] else ["events"]) ++ kind_scopes kind id trust p publish)%list.

(** The token of a lease, as the claim's answer and every heartbeat sign it. *)
Definition lease_claims (id : Z) (t : Task) (p : Params) (who : string) (now : Z) : JobClaims :=
  let w := what t in
  {| jt := id; jk := t_kind w; js := scopesFor (t_kind w) id (t_trust w) p (publish w);
     je := now / 1000 + LEASE_MINUTES * 60; jw := who;
     jg := g ← lease_gen (lease t); if truthy g then Some g else None |}.

(** ** The doors (auth.ts) *)

Record Refused := { r_status : Z; r_words : string; r_stop : bool }.

Definition revokedRefusal (policy : ReleasePolicy) (id : Z) (rel : option string) (pool : string) : option Refused :=
  if isRevoked rel policy then
    Some {| r_status := 409; r_stop := true;
            r_words := "task " +:+ zstr id +:+ " was leased on " +:+ default "" rel +:+ ", which the pool's release " +:+ pool
              +:+ " revokes: nothing of it is taken — its host kills it, and it goes back to the queue with its attempt" |}
  else None.

Definition leaseGone (policy : ReleasePolicy) (pool : string) (db : DB) (job : JobClaims) : option Refused :=
  if negb (truthyo (jg job)) && match revoked policy with [] => true | _ => false end then None
  else
    match (t ← tasks db !! jt job; if lease_held (jw job) (jg job) t then Some t else None) with
    | Some t => revokedRefusal policy (jt job) (release (lease t)) pool
    | None =>
        if truthyo (jg job)
        then Some {| r_status := 409; r_stop := true;
                     r_words := "task " +:+ zstr (jt job) +:+ "'s lease this token was issued for is over: it writes nothing" |}
        else None
    end.

(** A scope of the token, exactly or by a wildcard [x:*]. *)
Definition grants (scopes : list string) (scope : string) : bool :=
  str_in scope scopes
  || existsb (fun s => ends_with ":*" s && starts_with (str_take (String.length s - 1) s) scope) scopes.

(** [authorize] once the token is read: [None] lets the request through. *)
Definition authorize (policy : ReleasePolicy) (pool : string) (db : DB) (job : option JobClaims) (scope : string) : option Refused :=
  match job with
  | None => Some {| r_status := 401; r_words := "unauthorized: a job token is required"; r_stop := false |}
  | Some j =>
      if grants (js j) scope then leaseGone policy pool db j
      else Some {| r_status := 403; r_stop := false;
                   r_words := "job " +:+ zstr (jt j) +:+ " (" +:+ jk j +:+ ") may not " +:+ scope |}
  end.
Definition authorizeRelease policy pool db job (ring : string) : option Refused :=
  authorize policy pool db job ("release:" +:+ ring).
(** [ring]: the release's row, [None] when there is none. *)
Definition authorizeArtifacts policy pool db (job : option JobClaims) (release_id : Z) (ring : option string) : option Refused :=
  match ring with
  | None => Some {| r_status := 404; r_words := "no such release"; r_stop := false |}
  | Some ring =>
      match job with
      | Some j => if str_in ("artifacts:" +:+ zstr release_id) (js j) then leaseGone policy pool db j
                  else authorize policy pool db job ("artifacts:*:" +:+ ring)
      | None => authorize policy pool db job ("artifacts:*:" +:+ ring)
      end
  end.

(** ** The task's own routes (factory.ts owned) *)

Inductive Actor := Worker (id : string) | Job (c : JobClaims).
Definition workerName (a : Actor) : string := match a with Worker w => w | Job c => jw c end.

Definition owned (db : DB) (id : Z) (a : Actor) : Task + Refused :=
  let refuse code stop words := inr {| r_status := code; r_words := words; r_stop := stop |} in
  let named := "task " +:+ zstr id in
  let mine := match a with Worker _ => true | Job c => str_in ("task:" +:+ zstr id) (js c) end in
  if negb mine then refuse 403 false ("this job token is for task " +:+ match a with Job c => zstr (jt c) | Worker _ => "" end)
  else match tasks db !! id with
  | None => refuse 404 false "no such task"
  | Some t =>
      let gen := match a with Job c => jg c | Worker _ => None end in
      if negb (leased_to (workerName a) t) then
        refuse 409 true (named +:+ " is " +:+ status_word (status t)
          +:+ (match lease_owner (lease t) with Some o => if truthy o then " by " +:+ o else "" | None => "" end) +:+ "; the lease is not yours")
      else if negb (ostr_eqb (lease_gen (lease t)) gen) then
        refuse 409 true ("this token is of another lease of " +:+ named +:+ ": a host's lease is acted on with its own job token only")
      else if truthyo (stop_order (lease t)) then
        refuse 409 true (named +:+ " was stopped from its worker's page: it goes back to the queue once this worker has stopped it")
      else inl t
  end.

Definition leaseMoved (db : DB) (id : Z) (a : Actor) : Refused :=
  match owned db id a with
  | inr r => r
  | inl _ => {| r_status := 409; r_stop := false; r_words := "task " +:+ zstr id +:+ "'s lease moved meanwhile; send it again" |}
  end.

(** The worker's row as a heartbeat leaves it. A host's row names no task: its leases are the table's. *)
Record Seen := { last_seen : Z; current_task : option Z }.
Definition beat (id : Z) (t : Task) (now : Z) (w : Seen) : Seen :=
  {| last_seen := now; current_task := if lease_gen (lease t) then current_task w else Some id |}.

(** The heartbeat: [read] is the table the check read, [db] and [ws] the tables the writes run on. *)
Definition handleHeartbeat (policy : ReleasePolicy) (pool : string) (id : Z) (a : Actor) (p : Params) (now : Z) (read db : DB)
    (ws : gmap string Seen) : DB * gmap string Seen * (JobClaims + Refused) :=
  match owned read id a with
  | inr r => (db, ws, inr r)
  | inl t =>
      match revokedRefusal policy id (release (lease t)) pool with
      | Some r => (db, ws, inr r)
      | None =>
          match renew id (workerName a) (lease_gen (lease t)) (now + LEASE_MINUTES * MIN) db with
          | None => (db, ws, inr (leaseMoved db id a))
          | Some db' => (db', alter (beat id t now) (workerName a) ws, inl (lease_claims id t p (workerName a) now))
          end
      end
  end.
