(* ===== verification/JobTokenFacts.v ===== *)
(** * Job tokens: what a token proves and what it reaches

    A token reads back as the claims signed until the second it expires; what the
    pool accepts it signed; the code nobody reviewed reaches no ring; and the token
    of a lease that ended writes nothing, whatever happens to the task after. *)
From S2P Require Import Prelude JsTime TextFacts Json JsonText JsonFacts Bytes Manifest Update Selection Tasks SelectionSamples TasksFacts WebAuthn WebAuthnFacts JobToken.
Local Open Scope string_scope.
Local Open Scope Z_scope.

(** ** Bytes and text *)


(** What is valid UTF-8 decodes to itself. *)
Lemma lossy_valid l : utf8_ok l = true -> lossy l = text_of l.
Proof.
  remember (length l) as n eqn:Hn. revert l Hn. induction (lt_wf n) as [n _ IH]. intros l -> H.
  destruct l as [|a l]; [done|]. cbn [utf8_ok lossy text_of] in *. fold (chr a).
  destruct (a <? 128). { rewrite (IH (length l)); [done|cbn; lia|done|done]. }
  destruct l as [|b l]; [done|]. cbn [text_of]. fold (chr b).
  destruct (between 194 223 a && cont b). { rewrite (IH (length l)); [done|cbn; lia|done|done]. }
  destruct l as [|c l]; [done|]. cbn [text_of]. fold (chr c).
  destruct (cont c && _) eqn:E3.
  { apply andb_true_iff in E3 as [-> E3]. replace (second3 a b) with true; [rewrite (IH (length l)); [done|cbn; lia|done|done]|].
    symmetry. unfold second3, between, cont in *. repeat (apply orb_true_iff in E3 as [E3|E3]); breflect; subst;
      repeat case_match; breflect; subst; try lia; rewrite ?andb_true_iff, ?Z.leb_le, ?Z.ltb_lt; try lia; done. }
  destruct l as [|d l]; [done|]. cbn [text_of]. fold (chr d).
  destruct (cont c && cont d && _) eqn:E4; [|done]. apply andb_true_iff in E4 as [E4 E4'].
  apply andb_true_iff in E4 as [Hc Hd].
  assert (H3 : second3 a b = false).
  { unfold second3, between, cont in *. repeat (apply orb_true_iff in E4' as [E4'|E4']); breflect; subst;
      repeat case_match; breflect; subst; try lia; try done; apply andb_false_iff; left; apply andb_false_iff;
      rewrite ?Z.leb_gt; lia. }
  assert (H4 : second4 a b = true).
  { unfold second4, between, cont in *. repeat (apply orb_true_iff in E4' as [E4'|E4']); breflect; subst;
      repeat case_match; breflect; subst; try lia; rewrite ?andb_true_iff, ?Z.leb_le, ?Z.ltb_lt; try lia; done. }
  rewrite H3, H4, Hc, Hd. rewrite (IH (length l)); [done|cbn; lia|done|done].
Qed.

Lemma unb64url_back b : are_bytes b -> unb64url (b64url b) = Some b.
Proof.
  intros Hb. change (b64url b) with (toB64url b). rewrite toB64url_url by done. unfold unb64url.
  destruct (url_unpadded b Hb) as (Hu & Hm & Hp). pose proof (Z.mod_pos_bound (slen (url_of b)) 4 ltac:(lia)).
  replace (pad4 (url_of b)) with (repeat_char (padding b) "="%char); [by rewrite Hu, atob_btoa|].
  set (l := slen (url_of b)) in *. unfold pad4. fold l.
  destruct (Z.eqb_spec (l mod 4) 0) as [E|E].
  - replace (padding b) with O; [done|]. apply Nat2Z.inj. Z.div_mod_to_equations. lia.
  - f_equal. apply Nat2Z.inj. rewrite Z2Nat.id by lia. Z.div_mod_to_equations. lia.
Qed.
Lemma b64url_chars b : are_bytes b -> str_forallb url_char (b64url b) = true.
Proof. intros Hb. change (b64url b) with (toB64url b). rewrite toB64url_url by done. by apply url_chars. Qed.
Lemma b64url_nonempty b : are_bytes b -> b <> [] -> truthy (b64url b) = true.
Proof.
  intros Hb Hn. change (b64url b) with (toB64url b). rewrite toB64url_url by done.
  destruct b as [|x [|y [|z b]]]; done.
Qed.

Lemma url_no_dot s : str_forallb url_char s = true -> str_forallb (fun c => negb (Ascii.eqb c ".")) s = true.
Proof. apply str_forallb_weaken. intros [[] [] [] [] [] [] [] []]; done. Qed.

Lemma token_parts_back p s : str_forallb url_char p = true -> str_forallb url_char s = true -> truthy p = true -> truthy s = true ->
  token_parts ("omj." +:+ p +:+ "." +:+ s) = Some (p, s).
Proof.
  intros Hp Hs Tp Ts. unfold token_parts. change (eat "omj." ("omj." +:+ ?x)) with (Some x). cbn [mbind option_bind].
  change ("." +:+ s) with (String "." s). rewrite split_two by (by apply url_no_dot). by rewrite Tp, Ts, Hp, Hs.
Qed.
Lemma bearer_back t : bearer (Some ("Bearer " +:+ t)) = t.
Proof. unfold bearer. cbn [default]. change (str_drop 7 ("Bearer " +:+ t)) with t. change (starts_with "Bearer " ("Bearer " +:+ t)) with (starts_with "" t). by destruct t. Qed.

(** ** The claims *)

Lemma strings_map l : strings (map JStr l) = Some l.
Proof. induction l as [|x l IH]; [done|]. cbn. by rewrite IH. Qed.
Lemma claims_back c : claims_of (claims_json c) = Some c.
Proof. destruct c as [t k s e w [g|]]; unfold claims_of, claims_json; cbn; by rewrite strings_map. Qed.
Lemma claims_json_ok c : json_ok (claims_json c) = true.
Proof.
  destruct c as [t k s e w g]. unfold claims_json. cbn [jt jk js je jw jg].
  assert (Hs : forallb json_ok (map JStr s) = true) by (by induction s).
  destruct g; cbn; by rewrite Hs.
Qed.

(** The token's text is text: its strings are the pool's own. *)
Definition plain (c : JobClaims) : Prop := utf8_ok (bytes_of (json_text (claims_json c))) = true.

Lemma claims_open c : exists r, json_text (claims_json c) = String "{" r.
Proof. eexists. unfold claims_json. cbn [json_text]. apply str_app_cons. Qed.
Lemma decode_text_back r : utf8_ok (bytes_of (String "{" r)) = true -> decode_text (bytes_of (String "{" r)) = String "{" r.
Proof.
  intros H. unfold decode_text. change (without_bom (bytes_of (String "{" r))) with (bytes_of (String "{" r)).
  rewrite lossy_valid by exact H. apply text_of_bytes_of.
Qed.
Lemma bind_two {A B C} (a : option A) (f : A -> option B) (g : B -> option C) x y z :
  a = Some x -> f x = Some y -> g y = Some z -> (b ← a; v ← f b; g v) = Some z.
Proof. intros -> Hf Hg. cbn. by rewrite Hf. Qed.

Lemma payload_back c : plain c -> read_claims (payload_of c) = Some c.
Proof.
  intros Hc. unfold plain in Hc. eapply (bind_two _ (fun b => json_parse (decode_text b))).
  - apply unb64url_back, bytes_of_bytes.
  - pose proof (json_round_trip _ (claims_json_ok c)) as Hj. destruct (claims_open c) as [r Hr]. rewrite Hr in Hc, Hj |- *.
    cbv beta. rewrite decode_text_back by exact Hc. exact Hj.
  - apply claims_back.
Qed.

Section Mac.
Context `{M : Mac} (secret : string).

(** a token reads back as the claims it was signed with, until the second it expires. Whatever
    the claims — texts the pool wrote — the request that carries the token issued for them is
    answered with exactly them while their expiry is not past, and with none after it. WebCrypto is
    relied on for a signature of some length that it verifies itself. *)
Theorem token_reads_back c tok now :
  (forall k m, are_bytes (mac_sign k m) /\ mac_sign k m <> []) ->
  (forall k m, mac_verify k (mac_sign k m) m = true) ->
  plain c -> 0 < je c -> issueJobToken secret c = Val tok ->
  jobOf secret (Some ("Bearer " +:+ tok)) now = Val (if je c * 1000 <? now then None else Some c).
Proof.
  intros Hs Hv Hc He Hi. unfold issueJobToken in Hi. destruct (truthy secret) eqn:Hk; [|done]. injection Hi as <-.
  assert (Hb : are_bytes (bytes_of (json_text (claims_json c)))) by apply bytes_of_bytes.
  assert (Hp : truthy (payload_of c) = true).
  { apply b64url_nonempty; [done|]. destruct (claims_open c) as [r ->]. done. }
  destruct (Hs secret (bytes_of (payload_of c))) as [Hm Hn]. unfold jobOf, token_of.
  rewrite bearer_back, token_parts_back by (done || apply b64url_chars || apply b64url_nonempty; done).
  rewrite Hk, unb64url_back, Hv by done. unfold payload_claims. rewrite payload_back by done. cbn [mbind option_bind].
  destruct (Z.eqb_spec (je c) 0); [lia|]. by destruct (_ <? _).
Qed.

(** what the pool accepts it signed. Let nobody but the pool make a signature that verifies:
    one that does is over the payload of a token it issued. Then a request read as a job's carries
    the claims of such a token, every field of them, and not past their expiry — no header, however
    it is put together, gives a task, a scope, a lease or an hour more. *)
Theorem accepted_claims_were_issued (issued : list JobClaims) h now c :
  (forall c', In c' issued -> plain c') ->
  (forall sig payload, mac_verify secret sig payload = true ->
     exists c', In c' issued /\ payload = bytes_of (payload_of c')) ->
  jobOf secret h now = Val (Some c) -> In c issued /\ now <= je c * 1000.
Proof.
  intros Hplain Hforge H. unfold jobOf in H. destruct (token_parts (bearer h)) as [[p s]|]; [|done].
  destruct (truthy secret); [|done]. destruct (unb64url s) as [sig|]; [|done].
  destruct (mac_verify secret sig (bytes_of p)) eqn:Hv; [|done]. destruct (Hforge _ _ Hv) as (c' & Hin & Hp%bytes_of_inj). subst p.
  injection H as H. unfold payload_claims in H. rewrite (payload_back c' (Hplain _ Hin)) in H. cbn [mbind option_bind] in H.
  destruct (_ || _) eqn:E; [done|]. injection H as <-. breflect. split; [done|lia].
Qed.
End Mac.

(** ** What a token reaches *)

(** The work nobody reviewed: a contributor's build, the build under review, a dry run, an audit, a trial. *)
Definition unreviewed (w : What) (p : Params) : bool :=
  (String.eqb (t_kind w) "build"
   && (String.eqb (t_trust w) "community" || match assoc "review" p with Some _ => true | None => false end || negb (publish w)))
  || String.eqb (t_kind w) "audit" || String.eqb (t_kind w) "trial".
Definition promised : list string := ["edge"; "rc"; "stable"].
(** What moves a ring, the pool's store or the queue. *)
Definition closed_to_it (scope : string) : Prop :=
  (exists r, In r promised /\ In scope (ring_scopes r)) \/ In scope ["factory:write"; "gc"; "relayout"; "security:write"].

(** A scope that opens none of them: its first letters differ, or it is the lab's. *)
Definition harmless (s : string) : Prop := forall scope, closed_to_it scope -> grants [s] scope = false.

Lemma grants_all l scope : Forall harmless l -> closed_to_it scope -> grants l scope = false.
Proof.
  intros Hl Hs. unfold grants. induction Hl as [|s l Hh _ IH]; [done|]. specialize (Hh scope Hs). unfold grants in Hh.
  cbn [str_in existsb] in *. rewrite !orb_false_r in Hh. apply orb_false_iff in Hh as [H1 H2]. apply orb_false_iff in IH as [H3 H4].
  unfold str_in in *. cbn [existsb]. by rewrite H1, H2, H3, H4.
Qed.

Lemma closed_list scope : closed_to_it scope ->
  In scope ["release:edge"; "artifacts:*:edge"; "release:rc"; "artifacts:*:rc"; "release:stable"; "artifacts:*:stable";
            "factory:write"; "gc"; "relayout"; "security:write"].
Proof.
  intros [(r & [<-|[<-|[<-|[]]]] & [<-|[<-|[]]])|Hin]; cbn in *; tauto.
Qed.
Lemma harmless_own v : harmless ("task:" +:+ v) /\ harmless ("staging:" +:+ v).
Proof.
  rewrite !str_app_cons. split; intros scope Hs%closed_list; repeat destruct Hs as [<-|Hs]; try done;
    unfold grants; cbn -[ends_with]; by rewrite andb_false_r.
Qed.
Lemma harmless_lab : harmless "release:lab" /\ harmless "artifacts:*:lab" /\ harmless "pool:write" /\ harmless "events".
Proof. split_and!; intros scope Hs%closed_list; repeat destruct Hs as [<-|Hs]; done. Qed.

Lemma staged_harmless p : Forall harmless (staged_task p).
Proof.
  unfold staged_task. destruct (assoc "task" p) as [[]|]; repeat constructor; apply harmless_own.
Qed.
Lemma unreviewed_harmless id w p : unreviewed w p = true -> Forall harmless (scopesFor (t_kind w) id (t_trust w) p (publish w)).
Proof.
  intros Hu. destruct harmless_lab as (H1 & H2 & H3 & H4). unfold scopesFor.
  constructor; [apply harmless_own|]. apply Forall_app. split; [case_match; by repeat constructor|].
  unfold unreviewed in Hu. unfold kind_scopes. apply orb_true_iff in Hu as [Hu|Hk%String.eqb_eq]; [apply orb_true_iff in Hu as [Hu|Hk%String.eqb_eq]|].
  - apply andb_true_iff in Hu as [-> Hu].
    change (String.eqb "build" "build") with true. cbv iota.
    destruct (_ || match assoc "review" p with Some _ => true | None => false end).
    + constructor; [apply harmless_own|done].
    + cbn in Hu. by apply negb_true_iff in Hu as ->.
  - rewrite Hk. cbn. apply staged_harmless.
  - rewrite Hk. cbn. apply Forall_app. split; [apply staged_harmless|]. by repeat constructor.
Qed.

(** code nobody reviewed reaches no ring. Whatever the parameters of its task, the token of a
    contributor's build, of the build under review, of a dry run, of an audit or of a trial is refused
    a release in edge, rc or stable and the databases of one, the queue, the collection, the relayout
    and the advisories — its scopes and their wildcards alike. *)
Theorem unreviewed_code_reaches_no_ring policy pool db id t p who now scope :
  unreviewed (what t) p = true -> closed_to_it scope ->
  exists r, authorize policy pool db (Some (lease_claims id t p who now)) scope = Some r /\ r_status r = 403.
Proof.
  intros Hu Hs. unfold authorize, lease_claims. cbn [js]. rewrite grants_all by (done || by apply unreviewed_harmless).
  by eexists.
Qed.

(** ** A lease that ended *)

(** The task's row is leased by generation [g]. *)
Definition by_gen (i : Z) (g : string) (db : DB) : Prop :=
  exists t, tasks db !! i = Some t /\ is_leased t = true /\ lease_gen (lease t) = Some g.

Lemma gen_not_back i g pre ops :
  NoDup (gens_of i (pre ++ ops)%list) -> In g (gens_of i pre) -> ~ by_gen i g (run pre empty_db) ->
  ~ by_gen i g (run (pre ++ ops) empty_db).
Proof.
  intros Hnd Hin Hover. induction ops as [|o ops IH] using rev_ind; [by rewrite app_nil_r|].
  rewrite app_assoc in Hnd |- *. rewrite gens_snoc in Hnd.
  specialize (IH (proj1 (proj1 (NoDup_app _ _) Hnd))). rewrite run_snoc.
  intros (t & Ht & Hl & Hg). apply row_cases in Ht as [[_ (w & p & pin & ->)]|[(a & t0 & -> & Ht & Hq & ->)|(t0 & Ht & Hsh)]].
  - done.
  - cbn in Hg, Hnd. rewrite Z.eqb_refl, Hg in Hnd. apply NoDup_app in Hnd as (_ & Hd & _).
    apply (Hd g); [|by left]. apply list_elem_of_In. unfold gens_of. rewrite omap_app, in_app_iff. by left.
  - destruct Hsh as (_ & _ & Hgen & Hk). destruct (Hk Hl) as (Hl0 & _). apply IH. exists t0. rewrite <- Hgen. done.
Qed.

Lemma over_refused policy pool db c g scope :
  jg c = Some g -> truthy g = true -> ~ by_gen (jt c) g db -> authorize policy pool db (Some c) scope <> None.
Proof.
  intros Hg Ht Hover. unfold authorize. destruct (grants (js c) scope); [|done]. unfold leaseGone. rewrite Hg.
  cbn [truthyo]. rewrite Ht. cbn [negb andb].
  destruct (t ← tasks db !! jt c; if lease_held (jw c) (Some g) t then Some t else None) as [t|] eqn:E; [|done].
  exfalso. apply Hover. apply bind_Some in E as (t0 & Ht0 & E). destruct (lease_held (jw c) (Some g) t0) eqn:Hh; [|done].
  exists t0. split; [done|]. unfold lease_held, leased_to in Hh. breflect. by split.
Qed.
Lemma over_not_owned db c g id :
  jg c = Some g -> jt c = id -> ~ by_gen id g db -> exists r, owned db id (Job c) = inr r.
Proof.
  intros Hg Hid Hover. unfold owned. cbn [workerName]. rewrite Hg. repeat case_match; try by eexists.
  exfalso. apply Hover. breflect. exists t. split; [done|]. unfold leased_to in *. breflect. by split.
Qed.

(** C33: the token of a host's lease that ended writes nothing, ever. Over any interleaving of
    statements in which each lease of the task carries a generation of its own: once the task is no
    longer leased by the generation the token names — reported, taken back, cancelled, lost, or
    leased again to the same host — every door refuses the token whatever its scopes, and every
    route of the task refuses it, at any later time and whoever holds the task then. *)
Theorem ended_lease_writes_nothing pre ops c g scope policy pool :
  jg c = Some g -> truthy g = true -> NoDup (gens_of (jt c) (pre ++ ops)%list) -> In g (gens_of (jt c) pre) ->
  ~ by_gen (jt c) g (run pre empty_db) ->
  authorize policy pool (run (pre ++ ops) empty_db) (Some c) scope <> None
  /\ exists r, owned (run (pre ++ ops) empty_db) (jt c) (Job c) = inr r.
Proof.
  intros Hg Ht Hnd Hin Hover. pose proof (gen_not_back _ _ _ _ Hnd Hin Hover) as Hno. split.
  - by apply (over_refused _ _ _ _ g).
  - by apply (over_not_owned _ _ g).
Qed.

(** ** At concrete inputs *)

(** A signature of one byte: enough to run the token's text through. *)
Definition toy : Mac := {| mac_sign := fun _ _ => [7]; mac_verify := fun _ sig _ => bool_decide (sig = [7]) |}.
Definition toy_claims : JobClaims :=
  {| jt := 1; jk := "build"; js := ["task:1"; "staging:1"]; je := 1800000000; jw := "ana-1"; jg := Some "g_1" |}.
Lemma token_reads_back_witness :
  exists tok, issueJobToken (M := toy) "k" toy_claims = Val tok
  /\ jobOf (M := toy) "k" (Some ("Bearer " +:+ tok)) 1799999999000 = Val (Some toy_claims)
  /\ jobOf (M := toy) "k" (Some ("Bearer " +:+ tok)) 1800000000001 = Val None.
Proof.
  assert (Hs : forall k m, are_bytes (mac_sign (Mac := toy) k m) /\ mac_sign (Mac := toy) k m <> []).
  { intros k m. split; [constructor; [unfold is_byte; lia|constructor]|done]. }
  assert (Hv : forall k m, mac_verify (Mac := toy) k (mac_sign (Mac := toy) k m) m = true) by done.
  assert (Hp : plain toy_claims) by (vm_compute; reflexivity).
  eexists. split; [reflexivity|]. split.
  - apply (token_reads_back (M := toy) "k" toy_claims _ 1799999999000 Hs Hv Hp); [done|reflexivity].
  - apply (token_reads_back (M := toy) "k" toy_claims _ 1800000000001 Hs Hv Hp); [done|reflexivity].
Defined.

(** A mac whose only signature is the one of [toy_claims]. *)
Definition one_mac : Mac :=
  {| mac_sign := fun _ _ => [7]; mac_verify := fun _ sig m => bool_decide (m = bytes_of (payload_of toy_claims)) |}.
Lemma accepted_claims_were_issued_witness :
  jobOf (M := one_mac) "k" (Some ("Bearer omj." +:+ payload_of toy_claims +:+ ".AAAA")) 0 = Val (Some toy_claims)
  /\ In toy_claims [toy_claims] /\ 0 <= je toy_claims * 1000.
Proof.
  assert (Hj : jobOf (M := one_mac) "k" (Some ("Bearer omj." +:+ payload_of toy_claims +:+ ".AAAA")) 0 = Val (Some toy_claims))
    by (vm_compute; reflexivity).
  split; [exact Hj|]. apply (accepted_claims_were_issued (M := one_mac) "k" [toy_claims] _ _ _ ) in Hj; [exact Hj| |].
  - intros c [<-|[]]. vm_compute. reflexivity.
  - intros sig payload H. exists toy_claims. split; [by left|]. by apply bool_decide_eq_true in H.
Defined.

Lemma unreviewed_code_reaches_no_ring_witness :
  exists r, authorize RELEASE_POLICY "v1.0.0" empty_db
    (Some (lease_claims 7 (new_task {| t_name := "pkg"; t_arch := "x86_64"; t_kind := "trial"; t_trust := "project"; t_owner := None;
        max_attempts := 3; publish := true; review := None; pkgbuild_ref := "-" |} 50 None) [("task", JStr "*")] "ana-1" 0)) "release:stable"
    = Some r /\ r_status r = 403.
Proof.
  apply unreviewed_code_reaches_no_ring; [reflexivity|]. left. exists "stable". split; [right; right; by left|by left].
Defined.

(** The lease of a host taken, reported done; then its token. *)
Definition reported : list Op :=
  [Hosts up; Enqueue 1 build_what 50 None; LeaseOp 1 (lease_by "ana-1" "g_1" 2 4); Complete 1 "ana-1" (Some "g_1") false (noon + MIN)]%list.
Lemma ended_lease_writes_nothing_witness :
  authorize RELEASE_POLICY "v1.0.0" (run (reported ++ [Retry 1 2])%list empty_db) (Some toy_claims) "task:1" <> None
  /\ exists r, owned (run (reported ++ [Retry 1 2])%list empty_db) 1 (Job toy_claims) = inr r.
Proof.
  apply (ended_lease_writes_nothing reported [Retry 1 2] toy_claims "g_1"); try reflexivity.
  - change (NoDup ["g_1"]). apply NoDup_singleton.
  - by left.
  - intros (t & Ht & Hl & _). vm_compute in Ht. injection Ht as <-. done.
Defined.

(** A signature part of a length no encoder writes: the reader throws where its words promise none. *)
Example malformed_signature_throws : jobOf (M := toy) "k" (Some "Bearer omj.AAAA.AAAAA") 0 = Throws.
Proof. reflexivity. Qed.
