(* ===== verification/HostCapacity.v ===== *)
(** * What a host can do (worker/src/hosts.ts: the capacity report, the sandbox, the units)

    A host's agent, and its dispatcher with each claim, report the machine's totals.
    The pool checks every field of the report, computes the units itself, and keeps
    what a claim said of its sandbox as text. A number is the decimal the report writes. *)
From S2P Require Import Prelude JsTime Json JsonText Manifest Selection.
Local Open Scope string_scope.
Local Open Scope Z_scope.

Definition ARCHES : list string := ["x86_64"; "aarch64"].
Definition ISOLATIONS : list string := ["root"; "user"; "subuid"; "vm"; "vm-shared"].
Definition SANDBOX_KINDS : list string := ["gvisor"; "kata"].
Definition HELD_REASON_MAX : nat := 300.

(** [typeof v === "string"] and one of [l]. *)
Definition one_of (l : list string) (v : option json) : option string :=
  s ← as_str v; if str_in s l then Some s else None.
(** [v === null || v === undefined ? …]: the first that is there. *)
Definition first_of {A} (a b : option A) : option A := match a with Some _ => a | None => b end.
(** [/^[p]{lo,hi}$/] *)
Definition sized (lo hi : nat) (s : string) : bool := (lo <=? String.length s)%nat && (String.length s <=? hi)%nat.
Definition all_sized (p : ascii -> bool) (lo hi : nat) (s : string) : bool := str_forallb p s && sized lo hi s.

(** ** The isolation a report says *)

Record SaidIsolation := { si_isolation : option string; si_dedicated : option bool }.
Definition reportedIsolation (runtime capacity : option json) : SaidIsolation :=
  let level o := one_of ISOLATIONS (field o "isolation") in
  let flag o := as_bool (field o "dedicated") in
  {| si_isolation := first_of (level runtime) (level capacity); si_dedicated := first_of (flag runtime) (flag capacity) |}.

(** ** The report *)

(** A decimal [m / 10^s]. *)
Record Num := { nm : Z; ns : nat }.
Definition NInt (n : Z) : Num := {| nm := n; ns := 0 |}.
Definition num_str (n : Num) : string := num_text (nm n) (ns n).
Definition num_q (n : Num) : Q := num_Q (nm n) (ns n).
(** [c < n] *)
Definition num_below (c : Num) (n : Z) : bool := nm c <? n * 10 ^ Z.of_nat (ns c).

Record Lane := { ln_arch : string; ln_mode : Mode; ln_via : option string; ln_page16k : option bool }.
Record HeldLane := { hl_arch : string; hl_reason : string }.
Record Sandbox := { sb_runtime : string; sb_kind : string }.
Record DiskFree := { df_work : Num; df_engine : Num }.
(** [sandbox]: absent, [null] or the runtime. *)
Record Capacity := {
  cap_cpus : Z; cap_mem_gb : Num; cap_disk : DiskFree; cap_lanes : list Lane; cap_held_lanes : list HeldLane;
  cap_agent_slots : option Z; cap_units : option Z; cap_sandbox : option (option Sandbox); cap_sandbox_held : option string }.

(** [num(v, min, max)] and [int(v, min, max)] *)
Definition num (v : option json) (lo hi : Z) : option Num :=
  match v with
  | Some (JNum m s) =>
      let p := 10 ^ Z.of_nat s in if (lo * p <=? m) && (m <=? hi * p) then Some {| nm := m; ns := s |} else None
  | _ => None
  end.
Definition int (v : option json) (lo hi : Z) : option Z :=
  n ← as_int v; if (lo <=? n) && (n <=? hi) then Some n else None.

Definition mode_of (v : option json) : option Mode :=
  s ← as_str v;
  if String.eqb s "native" then Some native else if String.eqb s "emulated" then Some emulated else None.
Definition mode_word (m : Mode) : string := match m with native => "native" | emulated => "emulated" end.
Definition is_low_dash (c : ascii) : bool := is_lower c || is_digit c || Ascii.eqb c "-".
Definition lane_of (l : json) : option Lane :=
  let x := Some l in
  a ← one_of ARCHES (field x "arch"); m ← mode_of (field x "mode");
  Some {| ln_arch := a; ln_mode := m;
          ln_via := (v ← as_str (field x "via"); if all_sized is_low_dash 1 20 v then Some v else None);
          ln_page16k := as_bool (field x "page16k") |}.
(** Every lane, or none when one does not read. *)
Fixpoint lanes_of (l : list json) : option (list Lane) :=
  match l with [] => Some [] | x :: l' => y ← lane_of x; r ← lanes_of l'; Some (y :: r) end.
Definition natives (l : list Lane) : list Lane := List.filter (fun x => mode_eqb (ln_mode x) native) l.

(** [s.trim().slice(0, HELD_REASON_MAX)] of a text with something in it. *)
Definition reason_cut (v : option json) : option string :=
  s ← as_str v; if truthy (trim s) then Some (str_take HELD_REASON_MAX (trim s)) else None.
Definition held_lane_of (h : json) : option HeldLane :=
  a ← one_of ARCHES (field (Some h) "arch"); r ← reason_cut (field (Some h) "reason");
  Some {| hl_arch := a; hl_reason := r |}.

(** [/^[a-z0-9][a-z0-9._-]{0,63}$/] *)
Definition is_low_word (c : ascii) : bool := is_lower c || is_digit c.
Definition RUNTIME_NAME (s : string) : bool :=
  match s with
  | String c r => is_low_word c && all_sized (fun c => is_low_word c || Ascii.eqb c "." || Ascii.eqb c "_" || Ascii.eqb c "-") 0 63 r
  | EmptyString => false
  end.
Definition sandbox_of (v : option json) : option (option Sandbox) :=
  match v with
  | Some JNull => Some None
  | _ =>
      n ← as_str (field v "runtime"); k ← one_of SANDBOX_KINDS (field v "kind");
      if RUNTIME_NAME n then Some (Some {| sb_runtime := n; sb_kind := k |}) else None
  end.

Definition parseCapacity (v : option json) : Capacity + string :=
  if negb (is_obj v) then inr "capacity must be an object"
  else match int (field v "cpus") 1 4096 with
  | None => inr "capacity.cpus must be a whole number of CPUs"
  | Some cpus =>
  match num (field v "mem_gb") 0 (2 ^ 20) with
  | None => inr "capacity.mem_gb must be a number of GB"
  | Some mem =>
  let d := field v "disk_free_gb" in
  match num (field d "work") 0 (2 ^ 30), num (field d "engine") 0 (2 ^ 30) with
  | Some work, Some engine =>
      match as_arr (field v "lanes") with
      | Some ((_ :: _) as ls) =>
          if (4 <? length ls)%nat then inr "capacity.lanes must list one to four lanes"
          else match lanes_of ls with
          | None => inr "a lane is {arch: x86_64 | aarch64, mode: native | emulated}"
          | Some lanes =>
              if negb (length (natives lanes) =? 1)%nat then inr "capacity.lanes must have exactly one native lane"
              else inl {| cap_cpus := cpus; cap_mem_gb := mem; cap_disk := {| df_work := work; df_engine := engine |};
                          cap_lanes := lanes;
                          cap_held_lanes := omap held_lane_of (firstn 4 (default [] (as_arr (field v "held_lanes"))));
                          cap_agent_slots := int (field v "agent_slots") 0 64; cap_units := int (field v "units") 0 4096;
                          cap_sandbox := sandbox_of (field v "sandbox");
                          cap_sandbox_held := reason_cut (field v "sandbox_held") |}
          end
      | _ => inr "capacity.lanes must list one to four lanes"
      end
  | _, _ => inr "capacity.disk_free_gb must be {work, engine} in GB"
  end end end.

(** ** The sandbox a claim says its dispatcher applies *)

Record SandboxApplied := { sa_sandbox : option Sandbox; sa_held : option string }.
Definition sandbox_json (s : option Sandbox) : json :=
  match s with Some s => JObj [("runtime", JStr (sb_runtime s)); ("kind", JStr (sb_kind s))] | None => JNull end.
Definition applied_json (s : option Sandbox) (held : option string) : json :=
  JObj (("sandbox", sandbox_json s) :: match held with Some h => if truthy h then [("held", JStr h)] else [] | None => [] end).
Definition sandboxApplied (c : option Capacity) : option string :=
  c ← c; s ← cap_sandbox c; Some (json_text (applied_json s (cap_sandbox_held c))).

(** The smallest report that reads, around the two fields kept. *)
Definition around (sandbox held : option json) : json :=
  let given k v := match v with Some v => [(k, v)] | None => [] end in
  JObj ([("cpus", JInt 1); ("mem_gb", JInt 0); ("disk_free_gb", JObj [("work", JInt 0); ("engine", JInt 0)]);
         ("lanes", JArr [JObj [("arch", JStr "x86_64"); ("mode", JStr "native")]])] ++ given "sandbox" sandbox ++ given "sandbox_held" held)%list.
Definition sandboxAppliedOf (v : option string) : option SandboxApplied :=
  v ← v;
  if negb (truthy v) then None else
  j ← json_parse v;
  match j with JNull => None | _ =>
    match parseCapacity (Some (around (field (Some j) "sandbox") (field (Some j) "held"))) with
    | inr _ => None
    | inl c => s ← cap_sandbox c; Some {| sa_sandbox := s; sa_held := cap_sandbox_held c |}
    end
  end.

(** ** The minimum, and the units *)

Definition short_of (have : Num) (want : Z) (words : string) : list string :=
  if num_below have want then [num_str have +:+ words +:+ " (" +:+ zstr want +:+ " needed)"] else [].
Definition belowMinimum (c : Capacity) (min : MinHost) : option string :=
  let short := (short_of (NInt (cap_cpus c)) (min_cpus min) " CPUs" ++ short_of (cap_mem_gb c) (min_mem_gb min) " GB of memory"
    ++ short_of (df_work (cap_disk c)) (work_disk_gb min) " GB free on the work root"
    ++ short_of (df_engine (cap_disk c)) (engine_disk_gb min) " GB free on the engine's data root")%list in
  match short with [] => None | _ => Some ("below the minimum to join: " +:+ join ", " short) end.

Definition byCpu (c : Capacity) : Z := (cap_cpus c - cpus RESERVE) / cpus UNIT.
(** [Math.floor] of the exact quotient. *)
Definition byMem (c : Capacity) : Z := Qfloor ((num_q (cap_mem_gb c) - inject_Z (mem_gb RESERVE)) / inject_Z (mem_gb UNIT)).
Definition unitsOf (c : Capacity) : Z :=
  let units := Z.max 0 (Z.min (byCpu c) (byMem c)) in
  match cap_units c with None => units | Some n => Z.min units n end.

Definition hostLine (c : Capacity) (isolation : option string) (dedicated : option bool) : string :=
  zstr (cap_cpus c) +:+ " cores, " +:+ num_str (cap_mem_gb c) +:+ " GB, "
  +:+ join ", " (map (fun l => ln_arch l +:+ " " +:+ mode_word (ln_mode l)) (cap_lanes c))
  +:+ ", isolation " +:+ default "unknown" isolation +:+ (if default false dedicated then " (dedicated)" else "").

(** ** Asleep *)

(** [Date.parse(h.reported_at) > now - …] *)
Definition asleepNow (asleep_at reported_at : option string) (now : Z) : bool :=
  match asleep_at, reported_at with
  | Some _, Some r => match date_parse r with Some t => now - HOST_REPORT_FRESH_MIN * MIN <? t | None => false end
  | _, _ => false
  end.

Example a_mac : parseCapacity (Some (JObj
  [("cpus", JInt 12); ("mem_gb", JNum 325 1); ("disk_free_gb", JObj [("work", JInt 200); ("engine", JInt 100)]);
   ("lanes", JArr [JObj [("arch", JStr "aarch64"); ("mode", JStr "native")]; JObj [("arch", JStr "x86_64"); ("mode", JStr "emulated"); ("page16k", JBool false)]]);
   ("units", JInt 20); ("sandbox", JNull)])) =
  inl {| cap_cpus := 12; cap_mem_gb := {| nm := 325; ns := 1 |}; cap_disk := {| df_work := NInt 200; df_engine := NInt 100 |};
         cap_lanes := [{| ln_arch := "aarch64"; ln_mode := native; ln_via := None; ln_page16k := None |};
                       {| ln_arch := "x86_64"; ln_mode := emulated; ln_via := None; ln_page16k := Some false |}];
         cap_held_lanes := []; cap_agent_slots := None; cap_units := Some 20; cap_sandbox := Some None; cap_sandbox_held := None |}.
Proof. vm_compute. reflexivity. Qed.
