(* ===== verification/HostKeys.v ===== *)
(** * The host key and the signed request (worker/src/hosts.ts: the host key)

    What a host signs, how its header reads, and which key is one. WebCrypto is
    the class [HostCrypto]: what it answers for a key, a signature and a message,
    or that it throws; the digest and the random bytes. *)
From S2P Require Import Prelude JsTime Json Bytes Update WebAuthn HostCapacity.
Local Open Scope string_scope.
Local Open Scope Z_scope.

Definition NL : string := String (ascii_of_nat 10) "".
Definition SIGNED_SKEW_S : Z := 120.
Definition NONCE_KEEP_MIN : Z := 5.
Definition ENROLL_TTL_MIN : Z := 15.
Definition OLD_TOKEN_GRACE_MIN : Z := 10.
Definition KEY_STORES : list string := ["file"; "tpm"].

Inductive HostKeyAlg := Hed25519 | Hp256.
#[export] Instance HostKeyAlg_eq_dec : EqDecision HostKeyAlg.
Proof. solve_decision. Defined.
Record HostKey := { hk_alg : HostKeyAlg; hk_raw : bytes }.

Class HostCrypto := {
  key_verify : HostKeyAlg -> bytes -> bytes -> bytes -> option bool;
  sha256 : bytes -> bytes }.

(** ** Keys *)

Definition publicKeyBytes (b64u : option json) : option bytes :=
  match b64u with
  | Some (JStr s) =>
      if negb (slen s =? 43) then None
      else match fromB64url s "the public key" with Ok raw => if blen raw =? 32 then Some raw else None | _ => None end
  | _ => None
  end.
Definition hostPublicKey (b64u : option json) : option HostKey :=
  match publicKeyBytes b64u with
  | Some raw => Some {| hk_alg := Hed25519; hk_raw := raw |}
  | None =>
      match b64u with
      | Some (JStr s) =>
          if negb (slen s =? 87) then None
          else match fromB64url s "the public key" with
               | Ok raw => if (blen raw =? 65) && match raw with 4 :: _ => true | _ => false end
                           then Some {| hk_alg := Hp256; hk_raw := raw |} else None
               | _ => None
               end
      | _ => None
      end
  end.
Definition keyStoreFits (store : string) (alg : HostKeyAlg) : bool :=
  (String.eqb store "file" && bool_decide (alg = Hed25519)) || (String.eqb store "tpm" && bool_decide (alg = Hp256)).

(** ** What is signed *)

Definition enrollMessage (token pubkey : string) : string := "omarchy-host-enroll-v1" +:+ NL +:+ token +:+ NL +:+ pubkey.
Definition signedMessage (host method path bodySha256 : string) (ts : Z) (nonce : string) : string :=
  "omarchy-host-v1" +:+ NL +:+ host +:+ NL +:+ method +:+ NL +:+ path +:+ NL +:+ bodySha256 +:+ NL +:+ zstr ts +:+ NL +:+ nonce.

(** ** The header *)

Record HostHeader := { hh_host : string; hh_ts : Z; hh_nonce : string; hh_sig : string }.

(** [/^h_[0-9a-z]{10}$/] *)
Definition HOST_ID (s : string) : bool :=
  match s with
  | String a (String b r) => Ascii.eqb a "h" && Ascii.eqb b "_" && all_sized is_low_word 10 10 r
  | _ => false
  end.

(** A part before its first ["="] and after it; none when there is none. *)
Fixpoint cut_eq (s : string) : option (string * string) :=
  match s with
  | EmptyString => None
  | String c r => if Ascii.eqb c "=" then Some ("", r) else p ← cut_eq r; Some (String c p.1, p.2)
  end.
(** What [k in {}] holds for without being set. *)
Definition inherited : list string :=
  ["constructor"; "__defineGetter__"; "__defineSetter__"; "hasOwnProperty"; "__lookupGetter__"; "__lookupSetter__";
   "isPrototypeOf"; "propertyIsEnumerable"; "toString"; "valueOf"; "__proto__"; "toLocaleString"].
Fixpoint header_fields (parts : list string) (kv : list (string * string)) : option (list (string * string)) :=
  match parts with
  | [] => Some kv
  | p :: parts =>
      c ← cut_eq p;
      if negb (truthy c.1) || str_in c.1 (map fst kv) || str_in c.1 inherited then None
      else header_fields parts (kv ++ [c])%list
  end.

Definition parseHostHeader (h : option string) : option HostHeader :=
  match h with
  | None => None
  | Some h =>
      if negb (truthy h) || (300 <? slen h) then None
      else match map trim (split_on ";"%char h) with
      | [host; a; b; c] =>
          if negb (HOST_ID host) then None else
          kv ← header_fields [a; b; c] [];
          let at_ k := default "" (assoc k kv) in
          if all_sized is_digit 1 12 (at_ "ts") && all_sized is_hex_lower 32 32 (at_ "nonce") && all_sized url_char 86 86 (at_ "sig")
          then t ← dec (at_ "ts"); Some {| hh_host := host; hh_ts := t; hh_nonce := at_ "nonce"; hh_sig := at_ "sig" |}
          else None
      | _ => None
      end
  end.

(** ** Ids and the install line *)

(** [(x % 36).toString(36)] *)
Definition base36 (x : Z) : ascii := let v := x mod 36 in ascii_of_N (Z.to_N (if v <? 10 then 48 + v else 87 + v)).
Fixpoint base36s (b : bytes) : string := match b with [] => "" | x :: b' => String (base36 x) (base36s b') end.
(** The random bytes drawn, ten and four of them. *)
Definition newHostId (drawn : bytes) : string := "h_" +:+ base36s drawn.
Definition shortId (drawn : bytes) : string := base36s drawn.

Definition installUrl (poolVersion : string) : string :=
  if is_vtag poolVersion
  then "https://github.com/firemanxbr/omarchy-pool/releases/download/" +:+ poolVersion +:+ "/install.sh"
  else "https://github.com/firemanxbr/omarchy-pool/releases/latest/download/install.sh".
Definition installCommand (poolVersion token : string) (pool : option string) : string :=
  "curl --proto '=https' --tlsv1.2 -fsSL " +:+ installUrl poolVersion +:+ " | OMARCHY_ENROLL=" +:+ token +:+ " sh"
  +:+ match pool with Some p => if truthy p then " -s -- --pool " +:+ p else "" | None => "" end.

Section Crypto.
Context `{C : HostCrypto}.

Definition fingerprint (raw : bytes) : string := "SHA256:" +:+ strip_padding (btoa (sha256 raw)).
Definition sha256HexOf (b : bytes) : string := to_hex (sha256 b).

Definition verifyHostSignature (key : HostKey) (sig message : string) : bool :=
  match fromB64url sig "the signature" with
  | Ok b => if negb (blen b =? 64) then false else default false (key_verify (hk_alg key) (hk_raw key) b (bytes_of message))
  | _ => false
  end.

(** A signed request's header checked against the host's key, at [now]: the clock, the nonce's row and the key are the door's. *)
Definition signature_of (h : HostHeader) (key : HostKey) (method path : string) (body : bytes) : bool :=
  verifyHostSignature key (hh_sig h) (signedMessage (hh_host h) method path (sha256HexOf body) (hh_ts h) (hh_nonce h)).
End Crypto.

Example header_reads :
  parseHostHeader (Some ("h_0123456789; ts=1700000000; nonce=0123456789abcdef0123456789abcdef; sig=" +:+ base36s (repeat 7 86)))
  = Some {| hh_host := "h_0123456789"; hh_ts := 1700000000; hh_nonce := "0123456789abcdef0123456789abcdef"; hh_sig := base36s (repeat 7 86) |}.
Proof. vm_compute. reflexivity. Qed.
