(* ===== verification/HostReport.v ===== *)
(** * What the pool reads of a host's report (worker/src/hosts.ts)

    The soak, the freeze detection, the revert and the settings its reports carry,
    each field checked; why its registration may not claim; a person's reason; the
    host orders' values and the agent's answers to them. *)
From S2P Require Import Prelude JsTime Json JsonText Manifest Selection Update WebAuthn HostCapacity.
Local Open Scope string_scope.
Local Open Scope Z_scope.

(** [\[\x00-\x1f\x7f\]] *)
Definition is_control (c : ascii) : bool := let n := N_of_ascii c in (N.ltb n 32 || N.eqb n 127)%N.
Definition printable (s : string) : bool := str_forallb (fun c => negb (is_control c)) s.
Fixpoint map_chars (f : ascii -> ascii) (s : string) : string :=
  match s with EmptyString => "" | String c s' => String (f c) (map_chars f s') end.
(** [/\s+/g] to one space each. *)
Fixpoint squeeze (s : string) : string :=
  match s with
  | EmptyString => ""
  | String c s' =>
      if is_space c then match squeeze s' with String " " r => String " " r | r => String " " r end
      else String c (squeeze s')
  end.

(** [JSON.parse] of a nullable column or report; [None] for none, or where it throws. *)
Definition parsed (v : option string) : option json := s ← v; if truthy s then json_parse s else None.
(** [/^[p]{lo,hi}$/.test(v) ? v : null] *)
Definition text_max (v : option json) (max : Z) : option string :=
  s ← as_str v; if (slen s <=? max) && printable s then Some s else None.

(** ** Soak, freeze detection, revert *)

Definition isoOrNull (v : option json) : option string :=
  s ← as_str v; if (slen s <=? 40) && (match date_parse s with Some _ => true | None => false end) then Some s else None.
Record SoakColumns := { soaking_until : option json; quarantine : option json }.
Definition quarantined_of (x : json) : list Quarantined :=
  match tag_of (field (Some x) "release") with
  | Some r => [{| q_release := r; q_until := isoOrNull (field (Some x) "until") |}]
  | None => []
  end.
Definition soakOf (r : option SoakColumns) : option HostSoak :=
  r ← r; until ← isoOrNull (soaking_until r);
  if negb (truthy until) then None else
  let q := match quarantine r with Some (JStr s) => default (JArr []) (json_parse s) | Some v => v | None => JNull end in
  Some {| s_until := Some until;
          s_quarantined := match q with JArr l => firstn 16 (flat_map quarantined_of l) | _ => [] end |}.

Record PoolBehind := { pb_github : string; pb_pool : string; pb_since : string }.
Definition poolBehindOf (v : option json) : option PoolBehind :=
  let b := match v with Some (JStr s) => json_parse s | _ => v end in
  g ← tag_of (field b "github"); p ← tag_of (field b "pool"); s ← isoOrNull (field b "since");
  if truthy s then Some {| pb_github := g; pb_pool := p; pb_since := s |} else None.

Record ReportedSoak := { rs_minutes : option Z; rs_until : option string; rs_github_latest : option string }.
Definition reportedSoakOf (report : option string) : option ReportedSoak :=
  r ← parsed report;
  let rel := field (Some r) "release" in
  let s := {| rs_minutes := int (field rel "soak_minutes") 0 1440; rs_until := isoOrNull (field rel "soaking_until");
              rs_github_latest := tag_of (field rel "github_latest") |} in
  match rs_minutes s, rs_until s, rs_github_latest s with None, None, None => None | _, _, _ => Some s end.

Record RevertedColumns := { rc_from : option string; rc_at : option string; rc_applied : option string }.
Definition revertedOf (r : option RevertedColumns) : option Reverted :=
  r ← r; f ← rc_from r;
  if truthy f then Some {| r_from := f; r_at := rc_at r; r_applied := rc_applied r |} else None.

(** ** Pool jobs, and a claim's refusal *)

Definition poolJobsOn (setting : option string) (worker name : string) : bool :=
  let v := trim (default "" setting) in
  String.eqb v "*"
  || existsb (fun x => truthy x && (String.eqb x worker || String.eqb x name)) (map trim (split_on ","%char v)).

Record HostClaimRow := {
  hc_name : string; hc_status : string; hc_status_by : option string; hc_status_reason : option string;
  hc_owner_login : string; hc_owner_removed_at : option string; hc_listed : bool }.
Definition OWNER_NOT_MAINTAINER : string := "the host's owner is no longer a maintainer".
(** [.slice(0, 16).replace("T", " ")] *)
Fixpoint replace_T (s : string) : string :=
  match s with EmptyString => "" | String c s' => if Ascii.eqb c "T" then String " " s' else String c (replace_T s') end.
Record Refusal := { rf_code : string; rf_error : string }.
Definition hostClaimRefusal (h : HostClaimRow) : option Refusal :=
  let n := hc_name h in
  let why := match hc_status_reason h with Some r => if truthy r then ": " +:+ r else "" | None => "" end in
  let no code error := Some {| rf_code := code; rf_error := error |} in
  if String.eqb (hc_status h) "suspended" then
    no "host_suspended" (n +:+ " is suspended (by " +:+ default "?" (hc_status_by h) +:+ why +:+ "): it claims nothing until "
                         +:+ hc_owner_login h +:+ " resumes it")
  else if String.eqb (hc_status h) "retired" then
    no "host_retired" (n +:+ " is retired (by " +:+ default "?" (hc_status_by h) +:+ why +:+ "): a new install enrolls a new host")
  else if negb (String.eqb (hc_status h) "active") then no "host_status" (n +:+ " is " +:+ hc_status h +:+ ": it claims nothing")
  else if negb (hc_listed h) then
    no "owner_not_maintainer" (OWNER_NOT_MAINTAINER +:+ " (factory/MAINTAINERS.toml): " +:+ n +:+ " claims nothing; its running tasks finish and upload")
  else match hc_owner_removed_at h with
  | Some at_ =>
      if truthy at_ then
        no "owner_not_maintainer" (OWNER_NOT_MAINTAINER +:+ " since " +:+ replace_T (str_take 16 at_) +:+ " UTC (factory/MAINTAINERS.toml): "
                                   +:+ n +:+ " claims again once " +:+ hc_owner_login h +:+ " resumes their hosts on their page")
      else None
  | None => None
  end.

(** Four to 300 printable characters on one line. *)
Definition hostReason (v : option json) : option string :=
  s ← as_str v;
  let s := trim (squeeze s) in
  if (slen s <? 4) || (300 <? slen s) || negb (printable s) then None else Some s.

(** ** Host orders *)

Definition HOST_ORDER_KINDS : list string :=
  ["retire-legacy"; "reconcile-now"; "set-units"; "set-emulate"; "rotate-token"; "retry-release"; "diagnostics"; "widen-envelope"; "set-agent-keys"].
Definition OWNER_ORDER_KINDS : list string := ["widen-envelope"; "set-agent-keys"].
Definition isHostOrderKind (k : option json) : bool := match one_of HOST_ORDER_KINDS k with Some _ => true | None => false end.
Definition HOST_ORDERS_AGENT : string := "0.3.0".
Definition HOST_SETTINGS_AGENT : string := "0.4.0".
Definition HOST_OWNER_AGENT : string := "0.4.0".
Definition HOST_ORDER_TTL_MIN : Z := 60.
Definition ORDER_DETAIL_MAX : nat := 500.
Definition MAX_SETTING_UNITS : Z := 4096.

(** [/^ho_[0-9a-f]{32}$/] *)
Definition HOST_ORDER_ID (s : string) : bool :=
  match s with
  | String a (String b (String c r)) => Ascii.eqb a "h" && Ascii.eqb b "o" && Ascii.eqb c "_" && all_sized is_hex_lower 32 32 r
  | _ => false
  end.

(** [/^(\d{1,4})\.(\d{1,4})\.(\d{1,6})$/] *)
Definition semver (v : option string) : option (list Z) :=
  match split_on "."%char (default "" v) with
  | [a; b; c] =>
      if all_sized is_digit 1 4 a && all_sized is_digit 1 4 b && all_sized is_digit 1 6 c
      then x ← dec a; y ← dec b; z ← dec c; Some [x; y; z] else None
  | _ => None
  end.
Fixpoint not_below (have want : list Z) : bool :=
  match have, want with
  | x :: have', y :: want' => if x =? y then not_below have' want' else y <? x
  | _, _ => true
  end.
Definition atLeast (v : option string) (want : string) : bool :=
  match semver v with Some have => not_below have (default [] (semver (Some want))) | None => false end.
Definition agentTakesOrders (v : option string) : bool := atLeast v HOST_ORDERS_AGENT.
Definition agentTakesSettings (v : option string) : bool := atLeast v HOST_SETTINGS_AGENT.
Definition agentTakesOwner (v : option string) : bool := atLeast v HOST_OWNER_AGENT.

(** A settings order's value. *)
Inductive OrderArg := ArgUnits (n : option Z) | ArgEmulate (l : option (list string)).
Inductive OrderArgRead := TheArg (a : OrderArg) | NoArg | BadArg (why : string).
(** Every one an architecture. *)
Fixpoint arches_in (l : list json) : option (list string) :=
  match l with [] => Some [] | x :: l' => a ← one_of ARCHES (Some x); r ← arches_in l'; Some (a :: r) end.
(** A list of at most two of them. *)
Definition arches_of (v : option json) : option (list string) :=
  l ← as_arr v; if (2 <? length l)%nat then None else arches_in l.
Definition str_cmp (a b : string) : Z := if String.eqb a b then 0 else if str_ltb a b then -1 else 1.
Definition orderArg (kind : string) (b : option json) : OrderArgRead :=
  if String.eqb kind "set-units" then
    match field b "units" with
    | Some JNull => TheArg (ArgUnits None)
    | v => match int v 1 MAX_SETTING_UNITS with
           | Some n => TheArg (ArgUnits (Some n))
           | None => BadArg "units: a whole number of units, at least 1, or null for its envelope's own"
           end
    end
  else if String.eqb kind "set-emulate" then
    match field b "emulate" with
    | Some JNull => TheArg (ArgEmulate None)
    | v => match arches_of v with
           | Some l => TheArg (ArgEmulate (Some (sort_by str_cmp (dedup l))))
           | None => BadArg ("emulate: a list of architectures (x86_64, aarch64) whose emulated lane may run, [] for none, "
                             +:+ "or null for its envelope's own")
           end
    end
  else NoArg.

Record HostSettings := { set_units : option Z; set_emulate : option (list string) }.
Definition hostSettingsOf (v : option string) : option HostSettings :=
  s ← parsed v;
  let units := int (field (Some s) "units") 1 MAX_SETTING_UNITS in
  let emulate := l ← as_arr (field (Some s) "emulate"); arches_in l in
  match units, emulate with None, None => None | _, _ => Some {| set_units := units; set_emulate := emulate |} end.

Record Envelope := {
  ev_max_units : option Z; ev_detected_units : option Z; ev_emulate : option (list string); ev_detected_lanes : list string;
  ev_diagnostics : option bool }.
Record ReportedSettings := {
  rp_units : option Z; rp_emulate : option (list string); rp_envelope : Envelope; rp_effective_units : option Z;
  rp_effective_emulated : list string; rp_above : list string }.
(** [l && typeof l === "object"]: an array has none of the fields read. *)
Definition an_object (v : option json) : bool := match v with Some (JObj _ | JArr _) => true | _ => false end.
Definition reportedSettingsOf (report : option string) : option ReportedSettings :=
  r ← parsed report;
  let s := field (Some r) "settings" in
  if negb (an_object s) then None else
  let n v := int v 0 MAX_SETTING_UNITS in
  let e := field s "envelope" in
  let f := field s "effective" in
  Some {| rp_units := n (field s "units"); rp_emulate := arches_of (field s "emulate");
          rp_envelope := {| ev_max_units := n (field e "max_units"); ev_detected_units := n (field e "detected_units");
                            ev_emulate := arches_of (field e "emulate");
                            ev_detected_lanes := default [] (arches_of (field e "detected_lanes"));
                            ev_diagnostics := as_bool (field e "diagnostics") |};
          rp_effective_units := n (field f "units"); rp_effective_emulated := default [] (arches_of (field f "emulated"));
          rp_above := firstn 4 (omap (fun a => text_max (Some a) (Z.of_nat ORDER_DETAIL_MAX)) (default [] (as_arr (field s "above")))) |}.

Record ReportedBrake := { rb_orders : option Z; rb_restarts : option Z; rb_narrowings : option Z; rb_change_at : option string }.
Definition reportedBrakeOf (report : option string) : option ReportedBrake :=
  r ← parsed report;
  let b := field (Some r) "brake" in
  if negb (an_object b) then None else
  let n k := int (field b k) 0 10000 in
  Some {| rb_orders := n "orders_hour"; rb_restarts := n "restarts_hour"; rb_narrowings := n "narrowings_hour";
          rb_change_at := (s ← as_str (field b "release_change_at"); if slen s <=? 40 then Some s else None) |}.

Record LegacySet := {
  lg_project : string; lg_state : string; lg_since : option string; lg_containers : option Z; lg_running : option Z;
  lg_dir : option string; lg_blocked : option string; lg_order : option string }.
Definition LEGACY_STATES : list string := ["running"; "stopped"; "gone"; "retiring"; "retired"; "unknown"].
(** [/^[a-z0-9][a-z0-9_-]{0,63}$/] *)
Definition is_project (s : string) : bool :=
  match s with
  | String c r => is_low_word c && all_sized (fun c => is_low_word c || Ascii.eqb c "_" || Ascii.eqb c "-") 0 63 r
  | EmptyString => false
  end.
Definition legacyOf (report : option string) : option LegacySet :=
  r ← parsed report;
  let l := field (Some r) "legacy" in
  p ← as_str (field l "project");
  if negb (is_project p) then None else
  let count k := int (field l k) 0 9999 in
  Some {| lg_project := p; lg_state := default "unknown" (one_of LEGACY_STATES (field l "state"));
          lg_since := text_max (field l "since") 40; lg_containers := count "containers"; lg_running := count "running";
          lg_dir := text_max (field l "dir") 4096; lg_blocked := text_max (field l "blocked") (Z.of_nat ORDER_DETAIL_MAX);
          lg_order := (o ← as_str (field l "order"); if HOST_ORDER_ID o then Some o else None) |}.

Inductive Outcome := Odone | Orefused | Ofailed.
Definition outcome_word (o : Outcome) : string := match o with Odone => "done" | Orefused => "refused" | Ofailed => "failed" end.
Definition outcome_of (v : option json) : option Outcome :=
  s ← as_str v;
  if String.eqb s "done" then Some Odone else if String.eqb s "refused" then Some Orefused
  else if String.eqb s "failed" then Some Ofailed else None.
Record OrderAnswer := { an_id : string; an_outcome : Outcome; an_detail : string }.
Definition answer_of (a : json) : option OrderAnswer :=
  id ← as_str (field (Some a) "id");
  if negb (HOST_ORDER_ID id) then None else
  o ← outcome_of (field (Some a) "outcome");
  Some {| an_id := id; an_outcome := o;
          an_detail := match field (Some a) "detail" with
                       | Some (JStr d) => str_take ORDER_DETAIL_MAX (trim (map_chars (fun c => if is_control c then " "%char else c) d))
                       | _ => ""
                       end |}.
Definition orderAnswers (v : option json) : list OrderAnswer :=
  match v with Some (JArr l) => omap answer_of (firstn 16 l) | _ => [] end.
