(* ===== verification/OwnerDoc.v ===== *)
(** * The owner's signed documents (worker/src/hosts.ts: the owner's control without a visit)

    A document is text the pool writes, a passkey signs and an agent reads: the pool
    takes one back only byte for byte as it writes it. With the checks of what one may
    carry: the envelope's keys, the sealed agent keys, the host's seal key. *)
From S2P Require Import Prelude JsTime Json JsonText Bytes WebAuthn HostCapacity HostKeys HostReport.
Local Open Scope string_scope.
Local Open Scope Z_scope.

Definition OWNER_DOC_SCHEMA : string := "omarchy-agent/owner/1".
Definition OWNER_DOC_TTL_MIN : Z := 60.
Definition PIN_DOC_TTL_MIN : Z := 10.
Definition OWNER_DOC_MAX : Z := 32 * 1024.
Definition WIDENABLE : list string :=
  ["max_units"; "max_cpus"; "max_mem_gb"; "emulate"; "agent_slots"; "agent_budget"; "diagnostics"; "paths"].
Definition AGENT_KEY_NAMES : list string :=
  ["ANTHROPIC_API_KEY"; "CLAUDE_CODE_OAUTH_TOKEN"; "OPENAI_API_KEY"; "GEMINI_API_KEY"; "XAI_API_KEY"; "GITHUB_TOKEN"].

(** ** The document *)

Inductive OwnerAct := PinPasskey | WidenEnvelope | SetAgentKeys.
Definition act_word (a : OwnerAct) : string :=
  match a with PinPasskey => "pin-passkey" | WidenEnvelope => "widen-envelope" | SetAgentKeys => "set-agent-keys" end.
Definition act_of (v : option json) : option OwnerAct :=
  s ← as_str v;
  if String.eqb s "pin-passkey" then Some PinPasskey else if String.eqb s "widen-envelope" then Some WidenEnvelope
  else if String.eqb s "set-agent-keys" then Some SetAgentKeys else None.

(** The optional fields as the object carries them; [None] is [undefined]. *)
Record OwnerDocInput := {
  d_act : OwnerAct; d_host : string; d_version : option json; d_issued_at : string; d_not_after : string; d_by : string;
  d_rp_id : option json; d_origin : option json; d_envelope : option json; d_seal_key : option json; d_keys : option json }.

(** [JSON.stringify] leaves out a key whose value is [undefined]. *)
Definition given (k : string) (v : option json) : list (string * json) := match v with Some v => [(k, v)] | None => [] end.
Definition acts_own (d : OwnerDocInput) : list (string * json) :=
  match d_act d with
  | PinPasskey => given "rp_id" (d_rp_id d) ++ given "origin" (d_origin d)
  | WidenEnvelope => given "envelope" (d_envelope d)
  | SetAgentKeys => given "seal_key" (d_seal_key d) ++ given "keys" (d_keys d)
  end%list.
Definition owner_obj (d : OwnerDocInput) : json :=
  JObj ([("schema", JStr OWNER_DOC_SCHEMA); ("act", JStr (act_word (d_act d))); ("host", JStr (d_host d))]
    ++ match d_act d with PinPasskey => [] | _ => given "version" (d_version d) end
    ++ [("issued_at", JStr (d_issued_at d)); ("not_after", JStr (d_not_after d)); ("by", JStr (d_by d))]
    ++ acts_own d)%list.
Definition ownerDoc (d : OwnerDocInput) : string := json_text (owner_obj d).

(** The fields of what was parsed. *)
Definition doc_fields (v : json) : option OwnerDocInput :=
  let f := field (Some v) in
  if negb (ostr_eqb (as_str (f "schema")) (Some OWNER_DOC_SCHEMA)) then None else
  act ← act_of (f "act");
  host ← as_str (f "host"); issued ← as_str (f "issued_at"); until ← as_str (f "not_after"); by_ ← as_str (f "by");
  Some {| d_act := act; d_host := host; d_version := f "version"; d_issued_at := issued; d_not_after := until; d_by := by_;
          d_rp_id := f "rp_id"; d_origin := f "origin"; d_envelope := f "envelope"; d_seal_key := f "seal_key"; d_keys := f "keys" |}.
Definition readOwnerDoc (v : option json) : option OwnerDocInput :=
  match v with
  | Some (JStr text) =>
      if OWNER_DOC_MAX <? slen text then None
      else v ← json_parse text; doc ← doc_fields v; if String.eqb (ownerDoc doc) text then Some doc else None
  | _ => None
  end.

(** ** A proposed envelope *)

Definition whole (v : json) (lo hi : Z) : bool := match int (Some v) lo hi with Some _ => true | None => false end.
Definition BUDGET_MAX (k : string) : option Z :=
  if String.eqb k "calls_per_task" || String.eqb k "calls_per_day" then Some 4294967295
  else if String.eqb k "tokens_per_task" || String.eqb k "minutes_per_task" then Some (10 ^ 12) else None.
Definition BUDGET_KEYS : list string := ["calls_per_task"; "tokens_per_task"; "minutes_per_task"; "calls_per_day"].
Fixpoint budget_why (l : list (string * json)) : option string :=
  match l with
  | [] => None
  | (k, v) :: l' =>
      match BUDGET_MAX k with
      | None => Some ("envelope.agent_budget." +:+ k +:+ ": one of " +:+ join ", " BUDGET_KEYS)
      | Some top => if whole v 1 top then budget_why l'
                    else Some ("envelope.agent_budget." +:+ k +:+ ": a whole number from 1 to " +:+ zstr top)
      end
  end.
Fixpoint nodup_str (l : list string) : bool := match l with [] => true | x :: l' => negb (str_in x l') && nodup_str l' end.
(** [p.split("/").slice(1)]: below [/], no part empty, here or above. *)
Definition plain_path (p : string) : bool :=
  (String.length p <=? 4096)%nat && negb (String.eqb p "/") && starts_with "/" p
  && negb (existsb (fun c => String.eqb c "" || String.eqb c "." || String.eqb c "..") (tail (split_on "/"%char p))).
Fixpoint all_strings (l : list json) : option (list string) :=
  match l with [] => Some [] | JStr s :: l' => r ← all_strings l'; Some (s :: r) | _ => None end.

Definition nullable : list string := ["max_units"; "max_cpus"; "max_mem_gb"; "emulate"; "agent_budget"].
(** Why a value of one key is refused. *)
Definition value_why (k : string) (x : json) : option string :=
  let unless (b : bool) (why : string) := if b then None else Some why in
  let at_ := "envelope." +:+ k in
  if String.eqb k "max_units" || String.eqb k "max_cpus" then unless (whole x 1 4096) (at_ +:+ ": a whole number from 1 to 4096, or null for none")
  else if String.eqb k "max_mem_gb" then unless (whole x 1 65536) (at_ +:+ ": a whole number of GB from 1 to 65536, or null for none")
  else if String.eqb k "agent_slots" then unless (whole x 0 64) (at_ +:+ ": a whole number from 0 to 64")
  else if String.eqb k "diagnostics" then unless (match x with JBool _ => true | _ => false end) (at_ +:+ ": true or false")
  else if String.eqb k "emulate" then
    unless (match x with JArr l => match arches_in l with Some a => nodup_str a | None => false end | _ => false end)
      (at_ +:+ ": a list of distinct architectures (x86_64, aarch64), [] for none, or null for detection's")
  else if String.eqb k "agent_budget" then
    match x with
    | JObj o => budget_why o
    | _ => Some (at_ +:+ ": a table of calls_per_task, tokens_per_task, minutes_per_task, calls_per_day")
    end
  else
    unless (match x with
            | JArr l => (length l <=? 16)%nat && match all_strings l with Some p => nodup_str p && forallb plain_path p | None => false end
            | _ => false
            end) "envelope.paths: at most 16 plain absolute paths below /, each once".
Definition key_why (k : string) (x : json) : option string :=
  if negb (str_in k WIDENABLE) then
    Some ("envelope: " +:+ k +:+ " is no key a signed widening sets (it sets " +:+ join ", " WIDENABLE
          +:+ "); the rest of the envelope is its owner's, at the host")
  else match x with
       | JNull => if str_in k nullable then None else Some ("envelope." +:+ k +:+ ": null is not a value of it")
       | _ => value_why k x
       end.
Fixpoint widening_out (l : list (string * json)) : list (string * json) + string :=
  match l with
  | [] => inl []
  | (k, x) :: l' =>
      match key_why k x with
      | Some why => inr why
      | None => match widening_out l' with inl out => inl ((k, x) :: out) | inr why => inr why end
      end
  end.
Definition widening (v : option json) : list (string * json) + string :=
  match v with
  | Some (JObj []) => inr "envelope: name at least one key to set"
  | Some (JObj o) => widening_out o
  | _ => inr "envelope: an object of the keys to set"
  end.

(** ** Sealed keys *)

(** One key taken out, or sealed. *)
Inductive SealedKeyArg := Removed (name : string) | Sealed (name epk nonce ct : string).
Definition sk_name (k : SealedKeyArg) : string := match k with Removed n => n | Sealed n _ _ _ => n end.
Definition keys_of (v : json) : list string := match v with JObj o => map fst o | _ => [] end.
Definition b64_sized (v : option json) (lo hi : nat) : option string :=
  s ← as_str v; if all_sized url_char lo hi s then Some s else None.
Definition sealed_one (out : list SealedKeyArg) (k : json) : SealedKeyArg + string :=
  let f := field (Some k) in
  match one_of AGENT_KEY_NAMES (f "name") with
  | None => inr ("keys: each names one of " +:+ join ", " AGENT_KEY_NAMES)
  | Some n =>
      if existsb (fun o => String.eqb (sk_name o) n) out then inr ("keys: " +:+ n +:+ " is named twice")
      else if match f "remove" with Some (JBool true) => true | _ => false end then
        if existsb (fun x => negb (String.eqb x "name") && negb (String.eqb x "remove")) (keys_of k)
        then inr ("keys: " +:+ n +:+ " is taken out and sealed at once")
        else inl (Removed n)
      else
        match existsb (fun x => negb (str_in x ["name"; "epk"; "nonce"; "ct"])) (keys_of k),
              b64_sized (f "epk") 43 43, b64_sized (f "nonce") 16 16, b64_sized (f "ct") 23 1400 with
        | false, Some epk, Some nonce, Some ct => inl (Sealed n epk nonce ct)
        | _, _, _, _ => inr ("keys: " +:+ n +:+ " is not sealed as the page seals (epk, nonce, ct)")
        end
  end.
Fixpoint sealed_all (out : list SealedKeyArg) (l : list json) : list SealedKeyArg + string :=
  match l with
  | [] => inl out
  | k :: l' => match sealed_one out k with inr why => inr why | inl s => sealed_all (out ++ [s]) l' end
  end.
Definition sealedKeys (v : option json) : list SealedKeyArg + string :=
  match v with
  | Some (JArr ((_ :: _) as l)) =>
      if (length AGENT_KEY_NAMES <? length l)%nat then inr ("keys: one to " +:+ zstr (Z.of_nat (length AGENT_KEY_NAMES)) +:+ " sealed keys")
      else sealed_all [] l
  | _ => inr ("keys: one to " +:+ zstr (Z.of_nat (length AGENT_KEY_NAMES)) +:+ " sealed keys")
  end.

Definition sealKeyOf (v : option json) : option string :=
  s ← as_str v;
  if negb (slen s =? 43) || negb (str_forallb url_char s) then None
  else match fromB64url s "the seal key" with Ok b => if blen b =? 32 then Some s else None | _ => None end.

(** ** The owner's part of a report *)

Record PinnedPasskey := {
  pp_credential : string; pp_alg : string; pp_rp_id : string; pp_origin : string; pp_by : string; pp_pinned_at : string }.
Record SealKey := { sl_key : string; sl_fingerprint : string }.
Record ReportedOwner := {
  ro_passkey : option PinnedPasskey; ro_version : option Z; ro_seal : option SealKey;
  ro_envelope : option (list (string * json)); ro_agent_keys : list string }.
Definition passkey_of (p : option json) : option PinnedPasskey :=
  c ← text_max (field p "credential") 1400;
  if truthy c && str_forallb url_char c then
    let t k max := default "?" (text_max (field p k) max) in
    Some {| pp_credential := c; pp_alg := t "alg" 8; pp_rp_id := t "rp_id" 253; pp_origin := t "origin" 300; pp_by := t "by" 39;
            pp_pinned_at := t "pinned_at" 40 |}
  else None.
(** A key of the envelope as the report has it, or none where a widening would refuse it. *)
Definition envelope_value (env : option json) (k : string) : json :=
  let v := default JNull (field env k) in
  match v with
  | JNull => JNull
  | _ => match widening (Some (JObj [(k, v)])) with inr _ => JNull | inl _ => v end
  end.
(** [/^[A-Z_][A-Z0-9_]{0,63}$/] *)
Definition is_env_name (s : string) : bool :=
  match s with
  | String c r => (is_upper c || Ascii.eqb c "_") && all_sized (fun c => is_upper c || is_digit c || Ascii.eqb c "_") 0 63 r
  | EmptyString => false
  end.
Definition MAX_SAFE : Z := 2 ^ 53 - 1.
Definition reportedOwnerOf (report : option string) : option ReportedOwner :=
  r ← parsed report;
  let o := field (Some r) "owner" in
  if negb (an_object o) then None else
  let seal := field o "seal" in
  let env := field o "envelope" in
  Some {| ro_passkey := passkey_of (field o "passkey");
          ro_version := int (field o "version") 0 MAX_SAFE;
          ro_seal := (k ← sealKeyOf (field seal "key"); f ← text_max (field seal "fingerprint") 60;
                      if truthy f then Some {| sl_key := k; sl_fingerprint := f |} else None);
          ro_envelope := (if is_obj env then Some (map (fun k => (k, envelope_value env k)) WIDENABLE) else None);
          ro_agent_keys := firstn 32 (omap (fun k => s ← as_str (Some k); if is_env_name s then Some s else None)
                                        (default [] (as_arr (field o "agent_keys")))) |}.
