(* ===== verification/OwnerDocFacts.v ===== *)
(** * The owner's documents: what is read back is what was written

    A document and its text determine each other; what a challenge puts in one is
    what the order's check finds there. *)
From S2P Require Import Prelude JsTime Json JsonText JsonFacts Bytes WebAuthn HostCapacity HostKeys HostReport OwnerDoc.
Local Open Scope string_scope.
Local Open Scope Z_scope.

(** A document as the pool builds one: its own act's fields only, of values JSON has. *)
Definition others_absent (d : OwnerDocInput) : bool :=
  let none (v : option json) := match v with None => true | Some _ => false end in
  match d_act d with
  | PinPasskey => none (d_version d) && none (d_envelope d) && none (d_seal_key d) && none (d_keys d)
  | WidenEnvelope => none (d_rp_id d) && none (d_origin d) && none (d_seal_key d) && none (d_keys d)
  | SetAgentKeys => none (d_rp_id d) && none (d_origin d) && none (d_envelope d)
  end.
Definition some_ok (v : option json) : bool := match v with Some v => json_ok v | None => true end.
Definition values_ok (d : OwnerDocInput) : bool :=
  forallb some_ok [d_version d; d_rp_id d; d_origin d; d_envelope d; d_seal_key d; d_keys d].
Definition proper (d : OwnerDocInput) : bool := others_absent d && values_ok d.

Lemma act_back a : act_of (Some (JStr (act_word a))) = Some a.
Proof. by destruct a. Qed.
Lemma owner_obj_ok d : values_ok d = true -> json_ok (owner_obj d) = true.
Proof.
  unfold values_ok, owner_obj, acts_own. destruct d as [a h v i u b r o e s k]. cbn [d_act d_version d_rp_id d_origin d_envelope d_seal_key d_keys].
  intros H. destruct a; cbn [act_word given app]; destruct v, r, o, e, s, k; cbn in H |- *; repeat (apply andb_true_iff in H as [? H]);
    repeat match goal with E : json_ok _ = true |- _ => rewrite E; clear E end; reflexivity.
Qed.
Lemma doc_fields_back d : others_absent d = true -> doc_fields (owner_obj d) = Some d.
Proof.
  unfold others_absent, doc_fields, owner_obj, acts_own. destruct d as [a h v i u b r o e s k].
  cbn [d_act d_version d_rp_id d_origin d_envelope d_seal_key d_keys d_host d_issued_at d_not_after d_by].
  destruct a; destruct v, r, o, e, s, k; intros H; (discriminate H || reflexivity).
Qed.
Lemma fields_absent d d' : doc_fields (owner_obj d) = Some d' -> d' = d -> others_absent d = true.
Proof.
  unfold others_absent, doc_fields, owner_obj, acts_own. destruct d as [a h v i u b r o e s k].
  cbn [d_act d_version d_rp_id d_origin d_envelope d_seal_key d_keys d_host d_issued_at d_not_after d_by].
  destruct a; destruct v, r, o, e, s, k; intros H E; try reflexivity; exfalso; injection H as <-; discriminate E.
Qed.
Lemma field_ok v k : json_ok v = true -> some_ok (field (Some v) k) = true.
Proof.
  intros H. destruct v as [| | | | |o]; try done. cbn [field]. destruct (assoc k o) eqn:E; [|done]. by apply (assoc_is_ok k o).
Qed.
Lemma fields_ok v d : json_ok v = true -> doc_fields v = Some d -> values_ok d = true.
Proof.
  unfold doc_fields. intros Hv H. destruct (negb _); [done|].
  do 5 (apply bind_Some in H as (? & _ & H)). injection H as <-. unfold values_ok.
  repeat (apply andb_true_intro; split); try exact (field_ok v _ Hv). done.
Qed.

(** C38: a document is its bytes: the pool takes a text back as a document exactly when it is the text
    it writes for that document, at most 32 KiB of it, and the document is one it builds. So what a
    passkey signed determines every field the host acts on, and nothing else reads as it. *)
Theorem owner_document_is_its_bytes t d :
  readOwnerDoc (Some (JStr t)) = Some d <-> t = ownerDoc d /\ proper d = true /\ slen t <= OWNER_DOC_MAX.
Proof.
  unfold readOwnerDoc, proper. split.
  - intros H. destruct (OWNER_DOC_MAX <? slen t) eqn:Hl; [done|]. apply Z.ltb_ge in Hl.
    apply bind_Some in H as (v & Hv & H). apply bind_Some in H as (d' & Hd & H).
    destruct (String.eqb (ownerDoc d') t) eqn:E; [|done]. injection H as ->. apply String.eqb_eq in E.
    pose proof (fields_ok _ _ (json_parse_is_ok _ _ Hv) Hd) as Hok.
    rewrite <- E in Hv. unfold ownerDoc in Hv. rewrite (json_round_trip _ (owner_obj_ok _ Hok)) in Hv. injection Hv as <-.
    by rewrite (fields_absent _ _ Hd eq_refl), Hok.
  - intros (-> & Hp & Hl). apply andb_true_iff in Hp as [Ha Hok].
    apply Z.ltb_ge in Hl. rewrite Hl. change (json_parse (ownerDoc d)) with (json_parse (json_text (owner_obj d))). rewrite (json_round_trip _ (owner_obj_ok _ Hok)). cbn [mbind option_bind].
    rewrite (doc_fields_back _ Ha). cbn [mbind option_bind]. by rewrite String.eqb_refl.
Qed.

(** ** What a widening lets through *)

Lemma widening_out_same l out : widening_out l = inl out -> out = l.
Proof.
  revert out. induction l as [|[k x] l IH]; intros out; cbn [widening_out]; [by intros [= <-]|].
  destruct (key_why k x); [done|]. destruct (widening_out l) as [r|]; [|done]. intros [= <-]. by rewrite (IH r).
Qed.
Lemma widening_back v out : widening v = inl out -> widening (Some (JObj out)) = inl out.
Proof.
  unfold widening. destruct v as [[| | | | |[|p o]]|]; try done. intros H.
  pose proof (widening_out_same _ _ H) as ->. exact H.
Qed.
Lemma widening_keys l out : widening_out l = inl out -> Forall (fun p => In p.1 WIDENABLE /\ key_why p.1 p.2 = None) l.
Proof.
  revert out. induction l as [|[k x] l IH]; intros out; cbn [widening_out]; [constructor|].
  destruct (key_why k x) eqn:E; [done|]. destruct (widening_out l) as [r|] eqn:Hr; [|done]. intros _.
  constructor; [|by apply (IH r)]. split; [|done]. cbn. unfold key_why in E.
  destruct (str_in k WIDENABLE) eqn:Hk; [by apply str_in_In in Hk|done].
Qed.

(** ** At concrete inputs *)

Definition widen_doc : OwnerDocInput :=
  {| d_act := WidenEnvelope; d_host := "h_0123456789"; d_version := Some (JInt 3); d_issued_at := "2026-10-06T14:00:00.000Z";
     d_not_after := "2026-10-06T15:00:00.000Z"; d_by := "ana"; d_rp_id := None; d_origin := None;
     d_envelope := Some (JObj [("max_units", JInt 12); ("emulate", JArr [JStr "x86_64"]); ("paths", JArr [JStr "/srv/pool"])]);
     d_seal_key := None; d_keys := None |}.
Lemma owner_document_is_its_bytes_witness :
  readOwnerDoc (Some (JStr (ownerDoc widen_doc))) = Some widen_doc
  /\ readOwnerDoc (Some (JStr (ownerDoc widen_doc +:+ " "))) = None.
Proof.
  split; [|vm_compute; reflexivity].
  apply (proj2 (owner_document_is_its_bytes (ownerDoc widen_doc) widen_doc)). split; [reflexivity|]. split; [vm_compute; reflexivity|].
  vm_compute. discriminate.
Defined.
Example widening_accepts : exists out, widening (d_envelope widen_doc) = inl out.
Proof. eexists. vm_compute. reflexivity. Qed.
Example widening_refuses : widening (Some (JObj [("max_units", JInt 0)])) = inr "envelope.max_units: a whole number from 1 to 4096, or null for none".
Proof. vm_compute. reflexivity. Qed.
