(* ===== verification/HostFacts.v ===== *)
(** * What holds of a host's report, key and request

    The units are the most that fit; a checked report is well formed; the sandbox reads
    back; the words a host signs determine the request; an agent's header reads as it wrote it. *)
From S2P Require Import Prelude JsTime TextFacts Json JsonText JsonFacts Manifest Selection Bytes Update WebAuthn WebAuthnFacts HostCapacity HostKeys.
Local Open Scope string_scope.
Local Open Scope Z_scope.

(** ** The units *)

Lemma pow10_pos s : 0 < 10 ^ Z.of_nat s. Proof. apply Z.pow_pos_nonneg; lia. Qed.
(** [q >= z] on a decimal, in integers. *)
Lemma floor_at_least n z w : (z <= Qfloor ((num_q n - inject_Z w) / inject_Z 2)) <-> num_below n (z * 2 + w) = false.
Proof.
  unfold num_below, num_q, num_Q. rewrite Z.ltb_ge. pose proof (pow10_pos (ns n)) as Hp.
  set (p := 10 ^ Z.of_nat (ns n)) in *.
  assert (E : ((nm n # Z.to_pos p) - inject_Z w) / inject_Z 2 == (nm n - w * p) # Z.to_pos (2 * p)).
  { unfold Qeq, Qdiv, Qminus, Qplus, Qopp, Qmult, Qinv, inject_Z. cbn [Qnum Qden]. rewrite !Pos2Z.inj_mul, !Z2Pos.id by lia. lia. }
  rewrite (Qfloor_comp _ _ E). unfold Qfloor. rewrite Z2Pos.id by lia. split.
  - intros H. pose proof (Z.mul_div_le (nm n - w * p) (2 * p) ltac:(lia)). nia.
  - intros H. apply Z.div_le_lower_bound; nia.
Qed.

Definition checked_nat (o : option Z) (hi : Z) : bool := match o with Some n => (0 <=? n) && (n <=? hi) | None => true end.
Definition num_in (n : Num) (hi : Z) : bool := (0 <=? nm n) && (nm n <=? hi * 10 ^ Z.of_nat (ns n)).
Definition held_ok (h : HeldLane) : bool := str_in (hl_arch h) ARCHES && sized 1 HELD_REASON_MAX (hl_reason h).
(** A report the pool has checked. *)
Definition well_formed (c : Capacity) : bool :=
  (1 <=? cap_cpus c) && (cap_cpus c <=? 4096) && num_in (cap_mem_gb c) (2 ^ 20)
  && num_in (df_work (cap_disk c)) (2 ^ 30) && num_in (df_engine (cap_disk c)) (2 ^ 30)
  && (length (cap_lanes c) <=? 4)%nat && (length (natives (cap_lanes c)) =? 1)%nat
  && forallb (fun l => str_in (ln_arch l) ARCHES) (cap_lanes c)
  && (length (cap_held_lanes c) <=? 4)%nat && forallb held_ok (cap_held_lanes c)
  && checked_nat (cap_agent_slots c) 64 && checked_nat (cap_units c) 4096
  && match cap_sandbox c with Some (Some s) => RUNTIME_NAME (sb_runtime s) && str_in (sb_kind s) SANDBOX_KINDS | _ => true end
  && match cap_sandbox_held c with Some h => sized 1 HELD_REASON_MAX h | None => true end.

Lemma num_checked v hi n : num v 0 hi = Some n -> num_in n hi = true.
Proof.
  unfold num, num_in. destruct v as [[| |m s| | |]|]; try done. destruct (_ && _) eqn:E; [|done]. intros [= <-]. cbn [nm ns].
  breflect. apply andb_true_iff. rewrite !Z.leb_le. nia.
Qed.
Lemma int_checked v lo hi n : int v lo hi = Some n -> lo <= n <= hi.
Proof. unfold int. intros H. apply bind_Some in H as (m & _ & H). destruct (_ && _) eqn:E; [|done]. injection H as ->. breflect. lia. Qed.
Lemma int_nat v hi : checked_nat (int v 0 hi) hi = true.
Proof.
  unfold checked_nat. destruct (int v 0 hi) as [n|] eqn:E; [|done]. apply int_checked in E. apply andb_true_iff. rewrite !Z.leb_le. lia.
Qed.
Lemma one_of_checked l v s : one_of l v = Some s -> str_in s l = true.
Proof. unfold one_of. intros H. apply bind_Some in H as (x & _ & H). destruct (str_in x l) eqn:E; [|done]. by injection H as <-. Qed.
Lemma str_take_length n s : (String.length (str_take n s) <= n)%nat.
Proof. revert s. induction n as [|n IH]; intros [|c s]; cbn; try lia. specialize (IH s). lia. Qed.
Lemma str_take_truthy n s : (0 < n)%nat -> truthy s = true -> truthy (str_take n s) = true.
Proof. destruct n; [lia|]. by destruct s. Qed.
Lemma reason_max_pos : (0 < HELD_REASON_MAX)%nat. Proof. unfold HELD_REASON_MAX. lia. Qed.
#[local] Opaque HELD_REASON_MAX.
Lemma sized_truthy hi s : truthy s = true -> (String.length s <= hi)%nat -> sized 1 hi s = true.
Proof. intros Ht Hl. unfold sized. apply andb_true_iff. split; apply Nat.leb_le; [|done]. destruct s; [done|cbn; lia]. Qed.
Lemma reason_checked v s : reason_cut v = Some s -> sized 1 HELD_REASON_MAX s = true.
Proof.
  unfold reason_cut. intros H. apply bind_Some in H as (x & _ & H). destruct (truthy (trim x)) eqn:E; [|done]. injection H as <-.
  apply sized_truthy; [apply str_take_truthy; [apply reason_max_pos|done]|apply str_take_length].
Qed.
Lemma lanes_checked l r : lanes_of l = Some r -> length r = length l /\ forallb (fun l => str_in (ln_arch l) ARCHES) r = true.
Proof.
  revert r. induction l as [|x l IH]; intros r; cbn [lanes_of]; [by intros [= <-]|].
  intros H. apply bind_Some in H as (y & Hy & H). apply bind_Some in H as (r' & Hr & [= <-]).
  destruct (IH _ Hr) as [Hl Hf]. cbn [length forallb]. rewrite Hl, Hf. split; [done|].
  unfold lane_of in Hy. apply bind_Some in Hy as (a & Ha & Hy). apply bind_Some in Hy as (m & _ & [= <-]). cbn [ln_arch].
  by rewrite (one_of_checked _ _ _ Ha).
Qed.
Lemma held_checked l : forallb held_ok (omap held_lane_of l) = true.
Proof.
  induction l as [|x l IH]; [done|]. cbn [omap list_omap]. destruct (held_lane_of x) as [h|] eqn:E; [|exact IH]. cbn [forallb]. apply andb_true_iff. split; [|exact IH].
  unfold held_lane_of in E. apply bind_Some in E as (a & Ha & E). apply bind_Some in E as (s & Hs & [= <-]). unfold held_ok. cbn [hl_arch hl_reason].
  by rewrite (one_of_checked _ _ _ Ha), (reason_checked _ _ Hs).
Qed.
Lemma omap_length {A B} (f : A -> option B) l : (length (omap f l) <= length l)%nat.
Proof. induction l as [|x l IH]; [done|]. cbn. destruct (f x); cbn; lia. Qed.
Lemma sandbox_checked v s : sandbox_of v = Some (Some s) -> RUNTIME_NAME (sb_runtime s) = true /\ str_in (sb_kind s) SANDBOX_KINDS = true.
Proof.
  intros H. assert (H' : (n ← as_str (field v "runtime"); k ← one_of SANDBOX_KINDS (field v "kind");
      if RUNTIME_NAME n then Some (Some {| sb_runtime := n; sb_kind := k |}) else None) = Some (Some s)).
  { unfold sandbox_of in H. by destruct v as [[]|]. }
  apply bind_Some in H' as (n & _ & H'). apply bind_Some in H' as (k & Hk & H'). destruct (RUNTIME_NAME n) eqn:E; [|done].
  injection H' as <-. split; [done|]. exact (one_of_checked _ _ _ Hk).
Qed.

(** C39: a capacity report the pool takes is well formed, whatever text it came as: its totals in
    range, one to four lanes of the two architectures with exactly one native, the held lanes and their
    reasons cut, its slots and units bounded, a sandbox the engine can name. *)
Theorem taken_report_is_well_formed v c : parseCapacity v = inl c -> well_formed c = true.
Proof.
  unfold parseCapacity. intros H. repeat (case_match; try discriminate H). injection H as <-.
  unfold well_formed. cbn [cap_cpus cap_mem_gb cap_disk df_work df_engine cap_lanes cap_held_lanes cap_agent_slots cap_units cap_sandbox cap_sandbox_held].
  repeat match goal with
    | E : num _ 0 _ = Some _ |- _ => apply num_checked in E; rewrite E; clear E
    | E : int _ 1 _ = Some _ |- _ => apply int_checked in E; let E1 := fresh in let E2 := fresh in destruct E as [E1 E2]; apply Z.leb_le in E1, E2; rewrite E1, E2; clear E1 E2
    end.
  repeat match goal with
    | E : lanes_of _ = Some _ |- _ => apply lanes_checked in E as [? E]; rewrite E; clear E
    | E : negb _ = false |- _ => apply negb_false_iff in E; rewrite ?E
    end.
  rewrite held_checked, !int_nat. cbn [andb].
  assert (Hl : forall l : list json, (length (omap held_lane_of (firstn 4 l)) <=? 4)%nat = true).
  { intros ls. apply Nat.leb_le. pose proof (omap_length held_lane_of (firstn 4 ls)).
    rewrite firstn_length in *. lia. }
  rewrite Hl. repeat (apply andb_true_intro; split); try done.
  - apply Nat.leb_le. match goal with E : (4 <? _)%nat = false |- _ => apply Nat.ltb_ge in E end. lia.
  - destruct (sandbox_of _) as [[x|]|] eqn:E; try done. apply andb_true_iff. exact (sandbox_checked _ _ E).
  - destruct (reason_cut _) as [x|] eqn:E; [|done]. exact (reason_checked _ _ E).
Qed.

(** What the machine holds: a unit's CPUs and memory for each of [u], beside what the host keeps. *)
Definition fits_machine (c : Capacity) (u : Z) : bool :=
  (u * cpus UNIT + cpus RESERVE <=? cap_cpus c) && negb (num_below (cap_mem_gb c) (u * mem_gb UNIT + mem_gb RESERVE)).
Definition within_declared (c : Capacity) (u : Z) : bool := match cap_units c with Some n => u <=? n | None => true end.

Lemma by_cpu_iff c u : u <= byCpu c <-> u * cpus UNIT + cpus RESERVE <= cap_cpus c.
Proof. unfold byCpu, cpus, UNIT, RESERVE. rewrite Z.div_1_r. lia. Qed.
Lemma by_mem_iff c u : u <= byMem c <-> num_below (cap_mem_gb c) (u * mem_gb UNIT + mem_gb RESERVE) = false.
Proof. apply floor_at_least. Qed.
Lemma units_declared v c : parseCapacity v = inl c -> checked_nat (cap_units c) 4096 = true.
Proof. unfold parseCapacity. intros H. repeat (case_match; try discriminate H). injection H as <-. apply int_nat. Qed.

(** the units the pool counts on a host are the most that fit: a count of units is at most [unitsOf]
    exactly when the machine's CPUs and memory hold it beside what the host keeps (or it is none), and
    the host declared that many. A host at the minimum to join that declares none has at least the
    units of a build of size one and the one kept for pool jobs. *)
Theorem units_are_the_most_that_fit v c u :
  parseCapacity v = inl c -> 0 <= u ->
  (u <= unitsOf c <-> ((u = 0 \/ fits_machine c u = true) /\ within_declared c u = true))
  /\ (belowMinimum c MIN_HOST = None -> cap_units c = None -> build_per_size TASK_UNITS + job_reserved TASK_UNITS <= unitsOf c).
Proof.
  intros Hv Hu. apply units_declared in Hv. unfold checked_nat in Hv.
  assert (Hf : fits_machine c u = true <-> u <= byCpu c /\ u <= byMem c).
  { unfold fits_machine. by rewrite by_cpu_iff, by_mem_iff, andb_true_iff, negb_true_iff, Z.leb_le. }
  split.
  - rewrite Hf. unfold unitsOf, within_declared. destruct (cap_units c) as [n|]; [|lia]. breflect. rewrite Z.leb_le. lia.
  - intros Hm Hn. unfold unitsOf. rewrite Hn. change (build_per_size TASK_UNITS + job_reserved TASK_UNITS) with 3.
    unfold belowMinimum, short_of in Hm. destruct (num_below (NInt (cap_cpus c)) (min_cpus MIN_HOST)) eqn:Hc; [done|].
    destruct (num_below (cap_mem_gb c) (min_mem_gb MIN_HOST)) eqn:Hg; [done|].
    apply (by_mem_iff c 3) in Hg. unfold num_below in Hc. apply Z.ltb_ge in Hc. cbn in Hc.
    assert (3 <= byCpu c) by (apply by_cpu_iff; cbn; lia). lia.
Qed.

(** ** The sandbox reads back *)

Lemma sandbox_json_back c v s : parseCapacity v = inl c -> cap_sandbox c = Some s -> sandbox_of (Some (sandbox_json s)) = Some s.
Proof.
  intros Hv Hs. destruct s as [s|]; [|done]. assert (H : exists v, sandbox_of v = Some (Some s)).
  { revert Hv. unfold parseCapacity. intros H. repeat (case_match; try discriminate H). injection H as <-. by eexists. }
  destruct H as [w H]. apply sandbox_checked in H as [H1 H2]. unfold sandbox_json, sandbox_of. cbn [field assoc as_str String.eqb Ascii.eqb Bool.eqb].
  cbn -[RUNTIME_NAME SANDBOX_KINDS str_in]. rewrite H2. cbn -[RUNTIME_NAME]. rewrite H1. by destruct s.
Qed.
Lemma reason_shape v s : reason_cut v = Some s -> no_space_first s = true /\ truthy s = true /\ (String.length s <= HELD_REASON_MAX)%nat.
Proof.
  unfold reason_cut. intros H. apply bind_Some in H as (x & _ & H). destruct (truthy (trim x)) eqn:E; [|done]. injection H as <-.
  pose proof (trim_first x) as Hf. split; [|split; [apply str_take_truthy; [apply reason_max_pos|done]|apply str_take_length]].
  destruct (trim x) as [|c t]; [done|]. pose proof reason_max_pos. destruct HELD_REASON_MAX; [lia|]. exact Hf.
Qed.
Lemma reason_again v s : reason_cut v = Some s -> reason_cut (Some (JStr s)) = Some (trim s).
Proof.
  intros H. destruct (reason_shape _ _ H) as (Hf & Ht & Hl). destruct (first_trim s Hf Ht) as [Ht' E].
  unfold reason_cut. cbn [as_str mbind option_bind]. rewrite Ht'. f_equal. apply str_take_all. rewrite E.
  pose proof (trim_end_length s). lia.
Qed.
Lemma held_source v c : parseCapacity v = inl c -> cap_sandbox_held c = reason_cut (field v "sandbox_held").
Proof. unfold parseCapacity. intros H. repeat (case_match; try discriminate H). by injection H as <-. Qed.

Lemma around_reads sandbox held s :
  sandbox_of (Some sandbox) = Some s ->
  exists c, parseCapacity (Some (around (Some sandbox) held)) = inl c /\ cap_sandbox c = Some s /\ cap_sandbox_held c = reason_cut held.
Proof.
  intros Hs. destruct held as [held|]; eexists; (split; [|split]).
  - unfold parseCapacity, around. cbn -[sandbox_of reason_cut]. reflexivity.
  - cbn -[sandbox_of]. exact Hs.
  - reflexivity.
  - unfold parseCapacity, around. cbn -[sandbox_of reason_cut]. reflexivity.
  - cbn -[sandbox_of]. exact Hs.
  - reflexivity.
Qed.
Lemma applied_fields s held :
  field (Some (applied_json s held)) "sandbox" = Some (sandbox_json s)
  /\ field (Some (applied_json s held)) "held" = match held with Some h => if truthy h then Some (JStr h) else None | None => None end.
Proof. unfold applied_json. destruct held as [h|]; [destruct (truthy h)|]; split; reflexivity. Qed.
Lemma applied_ok s held : json_ok (applied_json s held) = true.
Proof. destruct s, held as [h|]; unfold applied_json; try destruct (truthy h); reflexivity. Qed.

(** what a claim said of its sandbox is what the pool's pages read: the column a checked report's
    word is kept in reads back as the same runtime or none, with the reason its claims hold for it,
    trimmed again where the cut left a space at its end. *)
Theorem sandbox_reads_back v c t :
  parseCapacity v = inl c -> sandboxApplied (Some c) = Some t ->
  exists s, cap_sandbox c = Some s /\ sandboxAppliedOf (Some t) = Some {| sa_sandbox := s; sa_held := trim <$> cap_sandbox_held c |}.
Proof.
  intros Hv H. unfold sandboxApplied in H. cbn [mbind option_bind] in H. destruct (cap_sandbox c) as [s|] eqn:Hs; [|done].
  change (Some (json_text (applied_json s (cap_sandbox_held c))) = Some t) in H.
  assert (Ht : json_text (applied_json s (cap_sandbox_held c)) = t) by congruence. exists s. split; [done|]. pose proof (sandbox_json_back _ _ _ Hv Hs) as Hb.
  pose proof (held_source _ _ Hv) as Hh. pose proof (json_round_trip _ (applied_ok s (cap_sandbox_held c))) as Hj. rewrite Ht in Hj.
  assert (Hn : truthy t = true) by (by rewrite <- Ht).
  unfold sandboxAppliedOf. cbn [mbind option_bind]. rewrite Hn. cbn [negb]. rewrite Hj. cbn [mbind option_bind].
  destruct (applied_fields s (cap_sandbox_held c)) as [F1 F2]. unfold applied_json at 1. rewrite F1, F2.
  destruct (around_reads (sandbox_json s) (match cap_sandbox_held c with Some h => if truthy h then Some (JStr h) else None | None => None end) s Hb)
    as (c' & -> & Hs' & Hh').
  rewrite Hs', Hh'. cbn [mbind option_bind]. do 2 f_equal. destruct (cap_sandbox_held c) as [h|] eqn:Hc; [|done]. symmetry in Hh.
  destruct (reason_shape _ _ Hh) as (_ & -> & _). by rewrite (reason_again _ _ Hh).
Qed.

(** ** Decimal text *)

Lemma dec_acc_digits s acc n : dec_acc acc s = match read_digits acc n s with (v, _, EmptyString) => Some v | _ => None end.
Proof.
  revert acc n. induction s as [|c s IH]; intros acc n; [done|]. cbn [dec_acc read_digits]. destruct (is_digit c); [apply IH|done].
Qed.
Lemma read_digits_all s acc n v k : read_digits acc n s = (v, k, "") -> str_forallb is_digit s = true.
Proof.
  revert acc n. induction s as [|c s IH]; intros acc n; [done|]. cbn [read_digits str_forallb]. destruct (is_digit c) eqn:E; [|done].
  apply IH.
Qed.
Lemma zstr_reads z : 0 <= z -> exists n, read_digits 0 0 (zstr z) = (z, S n, "").
Proof. intros Hz. destruct (read_digits_zstr z "" Hz eq_refl) as (n & H & _). rewrite app_nil_s in H. by exists n. Qed.
Lemma zstr_digits z : 0 <= z -> str_forallb is_digit (zstr z) = true.
Proof. intros Hz. destruct (zstr_reads z Hz) as (n & H). by apply read_digits_all in H. Qed.
Lemma dec_zstr z : 0 <= z -> dec (zstr z) = Some z.
Proof.
  intros Hz. destruct (zstr_reads z Hz) as (n & H). unfold dec. destruct (zstr z) as [|c s] eqn:E; [done|].
  by rewrite (dec_acc_digits _ _ 0), H.
Qed.
Lemma zstr_inj a b : 0 <= a -> 0 <= b -> zstr a = zstr b -> a = b.
Proof. intros Ha Hb H. apply dec_zstr in Ha, Hb. congruence. Qed.

(** ** What is signed *)

Definition one_line : string -> bool := lacks (ascii_of_nat 10).
Lemma digits_one_line s : str_forallb is_digit s = true -> one_line s = true.
Proof. apply str_forallb_weaken. intros [[] [] [] [] [] [] [] []]; done. Qed.

(** a signature is good for one request: the words a host signs determine its id, the method, the
    path, the body's digest, the time and the nonce — none of a line's end —, and they are never the
    words of an enrollment, whatever the token and the key. *)
Theorem signed_words_are_one_request host method path body ts nonce host' method' path' body' ts' nonce' :
  forallb one_line [host; method; path; body; host'; method'; path'; body'] = true -> 0 <= ts -> 0 <= ts' ->
  (signedMessage host method path body ts nonce = signedMessage host' method' path' body' ts' nonce'
   <-> (host, method, path, body, ts, nonce) = (host', method', path', body', ts', nonce'))
  /\ forall token pubkey, signedMessage host method path body ts nonce <> enrollMessage token pubkey.
Proof.
  intros Hl Ht Ht'. split; [|intros token pubkey H; discriminate H]. cbn [forallb] in Hl.
  repeat (apply andb_true_iff in Hl as [? Hl]). split; [|by intros [= -> -> -> -> -> ->]].
  unfold signedMessage. intros Hm. apply sapp_inj, sapp_inj in Hm.
  apply (cut_inj (ascii_of_nat 10) host host') in Hm as [<- Hm]; [|done|done].
  apply (cut_inj (ascii_of_nat 10) method method') in Hm as [<- Hm]; [|done|done].
  apply (cut_inj (ascii_of_nat 10) path path') in Hm as [<- Hm]; [|done|done].
  apply (cut_inj (ascii_of_nat 10) body body') in Hm as [<- Hm]; [|done|done].
  apply (cut_inj (ascii_of_nat 10) (zstr ts) (zstr ts')) in Hm as [E <-]; [|by apply digits_one_line, zstr_digits..].
  by apply zstr_inj in E as <-.
Qed.

(** ** The header *)

(** What an agent sends. *)
Definition header_text (h : HostHeader) : string :=
  hh_host h +:+ "; ts=" +:+ zstr (hh_ts h) +:+ "; nonce=" +:+ hh_nonce h +:+ "; sig=" +:+ hh_sig h.
Definition header_ok (h : HostHeader) : bool :=
  HOST_ID (hh_host h) && (0 <=? hh_ts h) && sized 1 12 (zstr (hh_ts h)) && all_sized is_hex_lower 32 32 (hh_nonce h)
  && all_sized url_char 86 86 (hh_sig h).

Definition plain_char (c : ascii) : bool := negb (Ascii.eqb c ";") && negb (is_space c).
Lemma plain_lacks s : str_forallb plain_char s = true -> lacks ";" s = true.
Proof. apply str_forallb_weaken. intros c. unfold plain_char. by intros [H _]%andb_true_iff. Qed.
Lemma plain_spaces s : str_forallb plain_char s = true -> str_forallb (fun c => negb (is_space c)) s = true.
Proof. apply str_forallb_weaken. intros c. unfold plain_char. by intros [_ H]%andb_true_iff. Qed.
Lemma plain_of p s : (forall c, p c = true -> plain_char c = true) -> str_forallb p s = true -> str_forallb plain_char s = true.
Proof. apply str_forallb_weaken. Qed.

(** A part after the host's: a space, its name, ["="] and its value. *)
Lemma part_reads k v : str_forallb plain_char k = true -> str_forallb plain_char v = true ->
  lacks ";" (String " " (k +:+ String "=" v)) = true /\ trim (String " " (k +:+ String "=" v)) = k +:+ String "=" v.
Proof.
  intros Hk Hv. assert (Hp : str_forallb plain_char (k +:+ String "=" v) = true).
  { rewrite str_forallb_app, Hk. exact Hv. }
  split; [exact (plain_lacks _ Hp)|]. change (trim (String " " (k +:+ String "=" v))) with (trim (k +:+ String "=" v)).
  apply trim_none. by apply plain_spaces.
Qed.
Lemma host_id_plain s : HOST_ID s = true -> str_forallb plain_char s = true.
Proof.
  unfold HOST_ID. destruct s as [|a [|b r]]; try done. intros H. breflect. unfold all_sized in *. breflect.
  apply Ascii.eqb_eq in H, H1. subst. cbn [str_forallb]. revert H0. apply plain_of. intros [[] [] [] [] [] [] [] []]; done.
Qed.

(** an agent's header reads as it wrote it: the host's id, the time, the nonce and the signature,
    whatever the values of their forms. *)
Theorem host_header_reads_back h : header_ok h = true -> slen (header_text h) <= 300 -> parseHostHeader (Some (header_text h)) = Some h.
Proof.
  unfold header_ok. intros H Hl. repeat (apply andb_true_iff in H as [H ?]). breflect.
  pose proof (host_id_plain _ H) as Ph.
  assert (Pt : str_forallb plain_char (zstr (hh_ts h)) = true)
    by (apply (plain_of is_digit); [intros [[] [] [] [] [] [] [] []]; done|by apply zstr_digits]).
  assert (Pn : str_forallb plain_char (hh_nonce h) = true).
  { unfold all_sized in *. breflect. apply (plain_of is_hex_lower); [intros [[] [] [] [] [] [] [] []]; done|done]. }
  assert (Ps : str_forallb plain_char (hh_sig h) = true).
  { unfold all_sized in *. breflect. apply (plain_of url_char); [intros [[] [] [] [] [] [] [] []]; done|done]. }
  assert (Hsplit : map trim (split_on ";" (header_text h)) =
    [hh_host h; "ts" +:+ String "=" (zstr (hh_ts h)); "nonce" +:+ String "=" (hh_nonce h); "sig" +:+ String "=" (hh_sig h)]).
  { destruct (part_reads "ts" _ eq_refl Pt) as [L1 T1], (part_reads "nonce" _ eq_refl Pn) as [L2 T2], (part_reads "sig" _ eq_refl Ps) as [L3 T3].
    transitivity (map trim [hh_host h; String " " ("ts" +:+ String "=" (zstr (hh_ts h)));
      String " " ("nonce" +:+ String "=" (hh_nonce h)); String " " ("sig" +:+ String "=" (hh_sig h))]).
    - f_equal. rewrite <- (split_none _ _ L3).
      change (header_text h) with (hh_host h +:+ String ";" (String " " ("ts" +:+ String "=" (zstr (hh_ts h))) +:+ String ";"
        (String " " ("nonce" +:+ String "=" (hh_nonce h)) +:+ String ";" (String " " ("sig" +:+ String "=" (hh_sig h)))))).
      rewrite split_cons by (by apply plain_lacks). by rewrite !split_cons.
    - cbn [map]. by rewrite T1, T2, T3, (trim_none _ (plain_spaces _ Ph)). }
  unfold parseHostHeader. rewrite Hsplit. apply Z.ltb_ge in Hl. rewrite Hl.
  destruct (hh_host h) as [|c r] eqn:Eh; [done|]. replace (truthy (header_text h)) with true by (unfold header_text; by rewrite Eh).
  cbn [negb orb]. rewrite H. cbn [negb].
  assert (Hf : header_fields ["ts" +:+ String "=" (zstr (hh_ts h)); "nonce" +:+ String "=" (hh_nonce h); "sig" +:+ String "=" (hh_sig h)] []
    = Some [("ts", zstr (hh_ts h)); ("nonce", hh_nonce h); ("sig", hh_sig h)]) by reflexivity.
  rewrite Hf. cbn [mbind option_bind assoc String.eqb Ascii.eqb Bool.eqb default from_option id].
  assert (Hd : all_sized is_digit 1 12 (zstr (hh_ts h)) = true) by (unfold all_sized; by rewrite zstr_digits, H2).
  rewrite Hd, H1, H0. cbn [andb]. rewrite dec_zstr by done.
  cbn [mbind option_bind]. rewrite <- Eh. by destruct h.
Qed.

(** ** At concrete inputs *)

Definition a_report : json := JObj
  [("cpus", JInt 12); ("mem_gb", JNum 325 1); ("disk_free_gb", JObj [("work", JInt 200); ("engine", JInt 100)]);
   ("lanes", JArr [JObj [("arch", JStr "aarch64"); ("mode", JStr "native")]]); ("units", JInt 8);
   ("sandbox", JObj [("runtime", JStr "runsc"); ("kind", JStr "gvisor")]); ("sandbox_held", JStr "its start was refused ")].
Definition a_capacity : Capacity :=
  {| cap_cpus := 12; cap_mem_gb := {| nm := 325; ns := 1 |}; cap_disk := {| df_work := NInt 200; df_engine := NInt 100 |};
     cap_lanes := [{| ln_arch := "aarch64"; ln_mode := native; ln_via := None; ln_page16k := None |}]; cap_held_lanes := [];
     cap_agent_slots := None; cap_units := Some 8; cap_sandbox := Some (Some {| sb_runtime := "runsc"; sb_kind := "gvisor" |});
     cap_sandbox_held := Some "its start was refused" |}.
Lemma a_report_read : parseCapacity (Some a_report) = inl a_capacity. Proof. vm_compute. reflexivity. Qed.

Lemma taken_report_is_well_formed_witness : parseCapacity (Some a_report) = inl a_capacity /\ well_formed a_capacity = true.
Proof. split; [exact a_report_read|]. apply (taken_report_is_well_formed (Some a_report)). exact a_report_read. Defined.

(** Eleven by its CPUs, fifteen by its memory, eight it declares. *)
Lemma units_are_the_most_that_fit_witness : 8 <= unitsOf a_capacity /\ ~ 9 <= unitsOf a_capacity.
Proof.
  split.
  - apply (proj1 (units_are_the_most_that_fit (Some a_report) a_capacity 8 a_report_read ltac:(lia))). split; [right|]; vm_compute; reflexivity.
  - intros H. apply (proj1 (units_are_the_most_that_fit (Some a_report) a_capacity 9 a_report_read ltac:(lia))) in H as [_ H].
    vm_compute in H. discriminate H.
Defined.

Lemma sandbox_reads_back_witness :
  exists t s, sandboxApplied (Some a_capacity) = Some t /\ cap_sandbox a_capacity = Some s
  /\ sandboxAppliedOf (Some t) = Some {| sa_sandbox := s; sa_held := Some "its start was refused" |}.
Proof.
  destruct (sandbox_reads_back (Some a_report) a_capacity _ a_report_read eq_refl) as (s & Hs & H).
  eexists. exists s. split; [reflexivity|]. split; [exact Hs|exact H].
Defined.

Lemma signed_words_are_one_request_witness :
  signedMessage "h_0123456789" "POST" "/hosts/self/token" "00" 1700000000 "aa" <> signedMessage "h_0123456789" "POST" "/hosts/self/report" "00" 1700000000 "aa".
Proof.
  intros H. apply (proj1 (signed_words_are_one_request "h_0123456789" "POST" "/hosts/self/token" "00" 1700000000 "aa"
    "h_0123456789" "POST" "/hosts/self/report" "00" 1700000000 "aa" ltac:(vm_compute; reflexivity) ltac:(lia) ltac:(lia))) in H.
  discriminate H.
Defined.

Definition a_header : HostHeader :=
  {| hh_host := "h_0123456789"; hh_ts := 1700000000; hh_nonce := "0123456789abcdef0123456789abcdef"; hh_sig := base36s (repeat 7 86) |}.
Lemma host_header_reads_back_witness : parseHostHeader (Some (header_text a_header)) = Some a_header.
Proof. apply host_header_reads_back; [vm_compute; reflexivity|vm_compute; discriminate]. Defined.
