(* ===== verification/HostRights.v ===== *)
(** * Who may do what to a host (worker/src/routes/hosts.ts hostVerdicts)

    One table of rights, read by the doors that act and by the page's buttons. A host is
    owned by a GitHub user id: a renamed owner is still its owner, and a login someone
    else took is not. *)
From S2P Require Import Prelude JsTime Json JsonText HostCapacity HostReport.
Local Open Scope string_scope.
Local Open Scope Z_scope.

Record HostViewer := { hv_login : string; hv_maintainer : bool; hv_github_id : option Z }.
(** A host's row as the verdicts read it. *)
Record HostShown := {
  hs_name : string; hs_status : string; hs_owner_login : string; hs_owner_github_id : Z; hs_agent_version : option string;
  hs_report : option string; hs_pool_cap_units : option Z; hs_drained_at : option string }.
Inductive HostRight :=
  Rsuspend | Rresume | Rretire | Rcap | Rreconcile | Rretire_legacy | Rsettings | Rrotate_token | Rretry_release | Rdiagnostics
| Rowner | Rpins.
Inductive HostVerdict := Yes | No (status : Z) (why : string).
Definition is_yes (x : HostVerdict) : bool := match x with Yes => true | No _ _ => false end.

Definition SIGN_IN : string := "sign in with GitHub".
Definition isOwner (v : HostViewer) (h : HostShown) : bool :=
  match hv_github_id v with Some g => g =? hs_owner_github_id h | None => false end.

(** [a ?? b ?? … ?? { ok: true }] *)
Fixpoint unless (l : list (option HostVerdict)) : HostVerdict :=
  match l with [] => Yes | Some x :: _ => x | None :: l' => unless l' end.
Definition no_when (b : bool) (status : Z) (why : string) : option HostVerdict := if b then Some (No status why) else None.

Section Verdicts.
Context (v : HostViewer) (h : HostShown).
Let n := hs_name h.
Let o := hs_owner_login h.
Let st := hs_status h.
Let owner := isOwner v h.
Let stranger := negb owner && negb (hv_maintainer v).
Let agent := default "unknown" (hs_agent_version h).

Definition theirs : option HostVerdict := no_when stranger 403 ("only " +:+ o +:+ " or a maintainer stops " +:+ n).
Definition gone : option HostVerdict := no_when (String.eqb st "retired") 409 (n +:+ " is retired: a new install enrolls a new host").
Definition waits : string := n +:+ " waits for its owner's Confirm: it ".
Definition takes : option HostVerdict :=
  if negb (String.eqb st "active") then
    Some (No 409 (if String.eqb st "pending-owner" then waits +:+ "runs nothing yet" else n +:+ " is " +:+ st +:+ ": its agent takes no order"))
  else no_when (negb (agentTakesOrders (hs_agent_version h))) 409
         ("its agent (" +:+ agent +:+ ") takes no host order: agent " +:+ HOST_ORDERS_AGENT
          +:+ " or later does, and a release brings it by itself; Update on its registration's page reconciles it meanwhile").
Definition legacy : option LegacySet := legacyOf (hs_report h).
Definition legacyWhy : option HostVerdict :=
  match legacy with
  | None => Some (No 409 (n +:+ " reports no legacy set: an install with --legacy records one"))
  | Some l =>
      let set := n +:+ "'s legacy set " +:+ lg_project l in
      let words (o : option string) := match o with Some s => truthy s | None => false end in
      if String.eqb (lg_state l) "retired" then
        Some (No 409 (set +:+ " was retired already" +:+ (if words (lg_since l) then " (" +:+ default "" (lg_since l) +:+ ")" else "")))
      else if String.eqb (lg_state l) "retiring" then Some (No 409 (set +:+ " is being retired (" +:+ default "an order" (lg_order l) +:+ ")"))
      else no_when (words (lg_blocked l)) 409 (n +:+ "'s agent would refuse it: " +:+ default "" (lg_blocked l))
  end.
Definition p4 : HostVerdict :=
  unless [no_when stranger 403 ("only " +:+ o +:+ " or a maintainer gives " +:+ n +:+ " its settings and orders"); takes;
          no_when (negb (agentTakesSettings (hs_agent_version h))) 409
            ("its agent (" +:+ agent +:+ ") takes no settings or P4 orders: agent " +:+ HOST_SETTINGS_AGENT
             +:+ " or later does, and a release brings it by itself")].

Definition suspend_verdict : HostVerdict :=
  unless [theirs; gone; no_when (String.eqb st "suspended") 409 (n +:+ " is suspended already — its owner's Resume ends it");
          no_when (negb (String.eqb st "active")) 409 (waits +:+ "claims nothing yet")].
Definition resume_verdict : HostVerdict :=
  unless [gone; no_when (negb (String.eqb st "suspended")) 409 (n +:+ " is not suspended: there is nothing to resume");
          no_when (negb owner) 403 ("only " +:+ o +:+ " resumes " +:+ n +:+ ", with their passkey");
          no_when (negb (hv_maintainer v)) 403 (OWNER_NOT_MAINTAINER +:+ ": " +:+ n +:+ " stays suspended")].
Definition legacy_verdict : HostVerdict :=
  unless [no_when (negb owner) 403 ("only " +:+ o +:+ " retires the legacy set of " +:+ n +:+ ", with their passkey");
          no_when (negb (hv_maintainer v)) 403 (OWNER_NOT_MAINTAINER +:+ ": " +:+ n +:+ "'s legacy set stays"); takes; legacyWhy].
Definition owner_verdict : HostVerdict :=
  unless [no_when (negb owner) 403 ("only " +:+ o +:+ " widens " +:+ n +:+ "'s envelope and sets its agent keys, with the passkey pinned at the host");
          no_when (negb (hv_maintainer v)) 403 (OWNER_NOT_MAINTAINER +:+ ": " +:+ n +:+ "'s envelope and keys stay as they are"); takes;
          no_when (negb (agentTakesOwner (hs_agent_version h))) 409
            ("its agent (" +:+ agent +:+ ") takes no signed widening or sealed key: agent " +:+ HOST_OWNER_AGENT
             +:+ " or later does, and a release brings it by itself")].
Definition pins_verdict : HostVerdict :=
  unless [no_when stranger 403 ("only " +:+ o +:+ " or a maintainer moves pinned tasks onto " +:+ n);
          no_when (negb (String.eqb st "active")) 409
            (if String.eqb st "pending-owner" then waits +:+ "has no registration to take them yet" else n +:+ " is " +:+ st +:+ ": it claims nothing");
          no_when (match legacy with None => true | Some _ => false end) 409
            (n +:+ " reports no legacy set: Move pins here moves the pins of the legacy set an install with --legacy recorded beside it");
          (l ← legacy; no_when (str_in (lg_state l) ["retired"; "retiring"]) 409
             (n +:+ "'s legacy set " +:+ lg_project l +:+ " is " +:+ lg_state l +:+ ": its registrations were drained, and their pins went to the queue"));
          no_when (match hs_pool_cap_units h with Some 0 => true | _ => false end) 409
            (n +:+ "'s pool cap is 0: raise it first, or the tasks moved here would wait for it");
          no_when (truthyo (hs_drained_at h)) 409
            (n +:+ "'s registration is drained: resume it first, or the tasks moved here would go to the queue at the drain's sweep")].
Definition verdict_of (r : HostRight) : HostVerdict :=
  match r with
  | Rsuspend => suspend_verdict
  | Rresume => resume_verdict
  | Rretire => unless [theirs; gone]
  | Rcap => unless [no_when stranger 403 ("only " +:+ o +:+ " or a maintainer caps " +:+ n); gone]
  | Rreconcile => unless [no_when stranger 403 ("only " +:+ o +:+ " or a maintainer orders " +:+ n +:+ " a round"); takes]
  | Rretire_legacy => legacy_verdict
  | Rsettings | Rrotate_token | Rretry_release | Rdiagnostics => p4
  | Rowner => owner_verdict
  | Rpins => pins_verdict
  end.
End Verdicts.

Definition hostVerdicts (v : option HostViewer) (h : HostShown) (r : HostRight) : HostVerdict :=
  match v with None => No 401 SIGN_IN | Some v => verdict_of v h r end.

(** The right a kind of order needs. *)
Definition RIGHT_OF (kind : string) : HostRight :=
  if String.eqb kind "reconcile-now" then Rreconcile else if String.eqb kind "retire-legacy" then Rretire_legacy
  else if String.eqb kind "set-units" || String.eqb kind "set-emulate" then Rsettings
  else if String.eqb kind "rotate-token" then Rrotate_token else if String.eqb kind "retry-release" then Rretry_release
  else if String.eqb kind "diagnostics" then Rdiagnostics else Rowner.

(** ** Who the table lets act *)

Lemma unless_no b s w l : unless (no_when b s w :: l) = Yes -> b = false /\ unless l = Yes.
Proof. destruct b; [done|]. by split. Qed.

Definition owners_acts : list HostRight := [Rresume; Rretire_legacy; Rowner].
(** The rights an order or a stop of a running host needs an active one for. *)
Definition needs_active (r : HostRight) : bool :=
  match r with Rresume | Rretire | Rcap => false | _ => true end.

Ltac unless_cases := repeat match goal with
  | H : unless (no_when _ _ _ :: _) = Yes |- _ => apply unless_no in H as [? H]
  end.

Lemma takes_active h l : unless (takes h :: l) = Yes -> hs_status h = "active" /\ unless l = Yes.
Proof.
  unfold takes. destruct (String.eqb (hs_status h) "active") eqn:E; cbn [negb]; [|done].
  intros H. apply unless_no in H as [_ H]. by apply String.eqb_eq in E.
Qed.
Lemma theirs_no v h l : unless (theirs v h :: l) = Yes -> (isOwner v h || hv_maintainer v) = true /\ unless l = Yes.
Proof. unfold theirs. intros H. apply unless_no in H as [E H]. split; [|done]. by destruct (isOwner v h), (hv_maintainer v). Qed.
Lemma gone_no h l : unless (gone h :: l) = Yes -> hs_status h <> "retired" /\ unless l = Yes.
Proof. unfold gone. intros H. apply unless_no in H as [E H]. by apply String.eqb_neq in E. Qed.
Lemma stranger_no v h : negb (isOwner v h) && negb (hv_maintainer v) = false -> (isOwner v h || hv_maintainer v) = true.
Proof. by destruct (isOwner v h), (hv_maintainer v). Qed.

Lemma verdict_yes w h r :
  verdict_of w h r = Yes ->
  (isOwner w h || hv_maintainer w) = true /\ (In r owners_acts -> isOwner w h = true /\ hv_maintainer w = true)
  /\ (needs_active r = true -> hs_status h = "active") /\ hs_status h <> "retired".
Proof.
  intros H. assert (Ha : hs_status h = "active" -> hs_status h <> "retired") by (intros ->; done).
  destruct r; cbn [verdict_of] in H; unfold suspend_verdict, resume_verdict, legacy_verdict, owner_verdict, pins_verdict, p4 in H;
    repeat first [apply theirs_no in H as [? H]|apply gone_no in H as [? H]|apply takes_active in H as [? H]|apply unless_no in H as [? H]];
    breflect; try match goal with E : negb _ && negb _ = false |- _ => apply stranger_no in E end.
  all: repeat match goal with E : isOwner _ _ = true |- _ => rewrite E | E : hv_maintainer _ = true |- _ => rewrite E end.
  all: naive_solver.
Qed.

(** whom the table lets act: someone signed in who is the host's owner, by GitHub user id, or a
    maintainer; Resume, retiring the legacy set and the owner's documents are the owner's alone while
    a maintainer; an order, a stop, a document and a move of pins need an active host, and nothing is
    done to a retired one. *)
Theorem host_acts_are_its_owners v h r :
  hostVerdicts v h r = Yes ->
  exists w, v = Some w /\ (isOwner w h || hv_maintainer w) = true
  /\ (In r owners_acts -> isOwner w h = true /\ hv_maintainer w = true)
  /\ (needs_active r = true -> hs_status h = "active") /\ hs_status h <> "retired".
Proof.
  unfold hostVerdicts. destruct v as [w|]; [|done]. intros H. exists w. split; [done|]. by apply verdict_yes.
Qed.

(** ** At concrete inputs *)

Definition ana : HostViewer := {| hv_login := "ana"; hv_maintainer := true; hv_github_id := Some 7 |}.
Definition a_host : HostShown :=
  {| hs_name := "studio"; hs_status := "active"; hs_owner_login := "ana-before"; hs_owner_github_id := 7; hs_agent_version := Some "0.4.1";
     hs_report := None; hs_pool_cap_units := None; hs_drained_at := None |}.
Lemma host_acts_are_its_owners_witness :
  hostVerdicts (Some ana) a_host Rowner = Yes /\ isOwner ana a_host = true /\ hs_status a_host = "active".
Proof.
  assert (H : hostVerdicts (Some ana) a_host Rowner = Yes) by (vm_compute; reflexivity).
  destruct (host_acts_are_its_owners _ _ _ H) as (w & E & _ & Ho & Ha & _). injection E as <-.
  split; [exact H|]. split; [apply Ho; right; right; by left|by apply Ha].
Defined.
(** The login another took: no owner, and no maintainer. *)
Example a_taken_login : is_yes (hostVerdicts (Some {| hv_login := "ana-before"; hv_maintainer := false; hv_github_id := Some 9 |}) a_host Rsuspend) = false.
Proof. reflexivity. Qed.
