(* ===== verification/HostDoor.v ===== *)
(** * The hosts' doors: enrollment, confirmation, the signed request, the token
    (worker/src/routes/hosts.ts)

    The tables behind them and each handler: its checks on the rows it read, then its
    batch on the tables as they are by then. D1 runs a batch in one transaction and one at a
    time; a batch a unique key refuses writes nothing. Times are milliseconds. The words of
    a refusal are left out: its status and code are kept. *)
From S2P Require Import Prelude JsTime Json JsonText Bytes Manifest Selection Update Tasks OrderRules OrderDoor JobToken WebAuthn HostCapacity HostKeys HostReport HostRights OwnerDoc.
Local Open Scope string_scope.
Local Open Scope Z_scope.

(** ** The tables *)

Inductive HStatus := Hpending | Hactive | Hsuspended | Hretired.
#[export] Instance HStatus_eq_dec : EqDecision HStatus.
Proof. solve_decision. Defined.
Definition hstatus_word (s : HStatus) : string :=
  match s with Hpending => "pending-owner" | Hactive => "active" | Hsuspended => "suspended" | Hretired => "retired" end.
Definition is_active (s : HStatus) : bool := bool_decide (s = Hactive).

(** What enrollment writes once; whose host it is. *)
Record HostOwner := { o_login : string; o_github_id : Z; o_name : string; o_where : option string; o_pubkey : string; o_enrolled_at : Z }.
(** Its status and who moved it; the list's stop; its registration. *)
Record HostLife := {
  lf_status : HStatus; lf_by : option string; lf_at : option Z; lf_reason : option string; lf_removed_at : option Z;
  lf_worker : option string; lf_confirmed_at : option Z }.
Record HostTokens := { tk_issued_at : option Z; tk_prev_hash : option string; tk_prev_until : option Z }.
(** What the machine is, as its enrollment and then its reports say. *)
Record Machine := {
  mc_key_store : string; mc_key_held : option string; mc_hostname : string; mc_os : string; mc_arch : string; mc_page_kb : Z;
  mc_runtime : option string; mc_isolation : option string; mc_dedicated : option bool; mc_capacity : Capacity;
  mc_units : Z; mc_agent_version : string; mc_provider : option string; mc_model : option string }.
(** The rest of what its last report said. *)
Record LastReport := {
  lr_text : option string; lr_at : option Z; lr_applied : option string; lr_target : option string; lr_reverted : RevertState;
  lr_soak : option HostSoak; lr_behind : option PoolBehind; lr_seal_key : option string; lr_asleep_at : option Z }.
Record HostR := {
  r_owner : HostOwner; r_life : HostLife; r_tokens : HostTokens; r_machine : Machine; r_said : LastReport;
  r_cap : option Z; r_settings : option (list (string * json)); r_seal_confirmed : option string; r_seen : Z }.

(** A row of [host_enrollments], by its token's hash. *)
Record Enrollment := {
  e_login : string; e_github_id : Z; e_name : string; e_where : option string; e_created_at : Z; e_expires_at : Z;
  e_used_at : option Z; e_host : option string }.
(** A registration's columns the hosts' doors write. *)
Record Reg := { g_owner : string; g_host : option string; g_token_hash : option string; g_revoked_at : option Z }.
Inductive HOState := HOopen | HOdone | HOrefused | HOfailed | HOexpired | HOcancelled.
#[export] Instance HOState_eq_dec : EqDecision HOState.
Proof. solve_decision. Defined.
(** A row of [host_orders]. *)
Record HOrder := {
  ho_id : string; ho_host : string; ho_kind : string; ho_by : string; ho_confirmed : option string; ho_issued_at : Z; ho_not_after : Z;
  ho_arg : option json; ho_state : HOState; ho_answered_at : option Z; ho_detail : option string }.
(** A journal line of a host. *)
Record HLine := { hl_about : string; hl_action : string; hl_by : string; hl_status : string }.

(** A row of [host_diagnostics], by its order's id. *)
Record Diag := { dg_host : string; dg_at : Z; dg_lines : list string; dg_dropped : Z }.

Record HDB := {
  hosts : gmap string HostR; enrolls : gmap string Enrollment; nonces : gmap (string * string) Z;
  listed : list string; ids : gmap string Z; regs : gmap string Reg; horders : list HOrder; lines : list HLine;
  diags : gmap string Diag; odb : ODB }.

Definition set_hosts (m : gmap string HostR) (d : HDB) : HDB :=
  {| hosts := m; enrolls := enrolls d; nonces := nonces d; listed := listed d; ids := ids d; regs := regs d; horders := horders d;
     lines := lines d;
     diags := diags d; odb := odb d |}.
Definition set_enrolls (m : gmap string Enrollment) (d : HDB) : HDB :=
  {| hosts := hosts d; enrolls := m; nonces := nonces d; listed := listed d; ids := ids d; regs := regs d; horders := horders d;
     lines := lines d;
     diags := diags d; odb := odb d |}.
Definition set_nonces (m : gmap (string * string) Z) (d : HDB) : HDB :=
  {| hosts := hosts d; enrolls := enrolls d; nonces := m; listed := listed d; ids := ids d; regs := regs d; horders := horders d;
     lines := lines d;
     diags := diags d; odb := odb d |}.
Definition set_regs (m : gmap string Reg) (d : HDB) : HDB :=
  {| hosts := hosts d; enrolls := enrolls d; nonces := nonces d; listed := listed d; ids := ids d; regs := m; horders := horders d;
     lines := lines d;
     diags := diags d; odb := odb d |}.
Definition set_horders (l : list HOrder) (d : HDB) : HDB :=
  {| hosts := hosts d; enrolls := enrolls d; nonces := nonces d; listed := listed d; ids := ids d; regs := regs d; horders := l;
     lines := lines d;
     diags := diags d; odb := odb d |}.
Definition set_diags (m : gmap string Diag) (d : HDB) : HDB :=
  {| hosts := hosts d; enrolls := enrolls d; nonces := nonces d; listed := listed d; ids := ids d; regs := regs d; horders := horders d;
     lines := lines d; diags := m; odb := odb d |}.
Definition set_odb (o : ODB) (d : HDB) : HDB :=
  {| hosts := hosts d; enrolls := enrolls d; nonces := nonces d; listed := listed d; ids := ids d; regs := regs d; horders := horders d;
     lines := lines d;
     diags := diags d; odb := o |}.
Definition journal_when (b : bool) (l : HLine) (d : HDB) : HDB :=
  if b then {| hosts := hosts d; enrolls := enrolls d; nonces := nonces d; listed := listed d; ids := ids d; regs := regs d;
               horders := horders d; lines := lines d ++ [l];
     diags := diags d; odb := odb d |} else d.

Definition with_life (f : HostLife -> HostLife) (h : HostR) : HostR :=
  {| r_owner := r_owner h; r_life := f (r_life h); r_tokens := r_tokens h; r_machine := r_machine h; r_said := r_said h; r_cap := r_cap h;
     r_settings := r_settings h; r_seal_confirmed := r_seal_confirmed h; r_seen := r_seen h |}.
Definition with_tokens (t : HostTokens) (seen : Z) (h : HostR) : HostR :=
  {| r_owner := r_owner h; r_life := r_life h; r_tokens := t; r_machine := r_machine h; r_said := r_said h; r_cap := r_cap h;
     r_settings := r_settings h; r_seal_confirmed := r_seal_confirmed h; r_seen := seen |}.
Definition with_cap (c : option Z) (h : HostR) : HostR :=
  {| r_owner := r_owner h; r_life := r_life h; r_tokens := r_tokens h; r_machine := r_machine h; r_said := r_said h; r_cap := c;
     r_settings := r_settings h; r_seal_confirmed := r_seal_confirmed h; r_seen := r_seen h |}.
Definition with_settings (s : list (string * json)) (h : HostR) : HostR :=
  {| r_owner := r_owner h; r_life := r_life h; r_tokens := r_tokens h; r_machine := r_machine h; r_said := r_said h; r_cap := r_cap h;
     r_settings := Some s; r_seal_confirmed := r_seal_confirmed h; r_seen := r_seen h |}.
Definition with_report (m : Machine) (s : LastReport) (seen : Z) (h : HostR) : HostR :=
  {| r_owner := r_owner h; r_life := r_life h; r_tokens := r_tokens h; r_machine := m; r_said := s; r_cap := r_cap h;
     r_settings := r_settings h; r_seal_confirmed := r_seal_confirmed h; r_seen := seen |}.
Definition with_seal (s : string) (h : HostR) : HostR :=
  {| r_owner := r_owner h; r_life := r_life h; r_tokens := r_tokens h; r_machine := r_machine h; r_said := r_said h; r_cap := r_cap h;
     r_settings := r_settings h; r_seal_confirmed := Some s; r_seen := r_seen h |}.

(** ** Who is a maintainer; the hosts as the lease statement reads them *)

(** [roleFor]: what the synced list gives a login. *)
Definition roleFor (d : HDB) (login : string) : bool := str_in login (listed d).
Definition githubIdOf (d : HDB) (login : string) : option Z := ids d !! login.
(** OWNER_LISTED_SQL: some login of the list is this user. *)
Definition owner_listed (d : HDB) (github_id : Z) : bool := existsb (fun m => oz_eqb (ids d !! m) (Some github_id)) (listed d).
Definition lease_view (d : HDB) (h : HostR) : HostRow :=
  {| h_active := is_active (lf_status (r_life h)); h_owner_removed := match lf_removed_at (r_life h) with Some _ => true | None => false end;
     h_owner_listed := owner_listed d (o_github_id (r_owner h)); Tasks.asleep_at := lr_asleep_at (r_said h);
     Tasks.reported_at := lr_at (r_said h) |}.
(** The queue and the orders, with the hosts' rows as they are now. *)
Definition queue (d : HDB) : Tasks.DB := {| tasks := tasks (tdb (odb d)); host_rows := lease_view d <$> hosts d |}.
Definition orders_now (d : HDB) : ODB := set_tasks (queue d) (odb d).

(** A handler's answer. *)
Inductive Reply := Did | Not (status : Z) (code : string) | Threw.
(** The person and the door's own checks: the way in, the page's origin and body ([writeGate]). *)
Record Visit := { vs_login : string; vs_web : bool; vs_gate : option (Z * string); vs_now : Z }.
(** A passkey's answer for one act ([webGate]): the passkey, or the refusal. *)
Abbreviation Confirm := (string -> string + Z * string).

(** [oneLine]: none, or the text; [None] when it is refused. *)
Definition oneLine (leak : string -> bool) (v : option json) (max : Z) : option (option string) :=
  match v with
  | None | Some JNull | Some (JStr "") => Some None
  | Some (JStr s) =>
      let s := trim s in if negb (truthy s) || (max <? slen s) || negb (printable s) || leak s then None else Some (Some s)
  | _ => None
  end.
(** [/^[a-z0-9](?:[a-z0-9-]{0,30}[a-z0-9])?$/] *)
Fixpoint last_char (s : string) : option ascii :=
  match s with EmptyString => None | String c EmptyString => Some c | String _ s' => last_char s' end.
Definition HOST_NAME (s : string) : bool :=
  match s, last_char s with
  | String a _, Some z => is_low_word a && is_low_word z && all_sized is_low_dash 1 32 s
  | _, _ => false
  end.
Definition name_taken (d : HDB) (login name : string) : bool :=
  existsb (fun p => String.eqb (o_login (r_owner p.2)) login && String.eqb (o_name (r_owner p.2)) name
                    && negb (bool_decide (lf_status (r_life p.2) = Hretired))) (map_to_list (hosts d)).

Section Door.
Context `{C : HostCrypto} (leak : string -> bool).

(** ** A maintainer's enrollment token *)

(** [page]: the page's own refusal for this person; [hash]: of the token drawn. *)
Definition handleMintEnrollment (v : Visit) (page : option (Z * string)) (name where_ : option json) (hash : string) (read d : HDB)
    : HDB * Reply :=
  let no s c := (d, Not s c) in
  let login := vs_login v in
  if negb (vs_web v) then no 403 "web_only"
  else match vs_gate v with Some (s, c) => no s c | None =>
  match page with Some (s, _) => no s "maintainers_only" | None =>
  if negb (roleFor read login) then no 403 "maintainers_only"
  else match name with
  | Some (JStr n) =>
      if negb (HOST_NAME n) then no 400 ""
      else match oneLine leak where_ 80 with
      | None => no 400 ""
      | Some w =>
          if name_taken read login n then no 409 "name_taken"
          else match githubIdOf read login with
          | None => no 409 "github_id"
          | Some g =>
              match enrolls d !! hash with
              | Some _ => (d, Threw)
              | None =>
                  (set_enrolls (<[hash := {| e_login := login; e_github_id := g; e_name := n; e_where := w; e_created_at := vs_now v;
                     e_expires_at := vs_now v + ENROLL_TTL_MIN * MIN; e_used_at := None; e_host := None |}]> (enrolls d)) d, Did)
              end
          end
      end
  | _ => no 400 ""
  end end end.

(** ** The machine's enrollment *)

Record EnrollAsk := { k_hash : string; k_pubkey : string; k_machine : Machine }.
Definition REPORT_MAX_BYTES : Z := 16 * 1024.
(** [/^ome_[0-9a-f]{48}$/] *)
Definition enroll_token (v : option json) : option string :=
  s ← as_str v; r ← eat "ome_" s; if all_sized is_hex_lower 48 48 r then Some s else None.
(** One line, runs of control characters a space, cut. *)
Fixpoint controls_out (s : string) : string :=
  match s with
  | EmptyString => ""
  | String c s' =>
      if is_control c then match s' with String d _ => if is_control d then controls_out s' else String " " (controls_out s') | _ => " " end
      else String c (controls_out s')
  end.
Definition keyHeldOf (v : option json) : option (option string) :=
  match v with
  | None | Some JNull => Some None
  | Some (JStr s) => let s := trim (controls_out s) in Some (if truthy s then Some (str_take 300 s) else None)
  | _ => None
  end.
(** [/^[A-Za-z0-9][A-Za-z0-9.-]{0,62}$/] *)
Definition is_alnum (c : ascii) : bool := is_upper c || is_lower c || is_digit c.
Definition is_hostname (s : string) : bool :=
  match s with
  | String c r => is_alnum c && all_sized (fun c => is_alnum c || Ascii.eqb c "." || Ascii.eqb c "-") 0 62 r
  | EmptyString => false
  end.
Definition native_is (c : Capacity) (arch : string) : bool := existsb (fun l => String.eqb (ln_arch l) arch) (natives (cap_lanes c)).
Definition if_text (v : option json) (p : string -> bool) : option string := s ← as_str v; if p s then Some s else None.

(** The body's checks, before any row is read. *)
Definition read_enroll (b : option json) : EnrollAsk + (Z * string) :=
  let f := field b in
  if negb (an_object b) then inr (400, "") else
  match enroll_token (f "token") with None => inr (401, "token_unknown") | Some token =>
  match hostPublicKey (f "pubkey"), as_str (f "pubkey") with
  | Some key, Some pubkey =>
      if negb match f "sig" with Some (JStr sig) => verifyHostSignature key sig (enrollMessage token pubkey) | _ => false end
      then inr (401, "proof")
      else match (match f "key_store" with None | Some JNull => Some "file" | v => one_of KEY_STORES v end) with
      | None => inr (400, "")
      | Some store =>
      if negb (keyStoreFits store (hk_alg key)) then inr (400, "key_store")
      else match keyHeldOf (f "key_held"), parseCapacity (f "capacity") with
      | None, _ | _, inr _ => inr (400, "")
      | Some held, inl cap =>
      match if_text (f "hostname") is_hostname, one_of ["linux"; "macos"] (f "os"), one_of ARCHES (f "arch"),
            one_of ISOLATIONS (f "isolation"), if_text (f "agent_version") (fun s => match semver (Some s) with Some _ => true | None => false end),
            int (f "page_kb") 4 64 with
      | Some hostname, Some os, Some arch, Some isolation, Some agent, Some page =>
          if negb (native_is cap arch) then inr (400, "")
          else
            let runtime := match f "runtime" with None | Some JNull => None | Some v => Some v end in
            let text := json_text <$> runtime in
            if match text with Some t => negb (an_object runtime) || (2048 <? slen t) | None => false end then inr (400, "")
            else inl {| k_hash := sha256HexOf (bytes_of token); k_pubkey := pubkey;
                        k_machine := {| mc_key_store := store; mc_key_held := if String.eqb store "file" then held else None;
                          mc_hostname := hostname; mc_os := os; mc_arch := arch; mc_page_kb := page; mc_runtime := text;
                          mc_isolation := Some isolation; mc_dedicated := as_bool (f "dedicated"); mc_capacity := cap;
                          mc_units := unitsOf cap; mc_agent_version := agent; mc_provider := None; mc_model := None |} |}
      | _, _, _, _, _, _ => inr (400, "")
      end end end
  | _, _ => inr (400, "")
  end end.

Definition key_taken (d : HDB) (pubkey : string) : bool := existsb (fun p => String.eqb (o_pubkey (r_owner p.2)) pubkey) (map_to_list (hosts d)).
(** Why the token does not enroll now, from the rows read. *)
Definition enroll_refusal (a : EnrollAsk) (now : Z) (d : HDB) : option (Z * string) :=
  match enrolls d !! k_hash a with
  | None => Some (401, "token_unknown")
  | Some e =>
      match e_used_at e with Some _ => Some (401, "token_used") | None =>
      if e_expires_at e <=? now then Some (401, "token_expired")
      else if negb (roleFor d (e_login e)) then Some (403, "not_maintainer")
      else if negb (oz_eqb (githubIdOf d (e_login e)) (Some (e_github_id e))) then Some (403, "owner_changed")
      else match belowMinimum (mc_capacity (k_machine a)) MIN_HOST with
      | Some _ => Some (422, "below_minimum")
      | None => if key_taken d (k_pubkey a) then Some (409, "key_taken") else None
      end end
  end.
(** The checks again, in the statement that burns. *)
Definition burns (e : Enrollment) (now : Z) (d : HDB) : bool :=
  match e_used_at e with None => true | Some _ => false end && (now <? e_expires_at e) && roleFor d (e_login e)
  && oz_eqb (githubIdOf d (e_login e)) (Some (e_github_id e)).
Definition burnt (id : string) (now : Z) (e : Enrollment) : Enrollment :=
  {| e_login := e_login e; e_github_id := e_github_id e; e_name := e_name e; e_where := e_where e; e_created_at := e_created_at e;
     e_expires_at := e_expires_at e; e_used_at := Some now; e_host := Some id |}.
Definition no_report : LastReport :=
  {| lr_text := None; lr_at := None; lr_applied := None; lr_target := None; lr_reverted := {| rv_from := None; rv_at := None |};
     lr_soak := None; lr_behind := None; lr_seal_key := None; lr_asleep_at := None |}.
Definition new_host (a : EnrollAsk) (e : Enrollment) (now : Z) : HostR :=
  {| r_owner := {| o_login := e_login e; o_github_id := e_github_id e; o_name := e_name e; o_where := e_where e; o_pubkey := k_pubkey a;
                   o_enrolled_at := now |};
     r_life := {| lf_status := Hpending; lf_by := None; lf_at := None; lf_reason := None; lf_removed_at := None; lf_worker := None;
                  lf_confirmed_at := None |};
     r_tokens := {| tk_issued_at := None; tk_prev_hash := None; tk_prev_until := None |};
     r_machine := k_machine a; r_said := no_report; r_cap := None; r_settings := None; r_seal_confirmed := None; r_seen := now |}.
(** The batch: the burn, then the host of the row it burnt; a key or an id that is taken fails both. *)
Definition enroll_batch (a : EnrollAsk) (id : string) (now : Z) (d : HDB) : HDB * Reply :=
  match enrolls d !! k_hash a with
  | None => (d, Not 401 "token_used")
  | Some e =>
      let burn := burns e now d in
      let e' := if burn then burnt id now e else e in
      if ostr_eqb (e_host e') (Some id) then
        if key_taken d (k_pubkey a) || match hosts d !! id with Some _ => true | None => false end then (d, Threw)
        else (set_hosts (<[id := new_host a e' now]> (hosts d)) (set_enrolls (<[k_hash a := e']> (enrolls d)) d),
              if burn then Did else Not 401 "token_used")
      else (d, Not 401 "token_used")
  end.
(** [text]: the body without the token, as it is searched for a secret; [id]: drawn. *)
Definition handleEnroll (size : Z) (b : option json) (text id : string) (now : Z) (read d : HDB) : HDB * Reply :=
  if REPORT_MAX_BYTES <? size then (d, Not 413 "")
  else match read_enroll b with
  | inr (s, c) => (d, Not s c)
  | inl a =>
      if leak text then (d, Not 422 "")
      else match enroll_refusal a now read with Some (s, c) => (d, Not s c) | None => enroll_batch a id now d end
  end.

(** ** The owner's confirmation *)

Definition confirmed (now : Z) (worker : string) (l : HostLife) : HostLife :=
  {| lf_status := Hactive; lf_by := lf_by l; lf_at := lf_at l; lf_reason := lf_reason l; lf_removed_at := lf_removed_at l;
     lf_worker := Some worker; lf_confirmed_at := Some now |}.
(** A host's registration in the orders' columns. *)
Definition new_wrow : WRow :=
  {| r_host := true; r_drained_at := None; r_drained_by := None; r_drain_reason := None; r_auto := None; r_open := []; r_spell := None |}.
Definition add_wrow (w : string) (o : ODB) : ODB := {| ords := ords o; wrows := <[w := new_wrow]> (wrows o); tdb := tdb o; journal := journal o |}.
Definition of_confirm (h : HostR) (worker : string) (now : Z) : bool :=
  ostr_eqb (lf_worker (r_life h)) (Some worker) && oz_eqb (lf_confirmed_at (r_life h)) (Some now).
Definition confirm_batch (id worker login : string) (now : Z) (d : HDB) : HDB * Reply :=
  match hosts d !! id with
  | None => (d, Not 409 "not_pending")
  | Some h =>
      let move := bool_decide (lf_status (r_life h) = Hpending) && roleFor d (o_login (r_owner h)) in
      let h' := if move then with_life (confirmed now worker) h else h in
      let d' := set_hosts (<[id := h']> (hosts d)) d in
      let reply := if move then Did else Not 409 "not_pending" in
      if of_confirm h' worker now then
        match regs d !! worker with
        | Some _ => (d, Threw)
        | None =>
            if existsb (fun p => ostr_eqb (g_host p.2) (Some id)) (map_to_list (regs d)) then (d, Threw)
            else
              let d' := set_regs (<[worker := {| g_owner := o_login (r_owner h'); g_host := Some id; g_token_hash := None; g_revoked_at := None |}]>
                          (regs d')) (set_odb (add_wrow worker (odb d')) d') in
              (journal_when true {| hl_about := id; hl_action := "confirm"; hl_by := login; hl_status := "ok" |} d', reply)
        end
      else (journal_when (ostr_eqb (lf_worker (r_life h')) (Some worker))
              {| hl_about := id; hl_action := "confirm"; hl_by := login; hl_status := "ok" |} d', reply)
  end.
(** [short]: the four characters drawn for the registration's id. *)
Definition handleConfirmHost (v : Visit) (id short : string) (read d : HDB) : HDB * Reply :=
  let no s c := (d, Not s c) in
  if negb (vs_web v) then no 403 "web_only"
  else match vs_gate v with Some (s, c) => no s c | None =>
  match hosts read !! id with
  | None => no 404 ""
  | Some h =>
      let o := r_owner h in
      if negb (String.eqb (vs_login v) (o_login o)) then no 403 "not_owner"
      else if negb (oz_eqb (githubIdOf read (vs_login v)) (Some (o_github_id o))) then no 403 "owner_changed"
      else if negb (roleFor read (vs_login v)) then no 403 "maintainers_only"
      else if negb (bool_decide (lf_status (r_life h) = Hpending)) then no 409 "not_pending"
      else confirm_batch id (o_login o +:+ "-" +:+ o_name o +:+ "-" +:+ short) (vs_login v) (vs_now v) d
  end end.

(** ** The signed request *)

Record Request := { q_header : option string; q_method : string; q_path : string; q_body : bytes }.
Inductive Signed := SignedAs (id : string) (h : HostR) | NotSigned (status : Z) (code : string).
Definition signedHost (q : Request) (max now : Z) (read d : HDB) : HDB * Signed :=
  match parseHostHeader (q_header q) with
  | None => (d, NotSigned 401 "host_signature")
  | Some hdr =>
      if max <? blen (q_body q) then (d, NotSigned 413 "")
      else if SIGNED_SKEW_S <? Z.abs (hh_ts hdr - now / 1000) then (d, NotSigned 401 "clock")
      else match hosts read !! hh_host hdr with
      | None => (d, NotSigned 401 "host_signature")
      | Some h =>
          match hostPublicKey (Some (JStr (o_pubkey (r_owner h)))) with
          | None => (d, NotSigned 401 "host_signature")
          | Some key =>
              if negb (signature_of hdr key (q_method q) (q_path q) (q_body q)) then (d, NotSigned 401 "host_signature")
              else if bool_decide (lf_status (r_life h) = Hsuspended) || bool_decide (lf_status (r_life h) = Hretired)
              then (d, NotSigned 403 "host_status")
              else
                let k := (hh_host hdr, hh_nonce hdr) in
                match nonces d !! k with
                | Some _ => (d, NotSigned 401 "replay")
                | None => (set_nonces (<[k := now]> (nonces d)) d, SignedAs (hh_host hdr) h)
                end
          end
      end
  end.

(** ** The host worker token *)

(** [h]: the row the signed request read; [hash]: of the token drawn. *)
Definition handleHostToken (id : string) (h : HostR) (hash : string) (now : Z) (d : HDB) : HDB * Reply :=
  match lf_status (r_life h), lf_worker (r_life h) with
  | Hactive, Some w =>
      match regs d !! w with
      | Some g =>
          match g_revoked_at g with
          | Some _ => (d, Not 409 "revoked")
          | None =>
              let t := {| tk_issued_at := Some now; tk_prev_hash := g_token_hash g;
                          tk_prev_until := match g_token_hash g with Some _ => Some (now + OLD_TOKEN_GRACE_MIN * MIN) | None => None end |} in
              let d := set_hosts (alter (with_tokens t now) id (hosts d)) d in
              if ostr_eqb (g_host g) (Some id) then
                (set_regs (<[w := {| g_owner := g_owner g; g_host := g_host g; g_token_hash := Some hash; g_revoked_at := None |}]> (regs d)) d, Did)
              else (d, Not 409 "revoked")
          end
      | None => (d, Not 409 "revoked")
      end
  | _, _ => (d, Not 409 "pending_owner")
  end.
End Door.
