(* ===== verification/HostStops.v ===== *)
(** * Stopping a host and taking it back (worker/src/routes/hosts.ts; worker/src/governance.ts, the hosts' step)

    Suspend, the pool's cap, Resume, Retire, removed for cause and the owner's resume: each
    handler reads its rows and its right, then runs its batch. A suspension's batch also
    cancels the open orders and fences every running lease, in one transaction. The
    maintainer list's sync stops the claims of the hosts whose owner it no longer names. *)
From S2P Require Import Prelude JsTime Json JsonText Manifest Selection Update Tasks OrderRules OrderDoor HostCapacity HostKeys HostReport HostRights HostDoor.
Local Open Scope string_scope.
Local Open Scope Z_scope.

Definition POOL_CAP_MAX : Z := 4096.

(** ** What the doors read *)

(** [SELECT * FROM hosts]: no registration is joined. *)
Definition shown (h : HostR) : HostShown :=
  {| hs_name := o_name (r_owner h); hs_status := hstatus_word (lf_status (r_life h)); hs_owner_login := o_login (r_owner h);
     hs_owner_github_id := o_github_id (r_owner h); hs_agent_version := Some (mc_agent_version (r_machine h));
     hs_report := lr_text (r_said h); hs_pool_cap_units := r_cap h; hs_drained_at := None |}.
Definition viewerOf (d : HDB) (login : string) : HostViewer :=
  {| hv_login := login; hv_maintainer := roleFor d login; hv_github_id := githubIdOf d login |}.

Section Doors.
Context (leak : string -> bool).

Definition reasonOf (v : option json) : option string := r ← hostReason v; if leak r then None else Some r.
(** The doors' common head: the browser's session, from the pool's own page. *)
Definition personAct (v : Visit) : option (Z * string) := if negb (vs_web v) then Some (403, "web_only") else vs_gate v.
(** The head, the host's row, the right. *)
Definition host_act (v : Visit) (id : string) (right : HostRight) (read : HDB) : HostR + (Z * string) :=
  match personAct v with
  | Some x => inr x
  | None =>
      match hosts read !! id with
      | None => inr (404, "")
      | Some h =>
          match hostVerdicts (Some (viewerOf read (vs_login v))) (shown h) right with
          | Yes => inl h
          | No s _ => inr (s, "host_right")
          end
      end
  end.

(** ** The statements of a suspension *)

Definition moved_life (s : HStatus) (by_ : string) (at_ : Z) (reason : option string) (l : HostLife) : HostLife :=
  {| lf_status := s; lf_by := Some by_; lf_at := Some at_; lf_reason := reason; lf_removed_at := lf_removed_at l;
     lf_worker := lf_worker l; lf_confirmed_at := lf_confirmed_at l |}.
Definition moved_at (s : HStatus) (at_ : Z) (h : HostR) : bool :=
  bool_decide (lf_status (r_life h) = s) && oz_eqb (lf_at (r_life h)) (Some at_).
(** The hosts a scope names: by id, or by their owner. *)
Inductive HostScope := Sid (id : string) | Sgithub (g : Z) | Slogin (l : string).
Definition scoped (s : HostScope) (id : string) (h : HostR) : bool :=
  match s with
  | Sid i => String.eqb i id
  | Sgithub g => g =? o_github_id (r_owner h)
  | Slogin l => String.eqb l (o_login (r_owner h))
  end.
(** The registrations of the hosts this act suspended. *)
Definition stopped_workers (s : HostScope) (at_ : Z) (d : HDB) : list string :=
  omap (fun p => if scoped s p.1 p.2 && moved_at Hsuspended at_ p.2 then lf_worker (r_life p.2) else None) (map_to_list (hosts d)).

(** A lease of one of them. *)
Definition held_by (which : list string) (t : Task) : bool :=
  is_leased t && match lease_owner (lease t) with Some o => str_in o which | None => false end.
(** FENCE_ORDERS_SQL: one closed order per task held; [oid] is the id drawn for it. *)
Definition fence_order (oid : Z -> string) (by_ reason detail : string) (at_ : Z) (p : Z * Task) : WOrder :=
  {| iss := {| w_id := oid p.1; w_worker := default "" (lease_owner (lease p.2)); w_kind := "stop-task"; w_reason := reason; w_by := by_;
               w_via := Some "web"; w_rule := None; w_unless := false; w_task := Some p.1; w_site := None; w_issued := at_;
               w_expires := at_; w_base_issue := None |};
     w_state := Sdone; w_delivered_at := None; w_to := None; w_base := None; w_accepted := None; w_answered_at := Some at_;
     w_answered_by := Some by_pool; w_code := None; w_detail := Some detail |}.
Definition held_rows (which : list string) (d : HDB) : list (Z * Task) :=
  List.filter (fun p => held_by which p.2) (map_to_list (tasks (tdb (odb d)))).
(** BULK_FENCE_SQL: the order of this act for the task, of the same worker. *)
Definition order_for (ords : list WOrder) (at_ id : Z) (t : Task) : option string :=
  o_key <$> List.find (fun o => ostr_eqb (Some (w_worker (iss o))) (lease_owner (lease t)) && (w_issued (iss o) =? at_)
    && String.eqb (w_kind (iss o)) "stop-task" && oz_eqb (w_task (iss o)) (Some id)) ords.
Definition fenced (order : option string) (t : Task) : Task :=
  with_lease t (lease_moved (lease t) (lease_owner (lease t)) (lease_expires_at (lease t)) (t_independent (lease t))
                  (lease_missed (lease t)) order).
Definition bulk_fence (which : list string) (at_ : Z) (o : ODB) : ODB :=
  set_tasks {| tasks := map_imap (fun id t => Some (if held_by which t then fenced (order_for (ords o) at_ id t) t else t)) (tasks (tdb o));
               host_rows := host_rows (tdb o) |} o.
Definition cancel_horders (which_ : HOrder -> bool) (at_ : Z) (detail : string) (l : list HOrder) : list HOrder :=
  map (fun o => if which_ o && bool_decide (ho_state o = HOopen) then
      {| ho_id := ho_id o; ho_host := ho_host o; ho_kind := ho_kind o; ho_by := ho_by o; ho_confirmed := ho_confirmed o;
         ho_issued_at := ho_issued_at o; ho_not_after := ho_not_after o; ho_arg := ho_arg o; ho_state := HOcancelled;
         ho_answered_at := Some at_; ho_detail := Some detail |} else o) l.
Definition of_stopped (s : HostScope) (at_ : Z) (d : HDB) (o : HOrder) : bool :=
  match hosts d !! ho_host o with Some h => scoped s (ho_host o) h && moved_at Hsuspended at_ h | None => false end.
Definition suspendStatements (s : HostScope) (by_ reason : string) (at_ : Z) (oid : Z -> string) (d : HDB) : HDB :=
  let which := stopped_workers s at_ d in
  let words := "its host was suspended by " +:+ by_ in
  let o := cancelOrdersOf which words at_ (odb d) in
  let o := set_ords (ords o ++ map (fence_order oid by_ reason ("fenced: " +:+ words +:+ " — the task goes back to the queue when its lease ends") at_)
                                 (held_rows which d)) o in
  let d := set_odb (bulk_fence which at_ o) d in
  set_horders (cancel_horders (of_stopped s at_ d) at_ words (horders d)) d.

(** ** Suspend *)

Definition map_hosts (p : string -> HostR -> bool) (f : HostR -> HostR) (d : HDB) : HDB :=
  set_hosts (map_imap (fun id h => Some (if p id h then f h else h)) (hosts d)) d.
Definition touches (p : string -> HostR -> bool) (d : HDB) : bool := existsb (fun x => p x.1 x.2) (map_to_list (hosts d)).
(** HOST_EVENT_SQL's guard: some host moved by this person at this time. *)
Definition moved_now (by_ : string) (at_ : Z) (d : HDB) : bool :=
  touches (fun _ h => oz_eqb (lf_at (r_life h)) (Some at_) && ostr_eqb (lf_by (r_life h)) (Some by_)) d.
(** The host rows a person's act suspends, then its statements and its line. *)
Definition suspend_batch (s : HostScope) (from : HostR -> bool) (by_ reason action status about : string) (at_ : Z) (oid : Z -> string) (d : HDB)
    : HDB * bool :=
  let move id h := scoped s id h && from h in
  let changed := touches move d in
  let d := map_hosts move (with_life (moved_life Hsuspended by_ at_ (Some reason))) d in
  let d := suspendStatements s by_ reason at_ oid d in
  (journal_when (moved_now by_ at_ d) {| hl_about := about; hl_action := action; hl_by := by_; hl_status := status |} d, changed).
Definition handleSuspendHost (v : Visit) (id : string) (reason : option json) (oid : Z -> string) (read d : HDB) : HDB * Reply :=
  match host_act v id Rsuspend read with
  | inr (s, c) => (d, Not s c)
  | inl _ =>
      match reasonOf reason with
      | None => (d, Not 400 "reason")
      | Some reason =>
          let '(d', changed) := suspend_batch (Sid id) (fun h => is_active (lf_status (r_life h))) (vs_login v) reason "suspend" "warn" id
                                  (vs_now v) oid d in
          (d', if changed then Did else Not 409 "host_right")
      end
  end.

(** ** The pool's cap *)

Definition cap_asked (u : option json) : option (option Z) :=
  match u with Some JNull => Some None | v => (fun n => Some n) <$> int v 0 POOL_CAP_MAX end.
Definition handleCapHost (v : Visit) (id : string) (units reason : option json) (read d : HDB) : HDB * Reply :=
  match host_act v id Rcap read with
  | inr (s, c) => (d, Not s c)
  | inl h =>
      match cap_asked units with
      | None => (d, Not 400 "units")
      | Some u =>
          if match u with Some n => mc_units (r_machine h) <? n | None => false end then (d, Not 400 "units")
          else match reasonOf reason with
          | None => (d, Not 400 "reason")
          | Some _ =>
              let move i (x : HostR) := String.eqb i id && negb (bool_decide (lf_status (r_life x) = Hretired)) && oz_eqb (r_cap x) (r_cap h) in
              let changed := touches move d in
              (journal_when changed {| hl_about := id; hl_action := "cap"; hl_by := vs_login v; hl_status := "ok" |} (map_hosts move (with_cap u) d),
               if changed then Did else Not 409 "host_right")
          end
      end
  end.

(** ** Resume *)

Definition host_at (id : string) (p : HostR -> bool) (d : HDB) : bool := match hosts d !! id with Some h => p h | None => false end.
Definition handleResumeHost (v : Visit) (id : string) (confirm : Confirm) (read d : HDB) : HDB * Reply :=
  match host_act v id Rresume read with
  | inr (s, c) => (d, Not s c)
  | inl _ =>
      match confirm ("host:resume:" +:+ id) with
      | inr (s, c) => (d, Not s c)
      | inl _ =>
          let move i (h : HostR) := String.eqb i id && bool_decide (lf_status (r_life h) = Hsuspended) in
          let changed := touches move d in
          let d := map_hosts move (with_life (moved_life Hactive (vs_login v) (vs_now v) None)) d in
          (journal_when (host_at id (fun h => oz_eqb (lf_at (r_life h)) (Some (vs_now v))) d)
             {| hl_about := id; hl_action := "resume"; hl_by := vs_login v; hl_status := "ok" |} d,
           if changed then Did else Not 409 "host_right")
      end
  end.

(** ** Retire *)

Definition retired (by_ reason : string) (at_ : Z) (h : HostR) : HostR :=
  let h := with_life (moved_life Hretired by_ at_ (Some reason)) h in
  with_tokens {| tk_issued_at := tk_issued_at (r_tokens h); tk_prev_hash := None; tk_prev_until := None |} (r_seen h) h.
Definition revoke_reg (id : string) (at_ : Z) (g : Reg) : Reg :=
  if ostr_eqb (g_host g) (Some id) && match g_revoked_at g with None => true | Some _ => false end
  then {| g_owner := g_owner g; g_host := g_host g; g_token_hash := g_token_hash g; g_revoked_at := Some at_ |} else g.
Definition unpin (w : string) (t : Task) : Task :=
  if is_queued t && ostr_eqb (pinned_to t) (Some w) then
    moved t (status t) (lease t) (attempts t) (host_losses t) (priority t) (error t) (finished_at t) None (m_native t) (m_4k t)
  else t.
Definition retire_batch (id worker by_ reason : string) (at_ : Z) (d : HDB) : HDB * bool :=
  let move i (h : HostR) := String.eqb i id && negb (bool_decide (lf_status (r_life h) = Hretired)) in
  let changed := touches move d in
  let d := map_hosts move (retired by_ reason at_) d in
  let now_ := host_at id (fun h => oz_eqb (lf_at (r_life h)) (Some at_)) d in
  let d := if now_ then set_regs (alter (revoke_reg id at_) worker (regs d)) d else d in
  let words := "its host was retired by " +:+ by_ in
  let gone_ := match regs d !! worker with Some g => oz_eqb (g_revoked_at g) (Some at_) | None => false end in
  let d := set_odb (cancelOrdersOf (if gone_ then [worker] else []) words at_ (odb d)) d in
  let d := if now_ then
    set_horders (cancel_horders (fun o => String.eqb (ho_host o) id) at_ words (horders d))
      (set_odb (set_tasks {| tasks := unpin worker <$> tasks (tdb (odb d)); host_rows := host_rows (tdb (odb d)) |} (odb d)) d) else d in
  (journal_when now_ {| hl_about := id; hl_action := "retire"; hl_by := by_; hl_status := "warn" |} d, changed).
Definition handleRetireHost (v : Visit) (id : string) (reason : option json) (confirm : Confirm) (read d : HDB) : HDB * Reply :=
  match host_act v id Rretire read with
  | inr (s, c) => (d, Not s c)
  | inl h =>
      match reasonOf reason with
      | None => (d, Not 400 "reason")
      | Some reason =>
          match (if isOwner (viewerOf read (vs_login v)) (shown h) then inl "" else confirm ("host:retire:" +:+ id)) with
          | inr (s, c) => (d, Not s c)
          | inl _ =>
              let '(d', changed) := retire_batch id (default "" (lf_worker (r_life h))) (vs_login v) reason (vs_now v) d in
              (d', if changed then Did else Not 409 "host_right")
          end
      end
  end.

(** ** Removed for cause; the owner's resume *)

Definition ownerKey (d : HDB) (login : string) : HostScope := match githubIdOf d login with Some g => Sgithub g | None => Slogin login end.
Definition runs_or_waits (h : HostR) : bool := match lf_status (r_life h) with Hactive | Hsuspended => true | _ => false end.
Definition handleRemoveForCause (v : Visit) (login : string) (reason : option json) (confirm : Confirm) (oid : Z -> string) (read d : HDB)
    : HDB * Reply :=
  let no s c := (d, Not s c) in
  match personAct v with Some (s, c) => no s c | None =>
  let me := viewerOf read (vs_login v) in
  if negb (hv_maintainer me) then no 403 "maintainers_only"
  else
    let target := ownerKey read login in
    if String.eqb login (vs_login v) || match target with Sgithub g => oz_eqb (Some g) (hv_github_id me) | _ => false end
    then no 403 "second_maintainer"
    else if negb (touches (fun id h => scoped target id h && runs_or_waits h) read) then no 409 "no_host"
    else match reasonOf reason with
    | None => no 400 "reason"
    | Some reason =>
        match confirm ("host:cause:" +:+ login) with
        | inr (s, c) => no s c
        | inl _ =>
            let '(d', changed) := suspend_batch target runs_or_waits (vs_login v) ("removed for cause: " +:+ reason) "cause" "error" login
                                    (vs_now v) oid d in
            (d', if changed then Did else Not 409 "host_right")
        end
    end
  end.

Definition stopped_of (g : Z) (h : HostR) : bool :=
  (o_github_id (r_owner h) =? g) && match lf_removed_at (r_life h) with Some _ => true | None => false end
  && negb (bool_decide (lf_status (r_life h) = Hretired)).
Definition listed_again (l : HostLife) : HostLife :=
  {| lf_status := lf_status l; lf_by := lf_by l; lf_at := lf_at l; lf_reason := lf_reason l; lf_removed_at := None;
     lf_worker := lf_worker l; lf_confirmed_at := lf_confirmed_at l |}.
Definition handleResumeOwner (v : Visit) (login : string) (confirm : Confirm) (read d : HDB) : HDB * Reply :=
  let no s c := (d, Not s c) in
  match personAct v with Some (s, c) => no s c | None =>
  match hv_github_id (viewerOf read (vs_login v)) with
  | None => no 403 "host_right"
  | Some g =>
      if negb (String.eqb login (vs_login v)) then no 403 "host_right"
      else if negb (owner_listed read g) then no 403 "owner_not_maintainer"
      else if negb (touches (fun _ => stopped_of g) read) then no 409 "no_host"
      else match confirm ("host:resume-all:" +:+ login) with
      | inr (s, c) => no s c
      | inl _ =>
          let move (_ : string) h := stopped_of g h && owner_listed d g in
          let changed := touches move d in
          let d := map_hosts move (with_life listed_again) d in
          (journal_when (negb (touches (fun _ => stopped_of g) d))
             {| hl_about := login; hl_action := "resume_owner"; hl_by := vs_login v; hl_status := "ok" |} d,
           if changed then Did else Not 409 "host_right")
      end
  end end.
End Doors.

(** ** The maintainer list (governance.ts) *)

Definition set_listed (l : list string) (d : HDB) : HDB :=
  {| hosts := hosts d; enrolls := enrolls d; nonces := nonces d; listed := l; ids := ids d; regs := regs d; horders := horders d;
     lines := lines d;
     diags := diags d; odb := odb d |}.
Definition removed (at_ : Z) (l : HostLife) : HostLife :=
  {| lf_status := lf_status l; lf_by := lf_by l; lf_at := lf_at l; lf_reason := lf_reason l; lf_removed_at := Some at_;
     lf_worker := lf_worker l; lf_confirmed_at := lf_confirmed_at l |}.
(** STOP_REMOVED_OWNERS_SQL *)
Definition unlisted (d : HDB) (h : HostR) : bool :=
  runs_or_waits h && match lf_removed_at (r_life h) with None => true | Some _ => false end
  && negb (owner_listed d (o_github_id (r_owner h))).
Definition stopHostsOfRemovedOwners (at_ : Z) (d : HDB) : HDB :=
  let gone := List.filter (fun p => unlisted d p.2) (map_to_list (hosts d)) in
  let d' := map_hosts (fun _ => unlisted d) (with_life (removed at_)) d in
  fold_left (fun d p => journal_when true {| hl_about := p.1; hl_action := "owner_removed"; hl_by := ""; hl_status := "warn" |} d) gone d'.
(** The list replaced: who stays keeps a row, a newcomer gets one; then the hosts' step. *)
Definition apply_list (maintainers : list string) (d : HDB) : HDB :=
  let kept := List.filter (fun l => str_in l maintainers) (listed d) in
  set_listed (kept ++ List.filter (fun l => negb (str_in l kept)) (dedup maintainers))%list d.
