(* ===== verification/HostPins.v ===== *)
(** * Moving a legacy set's pins onto its host (worker/src/routes/hosts.ts handleMovePins; routes/factory.ts legacyPins, REPIN_SQL)

    A queued task pinned to a legacy registration moves onto the registration of the host
    that replaces it, where the host could run it once idle; the others stay, each with why.
    The fleet and what a task's row and its package's page say of it ([seen]) are selection's,
    as the claim reads them. *)
From S2P Require Import Prelude JsTime Json JsonText Manifest Selection Update Tasks OrderRules OrderDoor HostCapacity HostKeys HostReport HostRights HostDoor HostStops.
Local Open Scope string_scope.
Local Open Scope Z_scope.

Definition PINS_WORKERS_MAX : nat := 16.
(** [/^[A-Za-z0-9._-]{1,100}$/] *)
Definition is_worker_name (s : string) : bool :=
  all_sized (fun c => is_alnum c || Ascii.eqb c "." || Ascii.eqb c "_" || Ascii.eqb c "-") 1 100 s.
Fixpoint names_of (l : list json) : option (list string) :=
  match l with
  | [] => Some []
  | x :: l' => n ← if_text (Some x) is_worker_name; r ← names_of l'; Some (n :: r)
  end.
(** The registrations one press names: 1 to 16 ids, each once. *)
Definition pinsWorkersOf (v : option json) : option (list string) :=
  match v with
  | Some (JArr ((_ :: _) as l)) => if (PINS_WORKERS_MAX <? length l)%nat then None else ws ← names_of l; Some (dedup ws)
  | _ => None
  end.

(** LEGACY_NAMED_SQL: those of the ones named that are the owner's legacy registrations, not revoked. *)
Definition legacy_of (d : HDB) (owner w : string) : bool :=
  match regs d !! w with
  | Some g => String.eqb (g_owner g) owner && match g_host g with None => true | Some _ => false end
              && match g_revoked_at g with None => true | Some _ => false end
  | None => false
  end.
Definition legacyNamed (d : HDB) (owner : string) (ws : list string) : list string := List.filter (legacy_of d owner) ws.
Definition pinned_in (ws : list string) (t : Task) : bool :=
  is_queued t && match pinned_to t with Some w => str_in w ws | None => false end.

(** ** What a move weighs *)

Definition LEGACY_ALIVE_MS : Z := (3 + 1) * MIN.
Record Pinned := { pn_task : Z; pn_from : string }.
Record LegacyPins := { lp_claiming : option string; lp_move : list Pinned; lp_stay : list (Pinned * string) }.
(** LEGACY_PINS_SQL's rows, by id. *)
Definition pinned_rows (d : HDB) (ws : list string) : list (Z * Task) :=
  sort_by (fun a b => a.1 - b.1) (List.filter (fun p => pinned_in ws p.2) (map_to_list (tasks (tdb (odb d))))).
Definition pinned_of (p : Z * Task) : Pinned := {| pn_task := p.1; pn_from := default "" (pinned_to p.2) |}.
Section Weigh.
Context (fleet : Fleet) (rules : Rules) (seen : Z -> Task -> Candidate * option string) (now : Z).
Definition SILENT : string := "it has not claimed in the last " +:+ zstr (Z.max ALIVE_MS LEGACY_ALIVE_MS / MIN) +:+ " minutes".
Definition the_member (worker : string) : option Member := List.find (fun m => String.eqb (m_id m) worker && negb (Selection.legacy m)) (members fleet).
Definition why_not (m : Member) (p : Z * Task) : option string :=
  let '(c, agent) := seen p.1 p.2 in
  repinRefusal m c now rules (largestSize fleet now rules) (List.filter (fun l => String.eqb (Selection.by_ l) (m_id m)) (leases fleet)) agent.
Definition legacyPins (worker : option string) (owner : string) (workers : list string) (read : HDB) : LegacyPins :=
  let pinned := pinned_rows read (legacyNamed read owner workers) in
  let none why := {| lp_claiming := Some why; lp_move := []; lp_stay := map (fun p => (pinned_of p, why)) pinned |} in
  match worker with
  | None => none "it has no registration yet: its owner's Confirm makes it"
  | Some w =>
      match the_member w with
      | None => none SILENT
      | Some m =>
          match notClaiming m now with
          | Some why => none why
          | None =>
              {| lp_claiming := None;
                 lp_move := omap (fun p => match why_not m p with None => Some (pinned_of p) | Some _ => None end) pinned;
                 lp_stay := omap (fun p => (fun why => (pinned_of p, why)) <$> why_not m p) pinned |}
          end
      end
  end.
End Weigh.

(** ** The move *)

Definition repinned (worker : string) (t : Task) : Task :=
  moved t (status t) (lease t) (attempts t) (host_losses t) (priority t) (error t) (finished_at t) (Some worker) (m_native t) (m_4k t).
(** The host still takes work as the door found it. *)
Definition takes_work (id worker : string) (d : HDB) : bool :=
  host_at id (fun h => ostr_eqb (lf_worker (r_life h)) (Some worker) && is_active (lf_status (r_life h)) && negb (oz_eqb (r_cap h) (Some 0))) d
  && match regs d !! worker with Some g => match g_revoked_at g with None => true | Some _ => false end | None => false end
  && match wrows (odb d) !! worker with Some r => match r_drained_at r with None => true | Some _ => false end | None => false end.
(** REPIN_SQL *)
Definition moves_now (id worker owner : string) (chosen : list Z) (workers : list string) (d : HDB) (i : Z) (t : Task) : bool :=
  existsb (Z.eqb i) chosen && pinned_in (legacyNamed d owner workers) t && takes_work id worker d.
Definition repin (id worker owner : string) (chosen : list Z) (workers : list string) (d : HDB) : HDB :=
  set_odb (set_tasks {| tasks := map_imap (fun i t => Some (if moves_now id worker owner chosen workers d i t then repinned worker t else t))
                                          (tasks (tdb (odb d)));
                        host_rows := host_rows (tdb (odb d)) |} (odb d)) d.
(** The host's row with its registration's drain beside it. *)
Definition shown_beside (d : HDB) (h : HostR) : HostShown :=
  let s := shown h in
  {| hs_name := hs_name s; hs_status := hs_status s; hs_owner_login := hs_owner_login s; hs_owner_github_id := hs_owner_github_id s;
     hs_agent_version := hs_agent_version s; hs_report := hs_report s; hs_pool_cap_units := hs_pool_cap_units s;
     hs_drained_at := (w ← lf_worker (r_life h); r ← wrows (odb d) !! w; iso <$> r_drained_at r) |}.
(** [seen], [fleet] and [rules]: what the door's reads say beside [read]. *)
Definition handleMovePins (leak : string -> bool) (v : Visit) (id : string) (reason workers : option json)
    (fleet : Fleet) (rules : Rules) (seen : Z -> Task -> Candidate * option string) (read d : HDB) : HDB * Reply :=
  let no s c := (d, Not s c) in
  match personAct v with Some (s, c) => no s c | None =>
  match hosts read !! id with None => no 404 "" | Some h =>
  match hostVerdicts (Some (viewerOf read (vs_login v))) (shown_beside read h) Rpins with No s _ => no s "host_right" | Yes =>
  match reasonOf leak reason with None => no 400 "reason" | Some _ =>
  match pinsWorkersOf workers with None => no 400 "workers" | Some ws =>
  let owner := o_login (r_owner h) in
  if negb (forallb (legacy_of read owner) ws) then no 400 "workers"
  else
    let w := legacyPins fleet rules seen (vs_now v) (lf_worker (r_life h)) owner ws read in
    match lp_claiming w, lp_move w, lf_worker (r_life h) with
    | Some _, _, _ => no 409 "not_claiming"
    | None, [], _ | None, _, None => no 409 "nothing_to_move"
    | None, move, Some worker =>
        let chosen := map pn_task move in
        let changed := existsb (fun p => moves_now id worker owner chosen ws d p.1 p.2) (map_to_list (tasks (tdb (odb d)))) in
        (journal_when changed {| hl_about := id; hl_action := "pins"; hl_by := vs_login v; hl_status := "ok" |} (repin id worker owner chosen ws d),
         if changed then Did else Not 409 "host_right")
    end
  end end end end end.

(** ** What moved *)

Lemma repin_at id worker owner chosen ws d i :
  tasks (tdb (odb (repin id worker owner chosen ws d))) !! i
  = (fun t => if moves_now id worker owner chosen ws d i t then repinned worker t else t) <$> tasks (tdb (odb d)) !! i.
Proof. unfold repin. cbn. rewrite map_lookup_imap. by destruct (tasks (tdb (odb d)) !! i). Qed.
Lemma odb_journal b l d : odb (journal_when b l d) = odb d.
Proof. by destruct b. Qed.
(** A task is moved because the host's registration was found able to run it. *)
Lemma moves_weighed fleet rules seen now worker owner ws read x :
  In x (lp_move (legacyPins fleet rules seen now worker owner ws read)) ->
  exists w m t, worker = Some w /\ the_member fleet w = Some m /\ notClaiming m now = None
  /\ In (pn_task x, t) (pinned_rows read (legacyNamed read owner ws)) /\ why_not fleet rules seen now m (pn_task x, t) = None.
Proof.
  unfold legacyPins. destruct worker as [w|]; [|done]. destruct (the_member fleet w) as [m|] eqn:Em; [|done].
  destruct (notClaiming m now) eqn:En; [done|]. cbn [lp_move]. intros Hx. apply list_elem_of_In, list_elem_of_omap in Hx as ([i t] & Hin & Hw).
  destruct (why_not _ _ _ _ _ _) eqn:Ew; [done|]. injection Hw as <-. exists w, m, t. split_and!; try done. by apply list_elem_of_In.
Qed.
(** The move takes each task it chose, still queued on a registration named, and leaves the rest of the queue as it was. *)
Theorem moved_pins_could_run leak v id reason workers fleet rules seen read d d1 :
  handleMovePins leak v id reason workers fleet rules seen read d = (d1, Did) ->
  exists h w m ws, hosts read !! id = Some h /\ lf_worker (r_life h) = Some w /\ the_member fleet w = Some m /\ notClaiming m (vs_now v) = None
  /\ pinsWorkersOf workers = Some ws
  /\ forall i t, tasks (tdb (odb d)) !! i = Some t -> tasks (tdb (odb d1)) !! i = Some t
     \/ (tasks (tdb (odb d1)) !! i = Some (repinned w t) /\ pinned_in (legacyNamed d (o_login (r_owner h)) ws) t = true /\ takes_work id w d = true
         /\ exists t0, why_not fleet rules seen (vs_now v) m (i, t0) = None).
Proof.
  unfold handleMovePins. intros H. destruct (personAct v) as [[]|]; [done|]. destruct (hosts read !! id) as [h|] eqn:Eh; [|done].
  destruct (hostVerdicts _ _ _); [|done]. destruct (reasonOf _ _); [|done]. destruct (pinsWorkersOf workers) as [ws|] eqn:Ew; [|done].
  destruct (negb _); [done|]. cbv zeta in H. set (lp := legacyPins _ _ _ _ _ _ _ _) in *.
  destruct (lp_claiming lp); [done|]. destruct (lp_move lp) as [|x l] eqn:El; [done|]. destruct (lf_worker (r_life h)) as [w|] eqn:Ewk; [|done].
  destruct (existsb _ _); [|done]. apply pair_equal_spec in H as [<- _].
  assert (Hm : forall y, In y (x :: l) -> exists w' m t, Some w = Some w' /\ the_member fleet w' = Some m /\ notClaiming m (vs_now v) = None
    /\ In (pn_task y, t) (pinned_rows read (legacyNamed read (o_login (r_owner h)) ws)) /\ why_not fleet rules seen (vs_now v) m (pn_task y, t) = None)
    by (intros y Hy; rewrite <- El in Hy; by apply moves_weighed in Hy).
  destruct (Hm x (or_introl eq_refl)) as (w' & m & _ & [= <-] & Hmem & Hcl & _). exists h, w, m, ws. split_and!; try done.
  intros i t Hi. rewrite !odb_journal, !repin_at, Hi. cbn [fmap option_fmap option_map]. destruct (moves_now _ _ _ _ _ _ _ _) eqn:E; [right|by left].
  unfold moves_now in E. apply andb_true_iff in E as [E Et]. apply andb_true_iff in E as [Ec Ep]. split_and!; try done.
  apply existsb_exists in Ec as (j & Hj & Ej). apply Z.eqb_eq in Ej. subst j. apply in_map_iff in Hj as (y & <- & Hy).
  destruct (Hm y Hy) as (w' & m' & t0 & [= <-] & Hm' & _ & _ & Hwhy). exists t0. congruence.
Qed.
