(* ===== verification/HostOrders.v ===== *)
(** * Host orders, the owner's signed documents and the host's report (worker/src/routes/hosts.ts)

    A person orders a host; its agent takes the order at its next poll and answers in its
    next report, which closes it. An owner's widening and agent keys are documents a passkey
    signed, each with a version above every one the host was given or took. The report also
    writes the host's row. The cron prunes what is past. *)
From S2P Require Import Prelude JsTime Json JsonText Bytes Manifest Selection Update Tasks OrderRules OrderDoor WebAuthn HostCapacity HostKeys HostReport HostRights OwnerDoc HostDoor HostStops.
Local Open Scope string_scope.
Local Open Scope Z_scope.

(** ** The orders' rows *)

Definition ORDER_EXPIRED : string := "not taken by its agent before its not_after".
Definition order_open (o : HOrder) : bool := bool_decide (ho_state o = HOopen).
Definition closes (s : HOState) (at_ : Z) (detail : string) (o : HOrder) : HOrder :=
  {| ho_id := ho_id o; ho_host := ho_host o; ho_kind := ho_kind o; ho_by := ho_by o; ho_confirmed := ho_confirmed o;
     ho_issued_at := ho_issued_at o; ho_not_after := ho_not_after o; ho_arg := ho_arg o; ho_state := s;
     ho_answered_at := Some at_; ho_detail := Some detail |}.
Definition expires (which_ : HOrder -> bool) (at_ : Z) (l : list HOrder) : list HOrder :=
  map (fun o => if which_ o && order_open o && (ho_not_after o <=? at_) then closes HOexpired at_ ORDER_EXPIRED o else o) l.
(** EXPIRE_HOST_ORDERS_SQL and EXPIRE_ALL_HOST_ORDERS_SQL *)
Definition expire_host (id : string) : Z -> list HOrder -> list HOrder := expires (fun o => String.eqb (ho_host o) id).
Definition expire_all : Z -> list HOrder -> list HOrder := expires (fun _ => true).
(** ANSWER_HOST_ORDER_SQL: an open one, or one the pool expired meanwhile. *)
Definition outcome_state (o : Outcome) : HOState := match o with Odone => HOdone | Orefused => HOrefused | Ofailed => HOfailed end.
Definition awaits (s : HOState) : bool := match s with HOopen | HOexpired => true | _ => false end.
Definition answers (a : OrderAnswer) (host : string) (o : HOrder) : bool :=
  String.eqb (ho_id o) (an_id a) && String.eqb (ho_host o) host && awaits (ho_state o).
Definition answer_order (a : OrderAnswer) (host : string) (at_ : Z) (l : list HOrder) : list HOrder :=
  map (fun o => if answers a host o then closes (outcome_state (an_outcome a)) at_ (an_detail a) o else o) l.
(** HOST_OPEN_ORDERS_SQL: what its state hands its agent. *)
Definition host_open_orders (id : string) (at_ : Z) (l : list HOrder) : list HOrder :=
  firstn 16 (sort_by (fun a b => ho_issued_at a - ho_issued_at b)
    (List.filter (fun o => String.eqb (ho_host o) id && order_open o && (at_ <? ho_not_after o)) l)).

(** ** The owner's documents *)

Definition owner_kind (k : string) : bool := str_in k OWNER_ORDER_KINDS.
Definition arg_version (o : HOrder) : option Z := as_int (field (ho_arg o) "version").
Definition owner_order_of (id : string) (o : HOrder) : bool := String.eqb (ho_host o) id && owner_kind (ho_kind o).
(** OWNER_VERSION_SQL *)
Definition owner_version (id : string) (l : list HOrder) : Z :=
  fold_right Z.max 0 (omap (fun o => if owner_order_of id o then arg_version o else None) l).
(** OWNER_VERSION_TAKEN_SQL; no version for any other kind. *)
Definition version_taken (id : string) (v : option Z) (l : list HOrder) : bool :=
  match v with
  | None => false
  | Some v => existsb (fun o => owner_order_of id o && match arg_version o with Some n => v <=? n | None => false end) l
  end.
Definition nextOwnerVersion (d : HDB) (id : string) (h : HostR) : Z :=
  Z.max (owner_version id (horders d)) (default 0 (ro ← reportedOwnerOf (lr_text (r_said h)); ro_version ro)) + 1.

(** The confirmed seal key, or the refusal. *)
Definition jstr (s : option string) : option json := JStr <$> s.
Definition confirmedSeal (h : HostR) : string + (Z * string) :=
  match sealKeyOf (jstr (lr_seal_key (r_said h))) with
  | None => inr (409, "seal_key")
  | Some key =>
      let c := s ← r_seal_confirmed h; if truthy s then json_parse s else None in
      if ostr_eqb (as_str (field c "key")) (Some key) then inl key else inr (409, "seal_key")
  end.

(** The fields of an assertion as a page posts them. *)
Definition assertionFields (v : option json) : json :=
  let s k max := match as_str (field v k) with Some x => if slen x <=? max then x else "" | None => "" end in
  JObj [("credential", JStr (s "credential" 1400)); ("client_data", JStr (s "client_data" 4096));
        ("authenticator_data", JStr (s "authenticator_data" 2048)); ("signature", JStr (s "signature" 1024));
        ("user_handle", JStr (s "user_handle" 128))].

(** What is said of an owner order: its version, the envelope or the keys' names. *)
Inductive OwnerWhat := WhatEnvelope (w : list (string * json)) | WhatKeys (names : list string).
Record OwnerOrder := { oo_doc : string; oo_version : Z; oo_what : OwnerWhat }.
Definition key_shown (k : SealedKeyArg) : string := match k with Removed n => n +:+ " (taken out)" | Sealed n _ _ _ => n end.
Definition version_of (d : OwnerDocInput) : option Z := int (d_version d) 1 MAX_SAFE.
Definition live_doc (d : OwnerDocInput) (now : Z) : bool := match date_parse (d_not_after d) with Some t => now <? t | None => false end.
Definition act_eqb (a b : OwnerAct) : bool := String.eqb (act_word a) (act_word b).
(** [Number.isSafeInteger(v) && v >= 1] is [version_of]. *)
Definition ownerOrder (kind id : string) (h : HostR) (login : string) (b : option json) (now : Z) : OwnerOrder + (Z * string) :=
  match readOwnerDoc (field b "doc"), as_str (field b "doc") with
  | Some d, Some doc =>
      match version_of d with
      | None => inr (400, "doc")
      | Some version =>
          if negb (String.eqb (act_word (d_act d)) kind && String.eqb (d_host d) id && String.eqb (d_by d) login) then inr (400, "doc")
          else if negb (live_doc d now) then inr (409, "doc")
          else if String.eqb kind "widen-envelope" then
            match widening (d_envelope d) with
            | inr _ => inr (400, "arg")
            | inl w => inl {| oo_doc := doc; oo_version := version; oo_what := WhatEnvelope w |}
            end
          else match sealedKeys (d_keys d) with
          | inr _ => inr (400, "arg")
          | inl k =>
              match confirmedSeal h with
              | inr x => inr x
              | inl seal =>
                  if negb (ostr_eqb (as_str (d_seal_key d)) (Some seal)) then inr (409, "seal_key")
                  else inl {| oo_doc := doc; oo_version := version; oo_what := WhatKeys (map key_shown k) |}
              end
          end
      end
  | _, _ => inr (400, "doc")
  end.

(** ** An order given *)

(** A passkey's answer for an act, and for the document it signs, if any. *)
Abbreviation DocConfirm := (string -> option string -> string + Z * string).
Definition arg_json (a : OrderArg) : json :=
  match a with
  | ArgUnits n => JObj [("units", match n with Some n => JInt n | None => JNull end)]
  | ArgEmulate l => JObj [("emulate", match l with Some l => JArr (map JStr l) | None => JNull end)]
  end.
(** What the row keeps: the document and its assertion whole, or the settings' value. *)
Definition stored_arg (owner : option OwnerOrder) (arg : OrderArgRead) (b : option json) : option json :=
  match owner, arg with
  | Some o, _ => Some (JObj [("version", JInt (oo_version o)); ("doc", JStr (oo_doc o)); ("assertion", assertionFields (field b "assertion"))])
  | None, TheArg a => Some (arg_json a)
  | None, _ => None
  end.
Definition kind_open (id kind : string) (l : list HOrder) : bool :=
  existsb (fun o => String.eqb (ho_host o) id && String.eqb (ho_kind o) kind && order_open o) l.
Definition id_taken (oid : string) (l : list HOrder) : bool := existsb (fun o => String.eqb (ho_id o) oid) l.
Definition set_journal_order (o : HOrder) (status : string) : HLine :=
  {| hl_about := ho_host o; hl_action := "order"; hl_by := ho_by o; hl_status := status |}.
(** The batch: the past ones expired, the row while the host is active and no other document took its version, its line. A
    unique key (the id, or the one open order per kind) fails the whole batch. *)
Definition order_batch (o : HOrder) (version : option Z) (status : string) (d : HDB) : HDB * Reply :=
  let id := ho_host o in
  let l := expire_host id (ho_issued_at o) (horders d) in
  let takes := host_at id (fun h => is_active (lf_status (r_life h))) d && negb (version_taken id version l) in
  if takes && (id_taken (ho_id o) l || kind_open id (ho_kind o) l) then (d, Not 409 "order_open")
  else
    let l := if takes then (l ++ [o])%list else l in
    let there := id_taken (ho_id o) l in
    (journal_when there (set_journal_order o status) (set_horders l d), if there then Did else Not 409 "host_right").
Definition handleHostOrder (v : Visit) (id : string) (b : option json) (confirm : DocConfirm) (oid : string) (read d : HDB) : HDB * Reply :=
  let no s c := (d, Not s c) in
  match personAct v with Some (s, c) => no s c | None =>
  match hosts read !! id with None => no 404 "" | Some h =>
  match one_of HOST_ORDER_KINDS (field b "kind") with None => no 400 "kind" | Some kind =>
  match hostVerdicts (Some (viewerOf read (vs_login v))) (shown h) (RIGHT_OF kind) with No s _ => no s "host_right" | Yes =>
  match orderArg kind b with BadArg _ => no 400 "arg" | arg =>
  match (if owner_kind kind then match ownerOrder kind id h (vs_login v) b (vs_now v) with inl o => inl (Some o) | inr x => inr x end
         else inl None) with
  | inr (s, c) => no s c
  | inl owner =>
  if match owner with Some o => oo_version o <? nextOwnerVersion read id h | None => false end then no 409 "version"
  else
    let ok :=
      if String.eqb kind "retire-legacy" then Some (confirm ("host:retire-legacy:" +:+ id) None)
      else o ← owner; Some (confirm ("host:" +:+ kind +:+ ":" +:+ id) (Some (oo_doc o))) in
    match ok with
    | Some (inr (s, c)) => no s c
    | _ =>
        order_batch {| ho_id := oid; ho_host := id; ho_kind := kind; ho_by := vs_login v;
                       ho_confirmed := match ok with Some (inl p) => Some p | _ => None end;
                       ho_issued_at := vs_now v; ho_not_after := vs_now v + HOST_ORDER_TTL_MIN * MIN;
                       ho_arg := stored_arg owner arg b; ho_state := HOopen; ho_answered_at := None; ho_detail := None |}
                    (oo_version <$> owner)
                    (match owner with Some _ => "warn" | None => if String.eqb kind "retire-legacy" then "warn" else "ok" end) d
    end
  end end end end end end.

(** ** The challenge, the pin, the seal key *)

(** The page's relying party; the login's passkeys; whether the challenge could be issued. *)
Record Page := { pg_rp : option (string * string); pg_keys : list string; pg_issued : bool }.
Definition sealed_json (k : SealedKeyArg) : json :=
  match k with
  | Removed n => JObj [("name", JStr n); ("remove", JBool true)]
  | Sealed n epk nonce ct => JObj [("name", JStr n); ("epk", JStr epk); ("nonce", JStr nonce); ("ct", JStr ct)]
  end.
Definition base_doc (act : OwnerAct) (id login : string) (now until : Z) : OwnerDocInput :=
  {| d_act := act; d_host := id; d_version := None; d_issued_at := iso now; d_not_after := iso until; d_by := login;
     d_rp_id := None; d_origin := None; d_envelope := None; d_seal_key := None; d_keys := None |}.
(** The document of an act, and the passkeys allowed ([None]: any of the login's). *)
Definition challenge_doc (act : OwnerAct) (id login rp origin : string) (h : HostR) (pg : Page) (b : option json) (now : Z) (read : HDB)
    : OwnerDocInput * option (list string) + (Z * string) :=
  match act with
  | PinPasskey =>
      let d := base_doc act id login now (now + PIN_DOC_TTL_MIN * MIN) in
      inl ({| d_act := act; d_host := id; d_version := None; d_issued_at := d_issued_at d; d_not_after := d_not_after d; d_by := login;
              d_rp_id := Some (JStr rp); d_origin := Some (JStr origin); d_envelope := None; d_seal_key := None; d_keys := None |}, None)
  | _ =>
      match (ro ← reportedOwnerOf (lr_text (r_said h)); ro_passkey ro) with
      | None => inr (409, "not_pinned")
      | Some p =>
          if negb (String.eqb (pp_rp_id p) rp && String.eqb (pp_origin p) origin) then inr (409, "not_pinned")
          else if negb (str_in (pp_credential p) (pg_keys pg)) then inr (409, "not_pinned")
          else
            let version := Some (JInt (nextOwnerVersion read id h)) in
            let d := base_doc act id login now (now + OWNER_DOC_TTL_MIN * MIN) in
            let doc env seal keys :=
              inl ({| d_act := act; d_host := id; d_version := version; d_issued_at := d_issued_at d; d_not_after := d_not_after d;
                      d_by := login; d_rp_id := None; d_origin := None; d_envelope := env; d_seal_key := seal; d_keys := keys |},
                   Some [pp_credential p]) in
            if act_eqb act WidenEnvelope then
              match widening (field b "envelope") with inr _ => inr (400, "arg") | inl w => doc (Some (JObj w)) None None end
            else match sealedKeys (field b "keys") with
            | inr _ => inr (400, "arg")
            | inl k =>
                match confirmedSeal h with
                | inr x => inr x
                | inl seal => doc None (Some (JStr seal)) (Some (JArr (map sealed_json k)))
                end
            end
      end
  end.
(** Who may, on what page, for which act. *)
Definition owner_head (v : Visit) (id : string) (read : HDB) : HostR + (Z * string) := host_act v id Rowner read.
(** The document to sign and the credentials asked for it. *)
Definition handleOwnerChallenge (v : Visit) (id : string) (pg : Page) (b : option json) (read : HDB)
    : OwnerDocInput * list string + (Z * string) :=
  match owner_head v id read with
  | inr x => inr x
  | inl h =>
      match pg_rp pg with
      | None => inr (403, "rp_unavailable")
      | Some (rp, origin) =>
          match act_of (field b "act") with
          | None => inr (400, "act")
          | Some act =>
              match challenge_doc act id (vs_login v) rp origin h pg b (vs_now v) read with
              | inr x => inr x
              | inl (d, allow) =>
                  match pg_keys pg with
                  | [] => inr (403, "no_passkey")
                  | keys => if negb (pg_issued pg) then inr (429, "rate_limited") else inl (d, default keys allow)
                  end
              end
          end
      end
  end.
(** [key]: the public key and algorithm registered for the passkey that answered. The pin is text. *)
Definition handleOwnerPin (v : Visit) (id : string) (b : option json) (confirm : DocConfirm) (key : string -> option (string * Z))
    (read d : HDB) : HDB * (string + (Z * string)) :=
  let no s c := (d, inr (s, c)) in
  match owner_head v id read with
  | inr (s, c) => no s c
  | inl h =>
      match readOwnerDoc (field b "doc"), as_str (field b "doc") with
      | Some x, Some doc =>
          if negb (act_eqb (d_act x) PinPasskey && String.eqb (d_host x) id && String.eqb (d_by x) (vs_login v)) then no 400 "doc"
          else if negb (live_doc x (vs_now v)) then no 409 "doc"
          else match confirm ("host:pin-passkey:" +:+ id) (Some doc) with
          | inr (s, c) => no s c
          | inl pk =>
              match key pk with
              | None => no 409 "not_yours"
              | Some (pub, alg) =>
                  (journal_when true {| hl_about := id; hl_action := "pin"; hl_by := vs_login v; hl_status := "ok" |} d,
                   inl (toB64url (bytes_of (json_text (JObj [("doc", JStr doc); ("assertion", assertionFields (field b "assertion"));
                                                             ("public_key", JStr pub); ("alg", JInt alg)])))))
              end
          end
      | _, _ => no 400 "doc"
      end
  end.
Definition handleSealKeyConfirm (v : Visit) (id : string) (b : option json) (confirm : DocConfirm) (read d : HDB) : HDB * Reply :=
  let no s c := (d, Not s c) in
  match owner_head v id read with
  | inr (s, c) => no s c
  | inl h =>
      match sealKeyOf (jstr (lr_seal_key (r_said h))) with
      | None => no 409 "seal_key"
      | Some key =>
          if negb (ostr_eqb (sealKeyOf (field b "key")) (Some key)) then no 409 "seal_key"
          else match confirm ("host:seal-key:" +:+ id) None with
          | inr (s, c) => no s c
          | inl pk =>
              let move i (x : HostR) := String.eqb i id && ostr_eqb (lr_seal_key (r_said x)) (Some key) in
              let changed := touches move d in
              let said := json_text (JObj [("key", JStr key); ("by", JStr (vs_login v)); ("at", JStr (iso (vs_now v))); ("passkey", JStr pk)]) in
              (journal_when changed {| hl_about := id; hl_action := "seal-key"; hl_by := vs_login v; hl_status := "ok" |}
                 (map_hosts move (with_seal said) d),
               if changed then Did else Not 409 "seal_key")
          end
      end
  end.

(** ** The report *)

Definition HOST_ROW_TOUCH_MIN : Z := 5.
(** [hostingShortOf]: whether a level does not meet the hosting requirement. *)
Definition hostingShortOf (isolation : option string) (dedicated : option bool) : bool :=
  match isolation, dedicated with
  | Some i, _ => if String.eqb i "root" then true
                 else (String.eqb i "user" || String.eqb i "vm-shared") && match dedicated with Some b => negb b | None => false end
  | None, _ => false
  end.
Definition agent_version_of (v : option json) : option string := if_text v (fun s => match semver (Some s) with Some _ => true | None => false end).
(** [/^[a-z0-9-]{1,40}$/] and [/^[A-Za-z0-9._:-]{1,80}$/] *)
Definition provider_of (v : option json) : option string := if_text v (all_sized is_low_dash 1 40).
Definition model_of (v : option json) : option string :=
  if_text v (all_sized (fun c => is_alnum c || Ascii.eqb c "." || Ascii.eqb c "_" || Ascii.eqb c ":" || Ascii.eqb c "-") 1 80).

(** What the report says of the machine: the level and [dedicated] beside the row the request read, the rest beside the row now. *)
Definition said_machine (m : HostR) (r : option json) (cap : option Capacity) (runtime : option json) (x : Machine) : Machine :=
  let said := reportedIsolation runtime (if cap then field r "capacity" else None) in
  let agent := field r "agent" in
  {| mc_key_store := mc_key_store x; mc_key_held := mc_key_held x; mc_hostname := mc_hostname x; mc_os := mc_os x; mc_arch := mc_arch x;
     mc_page_kb := mc_page_kb x; mc_runtime := first_of (json_text <$> runtime) (mc_runtime x);
     mc_isolation := first_of (si_isolation said) (mc_isolation (r_machine m));
     mc_dedicated := first_of (si_dedicated said) (mc_dedicated (r_machine m));
     mc_capacity := default (mc_capacity x) cap; mc_units := match cap with Some c => unitsOf c | None => mc_units x end;
     mc_agent_version := default (mc_agent_version x) (agent_version_of (field agent "version"));
     mc_provider := provider_of (field agent "provider"); mc_model := model_of (field agent "model") |}.
(** The rest of the row: the revert beside the row the request read. *)
Definition said_rest (m : HostR) (text : string) (r : json) (now : Z) (x : LastReport) : LastReport :=
  let f := field (Some r) in
  let rel := f "release" in
  {| lr_text := Some text; lr_at := Some now; lr_applied := tag_of (field rel "applied"); lr_target := tag_of (field rel "target");
     lr_reverted := revertAfter (lr_reverted (r_said m)) r (iso now);
     lr_soak := soakOf (Some {| soaking_until := field rel "soaking_until"; quarantine := f "quarantine" |});
     lr_behind := poolBehindOf (field rel "pool_behind_github");
     lr_seal_key := first_of (sealKeyOf (field (field (f "owner") "seal") "key")) (lr_seal_key x);
     lr_asleep_at := match f "asleep" with Some (JBool true) => first_of (lr_asleep_at x) (Some now) | _ => None end |}.

(** A settings order answered done at this report: its value is the host's settings' field. *)
Definition settings_kind (k : string) : bool := String.eqb k "set-units" || String.eqb k "set-emulate".
Definition setting_value (o : HOrder) : json :=
  match field (ho_arg o) "units" with Some JNull | None => default JNull (field (ho_arg o) "emulate") | Some v => v end.
Definition answered_here (id host : string) (s : HOState) (at_ : Z) (o : HOrder) : bool :=
  String.eqb (ho_id o) id && String.eqb (ho_host o) host && bool_decide (ho_state o = s) && oz_eqb (ho_answered_at o) (Some at_).
(** SETTINGS_FROM_ANSWER_SQL *)
Definition settings_from_answer (id host : string) (at_ : Z) (d : HDB) : HDB :=
  match List.find (fun o => answered_here id host HOdone at_ o && settings_kind (ho_kind o)) (horders d) with
  | None => d
  | Some o =>
      let k := if String.eqb (ho_kind o) "set-units" then "units" else "emulate" in
      set_hosts (alter (fun h => with_settings (put k (setting_value o) (default [] (r_settings h))) h) host (hosts d)) d
  end.
(** One answer's three statements: the order closed, its line, its settings. *)
Definition take_answer (host : string) (at_ : Z) (a : OrderAnswer) (d : HDB) : HDB :=
  let s := outcome_state (an_outcome a) in
  let d := set_horders (answer_order a host at_ (horders d)) d in
  let d := match List.find (answered_here (an_id a) host s at_) (horders d) with
           | Some o => journal_when true {| hl_about := host; hl_action := "order-answer"; hl_by := ho_by o;
                                            hl_status := match an_outcome a with Odone => "ok" | _ => "warn" end |} d
           | None => d
           end in
  settings_from_answer (an_id a) host at_ d.

(** What was written, or why not: the status and code. *)
Inductive ReportReply := Written | Same | NotTaken (status : Z) (code : string).
Section Report.
Context (leak : string -> bool).
(** The level and [dedicated] moved, and the pool seen behind GitHub: a line each. *)
Definition level_lines (id : string) (was : HostR) (now_ : Machine) (behind : option PoolBehind) (d : HDB) : HDB :=
  let b (x : option PoolBehind) := match x with Some _ => true | None => false end in
  let d := journal_when (negb (Bool.eqb (b (lr_behind (r_said was))) (b behind)))
    {| hl_about := id; hl_action := "pool-behind-github"; hl_by := ""; hl_status := if b behind then "warn" else "ok" |} d in
  journal_when (negb (ostr_eqb (mc_isolation now_) (mc_isolation (r_machine was)))
                || negb (bool_decide (mc_dedicated now_ = mc_dedicated (r_machine was))))
    {| hl_about := id; hl_action := "isolation"; hl_by := "";
       hl_status := if hostingShortOf (mc_isolation now_) (mc_dedicated now_) then "warn" else "ok" |} d.
(** The capacity of a report: none, or whole with the host's own native lane. *)
Definition report_capacity (h : HostR) (v : option json) : option Capacity + (Z * string) :=
  match v with
  | None | Some JNull => inl None
  | v =>
      match parseCapacity v with
      | inr _ => inr (400, "")
      | inl c => if native_is c (mc_arch (r_machine h)) then inl (Some c) else inr (400, "")
      end
  end.
Definition report_runtime (v : option json) : option json := if an_object v then v else None.
(** [h]: the row the signed request read. *)
Definition handleHostReport (id : string) (h : HostR) (text : string) (now : Z) (d : HDB) : HDB * ReportReply :=
  match json_parse text with
  | None => (d, NotTaken 400 "")
  | Some r =>
      if negb (is_obj (Some r)) then (d, NotTaken 400 "")
      else if leak text then (d, NotTaken 422 "leak")
      else if ostr_eqb (lr_text (r_said h)) (Some text)
              && match lr_at (r_said h) with Some t => now - HOST_ROW_TOUCH_MIN * MIN <? t | None => false end then (d, Same)
      else match report_capacity h (field (Some r) "capacity") with
      | inr (s, c) => (d, NotTaken s c)
      | inl cap =>
          let runtime := report_runtime (field (Some r) "runtime") in
          if match runtime with Some v => 2048 <? slen (json_text v) | None => false end then (d, NotTaken 400 "")
          else
            let m := said_machine h (Some r) cap runtime in
            let d := set_hosts (alter (fun x => with_report (m (r_machine x)) (said_rest h text r now (r_said x)) now x) id (hosts d)) d in
            let d := level_lines id h (m (r_machine h)) (poolBehindOf (field (field (Some r) "release") "pool_behind_github")) d in
            (fold_left (fun d a => take_answer id now a d) (orderAnswers (field (Some r) "orders")) d, Written)
      end
  end.

(** ** Diagnostics, and the cron *)

Definition DIAGNOSTIC_LINES : nat := 500.
Definition DIAGNOSTIC_LINE_MAX : nat := 400.
Definition DIAGNOSTICS_KEEP_DAYS : Z := 7.
(** A control character of a line a space; tab and newline stay. *)
Definition plain_char (c : ascii) : ascii :=
  if is_control c && negb (Ascii.eqb c "009" || Ascii.eqb c "010") then " "%char else c.
Definition log_line (s : string) : string := str_take DIAGNOSTIC_LINE_MAX (map_chars plain_char s).
Definition handleHostDiagnostics (id : string) (b : option json) (now : Z) (d : HDB) : HDB * Reply :=
  match if_text (field b "order") HOST_ORDER_ID, (l ← as_arr (field b "lines"); if (DIAGNOSTIC_LINES <? length l)%nat then None else all_strings l) with
  | Some oid, Some raw =>
      match List.find (fun o => String.eqb (ho_id o) oid && String.eqb (ho_host o) id) (horders d) with
      | None => (d, Not 404 "order")
      | Some o =>
          if negb (String.eqb (ho_kind o) "diagnostics") then (d, Not 404 "order")
          else if negb (awaits (ho_state o)) then (d, Not 409 "order")
          else
            let said := map log_line raw in
            let kept := List.filter (fun s => negb (leak s)) said in
            let row := {| dg_host := id; dg_at := now; dg_lines := kept; dg_dropped := Z.of_nat (length said - length kept) |} in
            let row := match diags d !! oid with Some was => {| dg_host := dg_host was; dg_at := now; dg_lines := dg_lines row; dg_dropped := dg_dropped row |} | None => row end in
            (set_diags (<[oid := row]> (diags d)) d, Did)
      end
  | _, _ => (d, Not 400 "")
  end.
End Report.
(** What its state poll hands the agent; [last_seen] moved only when it is old. *)
Definition touched (now : Z) (h : HostR) : HostR :=
  if r_seen h <? now - HOST_ROW_TOUCH_MIN * MIN then with_tokens (r_tokens h) now h else h.
Definition handleHostState (id : string) (now : Z) (d : HDB) : HDB * list (string * string * Z * option json) :=
  (set_hosts (alter (touched now) id (hosts d)) d,
   map (fun o => (ho_id o, ho_kind o, ho_not_after o, ho_arg o)) (host_open_orders id now (horders d))).
Definition pruneHosts (now : Z) (d : HDB) : HDB :=
  let d := set_nonces (base.filter (fun p => now - NONCE_KEEP_MIN * MIN <= p.2) (nonces d)) d in
  let d := set_enrolls (base.filter (fun p => negb (bool_decide (e_used_at p.2 = None) && (e_expires_at p.2 <? now - 24 * 60 * MIN)) = true) (enrolls d)) d in
  let d := set_horders (expire_all now (horders d)) d in
  set_diags (base.filter (fun p => now - DIAGNOSTICS_KEEP_DAYS * DAY <= dg_at p.2) (diags d)) d.
