(* ===== verification/HostDoorFacts.v ===== *)
(** * What the hosts' doors keep, whatever the order of requests (worker/src/routes/hosts.ts)

    A run is any sequence of the doors' requests, of the agents' signed calls, of the cron and
    of the maintainer list's syncs, each on the tables as they are by then; a door's reads come
    from tables given with the request, so the requests interleave. Between them any other
    part of the pool may write the queue, the orders and the GitHub ids. *)
From S2P Require Import Prelude JsTime Json JsonText Bytes Manifest Selection Update Tasks OrderRules OrderDoor WebAuthn HostCapacity HostKeys HostReport HostRights OwnerDoc HostDoor HostStops HostPins HostOrders.
Local Open Scope string_scope.
Local Open Scope Z_scope.

Ltac bdec := breflect; repeat match goal with
  | H : bool_decide _ = true |- _ => apply bool_decide_eq_true in H
  | H : bool_decide _ = false |- _ => apply bool_decide_eq_false in H
  end.

(** ** Runs *)

Inductive HOp :=
| OpMint (v : Visit) (page : option (Z * string)) (name where_ : option json) (hash : string) (read : HDB)
| OpEnroll (size : Z) (b : option json) (text id : string) (now : Z) (read : HDB)
| OpConfirm (v : Visit) (id short : string) (read : HDB)
| OpSigned (q : Request) (max now : Z) (read : HDB)
| OpToken (id : string) (h : HostR) (hash : string) (now : Z)
| OpState (id : string) (now : Z)
| OpReport (id : string) (h : HostR) (text : string) (now : Z)
| OpDiagnostics (id : string) (b : option json) (now : Z)
| OpSuspend (v : Visit) (id : string) (reason : option json) (oid : Z -> string) (read : HDB)
| OpCap (v : Visit) (id : string) (units reason : option json) (read : HDB)
| OpResume (v : Visit) (id : string) (confirm : Confirm) (read : HDB)
| OpRetire (v : Visit) (id : string) (reason : option json) (confirm : Confirm) (read : HDB)
| OpCause (v : Visit) (login : string) (reason : option json) (confirm : Confirm) (oid : Z -> string) (read : HDB)
| OpResumeOwner (v : Visit) (login : string) (confirm : Confirm) (read : HDB)
| OpOrder (v : Visit) (id : string) (b : option json) (confirm : DocConfirm) (oid : string) (read : HDB)
| OpPin (v : Visit) (id : string) (b : option json) (confirm : DocConfirm) (key : string -> option (string * Z)) (read : HDB)
| OpSeal (v : Visit) (id : string) (b : option json) (confirm : DocConfirm) (read : HDB)
| OpPins (v : Visit) (id : string) (reason workers : option json) (fleet : Fleet) (rules : Rules) (seen : Z -> Task -> Candidate * option string)
    (read : HDB)
| OpSync (maintainers : list string) (now : Z)
| OpPrune (now : Z)
| OpElsewhere (github : gmap string Z) (o : ODB).

Definition set_ids (m : gmap string Z) (d : HDB) : HDB :=
  {| hosts := hosts d; enrolls := enrolls d; nonces := nonces d; listed := listed d; ids := m; regs := regs d; horders := horders d;
     lines := lines d; diags := diags d; odb := odb d |}.

Section Runs.
Context `{C : HostCrypto} (leak : string -> bool).
Definition hstep (o : HOp) (d : HDB) : HDB :=
  match o with
  | OpMint v page name where_ hash read => (handleMintEnrollment leak v page name where_ hash read d).1
  | OpEnroll size b text id now read => (handleEnroll leak size b text id now read d).1
  | OpConfirm v id short read => (handleConfirmHost v id short read d).1
  | OpSigned q max now read => (signedHost q max now read d).1
  | OpToken id h hash now => (handleHostToken id h hash now d).1
  | OpState id now => (handleHostState id now d).1
  | OpReport id h text now => (handleHostReport leak id h text now d).1
  | OpDiagnostics id b now => (handleHostDiagnostics leak id b now d).1
  | OpSuspend v id reason oid read => (handleSuspendHost leak v id reason oid read d).1
  | OpCap v id units reason read => (handleCapHost leak v id units reason read d).1
  | OpResume v id confirm read => (handleResumeHost v id confirm read d).1
  | OpRetire v id reason confirm read => (handleRetireHost leak v id reason confirm read d).1
  | OpCause v login reason confirm oid read => (handleRemoveForCause leak v login reason confirm oid read d).1
  | OpResumeOwner v login confirm read => (handleResumeOwner v login confirm read d).1
  | OpOrder v id b confirm oid read => (handleHostOrder v id b confirm oid read d).1
  | OpPin v id b confirm key read => (handleOwnerPin v id b confirm key read d).1
  | OpSeal v id b confirm read => (handleSealKeyConfirm v id b confirm read d).1
  | OpPins v id reason workers fleet rules seen read => (handleMovePins leak v id reason workers fleet rules seen read d).1
  | OpSync maintainers now => stopHostsOfRemovedOwners now (apply_list maintainers d)
  | OpPrune now => pruneHosts now d
  | OpElsewhere github o => set_odb o (set_ids github d)
  end.
Definition hrun (l : list HOp) (d : HDB) : HDB := fold_left (fun d o => hstep o d) l d.
Lemma hrun_app l l' d : hrun (l ++ l') d = hrun l' (hrun l d).
Proof. apply fold_left_app. Qed.
End Runs.

(** ** What a door leaves alone *)

(** The hosts' rows the same, as far as [f] sees, with the tokens and the nonces. *)
Definition alike {A} (f : HostR -> A) (d d' : HDB) : Prop :=
  (forall id, f <$> hosts d' !! id = f <$> hosts d !! id) /\ enrolls d' = enrolls d /\ nonces d' = nonces d.
#[export] Instance alike_po {A} (f : HostR -> A) : PreOrder (alike f).
Proof.
  split; [done|]. intros d1 d2 d3 (H1 & E1 & N1) (H2 & E2 & N2). split_and!; [|congruence..]. intros id. by rewrite H2.
Qed.
Section Alike.
Context {A} (f : HostR -> A).
Implicit Types d : HDB.
Lemma alike_journal b l d d' : alike f d d' -> alike f d (journal_when b l d').
Proof. by destruct b. Qed.
Lemma alike_odb o d d' : alike f d d' -> alike f d (set_odb o d').
Proof. done. Qed.
Lemma alike_regs r d d' : alike f d d' -> alike f d (set_regs r d').
Proof. done. Qed.
Lemma alike_horders l d d' : alike f d d' -> alike f d (set_horders l d').
Proof. done. Qed.
Lemma alike_diags m d d' : alike f d d' -> alike f d (set_diags m d').
Proof. done. Qed.
Lemma alike_listed l d d' : alike f d d' -> alike f d (set_listed l d').
Proof. done. Qed.
Lemma alike_map p g d d' : (forall h, f (g h) = f h) -> alike f d d' -> alike f d (map_hosts p g d').
Proof.
  intros Hg (H & E & N). split_and!; [|done..]. intros id. rewrite <- H. unfold map_hosts, set_hosts; cbn [hosts].
  rewrite map_lookup_imap. destruct (hosts d' !! id) as [h|]; [|done]. cbn. by destruct (p id h); cbn; rewrite ?Hg.
Qed.
Lemma alike_alter g i d d' : (forall h, f (g h) = f h) -> alike f d d' -> alike f d (set_hosts (alter g i (hosts d')) d').
Proof.
  intros Hg (H & E & N). split_and!; [|done..]. intros id. rewrite <- H. cbn.
  destruct (decide (i = id)) as [->|Hi]; [rewrite lookup_alter_eq | by rewrite lookup_alter_ne].
  destruct (hosts d' !! id) as [h|]; [|done]. cbn. by rewrite Hg.
Qed.
Lemma alike_at i h h' d d' :
  hosts d' !! i = Some h -> f h' = f h -> alike f d d' -> alike f d (set_hosts (<[i := h']> (hosts d')) d').
Proof.
  intros Hi Hg (H & E & N). split_and!; [|done..]. intros id. rewrite <- H. cbn.
  destruct (decide (i = id)) as [->|Hn]; [rewrite lookup_insert_eq | by rewrite lookup_insert_ne]. rewrite Hi. cbn. by rewrite Hg.
Qed.
Lemma alike_lines {B} (g : B -> HLine) l d d' : alike f d d' -> alike f d (fold_left (fun d p => journal_when true (g p) d) l d').
Proof. revert d'. induction l as [|p l IH]; intros d' H; cbn [fold_left]; [done|]. by apply IH, alike_journal. Qed.
End Alike.
Create HintDb alike.
#[export] Hint Resolve alike_journal alike_odb alike_regs alike_horders alike_diags alike_listed alike_map alike_alter : alike.
#[export] Hint Extern 0 (alike _ ?d ?d) => reflexivity : alike.
#[export] Hint Extern 0 (forall h, _ = _) => done : alike.

Lemma alike_weaken {A B} (f : HostR -> A) (g : A -> B) d d' : alike f d d' -> alike (fun h => g (f h)) d d'.
Proof.
  intros (H & ? & ?). split_and!; [|done..]. intros id. specialize (H id).
  destruct (hosts d !! id), (hosts d' !! id); cbn in *; congruence.
Qed.

(** Owner and life together: what the doors that act on neither keep. *)
Definition kept (h : HostR) : HostOwner * HostLife := (r_owner h, r_life h).
Lemma kept_answer host at_ a d d' : alike kept d d' -> alike kept d (take_answer host at_ a d').
Proof.
  intros H. unfold take_answer, settings_from_answer. repeat case_match; eauto 8 with alike.
Qed.
Lemma kept_answers host at_ l d d' : alike kept d d' -> alike kept d (fold_left (fun d a => take_answer host at_ a d) l d').
Proof. revert d'. induction l as [|a l IH]; intros d' H; cbn; [done|]. by apply IH, kept_answer. Qed.
Lemma kept_order o version status d : alike kept d (order_batch o version status d).1.
Proof. unfold order_batch. case_match; cbn [fst]; [done|]. eauto with alike. Qed.
Lemma kept_levels id h m b d d' : alike kept d d' -> alike kept d (level_lines id h m b d').
Proof. unfold level_lines. eauto with alike. Qed.

Definition acts_on_nothing (o : HOp) : bool :=
  match o with
  | OpToken _ _ _ _ | OpState _ _ | OpReport _ _ _ _ | OpDiagnostics _ _ _ | OpCap _ _ _ _ _ | OpOrder _ _ _ _ _ _
  | OpPin _ _ _ _ _ _ | OpSeal _ _ _ _ _ | OpPins _ _ _ _ _ _ _ _ | OpElsewhere _ _ => true
  | _ => false
  end.
(** The doors that stop or take back a host: its life, never its owner or a token. *)
Definition moves_life (o : HOp) : bool :=
  match o with
  | OpConfirm _ _ _ _ | OpSuspend _ _ _ _ _ | OpResume _ _ _ _ | OpRetire _ _ _ _ _ | OpCause _ _ _ _ _ _ | OpResumeOwner _ _ _ _ | OpSync _ _ => true
  | _ => false
  end.
Section Quiet.
Context `{C : HostCrypto} (leak : string -> bool).
Ltac from_batch := match goal with H : _ = (?d2, _) |- alike _ _ ?d2 => apply (f_equal fst) in H; cbn [fst] in H; subst end.
Ltac door := repeat (case_match; cbn [fst snd] in *; try done).
Lemma quiet_kept o d : acts_on_nothing o = true -> alike kept d (hstep leak o d).
Proof.
  destruct o; try done; intros _; cbn [hstep].
  - unfold handleHostToken. door; eauto 6 with alike.
  - unfold handleHostState. cbn [fst]. apply alike_alter; [|done]. intros h. unfold touched. by case_match.
  - unfold handleHostReport. door; apply kept_answers, kept_levels, alike_alter; done.
  - unfold handleHostDiagnostics. door; eauto with alike.
  - unfold handleCapHost. door; eauto with alike.
  - unfold handleHostOrder. door; apply kept_order.
  - unfold handleOwnerPin. door.
  - unfold handleSealKeyConfirm. door; eauto with alike.
  - unfold handleMovePins, repin. door; eauto with alike.
Qed.
Lemma owner_suspend s by_ reason at_ oid d d' : alike r_owner d d' -> alike r_owner d (suspendStatements s by_ reason at_ oid d').
Proof. unfold suspendStatements. eauto with alike. Qed.
Lemma owner_batch s from by_ reason action status about at_ oid d :
  alike r_owner d (suspend_batch s from by_ reason action status about at_ oid d).1.
Proof. unfold suspend_batch. cbn [fst]. apply alike_journal, owner_suspend, alike_map; done. Qed.
Lemma moves_owner o d : moves_life o = true -> alike r_owner d (hstep leak o d).
Proof.
  destruct o; try done; intros _; cbn [hstep].
  - unfold handleConfirmHost, confirm_batch. door;
      repeat first [apply alike_journal | apply alike_regs | apply alike_odb]; by eapply alike_at.
  - unfold handleSuspendHost. door; from_batch;
      apply owner_batch.
  - unfold handleResumeHost. door; eauto with alike.
  - unfold handleRetireHost. door; from_batch;
      unfold retire_batch; cbn [fst]; apply alike_journal; repeat case_match; eauto 8 with alike.
  - unfold handleRemoveForCause. door; from_batch;
      apply owner_batch.
  - unfold handleResumeOwner. door; eauto with alike.
  - unfold stopHostsOfRemovedOwners, apply_list. apply alike_lines, alike_map; [done|]. by apply alike_listed.
Qed.
End Quiet.

(** ** A pool with one host *)

(** A runtime whose hash is the bytes and whose signatures all verify. *)
Definition plain_crypto : HostCrypto := {| key_verify := fun _ _ _ _ => Some true; sha256 := fun b => b |}.
Definition no_leak (s : string) : bool := false.
Definition no_queue : ODB := {| ords := []; wrows := ∅; tdb := {| tasks := ∅; host_rows := ∅ |}; journal := [] |}.
Definition no_hosts : HDB :=
  {| hosts := ∅; enrolls := ∅; nonces := ∅; listed := ["ana"; "bo"]; ids := list_to_map [("ana", 7); ("bo", 8)]; regs := ∅; horders := [];
     lines := []; diags := ∅; odb := no_queue |}.
Definition NOW : Z := 1790000000000.
Definition ana_at (t : Z) : Visit := {| vs_login := "ana"; vs_web := true; vs_gate := None; vs_now := t |}.
Definition bo_at (t : Z) : Visit := {| vs_login := "bo"; vs_web := true; vs_gate := None; vs_now := t |}.
Definition a_token : string := "ome_0123456789abcdef0123456789abcdef0123456789abcdef".
Definition HID : string := "h_0123456789".
Definition WID : string := "ana-studio-k3f9".
Definition a_key : string := base36s (repeat 10 43).
Definition a_sig : string := base36s (repeat 10 86).
Definition enroll_body : json := JObj
  [("token", JStr a_token); ("pubkey", JStr a_key); ("sig", JStr a_sig); ("hostname", JStr "studio"); ("os", JStr "macos"); ("arch", JStr "aarch64");
   ("page_kb", JInt 16); ("isolation", JStr "vm"); ("agent_version", JStr "0.4.1");
   ("capacity", JObj [("cpus", JInt 12); ("mem_gb", JInt 32); ("disk_free_gb", JObj [("work", JInt 200); ("engine", JInt 100)]);
                      ("lanes", JArr [JObj [("arch", JStr "aarch64"); ("mode", JStr "native")]])])].
Definition op_mint : HOp :=
  OpMint (ana_at NOW) None (Some (JStr "studio")) None (sha256HexOf (C := plain_crypto) (bytes_of a_token)) no_hosts.
Definition minted : HDB := hstep (C := plain_crypto) no_leak op_mint no_hosts.
Definition op_enroll : HOp := OpEnroll 900 (Some enroll_body) "" HID (NOW + MIN) minted.
Definition enrolled : HDB := hstep (C := plain_crypto) no_leak op_enroll minted.
Definition op_confirm : HOp := OpConfirm (ana_at (NOW + 2 * MIN)) HID "k3f9" enrolled.
Definition active : HDB := hstep (C := plain_crypto) no_leak op_confirm enrolled.
Lemma the_host_is_active : (fun h => (lf_status (r_life h), lf_worker (r_life h))) <$> hosts active !! HID = Some (Hactive, Some WID).
Proof. vm_compute. reflexivity. Qed.
