(* ===== verification/HostRunFacts.v ===== *)
(** * What the hosts' doors promise (worker/src/routes/hosts.ts)

    Over every run of them: one enrollment token makes one host and one key enrolls once; a
    signed request is taken once; a suspended host runs nothing until its owner resumes it; a
    host's status moves only by the acts of the people who may. *)
From S2P Require Import Prelude JsTime Json JsonText Bytes Manifest Selection Update Tasks OrderRules OrderDoor WebAuthn HostCapacity HostKeys HostReport HostRights OwnerDoc HostDoor HostStops HostPins HostOrders HostDoorFacts.
Local Open Scope string_scope.
Local Open Scope Z_scope.

(** ** Enrollment *)

Definition spent_on (e : Enrollment) (id : string) (h : HostR) : Prop :=
  e_host e = Some id /\ e_used_at e = Some (o_enrolled_at (r_owner h)) /\ o_enrolled_at (r_owner h) < e_expires_at e
  /\ e_login e = o_login (r_owner h) /\ e_github_id e = o_github_id (r_owner h) /\ e_name e = o_name (r_owner h).
Record Enrolled (d : HDB) : Prop := {
  from_token : forall id h, hosts d !! id = Some h -> exists k e, enrolls d !! k = Some e /\ spent_on e id h;
  to_host : forall k e id, enrolls d !! k = Some e -> e_host e = Some id -> is_Some (hosts d !! id) /\ e_used_at e <> None;
  one_token : forall k k' e e' id, enrolls d !! k = Some e -> enrolls d !! k' = Some e' -> e_host e = Some id -> e_host e' = Some id -> k = k';
  one_key : forall id id' h h', hosts d !! id = Some h -> hosts d !! id' = Some h' -> o_pubkey (r_owner h) = o_pubkey (r_owner h') -> id = id' }.

Lemma alike_back {A} (f : HostR -> A) d d' id h' :
  alike f d d' -> hosts d' !! id = Some h' -> exists h, hosts d !! id = Some h /\ f h = f h'.
Proof. intros (H & _) E. specialize (H id). rewrite E in H. destruct (hosts d !! id) as [h|]; [|done]. cbn in H. exists h. split; [done|congruence]. Qed.
Lemma alike_some {A} (f : HostR -> A) d d' id : alike f d d' -> is_Some (hosts d !! id) -> is_Some (hosts d' !! id).
Proof. intros (H & _) [h E]. specialize (H id). rewrite E in H. destruct (hosts d' !! id); [by eexists|done]. Qed.

Lemma enrolled_alike d d' : alike r_owner d d' -> Enrolled d -> Enrolled d'.
Proof.
  intros Ha [F T O K]. pose proof Ha as (_ & He & _). split.
  - intros id h' Hh. destruct (alike_back _ _ _ _ _ Ha Hh) as (h & Hd & Ho). destruct (F _ _ Hd) as (k & e & Hk & Hs).
    exists k, e. rewrite He. split; [done|]. unfold spent_on in *. by rewrite <- Ho.
  - intros k e id. rewrite He. intros Hk Hi. destruct (T _ _ _ Hk Hi). split; [|done]. by eapply alike_some.
  - intros k k' e e' id. rewrite He. eauto.
  - intros i i' h h' Hi Hi' Hp. destruct (alike_back _ _ _ _ _ Ha Hi) as (g & Hg & Ho), (alike_back _ _ _ _ _ Ha Hi') as (g' & Hg' & Ho').
    apply (K i i' g g'); [done..|]. by rewrite Ho, Ho'.
Qed.
(** Rows of no host come and go. *)
Lemma enrolled_tokens d d' :
  hosts d' = hosts d -> (forall k e id, e_host e = Some id -> enrolls d' !! k = Some e <-> enrolls d !! k = Some e) -> Enrolled d -> Enrolled d'.
Proof.
  intros Hh He [F T O K]. split; rewrite ?Hh.
  - intros id h Hi. destruct (F _ _ Hi) as (k & e & Hk & Hs). exists k, e. split; [|done]. apply (He k e id); [apply Hs|done].
  - intros k e id Hk Hi. apply (He k e id Hi) in Hk. eauto.
  - intros k k' e e' id Hk Hk' Hi Hi'. apply (He k e id Hi) in Hk. apply (He k' e' id Hi') in Hk'. eauto.
  - done.
Qed.
Lemma key_free d pubkey id h : key_taken d pubkey = false -> hosts d !! id = Some h -> o_pubkey (r_owner h) <> pubkey.
Proof.
  intros Hk Hi He. unfold key_taken in Hk. apply not_true_iff_false in Hk. apply Hk, existsb_exists. exists (id, h).
  split; [by apply list_elem_of_In, elem_of_map_to_list|]. cbn. by apply String.eqb_eq.
Qed.
Section Enrollment.
Context `{C : HostCrypto} (leak : string -> bool).
Lemma enrolled_batch a id now d : Enrolled d -> Enrolled (enroll_batch a id now d).1.
Proof.
  intros [F T O K]. unfold enroll_batch. destruct (enrolls d !! k_hash a) as [e|] eqn:Ek; [|done].
  destruct (ostr_eqb _ _) eqn:Eh; [|done]. destruct (key_taken d (k_pubkey a)) eqn:Ekt; [done|].
  destruct (hosts d !! id) as [|] eqn:Ei; [done|]. cbn [orb fst].
  destruct (burns e now d) eqn:Eb; cycle 1.
  { apply ostr_eqb_eq in Eh. destruct (T _ _ _ Ek Eh) as [[h Hh] _]. congruence. }
  assert (Hno : forall k e, enrolls d !! k = Some e -> e_host e <> Some id).
  { intros k e0 Hk Hi. destruct (T _ _ _ Hk Hi) as [[h Hh] _]. congruence. }
  unfold burns in Eb. breflect. split; cbn [hosts enrolls set_hosts set_enrolls].
  - intros i h. destruct (decide (i = id)) as [->|Hn].
    + rewrite lookup_insert_eq. intros [= <-]. exists (k_hash a), (burnt id now e). rewrite lookup_insert_eq. split; [done|]. unfold spent_on; cbn.
      split_and!; try done.
    + rewrite lookup_insert_ne by done. intros Hi. destruct (F _ _ Hi) as (k & e0 & Hk & Hs). exists k, e0. split; [|done].
      rewrite lookup_insert_ne; [done|]. intros <-. destruct Hs as (_ & Hu & _). rewrite Ek in Hk. injection Hk as ->. by rewrite Hu in *.
  - intros k e0 i. destruct (decide (k = k_hash a)) as [->|Hn].
    + rewrite lookup_insert_eq. intros [= <-] [= <-]. rewrite lookup_insert_eq. split; [by eexists|done].
    + rewrite lookup_insert_ne by done. intros Hk Hi. destruct (T _ _ _ Hk Hi) as [Hs Hu]. split; [|done].
      rewrite lookup_insert_ne; [done|]. intros <-. by eapply Hno.
  - intros k k' e0 e0' i. destruct (decide (k = k_hash a)) as [->|Hn], (decide (k' = k_hash a)) as [->|Hn']; [done| | |].
    + rewrite lookup_insert_eq, lookup_insert_ne by done. intros [= <-] Hk' [= <-] Hi. exfalso. by eapply Hno.
    + rewrite lookup_insert_ne, lookup_insert_eq by done. intros Hk [= <-] Hi [= <-]. exfalso. by eapply Hno.
    + rewrite !lookup_insert_ne by done. eauto.
  - intros i i' h h'. destruct (decide (i = id)) as [->|Hn], (decide (i' = id)) as [->|Hn']; [done| | |].
    + rewrite lookup_insert_eq, lookup_insert_ne by done. intros [= <-] Hi Hp. exfalso. by eapply key_free.
    + rewrite lookup_insert_ne, lookup_insert_eq by done. intros Hi [= <-] Hp. exfalso. by eapply key_free.
    + rewrite !lookup_insert_ne by done. eauto.
Qed.
Lemma enrolled_step o d : Enrolled d -> Enrolled (hstep leak o d).
Proof.
  intros He. destruct (acts_on_nothing o) eqn:Ea.
  { eapply enrolled_alike; [|done]. apply (alike_weaken kept fst). by apply quiet_kept. }
  destruct (moves_life o) eqn:Em; [eapply enrolled_alike; [by apply moves_owner|done]|].
  destruct o; try done; cbn [hstep].
  - unfold handleMintEnrollment. repeat (case_match; cbn [fst]; try done). apply (enrolled_tokens d); [done| |done].
    intros k e i Hi. cbn [enrolls set_enrolls]. destruct (decide (hash = k)) as [->|Hn]; [|by rewrite lookup_insert_ne].
    rewrite lookup_insert_eq. split; [intros [= <-]; done|congruence].
  - unfold handleEnroll. repeat (case_match; cbn [fst]; try done). by apply enrolled_batch.
  - unfold signedHost. repeat (case_match; cbn [fst]; try done). by apply (enrolled_tokens d).
  - apply (enrolled_tokens d); [done| |done]. intros k e i Hi. cbn -[base.filter]. rewrite map_lookup_filter_Some. split; [by intros []|].
    intros Hk. split; [done|]. cbn. destruct He as [_ T _ _]. destruct (T _ _ _ Hk Hi) as [_ Hu]. by destruct (e_used_at e).
Qed.
Lemma enrolled_run ops d : Enrolled d -> Enrolled (hrun leak ops d).
Proof. revert d. induction ops as [|o l IH]; intros d H; cbn; [done|]. by apply IH, enrolled_step. Qed.

(** over every run of the hosts' doors from an empty table, every host came from one token its owner
    made, spent while it was live on that host alone, with the owner's login, GitHub id and name; a spent
    token's host is there; and no key enrolls twice. *)
Theorem enrollment_spent_once ops d :
  hosts d = ∅ -> enrolls d = ∅ -> let d' := hrun leak ops d in
  (forall id h, hosts d' !! id = Some h -> exists k e, enrolls d' !! k = Some e /\ spent_on e id h
     /\ forall k' e', enrolls d' !! k' = Some e' -> e_host e' = Some id -> k' = k)
  /\ (forall k e id, enrolls d' !! k = Some e -> e_host e = Some id -> is_Some (hosts d' !! id))
  /\ (forall id id' h h', hosts d' !! id = Some h -> hosts d' !! id' = Some h' -> o_pubkey (r_owner h) = o_pubkey (r_owner h') -> id = id').
Proof.
  intros Hh He d'. assert (H : Enrolled d').
  { apply enrolled_run. split; rewrite ?Hh, ?He; intros *; rewrite lookup_empty; done. }
  destruct H as [F T O K]. split_and!; [|by intros k e id Hk Hi; destruct (T k e id Hk Hi)|done].
  intros id h Hi. destruct (F _ _ Hi) as (k & e & Hk & Hs). exists k, e. split_and!; [done..|]. intros k' e' Hk' Hi'.
  eapply O; [done|done|done|apply Hs].
Qed.
End Enrollment.

(** ** The signed request *)

Section Once.
Context `{C : HostCrypto} (leak : string -> bool).
Definition prunes_by (t : Z) (o : HOp) : Prop := match o with OpPrune now => now <= t | _ => True end.
Lemma nonce_step k t o d : prunes_by (t + NONCE_KEEP_MIN * MIN) o -> nonces d !! k = Some t -> nonces (hstep leak o d) !! k = Some t.
Proof.
  intros Hp Hk. destruct (acts_on_nothing o) eqn:Ea.
  { destruct (quiet_kept leak o d Ea) as (_ & _ & ->). done. }
  destruct (moves_life o) eqn:Em; [destruct (moves_owner leak o d Em) as (_ & _ & ->); done|].
  destruct o; try done; cbn [hstep prunes_by] in *.
  - unfold handleMintEnrollment. by repeat (case_match; cbn [fst]; try done).
  - unfold handleEnroll, enroll_batch. by repeat (case_match; cbn [fst]; try done).
  - unfold signedHost. repeat (case_match; cbn [fst]; try done). cbn [nonces set_nonces]. rewrite lookup_insert_ne; [done|congruence].
  - cbn -[base.filter]. apply map_lookup_filter_Some. split; [done|]. cbn. unfold NONCE_KEEP_MIN, MIN in *. lia.
Qed.
Lemma nonce_run k t ops d : Forall (prunes_by (t + NONCE_KEEP_MIN * MIN)) ops -> nonces d !! k = Some t -> nonces (hrun leak ops d) !! k = Some t.
Proof. intros H. revert d. induction H as [|o l Ho Hl IH]; intros d Hk; cbn; [done|]. by apply IH, nonce_step. Qed.
Lemma signed_at q max now read d d1 id h :
  signedHost q max now read d = (d1, SignedAs id h) -> exists hdr, parseHostHeader (q_header q) = Some hdr /\ id = hh_host hdr
  /\ Z.abs (hh_ts hdr - now / 1000) <= SIGNED_SKEW_S /\ nonces d !! (hh_host hdr, hh_nonce hdr) = None
  /\ d1 = set_nonces (<[(hh_host hdr, hh_nonce hdr) := now]> (nonces d)) d
  /\ hosts read !! id = Some h /\ lf_status (r_life h) <> Hsuspended /\ lf_status (r_life h) <> Hretired.
Proof.
  unfold signedHost. intros H. repeat (case_match; try done). injection H as <- <- <-. eexists. breflect. split_and!; try done; try lia.
  all: intros E; rewrite E in *; done.
Qed.

(** C24: whatever the hosts' doors do between, and even over stale reads, the words an agent signed are
    taken once: a second request with the same host, nonce and time is refused, as long as no cron before
    it ran more than 59 seconds ahead of its clock. The nonce is kept for longer than the signature lives. *)
Theorem signed_request_taken_once q max now read d d1 id h ops q' max' now' read' hdr hdr' :
  signedHost q max now read d = (d1, SignedAs id h) ->
  parseHostHeader (q_header q) = Some hdr -> parseHostHeader (q_header q') = Some hdr' ->
  (hh_host hdr', hh_nonce hdr', hh_ts hdr') = (hh_host hdr, hh_nonce hdr, hh_ts hdr) ->
  Forall (prunes_by (now' + 59000)) ops ->
  forall id' h', (signedHost q' max' now' read' (hrun leak ops d1)).2 <> SignedAs id' h'.
Proof.
  intros Hs Hq Hq' Heq Hp id' h' Ha. destruct (signedHost q' _ _ _ _) as [d2 s] eqn:E. cbn in Ha. subst s.
  apply signed_at in Hs as (x & Hx & _ & Hnow & _ & -> & _). apply signed_at in E as (y & Hy & _ & Hnow' & Hno & _).
  rewrite Hq in Hx. rewrite Hq' in Hy. injection Hx as <-. injection Hy as <-. injection Heq as Eh En Et. rewrite Eh, En, Et in *.
  assert (now' + 59000 <= now + NONCE_KEEP_MIN * MIN) as Hle.
  { unfold SIGNED_SKEW_S, NONCE_KEEP_MIN, MIN in *. Z.to_euclidean_division_equations. lia. }
  rewrite (nonce_run _ now) in Hno; [done| |by cbn; rewrite lookup_insert_eq].
  eapply Forall_impl; [exact Hp|]. intros []; cbn; lia.
Qed.
End Once.

(** ** A host's status *)

(** The person is the host's owner, by GitHub user id, as the act read the ids. *)
Definition theirs_now (v : Visit) (read : HDB) (h : HostR) : bool :=
  match githubIdOf read (vs_login v) with Some g => g =? o_github_id (r_owner h) | None => false end.
Definition said_yes (x : string + Z * string) : bool := match x with inl _ => true | inr _ => false end.
(** Whose act moves a host from one status to another, and how. *)
Definition may_move (leak : string -> bool) (o : HOp) (id : string) (h : HostR) (s s' : HStatus) : Prop :=
  match o with
  | OpConfirm v i _ read =>
      i = id /\ s = Hpending /\ s' = Hactive /\ vs_web v = true /\ vs_login v = o_login (r_owner h) /\ theirs_now v read h = true
      /\ roleFor read (vs_login v) = true
  | OpSuspend v i reason _ read =>
      i = id /\ s = Hactive /\ s' = Hsuspended /\ vs_web v = true /\ (theirs_now v read h || roleFor read (vs_login v)) = true
      /\ reasonOf leak reason <> None
  | OpResume v i confirm read =>
      i = id /\ s = Hsuspended /\ s' = Hactive /\ vs_web v = true /\ theirs_now v read h = true /\ roleFor read (vs_login v) = true
      /\ said_yes (confirm ("host:resume:" +:+ id)) = true
  | OpRetire v i reason confirm read =>
      i = id /\ s <> Hretired /\ s' = Hretired /\ vs_web v = true /\ reasonOf leak reason <> None
      /\ (theirs_now v read h || (roleFor read (vs_login v) && said_yes (confirm ("host:retire:" +:+ id)))) = true
  | OpCause v login reason confirm _ read =>
      (s = Hactive \/ s = Hsuspended) /\ s' = Hsuspended /\ vs_web v = true /\ roleFor read (vs_login v) = true /\ login <> vs_login v
      /\ scoped (ownerKey read login) id h = true /\ (githubIdOf read login <> None -> theirs_now v read h = false)
      /\ reasonOf leak reason <> None /\ said_yes (confirm ("host:cause:" +:+ login)) = true
  | _ => False
  end.
(** The tables a request's checks read. *)
Definition hop_read (o : HOp) : option HDB :=
  match o with
  | OpMint _ _ _ _ _ r | OpEnroll _ _ _ _ _ r | OpConfirm _ _ _ r | OpSigned _ _ _ r | OpSuspend _ _ _ _ r | OpCap _ _ _ _ r
  | OpResume _ _ _ r | OpRetire _ _ _ _ r | OpCause _ _ _ _ _ r | OpResumeOwner _ _ _ r | OpOrder _ _ _ _ _ r | OpPin _ _ _ _ _ r
  | OpSeal _ _ _ _ r | OpPins _ _ _ _ _ _ _ r => Some r
  | _ => None
  end.

Lemma host_act_yes v id right read h :
  host_act v id right read = inl h -> vs_web v = true /\ hosts read !! id = Some h
  /\ verdict_of (viewerOf read (vs_login v)) (shown h) right = Yes.
Proof. unfold host_act, personAct. intros H. repeat (case_match; try done). injection H as <-. split_and!; try done. by destruct (vs_web v). Qed.
Lemma map_hosts_at p f d id : hosts (map_hosts p f d) !! id = (fun h => if p id h then f h else h) <$> hosts d !! id.
Proof. unfold map_hosts. cbn. rewrite map_lookup_imap. by destruct (hosts d !! id). Qed.
Lemma hosts_journal b l d : hosts (journal_when b l d) = hosts d.
Proof. by destruct b. Qed.
Section Status.
Context `{C : HostCrypto} (leak : string -> bool).
Lemma enroll_keeps a i now d id h : hosts d !! id = Some h -> hosts (enroll_batch a i now d).1 !! id = Some h.
Proof.
  intros Hi. unfold enroll_batch. destruct (enrolls d !! _) as [e|]; [|done]. destruct (ostr_eqb _ _); [|done].
  destruct (key_taken _ _); [done|]. destruct (hosts d !! i) eqn:E; [done|]. cbn [orb fst hosts set_hosts]. by rewrite lookup_insert_ne by congruence.
Qed.
Lemma owner_step o d id h : hosts d !! id = Some h -> exists h', hosts (hstep leak o d) !! id = Some h' /\ r_owner h' = r_owner h.
Proof.
  intros Hi. assert (Hal : alike r_owner d (hstep leak o d) -> exists h', hosts (hstep leak o d) !! id = Some h' /\ r_owner h' = r_owner h).
  { intros (H & _). specialize (H id). rewrite Hi in H. destruct (hosts (hstep leak o d) !! id) as [h'|]; [|done]. exists h'. split; [done|].
    cbn in H. congruence. }
  destruct (acts_on_nothing o) eqn:Ea; [by apply Hal, (alike_weaken kept fst), quiet_kept|].
  destruct (moves_life o) eqn:Em; [by apply Hal, moves_owner|].
  assert (Hh : hosts (hstep leak o d) = hosts d -> exists h', hosts (hstep leak o d) !! id = Some h' /\ r_owner h' = r_owner h)
    by (intros ->; by exists h).
  destruct o; try done; cbn [hstep] in *; clear Hal.
  - apply Hh. unfold handleMintEnrollment. by repeat (case_match; cbn [fst]; try done).
  - unfold handleEnroll. repeat (case_match; cbn [fst]; try (by exists h)). all: exists h; split; [by apply enroll_keeps|done].
  - apply Hh. unfold signedHost. by repeat (case_match; cbn [fst]; try done).
  - by apply Hh.
Qed.
Lemma owner_run ops d id h : hosts d !! id = Some h -> exists h', hosts (hrun leak ops d) !! id = Some h' /\ r_owner h' = r_owner h.
Proof.
  revert d h. induction ops as [|o l IH]; intros d h Hi; cbn; [by exists h|]. destruct (owner_step o d id h Hi) as (h1 & H1 & E1).
  destruct (IH _ _ H1) as (h2 & H2 & E2). exists h2. split; [done|congruence].
Qed.

(** A person's batch that moves a host's life. *)
Lemma suspend_batch_at s from by_ reason action status about at_ oid d id h h' :
  hosts d !! id = Some h -> hosts (suspend_batch s from by_ reason action status about at_ oid d).1 !! id = Some h' ->
  h' = h \/ (scoped s id h && from h = true /\ lf_status (r_life h') = Hsuspended).
Proof.
  intros Hi. unfold suspend_batch, suspendStatements. cbn [fst]. rewrite hosts_journal. cbn [set_horders set_odb hosts]. rewrite map_hosts_at, Hi.
  cbn. intros [= <-]. destruct (scoped s id h && from h); [right|by left]. done.
Qed.
Lemma confirm_batch_at i worker login now d id h h' :
  hosts d !! id = Some h -> hosts (confirm_batch i worker login now d).1 !! id = Some h' ->
  h' = h \/ (i = id /\ lf_status (r_life h) = Hpending /\ lf_status (r_life h') = Hactive).
Proof.
  intros Hi. unfold confirm_batch. destruct (hosts d !! i) as [x|] eqn:Ex; [|cbn [fst]; rewrite Hi; left; congruence].
  assert (Hat : forall y, <[i := if bool_decide (lf_status (r_life x) = Hpending) && roleFor d (o_login (r_owner x))
      then with_life (confirmed now worker) x else x]> (hosts d) !! id = Some y ->
      y = h \/ (i = id /\ lf_status (r_life h) = Hpending /\ lf_status (r_life y) = Hactive)).
  { intros y. destruct (decide (i = id)) as [->|Hn]; [|rewrite lookup_insert_ne by done; rewrite Hi; left; congruence].
    rewrite lookup_insert_eq. rewrite Hi in Ex. injection Ex as <-. intros [= <-]. destruct (_ && _) eqn:Eb; [right|by left]. bdec. by split_and!. }
  destruct (of_confirm _ _ _); [destruct (regs d !! worker); [|destruct (existsb _ _)]|]; cbn [fst]; rewrite ?hosts_journal;
    cbn [set_regs set_odb set_hosts hosts]; rewrite ?Hi; try (left; congruence); apply Hat.
Qed.
Lemma confirm_out v i short read d :
  (handleConfirmHost v i short read d).1 = d \/ exists h0 w, hosts read !! i = Some h0 /\ vs_web v = true /\ vs_login v = o_login (r_owner h0)
    /\ theirs_now v read h0 = true /\ roleFor read (vs_login v) = true
    /\ (handleConfirmHost v i short read d).1 = (confirm_batch i w (vs_login v) (vs_now v) d).1.
Proof.
  unfold handleConfirmHost, theirs_now. repeat (case_match; cbn [fst]; try by left). all: breflect; right; eexists _, _; split_and!; try done.
Qed.
Lemma retire_batch_at i worker by_ reason at_ d id h h' :
  hosts d !! id = Some h -> hosts (retire_batch i worker by_ reason at_ d).1 !! id = Some h' ->
  h' = h \/ (i = id /\ lf_status (r_life h) <> Hretired /\ lf_status (r_life h') = Hretired).
Proof.
  intros Hi. unfold retire_batch. cbn [fst]. rewrite hosts_journal.
  assert (Hb : forall (b : bool) x y, hosts x = hosts y -> hosts (if b then x else y) = hosts y) by (by intros []).
  rewrite Hb by done. cbn [set_odb hosts]. rewrite Hb by done. rewrite map_hosts_at, Hi. cbn. intros [= <-].
  destruct (_ && _) eqn:Eb; [right|by left]. bdec. by split_and!.
Qed.

(** What each door did, when it did anything. *)
Ltac outs := repeat (case_match; cbn [fst]; try by left); right.
Lemma suspend_out v i reason oid read d :
  (handleSuspendHost leak v i reason oid read d).1 = d \/ exists h0 r, host_act v i Rsuspend read = inl h0 /\ reasonOf leak reason = Some r
    /\ (handleSuspendHost leak v i reason oid read d).1
       = (suspend_batch (Sid i) (fun h => is_active (lf_status (r_life h))) (vs_login v) r "suspend" "warn" i (vs_now v) oid d).1.
Proof.
  unfold handleSuspendHost. outs. eexists _, _. split_and!; [done..|]. match goal with H : _ = (?x, _) |- ?x = _ => by rewrite H end.
Qed.
Lemma resume_out v i confirm read d :
  (handleResumeHost v i confirm read d).1 = d \/ exists h0, host_act v i Rresume read = inl h0 /\ said_yes (confirm ("host:resume:" +:+ i)) = true
    /\ hosts (handleResumeHost v i confirm read d).1
       = hosts (map_hosts (fun j h => String.eqb j i && bool_decide (lf_status (r_life h) = Hsuspended))
                  (with_life (moved_life Hactive (vs_login v) (vs_now v) None)) d).
Proof.
  unfold handleResumeHost. destruct (host_act _ _ _ _) as [h0|[]]; [|by left]. destruct (confirm _) as [|[]]; [right|by left].
  exists h0. split_and!; [done..|]. cbn [fst]. by rewrite hosts_journal.
Qed.
Lemma retire_out v i reason confirm read d :
  (handleRetireHost leak v i reason confirm read d).1 = d \/ exists h0 r w, host_act v i Rretire read = inl h0 /\ reasonOf leak reason = Some r
    /\ (isOwner (viewerOf read (vs_login v)) (shown h0) || said_yes (confirm ("host:retire:" +:+ i))) = true
    /\ (handleRetireHost leak v i reason confirm read d).1 = (retire_batch i w (vs_login v) r (vs_now v) d).1.
Proof.
  unfold handleRetireHost. destruct (host_act _ _ _ _) as [h0|[]]; [|by left]. destruct (reasonOf leak reason) as [r|]; [|by left].
  destruct (isOwner _ _) eqn:Eo; [|destruct (confirm _) as [|[]]; [|by left]].
  all: right; exists h0, r, (default "" (lf_worker (r_life h0))); split_and!; try done; rewrite ?Eo, ?orb_true_r; try done;
    by destruct (retire_batch _ _ _ _ _ _).
Qed.
Lemma cause_out v login reason confirm oid read d :
  (handleRemoveForCause leak v login reason confirm oid read d).1 = d \/ exists r, vs_web v = true /\ roleFor read (vs_login v) = true
    /\ login <> vs_login v
    /\ match ownerKey read login with Sgithub g => oz_eqb (Some g) (githubIdOf read (vs_login v)) | _ => false end = false
    /\ reasonOf leak reason = Some r /\ said_yes (confirm ("host:cause:" +:+ login)) = true
    /\ (handleRemoveForCause leak v login reason confirm oid read d).1
       = (suspend_batch (ownerKey read login) runs_or_waits (vs_login v) ("removed for cause: " +:+ r) "cause" "error" login (vs_now v) oid d).1.
Proof.
  unfold handleRemoveForCause, personAct. destruct (vs_web v); cbn [negb]; [|by left]. destruct (vs_gate v) as [[]|]; [by left|].
  cbn [hv_maintainer hv_github_id viewerOf]. destruct (roleFor _ _) eqn:Er; cbn [negb]; [|by left].
  destruct (String.eqb _ _) eqn:El; cbn [orb]; [by left|]. destruct (match ownerKey read login with Sgithub _ => _ | _ => _ end) eqn:Ek; [by left|].
  destruct (negb _); [by left|]. destruct (reasonOf leak reason) as [r|]; [|by left]. destruct (confirm _) as [|[]]; [|by left].
  right. exists r. breflect. split_and!; try done.
Qed.
Lemma right_from_read v i right read h0 :
  host_act v i right read = inl h0 ->
  hosts read !! i = Some h0 /\ vs_web v = true /\ (theirs_now v read h0 || roleFor read (vs_login v)) = true
  /\ (In right owners_acts -> theirs_now v read h0 = true /\ roleFor read (vs_login v) = true).
Proof. intros H. apply host_act_yes in H as (Hw & Hr & Hv). by apply verdict_yes in Hv as (Hp & Hx & _). Qed.

(** One request: what it does to one host's status. *)
Lemma status_step o d id h h' :
  hosts d !! id = Some h -> hosts (hstep leak o d) !! id = Some h' ->
  lf_status (r_life h') = lf_status (r_life h)
  \/ exists hr, (hr = h \/ exists read, hop_read o = Some read /\ hosts read !! id = Some hr)
     /\ may_move leak o id hr (lf_status (r_life h)) (lf_status (r_life h')).
Proof.
  intros Hi Hi'.
  assert (Hsame : forall A (f : HostR -> A), alike f d (hstep leak o d) -> f h' = f h)
    by (intros A f (H & _); specialize (H id); rewrite Hi, Hi' in H; cbn in H; congruence).
  destruct (acts_on_nothing o) eqn:Ea.
  { left. assert (kept h' = kept h) as E by (apply Hsame, quiet_kept, Ea). unfold kept in E. congruence. }
  assert (Hh : hosts (hstep leak o d) = hosts d -> lf_status (r_life h') = lf_status (r_life h)) by (intros E; rewrite E in Hi'; congruence).
  destruct o; try done; cbn [hstep hop_read may_move] in *.
  - left. apply Hh. unfold handleMintEnrollment. by repeat (case_match; cbn [fst]; try done).
  - left. assert (h' = h) as ->; [|done]. unfold handleEnroll in Hi'. repeat (case_match; cbn [fst] in Hi'; try congruence).
    all: erewrite enroll_keeps in Hi' by done; congruence.
  - destruct (confirm_out v id0 short read d) as [E|(h0 & w & Hr & Hw & Hl & Ht & Hm & E)]; rewrite E in Hi'; [left; congruence|].
    apply (confirm_batch_at _ _ _ _ _ _ _ _ Hi) in Hi' as [->|(-> & Hp & Ha)]; [by left|right]. rewrite Hp, Ha.
    exists h0. split; [right; by exists read|by split_and!].
  - left. apply Hh. unfold signedHost. by repeat (case_match; cbn [fst]; try done).
  - destruct (suspend_out v id0 reason oid read d) as [E|(h0 & r & Ha & Hr & E)]; rewrite E in Hi'; [left; congruence|].
    apply (suspend_batch_at _ _ _ _ _ _ _ _ _ _ _ _ _ Hi) in Hi' as [->|[Hs Hst]]; [by left|right]. unfold scoped, is_active in Hs. bdec. subst id0.
    destruct (right_from_read _ _ _ _ _ Ha) as (Hx & Hw & Hp & _). exists h0. split; [right; by exists read|]. split_and!; try done. congruence.
  - destruct (resume_out v id0 confirm read d) as [E|(h0 & Ha & Hc & E)]; [left; apply Hh; by rewrite E|]. rewrite E, map_hosts_at, Hi in Hi'.
    cbn in Hi'. injection Hi' as <-. destruct (_ && _) eqn:Eb; [right|by left]. bdec. subst id0.
    destruct (right_from_read _ _ _ _ _ Ha) as (Hx & Hw & _ & Hp). destruct Hp; [by left|]. exists h0. split; [right; by exists read|].
    by split_and!.
  - destruct (retire_out v id0 reason confirm read d) as [E|(h0 & r & w & Ha & Hr & Hc & E)]; rewrite E in Hi'; [left; congruence|].
    apply (retire_batch_at _ _ _ _ _ _ _ _ _ Hi) in Hi' as [->|(-> & Hs & Hst)]; [by left|right].
    destruct (right_from_read _ _ _ _ _ Ha) as (Hx & Hw & Hp & _). exists h0. split; [right; by exists read|].
    change (isOwner (viewerOf read (vs_login v)) (shown h0)) with (theirs_now v read h0) in Hc.
    split_and!; try done; [congruence|]. by destruct (theirs_now v read h0), (roleFor _ _).
  - destruct (cause_out v login reason confirm oid read d) as [E|(r & Hw & Hm & Hl & Hk & Hr & Hc & E)]; rewrite E in Hi'; [left; congruence|].
    apply (suspend_batch_at _ _ _ _ _ _ _ _ _ _ _ _ _ Hi) in Hi' as [->|[Hs Hst]]; [by left|right]. bdec.
    exists h. split; [by left|]. split_and!; try done; [unfold runs_or_waits in *; destruct (lf_status (r_life h)); try done; auto| |congruence].
    unfold ownerKey, theirs_now in *. destruct (githubIdOf read login) as [g|]; [|done]. intros _. cbn [scoped] in *. breflect. subst g.
    destruct (githubIdOf read (vs_login v)); [|done]. by rewrite Z.eqb_sym.
  - left. apply (Hsame _ (fun h => lf_status (r_life h))). cbn [hstep]. unfold handleResumeOwner. repeat (case_match; cbn [fst]; try done); eauto with alike.
  - left. apply (Hsame _ (fun h => lf_status (r_life h))). cbn [hstep]. unfold stopHostsOfRemovedOwners, apply_list.
    apply alike_lines, alike_map; [done|]. by apply alike_listed.
  - by left; apply Hh.
Qed.
Lemma may_move_owner o id h hr s s' : r_owner hr = r_owner h -> may_move leak o id hr s s' -> may_move leak o id h s s'.
Proof. intros E. unfold may_move, theirs_now, scoped. by rewrite E. Qed.

(** over every run, a host keeps its owner, and its status moves only so: its owner's Confirm makes a
    waiting host active; the owner or a maintainer suspends an active one; its owner, still a maintainer,
    resumes it with their passkey; the owner, or a maintainer with theirs, retires it for good; another
    maintainer with their passkey suspends an owner's hosts for cause. Every one is an act of the browser's
    session on the rows it read earlier in the run, and nothing else moves it. *)
Theorem host_status_moves ops o d id h h' :
  match hop_read o with Some read => read = d | None => True end ->
  hosts (hrun leak ops d) !! id = Some h -> hosts (hstep leak o (hrun leak ops d)) !! id = Some h' ->
  r_owner h' = r_owner h
  /\ (lf_status (r_life h') = lf_status (r_life h) \/ may_move leak o id h (lf_status (r_life h)) (lf_status (r_life h'))).
Proof.
  intros Hr Hi Hi'. destruct (owner_step o _ _ _ Hi) as (x & Hx & Ho). split; [congruence|].
  destruct (status_step o _ _ _ _ Hi Hi') as [|(hr & Hhr & Hm)]; [by left|right]. eapply may_move_owner, Hm.
  destruct Hhr as [->|(read & Hrd & Hro)]; [done|]. rewrite Hrd in Hr. subst read. destruct (owner_run ops _ _ _ Hro) as (y & Hy & Hyo). congruence.
Qed.
End Status.

(** ** A suspension *)

Section Suspended.
Context `{C : HostCrypto} (leak : string -> bool).
Definition resumes (id : string) (o : HOp) : bool := match o with OpResume _ i _ _ => String.eqb i id | _ => false end.
Definition stopped (h : HostR) : Prop := lf_status (r_life h) = Hsuspended \/ lf_status (r_life h) = Hretired.
Lemma stopped_run ops d id h :
  hosts d !! id = Some h -> stopped h -> forallb (fun o => negb (resumes id o)) ops = true ->
  exists h', hosts (hrun leak ops d) !! id = Some h' /\ stopped h'.
Proof.
  revert d h. induction ops as [|o l IH]; intros d h Hi Hs Hn; cbn in *; [by exists h|]. breflect.
  destruct (owner_step leak o _ _ _ Hi) as (h1 & H1 & _). apply (IH _ h1); [done| |done].
  destruct (status_step leak o _ _ _ _ Hi H1) as [E|(hr & _ & Hm)]; [unfold stopped in *; by rewrite E|].
  unfold stopped, may_move in *. destruct o; try done; destruct_and?; cbn in *.
  all: try (destruct Hs; congruence). all: subst; rewrite ?String.eqb_refl in *; try done; auto.
Qed.
Lemma touched_one p d id h : (forall i x, p i x = true -> i = id) -> hosts d !! id = Some h -> touches p d = true -> p id h = true.
Proof.
  intros Hp Hi Ht. unfold touches in Ht. apply existsb_exists in Ht as ([i x] & Hin & Hx). cbn in Hx. pose proof (Hp _ _ Hx). subst i.
  apply list_elem_of_In, elem_of_map_to_list in Hin. congruence.
Qed.
Lemma stopped_named s at_ d id h w : hosts d !! id = Some h -> scoped s id h && moved_at Hsuspended at_ h = true -> lf_worker (r_life h) = Some w ->
  w ∈ stopped_workers s at_ d.
Proof.
  intros Hi Hs Hw. unfold stopped_workers. apply list_elem_of_omap. exists (id, h). split; [by apply elem_of_map_to_list|]. cbn. by rewrite Hs.
Qed.
Lemma fence_found ords at_ i t w : lease_owner (lease t) = Some w ->
  (exists o, o ∈ ords /\ w_worker (iss o) = w /\ w_issued (iss o) = at_ /\ w_kind (iss o) = "stop-task" /\ w_task (iss o) = Some i) ->
  order_for ords at_ i t <> None.
Proof.
  intros Hw (o & Ho & Hwo & Ha & Hk & Ht). unfold order_for. destruct (List.find _ ords) eqn:E; [done|].
  apply list_elem_of_In in Ho. pose proof (find_none _ _ E _ Ho) as Hf. cbv beta in Hf. apply not_true_iff_false in Hf.
  destruct Hf. rewrite !andb_true_iff. split_and!; [apply ostr_eqb_eq; congruence|by apply Z.eqb_eq|by apply String.eqb_eq|by apply oz_eqb_eq].
Qed.
Lemma held_by_leased which w t : w ∈ which -> leased_to w t = true -> held_by which t = true.
Proof.
  unfold leased_to, owned_by, held_by. intros Hw H. destruct (is_leased t); [|done]. destruct (lease_owner (lease t)) as [o|]; [|done].
  apply String.eqb_eq in H. subst. by apply str_in_In, list_elem_of_In.
Qed.
Lemma fence_orders_found base which oid by_ reason detail at_ d i t :
  tasks (tdb (odb d)) !! i = Some t -> held_by which t = true ->
  order_for (base ++ map (fence_order oid by_ reason detail at_) (held_rows which d))%list at_ i t <> None.
Proof.
  intros Hi Hh. assert (exists o, lease_owner (lease t) = Some o) as [o Ho].
  { unfold held_by in Hh. breflect. destruct (lease_owner (lease t)) as [o|]; [by exists o|done]. }
  apply (fence_found _ _ _ _ o); [done|]. exists (fence_order oid by_ reason detail at_ (i, t)).
  cbn [fence_order iss w_worker w_issued w_kind w_task snd fst]. rewrite Ho. split_and!; try done.
  apply elem_of_app. right. apply list_elem_of_In, in_map, filter_In. split; [|done]. by apply list_elem_of_In, elem_of_map_to_list.
Qed.
Lemma bulk_fence_at which at_ o i :
  tasks (tdb (bulk_fence which at_ o)) !! i
  = (fun t => if held_by which t then fenced (order_for (ords o) at_ i t) t else t) <$> tasks (tdb o) !! i.
Proof. unfold bulk_fence. cbn. rewrite map_lookup_imap. by destruct (tasks (tdb o) !! i). Qed.
(** Every lease of the hosts stopped names an order once the suspension's statements ran. *)
Lemma suspend_fences s by_ reason at_ oid d i t w :
  w ∈ stopped_workers s at_ d -> tasks (tdb (odb (suspendStatements s by_ reason at_ oid d))) !! i = Some t -> leased_to w t = true ->
  stop_order (lease t) <> None.
Proof.
  intros Hw Hi Hl. unfold suspendStatements in Hi. cbn [set_horders set_odb odb] in Hi. rewrite bulk_fence_at in Hi.
  apply fmap_Some in Hi as (t0 & Hi & ->). destruct (held_by _ t0) eqn:Eh.
  - by apply (fence_orders_found _ _ _ _ _ _ _ d).
  - by rewrite (held_by_leased _ w t0) in Eh.
Qed.
(** No order of theirs is open. *)
Lemma suspend_closes s by_ reason at_ oid d o w :
  w ∈ stopped_workers s at_ d -> o ∈ ords (odb (suspendStatements s by_ reason at_ oid d)) -> w_worker (iss o) = w -> is_open (w_state o) = false.
Proof.
  intros Hw Ho <-. unfold suspendStatements in Ho. cbn [set_horders set_odb odb bulk_fence set_tasks ords set_ords] in Ho.
  apply elem_of_app in Ho as [Ho|Ho]; apply list_elem_of_fmap in Ho as (x & -> & Hx); [|done].
  destruct (open_among _ x) eqn:E; [done|]. unfold open_among in E. apply andb_false_iff in E as [E|E]; [|done].
  apply not_true_iff_false in E. destruct E. by apply str_in_In, list_elem_of_In.
Qed.
Lemma suspend_drops s by_ reason at_ oid d o h :
  hosts d !! ho_host o = Some h -> scoped s (ho_host o) h && moved_at Hsuspended at_ h = true ->
  o ∈ horders (suspendStatements s by_ reason at_ oid d) -> ho_state o <> HOopen.
Proof.
  intros Hh Hs Ho. unfold suspendStatements in Ho. cbn [set_horders horders] in Ho. apply list_elem_of_fmap in Ho as (x & -> & Hx).
  destruct (of_stopped _ _ _ x && _) eqn:E; [done|]. apply andb_false_iff in E as [E|E]; [|by apply bool_decide_eq_false in E].
  unfold of_stopped in E. cbn [set_odb hosts] in E. by rewrite Hh, Hs in E.
Qed.
Lemma no_lease_while_stopped d id h i a g :
  hosts d !! id = Some h -> stopped h -> Tasks.a_host a = Some g -> Tasks.g_host g = id -> lease_task i a (queue d) = None.
Proof.
  intros Hi Hs Ha Hg. unfold lease_task, update. destruct (tasks (queue d) !! i) as [t|]; [|done]. cbn [mbind option_bind].
  unfold leasable. rewrite Ha. unfold host_ok, queue. cbn [host_rows]. rewrite lookup_fmap, Hg, Hi. cbn.
  by destruct Hs as [-> | ->]; cbn; rewrite andb_false_r.
Qed.
Lemma no_signature_while_stopped q max now d id h hdr :
  hosts d !! id = Some h -> stopped h -> parseHostHeader (q_header q) = Some hdr -> hh_host hdr = id ->
  forall id' h', (signedHost q max now d d).2 <> SignedAs id' h'.
Proof.
  intros Hi Hs Hq He id' h' Ha. destruct (signedHost q max now d d) as [d1 s] eqn:E. cbn in Ha. subst s.
  apply signed_at in E as (x & Hx & Hid & _ & _ & _ & Hr & H1 & H2). rewrite Hq in Hx. injection Hx as <-. rewrite Hid, He, Hi in Hr.
  injection Hr as <-. by destruct Hs.
Qed.
Lemma suspended_at v i reason oid read d d1 h :
  handleSuspendHost leak v i reason oid read d = (d1, Did) -> hosts d !! i = Some h ->
  exists r, let h1 := with_life (moved_life Hsuspended (vs_login v) (vs_now v) (Some r)) h in
  hosts d1 !! i = Some h1 /\ exists b l d0, hosts d0 !! i = Some h1
    /\ d1 = journal_when b l (suspendStatements (Sid i) (vs_login v) r (vs_now v) oid d0).
Proof.
  intros H Hi. unfold handleSuspendHost in H. repeat (case_match; try done). injection H as <-.
  match goal with H : suspend_batch _ _ _ ?r _ _ _ _ _ _ = _ |- _ => exists r; unfold suspend_batch in H; cbv zeta in H; apply pair_equal_spec in H as [<- Hc] end.
  subst.
  apply (touched_one _ _ i h) in Hc; [|by intros j x Hj; cbn in Hj; breflect|done].
  assert (Hm : forall f, hosts (map_hosts (fun j x => scoped (Sid i) j x && is_active (lf_status (r_life x))) f d) !! i = Some (f h))
    by (intros f; by rewrite map_hosts_at, Hi; cbn [fmap option_fmap option_map]; rewrite Hc).
  split; [rewrite hosts_journal; apply Hm|]. eexists _, _, _. split; [apply Hm|done].
Qed.

(** C4: a suspension stops the host at once and until it is resumed: in its batch every lease its
    registration holds is fenced, no order of the registration nor of the host stays open; and over every
    later run without a Resume of the host no lease statement leases it a task and no request it signs is
    taken. *)
Theorem suspended_host_runs_nothing v id reason oid read d d1 h w :
  handleSuspendHost leak v id reason oid read d = (d1, Did) -> hosts d !! id = Some h -> lf_worker (r_life h) = Some w ->
  (forall i t, tasks (tdb (odb d1)) !! i = Some t -> leased_to w t = true -> stop_order (lease t) <> None)
  /\ (forall o, o ∈ ords (odb d1) -> w_worker (iss o) = w -> is_open (w_state o) = false)
  /\ (forall o, o ∈ horders d1 -> ho_host o = id -> ho_state o <> HOopen)
  /\ forall ops, forallb (fun o => negb (resumes id o)) ops = true -> let d2 := hrun leak ops d1 in
     (forall i a g, Tasks.a_host a = Some g -> Tasks.g_host g = id -> lease_task i a (queue d2) = None)
     /\ (forall q max now hdr, parseHostHeader (q_header q) = Some hdr -> hh_host hdr = id ->
         forall id' h', (signedHost q max now d2 d2).2 <> SignedAs id' h').
Proof.
  intros Hs Hi Hw. destruct (suspended_at _ _ _ _ _ _ _ _ Hs Hi) as (r & H1 & b & l & d0 & H0 & ->). cbv zeta in *.
  assert (Hodb : forall x, odb (journal_when b l x) = odb x) by (by destruct b).
  assert (Hho : forall x, horders (journal_when b l x) = horders x) by (by destruct b).
  assert (Hsc : scoped (Sid id) id (with_life (moved_life Hsuspended (vs_login v) (vs_now v) (Some r)) h)
                && moved_at Hsuspended (vs_now v) (with_life (moved_life Hsuspended (vs_login v) (vs_now v) (Some r)) h) = true).
  { unfold scoped, moved_at. rewrite String.eqb_refl. cbn. by rewrite Z.eqb_refl. }
  pose proof (stopped_named (Sid id) (vs_now v) d0 id _ w H0 Hsc Hw) as Hin. split_and!.
  - intros i t. rewrite Hodb. by apply suspend_fences.
  - intros o. rewrite Hodb. by apply suspend_closes.
  - intros o. rewrite Hho. intros Ho He. eapply suspend_drops; [|by rewrite He|done]. by rewrite He.
  - intros ops Hn. destruct (stopped_run ops _ _ _ H1 (or_introl eq_refl) Hn) as (h2 & H2 & Hst). split.
    + intros i a g. by eapply no_lease_while_stopped.
    + intros q max now hdr. by eapply no_signature_while_stopped.
Qed.
End Suspended.

(** ** At concrete inputs *)

#[local] Existing Instance plain_crypto.
Lemma enrollment_spent_once_witness :
  exists h, hosts (hrun no_leak [op_mint; op_enroll; op_confirm] no_hosts) !! HID = Some h /\ o_login (r_owner h) = "ana"
  /\ exists k e, enrolls (hrun no_leak [op_mint; op_enroll; op_confirm] no_hosts) !! k = Some e /\ spent_on e HID h.
Proof.
  destruct (hosts (hrun no_leak [op_mint; op_enroll; op_confirm] no_hosts) !! HID) as [h|] eqn:E; [|vm_compute in E; discriminate E].
  exists h. split; [reflexivity|]. split.
  - assert (X : (fun x => o_login (r_owner x)) <$> hosts (hrun no_leak [op_mint; op_enroll; op_confirm] no_hosts) !! HID = Some "ana")
      by (vm_compute; reflexivity). rewrite E in X. cbn in X. congruence.
  - destruct (proj1 (enrollment_spent_once no_leak [op_mint; op_enroll; op_confirm] no_hosts eq_refl eq_refl) HID h E) as (k & e & Hk & Hs & _).
    exists k, e. split; [exact Hk|exact Hs].
Defined.

Definition a_request : Request :=
  {| q_header := Some (HID +:+ "; ts=1790000200; nonce=0123456789abcdef0123456789abcdef; sig=" +:+ a_sig); q_method := "GET";
     q_path := "/api/v1/hosts/self/state"; q_body := [] |}.
Definition first_time : HDB * Signed := signedHost a_request 16384 (NOW + 200000) active active.
(** The second time two minutes later, a cron between. *)
Lemma signed_request_taken_once_witness :
  exists h, first_time.2 = SignedAs HID h
  /\ (signedHost a_request 16384 (NOW + 320000) active (hrun no_leak [OpPrune (NOW + 310000)] first_time.1)).2 <> SignedAs HID h.
Proof.
  destruct (hosts active !! HID) as [h|] eqn:E; [|vm_compute in E; discriminate E]. exists h.
  assert (X : first_time = (first_time.1, SignedAs HID h)).
  { assert (Y : first_time = (first_time.1, match hosts active !! HID with Some h => SignedAs HID h | None => NotSigned 0 "" end))
      by (vm_compute; reflexivity). rewrite E in Y. exact Y. }
  split; [rewrite X; reflexivity|].
  eapply (signed_request_taken_once no_leak a_request 16384 (NOW + 200000) active active first_time.1 HID h [OpPrune (NOW + 310000)]
            a_request 16384 (NOW + 320000) active _ _ X eq_refl eq_refl eq_refl).
  constructor; [vm_compute; discriminate|constructor].
Defined.

(** The waiting host's Confirm, by its owner. *)
Lemma host_status_moves_witness :
  exists h h', hosts enrolled !! HID = Some h /\ hosts active !! HID = Some h' /\ lf_status (r_life h) = Hpending
  /\ lf_status (r_life h') = Hactive /\ may_move no_leak op_confirm HID h Hpending Hactive.
Proof.
  destruct (hosts enrolled !! HID) as [h|] eqn:E; [|vm_compute in E; discriminate E].
  destruct (hosts active !! HID) as [h'|] eqn:E'; [|vm_compute in E'; discriminate E'].
  exists h, h'. split; [reflexivity|]. split; [reflexivity|].
  assert (S1 : lf_status (r_life h) = Hpending).
  { assert (X : (fun x => lf_status (r_life x)) <$> hosts enrolled !! HID = Some Hpending) by (vm_compute; reflexivity). rewrite E in X. cbn in X. congruence. }
  assert (S2 : lf_status (r_life h') = Hactive).
  { assert (X : (fun x => lf_status (r_life x)) <$> hosts active !! HID = Some Hactive) by (vm_compute; reflexivity). rewrite E' in X. cbn in X. congruence. }
  split; [exact S1|]. split; [exact S2|].
  destruct (host_status_moves no_leak [] op_confirm enrolled HID h h' eq_refl E E') as [_ [Hs|Hm]]; [congruence|].
  rewrite S1, S2 in Hm. exact Hm.
Defined.

(** A host with a build leased, suspended by another maintainer. *)
Definition a_build : Task :=
  leased_row {| what := {| t_name := "hyprland"; t_arch := "aarch64"; t_kind := "build"; t_trust := "project"; t_owner := None; max_attempts := 3;
                           publish := true; review := None; pkgbuild_ref := "main" |};
                status := queued; lease := no_lease; attempts := 0; host_losses := 0; priority := 0; error := None; finished_at := None;
                pinned_to := None; reserved_at := None; m_native := false; m_4k := false; p_size := None |}
    {| Tasks.a_worker := WID; a_until := NOW + 40 * MIN; a_gen := Some "g1"; a_claim := None; a_version := None; a_lane := None; a_size := None;
       a_units := 1; a_disk := None; a_independent := None; Tasks.a_at := NOW; Tasks.a_host := None |}.
Definition busy : HDB := set_odb {| ords := []; wrows := ∅; tdb := {| tasks := {[ 12 := a_build ]}; host_rows := ∅ |}; journal := [] |} active.
Definition no_oid (t : Z) : string := "wo_" +:+ zstr t.
Definition stop_it : HDB * Reply := handleSuspendHost no_leak (bo_at (NOW + 5 * MIN)) HID (Some (JStr "its fans scream")) no_oid busy busy.
Lemma suspended_host_runs_nothing_witness :
  stop_it.2 = Did /\ (exists t, tasks (tdb (odb stop_it.1)) !! 12 = Some t /\ leased_to WID t = true /\ stop_order (lease t) <> None).
Proof.
  split; [vm_compute; reflexivity|].
  destruct (hosts busy !! HID) as [h|] eqn:E; [|vm_compute in E; discriminate E].
  assert (W : lf_worker (r_life h) = Some WID).
  { assert (X : (fun x => lf_worker (r_life x)) <$> hosts busy !! HID = Some (Some WID)) by (vm_compute; reflexivity). rewrite E in X. cbn in X. congruence. }
  assert (D : stop_it = (stop_it.1, Did)) by (vm_compute; reflexivity).
  destruct (tasks (tdb (odb stop_it.1)) !! 12) as [t|] eqn:Et; [|vm_compute in Et; discriminate Et].
  assert (L : leased_to WID t = true).
  { assert (X : leased_to WID <$> tasks (tdb (odb stop_it.1)) !! 12 = Some true) by (vm_compute; reflexivity). rewrite Et in X. cbn in X. congruence. }
  exists t. split; [reflexivity|]. split; [exact L|].
  exact (proj1 (suspended_host_runs_nothing no_leak _ _ _ _ _ _ _ h WID D E W) 12 t Et L).
Defined.
