(* ===== verification/HostOrderFacts.v ===== *)
(** * The hosts' orders and the owner's versions, over every run (worker/src/routes/hosts.ts)

    An order's row is added open and closes once; one is open for a host and a kind at a
    time; the owner's documents a host is given carry versions that only grow. *)
From S2P Require Import Prelude JsTime Json JsonText Bytes Manifest Selection Update Tasks OrderRules OrderDoor WebAuthn HostCapacity HostKeys HostReport HostRights OwnerDoc HostDoor HostStops HostPins HostOrders HostDoorFacts.
Local Open Scope string_scope.
Local Open Scope Z_scope.

(** ** One row *)

(** What was asked never changes; an open row closes, and one the pool expired may still be answered. *)
Definition asked (o : HOrder) := (ho_id o, ho_host o, ho_kind o, ho_by o, ho_confirmed o, ho_issued_at o, ho_not_after o, ho_arg o).
Definition closes_to (s s' : HOState) : bool :=
  match s, s' with
  | HOopen, HOopen => false
  | HOopen, _ => true
  | HOexpired, (HOdone | HOrefused | HOfailed) => true
  | _, _ => false
  end.
Definition order_moves (o o' : HOrder) : Prop := o' = o \/ (asked o' = asked o /\ closes_to (ho_state o) (ho_state o') = true).
Lemma asked_moves o o' : order_moves o o' -> asked o' = asked o.
Proof. by intros [->|[? _]]. Qed.
Lemma moves_trans o1 o2 o3 : order_moves o1 o2 -> order_moves o2 o3 -> order_moves o1 o3.
Proof.
  intros [->|[E1 C1]] [->|[E2 C2]]; [by left|by right|by right|right]. split; [congruence|].
  by destruct (ho_state o1), (ho_state o2), (ho_state o3).
Qed.
Lemma closes_moves s at_ detail o : closes_to (ho_state o) s = true -> order_moves o (closes s at_ detail o).
Proof. intros H. by right. Qed.
Definition all_move (l l' : list HOrder) : Prop := Forall2 order_moves l l'.
#[export] Instance all_move_po : PreOrder all_move.
Proof.
  split; [intros l; induction l; constructor; [by left|done]|]. intros l1 l2 l3 H. revert l3.
  induction H as [|a b l l' Hab Hl IH]; intros l3 H3; inversion H3; subst; [constructor|]. constructor; [by eapply moves_trans|by apply IH].
Qed.
Lemma all_move_map f l : (forall o, order_moves o (f o)) -> all_move l (map f l).
Proof. intros H. induction l; constructor; auto. Qed.
Lemma expires_moves p at_ l : all_move l (expires p at_ l).
Proof. apply all_move_map. intros o. destruct (_ && _) eqn:E; [|by left]. breflect. unfold order_open in *. bdec. apply closes_moves. by rewrite H1. Qed.
Lemma answer_moves a host at_ l : all_move l (answer_order a host at_ l).
Proof.
  apply all_move_map. intros o. destruct (answers _ _ _) eqn:E; [|by left]. unfold answers in E. breflect. apply closes_moves.
  by destruct (ho_state o), (an_outcome a).
Qed.
Lemma cancel_moves p at_ detail l : all_move l (cancel_horders p at_ detail l).
Proof. apply all_move_map. intros o. destruct (_ && _) eqn:E; [|by left]. bdec. right. split; [done|]. by rewrite H0. Qed.

(** ** One request *)

(** A row goes in open, with an id of its own, no other of its kind open for its host, and for an owner's document with a
    version above every one the host's rows carry. *)
Definition opens (l : list HOrder) (n : HOrder) : Prop :=
  ho_state n = HOopen /\ id_taken (ho_id n) l = false /\ kind_open (ho_host n) (ho_kind n) l = false
  /\ (owner_kind (ho_kind n) = true -> exists v, arg_version n = Some v /\ version_taken (ho_host n) (Some v) l = false).
Definition grows (l l' : list HOrder) : Prop := exists old, all_move l old /\ (l' = old \/ exists n, l' = old ++ [n] /\ opens old n)%list.
Lemma grows_moves l l' : all_move l l' -> grows l l'.
Proof. intros H. exists l'. auto. Qed.
Lemma grows_same l : grows l l.
Proof. by apply grows_moves. Qed.
Lemma horders_journal b l d : horders (journal_when b l d) = horders d.
Proof. by destruct b. Qed.
Lemma horders_lines {B} (g : B -> HLine) l d : horders (fold_left (fun d p => journal_when true (g p) d) l d) = horders d.
Proof. revert d. induction l as [|p l IH]; intros d; cbn [fold_left]; [done|]. by rewrite IH, horders_journal. Qed.
Lemma answer_row host at_ a d : horders (take_answer host at_ a d) = answer_order a host at_ (horders d).
Proof. unfold take_answer, settings_from_answer. repeat case_match; cbn; rewrite ?horders_journal; done. Qed.
Lemma answers_move host at_ l d : all_move (horders d) (horders (fold_left (fun d a => take_answer host at_ a d) l d)).
Proof.
  revert d. induction l as [|a l IH]; intros d; cbn; [done|]. etransitivity; [|apply IH]. rewrite answer_row. apply answer_moves.
Qed.
Lemma order_batch_grows n v status d :
  ho_state n = HOopen -> (owner_kind (ho_kind n) = true -> arg_version n = v /\ v <> None) -> grows (horders d) (horders (order_batch n v status d).1).
Proof.
  intros Ho Hv. unfold order_batch. destruct (_ && (_ || _)) eqn:E; cbn [fst]; [apply grows_same|]. rewrite horders_journal. cbn [set_horders horders].
  destruct (_ && negb _) eqn:Et; cbn [andb] in E; [|apply grows_moves, expires_moves]. breflect.
  exists (expire_host (ho_host n) (ho_issued_at n) (horders d)). split; [apply expires_moves|]. right. exists n. split; [done|].
  split_and!; try done. intros Hk. destruct (Hv Hk) as [Ha Hn]. destruct v as [v|]; [|done]. exists v. split; done.
Qed.
Section Steps.
Context `{C : HostCrypto} (leak : string -> bool).
Lemma suspend_batch_moves s from by_ reason action status about at_ oid d :
  all_move (horders d) (horders (suspend_batch s from by_ reason action status about at_ oid d).1).
Proof.
  unfold suspend_batch, suspendStatements. cbn [fst]. rewrite horders_journal. cbn [set_horders horders set_odb map_hosts set_hosts]. apply cancel_moves.
Qed.
Lemma retire_batch_moves i w by_ reason at_ d : all_move (horders d) (horders (retire_batch i w by_ reason at_ d).1).
Proof.
  unfold retire_batch. cbn [fst]. rewrite horders_journal.
  destruct (host_at i _ _); cbn [set_horders horders set_odb set_regs map_hosts set_hosts]; [apply cancel_moves|done].
Qed.
Lemma order_grows v id b confirm oid read d : grows (horders d) (horders (handleHostOrder v id b confirm oid read d).1).
Proof.
  unfold handleHostOrder. repeat (case_match; cbn [fst]; try apply grows_same).
  all: apply order_batch_grows; [done|]; cbn [ho_kind ho_arg]; intros Hk.
  all: simplify_eq; try congruence; split; done.
Qed.
Ltac same := repeat (case_match; cbn [fst]; rewrite ?horders_journal; cbn [horders set_hosts set_enrolls set_nonces set_regs set_odb set_diags map_hosts];
  try apply grows_same).
Lemma horders_step o d : grows (horders d) (horders (hstep leak o d)).
Proof.
  destruct o; cbn [hstep].
  - unfold handleMintEnrollment. same.
  - unfold handleEnroll, enroll_batch. same.
  - unfold handleConfirmHost, confirm_batch. same.
  - unfold signedHost. same.
  - unfold handleHostToken. same.
  - apply grows_same.
  - unfold handleHostReport. same. all: apply grows_moves; etransitivity; [|apply answers_move]. all: unfold level_lines; by rewrite !horders_journal.
  - unfold handleHostDiagnostics. same.
  - unfold handleSuspendHost. same. all: apply grows_moves; match goal with H : suspend_batch _ _ _ _ _ _ _ _ _ _ = _ |- _ =>
      apply (f_equal fst) in H; cbn [fst] in H; subst; apply suspend_batch_moves end.
  - unfold handleCapHost. same.
  - unfold handleResumeHost. same.
  - unfold handleRetireHost. same. all: apply grows_moves; match goal with H : retire_batch _ _ _ _ _ _ = _ |- _ =>
      apply (f_equal fst) in H; cbn [fst] in H; subst; apply retire_batch_moves end.
  - unfold handleRemoveForCause. same. all: apply grows_moves; match goal with H : suspend_batch _ _ _ _ _ _ _ _ _ _ = _ |- _ =>
      apply (f_equal fst) in H; cbn [fst] in H; subst; apply suspend_batch_moves end.
  - unfold handleResumeOwner. same.
  - apply order_grows.
  - unfold handleOwnerPin. same.
  - unfold handleSealKeyConfirm. same.
  - unfold handleMovePins, repin. same.
  - unfold stopHostsOfRemovedOwners. rewrite horders_lines. apply grows_same.
  - apply grows_moves. change (horders (pruneHosts now d)) with (expire_all now (horders d)). apply expires_moves.
  - apply grows_same.
Qed.
End Steps.

(** ** Over every run *)

Section Runs.
Context `{C : HostCrypto} (leak : string -> bool).
(** over every run, an order's row is never lost nor asked anew, and it closes once: what a row says at
    any time it says later, with its state open, then closed by its agent, the pool or a person; only an
    order the pool expired is answered after it. *)
Theorem host_order_closes_once ops d i o :
  horders d !! i = Some o -> exists o', horders (hrun leak ops d) !! i = Some o' /\ order_moves o o'.
Proof.
  revert d o. induction ops as [|p l IH]; intros d o Hi; cbn [hrun fold_left]; [exists o; split; [done|by left]|].
  destruct (horders_step leak p d) as (old & Hm & Hl). destruct (Forall2_lookup_l _ _ _ _ _ Hm Hi) as (o1 & H1 & M1).
  assert (horders (hstep leak p d) !! i = Some o1) as Hn.
  { destruct Hl as [->|(n & -> & _)]; [done|]. by apply lookup_app_l_Some. }
  destruct (IH _ _ Hn) as (o2 & H2 & M2). exists o2. split; [done|by eapply moves_trans].
Qed.

(** The table's order: ids apart, one open order for a host and a kind, an owner's documents of a host in their versions' order. *)
Record Ordered (l : list HOrder) : Prop := {
  ids_apart : forall i j a b, l !! i = Some a -> l !! j = Some b -> ho_id a = ho_id b -> i = j;
  one_open : forall i j a b, l !! i = Some a -> l !! j = Some b -> ho_state a = HOopen -> ho_state b = HOopen ->
    ho_host a = ho_host b -> ho_kind a = ho_kind b -> i = j;
  versions_rise : forall i j a b, l !! i = Some a -> l !! j = Some b -> (i < j)%nat -> ho_host a = ho_host b ->
    owner_kind (ho_kind a) = true -> owner_kind (ho_kind b) = true ->
    exists va vb, arg_version a = Some va /\ arg_version b = Some vb /\ va < vb;
  versions_there : forall i a, l !! i = Some a -> owner_kind (ho_kind a) = true -> arg_version a <> None }.
Lemma ordered_moves l l' : all_move l l' -> Ordered l -> Ordered l'.
Proof.
  intros Hm [I U V T].
  assert (Hb : forall i b, l' !! i = Some b -> exists a, l !! i = Some a /\ order_moves a b)
    by (intros i b Hi; destruct (Forall2_lookup_r _ _ _ _ _ Hm Hi) as (a & ? & ?); by exists a).
  assert (Ho : forall a b, order_moves a b -> ho_state b = HOopen -> ho_state a = HOopen).
  { intros a b [->|[_ Hc]] Hs; [done|]. rewrite Hs in Hc. by destruct (ho_state a). }
  split; intros *.
  - intros Hi Hj He. destruct (Hb _ _ Hi) as (a0 & Hi0 & Ma), (Hb _ _ Hj) as (b0 & Hj0 & Mb). apply asked_moves in Ma, Mb. unfold asked in *.
    eapply I; [done..|congruence].
  - intros Hi Hj Sa Sb Hh Hk. destruct (Hb _ _ Hi) as (a0 & Hi0 & Ma), (Hb _ _ Hj) as (b0 & Hj0 & Mb). pose proof (Ho _ _ Ma Sa). pose proof (Ho _ _ Mb Sb).
    apply asked_moves in Ma, Mb. unfold asked in *. eapply U; [done..|congruence|congruence].
  - intros Hi Hj Hlt Hh Ka Kb. destruct (Hb _ _ Hi) as (a0 & Hi0 & Ma), (Hb _ _ Hj) as (b0 & Hj0 & Mb). apply asked_moves in Ma, Mb.
    unfold asked, arg_version in *. injection Ma as ? ? ? ? ? ? ? Ha. injection Mb as ? ? ? ? ? ? ? Hb0. rewrite Ha, Hb0. eapply V; [done|done|done|congruence..].
  - intros Hi Ka. destruct (Hb _ _ Hi) as (a0 & Hi0 & Ma). apply asked_moves in Ma. unfold asked, arg_version in *. injection Ma as ? ? ? ? ? ? ? Ha.
    rewrite Ha. eapply T; [done|congruence].
Qed.
Lemma not_in {p : HOrder -> bool} {l i a} : existsb p l = false -> l !! i = Some a -> p a = false.
Proof.
  intros He Hi. apply not_true_iff_false. intros Hp. apply not_true_iff_false in He. apply He, existsb_exists. exists a. split; [|done].
  apply list_elem_of_In. by apply list_elem_of_lookup_2 in Hi.
Qed.
Lemma ordered_opens l n : opens l n -> Ordered l -> Ordered (l ++ [n]).
Proof.
  intros (Hs & Hid & Hk & Hv) [I U V T].
  assert (Hc : forall i a, (l ++ [n])%list !! i = Some a -> l !! i = Some a \/ (i = length l /\ a = n)).
  { intros i a Hi. apply lookup_app_Some in Hi as [Hi|[Hle Hi]]; [by left|right]. apply list_lookup_singleton_Some in Hi as [Hi ->]. split; [lia|done]. }
  assert (Hlt : forall i a, l !! i = Some a -> (i < length l)%nat) by (intros; by eapply lookup_lt_Some).
  split; intros *.
  - intros [Hi|[-> ->]]%Hc [Hj|[-> ->]]%Hc He; [by eapply I| | |done].
    + pose proof (not_in Hid Hi) as X. by apply String.eqb_neq in X.
    + pose proof (not_in Hid Hj) as X. by apply String.eqb_neq in X.
  - assert (Hn : forall i a, l !! i = Some a -> ho_state a = HOopen -> ho_host a = ho_host n -> ho_kind a = ho_kind n -> False).
    { intros k x Hi Sa Hh Hkk. pose proof (not_in Hk Hi) as X. cbn in X. rewrite Hh, Hkk, !String.eqb_refl in X. unfold order_open in X. by rewrite Sa in X. }
    intros [Hi|[-> ->]]%Hc [Hj|[-> ->]]%Hc Sa Sb Hh Hkk; [by eapply U| | |done]; exfalso; eauto.
  - intros [Hi|[-> ->]]%Hc [Hj|[-> ->]]%Hc Hij Hh Ka Kb; [by eapply V| | |lia].
    + destruct (Hv Kb) as (v & Hvn & Hvt). pose proof (not_in Hvt Hi) as X. cbn in X. unfold owner_order_of in X.
      rewrite Hh, String.eqb_refl, Ka in X. cbn in X. pose proof (T _ _ Hi Ka) as Ht. destruct (arg_version a) as [va|]; [|done]. breflect. eauto 6.
    + apply Hlt in Hj. lia.
  - intros [Hi|[-> ->]]%Hc Ka; [by eapply T|]. destruct (Hv Ka) as (v & -> & _). done.
Qed.

(** over every run from an empty table, each order has its id, no host has two open orders of one
    kind, and the owner's documents a host was given (its widenings and its agent keys) carry strictly
    growing versions in the order they were given, so none of them replays an earlier one. *)
Theorem owner_versions_grow ops d : horders d = [] -> Ordered (horders (hrun leak ops d)).
Proof.
  intros Hd. assert (H : Ordered (horders d)) by (rewrite Hd; split; intros *; rewrite lookup_nil; done). clear Hd. revert d H.
  induction ops as [|p l IH]; intros d H; cbn [hrun fold_left]; [done|]. apply IH.
  destruct (horders_step leak p d) as (old & Hm & [->|(n & -> & Ho)]); [|apply ordered_opens; [done|]]; by eapply ordered_moves.
Qed.
End Runs.

(** ** At concrete inputs *)

#[local] Existing Instance plain_crypto.
Definition ok_key : DocConfirm := fun _ _ => inl "pk_1".
(** Two widenings in a row, the second once the first was answered; and one that replays the first. *)
Definition widen_doc (version : Z) : string :=
  ownerDoc {| d_act := WidenEnvelope; d_host := HID; d_version := Some (JInt version); d_issued_at := iso NOW; d_not_after := iso (NOW + HOUR);
              d_by := "ana"; d_rp_id := None; d_origin := None; d_envelope := Some (JObj [("max_units", JInt 8)]); d_seal_key := None; d_keys := None |}.
Definition widen (t version : Z) (oid : string) (read : HDB) : HOp :=
  OpOrder (ana_at (NOW + t)) HID (Some (JObj [("kind", JStr "widen-envelope"); ("doc", JStr (widen_doc version)); ("assertion", JObj [])])) ok_key oid read.
Definition OID (c : ascii) : string := "ho_0123456789abcdef0123456789abcde" +:+ String c "".
Definition done_words : string := json_text (JObj [("orders", JArr [JObj [("id", JStr (OID "a")); ("outcome", JStr "done")]])]).
Definition answer_first : HOp :=
  match hosts active !! HID with Some h => OpReport HID h done_words (NOW + 20 * MIN) | None => OpPrune NOW end.
Definition three_docs : list HOp :=
  [widen (5 * MIN) 1 (OID "a") active; answer_first; widen (25 * MIN) 2 (OID "b") active; widen (26 * MIN) 1 (OID "c") active].
Lemma three_docs_two_orders :
  map (fun o => (ho_id o, arg_version o, ho_state o)) (horders (hrun no_leak three_docs active))
  = [(OID "a", Some 1, HOdone); (OID "b", Some 2, HOopen)].
Proof. vm_compute. reflexivity. Qed.
Lemma host_order_closes_once_witness :
  exists o o', horders (hrun no_leak (firstn 1 three_docs) active) !! 0%nat = Some o
  /\ horders (hrun no_leak (skipn 1 three_docs) (hrun no_leak (firstn 1 three_docs) active)) !! 0%nat = Some o' /\ order_moves o o'.
Proof.
  destruct (horders (hrun no_leak (firstn 1 three_docs) active) !! 0%nat) as [o|] eqn:E; [|vm_compute in E; discriminate E].
  destruct (host_order_closes_once no_leak (skipn 1 three_docs) _ _ _ E) as (o' & H & M). exists o, o'. split; [reflexivity|]. split; [exact H|exact M].
Defined.
Lemma owner_versions_grow_witness : Ordered (horders (hrun no_leak three_docs active)).
Proof. apply owner_versions_grow. vm_compute. reflexivity. Defined.
