(* ===== verification/Rings.v ===== *)
(** * The rings and their releases (worker/src/db.ts, routes/releases.ts, routes/gc.ts, routes/blocks.ts pullFromRings)

    A ring serves a selection of the packages indexed; a release is what it served from one moment on. Only what a release
    changed is kept (migration 0017), with a full membership every so often: an older release is read back from both, and
    retention deletes what no release it protects needs. A request's first reads are [read], its later ones [later]; its
    batch runs on the tables it finds. *)
From S2P Require Import Prelude JsTime Targets.
Local Open Scope string_scope.
Local Open Scope Z_scope.

Definition RINGS : list string := ["edge"; "rc"; "stable"; "lab"].
Definition isRing (s : string) : bool := str_in s RINGS.
Definition CHECKPOINT_EVERY : Z := 24.
Definition KEEP_RELEASES : Z := 3.
Definition GRACE_DAYS : Z := 7.
Definition CARRY_REACH : Z := 256.

(** ** The tables *)

Record PRow := {
  p_sha256 : string; p_name : string; p_arch : string; p_source : string; p_version : string; p_filename : string;
  p_bytes : Z; p_created_at : Z; p_r2_key : option string; p_released : bool }.
Record Slice := { sl_source : string; sl_arch : string; sl_packages : Z; sl_bytes : Z }.
Record Release := {
  rl_ring : string; rl_seq : Z; rl_parent : option Z; rl_source : option Z; rl_note : option string;
  rl_count : option Z; rl_bytes : option Z; rl_sources : option (list Slice); rl_checkpoint : bool }.
(** release_deltas' rows of one release, by their op. *)
Record Delta := { adds : gset Z; removes : gset Z }.
(** A row of release_artifacts, by its key: the release, the repository, the architecture, the kind. *)
Definition ArtKey : Type := Z * string * string * string.
Record Art := { at_key : string; at_size : Z; at_awaits : option Z }.
(** [next_package] and [next_release] are the AUTOINCREMENT counters: an id is never given twice. *)
Record RDB := {
  packages : gmap Z PRow; next_package : Z; releases : gmap Z Release; next_release : Z;
  ring_packages : gmap string (gset Z); ring_heads : gmap string Z;
  release_packages : gmap Z (gset Z); release_deltas : gmap Z Delta; artifacts : gmap ArtKey Art; objects : gset string }.

Definition no_release : RDB :=
  {| packages := ∅; next_package := 1; releases := ∅; next_release := 1; ring_packages := ∅; ring_heads := ∅; release_packages := ∅;
     release_deltas := ∅; artifacts := ∅; objects := ∅ |}.
Definition set_releases (m : gmap Z Release) (d : RDB) : RDB :=
  {| packages := packages d; next_package := next_package d; releases := m; next_release := next_release d; ring_packages := ring_packages d;
     ring_heads := ring_heads d; release_packages := release_packages d; release_deltas := release_deltas d;
     artifacts := artifacts d; objects := objects d |}.
Definition set_members (m : gmap Z (gset Z)) (d : RDB) : RDB :=
  {| packages := packages d; next_package := next_package d; releases := releases d; next_release := next_release d;
     ring_packages := ring_packages d;
     ring_heads := ring_heads d; release_packages := m; release_deltas := release_deltas d;
     artifacts := artifacts d; objects := objects d |}.
Definition set_deltas (m : gmap Z Delta) (d : RDB) : RDB :=
  {| packages := packages d; next_package := next_package d; releases := releases d; next_release := next_release d;
     ring_packages := ring_packages d;
     ring_heads := ring_heads d; release_packages := release_packages d; release_deltas := m;
     artifacts := artifacts d; objects := objects d |}.
Definition set_packages (m : gmap Z PRow) (o : gset string) (d : RDB) : RDB :=
  {| packages := m; next_package := next_package d; releases := releases d; next_release := next_release d; ring_packages := ring_packages d;
     ring_heads := ring_heads d; release_packages := release_packages d; release_deltas := release_deltas d;
     artifacts := artifacts d; objects := o |}.
Definition set_artifacts (m : gmap ArtKey Art) (d : RDB) : RDB :=
  {| packages := packages d; next_package := next_package d; releases := releases d; next_release := next_release d;
     ring_packages := ring_packages d;
     ring_heads := ring_heads d; release_packages := release_packages d; release_deltas := release_deltas d;
     artifacts := m; objects := objects d |}.

Definition ringMembers (d : RDB) (ring : string) : gset Z := default ∅ (ring_packages d !! ring).
Definition ringHead (d : RDB) (ring : string) : option (Z * Release) :=
  id ← ring_heads d !! ring; r ← releases d !! id; Some (id, r).
(** The ring a release is the head of. *)
Definition head_ring (d : RDB) (id : Z) : option string :=
  List.find (fun r => oz_eqb (ring_heads d !! r) (Some id)) RINGS.
(** A membership joined to the packages still indexed. *)
Definition joined (d : RDB) (s : gset Z) : gmap Z PRow := filter (fun p => p.1 ∈ s) (packages d).

(** ** Reading a release back *)

(** The releases from one down to the nearest checkpoint behind it, that checkpoint apart; None where the code throws. *)
Fixpoint chain_of (fuel : nat) (d : RDB) (id : Z) : option (list Z * Z) :=
  match releases d !! id with
  | None => None
  | Some r =>
      if rl_checkpoint r then Some ([], id)
      else match fuel, rl_parent r with
           | S n, Some p => c ← chain_of n d p; Some (id :: c.1, c.2)
           | _, _ => None
           end
  end.
Definition CHAIN_MAX : nat := 96.
Definition apply_delta (x : Delta) (s : gset Z) : gset Z := (s ∖ removes x) ∪ adds x.
Definition no_delta : Delta := {| adds := ∅; removes := ∅ |}.
Definition delta_of (d : RDB) (id : Z) : Delta := default no_delta (release_deltas d !! id).
Definition rebuilt (d : RDB) (id : Z) : option (gset Z) :=
  match head_ring d id with
  | Some ring => Some (ringMembers d ring)
  | None =>
      c ← chain_of (pred CHAIN_MAX) d id;
      Some (foldr (fun r s => apply_delta (delta_of d r) s) (default ∅ (release_packages d !! c.2)) c.1)
  end.
Definition with_checkpoint (b : bool) (r : Release) : Release :=
  {| rl_ring := rl_ring r; rl_seq := rl_seq r; rl_parent := rl_parent r; rl_source := rl_source r; rl_note := rl_note r;
     rl_count := rl_count r; rl_bytes := rl_bytes r; rl_sources := rl_sources r; rl_checkpoint := b |}.
(** The members of a release written out; None where the code throws. *)
Definition ensureCheckpoint (d : RDB) (id : Z) : option RDB :=
  match releases d !! id with
  | None => None
  | Some r =>
      if rl_checkpoint r then Some d
      else
        s ← rebuilt d id;
        if bool_decide (s ⊆ dom (packages d)) then
          Some (set_releases (alter (with_checkpoint true) id (releases d))
                 (set_members (<[id := default ∅ (release_packages d !! id) ∪ s]> (release_packages d)) d))
        else None
  end.
Definition releaseMembers (d : RDB) (id : Z) : option (gset Z * RDB) :=
  match head_ring d id with
  | Some ring => Some (ringMembers d ring, d)
  | None => d' ← ensureCheckpoint d id; Some (default ∅ (release_packages d' !! id), d')
  end.

(** ** What a release holds, kept on its row *)

Definition slice_cmp (x y : Slice) : Z :=
  let c := str_ltb (sl_arch x) (sl_arch y) || (String.eqb (sl_arch x) (sl_arch y) && str_ltb (sl_source x) (sl_source y)) in
  if c then -1 else 1.
Definition slices_of (rows : list PRow) : list Slice :=
  let keys := remove_dups (map (fun p => (p_source p, p_arch p)) rows) in
  sort_by slice_cmp (map (fun k =>
    let mine := List.filter (fun p => String.eqb (p_source p) k.1 && String.eqb (p_arch p) k.2) rows in
    {| sl_source := k.1; sl_arch := k.2; sl_packages := zlen mine; sl_bytes := zsum p_bytes mine |}) keys).
Definition summarised (rows : list PRow) (r : Release) : Release :=
  {| rl_ring := rl_ring r; rl_seq := rl_seq r; rl_parent := rl_parent r; rl_source := rl_source r; rl_note := rl_note r;
     rl_count := match rl_count r, rl_bytes r with Some n, Some _ => Some n | _, _ => Some (zlen rows) end;
     rl_bytes := match rl_count r, rl_bytes r with Some _, Some b => Some b | _, _ => Some (zsum p_bytes rows) end;
     rl_sources := match rl_sources r with Some s => Some s | None => Some (slices_of rows) end; rl_checkpoint := rl_checkpoint r |}.
(** releaseSummary, then releaseSources. *)
Definition summarise (id : Z) (d : RDB) : RDB :=
  match releaseMembers d id with
  | None => d
  | Some (s, d') => set_releases (alter (summarised (map snd (map_to_list (joined d' s)))) id (releases d')) d'
  end.

(** ** A new release *)

Record CreateRelease := {
  cr_ring : string; cr_from_ring : option string; cr_from_release : option Z; cr_add : list string;
  cr_remove : list string; cr_remove_from : list (string * string); cr_remove_arch : option string;
  cr_arch : option string; cr_note : option string }.
(** A refusal with its status, a throw, or the release made with the architectures it left as they were. *)
Inductive Out := Refused (status : Z) | Broke | Made (id : Z) (unchanged_arches : list string).

(** The release another ring's head or an earlier release of this one gives the selection of, if any. *)
Definition base_source (b : CreateRelease) (read : RDB) : Z + option (Z * Release) :=
  match cr_from_release b with
  | Some id =>
      match releases read !! id with
      | None => inl 404
      | Some r =>
          if String.eqb (rl_ring r) "lab" && negb (String.eqb (cr_ring b) "lab") then inl 400
          else if negb (String.eqb (rl_ring r) (cr_ring b)) then inl 400 else inr (Some (id, r))
      end
  | None =>
      match cr_from_ring b with
      | Some from =>
          if negb (isRing from) then inl 400
          else if String.eqb from "lab" || String.eqb (cr_ring b) "lab" then inl 400
          else match ringHead read from with None => inl 409 | Some h => inr (Some h) end
      | None => inr None
      end
  end.

(** An added entry: the bytes' hash, and the one architecture it names. *)
Definition wanted (e : string) : string * option string :=
  match split_on "/"%char e with s :: a :: _ => (s, Some a) | s :: [] => (s, None) | [] => ("", None) end.
Definition arch_is (a : option string) (p : PRow) : bool := match a with Some a => String.eqb (p_arch p) a | None => true end.
Definition rowsOf (d : RDB) (remove_arch : option string) (e : string) : gset Z :=
  dom (filter (fun p => Is_true (String.eqb (p_sha256 p.2) (wanted e).1 && arch_is remove_arch p.2 && arch_is (wanted e).2 p.2)) (packages d)).
Definition added_rows (d : RDB) (b : CreateRelease) : gset Z := ⋃ (map (rowsOf d (cr_remove_arch b)) (cr_add b)).
Definition not_indexed (d : RDB) (b : CreateRelease) : bool := existsb (fun e => bool_decide (rowsOf d (cr_remove_arch b) e = ∅)) (cr_add b).

Definition in_ring (ring : string) (p : Z * Release) : bool := String.eqb (rl_ring p.2) ring.
Definition seqs_of (d : RDB) (ring : string) : list Z := map (fun p => rl_seq p.2) (List.filter (in_ring ring) (map_to_list (releases d))).
Definition last_seq (d : RDB) (ring : string) : Z := foldr Z.max 0 (seqs_of d ring).
Definition last_checkpoint (d : RDB) (ring : string) : Z :=
  foldr Z.max 0 (map (fun p => rl_seq p.2) (List.filter (fun p => in_ring ring p && rl_checkpoint p.2) (map_to_list (releases d)))).

(** The base's membership as the batch evaluates it: the ring's own rows, a head's, or a checkpoint's; one architecture of it. *)
Definition of_arch (d : RDB) (s : gset Z) (f : PRow -> bool) : gset Z := dom (filter (fun p => Is_true (f p.2)) (joined d s)).
Definition same_release (a b : option (Z * Release)) : bool :=
  match a, b with Some x, Some y => x.1 =? y.1 | _, _ => false end.
Definition base_set (d : RDB) (ring : string) (parent source : option (Z * Release)) (as_head only : option string) : gset Z :=
  match source with
  | Some s =>
      if same_release source parent then ringMembers d ring
      else
        let b := match as_head with Some r => ringMembers d r | None => default ∅ (release_packages d !! s.1) end in
        match only, parent with
        | Some a, Some _ =>
            of_arch d b (fun p => String.eqb (p_arch p) a) ∪ of_arch d (ringMembers d ring) (fun p => negb (String.eqb (p_arch p) a))
        | _, _ => b
        end
  | None => match parent with Some _ => ringMembers d ring | None => ∅ end
  end.

Definition dropped (b : CreateRelease) (p : PRow) : bool :=
  (str_in (p_name p) (cr_remove b) || existsb (fun r => String.eqb r.1 (p_source p) && String.eqb r.2 (p_name p)) (cr_remove_from b))
  && arch_is (cr_remove_arch b) p.
Definition same_build (p q : PRow) : bool :=
  String.eqb (p_name p) (p_name q) && String.eqb (p_arch p) (p_arch q) && String.eqb (p_source p) (p_source q).
Definition replaced (d : RDB) (added : gset Z) (p : PRow) : bool :=
  existsb (fun q => same_build q.2 p) (map_to_list (joined d added)).
Definition target (d : RDB) (b : CreateRelease) (base added : gset Z) : gset Z :=
  of_arch d base (fun p => negb (dropped b p) && negb (replaced d added p)) ∪ added.

(** The architectures the request could not have touched. *)
Definition unchanged_of (b : CreateRelease) (parent source : option (Z * Release)) (added : gset Z) : list string :=
  let base := match source with Some _ => source | None => parent end in
  let untouched := match cr_remove b, cr_remove_from b with [], [] => bool_decide (added = ∅) | _, _ => false end in
  let scoped :=
    if same_release base parent then cr_remove_arch b
    else match cr_arch b with
         | Some a => if untouched || ostr_eqb (cr_remove_arch b) (Some a) then Some a else None
         | None => None
         end in
  match parent, scoped with
  | Some _, Some s => List.filter (fun a => negb (String.eqb a s)) REPO_ARCHES
  | _, _ => []
  end.

(** *** The databases a release goes on serving until its own render *)

Definition art_release (k : ArtKey) : Z := k.1.1.1.
Definition art_repo (k : ArtKey) : string := k.1.1.2.
Definition art_arch (k : ArtKey) : string := k.1.2.
Definition art_kind (k : ArtKey) : string := k.2.
(** The parent and up to 12 releases before it, each with how far back it is. *)
Fixpoint ancestors (fuel : nat) (d : RDB) (id : Z) (depth : Z) : list (Z * Z) :=
  (id, depth) ::
  match fuel, (r ← releases d !! id; rl_parent r) with
  | S n, Some p => ancestors n d p (depth + 1)
  | _, _ => []
  end.
Definition has_rows (d : RDB) (id : Z) (arch : string) : bool :=
  existsb (fun p => (art_release p.1 =? id) && String.eqb (art_arch p.1) arch) (map_to_list (artifacts d)).
(** A release that holds no package of an architecture: its render dropped what it carried. *)
Definition bare (d : RDB) (id : Z) (arch : string) : bool :=
  isRepoArch arch
  && match r ← releases d !! id; rl_sources r with
     | Some sl => negb (existsb (fun s => String.eqb (sl_arch s) arch) sl)
     | None => false
     end.
Definition nearest (d : RDB) (parent : Z) (arch : string) : option (Z * Z) :=
  List.find (fun a => has_rows d a.1 arch || bare d a.1 arch) (ancestors 12 d parent 0).
Definition carried_art (d : RDB) (parent id : Z) (unchanged : list string) (p : ArtKey * Art) : option (ArtKey * Art) :=
  a ← nearest d parent (art_arch p.1);
  if a.1 =? art_release p.1 then
    Some ((id, art_repo p.1, art_arch p.1, art_kind p.1),
          {| at_key := at_key p.2; at_size := at_size p.2;
             at_awaits := if negb (str_in (art_arch p.1) unchanged) then Some id
                          else if a.2 =? 0 then at_awaits p.2 else Some parent |})
  else None.
Definition carried (d : RDB) (parent id : Z) (unchanged : list string) : gmap ArtKey Art :=
  list_to_map (omap (carried_art d parent id unchanged) (map_to_list (artifacts d))).

Definition released (s : gset Z) (m : gmap Z PRow) : gmap Z PRow :=
  map_imap (fun id p => Some (if bool_decide (id ∈ s) then
     {| p_sha256 := p_sha256 p; p_name := p_name p; p_arch := p_arch p; p_source := p_source p; p_version := p_version p;
        p_filename := p_filename p; p_bytes := p_bytes p; p_created_at := p_created_at p; p_r2_key := p_r2_key p; p_released := true |}
     else p)) m.
(** The batch: the release, its delta both ways, the ring's rows moved by it, its head, a checkpoint when one is due, and the carry. *)
Definition release_batch (b : CreateRelease) (parent source : option (Z * Release)) (seq : Z) (checkpoint : bool)
    (base added : gset Z) (d : RDB) : RDB :=
  let id := next_release d in
  let own := ringMembers d (cr_ring b) in
  let t := target d b base added in
  let x := {| adds := t ∖ own; removes := own ∖ t |} in
  let now := (own ∖ removes x) ∪ adds x in
  {| packages := released added (packages d); next_package := next_package d;
     releases := <[id := {| rl_ring := cr_ring b; rl_seq := seq; rl_parent := fst <$> parent; rl_source := fst <$> source; rl_note := cr_note b;
                            rl_count := None; rl_bytes := None; rl_sources := None; rl_checkpoint := checkpoint |}]> (releases d);
     next_release := id + 1;
     ring_packages := <[cr_ring b := now]> (ring_packages d); ring_heads := <[cr_ring b := id]> (ring_heads d);
     release_packages := if checkpoint then <[id := now]> (release_packages d) else release_packages d;
     release_deltas := <[id := x]> (release_deltas d);
     artifacts := match parent with
                  | Some p => artifacts d ∪ carried d p.1 id (unchanged_of b parent source added)
                  | None => artifacts d
                  end;
     objects := objects d |}.
Definition seq_taken (d : RDB) (ring : string) (seq : Z) : bool := existsb (Z.eqb seq) (seqs_of d ring).

(** The release made, once the request is sound: the base written out when it is no head, then the batch — refused whole by the
    unique (ring, seq) when another release took the number since. *)
Definition make_release (b : CreateRelease) (parent source : option (Z * Release)) (added : gset Z) (later d : RDB) : RDB * Out :=
  let ring := cr_ring b in
  let seq := last_seq later ring + 1 in
  let foreign := match source with Some s => negb (same_release source parent) | None => false end in
  let as_head := if foreign then (s ← source; head_ring later s.1) else None in
  match match source, foreign, as_head with Some s, true, None => ensureCheckpoint d s.1 | _, _, _ => Some d end with
  | None => (d, Broke)
  | Some d1 =>
      if seq_taken d1 ring seq then (d1, Broke)
      else
        let checkpoint := match parent with None => true | Some _ => CHECKPOINT_EVERY <=? seq - last_checkpoint later ring end in
        let id := next_release d1 in
        (summarise id (release_batch b parent source seq checkpoint (base_set d1 ring parent source as_head (cr_arch b)) added d1),
         Made id (unchanged_of b parent source added))
  end.
(** POST /releases: [read] is what its first reads saw, [later] its last ones before the batch on [d]. *)
Definition handleCreateRelease (b : CreateRelease) (read later d : RDB) : RDB * Out :=
  if negb (isRing (cr_ring b)) then (d, Refused 400)
  else match base_source b read with
  | inl s => (d, Refused s)
  | inr source =>
      if match cr_remove_arch b with Some a => negb (isRepoArch a) | None => false end then (d, Refused 400)
      else if not_indexed later b then (d, Refused 404)
      else if match cr_arch b with
              | Some a => negb (isRepoArch a) || match source with None => true | Some _ => false end
              | None => false
              end then (d, Refused 400)
      else make_release b (ringHead read (cr_ring b)) source (added_rows later b) later d
  end.

(** ** A render's databases *)

(** omarchy-<source>-<ring> *)
Definition sourceOfRepo (repo : string) : option string :=
  let of_ring ring :=
    let tail := "-" +:+ ring in
    if starts_with "omarchy-" repo && ends_with tail repo then
      let n := (String.length repo - 8 - String.length tail)%nat in
      if (8 + String.length tail <? String.length repo)%nat then Some (str_take n (str_drop 8 repo)) else None
    else None in
  head (omap of_ring RINGS).
Definition is_repo (s : string) : bool :=
  negb (String.eqb s "") && str_forallb (fun c => is_lower c || is_digit c || Ascii.eqb c "-") s.
Definition artifactKey (source arch repo kind : string) : string := source +:+ "/" +:+ arch +:+ "/" +:+ repo +:+ "." +:+ kind.
Definition sig_of (kind : string) : string := kind +:+ ".sig".
Definition put_row (k : ArtKey) (key : string) (size : Z) (m : gmap ArtKey Art) : gmap ArtKey Art :=
  <[k := {| at_key := key; at_size := size; at_awaits := None |}]> m.
(** INSERT OR IGNORE *)
Definition keep_row (k : ArtKey) (key : string) (size : Z) (m : gmap ArtKey Art) : gmap ArtKey Art :=
  match m !! k with Some _ => m | None => put_row k key size m end.
(** AWAITED_SQL *)
Definition awaited (id : Z) (repo arch kind key : string) (size : Z) (m : gmap ArtKey Art) : gmap ArtKey Art :=
  map_imap (fun k a => Some (if oz_eqb (at_awaits a) (Some id) && String.eqb (art_repo k) repo && String.eqb (art_arch k) arch
                                && String.eqb (art_kind k) kind
                             then {| at_key := key; at_size := size; at_awaits := None |} else a)) m.
(** The releases made from one, [fuel] generations down. *)
Definition children (d : RDB) (id : Z) : list Z :=
  map fst (List.filter (fun p => oz_eqb (rl_parent p.2) (Some id)) (map_to_list (releases d))).
Fixpoint kin (fuel : nat) (d : RDB) (ids : list Z) : list Z :=
  match fuel with O => [] | S n => let next := ids ≫= children d in (next ++ kin n d next)%list end.
(** What a release's row of a database waited for before this render put it. *)
Definition waited_for (d : RDB) (id : Z) (repo arch kind : string) : option Z :=
  a ← artifacts d !! (id, repo, arch, kind); w ← at_awaits a; if w =? id then None else Some w.
Definition put_kind (id : Z) (repo arch kind key : string) (size : Z) (before : option Z) (d : RDB) : RDB :=
  let m := foldr (fun k m => keep_row (k, repo, arch, kind) key size m) (artifacts d) (kin 3 d [id]) in
  let m := awaited id repo arch kind key size m in
  set_artifacts (match before with Some w => awaited w repo arch kind key size m | None => m end) d.
(** [signing] the pool signs its databases itself; [sig] its signature's length. *)
Definition handlePutArtifact (signing : bool) (id : Z) (kind repo arch : string) (size : option Z) (sig : Z) (d : RDB) : RDB * Out :=
  if negb (is_repo repo) || negb (isRepoArch arch) then (d, Refused 400)
  else match sourceOfRepo repo with
  | None => (d, Refused 400)
  | Some source =>
      match size with None => (d, Refused 400) | Some size =>
      match releases d !! id with None => (d, Refused 404) | Some _ =>
      if ends_with ".sig" kind && signing then (d, Made id [])
      else
        let key := artifactKey source arch repo kind in
        let before := waited_for d id repo arch kind in
        let sig_before := waited_for d id repo arch (sig_of kind) in
        let signs := str_in kind ["db"; "files"] && signing in
        let sig_key := artifactKey source arch repo (sig_of kind) in
        let d1 := if signs then set_artifacts (put_row (id, repo, arch, sig_of kind) sig_key sig (artifacts d)) d else d in
        let d2 := set_artifacts (put_row (id, repo, arch, kind) key size (artifacts d1)) d1 in
        let d3 := put_kind id repo arch kind key size before d2 in
        (if signs then put_kind id repo arch (sig_of kind) sig_key 0 sig_before d3 else d3, Made id [])
      end end
  end.
(** The renders a release's rows of an architecture await (WAITED_SQL), then what a whole render drops (RENDERED_SQL). *)
Definition waits_of (d : RDB) (id : Z) (arch : string) : list Z :=
  remove_dups (omap (fun p => if (art_release p.1 =? id) && String.eqb (art_arch p.1) arch then at_awaits p.2 else None) (map_to_list (artifacts d))).
Definition drop_own (id : Z) (arch : string) (m : gmap ArtKey Art) : gmap ArtKey Art :=
  filter (fun p => ~ (art_release p.1 = id /\ art_arch p.1 = arch /\ at_awaits p.2 <> None)) m.
Definition drop_awaiting (arch : string) (m : gmap ArtKey Art) (id : Z) : gmap ArtKey Art :=
  filter (fun p => ~ (at_awaits p.2 = Some id /\ art_arch p.1 = arch)) m.
Definition handleRendered (id : Z) (arch : string) (read d : RDB) : RDB * Out :=
  if negb (isRepoArch arch) then (d, Refused 400)
  else
    let all := id :: List.filter (fun a => negb (a =? id)) (waits_of read id arch) in
    (set_artifacts (fold_left (drop_awaiting arch) all (drop_own id arch (artifacts d))) d, Made id []).

(** ** Retention *)

Definition newer_first (x y : Z * Release) : Z := rl_seq y.2 - rl_seq x.2.
(** A ring's releases, newest first. *)
Definition of_ring (d : RDB) (ring : string) : list (Z * Release) := sort_by newer_first (List.filter (in_ring ring) (map_to_list (releases d))).
(** The architectures whose databases a head carries, and the newest release before it whose databases of one were all its own. *)
Definition carried_arches (d : RDB) (head : Z) : list string :=
  remove_dups (omap (fun p => if (art_release p.1 =? head) && negb (oz_eqb (at_awaits p.2) None) then Some (art_arch p.1) else None)
                    (map_to_list (artifacts d))).
Definition awaits_any (d : RDB) (id : Z) (arch : string) : bool :=
  existsb (fun p => (art_release p.1 =? id) && String.eqb (art_arch p.1) arch && negb (oz_eqb (at_awaits p.2) None)) (map_to_list (artifacts d)).
Definition rendered_before (d : RDB) (ring : string) (seq : Z) (arch : string) : option Z :=
  (fun p => rl_seq p.2) <$>
  List.find (fun p => (rl_seq p.2 <? seq) && (seq - CARRY_REACH <=? rl_seq p.2) && has_rows d p.1 arch && negb (awaits_any d p.1 arch))
            (of_ring d ring).
Definition carriedSince (d : RDB) (ring : string) (head : Z * Release) : option Z :=
  fold_left (fun since arch =>
    let seq := default (Z.max 1 (rl_seq head.2 - CARRY_REACH)) (rendered_before d ring (rl_seq head.2) arch) in
    Some (match since with Some s => Z.min s seq | None => seq end)) (carried_arches d head.1) None.

Record Retained := { protectedReleases : list Z; keptCheckpoints : list Z; checkpointSeq : list (string * Z) }.
(** A ring's protected releases: the newest [keep], and back to the one whose databases its head still serves. *)
Definition protected_of (d : RDB) (keep : nat) (ring : string) : list (Z * Release) :=
  let rows := take keep (of_ring d ring) in
  match rows, last rows with
  | h :: _, Some o =>
      match carriedSince d ring h with
      | Some since =>
          if since <? rl_seq o.2
          then (rows ++ List.filter (fun p => (since <=? rl_seq p.2) && (rl_seq p.2 <? rl_seq o.2)) (of_ring d ring))%list
          else rows
      | None => rows
      end
  | _, _ => rows
  end.
(** The newest checkpoint at or before the oldest of them. *)
Definition base_of (d : RDB) (ring : string) (oldest : Z * Release) : option (Z * Release) :=
  List.find (fun p => rl_checkpoint p.2 && (rl_seq p.2 <=? rl_seq oldest.2)) (of_ring d ring).
Definition retention (d : RDB) (keep : nat) : Retained :=
  let per ring := let rows := protected_of d keep ring in
                  (ring, rows, o ← last rows; base_of d ring o) in
  let all := map per RINGS in
  {| protectedReleases := all ≫= (fun x => map fst x.1.2);
     keptCheckpoints := all ≫= (fun x => map fst (List.filter (fun p => rl_checkpoint p.2) x.1.2) ++ match x.2 with Some b => [b.1] | None => [] end)%list;
     checkpointSeq := omap (fun x => (fun b => (x.1.1, rl_seq b.2)) <$> x.2) all |}.

Definition served (d : RDB) (id : Z) : bool := existsb (fun ring => bool_decide (id ∈ ringMembers d ring)) RINGS.
Definition outsideRetention (d : RDB) (x : Retained) (id : Z) : bool :=
  negb (served d id)
  && negb (existsb (fun c => bool_decide (id ∈ default ∅ (release_packages d !! c))) (keptCheckpoints x))
  && negb (existsb (fun r => bool_decide (id ∈ adds (delta_of d r) ∪ removes (delta_of d r))) (protectedReleases x)).
Definition row_cmp (x y : Z * PRow) : Z := x.1 - y.1.
Definition unreferenced (d : RDB) (x : Retained) (grace now : Z) : list (Z * PRow) :=
  sort_by row_cmp (List.filter (fun p => (p_created_at p.2 <? now - grace * DAY) && outsideRetention d x p.1) (map_to_list (packages d))).

(** *** The sweep *)

Definition key_of (p : PRow) : string := default (p_arch p +:+ "/" +:+ p_filename p) (p_r2_key p).
Definition object_keys (k : string) : list string := [k; k +:+ ".sig"; k +:+ ".provenance.json"; k +:+ ".provenance.json.sig"].
(** Another row names the same object. *)
Definition shared_key (d : RDB) (id : Z) (p : PRow) : bool :=
  existsb (fun q => String.eqb (p_filename q.2) (p_filename p) && negb (q.1 =? id) && String.eqb (key_of q.2) (key_of p)) (map_to_list (packages d)).
Definition gc_package (d : RDB) (v : Z * PRow) : RDB :=
  if served d v.1 then d
  else
    let gone := if shared_key d v.1 v.2 || starts_with "ghost/" (key_of v.2) then [] else object_keys (key_of v.2) in
    set_packages (delete v.1 (packages d)) (objects d ∖ list_to_set gone) d.
Definition gc_members (kept : list Z) (d : RDB) : RDB :=
  set_members (filter (fun p => p.1 ∈ kept) (release_packages d)) d.
Definition gc_flags (kept : list Z) (d : RDB) : RDB :=
  set_releases (map_imap (fun id r => Some (if rl_checkpoint r && negb (existsb (Z.eqb id) kept) then with_checkpoint false r else r)) (releases d)) d.
Definition at_or_before (d : RDB) (c : string * Z) (id : Z) : bool :=
  match releases d !! id with Some r => String.eqb (rl_ring r) c.1 && (rl_seq r <=? c.2) | None => false end.
Definition gc_deltas (d : RDB) (c : string * Z) : RDB :=
  set_deltas (filter (fun p => at_or_before d c p.1 = false) (release_deltas d)) d.
(** GET /gc: what it keeps and deletes was read from [read]. *)
Definition handleGc (keep limit : nat) (grace now : Z) (read d : RDB) : RDB :=
  let x := retention read (Nat.max 1 keep) in
  let victims := take (Nat.min limit 500) (unreferenced read x (Z.max 0 grace) now) in
  let d := fold_left gc_deltas (checkpointSeq x) (gc_flags (keptCheckpoints x) (gc_members (keptCheckpoints x) d)) in
  fold_left gc_package victims d.

(** ** A package taken out of every ring (pullFromRings) *)

Definition rings_of (d : RDB) (name : string) : list string :=
  List.filter (fun ring => existsb (fun p => String.eqb (p_name p.2) name && String.eqb (p_source p.2) "factory")
                                   (map_to_list (joined d (ringMembers d ring)))) RINGS.
Definition without (ring name note : string) : CreateRelease :=
  {| cr_ring := ring; cr_from_ring := None; cr_from_release := None; cr_add := []; cr_remove := []; cr_remove_from := [("factory", name)];
     cr_remove_arch := None; cr_arch := None; cr_note := Some note |}.
(** One release per ring that serves it; each with the release it made, and what its render jobs are asked for. *)
Definition pull_ring (name note : string) (acc : RDB * list (string * option Z)) (ring : string) : RDB * list (string * option Z) :=
  let '(d, out) := handleCreateRelease (without ring name note) acc.1 acc.1 acc.1 in
  (d, (acc.2 ++ [(ring, match out with Made id _ => Some id | _ => None end)])%list).
Definition pullFromRings (name note : string) (d : RDB) : RDB * list (string * option Z) := fold_left (pull_ring name note) (rings_of d name) (d, []).

(** ** What changed between two releases (diffFromDeltas) *)

(** The releases after [from] up to [id], newest first; at or below the oldest checkpoint the walk stops. *)
Fixpoint span (fuel : nat) (d : RDB) (from floor id : Z) : list (Z * Release) :=
  match releases d !! id with
  | None => []
  | Some r =>
      (id, r) ::
      match fuel, rl_parent r with
      | S n, Some p => if negb (p =? from) && (floor <? rl_seq r) then span n d from floor p else []
      | _, _ => []
      end
  end.
Inductive DeltaOp := op_add | op_remove.
#[export] Instance DeltaOp_eq_dec : EqDecision DeltaOp.
Proof. solve_decision. Defined.
Definition delta_rows (d : RDB) (id : Z) : list (Z * DeltaOp) :=
  (map (fun p => (p, op_add)) (elements (adds (delta_of d id))) ++ map (fun p => (p, op_remove)) (elements (removes (delta_of d id))))%list.
(** An op that meets its opposite cancels it. *)
Definition net_step (net : gmap Z DeltaOp) (row : Z * DeltaOp) : gmap Z DeltaOp :=
  match net !! row.1 with
  | Some o => if bool_decide (o = row.2) then <[row.1 := row.2]> net else delete row.1 net
  | None => <[row.1 := row.2]> net
  end.
Definition net_of (d : RDB) (chain : list (Z * Release)) : gmap Z DeltaOp :=
  fold_left net_step (rev chain ≫= (fun r => delta_rows d r.1)) ∅.
Definition oldest_checkpoint (d : RDB) (ring : string) : option Z :=
  head (sort_by Z.sub (map (fun p => rl_seq p.2) (List.filter (fun p => in_ring ring p && rl_checkpoint p.2) (map_to_list (releases d))))).
Definition side_size (arch : option string) (r : Release) : option Z :=
  match arch with
  | None => rl_count r
  | Some a => sl ← rl_sources r; Some (zsum sl_packages (List.filter (fun s => String.eqb (sl_arch s) a) sl))
  end.
Record DiffSides := { sd_before : gmap Z PRow; sd_after : gmap Z PRow; sd_counts : Z * Z }.
Definition side (d : RDB) (arch : option string) (net : gmap Z DeltaOp) (o : DeltaOp) : gmap Z PRow :=
  filter (fun p => net !! p.1 = Some o /\ arch_is arch p.2 = true) (packages d).
(** None where the fold cannot answer and the full lists do. *)
Definition diffFromDeltas (d : RDB) (from : option (Z * Release)) (to_ : Z * Release) (arch : option string) : option DiffSides :=
  f ← from;
  before ← side_size arch f.2; after ← side_size arch to_.2;
  floor ← oldest_checkpoint d (rl_ring to_.2);
  if rl_seq f.2 <? floor then None
  else
    let chain := if to_.1 =? f.1 then [] else span (Z.to_nat CHECKPOINT_EVERY * 4) d f.1 floor to_.1 in
    if negb (to_.1 =? f.1) && negb (oz_eqb (l ← last chain; rl_parent l.2) (Some f.1)) then None
    else if existsb (fun r => rl_seq r.2 <=? floor) chain then None
    else if existsb (fun r => negb (bool_decide (is_Some (packages d !! r.1)))) (chain ≫= (fun r => delta_rows d r.1)) then None
    else
      let net := net_of d chain in
      Some {| sd_before := side d arch net op_remove; sd_after := side d arch net op_add; sd_counts := (before, after) |}.
(** The full lists' answer: each side as it is read back, joined to the index. *)
Definition listed_side (d : RDB) (arch : option string) (s : gset Z) : gmap Z PRow := filter (fun p => arch_is arch p.2 = true) (joined d s).
