(* ===== verification/RingsFacts.v ===== *)
(** * What the rings' releases keep: a release reads back as it was made

    Every interleaving of requests over the releases: each reads states the run went through and writes on the one it finds.
    [made] records what the ring served when a release became its head. *)
From S2P Require Import Prelude JsTime Targets Rings.
Local Open Scope string_scope.
Local Open Scope Z_scope.

(** ** Runs *)

Inductive ROp :=
| OpIndex (row : PRow)
| OpCreate (b : CreateRelease) (read later : RDB)
| OpMembers (id : Z)
| OpGc (keep limit : nat) (grace now : Z) (read : RDB)
| OpPut (signing : bool) (id : Z) (kind repo arch : string) (size : option Z) (sig : Z)
| OpRendered (id : Z) (arch : string) (read : RDB).

(** A row indexed takes the next id. *)
Definition index_package (row : PRow) (d : RDB) : RDB :=
  {| packages := <[next_package d := row]> (packages d); next_package := next_package d + 1; releases := releases d;
     next_release := next_release d; ring_packages := ring_packages d; ring_heads := ring_heads d; release_packages := release_packages d;
     release_deltas := release_deltas d; artifacts := artifacts d; objects := objects d ∪ {[key_of row]} |}.
Definition rstep (o : ROp) (d : RDB) : RDB * Out :=
  match o with
  | OpIndex row => (index_package row d, Broke)
  | OpCreate b read later => handleCreateRelease b read later d
  | OpMembers id => (match releaseMembers d id with Some (_, d') => d' | None => d end, Broke)
  | OpGc keep limit grace now read => (handleGc keep limit grace now read d, Broke)
  | OpPut signing id kind repo arch size sig => ((handlePutArtifact signing id kind repo arch size sig d).1, Broke)
  | OpRendered id arch read => ((handleRendered id arch read d).1, Broke)
  end.
Record World := { db : RDB; made : gmap Z (gset Z) }.
Definition wstep (o : ROp) (w : World) : World :=
  let '(d, out) := rstep o (db w) in
  {| db := d; made := match o, out with OpCreate b _ _, Made id _ => <[id := ringMembers d (cr_ring b)]> (made w) | _, _ => made w end |}.
(** What a request read is a state the run went through. *)
Definition reads_from (past : list RDB) (o : ROp) : Prop :=
  match o with
  | OpCreate _ read later => In read past /\ In later past
  | OpGc _ _ _ _ read | OpRendered _ _ read => In read past
  | _ => True
  end.
(** The head a release is made on is read with the number it takes. *)
Definition numbered_together (o : ROp) : Prop :=
  match o with OpCreate b read later => ring_heads read !! cr_ring b = ring_heads later !! cr_ring b | _ => True end.
Inductive rings_run : list RDB -> World -> Prop :=
| run_start : rings_run [no_release] {| db := no_release; made := ∅ |}
| run_step past w o : rings_run past w -> reads_from past o -> numbered_together o -> rings_run (db (wstep o w) :: past) (wstep o w).

(** ** The invariant *)

(** A delta is the difference of two lists: it adds what the parent did not serve and removes what it did. *)
Definition effective (x : Delta) (s : gset Z) : Prop := adds x ## s /\ removes x ⊆ s.

Section Invariant.
Context (d : RDB) (m : gmap Z (gset Z)).
Record rings_ok : Prop := {
  ok_head ring id : ring_heads d !! ring = Some id ->
    m !! id = Some (ringMembers d ring)
    /\ exists r, releases d !! id = Some r /\ rl_ring r = ring
       /\ forall id' r', releases d !! id' = Some r' -> rl_ring r' = ring -> rl_seq r' <= rl_seq r;
  ok_headless ring id r : ring_heads d !! ring = None -> releases d !! id = Some r -> rl_ring r <> ring;
  ok_empty ring : ring_heads d !! ring = None -> ringMembers d ring = ∅;
  ok_release id r : releases d !! id = Some r -> id < next_release d /\ 1 <= rl_seq r /\ isRing (rl_ring r) = true /\ is_Some (m !! id);
  ok_seq id id' r r' : releases d !! id = Some r -> releases d !! id' = Some r' -> rl_ring r = rl_ring r' -> rl_seq r = rl_seq r' -> id = id';
  ok_parent id r : releases d !! id = Some r ->
    match rl_parent r with
    | None => rl_seq r = 1
    | Some p => exists rp, releases d !! p = Some rp /\ rl_ring rp = rl_ring r /\ rl_seq rp = rl_seq r - 1
    end;
  ok_delta id r p x sp : releases d !! id = Some r -> rl_parent r = Some p -> release_deltas d !! id = Some x -> m !! p = Some sp ->
    m !! id = Some (apply_delta x sp) /\ effective x sp;
  ok_pruned id r q rq : releases d !! id = Some r -> release_deltas d !! id = None ->
    releases d !! q = Some rq -> rl_ring rq = rl_ring r -> rl_checkpoint rq = true -> rl_seq r <= rl_seq rq;
  ok_checkpoint id r : releases d !! id = Some r -> rl_checkpoint r = true -> release_packages d !! id = m !! id;
  ok_plain id s : release_packages d !! id = Some s -> exists r, releases d !! id = Some r /\ rl_checkpoint r = true }.
End Invariant.

Lemma start_ok : rings_ok no_release ∅.
Proof. split; cbn; intros; try by rewrite ?lookup_empty in *. Qed.

(** *** Reading back *)

Lemma head_ring_Some d id ring : head_ring d id = Some ring -> ring_heads d !! ring = Some id.
Proof. unfold head_ring. intros H%find_some. destruct H as [_ H]. by apply oz_eqb_eq in H. Qed.
Lemma chain_reads d m n : rings_ok d m -> forall id r l q, releases d !! id = Some r -> chain_of n d id = Some (l, q) ->
  exists rq sq, releases d !! q = Some rq /\ rl_ring rq = rl_ring r /\ rl_checkpoint rq = true /\ rl_seq rq <= rl_seq r
  /\ m !! q = Some sq /\ m !! id = Some (foldr (fun r s => apply_delta (delta_of d r) s) sq l).
Proof.
  intros Hok. induction n as [|n IH]; intros id r l q Hr; cbn [chain_of]; rewrite Hr; destruct (rl_checkpoint r) eqn:Ec; try done.
  - intros [= <- <-]. destruct (ok_release _ _ Hok _ _ Hr) as (_ & _ & _ & [s Hs]). by exists r, s.
  - intros [= <- <-]. destruct (ok_release _ _ Hok _ _ Hr) as (_ & _ & _ & [s Hs]). by exists r, s.
  - pose proof (ok_parent _ _ Hok _ _ Hr) as Hp. destruct (rl_parent r) as [p|] eqn:Ep; [|done]. destruct Hp as (rp & Hrp & Hring & Hseq).
    destruct (chain_of n d p) as [[l' q']|] eqn:Echain; [|done]. intros [= <- <-].
    destruct (IH _ _ _ _ Hrp Echain) as (rq & sq & Hrq & Hringq & Hcq & Hle & Hsq & Hmp). exists rq, sq. split_and!; try done; [congruence|lia|].
    cbn [foldr]. unfold delta_of at 1. destruct (release_deltas d !! id) as [x|] eqn:Ex.
    + cbn [default]. by eapply ok_delta in Hmp as [H _].
    + pose proof (ok_pruned _ _ Hok _ _ _ _ Hr Ex Hrq ltac:(congruence) Hcq). lia.
Qed.
Lemma rebuilt_ok d m id r s : rings_ok d m -> releases d !! id = Some r -> rebuilt d id = Some s ->
  m !! id = Some s.
Proof.
  intros Hok Hr. unfold rebuilt. destruct (head_ring d id) as [ring|] eqn:Eh.
  - intros [= <-]. by apply head_ring_Some, (ok_head _ _ Hok) in Eh as [H _].
  - destruct (chain_of _ d id) as [[l q]|] eqn:Ec; [|done]. cbn [mbind option_bind fst snd]. intros [= <-].
    destruct (chain_reads _ _ _ Hok _ _ _ _ Hr Ec) as (rq & sq & Hrq & _ & Hcq & _ & Hsq & ->).
    by rewrite (ok_checkpoint _ _ Hok _ _ Hrq Hcq), Hsq.
Qed.

(** ** What a request leaves of it *)

Definition core (r : Release) : string * Z * option Z * bool := (rl_ring r, rl_seq r, rl_parent r, rl_checkpoint r).
(** The same releases, as far as a reading back goes. *)
Record same_rings (d d' : RDB) : Prop := {
  sr_releases id : core <$> releases d' !! id = core <$> releases d !! id;
  sr_next : next_release d' = next_release d; sr_rings : ring_packages d' = ring_packages d; sr_heads : ring_heads d' = ring_heads d;
  sr_members : release_packages d' = release_packages d; sr_deltas : release_deltas d' = release_deltas d }.
#[export] Instance same_rings_po : PreOrder same_rings.
Proof.
  split; [by intros d; split|]. intros d1 d2 d3 [] []. split; congruence.
Qed.
Lemma same_rings_back d d' id r' : same_rings d d' -> releases d' !! id = Some r' -> exists r, releases d !! id = Some r /\ core r = core r'.
Proof.
  intros H Hr. pose proof (sr_releases _ _ H id) as E. rewrite Hr in E. destruct (releases d !! id) as [r|]; [|done].
  exists r. split; [done|]. cbn in E. congruence.
Qed.
Lemma same_rings_forth d d' id r : same_rings d d' -> releases d !! id = Some r -> exists r', releases d' !! id = Some r' /\ core r' = core r.
Proof.
  intros H Hr. pose proof (sr_releases _ _ H id) as E. rewrite Hr in E. destruct (releases d' !! id) as [r'|]; [|done].
  exists r'. split; [done|]. cbn in E. congruence.
Qed.
Ltac back H := let r := fresh "r0" in let Hr := fresh "Hr" in let E := fresh "E" in
  apply (same_rings_back _ _ _ _ H) in H as (r & Hr & E).
Lemma ok_same d d' m : same_rings d d' -> rings_ok d m -> rings_ok d' m.
Proof.
  intros H Hok. pose proof H as [_ En Er Eh Em Ed].
  assert (Hm : forall ring, ringMembers d' ring = ringMembers d ring) by (intros ring; unfold ringMembers; by rewrite Er).
  split.
  - intros ring id Hh. rewrite Eh in Hh. apply (ok_head _ _ Hok) in Hh as (Hm' & r & Hr & Hring & Hmax). rewrite Hm. split; [done|].
    destruct (same_rings_forth _ _ _ _ H Hr) as (r' & Hr' & [= Ering Eseq _ _]). exists r'. split_and!; [done|congruence|].
    intros id2 r2 Hr2 Hring2. destruct (same_rings_back _ _ _ _ H Hr2) as (r2' & Hr2' & [= Ering2 Eseq2 _ _]).
    specialize (Hmax _ _ Hr2'). rewrite Eseq, <- Eseq2. apply Hmax. congruence.
  - intros ring id r' Hh Hr'. rewrite Eh in Hh. destruct (same_rings_back _ _ _ _ H Hr') as (r & Hr & [= Ering _ _ _]).
    rewrite <- Ering. by eapply ok_headless.
  - intros ring Hh. rewrite Hm. rewrite Eh in Hh. by apply (ok_empty _ _ Hok).
  - intros id r' Hr'. destruct (same_rings_back _ _ _ _ H Hr') as (r & Hr & [= Ering Eseq _ _]).
    rewrite En, <- Ering, <- Eseq. by apply (ok_release _ _ Hok).
  - intros id id' r1 r2 H1 H2 E1 E2. destruct (same_rings_back _ _ _ _ H H1) as (r1' & Hr1 & [= R1 S1 _ _]).
    destruct (same_rings_back _ _ _ _ H H2) as (r2' & Hr2 & [= R2 S2 _ _]). eapply (ok_seq _ _ Hok _ _ _ _ Hr1 Hr2); congruence.
  - intros id r' Hr'. destruct (same_rings_back _ _ _ _ H Hr') as (r & Hr & [= Ering Eseq Ep _]).
    pose proof (ok_parent _ _ Hok _ _ Hr) as Hp. rewrite <- Ep, <- Ering, <- Eseq. destruct (rl_parent r); [|done].
    destruct Hp as (rp & Hrp & ? & ?). destruct (same_rings_forth _ _ _ _ H Hrp) as (rp' & Hrp' & [= Ering2 Eseq2 _ _]).
    exists rp'. split_and!; congruence.
  - intros id r' p x sp Hr' Hp Hx. destruct (same_rings_back _ _ _ _ H Hr') as (r & Hr & [= _ _ Ep _]). rewrite Ed in Hx.
    eapply (ok_delta _ _ Hok); [done|congruence|done].
  - intros id r' q rq' Hr' Hx Hq' Ering Hc. rewrite Ed in Hx. destruct (same_rings_back _ _ _ _ H Hr') as (r & Hr & [= R1 S1 _ _]).
    destruct (same_rings_back _ _ _ _ H Hq') as (rq & Hrq & [= R2 S2 _ C2]). rewrite <- S1, <- S2.
    eapply (ok_pruned _ _ Hok); [done..|congruence|congruence].
  - intros id r' Hr' Hc. rewrite Em. destruct (same_rings_back _ _ _ _ H Hr') as (r & Hr & [= _ _ _ Ec]).
    eapply (ok_checkpoint _ _ Hok); [done|congruence].
  - intros id s Hs. rewrite Em in Hs. apply (ok_plain _ _ Hok) in Hs as (r & Hr & Hc).
    destruct (same_rings_forth _ _ _ _ H Hr) as (r' & Hr' & [= _ _ _ Ec]). exists r'. split; congruence.
Qed.

(** *** A release read back, and written out *)

Section Written.
Context (d : RDB) (m : gmap Z (gset Z)) (id : Z) (r : Release) (s : gset Z).
Context (Hok : rings_ok d m) (Hr : releases d !! id = Some r) (Hc : rl_checkpoint r = false) (Hs : rebuilt d id = Some s).
Definition written_out : RDB :=
  set_releases (alter (with_checkpoint true) id (releases d))
    (set_members (<[id := default ∅ (release_packages d !! id) ∪ s]> (release_packages d)) d).
Lemma not_written : release_packages d !! id = None.
Proof. destruct (release_packages d !! id) as [x|] eqn:E; [|done]. apply (ok_plain _ _ Hok) in E as (r' & Hr' & Hc'). congruence. Qed.
Lemma written_at i r' : releases written_out !! i = Some r' ->
  exists r0, releases d !! i = Some r0 /\ rl_ring r' = rl_ring r0 /\ rl_seq r' = rl_seq r0 /\ rl_parent r' = rl_parent r0
  /\ rl_checkpoint r' = (bool_decide (i = id) || rl_checkpoint r0).
Proof.
  cbn. intros H. destruct (decide (i = id)) as [->|Hne].
  - rewrite lookup_alter_eq in H. apply fmap_Some in H as (r0 & Hr0 & ->). exists r0. rewrite bool_decide_true by done. done.
  - rewrite lookup_alter_ne in H by done. exists r'. rewrite bool_decide_false by done. done.
Qed.
Lemma written_to i r0 : releases d !! i = Some r0 -> exists r', releases written_out !! i = Some r' /\ rl_ring r' = rl_ring r0
  /\ rl_seq r' = rl_seq r0 /\ rl_parent r' = rl_parent r0 /\ rl_checkpoint r' = (bool_decide (i = id) || rl_checkpoint r0).
Proof.
  intros H. destruct (decide (i = id)) as [->|Hne].
  - exists (with_checkpoint true r0). cbn. rewrite lookup_alter_eq, H. by rewrite bool_decide_true by done.
  - exists r0. cbn. rewrite lookup_alter_ne, bool_decide_false by done. done.
Qed.
Lemma checkpoint_below : exists q rq, releases d !! q = Some rq /\ rl_ring rq = rl_ring r /\ rl_checkpoint rq = true /\ rl_seq rq <= rl_seq r
  \/ (exists ring, ring_heads d !! ring = Some id).
Proof.
  unfold rebuilt in Hs. destruct (head_ring d id) as [ring|] eqn:Eh.
  - exists 0, r. right. exists ring. by apply head_ring_Some.
  - destruct (chain_of _ d id) as [[l q]|] eqn:Ec; [|done]. destruct (chain_reads _ _ _ Hok _ _ _ _ Hr Ec) as (rq & sq & ? & ? & ? & ? & _).
    exists q, rq. by left.
Qed.
Lemma written_ok : rings_ok written_out m.
Proof.
  assert (Hms : m !! id = Some s) by (by eapply rebuilt_ok).
  split.
  - intros ring i Hh. apply (ok_head _ _ Hok) in Hh as (Hm & r0 & Hr0 & Hring & Hmax). split; [done|].
    destruct (written_to _ _ Hr0) as (r' & Hr' & Er & Es & _). exists r'. split_and!; [done|congruence|].
    intros i2 r2 H2 Hring2. destruct (written_at _ _ H2) as (r2' & H2' & R2 & S2 & _). rewrite Es, S2. eapply Hmax; [done|congruence].
  - intros ring i r' Hh Hr'. destruct (written_at _ _ Hr') as (r0 & Hr0 & -> & _). by eapply ok_headless.
  - apply (ok_empty _ _ Hok).
  - intros i r' Hr'. destruct (written_at _ _ Hr') as (r0 & Hr0 & -> & -> & _). by apply (ok_release _ _ Hok).
  - intros i i' r1 r2 H1 H2. destruct (written_at _ _ H1) as (r1' & Hr1 & -> & -> & _). destruct (written_at _ _ H2) as (r2' & Hr2 & -> & -> & _).
    by eapply (ok_seq _ _ Hok).
  - intros i r' Hr'. destruct (written_at _ _ Hr') as (r0 & Hr0 & -> & -> & -> & _). pose proof (ok_parent _ _ Hok _ _ Hr0) as Hp.
    destruct (rl_parent r0); [|done]. destruct Hp as (rp & Hrp & ? & ?). destruct (written_to _ _ Hrp) as (rp' & Hrp' & E1 & E2 & _). exists rp'. by rewrite E1, E2.
  - intros i r' p x sp Hr'. destruct (written_at _ _ Hr') as (r0 & Hr0 & _ & _ & -> & _). by eapply (ok_delta _ _ Hok).
  - intros i r' q rq' Hr' Hx Hq Ering Hcq. destruct (written_at _ _ Hr') as (r0 & Hr0 & R1 & S1 & _).
    destruct (written_at _ _ Hq) as (rq & Hrq & R2 & S2 & _ & C2). rewrite C2 in Hcq. rewrite S1, S2. destruct (rl_checkpoint rq) eqn:Eq.
    { eapply (ok_pruned _ _ Hok _ _ _ _ Hr0 Hx Hrq); [congruence|done]. }
    rewrite orb_false_r in Hcq. apply bool_decide_eq_true in Hcq as ->. assert (rq = r) as -> by congruence.
    destruct checkpoint_below as (q' & rb & [(Hq' & Eq' & Hc' & Hle)|(ring & Hh)]).
    + pose proof (ok_pruned _ _ Hok _ _ _ _ Hr0 Hx Hq' ltac:(congruence) Hc'). lia.
    + apply (ok_head _ _ Hok) in Hh as (_ & rh & Hrh & Hring & Hmax). rewrite Hrq in Hrh. injection Hrh as <-. eapply Hmax; [done|congruence].
  - intros i r' Hr' Hc'. destruct (written_at _ _ Hr') as (r0 & Hr0 & _ & _ & _ & C). cbn. rewrite C in Hc'. destruct (decide (i = id)) as [->|Hne].
    + rewrite lookup_insert_eq, not_written, Hms. cbn. f_equal. set_solver.
    + rewrite lookup_insert_ne by done. rewrite bool_decide_false in Hc' by done. by eapply (ok_checkpoint _ _ Hok).
  - intros i x. cbn. destruct (decide (i = id)) as [->|Hne].
    + intros _. destruct (written_to _ _ Hr) as (r' & Hr' & _ & _ & _ & C). exists r'. by rewrite C, bool_decide_true.
    + rewrite lookup_insert_ne by done. intros Hx. apply (ok_plain _ _ Hok) in Hx as (r0 & Hr0 & Hc0).
      destruct (written_to _ _ Hr0) as (r' & Hr' & _ & _ & _ & C). exists r'. by rewrite C, Hc0, orb_true_r.
Qed.
End Written.
Lemma ensure_ok d m id d' : rings_ok d m -> ensureCheckpoint d id = Some d' -> rings_ok d' m /\ release_packages d' !! id = m !! id.
Proof.
  intros Hok. unfold ensureCheckpoint. destruct (releases d !! id) as [r|] eqn:Er; [|done]. destruct (rl_checkpoint r) eqn:Ec.
  - intros [= <-]. split; [done|]. by eapply ok_checkpoint.
  - destruct (rebuilt d id) as [s|] eqn:Es; [|done]. cbn [mbind option_bind]. destruct (bool_decide _); [|done]. intros [= <-].
    split; [by eapply (written_ok d m id r s)|]. cbn. rewrite lookup_insert_eq, (not_written d m id r) by done.
    rewrite (rebuilt_ok _ _ _ _ _ Hok Er Es). cbn. f_equal. set_solver.
Qed.
Lemma members_ok d m id s d' : rings_ok d m -> releaseMembers d id = Some (s, d') -> rings_ok d' m /\ m !! id = Some s.
Proof.
  intros Hok. unfold releaseMembers. destruct (head_ring d id) as [ring|] eqn:Eh.
  - intros [= <- <-]. split; [done|]. by apply head_ring_Some, (ok_head _ _ Hok) in Eh as [H _].
  - destruct (ensureCheckpoint d id) as [d1|] eqn:E; [|done]. cbn [mbind option_bind]. intros [= <- <-].
    destruct (ensure_ok _ _ _ _ Hok E) as [H1 H2]. split; [done|]. rewrite H2.
    assert (exists r, releases d !! id = Some r) as (r & Hr) by (unfold ensureCheckpoint in E; destruct (releases d !! id); by eauto).
    destruct (ok_release _ _ Hok _ _ Hr) as (_ & _ & _ & [s Hs]). by rewrite Hs.
Qed.

(** *** A sweep *)

#[export] Instance newer_first_comparator : Comparator newer_first.
Proof. constructor; intros; unfold newer_first in *; lia. Qed.
Lemma of_ring_In d ring p : In p (of_ring d ring) <-> releases d !! p.1 = Some p.2 /\ rl_ring p.2 = ring.
Proof.
  unfold of_ring. rewrite sort_by_In, filter_In. unfold in_ring. destruct p as [id r]. cbn.
  rewrite <- list_elem_of_In, elem_of_map_to_list, String.eqb_eq. done.
Qed.
Lemma sorted_last {A} (R : A -> A -> Prop) l o x : StronglySorted R l -> last l = Some o -> In x l -> x = o \/ R x o.
Proof.
  induction l as [|a l IH]; [done|]. intros Hs Hl Hx. apply StronglySorted_inv in Hs as [Hs Hf]. destruct l as [|b l].
  - injection Hl as <-. destruct Hx as [->|[]]. by left.
  - destruct Hx as [<-|Hx]; [|by apply IH]. right. rewrite Forall_forall in Hf. apply Hf, list_elem_of_In. cbn in Hl.
    apply list_elem_of_In, last_Some_elem_of. done.
Qed.
Lemma sorted_take {A} (R : A -> A -> Prop) n l : StronglySorted R l -> StronglySorted R (take n l).
Proof.
  intros Hs. revert n. induction Hs as [|a l Hs IH Hf]; intros [|n]; cbn; constructor; [done|].
  apply Forall_take. done.
Qed.
Lemma filter_sorted {A} (R : A -> A -> Prop) (f : A -> bool) l : StronglySorted R l -> StronglySorted R (List.filter f l).
Proof.
  induction 1 as [|a l Hs IH Hf]; cbn; [constructor|]. destruct (f a); [|done]. constructor; [done|].
  rewrite Forall_forall in *. intros x Hx. apply Hf. apply list_elem_of_In in Hx. apply filter_In in Hx as [Hx _]. by apply list_elem_of_In.
Qed.
Lemma take_In {A} n (l : list A) x : In x (take n l) -> In x l.
Proof. rewrite <- (take_drop n l) at 2. intros H. apply in_or_app. by left. Qed.
Lemma protected_In d keep ring p : In p (protected_of d keep ring) -> In p (of_ring d ring).
Proof.
  unfold protected_of. cbv zeta. assert (Ht : In p (take keep (of_ring d ring)) -> In p (of_ring d ring)) by apply take_In.
  destruct (take keep (of_ring d ring)) as [|h t]; [done|]. destruct (last (h :: t)) as [o|]; [|done].
  destruct (carriedSince d ring h); [|done]. destruct (_ <? _); [|done].
  intros [H|H]%in_app_iff; [by apply Ht|]. by apply filter_In in H as [H _].
Qed.
(** The last protected release is the oldest. *)
Lemma protected_last d keep ring o p : last (protected_of d keep ring) = Some o -> In p (protected_of d keep ring) -> rl_seq o.2 <= rl_seq p.2.
Proof.
  assert (Hs : StronglySorted (cmp_le newer_first) (of_ring d ring)) by exact (sort_by_sorted newer_first _).
  assert (Ht : forall o p, last (take keep (of_ring d ring)) = Some o -> In p (take keep (of_ring d ring)) -> rl_seq o.2 <= rl_seq p.2).
  { intros o' p' Hl Hp. destruct (sorted_last _ _ _ _ (sorted_take _ keep _ Hs) Hl Hp) as [->|H]; [lia|]. unfold cmp_le, newer_first in H. lia. }
  unfold protected_of. cbv zeta. destruct (take keep (of_ring d ring)) as [|h t] eqn:Et; [done|]. destruct (last (h :: t)) as [o1|] eqn:El; [|by rewrite El].
  destruct (carriedSince d ring h) as [since|]; [|by rewrite El; intros [= <-]; apply Ht].
  destruct (since <? rl_seq o1.2); [|by rewrite El; intros [= <-]; apply Ht].
  set (older := List.filter _ _). rewrite last_app. intros Hl Hp.
  assert (Hol : forall x, In x older -> rl_seq x.2 < rl_seq o1.2) by (intros x Hx; apply filter_In in Hx as [_ Hx]; breflect; lia).
  destruct (last older) as [o2|] eqn:E2.
  - injection Hl as <-. assert (Ho2 : In o2 older) by by apply list_elem_of_In, last_Some_elem_of.
    apply in_app_iff in Hp as [Hp|Hp]; [specialize (Ht _ _ eq_refl Hp); specialize (Hol _ Ho2); lia|].
    assert (Hso : StronglySorted (cmp_le newer_first) older) by by apply filter_sorted.
    destruct (sorted_last _ _ _ _ Hso E2 Hp) as [->|H]; [lia|]. unfold cmp_le, newer_first in H. lia.
  - apply last_None in E2. rewrite E2, app_nil_r in Hp. rewrite El in Hl. injection Hl as <-. by apply Ht.
Qed.
(** What is kept of a ring is at or after the checkpoint its deltas are dropped up to. *)
Lemma kept_above d keep k r c : In k (keptCheckpoints (retention d keep)) -> releases d !! k = Some r ->
  In (rl_ring r, c) (checkpointSeq (retention d keep)) -> c <= rl_seq r.
Proof.
  unfold retention. cbn [keptCheckpoints checkpointSeq]. set (rows := protected_of d keep). intros Hk Hr Hc.
  apply list_elem_of_In, list_elem_of_bind in Hk as (x & Hk & Hx). apply list_elem_of_fmap in Hx as (ring & -> & _).
  apply list_elem_of_In, list_elem_of_omap in Hc as (y & Hy & Hb). apply list_elem_of_fmap in Hy as (ring' & -> & _). cbn [fst snd] in *.
  destruct (last (rows ring')) as [o|] eqn:El; [|done]. cbn [mbind option_bind] in Hb.
  destruct (base_of d ring' o) as [[bi br]|] eqn:Eb; [|done]. cbn in Hb. injection Hb as -> <-.
  assert (Hbase : forall R o b, base_of d R o = Some b -> rl_ring b.2 = R /\ rl_checkpoint b.2 = true /\ rl_seq b.2 <= rl_seq o.2 /\ releases d !! b.1 = Some b.2).
  { intros R o' b H. unfold base_of in H. apply find_some in H as [H1 H2]. apply of_ring_In in H1 as [H1 H3]. breflect. done. }
  apply list_elem_of_In, in_app_iff in Hk as [Hk|Hk].
  - apply in_map_iff in Hk as ([k' rk] & Hkk & Hk). cbn in Hkk. subst k'. apply filter_In in Hk as [Hk _].
    pose proof (protected_In _ _ _ _ Hk) as Hof. apply of_ring_In in Hof as [Hof Hring]. cbn in Hof, Hring. assert (rk = r) as -> by congruence. subst ring.
    pose proof (protected_last _ _ _ _ _ El Hk) as Hle. apply Hbase in Eb as (_ & _ & Hb & _). cbn in *. lia.
  - destruct (last (rows ring)) as [o2|] eqn:E2; [|done]. cbn [mbind option_bind] in Hk.
    destruct (base_of d ring o2) as [[ki kr]|] eqn:Eb2; [|done]. destruct Hk as [Hk|[]]. cbn in Hk. subst ki.
    pose proof (Hbase _ _ _ Eb2) as (Hring & _ & _ & Hkr). cbn in Hkr, Hring. assert (kr = r) as -> by congruence. rewrite <- Hring in Eb2, E2.
    rewrite El in E2. injection E2 as ->. rewrite Eb in Eb2. injection Eb2 as _ ->. lia.
Qed.

Lemma kept_is d keep k : In k (keptCheckpoints (retention d keep)) -> exists r, releases d !! k = Some r.
Proof.
  unfold retention. cbn [keptCheckpoints]. intros Hk. apply list_elem_of_In, list_elem_of_bind in Hk as (x & Hk & Hx).
  apply list_elem_of_fmap in Hx as (ring & -> & _). cbn [fst snd] in Hk. apply list_elem_of_In, in_app_iff in Hk as [Hk|Hk].
  - apply in_map_iff in Hk as ([k' r] & <- & Hk). apply filter_In in Hk as [Hk _]. apply protected_In, of_ring_In in Hk as [Hk _]. by exists r.
  - destruct (last _) as [o|]; [|done]. cbn [mbind option_bind] in Hk. destruct (base_of d ring o) as [b|] eqn:Eb; [|done]. destruct Hk as [<-|[]].
    unfold base_of in Eb. apply find_some in Eb as [Eb _]. apply of_ring_In in Eb as [Eb _]. by exists b.2.
Qed.

Section Swept.
Context (d : RDB) (m : gmap Z (gset Z)) (kept : list Z) (cs : list (string * Z)).
Definition swept : RDB := fold_left gc_deltas cs (gc_flags kept (gc_members kept d)).
Lemma deltas_kept d0 id : releases (fold_left gc_deltas cs d0) = releases d0 /\ ring_packages (fold_left gc_deltas cs d0) = ring_packages d0
  /\ ring_heads (fold_left gc_deltas cs d0) = ring_heads d0 /\ release_packages (fold_left gc_deltas cs d0) = release_packages d0
  /\ next_release (fold_left gc_deltas cs d0) = next_release d0 /\ packages (fold_left gc_deltas cs d0) = packages d0
  /\ release_deltas (fold_left gc_deltas cs d0) !! id
     = (if existsb (fun c => at_or_before d0 c id) cs then None else release_deltas d0 !! id).
Proof.
  revert d0. induction cs as [|c l IH]; intros d0; [done|]. cbn [fold_left existsb].
  destruct (IH (gc_deltas d0 c)) as (-> & -> & -> & -> & -> & -> & ->). split_and!; try done. cbn [release_deltas gc_deltas set_deltas].
  replace (existsb (fun c0 => at_or_before (gc_deltas d0 c) c0 id) l) with (existsb (fun c0 => at_or_before d0 c0 id) l) by done.
  destruct (existsb _ l); [by rewrite orb_true_r|]. rewrite orb_false_r. cbn. destruct (at_or_before d0 c id) eqn:E.
  - apply map_lookup_filter_None. right. cbn. intros x Hx. by rewrite E.
  - destruct (release_deltas d0 !! id) as [x|] eqn:Ex.
    + by apply map_lookup_filter_Some.
    + apply map_lookup_filter_None. by left.
Qed.
Lemma swept_at i r' : releases swept !! i = Some r' ->
  exists r0, releases d !! i = Some r0 /\ rl_ring r' = rl_ring r0 /\ rl_seq r' = rl_seq r0 /\ rl_parent r' = rl_parent r0
  /\ rl_checkpoint r' = rl_checkpoint r0 && existsb (Z.eqb i) kept.
Proof.
  unfold swept. destruct (deltas_kept (gc_flags kept (gc_members kept d)) i) as (-> & _). cbn. rewrite map_lookup_imap.
  destruct (releases d !! i) as [r0|]; [|done]. cbn. intros [= <-]. exists r0. split; [done|].
  destruct (rl_checkpoint r0) eqn:E1, (existsb _ kept) eqn:E2; cbn; by rewrite ?E1.
Qed.
Lemma swept_to i r0 : releases d !! i = Some r0 -> exists r', releases swept !! i = Some r' /\ rl_ring r' = rl_ring r0
  /\ rl_seq r' = rl_seq r0 /\ rl_parent r' = rl_parent r0 /\ rl_checkpoint r' = rl_checkpoint r0 && existsb (Z.eqb i) kept.
Proof.
  intros H. unfold swept. destruct (deltas_kept (gc_flags kept (gc_members kept d)) i) as (-> & _). cbn. rewrite map_lookup_imap, H. cbn.
  eexists. split; [done|]. destruct (rl_checkpoint r0) eqn:E1, (existsb _ kept) eqn:E2; cbn; by rewrite ?E1.
Qed.
Lemma swept_members i : release_packages swept !! i = (if existsb (Z.eqb i) kept then release_packages d !! i else None).
Proof.
  unfold swept. destruct (deltas_kept (gc_flags kept (gc_members kept d)) i) as (_ & _ & _ & -> & _). cbn.
  destruct (existsb _ kept) eqn:E.
  - apply existsb_exists in E as (k & Hk & Ek). apply Z.eqb_eq in Ek. subst k. destruct (release_packages d !! i) eqn:Ei.
    + apply map_lookup_filter_Some. split; [done|]. cbn. by apply list_elem_of_In.
    + apply map_lookup_filter_None. by left.
  - apply map_lookup_filter_None. right. cbn. intros x _ Hi. apply list_elem_of_In in Hi. apply eq_true_false_abs with (2 := E).
    apply existsb_exists. exists i. split; [done|]. apply Z.eqb_refl.
Qed.
Lemma swept_ok : rings_ok d m ->
  (forall k r c, In k kept -> releases d !! k = Some r -> In (rl_ring r, c) cs -> c <= rl_seq r) -> rings_ok swept m.
Proof.
  intros Hok Habove. pose proof (fun i => deltas_kept (gc_flags kept (gc_members kept d)) i) as Hk.
  assert (Hheads : ring_heads swept = ring_heads d) by (unfold swept; by destruct (Hk 0) as (_ & _ & -> & _)).
  assert (Hrings : forall ring, ringMembers swept ring = ringMembers d ring)
    by (intros ring; unfold ringMembers, swept; by destruct (Hk 0) as (_ & -> & _)).
  assert (Hnext : next_release swept = next_release d) by (unfold swept; by destruct (Hk 0) as (_ & _ & _ & _ & -> & _)).
  assert (Hdel : forall i x, release_deltas swept !! i = Some x -> release_deltas d !! i = Some x).
  { intros i x. unfold swept. destruct (Hk i) as (_ & _ & _ & _ & _ & _ & ->). by destruct (existsb _ _). }
  split.
  - intros ring i Hh. rewrite Hheads in Hh. apply (ok_head _ _ Hok) in Hh as (Hm & r0 & Hr0 & Hring & Hmax). rewrite Hrings. split; [done|].
    destruct (swept_to _ _ Hr0) as (r' & Hr' & Er & Es & _). exists r'. split_and!; [done|congruence|].
    intros i2 r2 H2 Hring2. destruct (swept_at _ _ H2) as (r2' & H2' & R2 & S2 & _). rewrite Es, S2. eapply Hmax; [done|congruence].
  - intros ring i r' Hh Hr'. rewrite Hheads in Hh. destruct (swept_at _ _ Hr') as (r0 & Hr0 & -> & _). by eapply ok_headless.
  - intros ring Hh. rewrite Hheads in Hh. rewrite Hrings. by apply (ok_empty _ _ Hok).
  - intros i r' Hr'. destruct (swept_at _ _ Hr') as (r0 & Hr0 & -> & -> & _). rewrite Hnext. by apply (ok_release _ _ Hok).
  - intros i i' r1 r2 H1 H2. destruct (swept_at _ _ H1) as (r1' & Hr1 & -> & -> & _). destruct (swept_at _ _ H2) as (r2' & Hr2 & -> & -> & _).
    by eapply (ok_seq _ _ Hok).
  - intros i r' Hr'. destruct (swept_at _ _ Hr') as (r0 & Hr0 & -> & -> & -> & _). pose proof (ok_parent _ _ Hok _ _ Hr0) as Hp.
    destruct (rl_parent r0); [|done]. destruct Hp as (rp & Hrp & ? & ?). destruct (swept_to _ _ Hrp) as (rp' & Hrp' & E1 & E2 & _).
    exists rp'. by rewrite E1, E2.
  - intros i r' p x sp Hr' Hp Hx. apply Hdel in Hx. destruct (swept_at _ _ Hr') as (r0 & Hr0 & _ & _ & E & _). rewrite E in Hp. by eapply (ok_delta _ _ Hok).
  - intros i r' q rq' Hr' Hx Hq Ering Hcq. destruct (swept_at _ _ Hr') as (r0 & Hr0 & R1 & S1 & _).
    destruct (swept_at _ _ Hq) as (rq & Hrq & R2 & S2 & _ & C2). rewrite C2 in Hcq. apply andb_true_iff in Hcq as [Hc Hin].
    rewrite S1, S2. unfold swept in Hx. destruct (Hk i) as (_ & _ & _ & _ & _ & _ & Ex). rewrite Ex in Hx. destruct (existsb _ cs) eqn:E.
    + apply existsb_exists in E as ([ring c] & Hcin & Hat). unfold at_or_before in Hat. cbn in Hat. rewrite map_lookup_imap, Hr0 in Hat. cbn in Hat.
      assert (Hcore : rl_ring r0 = ring /\ rl_seq r0 <= c) by (by destruct (rl_checkpoint r0 && _); cbn in Hat; apply andb_true_iff in Hat as [E1%String.eqb_eq E2%Z.leb_le]).
      destruct Hcore as [<- Hle]. apply existsb_exists in Hin as (k & Hkin & Ek). apply Z.eqb_eq in Ek. subst k.
      assert (c <= rl_seq rq); [|lia]. eapply Habove; [done..|]. replace (rl_ring rq) with (rl_ring r0) by congruence. done.
    + eapply (ok_pruned _ _ Hok _ _ _ _ Hr0 Hx Hrq); [congruence|done].
  - intros i r' Hr' Hc. destruct (swept_at _ _ Hr') as (r0 & Hr0 & _ & _ & _ & C). rewrite C in Hc. apply andb_true_iff in Hc as [Hc Hin].
    rewrite swept_members, Hin. by eapply (ok_checkpoint _ _ Hok).
  - intros i x. rewrite swept_members. destruct (existsb _ kept) eqn:Hin; [|done]. intros Hx. apply (ok_plain _ _ Hok) in Hx as (r0 & Hr0 & Hc0).
    destruct (swept_to _ _ Hr0) as (r' & Hr' & _ & _ & _ & C). exists r'. by rewrite C, Hc0.
Qed.
End Swept.
Lemma same_gc vs d : same_rings d (fold_left gc_package vs d).
Proof.
  revert d. induction vs as [|v vs IH]; intros d; [reflexivity|]. cbn. etrans; [|apply IH]. unfold gc_package. by destruct (served _ _); split.
Qed.

(** *** A release made *)

Lemma seqs_In d ring s : In s (seqs_of d ring) <-> exists id r, releases d !! id = Some r /\ rl_ring r = ring /\ rl_seq r = s.
Proof.
  unfold seqs_of. rewrite in_map_iff. split.
  - intros ([id r] & <- & H). apply filter_In in H as [H1 H2]. apply list_elem_of_In, elem_of_map_to_list in H1. exists id, r.
    split_and!; try done. by apply String.eqb_eq in H2.
  - intros (id & r & Hr & Hring & <-). exists (id, r). split; [done|]. apply filter_In. split; [by apply list_elem_of_In, elem_of_map_to_list|].
    by apply String.eqb_eq.
Qed.
Lemma last_seq_ge d id r : releases d !! id = Some r -> rl_seq r <= last_seq d (rl_ring r).
Proof. intros H. apply (proj1 (max_spec _)), seqs_In. eauto. Qed.
Lemma last_seq_pos d ring : 0 <= last_seq d ring.
Proof. unfold last_seq. induction (seqs_of d ring); cbn; lia. Qed.
Lemma last_seq_head d m ring id r : rings_ok d m -> ring_heads d !! ring = Some id -> releases d !! id = Some r -> last_seq d ring = rl_seq r.
Proof.
  intros Hok Hh Hr. destruct (ok_head _ _ Hok _ _ Hh) as (_ & r' & Hr' & Hring & Hmax). assert (r' = r) as -> by congruence.
  pose proof (last_seq_ge _ _ _ Hr) as Hge. rewrite Hring in Hge. destruct (ok_release _ _ Hok _ _ Hr) as (_ & Hpos & _).
  destruct (proj2 (max_spec (seqs_of d ring))) as [H|H]; fold (last_seq d ring) in H; [lia|].
  apply seqs_In in H as (i & ri & Hi & Hri & E). specialize (Hmax _ _ Hi Hri). lia.
Qed.
Lemma last_seq_none d m ring : rings_ok d m -> ring_heads d !! ring = None -> last_seq d ring = 0.
Proof.
  intros Hok Hh. destruct (proj2 (max_spec (seqs_of d ring))) as [H|H]; fold (last_seq d ring) in H; [done|].
  apply seqs_In in H as (i & ri & Hi & Hri & _). by apply (ok_headless _ _ Hok _ _ _ Hh) in Hi.
Qed.

Section Batch.
Context (d : RDB) (m : gmap Z (gset Z)) (b : CreateRelease) (parent source : option (Z * Release)) (ck : bool) (base added : gset Z).
Context (Hok : rings_ok d m) (Hring : isRing (cr_ring b) = true) (Hparent : fst <$> parent = ring_heads d !! cr_ring b).
Let id := next_release d.
Let ring := cr_ring b.
Let seq := last_seq d ring + 1.
Definition batch : RDB := release_batch b parent source seq ck base added d.
Let own := ringMembers d ring.
Let t := target d b base added.
Let now := (own ∖ (own ∖ t)) ∪ (t ∖ own).
Lemma batch_new : releases batch !! id = Some {| rl_ring := ring; rl_seq := seq; rl_parent := fst <$> parent; rl_source := fst <$> source; rl_note := cr_note b;
  rl_count := None; rl_bytes := None; rl_sources := None; rl_checkpoint := ck |}.
Proof. apply lookup_insert_eq. Qed.
Lemma batch_old i : i <> id -> releases batch !! i = releases d !! i.
Proof. intros H. apply lookup_insert_ne. done. Qed.
Lemma old_ne i r : releases d !! i = Some r -> i <> id.
Proof. intros H. apply (ok_release _ _ Hok) in H as (H & _). unfold id. lia. Qed.
Lemma batch_members ring' : ringMembers batch ring' = (if String.eqb ring' ring then now else ringMembers d ring').
Proof.
  unfold ringMembers, batch, release_batch. cbn [ring_packages]. destruct (String.eqb_spec ring' ring) as [->|Hne].
  - by rewrite lookup_insert_eq.
  - by rewrite lookup_insert_ne by done.
Qed.
Lemma batch_served : ringMembers batch ring = t.
Proof. rewrite batch_members, String.eqb_refl. unfold now. apply set_eq. intros x. destruct (decide (x ∈ own)), (decide (x ∈ t)); set_solver. Qed.
Lemma batch_ok : rings_ok batch (<[id := now]> m).
Proof.
  assert (Hm : forall i r, releases d !! i = Some r -> (<[id := now]> m) !! i = m !! i) by (intros i r H; apply lookup_insert_ne; by apply not_eq_sym, (old_ne _ _ H)).
  assert (Hin : forall i r, releases batch !! i = Some r -> i = id /\ rl_ring r = ring /\ rl_seq r = seq /\ rl_parent r = fst <$> parent /\ rl_checkpoint r = ck
    \/ i <> id /\ releases d !! i = Some r).
  { intros i r H. destruct (decide (i = id)) as [->|Hne]; [|right; split; [done|]; by rewrite batch_old in H].
    left. rewrite batch_new in H. by injection H as <-. }
  assert (Hlt : forall i r, releases d !! i = Some r -> rl_ring r = ring -> rl_seq r < seq)
    by (intros i r H Hr; apply last_seq_ge in H; rewrite Hr in H; unfold seq; lia).
  split.
  - intros ring' i. cbn. rewrite batch_members. destruct (String.eqb_spec ring' ring) as [->|Hne].
    + rewrite lookup_insert_eq. intros [= <-]. split; [apply lookup_insert_eq|]. eexists. split; [apply batch_new|]. split; [done|].
      intros i' r' H Hr. destruct (Hin _ _ H) as [(_ & _ & -> & _)|[_ H']]; cbn; [lia|]. specialize (Hlt _ _ H' Hr). lia.
    + rewrite lookup_insert_ne by done. intros Hh. destruct (ok_head _ _ Hok _ _ Hh) as (H1 & r & Hr & Hring' & Hmax).
      rewrite (Hm _ _ Hr). split; [done|]. exists r. rewrite batch_old by by eapply old_ne. split_and!; try done.
      intros i' r' H Hr'. destruct (Hin _ _ H) as [(_ & Ering & _)|[_ H']]; [congruence|]. by eapply Hmax.
  - intros ring' i r. cbn. destruct (String.eqb_spec ring' ring) as [->|Hne]; [by rewrite lookup_insert_eq|]. rewrite lookup_insert_ne by done.
    intros Hh H. destruct (Hin _ _ H) as [(_ & -> & _)|[_ H']]; [done|]. by eapply ok_headless.
  - intros ring'. cbn. rewrite batch_members. destruct (String.eqb_spec ring' ring) as [->|Hne]; [by rewrite lookup_insert_eq|].
    rewrite lookup_insert_ne by done. apply (ok_empty _ _ Hok).
  - intros i r H. cbn. destruct (Hin _ _ H) as [(-> & -> & -> & _)|[Hne H']].
    + split_and!; [unfold id; lia|unfold seq; pose proof (last_seq_pos d ring); lia|done|by rewrite lookup_insert_eq].
    + destruct (ok_release _ _ Hok _ _ H') as (? & ? & ? & ?). rewrite (Hm _ _ H'). split_and!; try done. lia.
  - intros i i' r r' H H' Er Es. destruct (Hin _ _ H) as [(-> & R1 & S1 & _)|[_ H1]], (Hin _ _ H') as [(-> & R2 & S2 & _)|[_ H2]]; try done.
    + pose proof (Hlt _ _ H2 ltac:(congruence)). lia.
    + pose proof (Hlt _ _ H1 ltac:(congruence)). lia.
    + by eapply (ok_seq _ _ Hok).
  - intros i r H. destruct (Hin _ _ H) as [(-> & -> & -> & -> & _)|[_ H']].
    + destruct parent as [[p rp]|]; cbn in Hparent |- *.
      * destruct (ok_head _ _ Hok _ _ (eq_sym Hparent)) as (_ & rh & Hrh & Hring' & _). exists rh. rewrite batch_old by by eapply old_ne.
        split_and!; try done. rewrite <- (last_seq_head _ _ _ _ _ Hok (eq_sym Hparent) Hrh). unfold seq. fold ring. lia.
      * pose proof (last_seq_none _ _ _ Hok (eq_sym Hparent)). unfold seq, ring. lia.
    + pose proof (ok_parent _ _ Hok _ _ H') as Hp. destruct (rl_parent r); [|done]. destruct Hp as (rp & Hrp & ? & ?). exists rp.
      by rewrite batch_old by by eapply old_ne.
  - intros i r p x sp H Hp Hx Hsp. cbn in Hx. destruct (Hin _ _ H) as [(-> & _ & _ & Ep & _)|[Hne H']].
    + rewrite lookup_insert_eq in Hx. injection Hx as <-. rewrite lookup_insert_eq. rewrite Ep in Hp.
      rewrite Hp in Hparent. destruct (ok_head _ _ Hok _ _ (eq_sym Hparent)) as (Hmp & rh & Hrh & _). rewrite (Hm _ _ Hrh), Hmp in Hsp.
      injection Hsp as <-. split; [done|]. split; cbn; fold own t; set_solver.
    + rewrite lookup_insert_ne in Hx by done. rewrite (Hm _ _ H'). pose proof (ok_parent _ _ Hok _ _ H') as Hpp. rewrite Hp in Hpp.
      destruct Hpp as (rp & Hrp & _). rewrite (Hm _ _ Hrp) in Hsp. by eapply (ok_delta _ _ Hok).
  - intros i r q rq H Hx Hq Er Hc. cbn in Hx. destruct (Hin _ _ H) as [(-> & _)|[Hne H']]; [by rewrite lookup_insert_eq in Hx|].
    rewrite lookup_insert_ne in Hx by done. destruct (Hin _ _ Hq) as [(-> & R2 & S2 & _)|[_ Hq']].
    + pose proof (Hlt _ _ H' ltac:(congruence)). lia.
    + by eapply (ok_pruned _ _ Hok).
  - intros i r H Hc. unfold batch, release_batch. cbn [release_packages]. fold id. destruct (Hin _ _ H) as [(-> & _ & _ & _ & E)|[Hne H']].
    + rewrite E in Hc. rewrite Hc, !lookup_insert_eq. done.
    + rewrite (Hm _ _ H'), <- (ok_checkpoint _ _ Hok _ _ H' Hc). destruct ck; [|done]. by rewrite lookup_insert_ne.
  - intros i x. unfold batch at 1, release_batch at 1. cbn [release_packages]. fold id. intros Hx. destruct (decide (i = id)) as [->|Hne].
    + destruct ck eqn:E; [eexists; split; [apply batch_new|done]|]. apply (ok_plain _ _ Hok) in Hx as (r & Hr & _). by apply old_ne in Hr.
    + rewrite batch_old by done. apply (ok_plain _ _ Hok _ x). destruct ck; [|done]. by rewrite lookup_insert_ne in Hx.
Qed.
Lemma batch_head : head_ring batch id <> None.
Proof.
  unfold head_ring. intros H. eapply find_none in H; [|by apply str_in_In in Hring]. cbn in H. rewrite lookup_insert_eq in H.
  unfold id in H. cbn in H. by rewrite Z.eqb_refl in H.
Qed.
End Batch.

(** *** What a request read is still there *)

Definition born (r : Release) : string * Z * option Z := (rl_ring r, rl_seq r, rl_parent r).
Definition grows (d d' : RDB) : Prop :=
  forall id r, releases d !! id = Some r -> exists r', releases d' !! id = Some r' /\ born r' = born r.
#[export] Instance grows_po : PreOrder grows.
Proof.
  split; [by intros d id r H; exists r|]. intros d1 d2 d3 H12 H23 id r H. destruct (H12 _ _ H) as (r2 & H2 & E2).
  destruct (H23 _ _ H2) as (r3 & H3 & E3). exists r3. split; [done|]. congruence.
Qed.
Lemma grows_kept d d' : same_rings d d' -> grows d d'.
Proof.
  intros H id r Hr. destruct (same_rings_forth _ _ _ _ H Hr) as (r' & Hr' & [= E1 E2 E3 _]). exists r'. split; [done|]. unfold born. congruence.
Qed.
Lemma grows_ensure d id d' : ensureCheckpoint d id = Some d' -> grows d d' /\ ring_heads d' = ring_heads d.
Proof.
  unfold ensureCheckpoint. destruct (releases d !! id) as [r|] eqn:Er; [|done]. destruct (rl_checkpoint r); [by intros [= <-]|].
  destruct (rebuilt d id) as [s|]; [|done]. cbn [mbind option_bind]. destruct (bool_decide _); [|done]. intros [= <-]. split; [|done].
  intros i ri Hi. destruct (written_to d id s i ri Hi) as (r' & Hr' & E1 & E2 & E3 & _). exists r'. split; [done|]. unfold born. congruence.
Qed.
Lemma contiguous d m : rings_ok d m -> forall n id r, releases d !! id = Some r -> rl_seq r = Z.of_nat n -> forall s, 1 <= s <= rl_seq r -> In s (seqs_of d (rl_ring r)).
Proof.
  intros Hok. induction n as [|n IH]; intros id r Hr En s Hs; [lia|]. destruct (decide (s = rl_seq r)) as [->|Hne].
  - apply seqs_In. by exists id, r.
  - pose proof (ok_parent _ _ Hok _ _ Hr) as Hp. destruct (rl_parent r); [|lia]. destruct Hp as (rp & Hrp & <- & Es).
    eapply IH; [done|lia|lia].
Qed.
Lemma grows_last d d' ring m : rings_ok d m -> grows d d' -> last_seq d ring <= last_seq d' ring.
Proof.
  intros Hok Hg. destruct (proj2 (max_spec (seqs_of d ring))) as [H|H]; fold (last_seq d ring) in H.
  - rewrite H. apply last_seq_pos.
  - apply seqs_In in H as (id & r & Hr & <- & <-). destruct (Hg _ _ Hr) as (r' & Hr' & [= E1 E2 _]). rewrite <- E1, <- E2. by eapply last_seq_ge.
Qed.
(** The unique (ring, seq): a number read before another release took it is refused. *)
Lemma number_is_next later d ring m0 m : rings_ok later m0 -> rings_ok d m -> grows later d ->
  seq_taken d ring (last_seq later ring + 1) = false -> last_seq later ring = last_seq d ring /\ ring_heads later !! ring = ring_heads d !! ring.
Proof.
  intros Hl Hd Hg Ht. pose proof (grows_last _ _ ring _ Hl Hg) as Hle. pose proof (last_seq_pos later ring).
  assert (E : last_seq later ring = last_seq d ring).
  { destruct (Z.eq_dec (last_seq later ring) (last_seq d ring)) as [|Hne]; [done|exfalso].
    destruct (proj2 (max_spec (seqs_of d ring))) as [H0|H0]; fold (last_seq d ring) in H0; [lia|].
    apply seqs_In in H0 as (id & r & Hr & <- & Es). apply eq_true_false_abs with (2 := Ht), existsb_exists. eexists. split; [|apply Z.eqb_refl].
    eapply (contiguous _ _ Hd (Z.to_nat (rl_seq r))); [done|lia|lia]. }
  split; [done|]. destruct (ring_heads later !! ring) as [i|] eqn:Ei, (ring_heads d !! ring) as [j|] eqn:Ej; [| | |done].
  - destruct (ok_head _ _ Hl _ _ Ei) as (_ & ri & Hri & Hring & _). destruct (ok_head _ _ Hd _ _ Ej) as (_ & rj & Hrj & Hringj & _).
    rewrite (last_seq_head _ _ _ _ _ Hl Ei Hri), (last_seq_head _ _ _ _ _ Hd Ej Hrj) in E. destruct (Hg _ _ Hri) as (r' & Hr' & [= E1 E2 _]).
    f_equal. eapply (ok_seq _ _ Hd _ _ _ _ Hr' Hrj); congruence.
  - destruct (ok_head _ _ Hl _ _ Ei) as (_ & ri & Hri & Hring & _). rewrite (last_seq_head _ _ _ _ _ Hl Ei Hri), (last_seq_none _ _ _ Hd Ej) in E.
    destruct (ok_release _ _ Hl _ _ Hri) as (_ & ? & _). lia.
  - destruct (ok_head _ _ Hd _ _ Ej) as (_ & rj & Hrj & Hringj & _). rewrite (last_seq_head _ _ _ _ _ Hd Ej Hrj), (last_seq_none _ _ _ Hl Ei) in E.
    destruct (ok_release _ _ Hd _ _ Hrj) as (_ & ? & _). lia.
Qed.
Lemma ringHead_id d m ring : rings_ok d m -> fst <$> ringHead d ring = ring_heads d !! ring.
Proof.
  intros Hok. unfold ringHead. destruct (ring_heads d !! ring) as [id|] eqn:Eh; [|done]. cbn.
  by destruct (ok_head _ _ Hok _ _ Eh) as (_ & r & -> & _).
Qed.
Lemma summarise_same d id : head_ring d id <> None -> same_rings d (summarise id d).
Proof.
  intros H. unfold summarise, releaseMembers. destruct (head_ring d id); [|done]. split; try done. intros i. cbn.
  destruct (decide (i = id)) as [->|Hne]; [|by rewrite lookup_alter_ne].
  rewrite lookup_alter_eq. by destruct (releases d !! id).
Qed.

(** ** Every step keeps it *)

Definition made_by (b : CreateRelease) (out : Out) (d : RDB) (m : gmap Z (gset Z)) : gmap Z (gset Z) :=
  match out with Made id _ => <[id := ringMembers d (cr_ring b)]> m | _ => m end.
Lemma finish_ok b parent source ck base added d m : rings_ok d m -> isRing (cr_ring b) = true -> fst <$> parent = ring_heads d !! cr_ring b ->
  let d' := summarise (next_release d) (batch d b parent source ck base added) in
  rings_ok d' (<[next_release d := ringMembers d' (cr_ring b)]> m) /\ grows d d'.
Proof.
  intros Hok Hring Hp d'. set (bt := batch d b parent source ck base added).
  assert (Hs : same_rings bt d') by (apply summarise_same; by apply batch_head).
  pose proof (batch_ok d m b parent source ck base added Hok Hring Hp) as Hb. split.
  - apply (ok_same _ _ _ Hs). replace (ringMembers d' (cr_ring b)) with (ringMembers bt (cr_ring b)) by (unfold ringMembers; by rewrite (sr_rings _ _ Hs)).
    unfold bt. rewrite batch_members, String.eqb_refl. exact Hb.
  - etrans; [|by apply grows_kept]. intros i r Hr. exists r. unfold bt; rewrite batch_old; [done|]. by eapply old_ne.
Qed.
Lemma based_ok d m o d1 : rings_ok d m -> o = Some d \/ (exists i, o = ensureCheckpoint d i) -> o = Some d1 -> rings_ok d1 m /\ grows d d1.
Proof.
  intros Hd [->|[i ->]]; [by intros [= <-]|]. intros He. split; [by apply (ensure_ok _ _ _ _ Hd He)|by apply (grows_ensure _ _ _ He)].
Qed.
Lemma make_ok later d m m0 b parent source added d' out : rings_ok d m -> rings_ok later m0 -> grows later d -> isRing (cr_ring b) = true ->
  fst <$> parent = ring_heads later !! cr_ring b -> make_release b parent source added later d = (d', out) ->
  rings_ok d' (made_by b out d' m) /\ grows d d'.
Proof.
  intros Hd Hl Hg Hring Hp. unfold make_release. cbv zeta.
  set (as_head := if match source with Some _ => _ | None => false end then _ else None).
  set (got := match source with Some _ => _ | None => Some d end). intros H.
  assert (Hgot : got = Some d \/ exists i, got = ensureCheckpoint d i) by (unfold got; destruct source; [|by left]; repeat case_match; eauto).
  destruct got as [d1|]; [|by injection H as <- <-]. destruct (based_ok _ _ _ _ Hd Hgot eq_refl) as (Hd1 & Hg1).
  destruct (seq_taken _ _ _) eqn:Et in H; [injection H as <- <-; done|].
  assert (Hgl : grows later d1) by (by etrans). destruct (number_is_next _ _ _ _ _ Hl Hd1 Hgl Et) as [Es Ehl]. rewrite Es in H.
  injection H as <- <-. rewrite Ehl in Hp. cbn [made_by]. destruct (finish_ok b parent source
    (match parent with None => true | Some _ => CHECKPOINT_EVERY <=? last_seq d1 (cr_ring b) + 1 - last_checkpoint later (cr_ring b) end)
    (base_set d1 (cr_ring b) parent source as_head (cr_arch b)) added d1 m Hd1 Hring Hp) as [H1 H2].
  split; [exact H1|]. by etrans.
Qed.
Definition hist_ok (past : list RDB) (w : World) : Prop :=
  forall p, In p past -> (exists m, rings_ok p m) /\ grows p (db w).
Lemma step_ok past w o : rings_ok (db w) (made w) -> hist_ok past w -> reads_from past o -> numbered_together o ->
  rings_ok (db (wstep o w)) (made (wstep o w)) /\ grows (db w) (db (wstep o w)).
Proof.
  intros Hok Hh Hreads Hn. unfold wstep. destruct o as [row|b read later|id|keep limit grace now read|signing id kind repo arch size sig|id arch read];
    cbn [rstep reads_from numbered_together] in *.
  - assert (Hs : same_rings (db w) (index_package row (db w))) by by split. cbn [db made]. split; [by eapply ok_same|by apply grows_kept].
  - destruct (handleCreateRelease b read later (db w)) as [d out] eqn:E. cbn [db made]. destruct Hreads as [Hr Hl].
    destruct (Hh _ Hr) as [[mr Hmr] _], (Hh _ Hl) as [[ml Hml] Hgl]. unfold handleCreateRelease in E.
    destruct (isRing (cr_ring b)) eqn:Hring; [|by injection E as <- <-]. cbn [negb] in E. destruct (base_source b read) as [s|source]; [by injection E as <- <-|].
    destruct (match cr_remove_arch b with Some _ => _ | None => _ end); [by injection E as <- <-|]. destruct (not_indexed later b); [by injection E as <- <-|].
    destruct (match cr_arch b with Some _ => _ | None => _ end); [by injection E as <- <-|].
    eapply make_ok in E; [|done..|]; [by destruct out|]. by rewrite (ringHead_id _ _ _ Hmr).
  - destruct (releaseMembers (db w) id) as [[s d']|] eqn:E; cbn [db made]; [|done]. destruct (members_ok _ _ _ _ _ Hok E) as [H1 _]. split; [done|].
    unfold releaseMembers in E. destruct (head_ring _ _); [by injection E as _ <-|]. destruct (ensureCheckpoint _ _) as [d1|] eqn:E1; [|done].
    injection E as _ <-. by apply grows_ensure in E1 as [].
  - cbn [db made]. destruct (Hh _ Hreads) as [[mr Hmr] Hgr]. unfold handleGc. cbv zeta. set (x := retention read _). set (d1 := fold_left gc_deltas _ _).
    assert (H1 : rings_ok d1 (made w)).
    { apply swept_ok; [done|]. intros k r c Hk Hr Hc. assert (exists rk, releases read !! k = Some rk) as [rk Hrk] by by eapply kept_is.
      destruct (Hgr _ _ Hrk) as (r' & Hr' & [= E1 E2 _]). assert (r' = r) as -> by congruence. rewrite E2. eapply kept_above; [done|done|]. by rewrite <- E1. }
    pose proof (same_gc (take (Nat.min limit 500) (unreferenced read x (Z.max 0 grace) now)) d1) as Hs. split; [by eapply ok_same|].
    etrans; [|by apply grows_kept]. intros i r Hr. destruct (swept_to (db w) (keptCheckpoints x) (checkpointSeq x) _ _ Hr) as (r' & Hr' & E1 & E2 & E3 & _).
    exists r'. split; [done|]. unfold born. congruence.
  - cbn [db made]. assert (Hs : same_rings (db w) (handlePutArtifact signing id kind repo arch size sig (db w)).1) by (unfold handlePutArtifact, put_kind; cases).
    split; [by eapply ok_same|by apply grows_kept].
  - cbn [db made]. assert (Hs : same_rings (db w) (handleRendered id arch read (db w)).1) by (unfold handleRendered; cases).
    split; [by eapply ok_same|by apply grows_kept].
Qed.
Lemma run_ok past w : rings_run past w -> rings_ok (db w) (made w) /\ In (db w) past /\ hist_ok past w.
Proof.
  induction 1 as [|past w o Hrun (Hok & Hin & Hh) Hr Hn].
  - split; [apply start_ok|]. split; [by left|]. intros p [<-|[]]. split; [by exists ∅; apply start_ok|done].
  - destruct (step_ok _ _ _ Hok Hh Hr Hn) as [H1 H2]. split; [done|]. split; [by left|]. intros p [<-|Hp]; [by split; [eexists|]|].
    destruct (Hh _ Hp) as [? ?]. split; [done|]. by etrans.
Qed.


(** ** A concrete pool *)

Definition a_row (sha name arch : string) : PRow :=
  {| p_sha256 := sha; p_name := name; p_arch := arch; p_source := "factory"; p_version := "1-1"; p_filename := name +:+ "-1-1-" +:+ arch +:+ ".pkg.tar.zst";
     p_bytes := 1000; p_created_at := 0; p_r2_key := None; p_released := false |}.
Definition adding (ring : string) (l : list string) : CreateRelease :=
  {| cr_ring := ring; cr_from_ring := None; cr_from_release := None; cr_add := l; cr_remove := []; cr_remove_from := []; cr_remove_arch := None;
     cr_arch := None; cr_note := None |}.
Definition dropping (ring : string) (l : list string) : CreateRelease :=
  {| cr_ring := ring; cr_from_ring := None; cr_from_release := None; cr_add := []; cr_remove := l; cr_remove_from := []; cr_remove_arch := None;
     cr_arch := None; cr_note := None |}.
Definition promoting (from ring : string) : CreateRelease :=
  {| cr_ring := ring; cr_from_ring := Some from; cr_from_release := None; cr_add := []; cr_remove := []; cr_remove_from := [];
     cr_remove_arch := None; cr_arch := None; cr_note := None |}.
Definition world0 : World := {| db := no_release; made := ∅ |}.
Definition alone (f : RDB -> ROp) (w : World) : World := wstep (f (db w)) w.
Definition runs (l : list (RDB -> ROp)) (w : World) : World := fold_left (fun w f => alone f w) l w.
Definition create (b : CreateRelease) (d : RDB) : ROp := OpCreate b d d.
Definition three_packages : list (RDB -> ROp) :=
  [fun _ => OpIndex (a_row "aa" "felix" "x86_64"); fun _ => OpIndex (a_row "bb" "otto" "x86_64"); fun _ => OpIndex (a_row "cc" "felix" "aarch64")].
(** Requests that each read the state they write on. *)
Definition reads_now (f : RDB -> ROp) : Prop := forall past w, In (db w) past -> reads_from past (f (db w)) /\ numbered_together (f (db w)).
Lemma runs_run l w past : Forall reads_now l -> rings_run past w -> In (db w) past -> exists past', rings_run past' (runs l w) /\ In (db (runs l w)) past'.
Proof.
  intros Hl. revert w past. induction Hl as [|f l Hf Hl IH]; intros w past Hr Hin; [by exists past|]. cbn.
  destruct (Hf past w Hin) as [H1 H2]. eapply IH; [by apply (run_step past w (f (db w)))|by left].
Qed.

Definition w_edge : World := runs (three_packages ++ [create (adding "edge" ["aa"])]) world0.
Definition w_more : World := runs [create (adding "edge" ["bb"]); create (promoting "edge" "rc"); create (adding "edge" ["cc"])] w_edge.
Lemma w_more_runs : exists past, rings_run past w_more.
Proof.
  destruct (runs_run ((three_packages ++ [create (adding "edge" ["aa"])]) ++ [create (adding "edge" ["bb"]); create (promoting "edge" "rc"); create (adding "edge" ["cc"])])
             world0 [no_release]) as (past & H & _); [repeat constructor; done|constructor|by left|].
  exists past. unfold runs in H. rewrite fold_left_app in H. exact H.
Qed.

(** The head read before the number: a release that went between leaves the new one a parent its delta was not taken from, and
    it is read back without what that release had added. *)
Definition w_stale : World :=
  let w1 := w_edge in
  let w2 := alone (create (adding "edge" ["bb"])) w1 in
  let w3 := wstep (OpCreate (adding "edge" ["cc"]) (db w1) (db w2)) w2 in
  alone (create (adding "edge" [])) w3.
Example stale_parent_misreads :
  (elements <$> made w_stale !! 3, elements ∘ fst <$> releaseMembers (db w_stale) 3) = (Some [3; 2; 1], Some [3; 1]).
Proof. vm_compute. reflexivity. Qed.
