(* ===== verification/PullFacts.v ===== *)
(** A package taken out of every ring leaves every ring, and takes nothing with it (Rings.v, pullFromRings). *)
From S2P Require Import Prelude JsTime Targets Rings RingsFacts.
Local Open Scope string_scope.
Local Open Scope Z_scope.

Definition built_here (name : string) (p : PRow) : bool := String.eqb (p_name p) name && String.eqb (p_source p) "factory".
(** A ring's indexed rows are the ones it had, less the factory's builds of the package. *)
Definition less (name : string) (d : RDB) (s s' : gset Z) : Prop :=
  forall id p, packages d !! id = Some p -> (id ∈ s' <-> id ∈ s /\ built_here name p = false).
Lemma of_arch_In d s f id p : packages d !! id = Some p -> (id ∈ of_arch d s f <-> id ∈ s /\ f p = true).
Proof.
  intros Hp. unfold of_arch, joined. rewrite elem_of_dom. split.
  - intros [q [[Hq Hs]%map_lookup_filter_Some Hf]%map_lookup_filter_Some]. cbn in *. assert (q = p) as -> by congruence. split; [done|]. by destruct (f p).
  - intros [Hs Hf]. exists p. apply map_lookup_filter_Some. split; [apply map_lookup_filter_Some; done|]. cbn. by rewrite Hf.
Qed.
Lemma released_none (m : gmap Z PRow) : released ∅ m = m.
Proof. apply map_eq. intros i. unfold released. rewrite map_lookup_imap. by destruct (m !! i). Qed.
Lemma summarise_packages id d : head_ring d id <> None -> packages (summarise id d) = packages d.
Proof. intros H. unfold summarise, releaseMembers. by destruct (head_ring d id). Qed.
(** One ring's release without the package: made, on the head, of what the ring has left. *)
Lemma without_made d m ring name note : rings_ok d m -> isRing ring = true ->
  let r := handleCreateRelease (without ring name note) d d d in
  rings_ok r.1 (<[next_release d := ringMembers r.1 ring]> m) /\ r.2 = Made (next_release d) (unchanged_of (without ring name note) (ringHead d ring) None ∅)
  /\ packages r.1 = packages d /\ (forall ring', ring' <> ring -> ringMembers r.1 ring' = ringMembers d ring') /\ less name d (ringMembers d ring) (ringMembers r.1 ring).
Proof.
  intros Hok Hring. set (b := without ring name note). unfold handleCreateRelease. change (cr_ring b) with ring. rewrite Hring.
  change (base_source b d) with (inr None : Z + option (Z * Release)). change (added_rows d b) with (∅ : gset Z). cbn [negb cr_remove_arch without b not_indexed cr_add existsb cr_arch].
  unfold make_release. cbv zeta. change (cr_ring b) with ring.
  assert (Hseq : seq_taken d ring (last_seq d ring + 1) = false).
  { apply not_true_is_false. intros (s & Hs & E)%existsb_exists. apply Z.eqb_eq in E. apply (proj1 (max_spec _)) in Hs. unfold last_seq in E. lia. }
  rewrite Hseq. set (ck := match ringHead d ring with None => true | Some _ => _ end). set (base := base_set d ring _ _ _ _).
  change (release_batch b (ringHead d ring) None (last_seq d ring + 1) ck base ∅ d) with (batch d b (ringHead d ring) None ck base ∅).
  assert (Hp : fst <$> ringHead d ring = ring_heads d !! ring) by (by eapply ringHead_id).
  destruct (finish_ok b (ringHead d ring) None ck base ∅ d m Hok Hring Hp) as [Hok' _]. cbn [fst snd]. set (d' := summarise _ _) in *.
  assert (Hh : head_ring (batch d b (ringHead d ring) None ck base ∅) (next_release d) <> None) by (by apply batch_head).
  assert (Hs : same_rings (batch d b (ringHead d ring) None ck base ∅) d') by exact (summarise_same _ _ Hh). assert (Hm : forall r, ringMembers d' r = ringMembers (batch d b (ringHead d ring) None ck base ∅) r) by (intros r; unfold ringMembers; by rewrite (sr_rings _ _ Hs)).
  split; [exact Hok'|]. split; [done|]. split; [|split].
  - unfold d'. rewrite summarise_packages by done. apply released_none.
  - intros ring' Hne. rewrite Hm, batch_members. change (cr_ring b) with ring. by rewrite (proj2 (String.eqb_neq ring' ring) Hne).
  - intros id p Hid. rewrite Hm. change ring with (cr_ring b) at 1. rewrite (batch_served d m b (ringHead d ring) None ck base ∅ Hok Hring Hp). unfold target. rewrite union_empty_r_L, (of_arch_In _ _ _ _ _ Hid).
    assert (Hb : id ∈ base <-> id ∈ ringMembers d ring).
    { unfold base, base_set. destruct (ringHead d ring) eqn:E; [done|]. cbn in Hp. rewrite (ok_empty _ _ Hok ring); done. }
    rewrite Hb. assert (Hr : replaced d ∅ p = false).
    { unfold replaced. apply not_true_is_false. intros ([i q] & Hin & _)%existsb_exists. apply list_elem_of_In, elem_of_map_to_list, map_lookup_filter_Some in Hin as [_ Hin]. set_solver. }
    rewrite Hr. unfold dropped, built_here. cbn [cr_remove cr_remove_from cr_remove_arch b without str_in existsb arch_is fst snd negb orb andb]. rewrite andb_true_r, orb_false_r, andb_true_r.
    rewrite negb_true_iff, (String.eqb_sym name), (String.eqb_sym "factory"), andb_comm. done.
Qed.
(** Every ring the package is in, one release each. *)
Lemma pull_rings name note l : forall d m out, rings_ok d m -> (forall r, In r l -> isRing r = true) -> NoDup l ->
  let r := fold_left (pull_ring name note) l (d, out) in
  (exists m', rings_ok r.1 m') /\ packages r.1 = packages d /\ (forall ring, ~ In ring l -> ringMembers r.1 ring = ringMembers d ring)
  /\ (forall ring, In ring l -> less name d (ringMembers d ring) (ringMembers r.1 ring)).
Proof.
  induction l as [|x l IH]; intros d m out Hok Hl Hn; [split; [by exists m|done]|]. cbn [fold_left]. apply NoDup_cons in Hn as [Hx Hn].
  destruct (without_made d m x name note Hok (Hl _ (or_introl eq_refl))) as (H1 & _ & H2 & H3 & H4). cbv zeta in H1, H2, H3, H4.
  unfold pull_ring at 2 4 6 8. cbn [fst snd]. destruct (handleCreateRelease (without x name note) d d d) as [d1 o1]. cbn [fst snd] in *.
  destruct (IH d1 _ (out ++ [(x, match o1 with Made id _ => Some id | _ => None end)])%list H1 (fun r Hr => Hl r (or_intror Hr)) Hn) as (I1 & I2 & I3 & I4). cbv zeta in I1, I2, I3, I4.
  assert (Hnx : ~ In x l) by (intros H%list_elem_of_In; done). split; [done|]. split; [congruence|]. split.
  - intros ring Hr. rewrite I3 by (intros H; apply Hr; by right). apply H3. intros ->. apply Hr. by left.
  - intros ring [<-|Hr].
    + by rewrite I3.
    + specialize (I4 _ Hr). rewrite H3 in I4 by (intros ->; done). intros id p Hid. apply I4. by rewrite H2.
Qed.

Lemma pulled_less d m name note ring :
  rings_ok d m -> isRing ring = true -> let d' := (pullFromRings name note d).1 in
  (exists m', rings_ok d' m') /\ packages d' = packages d /\ less name d (ringMembers d ring) (ringMembers d' ring).
Proof.
  intros Hok Hring d'. assert (Hr : forall r, In r (rings_of d name) -> isRing r = true) by (intros r [H _]%filter_In; by apply str_in_In).
  assert (Hn : NoDup (rings_of d name)) by (apply NoDup_ListNoDup, List.NoDup_filter, NoDup_ListNoDup; repeat constructor; set_solver).
  destruct (pull_rings name note (rings_of d name) d m [] Hok Hr Hn) as (H1 & H2 & H3 & H4). cbv zeta in H1, H2, H3, H4. fold (pullFromRings name note d) in H1, H2, H3, H4. fold d' in H1, H2, H3, H4.
  split; [done|]. split; [done|]. destruct (str_in ring (rings_of d name)) eqn:Es; [by apply H4, str_in_In|]. assert (Hi : ~ In ring (rings_of d name)) by (intros Hi%str_in_In; congruence). intros id p Hid. rewrite (H3 _ Hi). split; [|tauto]. intros Hs. split; [done|]. apply not_true_is_false. intros Hb. apply Hi, filter_In. split; [by apply str_in_In|].
  apply existsb_exists. exists (id, p). split; [|exact Hb]. apply list_elem_of_In, elem_of_map_to_list, map_lookup_filter_Some. done.
Qed.

