(* ===== verification/RetentionFacts.v ===== *)
(** * What retention keeps: the newest releases of every ring read back whole

    Runs of requests that each read the state they write on, and whose sweeps keep at least [K] releases of a ring. *)
From S2P Require Import Prelude JsTime Targets Rings RingsFacts.
Local Open Scope string_scope.
Local Open Scope Z_scope.

(** ** A ring's releases in order *)

Section Ring.
Context (d : RDB) (m : gmap Z (gset Z)) (Hok : rings_ok d m) (ring : string).
Lemma of_ring_nodup : NoDup (of_ring d ring).
Proof. unfold of_ring. rewrite sort_by_perm. apply NoDup_ListNoDup, List.NoDup_filter, NoDup_ListNoDup, NoDup_map_to_list. Qed.
Definition later_than (x y : Z * Release) : Prop := rl_seq y.2 < rl_seq x.2.
Lemma strictly_newer l : StronglySorted (cmp_le newer_first) l -> NoDup l -> (forall p, In p l -> releases d !! p.1 = Some p.2 /\ rl_ring p.2 = ring) ->
  StronglySorted later_than l.
Proof.
  induction 1 as [|a l Hs IH Hf]; intros Hnd Hin; constructor; apply NoDup_cons in Hnd as [Hna Hnd].
  - apply IH; [done|]. intros p Hp. apply Hin. by right.
  - rewrite Forall_forall in *. intros x Hx. pose proof (Hf _ Hx) as Hle. unfold cmp_le, newer_first in Hle. unfold later_than.
    destruct (Z.eq_dec (rl_seq x.2) (rl_seq a.2)) as [E|]; [|lia]. exfalso. apply list_elem_of_In in Hx.
    destruct (Hin x) as [H1 R1]; [by right|]. destruct (Hin a) as [H2 R2]; [by left|].
    pose proof (ok_seq _ _ Hok _ _ _ _ H1 H2 ltac:(congruence) E) as Ei. destruct a as [i r], x as [i' r']. cbn in *. subst i'.
    rewrite H1 in H2. injection H2 as ->. apply Hna. by apply list_elem_of_In.
Qed.
Lemma of_ring_sorted : StronglySorted later_than (of_ring d ring).
Proof. apply strictly_newer; [exact (sort_by_sorted newer_first _)|apply of_ring_nodup|]. intros p. apply of_ring_In. Qed.
Lemma nth_newest l n i x : StronglySorted later_than l -> (forall p, In p l -> rl_seq p.2 <= n) -> l !! i = Some x -> rl_seq x.2 <= n - Z.of_nat i.
Proof.
  intros Hs. revert n i. induction Hs as [|a l Hs IH Hf]; intros n i Hn Hi; [done|]. destruct i as [|i].
  - injection Hi as ->. specialize (Hn x (or_introl eq_refl)). lia.
  - cbn in Hi. assert (Ha : forall p, In p l -> rl_seq p.2 <= n - 1).
    { intros p Hp. rewrite Forall_forall in Hf. apply list_elem_of_In in Hp. specialize (Hf _ Hp). specialize (Hn a (or_introl eq_refl)). unfold later_than in Hf. lia. }
    specialize (IH (n - 1) i Ha Hi). lia.
Qed.
(** The [keep] newest are those numbered above the last less [keep]. *)
Lemma newest_taken n keep id r : (forall i r', releases d !! i = Some r' -> rl_ring r' = ring -> rl_seq r' <= n) ->
  releases d !! id = Some r -> rl_ring r = ring -> n - Z.of_nat keep < rl_seq r -> In (id, r) (take keep (of_ring d ring)).
Proof.
  intros Hn Hr Hring Hlt. assert (Hin : (id, r) ∈ of_ring d ring) by (by apply list_elem_of_In, of_ring_In).
  apply list_elem_of_lookup in Hin as [i Hi]. assert (Hle : rl_seq r <= n - Z.of_nat i).
  { eapply (nth_newest _ n i (id, r) of_ring_sorted); [|done]. intros p Hp. apply of_ring_In in Hp as [H1 H2]. by eapply Hn. }
  apply list_elem_of_In, elem_of_take. exists i. split; [done|lia].
Qed.
Lemma after_take l k o p : StronglySorted later_than l -> last (take k l) = Some o -> In p l -> rl_seq o.2 <= rl_seq p.2 -> In p (take k l).
Proof.
  intros Hs. revert k. induction Hs as [|a l Hs IH Hf]; intros [|k]; cbn [take]; try done. intros Hl Hp Ho.
  destruct Hp as [->|Hp]; [by left|right]. destruct (take k l) as [|h t] eqn:Et.
  - injection Hl as <-. rewrite Forall_forall in Hf. apply list_elem_of_In in Hp. specialize (Hf _ Hp). unfold later_than in Hf. lia.
  - cbn in Hl. specialize (IH k). rewrite Et in IH. by apply IH.
Qed.
(** Whatever is as new as the oldest protected is protected. *)
Lemma protected_closed keep o p : last (protected_of d keep ring) = Some o -> In p (of_ring d ring) -> rl_seq o.2 <= rl_seq p.2 -> In p (protected_of d keep ring).
Proof.
  pose proof (fun o p => after_take _ keep o p of_ring_sorted) as Ht. unfold protected_of. cbv zeta.
  destruct (take keep (of_ring d ring)) as [|h t] eqn:Et; [done|]. destruct (last (h :: t)) as [o1|] eqn:El; [|by rewrite El].
  destruct (carriedSince d ring h) as [since|]; [|rewrite El; intros [= <-]; by apply Ht].
  destruct (since <? rl_seq o1.2) eqn:Es; [|rewrite El; intros [= <-]; by apply Ht].
  set (older := List.filter _ _). rewrite last_app. intros Hl Hp Ho. apply in_or_app. destruct (last older) as [o2|] eqn:E2.
  - injection Hl as <-. assert (Ho2 : In o2 older) by by apply list_elem_of_In, last_Some_elem_of.
    apply filter_In in Ho2 as [_ Ho2]. breflect. destruct (Z.le_gt_cases (rl_seq o1.2) (rl_seq p.2)); [left; by eapply Ht|].
    right. apply filter_In. split; [done|]. apply andb_true_iff. split; lia.
  - left. rewrite El in Hl. injection Hl as <-. by eapply Ht.
Qed.
Lemma find_newest l (f : Z * Release -> bool) b p : StronglySorted later_than l -> List.find f l = Some b -> In p l -> f p = true -> rl_seq p.2 <= rl_seq b.2.
Proof.
  induction 1 as [|a l Hs IH Hf]; [done|]. cbn. destruct (f a) eqn:E.
  - intros [= ->] [->|Hp] _; [lia|]. rewrite Forall_forall in Hf. apply list_elem_of_In in Hp. specialize (Hf _ Hp). unfold later_than in Hf. lia.
  - intros Hb [->|Hp] Hfp; [congruence|]. by apply IH.
Qed.
End Ring.

(** ** What a run of sweeps keeping [K] holds *)

Section Held.
Context (K : nat) (HK : (1 <= K)%nat).
(** [n] is the last number of [ring], [c] a checkpoint of it. *)
Definition flagged (d : RDB) (ring : string) (q : Z) (rq : Release) : Prop := releases d !! q = Some rq /\ rl_ring rq = ring /\ rl_checkpoint rq = true.
Record held (d : RDB) (m : gmap Z (gset Z)) : Prop := {
  held_gap id r q0 r0 : releases d !! id = Some r -> flagged d (rl_ring r) q0 r0 -> rl_seq r0 <= rl_seq r ->
    exists q rq, flagged d (rl_ring r) q rq /\ rl_seq rq <= rl_seq r < rl_seq rq + CHECKPOINT_EVERY;
  held_low ring id : ring_heads d !! ring = Some id ->
    exists q rq, flagged d ring q rq /\ rl_seq rq <= Z.max 1 (last_seq d ring - Z.of_nat K + 1);
  held_rows id r s : releases d !! id = Some r -> last_seq d (rl_ring r) - Z.of_nat K < rl_seq r -> m !! id = Some s -> s ⊆ dom (packages d) }.

Lemma release_head d m id r : rings_ok d m -> releases d !! id = Some r ->
  exists h rh, ring_heads d !! rl_ring r = Some h /\ releases d !! h = Some rh /\ rl_ring rh = rl_ring r /\ last_seq d (rl_ring r) = rl_seq rh
  /\ m !! h = Some (ringMembers d (rl_ring r)) /\ rl_seq r <= rl_seq rh.
Proof.
  intros Hok Hr. destruct (ring_heads d !! rl_ring r) as [h|] eqn:Eh; [|by apply (ok_headless _ _ Hok _ _ _ Eh) in Hr].
  destruct (ok_head _ _ Hok _ _ Eh) as (Hm & rh & Hrh & Hring & Hmax). exists h, rh. split_and!; try done; [by eapply last_seq_head|by eapply Hmax].
Qed.
Lemma low_below d m id r : rings_ok d m -> held d m -> releases d !! id = Some r -> last_seq d (rl_ring r) - Z.of_nat K < rl_seq r ->
  exists q rq, flagged d (rl_ring r) q rq /\ rl_seq rq <= rl_seq r.
Proof.
  intros Hok Hh Hr Hn. destruct (release_head _ _ _ _ Hok Hr) as (h & rh & Eh & _). destruct (held_low _ _ Hh _ _ Eh) as (q & rq & Hq & Hle).
  exists q, rq. split; [done|]. destruct (ok_release _ _ Hok _ _ Hr) as (_ & ? & _). lia.
Qed.
(** A checkpoint within reach is found. *)
Lemma chain_found d m n : rings_ok d m -> forall id r q rq, releases d !! id = Some r -> flagged d (rl_ring r) q rq ->
  rl_seq rq <= rl_seq r <= rl_seq rq + Z.of_nat n -> is_Some (chain_of n d id).
Proof.
  intros Hok. induction n as [|n IH]; intros id r q rq Hr (Hq & Hring & Hc) Hle; cbn [chain_of]; rewrite Hr.
  - assert (q = id) as -> by (eapply (ok_seq _ _ Hok); [done..|lia]). assert (rq = r) as -> by congruence. by rewrite Hc.
  - destruct (rl_checkpoint r) eqn:Ec; [done|]. pose proof (ok_parent _ _ Hok _ _ Hr) as Hp. destruct (rl_parent r) as [p|].
    + destruct Hp as (rp & Hrp & Er & Es). assert (rl_seq rq <> rl_seq r).
      { intros E. assert (q = id) as -> by (eapply (ok_seq _ _ Hok); [done..|lia]). congruence. }
      destruct (IH p rp q rq Hrp) as [c Ec']; [by rewrite Er|lia|]. by rewrite Ec'.
    + assert (q = id) as -> by (eapply (ok_seq _ _ Hok); [done..|]; destruct (ok_release _ _ Hok _ _ Hq) as (_ & ? & _); lia). congruence.
Qed.
Lemma newest_readable d m id r : rings_ok d m -> held d m -> releases d !! id = Some r -> last_seq d (rl_ring r) - Z.of_nat K < rl_seq r ->
  exists s d', releaseMembers d id = Some (s, d') /\ m !! id = Some s /\ s ⊆ dom (packages d).
Proof.
  intros Hok Hh Hr Hn. destruct (ok_release _ _ Hok _ _ Hr) as (_ & _ & _ & [s Hs]). pose proof (held_rows _ _ Hh _ _ _ Hr Hn Hs) as Hrows.
  assert (exists d', releaseMembers d id = Some (s, d')) as [d' E]; [|by exists s, d'].
  destruct (releaseMembers d id) as [[s' d']|] eqn:E; [|exfalso].
  { exists d'. destruct (members_ok _ _ _ _ _ Hok E) as [_ E']. congruence. }
  unfold releaseMembers in E. destruct (head_ring d id) eqn:Eh; [done|]. destruct (ensureCheckpoint d id) as [d1|] eqn:E1; [done|]. clear E.
  unfold ensureCheckpoint in E1. rewrite Hr in E1. destruct (rl_checkpoint r) eqn:Ec; [done|]. destruct (rebuilt d id) as [s'|] eqn:Es.
  - pose proof (rebuilt_ok _ _ _ _ _ Hok Hr Es) as Hs'. assert (s' = s) as -> by congruence. cbn in E1. by rewrite bool_decide_true in E1.
  - unfold rebuilt in Es. rewrite Eh in Es. destruct (low_below _ _ _ _ Hok Hh Hr Hn) as (q0 & r0 & Hq0 & Hle0).
    destruct (held_gap _ _ Hh _ _ _ _ Hr Hq0 Hle0) as (q & rq & Hq & Hle).
    assert (is_Some (chain_of (pred CHAIN_MAX) d id)) as [c Hc]; [|by rewrite Hc in Es].
    eapply chain_found; [done..|]. unfold CHECKPOINT_EVERY in Hle. change (pred CHAIN_MAX) with 95%nat. lia.
Qed.

(** *** The same releases, with more of them written out *)

Definition same_born (d d' : RDB) : Prop := forall id, born <$> releases d' !! id = born <$> releases d !! id.
Lemma born_back d d' id r' : same_born d d' -> releases d' !! id = Some r' -> exists r, releases d !! id = Some r /\ born r' = born r.
Proof. intros H Hr. pose proof (H id) as E. rewrite Hr in E. destruct (releases d !! id) as [r|]; [|done]. exists r. split; [done|]. cbn in E. congruence. Qed.
Lemma born_forth d d' id r : same_born d d' -> releases d !! id = Some r -> exists r', releases d' !! id = Some r' /\ born r' = born r.
Proof. intros H Hr. pose proof (H id) as E. rewrite Hr in E. destruct (releases d' !! id) as [r'|]; [|done]. exists r'. split; [done|]. cbn in E. congruence. Qed.
Lemma last_seq_born d d' ring : same_born d d' -> last_seq d' ring = last_seq d ring.
Proof.
  intros H. apply Z.le_antisymm; unfold last_seq at 1.
  - destruct (proj2 (max_spec (seqs_of d' ring))) as [->|Hin]; [apply last_seq_pos|]. apply seqs_In in Hin as (id & r' & Hr' & <- & <-).
    destruct (born_back _ _ _ _ H Hr') as (r & Hr & [= -> -> _]). by eapply last_seq_ge.
  - destruct (proj2 (max_spec (seqs_of d ring))) as [->|Hin]; [apply last_seq_pos|]. apply seqs_In in Hin as (id & r & Hr & <- & <-).
    destruct (born_forth _ _ _ _ H Hr) as (r' & Hr' & [= E1 E2 _]). rewrite <- E1, <- E2. by eapply last_seq_ge.
Qed.
Lemma held_more d d' m : same_born d d' -> ring_heads d' = ring_heads d -> dom (packages d) ⊆ dom (packages d') ->
  (forall ring q rq, flagged d ring q rq -> exists rq', flagged d' ring q rq' /\ rl_seq rq' = rl_seq rq) ->
  (forall id r q0 r0, releases d !! id = Some r -> flagged d' (rl_ring r) q0 r0 -> rl_seq r0 <= rl_seq r ->
     (exists q rq, flagged d (rl_ring r) q rq /\ rl_seq rq <= rl_seq r) \/ rl_seq r0 = rl_seq r) ->
  held d m -> held d' m.
Proof.
  intros Hb Eh Hp Hf Hnew Hh. split.
  - intros id r' q0 r0 Hr' Hq0 Hle. destruct (born_back _ _ _ _ Hb Hr') as (r & Hr & [= Er Es _]). rewrite Er in Hq0 |- *. rewrite Es in Hle |- *.
    destruct (Hnew _ _ _ _ Hr Hq0 Hle) as [(q1 & r1 & Hq1 & Hle1)|E].
    + destruct (held_gap _ _ Hh _ _ _ _ Hr Hq1 Hle1) as (q & rq & Hq & Hle2). destruct (Hf _ _ _ Hq) as (rq' & Hq' & E). exists q, rq'.
      split; [done|lia].
    + exists q0, r0. split; [done|]. unfold CHECKPOINT_EVERY. lia.
  - intros ring id Hh'. rewrite Eh in Hh'. destruct (held_low _ _ Hh _ _ Hh') as (q & rq & Hq & Hle). destruct (Hf _ _ _ Hq) as (rq' & Hq' & E).
    exists q, rq'. rewrite (last_seq_born _ _ _ Hb). split; [done|lia].
  - intros id r' s Hr' Hn Hs. destruct (born_back _ _ _ _ Hb Hr') as (r & Hr & [= Er Es _]). rewrite (last_seq_born _ _ _ Hb) in Hn.
    etrans; [|exact Hp]. eapply (held_rows _ _ Hh); [done| |done]. congruence.
Qed.
Lemma held_same d d' m : same_rings d d' -> dom (packages d) ⊆ dom (packages d') -> held d m -> held d' m.
Proof.
  intros Hs Hp. apply held_more; [|apply Hs|done| |].
  - intros id. pose proof (sr_releases _ _ Hs id) as E. destruct (releases d !! id), (releases d' !! id); try done. injection E as E1 E2 E3 _. cbn. unfold born. congruence.
  - intros ring q rq (Hq & Hring & Hc). destruct (same_rings_forth _ _ _ _ Hs Hq) as (rq' & Hq' & [= E1 E2 _ E4]). exists rq'. unfold flagged. by rewrite E1, E2, E4.
  - intros id r q0 r0 Hr (Hq & Hring & Hc) Hle. left. destruct (same_rings_back _ _ _ _ Hs Hq) as (rq & Hq' & [= E1 E2 _ E4]). exists q0, rq.
    unfold flagged. rewrite E1, E2, E4. done.
Qed.
Lemma held_ensure d m id d' : rings_ok d m -> held d m -> ensureCheckpoint d id = Some d' -> held d' m.
Proof.
  intros Hok Hh. unfold ensureCheckpoint. destruct (releases d !! id) as [r|] eqn:Er; [|done]. destruct (rl_checkpoint r) eqn:Ec; [by intros [= <-]|].
  destruct (rebuilt d id) as [s|] eqn:Es; [|done]. cbn [mbind option_bind]. destruct (bool_decide _); [|done]. intros [= <-].
  revert Hh. apply held_more; try done.
  - intros i. cbn. destruct (decide (i = id)) as [->|Hne]; [|by rewrite lookup_alter_ne]. by rewrite lookup_alter_eq, Er.
  - intros ring q rq (Hq & Hring & Hc). destruct (written_to d id s q rq Hq) as (rq' & Hq' & E1 & E2 & _ & E4). exists rq'. unfold flagged.
    split_and!; [done|congruence|by rewrite E4, Hc, orb_true_r|done].
  - intros i ri q0 r0 Hi (Hq & Hring & Hc) Hle. destruct (written_at d id s q0 r0 Hq) as (r1 & Hr1 & E1 & E2 & _ & E4). rewrite E4 in Hc.
    destruct (rl_checkpoint r1) eqn:Ec1; [left; exists q0, r1; unfold flagged; split_and!; try done; [congruence|lia]|].
    rewrite orb_false_r in Hc. apply bool_decide_eq_true in Hc as ->. assert (r1 = r) as -> by congruence.
    destruct (checkpoint_below d m id r s Hok Er Es) as (q & rq & [(Hq' & Eq & Hcq & Hleq)|(ring & Hhd)]).
    + left. exists q, rq. unfold flagged. split_and!; try done; [congruence|lia].
    + right. apply (ok_head _ _ Hok) in Hhd as (_ & rh & Hrh & Hringh & Hmax). assert (rh = r) as -> by congruence. specialize (Hmax _ _ Hi ltac:(congruence)). lia.
Qed.
Lemma held_members d m id s d' : rings_ok d m -> held d m -> releaseMembers d id = Some (s, d') -> held d' m.
Proof.
  intros Hok Hh. unfold releaseMembers. destruct (head_ring d id); [by intros [= _ <-]|]. destruct (ensureCheckpoint d id) as [d1|] eqn:E; [|done].
  cbn [mbind option_bind]. intros [= _ <-]. by eapply held_ensure.
Qed.

(** *** A release made *)

Section Made.
Context (d : RDB) (m : gmap Z (gset Z)) (b : CreateRelease) (parent source : option (Z * Release)) (ck : bool) (base added : gset Z).
Context (Hok : rings_ok d m) (Hh : held d m) (Hring : isRing (cr_ring b) = true) (Hparent : fst <$> parent = ring_heads d !! cr_ring b).
Context (Hadded : added ⊆ dom (packages d)).
Context (Hck : ck = false -> exists q rq, flagged d (cr_ring b) q rq /\ last_seq d (cr_ring b) + 1 < rl_seq rq + CHECKPOINT_EVERY).
Let bt := batch d b parent source ck base added.
Let own := ringMembers d (cr_ring b).
Let now := (own ∖ (own ∖ target d b base added)) ∪ (target d b base added ∖ own).
Lemma batch_last ring : last_seq bt ring = (if String.eqb ring (cr_ring b) then last_seq d ring + 1 else last_seq d ring).
Proof.
  pose proof (batch_new d b parent source ck base added) as Hnew.
  assert (Hold : forall i r, releases d !! i = Some r -> releases bt !! i = Some r) by (intros i r H; unfold bt; rewrite batch_old; [done|by eapply old_ne]).
  assert (Hge : forall s, In s (seqs_of d ring) -> s <= last_seq bt ring).
  { intros s (i & r & Hr & <- & <-)%seqs_In. by apply last_seq_ge with (id := i), Hold. }
  destruct (String.eqb_spec ring (cr_ring b)) as [E|Hne]; apply Z.le_antisymm.
  - unfold last_seq at 1. destruct (proj2 (max_spec (seqs_of bt ring))) as [->|Hin]; [pose proof (last_seq_pos d ring); lia|].
    apply seqs_In in Hin as (i & r & Hr & Hrr & Es). rewrite <- Es. destruct (decide (i = next_release d)) as [->|Hni].
    + unfold bt in Hr. rewrite Hnew in Hr. injection Hr as <-. cbn. rewrite E. lia.
    + unfold bt in Hr. rewrite batch_old in Hr by done. apply last_seq_ge in Hr. rewrite Hrr in Hr. lia.
  - rewrite E. pose proof (last_seq_ge bt _ _ Hnew) as H. exact H.
  - unfold last_seq at 1. destruct (proj2 (max_spec (seqs_of bt ring))) as [->|Hin]; [apply last_seq_pos|].
    apply seqs_In in Hin as (i & r & Hr & Hrr & Es). rewrite <- Es. destruct (decide (i = next_release d)) as [->|Hni].
    + unfold bt in Hr. rewrite Hnew in Hr. injection Hr as <-. cbn in Hrr. congruence.
    + unfold bt in Hr. rewrite batch_old in Hr by done. apply last_seq_ge in Hr. by rewrite Hrr in Hr.
  - unfold last_seq at 1. destruct (proj2 (max_spec (seqs_of d ring))) as [->|Hin]; [apply last_seq_pos|]. by apply Hge.
Qed.
Lemma batch_flagged ring q rq : flagged d ring q rq -> flagged bt ring q rq.
Proof. intros (H1 & H2 & H3). unfold flagged, bt. rewrite batch_old; [done|by eapply old_ne]. Qed.
Lemma batch_packages : dom (packages bt) = dom (packages d).
Proof.
  apply set_eq. intros i. rewrite !elem_of_dom. unfold bt, batch, release_batch, released. cbn [packages]. rewrite map_lookup_imap.
  destruct (packages d !! i); cbn; [|done]. by split.
Qed.
Lemma target_indexed : target d b base added ⊆ dom (packages d).
Proof.
  unfold target, of_arch, joined. intros i [Hi|Hi]%elem_of_union; [|by apply Hadded].
  apply elem_of_dom in Hi as [x Hx]. apply map_lookup_filter_Some in Hx as [Hx _]. apply map_lookup_filter_Some in Hx as [Hx _]. by apply elem_of_dom.
Qed.
Lemma held_batch : held bt (<[next_release d := now]> m).
Proof.
  assert (Hnow : now ⊆ dom (packages d)) by (pose proof target_indexed; intros i Hi; unfold now in Hi; destruct (decide (i ∈ target d b base added)); set_solver).
  pose proof (batch_new d b parent source ck base added) as Hnew. fold bt in Hnew.
  assert (Hin : forall i r, releases bt !! i = Some r -> i = next_release d /\ rl_ring r = cr_ring b /\ rl_seq r = last_seq d (cr_ring b) + 1 /\ rl_checkpoint r = ck
    \/ i <> next_release d /\ releases d !! i = Some r).
  { intros i r H. destruct (decide (i = next_release d)) as [->|Hne]; [|right; split; [done|]; unfold bt in H; by rewrite batch_old in H].
    left. rewrite Hnew in H. by injection H as <-. }
  split.
  - intros id r q0 r0 Hr (Hq0 & Hr0 & Hc0) Hle. destruct (Hin _ _ Hr) as [(-> & Er & Es & Ec)|[Hne Hr']].
    + destruct (bool_dec ck true) as [E|E%not_true_is_false];
        [exists (next_release d), r; split; [split_and!; [done..|congruence]|unfold CHECKPOINT_EVERY; lia]|].
      destruct (Hck E) as (q & rq & Hq & Hlt). exists q, rq. rewrite Er, Es. pose proof (batch_flagged _ _ _ Hq) as Hf.
      split; [done|]. destruct Hq as (Hq & Hqr & _). apply last_seq_ge in Hq. rewrite Hqr in Hq. lia.
    + destruct (Hin _ _ Hq0) as [(-> & Er0 & Es0 & _)|[_ Hq0']].
      * apply last_seq_ge in Hr'. rewrite <- Er0, Hr0 in Es0. lia.
      * destruct (held_gap _ _ Hh _ _ q0 r0 Hr') as (q & rq & Hq & Hle'); [done|done|]. exists q, rq. split; [by apply batch_flagged|done].
  - intros ring id Hhead. rewrite batch_last. unfold bt in Hhead. cbn in Hhead. destruct (String.eqb_spec ring (cr_ring b)) as [->|Hne].
    + destruct (ring_heads d !! cr_ring b) as [h|] eqn:Eh.
      * destruct (held_low _ _ Hh _ _ Eh) as (q & rq & Hq & Hle). exists q, rq. split; [by apply batch_flagged|lia].
      * pose proof (last_seq_none _ _ _ Hok Eh) as E0. destruct (bool_dec ck true) as [E|E%not_true_is_false].
        -- eexists _, _. split; [split_and!; [exact Hnew|done..]|]. cbn. rewrite E0. lia.
        -- destruct (Hck E) as (q & rq & (Hq & Hqr & _) & _). by apply (ok_headless _ _ Hok _ _ _ Eh) in Hq.
    + rewrite lookup_insert_ne in Hhead by done. destruct (held_low _ _ Hh _ _ Hhead) as (q & rq & Hq & Hle). exists q, rq. split; [by apply batch_flagged|done].
  - intros id r s Hr Hn Hs. rewrite batch_packages. destruct (Hin _ _ Hr) as [(-> & _)|[Hne Hr']].
    + rewrite lookup_insert_eq in Hs. by injection Hs as <-.
    + rewrite lookup_insert_ne in Hs by done. eapply (held_rows _ _ Hh); [done| |done]. rewrite batch_last in Hn. destruct (String.eqb _ _); lia.
Qed.
End Made.
Lemma last_checkpoint_spec d ring : last_checkpoint d ring = 0 /\ (forall q rq, ~ flagged d ring q rq \/ rl_seq rq <= 0)
  \/ exists q rq, flagged d ring q rq /\ rl_seq rq = last_checkpoint d ring.
Proof.
  unfold last_checkpoint. set (l := map _ _). assert (Hin : forall s, In s l <-> exists q rq, flagged d ring q rq /\ rl_seq rq = s).
  { intros s. unfold l. rewrite in_map_iff. split.
    - intros ([q rq] & <- & H). apply filter_In in H as [H1 H2]. apply list_elem_of_In, elem_of_map_to_list in H1. apply andb_true_iff in H2 as [H2%String.eqb_eq H3].
      by exists q, rq.
    - intros (q & rq & (H1 & H2 & H3) & <-). exists (q, rq). split; [done|]. apply filter_In. split; [by apply list_elem_of_In, elem_of_map_to_list|].
      apply andb_true_iff. split; [by apply String.eqb_eq|done]. }
  destruct (max_spec l) as [Hmax [H0|H0]]; [left|right; by apply Hin]. split; [done|]. intros q rq.
  destruct (Z.le_gt_cases (rl_seq rq) 0); [by right|left]. intros Hf. rewrite H0 in Hmax. specialize (Hmax (rl_seq rq)). apply Z.lt_nge in H. apply H, Hmax, Hin.
  by exists q, rq.
Qed.

(** *** A sweep *)

Section Sweep.
Context (d : RDB) (m : gmap Z (gset Z)) (keep : nat) (Hok : rings_ok d m) (Hh : held d m) (Hkeep : (K <= keep)%nat).
Let x := retention d keep.
Definition swept_of : RDB := swept d (keptCheckpoints x) (checkpointSeq x).
Lemma kept_protected ring p : In ring RINGS -> In p (protected_of d keep ring) -> rl_checkpoint p.2 = true -> In p.1 (keptCheckpoints x).
Proof.
  intros Hr Hp Hc. unfold x, retention. cbn [keptCheckpoints]. apply list_elem_of_In, list_elem_of_bind. eexists (ring, protected_of d keep ring, _).
  split; [|apply list_elem_of_fmap; exists ring; split; [done|by apply list_elem_of_In]]. cbn [fst snd]. apply elem_of_app. left.
  apply list_elem_of_In, in_map, filter_In. done.
Qed.
Lemma kept_base ring o bs : In ring RINGS -> last (protected_of d keep ring) = Some o -> base_of d ring o = Some bs -> In bs.1 (keptCheckpoints x).
Proof.
  intros Hr Ho Hb. unfold x, retention. cbn [keptCheckpoints]. apply list_elem_of_In, list_elem_of_bind. eexists (ring, protected_of d keep ring, _).
  split; [|apply list_elem_of_fmap; exists ring; split; [done|by apply list_elem_of_In]]. cbn [fst snd]. apply elem_of_app. right. rewrite Ho. cbn. rewrite Hb. by left.
Qed.
Lemma protected_listed ring p : In ring RINGS -> In p (protected_of d keep ring) -> In p.1 (protectedReleases x).
Proof.
  intros Hr Hp. unfold x, retention. cbn [protectedReleases]. apply list_elem_of_In, list_elem_of_bind. eexists (ring, protected_of d keep ring, _).
  split; [|apply list_elem_of_fmap; exists ring; split; [done|by apply list_elem_of_In]]. cbn [fst snd]. by apply list_elem_of_In, in_map.
Qed.
Lemma rings_of_releases id r : releases d !! id = Some r -> In (rl_ring r) RINGS.
Proof. intros H. apply (ok_release _ _ Hok) in H as (_ & _ & H & _). by apply str_in_In. Qed.
Lemma newest_protected id r : releases d !! id = Some r -> last_seq d (rl_ring r) - Z.of_nat K < rl_seq r -> In (id, r) (protected_of d keep (rl_ring r)).
Proof.
  intros Hr Hn. assert (Ht : In (id, r) (take keep (of_ring d (rl_ring r)))).
  { apply (newest_taken d m Hok _ (last_seq d (rl_ring r))); [|done..|lia]. intros i r' H <-. by eapply last_seq_ge. }
  unfold protected_of. cbv zeta. destruct (take keep (of_ring d (rl_ring r))) as [|h t]; [done|]. destruct (last (h :: t)); [|done].
  destruct (carriedSince _ _ _); [|done]. destruct (_ <? _); [|done]. apply in_or_app. by left.
Qed.
(** The oldest protected release of a ring that has one, and the lowest number any protected by [K] may have. *)
Lemma oldest_of ring id : ring_heads d !! ring = Some id ->
  exists o, last (protected_of d keep ring) = Some o /\ rl_seq o.2 <= Z.max 1 (last_seq d ring - Z.of_nat K + 1).
Proof.
  intros Eh. destruct (ok_head _ _ Hok _ _ Eh) as (_ & r & Hr & Hring & _). pose proof (last_seq_head _ _ _ _ _ Hok Eh Hr) as El.
  destruct (ok_release _ _ Hok _ _ Hr) as (_ & Hpos & _).
  assert (Hs : In (Z.max 1 (last_seq d ring - Z.of_nat K + 1)) (seqs_of d (rl_ring r))) by (eapply (contiguous _ _ Hok (Z.to_nat (rl_seq r))); [done|lia|lia]).
  apply seqs_In in Hs as (i & ri & Hi & Hri & Es). assert (Hp : In (i, ri) (protected_of d keep (rl_ring ri))) by (apply newest_protected; [done|rewrite Hri, Hring; lia]).
  rewrite Hri, Hring in Hp. destruct (last (protected_of d keep ring)) as [o|] eqn:Eo; [|apply last_None in Eo; by rewrite Eo in Hp].
  exists o. split; [done|]. pose proof (protected_last _ _ _ _ _ Eo Hp) as H. cbn in H. lia.
Qed.
(** A checkpoint not kept is below a kept one that nothing kept is below. *)
Lemma unkept_below ring q rq o : flagged d ring q rq -> In ring RINGS -> last (protected_of d keep ring) = Some o ->
  In q (keptCheckpoints x) \/ exists bs, base_of d ring o = Some bs /\ rl_seq rq <= rl_seq bs.2 <= rl_seq o.2 /\ flagged d ring bs.1 bs.2 /\ In bs.1 (keptCheckpoints x).
Proof.
  intros (Hq & Hring & Hc) Hr Ho. assert (Hin : In (q, rq) (of_ring d ring)) by by apply of_ring_In.
  destruct (Z.le_gt_cases (rl_seq o.2) (rl_seq rq)) as [Hle|Hgt].
  - left. by apply (kept_protected ring (q, rq) Hr); [apply (protected_closed d m Hok ring keep o (q, rq))|].
  - right. unfold base_of. set (f := fun p : Z * Release => rl_checkpoint p.2 && (rl_seq p.2 <=? rl_seq o.2)).
    assert (Hf : f (q, rq) = true) by (unfold f; cbn; apply andb_true_iff; split; [done|lia]).
    destruct (List.find f (of_ring d ring)) as [bs|] eqn:Eb; [|by rewrite (find_none _ _ Eb _ Hin) in Hf].
    exists bs. split; [done|]. pose proof (find_newest (of_ring d ring) f bs (q, rq) (of_ring_sorted d m Hok ring) Eb Hin Hf) as H1. cbn in H1.
    pose proof (find_some _ _ Eb) as [Hb Hfb]. apply of_ring_In in Hb as [Hb Hbr]. unfold f in Hfb. apply andb_true_iff in Hfb as [Hcb Hleb%Z.leb_le].
    split_and!; try done. eapply kept_base; [done..|]. exact Eb.
Qed.
Lemma swept_flag ring q rq : flagged d ring q rq -> In q (keptCheckpoints x) -> exists rq', flagged swept_of ring q rq' /\ rl_seq rq' = rl_seq rq.
Proof.
  intros (H1 & H2 & H3) Hk. destruct (swept_to d (keptCheckpoints x) (checkpointSeq x) _ _ H1) as (rq' & Hq' & E1 & E2 & _ & E4). exists rq'.
  split; [|done]. split_and!; [done|congruence|]. rewrite E4, H3. apply existsb_exists. exists q. split; [done|apply Z.eqb_refl].
Qed.
Lemma flag_swept ring q rq : flagged swept_of ring q rq -> exists rq0, flagged d ring q rq0 /\ rl_seq rq0 = rl_seq rq /\ In q (keptCheckpoints x).
Proof.
  intros (H1 & H2 & H3). destruct (swept_at d (keptCheckpoints x) (checkpointSeq x) _ _ H1) as (r0 & Hr0 & E1 & E2 & _ & E4). exists r0.
  rewrite E4 in H3. apply andb_true_iff in H3 as [H3 Hk]. apply existsb_exists in Hk as (k & Hk & Ek). apply Z.eqb_eq in Ek. subst k.
  split_and!; try done. unfold flagged. split_and!; congruence.
Qed.
Lemma born_swept : same_born d swept_of.
Proof.
  intros i. unfold swept_of. destruct (releases d !! i) as [r|] eqn:E.
  - destruct (swept_to d (keptCheckpoints x) (checkpointSeq x) _ _ E) as (r' & -> & E1 & E2 & E3 & _). cbn. unfold born. congruence.
  - destruct (releases (swept _ _ _) !! i) as [r|] eqn:E'; [|done]. apply swept_at in E' as (r0 & Hr0 & _). congruence.
Qed.
Lemma heads_swept : ring_heads swept_of = ring_heads d.
Proof. unfold swept_of, swept. by destruct (deltas_kept (checkpointSeq x) (gc_flags (keptCheckpoints x) (gc_members (keptCheckpoints x) d)) 0) as (_ & _ & -> & _). Qed.
Lemma gap_swept id r q0 r0 : releases swept_of !! id = Some r -> flagged swept_of (rl_ring r) q0 r0 -> rl_seq r0 <= rl_seq r ->
  exists q rq, flagged swept_of (rl_ring r) q rq /\ rl_seq rq <= rl_seq r < rl_seq rq + CHECKPOINT_EVERY.
Proof.
  intros Hr Hq0 Hle. destruct (born_back _ _ _ _ born_swept Hr) as (r1 & Hr1 & [= Er Es _]). rewrite Er in *. rewrite Es in *.
  destruct (flag_swept _ _ _ Hq0) as (rq0 & Hf0 & E0 & Hk0). destruct (held_gap _ _ Hh _ _ _ _ Hr1 Hf0 ltac:(lia)) as (q & rq & Hq & Hle').
  pose proof (rings_of_releases _ _ Hr1) as Hring. destruct (release_head _ _ _ _ Hok Hr1) as (h & rh & Eh & _). destruct (oldest_of _ _ Eh) as (o & Ho & _).
  destruct (unkept_below _ _ _ _ Hq Hring Ho) as [Hk|(bs & Hb & Hbs & Hfb & Hkb)].
  - destruct (swept_flag _ _ _ Hq Hk) as (rq' & Hq' & E). exists q, rq'. split; [done|lia].
  - destruct (swept_flag _ _ _ Hfb Hkb) as (rb & Hq' & E). exists bs.1, rb. split; [done|].
    assert (rl_seq bs.2 <= rl_seq r1); [|lia]. destruct Hf0 as (Hq00 & Hqr & Hqc). eapply Z.le_trans; [|rewrite <- E0 in Hle; exact Hle].
    eapply (kept_above d keep q0 rq0); [done|done|]. rewrite Hqr. unfold retention. cbn [checkpointSeq]. apply list_elem_of_In, list_elem_of_omap.
    eexists (rl_ring r1, protected_of d keep (rl_ring r1), _). split; [apply list_elem_of_fmap; exists (rl_ring r1); split; [done|by apply list_elem_of_In]|].
    cbn [fst snd]. rewrite Ho. cbn. by rewrite Hb.
Qed.
Lemma low_swept ring id : ring_heads d !! ring = Some id ->
  exists q rq, flagged swept_of ring q rq /\ rl_seq rq <= Z.max 1 (last_seq d ring - Z.of_nat K + 1).
Proof.
  intros Eh. destruct (held_low _ _ Hh _ _ Eh) as (q & rq & Hq & Hle). destruct (oldest_of _ _ Eh) as (o & Ho & Hlo).
  destruct (ok_head _ _ Hok _ _ Eh) as (_ & r & Hr & Hring & _). pose proof (rings_of_releases _ _ Hr) as Hin. rewrite Hring in Hin.
  destruct (unkept_below _ _ _ _ Hq Hin Ho) as [Hk|(bs & Hb & Hbs & Hfb & Hkb)].
  - destruct (swept_flag _ _ _ Hq Hk) as (rq' & Hq' & E). exists q, rq'. split; [done|lia].
  - destruct (swept_flag _ _ _ Hfb Hkb) as (rb & Hq' & E). exists bs.1, rb. split; [done|lia].
Qed.
(** A package a protected release had is served, or a protected release removed it. *)
Lemma not_outside p : forall n id r s, releases d !! id = Some r -> last_seq d (rl_ring r) - rl_seq r = Z.of_nat n ->
  last_seq d (rl_ring r) - Z.of_nat K < rl_seq r -> m !! id = Some s -> p ∈ s -> outsideRetention d x p = false.
Proof.
  induction n as [|n IH]; intros id r s Hr En Hn Hs Hp; destruct (release_head _ _ _ _ Hok Hr) as (h & rh & Eh & Hrh & Erh & El & Hmh & Hle).
  - assert (h = id) as -> by (eapply (ok_seq _ _ Hok); [done..|lia]). assert (s = ringMembers d (rl_ring r)) as -> by congruence.
    unfold outsideRetention. replace (served d p) with true; [done|]. symmetry. apply existsb_exists. exists (rl_ring r).
    split; [by eapply rings_of_releases|]. by apply bool_decide_eq_true.
  - assert (Hs1 : In (rl_seq r + 1) (seqs_of d (rl_ring rh))) by (eapply (contiguous _ _ Hok (Z.to_nat (rl_seq rh))); [done| |];
      destruct (ok_release _ _ Hok _ _ Hr) as (_ & ? & _); lia).
    apply seqs_In in Hs1 as (j & rj & Hj & Hrj & Ej). rewrite Erh in Hrj. pose proof (ok_parent _ _ Hok _ _ Hj) as Hpj.
    destruct (ok_release _ _ Hok _ _ Hr) as (_ & Hpos & _). destruct (rl_parent rj) as [q|] eqn:Eq; [|lia]. destruct Hpj as (rq & Hrq & Erq & Esq).
    assert (q = id) as -> by (eapply (ok_seq _ _ Hok); [done..|congruence|lia]).
    destruct (release_deltas d !! j) as [dx|] eqn:Ed.
    + pose proof (ok_delta _ _ Hok _ _ _ _ _ Hj Eq Ed Hs) as [Hmj _]. destruct (decide (p ∈ apply_delta dx s)) as [Hpj|Hpj].
      * eapply (IH j rj); [done| | |done|done]; rewrite Hrj; lia.
      * assert (Hrem : p ∈ adds dx ∪ removes dx) by (unfold apply_delta in Hpj; destruct (decide (p ∈ removes dx)); set_solver).
        unfold outsideRetention. apply andb_false_iff. right. apply negb_false_iff, existsb_exists. exists j. split.
        -- apply (protected_listed (rl_ring rj) (j, rj)); [by eapply rings_of_releases|]. apply newest_protected; [done|]. rewrite Hrj. lia.
        -- apply bool_decide_eq_true. unfold delta_of. by rewrite Ed.
    + destruct (low_below _ _ _ _ Hok Hh Hr Hn) as (q & rq0 & (Hq & Hqr & Hqc) & Hleq).
      pose proof (ok_pruned _ _ Hok _ _ _ _ Hj Ed Hq ltac:(congruence) Hqc). lia.
Qed.
End Sweep.
Lemma gc_packages_kept vs d p : ~ In p (map fst vs) -> packages (fold_left gc_package vs d) !! p = packages d !! p.
Proof.
  revert d. induction vs as [|v vs IH]; intros d Hp; [done|]. cbn [fold_left]. rewrite IH by (intros H; apply Hp; by right).
  unfold gc_package. destruct (served d v.1); [done|]. cbn [packages set_packages]. apply lookup_delete_ne. intros E. apply Hp. by left.
Qed.
Lemma held_gc d m keep limit grace now : rings_ok d m -> held d m -> (K <= keep)%nat -> held (handleGc keep limit grace now d d) m.
Proof.
  intros Hok Hh Hk. unfold handleGc. cbv zeta. assert (Hk' : (K <= Nat.max 1 keep)%nat) by lia.
  set (vs := take _ _). set (d1 := swept_of d (Nat.max 1 keep)). change (held (fold_left gc_package vs d1) m).
  pose proof (same_gc vs d1) as Hs. pose proof (born_swept d (Nat.max 1 keep)) as Hb. fold d1 in Hb.
  assert (Hl : forall ring, last_seq (fold_left gc_package vs d1) ring = last_seq d ring).
  { intros ring. rewrite <- (last_seq_born _ _ ring Hb). apply last_seq_born. intros i. pose proof (sr_releases _ _ Hs i) as E.
    destruct (releases d1 !! i), (releases (fold_left gc_package vs d1) !! i); try done. injection E as E1 E2 E3 _. cbn. unfold born. congruence. }
  assert (Hf : forall ring q rq, flagged d1 ring q rq -> exists rq', flagged (fold_left gc_package vs d1) ring q rq' /\ rl_seq rq' = rl_seq rq).
  { intros ring q rq (H1 & H2 & H3). destruct (same_rings_forth _ _ _ _ Hs H1) as (rq' & Hq' & [= E1 E2 _ E4]). exists rq'. unfold flagged. by rewrite E1, E2, E4. }
  split.
  - intros id r q0 r0 Hr (Hq0 & Hr0 & Hc0) Hle. destruct (same_rings_back _ _ _ _ Hs Hr) as (r1 & Hr1 & [= Er Es _ _]).
    destruct (same_rings_back _ _ _ _ Hs Hq0) as (r2 & Hr2 & [= Er2 Es2 _ Ec2]).
    destruct (gap_swept d m (Nat.max 1 keep) Hok Hh Hk' id r1 q0 r2) as (q & rq & Hq & Hle'); [done|split_and!; [done|congruence..]|lia|].
    destruct (Hf _ _ _ Hq) as (rq' & Hq' & E). exists q, rq'. rewrite <- Er, <- Es. split; [done|lia].
  - intros ring id Eh. assert (Eh0 : ring_heads d !! ring = Some id) by (pose proof (sr_heads _ _ Hs) as E; unfold d1 in E; rewrite heads_swept in E; fold d1 in E; congruence).
    destruct (low_swept d m (Nat.max 1 keep) Hok Hh Hk' _ _ Eh0) as (q & rq & Hq & Hle). destruct (Hf _ _ _ Hq) as (rq' & Hq' & E).
    exists q, rq'. rewrite Hl. split; [done|lia].
  - intros id r s Hr Hn Hms p Hp. destruct (same_rings_back _ _ _ _ Hs Hr) as (r1 & Hr1 & [= Er Es _ _]).
    destruct (born_back _ _ _ _ Hb Hr1) as (r0 & Hr0 & [= Er0 Es0 _]). rewrite Hl, <- Er, Er0, <- Es, Es0 in Hn.
    pose proof (held_rows _ _ Hh _ _ _ Hr0 Hn Hms _ Hp) as Hrow. apply elem_of_dom in Hrow as [row Hrow].
    apply elem_of_dom. rewrite gc_packages_kept.
    + unfold d1, swept_of, swept. destruct (deltas_kept (checkpointSeq (retention d (Nat.max 1 keep))) (gc_flags (keptCheckpoints (retention d (Nat.max 1 keep)))
        (gc_members (keptCheckpoints (retention d (Nat.max 1 keep))) d)) 0) as (_ & _ & _ & _ & _ & -> & _). cbn. by exists row.
    + intros Hin. apply in_map_iff in Hin as ([p' prow] & Ep & Hin). cbn in Ep. subst p'. unfold vs in Hin. apply take_In in Hin.
      unfold unreferenced in Hin. rewrite sort_by_In, filter_In in Hin. destruct Hin as [_ Hout]. apply andb_true_iff in Hout as [_ Hout]. cbn in Hout.
      rewrite (not_outside d m (Nat.max 1 keep) Hok Hh Hk' p (Z.to_nat (last_seq d (rl_ring r0) - rl_seq r0)) id r0 s) in Hout; try done.
      pose proof (last_seq_ge _ _ _ Hr0). lia.
Qed.
End Held.

(** ** The runs *)

Definition reads_here (K : nat) (o : ROp) (d : RDB) : Prop :=
  match o with
  | OpCreate _ read later => read = d /\ later = d
  | OpGc keep _ _ _ read => read = d /\ (K <= keep)%nat
  | OpRendered _ _ read => read = d
  | _ => True
  end.
Inductive sole_run (K : nat) : World -> Prop :=
| sole_start : sole_run K world0
| sole_step w o : sole_run K w -> reads_here K o (db w) -> sole_run K (wstep o w).
Lemma sole_run_run K w : sole_run K w -> exists past, rings_run past w.
Proof.
  induction 1 as [|w o Hw [past Hr] Hh]; [eexists; constructor|]. destruct (run_ok _ _ Hr) as (_ & Hin & _).
  exists (db (wstep o w) :: past). constructor; [done| |]; destruct o; cbn in *; try done; by destruct_and?; subst.
Qed.
Lemma held_start K : held K no_release ∅.
Proof. split; cbn; intros; by rewrite lookup_empty in *. Qed.
Section Sole.
Context (K : nat) (HK : (1 <= K)%nat).
#[local] Notation held := (held K).
Lemma based_held d m o d1 : rings_ok d m -> held d m -> o = Some d \/ (exists i, o = ensureCheckpoint d i) -> o = Some d1 ->
  held d1 m /\ ring_heads d1 = ring_heads d /\ (forall ring, last_seq d1 ring = last_seq d ring) /\ dom (packages d1) = dom (packages d)
  /\ forall ring q rq, flagged d ring q rq -> exists rq', flagged d1 ring q rq' /\ rl_seq rq' = rl_seq rq.
Proof.
  intros Hok Hh [->|[i ->]].
  - intros [= <-]. split_and!; try done. intros ring q rq H. by exists rq.
  - intros He. pose proof He as He'. apply (held_ensure K HK _ _ _ _ Hok Hh) in He'. split; [done|]. destruct (grows_ensure _ _ _ He) as [Hg Eh].
    unfold ensureCheckpoint in He. destruct (releases d !! i) as [r|] eqn:Er; [|done]. destruct (rl_checkpoint r) eqn:Ec.
    { injection He as <-. split_and!; try done. intros ring q rq H. by exists rq. }
    destruct (rebuilt d i) as [s|] eqn:Es; [|done]. cbn in He. destruct (bool_decide _); [|done]. injection He as <-. split_and!; try done.
    + intros ring. apply last_seq_born. intros j. cbn. destruct (decide (j = i)) as [->|Hne]; [|by rewrite lookup_alter_ne].
      by rewrite lookup_alter_eq, Er.
    + intros ring q rq (Hq & Hring & Hc). destruct (written_to d i s q rq Hq) as (rq' & Hq' & E1 & E2 & _ & E4). exists rq'. unfold flagged.
      split_and!; [done|congruence|by rewrite E4, Hc, orb_true_r|done].
Qed.
Lemma finish_held b parent source ck base added d m : rings_ok d m -> held d m -> isRing (cr_ring b) = true ->
  fst <$> parent = ring_heads d !! cr_ring b -> added ⊆ dom (packages d) ->
  (ck = false -> exists q rq, flagged d (cr_ring b) q rq /\ last_seq d (cr_ring b) + 1 < rl_seq rq + CHECKPOINT_EVERY) ->
  let d' := summarise (next_release d) (batch d b parent source ck base added) in held d' (<[next_release d := ringMembers d' (cr_ring b)]> m).
Proof.
  intros Hok Hh Hring Hp Hadd Hck d'. set (bt := batch d b parent source ck base added).
  pose proof (batch_head d b parent source ck base added Hring) as Hnh. fold bt in Hnh.
  assert (Hs : same_rings bt d') by (apply summarise_same; by apply batch_head).
  apply (held_same K HK bt); [done| |].
  - unfold d', summarise. fold bt. destruct (releaseMembers bt (next_release d)) as [[s d2]|] eqn:E; [|done]. cbn. unfold releaseMembers in E.
    destruct (head_ring bt (next_release d)); [|done]. by injection E as _ <-.
  - replace (ringMembers d' (cr_ring b)) with (ringMembers bt (cr_ring b)) by (unfold ringMembers; by rewrite (sr_rings _ _ Hs)).
    unfold bt at 2. rewrite batch_members, String.eqb_refl. by apply held_batch.
Qed.
Lemma held_make b source d m d' out : rings_ok d m -> held d m -> isRing (cr_ring b) = true -> added_rows d b ⊆ dom (packages d) ->
  make_release b (ringHead d (cr_ring b)) source (added_rows d b) d d = (d', out) -> held d' (made_by b out d' m).
Proof.
  intros Hok Hh Hring Hadd. unfold make_release. cbv zeta.
  set (as_head := if match source with Some _ => _ | None => false end then _ else None).
  set (got := match source with Some _ => _ | None => Some d end). intros H.
  assert (Hgot : got = Some d \/ exists i, got = ensureCheckpoint d i) by (unfold got; destruct source; [|by left]; repeat case_match; eauto).
  destruct got as [d1|]; [|by injection H as <- <-].
  destruct (based_ok _ _ _ _ Hok Hgot eq_refl) as (Hd1 & _). destruct (based_held _ _ _ _ Hok Hh Hgot eq_refl) as (Hh1 & Eh & El & Ep & Hf).
  destruct (seq_taken _ _ _) in H; [injection H as <- <-; done|].
  injection H as <- <-. cbn [made_by].
  set (ck := match ringHead d (cr_ring b) with None => true | Some _ => CHECKPOINT_EVERY <=? last_seq d (cr_ring b) + 1 - last_checkpoint d (cr_ring b) end).
  set (bs := base_set _ _ _ _ _ _).
  assert (Hp : fst <$> ringHead d (cr_ring b) = ring_heads d1 !! cr_ring b) by (by rewrite (ringHead_id _ _ _ Hok), Eh).
  assert (Hck : ck = false -> exists q rq, flagged d1 (cr_ring b) q rq /\ last_seq d1 (cr_ring b) + 1 < rl_seq rq + CHECKPOINT_EVERY).
  { unfold ck. pose proof (ringHead_id _ _ (cr_ring b) Hok) as Er. destruct (ringHead d (cr_ring b)) as [p|]; [|done]. intros Hlt%Z.leb_gt. cbn in Er.
    destruct (last_checkpoint_spec d (cr_ring b)) as [[_ Hnone]|(q & rq & Hq & E)].
    - destruct (held_low _ _ _ Hh _ _ (eq_sym Er)) as (q & rq & Hq & _). destruct (Hnone q rq) as [Hn|Hn]; [done|]. destruct Hq as (Hq & _).
      destruct (ok_release _ _ Hok _ _ Hq) as (_ & ? & _). lia.
    - destruct (Hf _ _ _ Hq) as (rq' & Hq' & E'). exists q, rq'. split; [done|]. rewrite El. lia. }
  assert (Hf1 : held (summarise (next_release d1) (batch d1 b (ringHead d (cr_ring b)) source ck bs (added_rows d b)))
    (made_by b (Made (next_release d1) []) (summarise (next_release d1) (batch d1 b (ringHead d (cr_ring b)) source ck bs (added_rows d b))) m)).
  { apply finish_held; [done..|by rewrite Ep|done]. }
  unfold batch in Hf1. by rewrite (El (cr_ring b)) in Hf1.
Qed.
Lemma added_indexed d b : added_rows d b ⊆ dom (packages d).
Proof.
  unfold added_rows. intros i Hi. apply elem_of_union_list in Hi as (x & Hx & Hi). apply list_elem_of_fmap in Hx as (e & -> & _).
  unfold rowsOf in Hi. apply elem_of_dom in Hi as [row Hrow]. apply map_lookup_filter_Some in Hrow as [Hrow _]. by apply elem_of_dom.
Qed.
Lemma held_step w o : rings_ok (db w) (made w) -> held (db w) (made w) -> reads_here K o (db w) ->
  held (db (wstep o w)) (made (wstep o w)).
Proof.
  intros Hok Hh Hr. unfold wstep. destruct o as [row|b read later|id|keep limit grace now read|signing id kind repo arch size sig|id arch read];
    cbn [rstep reads_here] in *.
  - cbn [db made]. apply (held_same K HK (db w)); [by split| |done]. cbn. rewrite dom_insert. set_solver.
  - destruct (handleCreateRelease b read later (db w)) as [d out] eqn:E. cbn [db made]. destruct Hr as [-> ->]. unfold handleCreateRelease in E.
    destruct (isRing (cr_ring b)) eqn:Hring; [|by injection E as <- <-]. cbn [negb] in E. destruct (base_source b (db w)) as [s|source]; [by injection E as <- <-|].
    destruct (match cr_remove_arch b with Some _ => _ | None => _ end); [by injection E as <- <-|]. destruct (not_indexed (db w) b); [by injection E as <- <-|].
    destruct (match cr_arch b with Some _ => _ | None => _ end); [by injection E as <- <-|].
    apply held_make with (m := made w) in E; [by destruct out|done..|apply added_indexed].
  - cbn [db made]. destruct (releaseMembers (db w) id) as [[s d']|] eqn:E; [|done]. by eapply held_members.
  - cbn [db made]. destruct Hr as [-> Hk]. by apply held_gc.
  - cbn [db made]. assert (Hs : same_rings (db w) (handlePutArtifact signing id kind repo arch size sig (db w)).1 /\
      packages (handlePutArtifact signing id kind repo arch size sig (db w)).1 = packages (db w)) by (unfold handlePutArtifact, put_kind; cases; by split).
    destruct Hs as [Hs Ep]. apply (held_same K HK (db w)); [done|by rewrite Ep|done].
  - cbn [db made]. assert (Hs : same_rings (db w) (handleRendered id arch read (db w)).1 /\ packages (handleRendered id arch read (db w)).1 = packages (db w))
      by (unfold handleRendered; cases; by split).
    destruct Hs as [Hs Ep]. apply (held_same K HK (db w)); [done|by rewrite Ep|done].
Qed.
Lemma sole_held w : sole_run K w -> held (db w) (made w).
Proof.
  induction 1 as [|w o Hw IH Hr]; [apply held_start|]. destruct (sole_run_run _ _ Hw) as [past Hp]. apply run_ok in Hp as (Hok & _).
  by apply held_step.
Qed.
End Sole.

Definition alone_here (K : nat) (f : RDB -> ROp) : Prop := forall w, reads_here K (f (db w)) (db w).
Lemma sole_runs K l w : Forall (alone_here K) l -> sole_run K w -> sole_run K (runs l w).
Proof. intros Hl. revert w. induction Hl as [|f l Hf _ IH]; intros w Hw; [done|]. cbn. apply IH. by constructor. Qed.
(** Four releases of edge, one of them withdrawing a package, then a sweep that keeps two. *)
Definition w_swept : World :=
  runs (three_packages ++ [create (adding "edge" ["aa"]); create (adding "edge" ["bb"]); create (dropping "edge" ["felix"]);
    create (adding "edge" ["cc"]); fun d => OpGc 2 500 7 1000 d])%list world0.
