(* ===== verification/DiffFacts.v ===== *)
(** What changed between two releases (Rings.v, routes/releases.ts diffFromDeltas): the fold over the deltas between them
    against the two lists themselves. *)
From stdpp Require Import base numbers list strings gmap sets sorting.
From S2P Require Import Prelude Rings RingsFacts.
#[local] Open Scope Z_scope.

(** ** The fold *)

(** What tells [B] from [S]: the reference the fold is compared with. *)
Definition differs (B S : gset Z) (net : gmap Z DeltaOp) : Prop :=
  forall p, net !! p = if decide (p ∈ B) then (if decide (p ∈ S) then None else Some op_remove)
                       else (if decide (p ∈ S) then Some op_add else None).
Lemma differs_none B : differs B B ∅.
Proof. intros p. rewrite lookup_empty. repeat case_decide; done. Qed.
Lemma add_step B S p net : differs B S net -> p ∉ S -> differs B ({[p]} ∪ S) (net_step net (p, op_add)).
Proof.
  intros H Hp q. unfold net_step. cbn [fst snd]. rewrite (H p). destruct (decide (p ∈ S)); [done|].
  destruct (decide (p ∈ B)); cbn [bool_decide decide]; destruct (decide (q = p)) as [->|Hne].
  - rewrite bool_decide_false by done. rewrite lookup_delete_eq. repeat case_decide; set_solver.
  - rewrite bool_decide_false by done. rewrite lookup_delete_ne by done. rewrite (H q). repeat case_decide; set_solver.
  - rewrite lookup_insert_eq. repeat case_decide; set_solver.
  - rewrite lookup_insert_ne by done. rewrite (H q). repeat case_decide; set_solver.
Qed.
Lemma remove_step B S p net : differs B S net -> p ∈ S -> differs B (S ∖ {[p]}) (net_step net (p, op_remove)).
Proof.
  intros H Hp q. unfold net_step. cbn [fst snd]. rewrite (H p). destruct (decide (p ∈ S)); [|done].
  destruct (decide (p ∈ B)); destruct (decide (q = p)) as [->|Hne].
  - rewrite lookup_insert_eq. repeat case_decide; set_solver.
  - rewrite lookup_insert_ne by done. rewrite (H q). repeat case_decide; set_solver.
  - rewrite bool_decide_false by done. rewrite lookup_delete_eq. repeat case_decide; set_solver.
  - rewrite bool_decide_false by done. rewrite lookup_delete_ne by done. rewrite (H q). repeat case_decide; set_solver.
Qed.
Lemma adds_fold B l : forall S net, differs B S net -> NoDup l -> (forall p, p ∈ l -> p ∉ S) ->
  differs B (list_to_set l ∪ S) (fold_left net_step (map (fun p => (p, op_add)) l) net).
Proof.
  induction l as [|p l IH]; intros S net H Hd Hn; cbn; [by rewrite (left_id_L ∅ union)|]. apply NoDup_cons in Hd as [Hpl Hd].
  replace ({[p]} ∪ list_to_set l ∪ S) with (list_to_set l ∪ ({[p]} ∪ S)) by set_solver.
  apply IH; [|done|]; [apply add_step; [done|apply Hn; left]|]. intros q Hq Hin. specialize (Hn q). set_solver.
Qed.
Lemma removes_fold B l : forall S net, differs B S net -> NoDup l -> (forall p, p ∈ l -> p ∈ S) ->
  differs B (S ∖ list_to_set l) (fold_left net_step (map (fun p => (p, op_remove)) l) net).
Proof.
  induction l as [|p l IH]; intros S net H Hd Hn; cbn; [by rewrite difference_empty_L|]. apply NoDup_cons in Hd as [Hpl Hd].
  replace (S ∖ ({[p]} ∪ list_to_set l)) with (S ∖ {[p]} ∖ list_to_set l) by set_solver.
  apply IH; [|done|]; [apply remove_step; [done|apply Hn; left]|]. intros q Hq. specialize (Hn q). set_solver.
Qed.
Lemma release_fold d B S net id : differs B S net -> effective (delta_of d id) S ->
  differs B (apply_delta (delta_of d id) S) (fold_left net_step (delta_rows d id) net).
Proof.
  intros H [Ha Hr]. unfold delta_rows. rewrite fold_left_app.
  replace (apply_delta (delta_of d id) S) with ((list_to_set (elements (adds (delta_of d id))) ∪ S) ∖ list_to_set (elements (removes (delta_of d id)))).
  - apply removes_fold; [|apply NoDup_elements|set_solver]. apply adds_fold; [done|apply NoDup_elements|set_solver].
  - rewrite !list_to_set_elements_L. unfold apply_delta. set_solver.
Qed.

(** ** The walk *)

Definition rows_of_chain (d : RDB) (chain : list (Z * Release)) : list (Z * DeltaOp) := chain ≫= (fun r => delta_rows d r.1).
Lemma net_of_cons d r chain : net_of d (r :: chain) = fold_left net_step (delta_rows d r.1) (net_of d chain).
Proof.
  unfold net_of. cbn [rev]. rewrite bind_app, fold_left_app. cbn. by rewrite app_nil_r.
Qed.
Lemma oldest_is d ring floor : oldest_checkpoint d ring = Some floor ->
  exists q rq, releases d !! q = Some rq /\ rl_ring rq = ring /\ rl_checkpoint rq = true /\ rl_seq rq = floor.
Proof.
  unfold oldest_checkpoint. set (l := map _ _). intros H. assert (Hin : In floor l).
  { apply (sort_by_In Z.sub). destruct (sort_by Z.sub l); [done|]. cbn in H. injection H as ->. by left. }
  apply in_map_iff in Hin as ([q rq] & <- & Hin). apply filter_In in Hin as [H1 [H2 H3]%andb_true_iff].
  exists q, rq. split; [by apply elem_of_map_to_list, list_elem_of_In|]. split; [by apply String.eqb_eq|done].
Qed.
Section Walk.
Context (d : RDB) (m : gmap Z (gset Z)) (from floor q : Z) (rq : Release) (B : gset Z).
Context (Hok : rings_ok d m) (Hq : releases d !! q = Some rq) (Hc : rl_checkpoint rq = true) (Hs : rl_seq rq = floor) (HB : m !! from = Some B).
Lemma delta_kept id r p S : releases d !! id = Some r -> rl_ring r = rl_ring rq -> floor < rl_seq r -> rl_parent r = Some p -> m !! p = Some S ->
  m !! id = Some (apply_delta (delta_of d id) S) /\ effective (delta_of d id) S.
Proof.
  intros Hr Hring Hlt Hp HS. unfold delta_of. destruct (release_deltas d !! id) as [x|] eqn:Ex; [by eapply (ok_delta _ _ Hok)|].
  pose proof (ok_pruned _ _ Hok _ _ _ _ Hr Ex Hq ltac:(congruence) Hc). lia.
Qed.
Lemma span_differs fuel : forall id r, releases d !! id = Some r -> rl_ring r = rl_ring rq ->
  (l ← last (span fuel d from floor id); rl_parent l.2) = Some from -> Forall (fun r => floor < rl_seq r.2) (span fuel d from floor id) ->
  exists S, m !! id = Some S /\ differs B S (net_of d (span fuel d from floor id)).
Proof.
  induction fuel as [|n IH]; intros id r Hr Hring; cbn [span]; rewrite Hr.
  all: assert (Hone : rl_parent r = Some from -> floor < rl_seq r -> exists S, m !! id = Some S /\ differs B S (net_of d [(id, r)]))
    by (intros Hp Hlt; destruct (delta_kept _ _ _ _ Hr Hring Hlt Hp HB) as [Hm He]; eexists; split; [exact Hm|];
        rewrite net_of_cons; apply release_fold; [apply differs_none|done]).
  - intros Hp [Hlt _]%Forall_cons. by apply Hone.
  - destruct (rl_parent r) as [p|] eqn:Ep; [|by cbn; rewrite Ep]. destruct (negb (p =? from) && (floor <? rl_seq r)) eqn:E.
    + pose proof (ok_parent _ _ Hok _ _ Hr) as Hp. rewrite Ep in Hp. destruct Hp as (rp & Hrp & Hrr & _). intros Hl [Hlt Hall]%Forall_cons.
      destruct (IH p rp) as (S & HS & Hd); [done|congruence| |done|].
      * destruct n; cbn [span] in *; rewrite Hrp in *; exact Hl.
      * destruct (delta_kept _ _ _ _ Hr Hring Hlt Ep HS) as [Hm He]. eexists. split; [exact Hm|]. rewrite net_of_cons. by apply release_fold.
    + cbn. rewrite Ep. intros [= ->] [Hlt _]%Forall_cons. by apply Hone.
Qed.
End Walk.
Lemma net_rows l : forall net : gmap Z DeltaOp, dom (fold_left net_step l net) ⊆ dom net ∪ list_to_set (map fst l).
Proof.
  induction l as [|x l IH]; intros net; cbn; [set_solver|]. etrans; [apply IH|]. unfold net_step.
  destruct (net !! x.1); [case_bool_decide|]; rewrite ?dom_insert_L, ?dom_delete_L; set_solver.
Qed.
Lemma side_differs d arch B S net (o : DeltaOp) : differs B S net ->
  side d arch net o = listed_side d arch (match o with op_add => S ∖ B | op_remove => B ∖ S end).
Proof.
  intros H. unfold side, listed_side, joined. apply map_eq. intros p. apply option_eq. intros row. rewrite !map_lookup_filter_Some. cbn [fst snd].
  rewrite (H p). destruct o; repeat case_decide; set_solver.
Qed.


(** Edge's first release against one that withdrew a package and took another in. *)
#[local] Open Scope string_scope.
Definition diff_run : list (RDB -> ROp) :=
  (three_packages ++ [create (adding "edge" ["aa"]); create (adding "edge" ["bb"]); create (dropping "edge" ["felix"]); create (adding "edge" ["cc"])])%list.
Definition w_diff : World := runs diff_run world0.
Definition diff_of (d : RDB) (f t : Z) : option (list Z * list Z) :=
  rf ← releases d !! f; rt ← releases d !! t; x ← diffFromDeltas d (Some (f, rf)) (t, rt) None;
  Some (map fst (map_to_list (sd_before x)), map fst (map_to_list (sd_after x))).
Lemma diff_rows : diff_of (db w_diff) 2 4 = Some ([1], [3]).
Proof. vm_compute. reflexivity. Qed.
