(* ===== verification/Governance.v ===== *)
(** * The governance file (worker/src/governance.ts)

    factory/MAINTAINERS.toml on main, read and applied: the maintainers' list, the [solo] table, everyone's role, the hosts' step.
    The TOML reader is a library: [parseGovernance], [parseSolo] and [syncGovernance] take what it answered. localeCompare's
    collation is the argument [collate]. *)
From S2P Require Import Prelude JsTime Json HostDoor HostStops.
Local Open Scope string_scope.
Local Open Scope Z_scope.

(** ** The file read *)

Record Solo := { so_maintainer : string; so_since : string; so_reason : string }.
#[export] Instance Solo_eq_dec : EqDecision Solo.
Proof. solve_decision. Defined.
Definition SOLO_REASON_MAX : Z := 300.

(** LOGIN *)
Definition is_alnum (c : ascii) : bool := is_digit c || is_upper c || is_lower c.
Definition is_login (s : string) : bool :=
  match s with
  | String c r => is_alnum c && str_forallb (fun c => is_alnum c || Ascii.eqb c "-") r && (String.length r <=? 38)%nat
  | EmptyString => false
  end.
Definition date_shape (v : string) : bool :=
  match String.list_ascii_of_string v with
  | [a; b; c; d; e; f; g; h; i; j] => forallb is_digit [a; b; c; d; f; g; i; j] && Ascii.eqb e "-" && Ascii.eqb h "-"
  | _ => false
  end.
Definition isDate (v : string) : bool :=
  date_shape v && match date_parse (v +:+ "T00:00:00Z") with Some t => String.eqb (str_take 10 (iso t)) v | None => false end.
(** NOT_ONE_LINE on the bytes of a text: control characters. *)
Definition one_line (s : string) : bool := str_forallb (fun c => negb ((N_of_ascii c <? 32)%N || (N_of_ascii c =? 127)%N)) s.

Inductive GovError :=
| NoList | BadList | NobodyListed
| SoloNotATable | SoloUnknownField | SoloAList | SoloNotALogin | SoloNotListed | SoloBadDate | SoloNoReason | SoloReasonTooLong.

(** [Object.values]: an object's or an array's. *)
Definition values_of (v : option json) : list json :=
  match v with Some (JObj o) => map snd o | Some (JArr l) => l | _ => [] end.
(** One list of logins: None when it is no list of them. *)
Fixpoint logins_of (l : list json) : option (list string) :=
  match l with
  | [] => Some []
  | JStr s :: r => if is_login s then r ← logins_of r; Some (s :: r) else None
  | _ :: _ => None
  end.
Fixpoint lists_of (ls : list (option json)) : option (list string) :=
  match ls with
  | [] => Some []
  | Some (JArr l) :: r => a ← logins_of l; b ← lists_of r; Some (a ++ b)%list
  | _ :: _ => None
  end.
Definition parseGovernance (collate : string -> string -> Z) (doc : json) : GovError + list string :=
  let ls := match field (Some doc) "maintainers" with
            | Some m => [Some m]
            | None => map (fun g => field (Some g) "maintainers") (values_of (field (Some doc) "groups"))
            end in
  match ls with
  | [] => inl NoList
  | _ => match lists_of ls with
         | None => inl BadList
         | Some [] => inl NobodyListed
         | Some l => inr (sort_by collate (dedup l))
         end
  end.
Definition SOLO_FIELDS : list string := ["maintainer"; "since"; "reason"].
Definition parseSolo (doc : json) (maintainers : list string) : GovError + option Solo :=
  match field (Some doc) "solo" with
  | None => inr None
  | Some (JObj t) =>
      if existsb (fun p => negb (str_in p.1 SOLO_FIELDS)) t then inl SoloUnknownField
      else match assoc "maintainer" t with
      | Some (JArr _) => inl SoloAList
      | Some (JStr m) =>
          if negb (is_login m) then inl SoloNotALogin
          else if negb (str_in m maintainers) then inl SoloNotListed
          else match assoc "since" t with
          | Some (JStr since) =>
              if negb (isDate since) then inl SoloBadDate
              else
                let raw := default "" (as_str (assoc "reason" t)) in
                if negb (truthy (trim raw)) then inl SoloNoReason
                else if negb (one_line raw) || (SOLO_REASON_MAX <? Z.of_nat (String.length (trim raw))) then inl SoloReasonTooLong
                else inr (Some {| so_maintainer := m; so_since := since; so_reason := trim raw |})
          | _ => inl SoloBadDate
          end
      | _ => inl SoloNotALogin
      end
  | Some _ => inl SoloNotATable
  end.

(** What a decision under the exception carries. *)
Definition SoloMark : Type := string * string.
Definition soloMark (s : Solo) : SoloMark := (so_maintainer s, so_since s).
Definition soloMarkOf (v : option json) : option SoloMark :=
  match field v "maintainer", field v "since" with Some (JStr m), Some (JStr s) => Some (m, s) | _, _ => None end.

(** ** The file applied *)

(** The tables the sync writes: the hosts' with the list ([listed]), the exception, the hash kept, the contributors' roles, the
    journal's `role` lines. *)
Inductive RoleLine := RoleIs (login : string) (maintainer : bool) | SoloIs (now was : option Solo).
Record GDB := { g_hosts : HDB; g_solo : option Solo; g_hash : option string; g_roles : list (string * bool); g_lines : list RoleLine }.
Definition set_ghosts (h : HDB) (g : GDB) : GDB :=
  {| g_hosts := h; g_solo := g_solo g; g_hash := g_hash g; g_roles := g_roles g; g_lines := g_lines g |}.
Definition add_line (l : RoleLine) (g : GDB) : GDB :=
  {| g_hosts := g_hosts g; g_solo := g_solo g; g_hash := g_hash g; g_roles := g_roles g; g_lines := (g_lines g ++ [l])%list |}.

Definition exception_of (maintainers : list string) (solo : option Solo) : option Solo :=
  match solo with Some s => if str_in (so_maintainer s) maintainers then Some s else None | None => None end.
(** The batch: the list, the exception, the hash. *)
Definition apply_batch (maintainers : list string) (hash : string) (exception : option Solo) (g : GDB) : GDB :=
  {| g_hosts := apply_list maintainers (g_hosts g); g_solo := exception; g_hash := Some hash; g_roles := g_roles g; g_lines := g_lines g |}.
(** One contributor's role recomputed, when it changed, with its line. *)
Definition give_role (maintainers : list string) (g : GDB) (p : string * bool) : GDB :=
  let role := str_in p.1 maintainers in
  if Bool.eqb p.2 role then g
  else add_line (RoleIs p.1 role)
         {| g_hosts := g_hosts g; g_solo := g_solo g; g_hash := g_hash g;
            g_roles := map (fun q => if String.eqb q.1 p.1 then (q.1, role) else q) (g_roles g); g_lines := g_lines g |}.
(** soloLine: the exception taken up, changed or ended. *)
Definition soloLine (was now : option Solo) : option RoleLine :=
  if bool_decide (was = now) then None else Some (SoloIs now was).
Definition applyGovernance (at_ : Z) (maintainers : list string) (hash : string) (solo : option Solo) (g : GDB) : GDB :=
  let exception := exception_of maintainers solo in
  let was := g_solo g in
  let g1 := apply_batch maintainers hash exception g in
  let g2 := fold_left (give_role maintainers) (g_roles g1) g1 in
  let g3 := match soloLine was exception with Some l => add_line l g2 | None => g2 end in
  set_ghosts (stopHostsOfRemovedOwners at_ (g_hosts g3)) g3.

(** What the fetch brought: an HTTP refusal, or the text's hash (what the brain reads of it in front) and what TOML says of it. *)
Inductive Fetched := NotFetched | File (hash : string) (doc : option json).
Inductive Synced := SyncThrew | Unchanged | Applied (solo_refused : option GovError).
(** The hash kept says a text the brain applied: the hosts' step runs all the same. *)
Definition syncGovernance (collate : string -> string -> Z) (at_ : Z) (f : Fetched) (g : GDB) : GDB * Synced :=
  match f with
  | NotFetched => (g, SyncThrew)
  | File hash doc =>
      if ostr_eqb (g_hash g) (Some hash) then (set_ghosts (stopHostsOfRemovedOwners at_ (g_hosts g)) g, Unchanged)
      else match doc with
      | None => (g, SyncThrew)
      | Some doc =>
          match parseGovernance collate doc with
          | inl _ => (g, SyncThrew)
          | inr maintainers =>
              let '(solo, refused) := match parseSolo doc maintainers with inl e => (None, Some e) | inr s => (s, None) end in
              (applyGovernance at_ maintainers hash solo g, Applied refused)
          end
      end
  end.
(** A sign-in: the role the list gives, on the contributor's row. *)
Definition signIn (login : string) (g : GDB) : GDB :=
  let role := roleFor (g_hosts g) login in
  {| g_hosts := g_hosts g; g_solo := g_solo g; g_hash := g_hash g;
     g_roles := ((login, role) :: List.filter (fun q => negb (String.eqb q.1 login)) (g_roles g))%list; g_lines := g_lines g |}.
