(* ===== verification/GovernanceFacts.v ===== *)
(** What the governance file's sync keeps (Governance.v): roles, the exception and the hosts follow the list. *)
From S2P Require Import Prelude JsTime Json Tasks OrderDoor HostDoor HostStops HostDoorFacts HostRunFacts Governance.
Local Open Scope string_scope.
Local Open Scope Z_scope.

(** ** A file that reads *)

Lemma logins_of_login l out x : logins_of l = Some out -> In x out -> is_login x = true.
Proof.
  revert out. induction l as [|v l IH]; intros out; [by intros [= <-]|]. destruct v as [| | |s| |]; try done. cbn.
  destruct (is_login s) eqn:E; [|done]. destruct (logins_of l) as [r|]; [|done]. cbn. intros [= <-] [<-|H]; [done|by eapply IH].
Qed.
Lemma lists_of_login ls out x : lists_of ls = Some out -> In x out -> is_login x = true.
Proof.
  revert out. induction ls as [|v ls IH]; intros out; [by intros [= <-]|]. destruct v as [[| | | |l|]|]; try done. cbn.
  destruct (logins_of l) as [a|] eqn:E; [|done]. cbn. destruct (lists_of ls) as [b|]; [|done]. cbn. intros [= <-] [H|H]%in_app_iff; [by eapply logins_of_login|by eapply IH].
Qed.
Lemma dedup_acc_NoDup l : forall seen, NoDup (dedup_acc seen l).
Proof.
  induction l as [|x l IH]; intros seen; cbn; [constructor|]. destruct (str_in x seen); [apply IH|]. constructor; [|apply IH].
  intros H%list_elem_of_In%dedup_acc_In. destruct H as [_ H]. apply H. by left.
Qed.
Lemma governance_logins collate doc l : parseGovernance collate doc = inr l -> l <> [] /\ NoDup l /\ forall x, In x l -> is_login x = true.
Proof.
  unfold parseGovernance. set (ls := match field (Some doc) "maintainers" with Some m => _ | None => _ end). intros H.
  destruct ls as [|v ls']; [done|]. destruct (lists_of (v :: ls')) as [[|x out]|] eqn:E; [done| |done]. assert (l = sort_by collate (dedup (x :: out))) as -> by congruence. clear H.
  assert (Hin : forall y, In y (sort_by collate (dedup (x :: out))) <-> In y (x :: out)) by (intros y; by rewrite sort_by_In, dedup_In). split_and!.
  - intros H. assert (In x []) as []. rewrite <- H. apply Hin. by left.
  - rewrite sort_by_perm. apply dedup_acc_NoDup.
  - intros y Hy%Hin. by eapply lists_of_login.
Qed.
(** A table that reads names one of the list, since a day, for a reason of one line. *)
Definition good_solo (maintainers : list string) (s : Solo) : Prop :=
  In (so_maintainer s) maintainers /\ isDate (so_since s) = true /\ so_reason s <> "" /\ Z.of_nat (String.length (so_reason s)) <= SOLO_REASON_MAX.
Lemma solo_good doc l s : parseSolo doc l = inr (Some s) -> good_solo l s.
Proof.
  unfold parseSolo. destruct (field _ _) as [[| | | | |t]|]; try done. destruct (existsb _ t); [done|].
  destruct (assoc "maintainer" t) as [[| | |m| |]|]; try done. destruct (is_login m); [|done]. cbn [negb]. destruct (str_in m l) eqn:El; [|done]. cbn [negb].
  destruct (assoc "since" t) as [[| | |since| |]|]; try done. destruct (isDate since) eqn:Ed; [|done]. cbn [negb].
  destruct (truthy (trim _)) eqn:Et; [|done]. cbn [negb]. destruct (one_line _) eqn:Eo; [|done]. cbn [negb orb].
  destruct (SOLO_REASON_MAX <? _) eqn:Er; [done|]. intros [= <-]. cbn. split_and!; [by apply str_in_In|done| |cbn; lia].
  cbn. intros E. rewrite E in Et. done.
Qed.

(** ** What a sync keeps *)

Definition roles_follow (g : GDB) : Prop := forall p, In p (g_roles g) -> p.2 = roleFor (g_hosts g) p.1.
(** Nobody's host whose owner the list does not resolve to claims on. *)
Definition hosts_follow (d : HDB) : Prop := forall id h, hosts d !! id = Some h -> unlisted d h = false.
Definition solo_follows (g : GDB) : Prop := forall s, g_solo g = Some s -> good_solo (listed (g_hosts g)) s.

Lemma give_role_fixed ms g p : g_hosts (give_role ms g p) = g_hosts g /\ g_solo (give_role ms g p) = g_solo g /\ g_hash (give_role ms g p) = g_hash g.
Proof. unfold give_role. by destruct (Bool.eqb _ _). Qed.
Lemma give_roles_fixed ms l : forall g, let g' := fold_left (give_role ms) l g in g_hosts g' = g_hosts g /\ g_solo g' = g_solo g /\ g_hash g' = g_hash g.
Proof.
  induction l as [|p l IH]; intros g; [done|]. cbn. destruct (IH (give_role ms g p)) as (H1 & H2 & H3). destruct (give_role_fixed ms g p) as (E1 & E2 & E3).
  split_and!; congruence.
Qed.
Lemma give_roles_given ms l : forall g, (forall q, In q (g_roles g) -> q.2 = str_in q.1 ms \/ In q l) ->
  forall q, In q (g_roles (fold_left (give_role ms) l g)) -> q.2 = str_in q.1 ms.
Proof.
  induction l as [|p l IH]; intros g H; cbn; [intros q Hq; by destruct (H q Hq)|]. apply IH. unfold give_role. destruct (Bool.eqb p.2 _) eqn:E.
  - apply eqb_prop in E. intros q Hq. destruct (H q Hq) as [|[<-|]]; [by left|by left|by right].
  - cbn [g_roles add_line]. intros q Hq. apply in_map_iff in Hq as (q0 & <- & Hq0). destruct (String.eqb_spec q0.1 p.1) as [Ep|Hne]; [left; cbn; by rewrite Ep|].
    destruct (H q0 Hq0) as [|[->|]]; [by left|done|by right].
Qed.
Lemma listed_after ms d x : In x (listed (apply_list ms d)) <-> In x ms.
Proof.
  unfold apply_list. set (kept := List.filter _ _). change (listed (set_listed ?l d)) with l. rewrite in_app_iff, filter_In, dedup_In. split.
  - intros [H|[H _]]; [|done]. apply filter_In in H as [_ H]. by apply str_in_In.
  - intros H. destruct (str_in x kept) eqn:E; [left; by apply str_in_In|right]. done.
Qed.
Lemma roleFor_after ms d login : roleFor (apply_list ms d) login = str_in login ms.
Proof. apply eq_true_iff_eq. unfold roleFor. rewrite !str_in_In. apply listed_after. Qed.
Lemma lists_of_lines {B} (f : B -> HLine) l : forall d, let d' := fold_left (fun d p => journal_when true (f p) d) l d in
  hosts d' = hosts d /\ listed d' = listed d /\ ids d' = ids d.
Proof. induction l as [|p l IH]; intros d; [done|]. cbn. apply (IH (journal_when true (f p) d)). Qed.
Lemma stopped_lists at_ d : let d' := stopHostsOfRemovedOwners at_ d in
  hosts d' = hosts (map_hosts (fun _ => unlisted d) (with_life (removed at_)) d) /\ listed d' = listed d /\ ids d' = ids d.
Proof. apply (lists_of_lines (fun p : string * HostR => {| hl_about := p.1; hl_action := "owner_removed"; hl_by := ""; hl_status := "warn" |})). Qed.
Lemma stopped_listed at_ d : listed (stopHostsOfRemovedOwners at_ d) = listed d.
Proof. apply stopped_lists. Qed.
Lemma stopped_follow at_ d : hosts_follow (stopHostsOfRemovedOwners at_ d).
Proof.
  destruct (stopped_lists at_ d) as (Eh & El & Ei). intros id h. rewrite Eh, map_hosts_at. destruct (hosts d !! id) as [h0|]; [|done]. cbn. intros [= <-].
  assert (Hu : forall h, unlisted (stopHostsOfRemovedOwners at_ d) h = unlisted d h) by (intros h1; unfold unlisted, owner_listed; by rewrite El, Ei).
  rewrite Hu. destruct (unlisted d h0) eqn:E; [|done]. unfold unlisted. cbn. by rewrite andb_false_r.
Qed.
Lemma stopped_alike_listed at_ d login : roleFor (stopHostsOfRemovedOwners at_ d) login = roleFor d login.
Proof. unfold roleFor. by rewrite stopped_listed. Qed.

Inductive GOp := OpSync (at_ : Z) (f : Fetched) | OpSignIn (login : string).
Definition gstep (collate : string -> string -> Z) (o : GOp) (g : GDB) : GDB :=
  match o with OpSync at_ f => (syncGovernance collate at_ f g).1 | OpSignIn login => signIn login g end.
Definition follows (g : GDB) : Prop := roles_follow g /\ solo_follows g.
Lemma apply_follows at_ ms hash solo g : (forall s, solo = Some s -> good_solo ms s) -> follows (applyGovernance at_ ms hash solo g).
Proof.
  intros Hs. unfold applyGovernance. cbv zeta. set (g1 := apply_batch _ _ _ g). set (g2 := fold_left _ _ g1).
  destruct (give_roles_fixed ms (g_roles g1) g1) as (E1 & E2 & _). fold g2 in E1, E2.
  set (g3 := match soloLine _ _ with Some l => add_line l g2 | None => g2 end).
  assert (E3 : g_hosts g3 = g_hosts g2 /\ g_solo g3 = g_solo g2 /\ g_roles g3 = g_roles g2) by (unfold g3; by destruct (soloLine _ _)).
  destruct E3 as (F1 & F2 & F3). split.
  - intros p Hp. cbn [g_roles set_ghosts g_hosts] in *. rewrite F3 in Hp. rewrite stopped_alike_listed, F1, E1. change (g_hosts g1) with (apply_list ms (g_hosts g)).
    rewrite roleFor_after. eapply give_roles_given; [|exact Hp]. intros q Hq. by right.
  - intros s. cbn [g_solo set_ghosts g_hosts]. rewrite F2, E2. change (g_solo g1) with (exception_of ms solo). unfold exception_of.
    destruct solo as [s0|]; [|done]. destruct (str_in _ ms); [|done]. intros [= <-]. destruct (Hs _ eq_refl) as (H1 & H2).
    split; [|done]. rewrite stopped_listed, F1, E1. by apply listed_after.
Qed.
Lemma gstep_follows collate o g : follows g -> follows (gstep collate o g).
Proof.
  intros [Hr Hs]. destruct o as [at_ f|login]; cbn.
  - destruct f as [|hash doc]; [done|]. cbn. destruct (ostr_eqb _ _).
    { split; cbn; [intros p Hp; cbn; rewrite stopped_alike_listed; by apply Hr|intros s E; cbn; rewrite stopped_listed; by apply Hs]. }
    destruct doc as [doc|]; [|done]. destruct (parseGovernance collate doc) as [|ms] eqn:Eg; [done|].
    destruct (parseSolo doc ms) as [e|s] eqn:Es; cbn; apply apply_follows; [done|]. intros s0 ->. by eapply solo_good.
  - split; [|done]. intros p [<-|Hp]; [done|]. apply filter_In in Hp as [Hp _]. by apply Hr.
Qed.
Definition gruns (collate : string -> string -> Z) (l : list GOp) (g : GDB) : GDB := fold_left (fun g o => gstep collate o g) l g.
Lemma gruns_follows collate l g : follows g -> follows (gruns collate l g).
Proof. revert g. induction l as [|o l IH]; intros g H; [done|]. cbn. by apply IH, gstep_follows. Qed.


(** Ben signs in before any file, then the first file lists Ana alone, then one lists both with Ana's exception. *)
Definition by_text (a b : string) : Z := if String.eqb a b then 0 else if str_ltb a b then -1 else 1.
Definition the_file (l : list string) (solo : list (string * json)) : json := JObj (("maintainers", JArr (map JStr l)) :: solo).
Definition ana_solo : json := JObj [("maintainer", JStr "ana"); ("since", JStr "2026-10-06"); ("reason", JStr " one host ")].
Definition g_start : GDB := {| g_hosts := no_hosts; g_solo := None; g_hash := None; g_roles := []; g_lines := [] |}.
Definition first_run : list GOp := [OpSignIn "ben"; OpSync 5 (File "h1" (Some (the_file ["ana"] []))); OpSignIn "ana"].
