(* ===== verification/Review.v ===== *)
(** * Review: what a package's builds say and who may decide (worker/src/routes/review.ts)

    A review is of a package: every architecture its contributor built, built again by the project, decided once. This file has
    the tables a decision reads, the reads with their bounds (targets.ts packageRows, routes/story.ts storyRows and chains), the
    facts one row of the page is decided on (packageFacts, factsOf), the one table of decisions, and the package's place in the
    queue. The doors that write are in ReviewDoors. *)
From S2P Require Import Prelude JsTime Json Tasks Targets Rings Governance.
Local Open Scope string_scope.
Local Open Scope Z_scope.

(** ** The tables *)

(** The keys of a task's params the review reads or writes. *)
Record RParams := {
  rp_review : option Z; rp_by : option string; rp_agent : option string; rp_built_with : option string;
  rp_task : option Z; rp_review_id : option Z; rp_solo : option SoloMark; rp_any_host : option string;
  rp_name : option string; rp_owner : option string }.
Definition no_params : RParams :=
  {| rp_review := None; rp_by := None; rp_agent := None; rp_built_with := None; rp_task := None; rp_review_id := None; rp_solo := None; rp_any_host := None;
     rp_name := None; rp_owner := None |}.
Record RTask := {
  rt_name : string; rt_arch : string; rt_version : option string; rt_kind : string; rt_trust : string; rt_publish : Z;
  rt_owner : option string; rt_status : Status; rt_error : option string; rt_params : RParams;
  rt_pinned : option string; rt_lease_owner : option string }.
(** A row of [approvals]: one build a review decided. *)
Record AppRow := {
  ap_task : Z; ap_name : string; ap_arch : string; ap_version : option string; ap_decision : string; ap_by : string;
  ap_note : option string; ap_rebuild : option Z; ap_review : option Z; ap_agent : option string; ap_created : Z;
  ap_withdrawn : option (string * string) }.
Record RReview := {
  rv_name : string; rv_version : option string; rv_decision : string; rv_by : string; rv_note : option string; rv_arches : list string;
  rv_not_supported : NotShipping; rv_released : bool; rv_changes : bool; rv_only_reason : option string; rv_not_shipping : NotShipping;
  rv_solo : option string; rv_withdrawn : option (string * string) }.
Record Registration := {
  rg_owner : string; rg_status : string; rg_arches : list string; rg_closed_through : Z; rg_freed_by : option Z;
  rg_targets : list (string * Target); rg_blocked : option string }.
(** A row of [build_workers] as a claim reads it. *)
Record RWorker := {
  rw_id : string; rw_arch : string; rw_trust : string; rw_revoked : bool; rw_drained : bool; rw_owner : option string;
  rw_kinds : option (list string); rw_agent : option string; rw_agent_status : option string; rw_last_seen : Z; rw_busy : bool }.
(** A row of [contributors]: the role, and who blocked them. *)
Record Person := { pe_role : string; pe_blocked : option string }.
(** [people] is [contributors], [upkeep] is [package_maintainers]: the maintainer of record, and the exception they adopted under. *)
Record VDB := {
  vtasks : gmap Z RTask; next_task : Z; approvals : gmap Z AppRow; next_app : Z; reviews : gmap Z RReview; next_rev : Z;
  registrations : gmap string Registration; packages_in : gmap Z (list string); vworkers : list RWorker; solo_row : option Solo; pool : RDB;
  people : gmap string Person; upkeep : gmap string (string * option string) }.

(** ** The reads *)

(** A decision that stands: approved and not taken back. *)
Definition app_stands (a : AppRow) : bool :=
  String.eqb (ap_decision a) "approved" && match ap_withdrawn a with None => true | Some _ => false end.
Definition is_build (t : RTask) : bool := String.eqb (rt_kind t) "build".
Definition from_project (t : RTask) : bool := String.eqb (rt_trust t) "project".
Definition from_contributor (t : RTask) : bool := String.eqb (rt_trust t) "community".
Definition id_desc {A} (x y : Z * A) : Z := y.1 - x.1.
Definition tasks_where (d : VDB) (f : RTask -> bool) : list (Z * RTask) :=
  sort_by id_desc (List.filter (fun p => f p.2) (map_to_list (vtasks d))).

(** A build as the targets' rule reads it, with its version. *)
Record VBuild := { vb : TargetBuild; vb_version : option string }.
Definition build_of (p : Z * RTask) : VBuild :=
  {| vb := {| tb_id := p.1; tb_arch := rt_arch p.2; tb_status := rt_status p.2; tb_trust := rt_trust p.2; tb_publish := rt_publish p.2;
              tb_review := rp_review (rt_params p.2) |};
     vb_version := rt_version p.2 |}.
Record VDecision := { vd : TargetDecision; vd_version : option string }.
Definition decision_of (a : AppRow) : VDecision :=
  {| vd := {| td_arch := ap_arch a; td_task := ap_task a; td_rebuild := ap_rebuild a; td_decision := ap_decision a; td_withdrawn := fst <$> ap_withdrawn a |};
     vd_version := ap_version a |}.
Definition decided_before (x y : Z * AppRow) : Z := if ap_created y.2 =? ap_created x.2 then y.1 - x.1 else ap_created y.2 - ap_created x.2.
(** DECISIONS_OF_SQL: the name's newest forty. *)
Definition decision_rows (d : VDB) (name : string) : list (Z * AppRow) :=
  take 40 (sort_by decided_before (List.filter (fun p => String.eqb (ap_name p.2) name) (map_to_list (approvals d)))).
Definition build_rows (d : VDB) (name arch : string) : list (Z * RTask) :=
  take 40 (tasks_where d (fun t => String.eqb (rt_name t) name && String.eqb (rt_arch t) arch && is_build t)).

Record PackageRows := {
  pk_arches : list string; pk_closed : Z; pk_builds : list VBuild; pk_decisions : list VDecision; pk_not_shipping : NotShipping }.
Definition named_builds (d : VDB) (have : list Z) (ds : list (Z * AppRow)) : list (Z * RTask) :=
  let ids := ds ≫= (fun a => ap_task a.2 :: match ap_rebuild a.2 with Some r => [r] | None => [] end) in
  List.filter (fun p => is_build p.2 && existsb (Z.eqb p.1) ids && negb (existsb (Z.eqb p.1) have)) (map_to_list (vtasks d)).
(** What the newest standing approval set aside. *)
Definition set_aside_by (d : VDB) (ds : list (Z * AppRow)) : NotShipping :=
  match List.find (fun a => app_stands a.2) ds with
  | Some a => match r ← ap_review a.2; reviews d !! r with Some v => rv_not_shipping v | None => [] end
  | None => []
  end.
Definition packageRows (d : VDB) (name : string) (unregistered : bool) : option PackageRows :=
  match registrations d !! name, unregistered with
  | None, false => None
  | pkg, _ =>
      let rows := REPO_ARCHES ≫= build_rows d name in
      let ds := decision_rows d name in
      let more := named_builds d (map fst rows) ds in
      Some {| pk_arches := match pkg with Some g => rg_arches g | None => [] end;
              pk_closed := match pkg with Some g => rg_closed_through g | None => 0 end;
              pk_builds := map build_of (rows ++ more); pk_decisions := map (fun p => decision_of p.2) ds;
              pk_not_shipping := set_aside_by d ds |}
  end.
Definition targets_of (p : PackageRows) : list (string * Target) :=
  targetsOf (pk_arches p) (map vb (pk_builds p)) (map vd (pk_decisions p)) (pk_closed p) (pk_not_shipping p).
Definition with_targets (t : list (string * Target)) (g : Registration) : Registration :=
  {| rg_owner := rg_owner g; rg_status := rg_status g; rg_arches := rg_arches g; rg_closed_through := rg_closed_through g;
     rg_freed_by := rg_freed_by g; rg_targets := t; rg_blocked := rg_blocked g |}.
Definition set_registrations (m : gmap string Registration) (d : VDB) : VDB :=
  {| vtasks := vtasks d; next_task := next_task d; approvals := approvals d; next_app := next_app d; reviews := reviews d; next_rev := next_rev d;
     registrations := m; packages_in := packages_in d; vworkers := vworkers d; solo_row := solo_row d; pool := pool d;
     people := people d; upkeep := upkeep d |}.
(** The targets of a registered name, and the column settled to them. *)
Definition targets_now (d : VDB) (name : string) : option (list (string * Target)) := targets_of <$> packageRows d name false.
Definition settleTargets (name : string) (d : VDB) : VDB :=
  match targets_now d name with Some t => set_registrations (alter (with_targets t) name (registrations d)) d | None => d end.

(** *** The story's chains *)

Record Chain := {
  ch_contributor : option (Z * RTask); ch_project : option (Z * RTask); ch_beside : list (option Z); ch_approval : option (Z * AppRow) }.
Definition story_tasks (d : VDB) (name : string) : list (Z * RTask) :=
  take 120 (tasks_where d (fun t => String.eqb (rt_name t) name && str_in (rt_kind t) ["build"; "audit"; "trial"; "publish"])).
Definition story_approvals (d : VDB) (name : string) : list (Z * AppRow) :=
  take 40 (sort_by id_desc (List.filter (fun p => String.eqb (ap_name p.2) name) (map_to_list (approvals d)))).
Definition opt_is (id : Z) (o : option Z) : bool := oz_eqb o (Some id).
Definition of_kind (ts : list (Z * RTask)) (kind : string) (id : Z) : option Z :=
  fst <$> List.find (fun t => String.eqb (rt_kind t.2) kind && opt_is id (rp_task (rt_params t.2))) ts.
Definition approval_of (apps : list (Z * AppRow)) (ids : list Z) : option (Z * AppRow) :=
  let mine := List.filter (fun a => existsb (Z.eqb (ap_task a.2)) ids || match ap_rebuild a.2 with Some r => existsb (Z.eqb r) ids | None => false end) apps in
  match List.find (fun a => app_stands a.2) mine with
  | Some a => Some a
  | None => List.find (fun a => match ap_withdrawn a.2 with None => true | Some _ => false end) mine
  end.
Definition make_chain (ts : list (Z * RTask)) (apps : list (Z * AppRow)) (c p : option (Z * RTask)) : Chain :=
  let about kind (o : option (Z * RTask)) := t ← o; of_kind ts kind t.1 in
  {| ch_contributor := c; ch_project := p;
     ch_beside := [about "audit" c; about "audit" p; about "trial" p; match p with Some _ => about "publish" p | None => about "publish" c end];
     ch_approval := approval_of apps (map fst (option_list c ++ option_list p)) |}.
Definition chains (ts : list (Z * RTask)) (apps : list (Z * AppRow)) : list Chain :=
  let builds := List.filter (fun t => is_build t.2) ts in
  let contributors := List.filter (fun t => from_contributor t.2) builds in
  let projects := List.filter (fun t => from_project t.2) builds in
  let answer (c : Z * RTask) := List.find (fun p : Z * RTask => opt_is c.1 (rp_review (rt_params p.2))) projects in
  let used := map fst (omap answer contributors) in
  (map (fun c => make_chain ts apps (Some c) (answer c)) contributors
   ++ map (fun p => make_chain ts apps None (Some p)) (List.filter (fun p => negb (existsb (Z.eqb p.1) used)) projects))%list.
Definition in_chain (id : Z) (ch : Chain) : bool :=
  existsb (opt_is id) ((fst <$> ch_contributor ch) :: (fst <$> ch_project ch) :: ch_beside ch).
Definition chainOf (l : list Chain) (id : Z) : option Chain := List.find (in_chain id) l.
Definition chain_standing (ch : Chain) : bool := match ch_approval ch with Some a => app_stands a.2 | None => false end.
Definition chains_of (d : VDB) (name : string) : list Chain := chains (story_tasks d name) (story_approvals d name).
Definition standingApproval (d : VDB) (name : string) (id : Z) : option (Z * AppRow) :=
  ch ← chainOf (chains_of d name) id; if chain_standing ch then ch_approval ch else None.

(** ** The package's facts *)

Record Building := { bu_id : Z; bu_arch : string }.
Record Evidence := { ev_id : Z; ev_arch : string; ev_version : option string }.
Record Rebuild := { re_id : Z; re_arch : string; re_status : Status; re_review : Z }.
Record PackageBuilds := { pb_building : list Building; pb_staged : list Evidence; pb_project : list Rebuild }.
Definition vdstands (a : VDecision) : bool := stands (vd a).
Definition newest_build (x y : VBuild) : Z := newest_first (vb x) (vb y).
Definition trusted (who : string) (b : VBuild) : bool := String.eqb (tb_trust (vb b)) who.
Definition waits_or_runs (s : Status) : bool := match s with queued | leased => true | _ => false end.
Definition buildsOfPackage (builds : list VBuild) (ds : list VDecision) : PackageBuilds :=
  let standsOn id := existsb (fun a => vdstands a && (td_task (vd a) =? id)) ds in
  let newest := sort_by newest_build builds in
  let answered b := existsb (fun r => trusted "project" r && opt_is (tb_id (vb b)) (tb_review (vb r)) && standsOn (tb_id (vb r))) newest in
  {| pb_building := map (fun b => {| bu_id := tb_id (vb b); bu_arch := tb_arch (vb b) |})
       (List.filter (fun b => trusted "community" b && waits_or_runs (tb_status (vb b))) newest);
     pb_staged := map (fun b => {| ev_id := tb_id (vb b); ev_arch := tb_arch (vb b); ev_version := vb_version b |})
       (List.filter (fun b => trusted "community" b && is_status staged (tb_status (vb b)) && negb (standsOn (tb_id (vb b))) && negb (answered b)) newest);
     pb_project := omap (fun b =>
       match tb_review (vb b) with
       | Some r => if trusted "project" b && negb (is_status cancelled (tb_status (vb b)))
                   then Some {| re_id := tb_id (vb b); re_arch := tb_arch (vb b); re_status := tb_status (vb b); re_review := r |} else None
       | None => None
       end) newest |}.

(** A standing approval of one architecture, at the version it decided. *)
Record Served := { sv_arch : string; sv_version : option string }.
Definition servedOf (ds : list VDecision) : list Served :=
  map (fun a => {| sv_arch := td_arch (vd a); sv_version := vd_version a |}) (List.filter vdstands ds).
Definition namedOf (arches : list string) : list string := List.filter (fun a => str_in a arches) REPO_ARCHES.
(** The contributor's build an architecture's target stands on. *)
Definition reviewedFrom (x : option Target) (p : PackageBuilds) : option Z :=
  x ← x; task ← tg_task x;
  match tg_status x with
  | built => Some task
  | reviewing | reviewed | not_supported => re_review <$> List.find (fun b => re_id b =? task) (pb_project p)
  | _ => None
  end.
Definition TargetsT : Type := list (string * Target).
(** The other architectures a review of this row covers, each by its contributor's staged build, at the row's version. *)
Definition othersOf (arch : string) (version : option string) (p : PackageBuilds) (targets : TargetsT) : list Evidence :=
  List.filter (fun s => ostr_eqb (ev_version s) version)
    (omap (fun a => from ← reviewedFrom (assoc a targets) p; List.find (fun s => ev_id s =? from) (pb_staged p))
      (List.filter (fun a => negb (String.eqb a arch)) REPO_ARCHES)).

(** What the predicate reads of the row. *)
Record Row := { ro_id : Z; ro_name : string; ro_arch : string; ro_trust : string; ro_status : Status; ro_version : option string }.
Record Missing := { mi_arch : string; mi_status : TargetState; mi_task : option Z; mi_kept : option string }.
Record PackageFacts := {
  pf_building : option Building; pf_rebuilding : option Rebuild; pf_unbuilt : option Evidence;
  pf_superseded : option Target; pf_missing : option Missing; pf_alone : list string }.
Definition project_staged (p : PackageBuilds) (s : Evidence) : bool :=
  existsb (fun b => (re_review b =? ev_id s) && is_status staged (re_status b)) (pb_project p).
Definition project_tried (p : PackageBuilds) (s : Evidence) : bool :=
  existsb (fun b => (re_review b =? ev_id s) && match re_status b with queued | leased | staged | failed => true | _ => false end) (pb_project p).
Definition shipped (t : Row) (srv : list Served) (a : string) : bool :=
  match ro_version t with
  | Some _ => existsb (fun s => String.eqb (sv_arch s) a && ostr_eqb (sv_version s) (ro_version t)) srv
  | None => false
  end.
(** The architectures the package's approval of this row would ship, or that are shipped already. *)
Definition covered (t : Row) (p : PackageBuilds) (targets : TargetsT) (named : list string) (srv : list Served) : list string :=
  (ro_arch t :: map ev_arch (List.filter (project_staged p) (othersOf (ro_arch t) (ro_version t) p targets)) ++ List.filter (shipped t srv) named)%list.
Definition is_current (t : Row) (p : PackageBuilds) (targets : TargetsT) : bool :=
  match assoc (ro_arch t) targets with
  | None => true
  | Some own => if String.eqb (ro_trust t) "project" then opt_is (ro_id t) (tg_task own) else opt_is (ro_id t) (reviewedFrom (Some own) p)
  end.
Definition packageFacts (t : Row) (p : PackageBuilds) (targets : TargetsT) (named : list string) (srv : list Served) : PackageFacts :=
  let others := othersOf (ro_arch t) (ro_version t) p targets in
  {| pf_building := List.find (fun b => negb (bu_id b =? ro_id t)) (pb_building p);
     pf_rebuilding := List.find (fun b => negb (re_id b =? ro_id t) && waits_or_runs (re_status b)) (pb_project p);
     pf_unbuilt := List.find (fun s => negb (project_tried p s)) others;
     pf_superseded := if is_current t p targets then None else assoc (ro_arch t) targets;
     pf_missing := match List.find (fun a => negb (str_in a (covered t p targets named srv))) named with
                   | Some a => Some {| mi_arch := a; mi_status := match assoc a targets with Some x => tg_status x | None => waiting end;
                                          mi_task := x ← assoc a targets; tg_task x;
                                          mi_kept := s ← List.find (fun s => String.eqb (sv_arch s) a) srv; sv_version s |}
                   | None => None
                   end;
     pf_alone := List.filter (fun a => negb (String.eqb a (ro_arch t)) && negb (shipped t srv a)) named |}.

(** The claim, as a release lets it go: the rebuilds queued or running and those staged beside them, their evidence undecided. *)
Definition claimOf (p : PackageBuilds) : list Z :=
  let live b := waits_or_runs (re_status b) in
  if existsb live (pb_project p) then
    map re_id (List.filter (fun b => live b || (is_status staged (re_status b) && existsb (fun s => ev_id s =? re_review b) (pb_staged p))) (pb_project p))
  else [].
(** Who asked for a build: the logins that are some, each once. *)
Definition requestersOf (l : list (option string)) : list string := dedup (omap (fun o => s ← o; if truthy s then Some s else None) l).

(** ** Who may decide *)

Record Reviewer := { rr_login : string; rr_role : string }.
Definition isMaintainer (c : Reviewer) : bool := String.eqb (rr_role c) "maintainer".
Record Facts := {
  fa_package : PackageFacts; fa_owner : option string; fa_requesters : list string; fa_already : bool;
  fa_in_flight : option (Z * Status); fa_standing : bool; fa_packaged : bool; fa_claim : list Z; fa_solo : option Solo; fa_named : list string }.
(** Brought by this person: the registration's owner, or among who asked. *)
Definition brought (login : string) (f : Facts) : bool := ostr_eqb (fa_owner f) (Some login) || str_in login (fa_requesters f).
Definition selfReview (c : option Reviewer) (f : Facts) : option Solo :=
  c ← c; s ← fa_solo f;
  if isMaintainer c && String.eqb (rr_login c) (so_maintainer s) && brought (rr_login c) f then Some s else None.
Definition soloHostOf (requesters : list string) (solo : option Solo) : option string :=
  s ← solo; if str_in (so_maintainer s) requesters then Some (so_maintainer s) else None.

Inductive Decision := approve | reject | build | withdraw | changes | release | approve_only.
Definition DECISIONS : list Decision := [approve; reject; build; withdraw; changes; release; approve_only].
(** Why not, in the order a reader wants the reasons. *)
Inductive Why :=
| sign_in | maintainer_only | not_staged (s : Status) | evidence_only | own_package | already_approved | nothing_packaged
| still_building (b : Building) | not_where_it_stands (x : Target) | still_rebuilding (b : Rebuild) | not_built_again (s : Evidence)
| does_not_ship (m : Missing) | stands_already | projects_own | on_it_already (b : Z * Status) | nothing_standing | nothing_claimed
| names_it_alone | leaves_nothing_out | not_a_copy | not_waiting | solo_can_build | released_already | others_can_build | no_host.
Record Refusal := { rf_status : Z; rf_why : Why }.
(** None is a decision allowed. *)
Definition Verdict : Type := option Refusal.
Definition no (status : Z) (w : Why) : Verdict := Some {| rf_status := status; rf_why := w |}.
Definition no_if (b : bool) (status : Z) (w : Why) : Verdict := if b then no status w else None.
Definition no_for {A} (o : option A) (status : Z) (w : A -> Why) : Verdict := match o with Some x => no status (w x) | None => None end.
(** [a ?? b ?? … ?? allow] *)
Definition first_no (l : list Verdict) : Verdict := foldr (fun v r => match v with Some x => Some x | None => r end) None l.
Definition code_of (w : Why) : option string :=
  match w with sign_in => Some "sign_in" | maintainer_only => Some "maintainer_only" | own_package => Some "conflict_of_interest" | _ => None end.
Definition allowed (v : Verdict) : bool := match v with None => true | Some _ => false end.

Definition person (c : option Reviewer) : Verdict :=
  match c with None => no 401 sign_in | Some c => no_if (negb (isMaintainer c)) 403 maintainer_only end.
Definition decisions (c : option Reviewer) (t : Row) (f : Facts) (w : Decision) : Verdict :=
  let p := fa_package f in
  let notStaged := no_if (negb (is_status staged (ro_status t))) 409 (not_staged (ro_status t)) in
  let owner := match c with
               | Some c' => no_if (brought (rr_login c') f && match selfReview c f with None => true | Some _ => false end) 403 own_package
               | None => None
               end in
  let building := no_for (pf_building p) 409 still_building in
  let superseded := no_for (pf_superseded p) 409 not_where_it_stands in
  let approvable := first_no [person c; notStaged; no_if (negb (String.eqb (ro_trust t) "project")) 409 evidence_only; owner;
                              no_if (fa_already f) 409 already_approved; no_if (negb (fa_packaged f)) 409 nothing_packaged] in
  let others := List.filter (fun a => negb (String.eqb a (ro_arch t))) (fa_named f) in
  match w with
  | approve => first_no [approvable; building; superseded; no_for (pf_rebuilding p) 409 still_rebuilding;
                         no_for (pf_unbuilt p) 409 not_built_again; no_for (pf_missing p) 409 does_not_ship]
  | reject | changes => first_no [person c; notStaged; owner; no_if (fa_standing f) 409 stands_already]
  | build => first_no [person c; notStaged; no_if (negb (String.eqb (ro_trust t) "community")) 409 projects_own; owner;
                       no_for (fa_in_flight f) 409 on_it_already; building; superseded]
  | withdraw => first_no [person c; no_if (negb (fa_standing f)) 404 nothing_standing]
  | release => first_no [person c; owner; no_if (match fa_claim f with [] => true | _ => false end) 409 nothing_claimed]
  | approve_only => first_no [approvable; superseded; no_if (match others with [] => true | _ => false end) 409 names_it_alone;
                              no_if (match pf_alone p with [] => true | _ => false end) 409 leaves_nothing_out]
  end.
(** What a page draws: where the caller may, and the reason where not. *)
Definition can (v : Decision -> Verdict) : list (Decision * option Why) := map (fun w => (w, rf_why <$> v w)) DECISIONS.

(** ** The facts of one task *)

Definition row_of (id : Z) (t : RTask) : Row :=
  {| ro_id := id; ro_name := rt_name t; ro_arch := rt_arch t; ro_trust := rt_trust t; ro_status := rt_status t; ro_version := rt_version t |}.
Definition ownerOf (d : VDB) (name : string) (fallback : option string) : option string :=
  match registrations d !! name with Some g => Some (rg_owner g) | None => fallback end.
Record Read := { rd_facts : Facts; rd_approval : option (Z * AppRow); rd_builds : PackageBuilds; rd_targets : TargetsT; rd_served : list Served }.
Definition no_builds : PackageBuilds := {| pb_building := []; pb_staged := []; pb_project := [] |}.
Definition in_staging (d : VDB) (id : Z) : list string := default [] (packages_in d !! id).
Definition factsOf (d : VDB) (id : Z) (t : RTask) : Read :=
  let from := if from_project t then rp_review (rt_params t) else None in
  let owner := ownerOf d (rt_name t) (rt_owner t) in
  let rows := packageRows d (rt_name t) true in
  let builds := match rows with Some r => buildsOfPackage (pk_builds r) (pk_decisions r) | None => no_builds end in
  let targets := match rows with Some r => targets_of r | None => [] end in
  let named := match rows with Some r => namedOf (pk_arches r) | None => [] end in
  let srv := match rows with Some r => servedOf (pk_decisions r) | None => [] end in
  let asked := f ← from; x ← vtasks d !! f; rt_owner x in
  let approval := standingApproval d (rt_name t) id in
  let pb := List.find (fun b => (re_review b =? id) && in_flight (re_status b)) (pb_project builds) in
  {| rd_facts :=
       {| fa_package := packageFacts (row_of id t) builds targets named srv; fa_owner := owner;
          fa_requesters := requestersOf [owner; rt_owner t; asked];
          fa_already := existsb (fun a => (ap_task a.2 =? id) && app_stands a.2) (map_to_list (approvals d));
          fa_in_flight := (fun b => (re_id b, re_status b)) <$> pb; fa_standing := match approval with Some _ => true | None => false end;
          fa_packaged := negb (from_project t) || match in_staging d id with [] => false | _ => true end;
          fa_claim := claimOf builds; fa_solo := solo_row d; fa_named := named |};
     rd_approval := approval; rd_builds := builds; rd_targets := targets; rd_served := srv |}.

(** ** The package's place in the queue *)

Record QueueRow := { qr_id : Z; qr_kind : string; qr_ready : bool; qr_already : bool; qr_project : option Status; qr_claim : bool }.
Inductive QueueWord := q_ready | q_in_review.
Record QueueState := { qs_lead : option Z; qs_state : option QueueWord }.
(** A row that asks for a maintainer's decision, were it the one that speaks for its package. *)
Definition waitsForMaintainer (lead : bool) (t : QueueRow) : bool :=
  lead && negb (qr_already t)
  && (String.eqb (qr_kind t) "project" || match qr_project t with None => true | Some s => is_status failed s end).
Definition lead_of (rows : list QueueRow) (kind : string) : option QueueRow :=
  List.find (fun t => String.eqb (qr_kind t) kind && qr_ready t && waitsForMaintainer true t) rows.
Definition queueOf (rows : list QueueRow) : QueueState :=
  let lead := match lead_of rows "project" with Some t => Some t | None => lead_of rows "contributor" end in
  {| qs_lead := qr_id <$> lead;
     qs_state := if existsb qr_claim rows then Some q_in_review else match lead with Some _ => Some q_ready | None => None end |}.
Definition queue_row (p : PackageBuilds) (targets : TargetsT) (prior : list (Z * AppRow)) (r : Z * RTask) : QueueRow :=
  let f := packageFacts (row_of r.1 r.2) p targets [] [] in
  let none {A} (o : option A) := match o with None => true | Some _ => false end in
  let pb := if from_contributor r.2 then List.find (fun b => re_review b =? r.1) (pb_project p) else None in
  {| qr_id := r.1; qr_kind := if from_project r.2 then "project" else "contributor";
     qr_ready := none (pf_building f) && none (pf_rebuilding f) && none (pf_superseded f) && negb (from_project r.2 && negb (none (pf_unbuilt f)));
     qr_already := existsb (fun a => String.eqb (ap_arch a.2) (rt_arch r.2) && ostr_eqb (ap_version a.2) (rt_version r.2)
                              && negb (ap_task a.2 =? r.1) && negb (opt_is r.1 (ap_rebuild a.2))) prior;
     qr_project := re_status <$> pb;
     qr_claim := from_project r.2 || match pb with Some b => in_flight (re_status b) | None => false end |}.
(** From the package's story: its newest tasks and approvals, and its stored targets. *)
Definition queueOfStory (ts : list (Z * RTask)) (apps : list (Z * AppRow)) (targets : TargetsT) : option QueueState :=
  let builds := List.filter (fun t => is_build t.2) ts in
  let p := buildsOfPackage (map build_of builds) (map (fun a => decision_of a.2) apps) in
  let standsOn id := existsb (fun a => app_stands a.2 && (ap_task a.2 =? id)) apps in
  let open b := is_status staged (rt_status b.2) && negb (standsOn b.1)
                && negb (existsb (fun r => from_project r.2 && opt_is b.1 (rp_review (rt_params r.2)) && standsOn r.1) builds) in
  match sort_by id_desc (List.filter open builds) with
  | [] => None
  | rows => Some (queueOf (map (queue_row p targets (List.filter (fun a => app_stands a.2) apps)) rows))
  end.
