(* ===== verification/ReviewDoors.v ===== *)
(** * The review's doors (worker/src/routes/review.ts)

    A claim, an approval of the package or of one architecture, a rejection, changes asked for, a release, a withdrawal and a
    release to any host: each a function of what it read ([read], and [later] for what it reads again before it writes) and of
    the tables its statements find. A batch is one step; what follows it in the same handler writes rows no decision is taken
    on. The passkey's answer is an argument, as is the agent a draft came [through]. *)
From S2P Require Import Prelude JsTime Json Tasks Targets Rings Governance Review.
Local Open Scope string_scope.
Local Open Scope Z_scope.

(** ** The tables written *)

Definition set_vtasks (m : gmap Z RTask) (n : Z) (d : VDB) : VDB :=
  {| vtasks := m; next_task := n; approvals := approvals d; next_app := next_app d; reviews := reviews d; next_rev := next_rev d;
     registrations := registrations d; packages_in := packages_in d; vworkers := vworkers d; solo_row := solo_row d; pool := pool d;
     people := people d; upkeep := upkeep d |}.
Definition set_decisions (a : gmap Z AppRow) (na : Z) (r : gmap Z RReview) (nr : Z) (d : VDB) : VDB :=
  {| vtasks := vtasks d; next_task := next_task d; approvals := a; next_app := na; reviews := r; next_rev := nr;
     registrations := registrations d; packages_in := packages_in d; vworkers := vworkers d; solo_row := solo_row d; pool := pool d;
     people := people d; upkeep := upkeep d |}.
Definition set_packages_in (m : gmap Z (list string)) (d : VDB) : VDB :=
  {| vtasks := vtasks d; next_task := next_task d; approvals := approvals d; next_app := next_app d; reviews := reviews d; next_rev := next_rev d;
     registrations := registrations d; packages_in := m; vworkers := vworkers d; solo_row := solo_row d; pool := pool d;
     people := people d; upkeep := upkeep d |}.
Definition set_pool (p : RDB) (d : VDB) : VDB :=
  {| vtasks := vtasks d; next_task := next_task d; approvals := approvals d; next_app := next_app d; reviews := reviews d; next_rev := next_rev d;
     registrations := registrations d; packages_in := packages_in d; vworkers := vworkers d; solo_row := solo_row d; pool := p;
     people := people d; upkeep := upkeep d |}.
Definition with_status (s : Status) (e : option string) (t : RTask) : RTask :=
  {| rt_name := rt_name t; rt_arch := rt_arch t; rt_version := rt_version t; rt_kind := rt_kind t; rt_trust := rt_trust t; rt_publish := rt_publish t;
     rt_owner := rt_owner t; rt_status := s; rt_error := e; rt_params := rt_params t; rt_pinned := rt_pinned t; rt_lease_owner := rt_lease_owner t |}.
Definition add_task (t : RTask) (d : VDB) : VDB := set_vtasks (<[next_task d := t]> (vtasks d)) (next_task d + 1) d.
(** An UPDATE over [vtasks] whose WHERE is [f]. *)
Definition cancel_where (f : Z -> RTask -> bool) (why : string) (d : VDB) : VDB :=
  set_vtasks (map_imap (fun id t => Some (if f id t then with_status cancelled (Some why) t else t)) (vtasks d)) (next_task d) d.
Definition hit (f : Z -> RTask -> bool) (d : VDB) : list (Z * RTask) := List.filter (fun p => f p.1 p.2) (map_to_list (vtasks d)).
Definition one_of_ids (ids : list Z) (id : Z) : bool := existsb (Z.eqb id) ids.
Definition cancelPendingAudit (id : Z) (d : VDB) : VDB :=
  let pending kind (_ : Z) t := String.eqb (rt_kind t) kind && is_status queued (rt_status t) && opt_is id (rp_task (rt_params t)) in
  cancel_where (pending "trial") "the build was decided before the trial ran" (cancel_where (pending "audit") "the build was decided before the audit ran" d).
(** The packages in staging of builds the pool is done with. *)
Definition reclaimStagingPackages (ids : list Z) (d : VDB) : VDB := set_packages_in (filter (fun p => one_of_ids ids p.1 = false) (packages_in d)) d.
Definition reg_status (status : string) (closed : Z) (freed : option Z) (g : Registration) : Registration :=
  {| rg_owner := rg_owner g; rg_status := status; rg_arches := rg_arches g; rg_closed_through := Z.max (rg_closed_through g) closed;
     rg_freed_by := freed; rg_targets := rg_targets g; rg_blocked := rg_blocked g |}.

(** ** A decision taken *)

Record Decided := { de_task : Z; de_arch : string; de_version : option string; de_rebuild : option Z }.
Record Round := {
  rn_name : string; rn_version : option string; rn_decision : string; rn_by : string; rn_note : option string; rn_arches : list string;
  rn_not_supported : NotShipping; rn_only_reason : option string; rn_not_shipping : NotShipping; rn_released : bool; rn_changes : bool;
  rn_through : option string; rn_solo : option Solo; rn_rows : list Decided; rn_aside : option (list Z * string) }.
Definition live_decision (ids : list Z) (d : VDB) : bool :=
  existsb (fun a => one_of_ids ids (ap_task a.2) && match ap_withdrawn a.2 with None => true | Some _ => false end) (map_to_list (approvals d)).
(** UNDECIDED *)
Definition undecided (guard : list Z) (d : VDB) : bool := negb (live_decision guard d).
Definition guard_of (r : Round) : list Z := (map de_task (rn_rows r) ++ match rn_aside r with Some a => a.1 | None => [] end)%list.
(** SET_ASIDE_SQL *)
Definition aside_hit (ids guard : list Z) (d : VDB) (id : Z) (t : RTask) : bool :=
  one_of_ids ids id && in_flight (rt_status t) && negb (live_decision [id] d) && undecided guard d.
(** REVIEW_SQL *)
Definition review_row (r : Round) : RReview :=
  {| rv_name := rn_name r; rv_version := rn_version r; rv_decision := rn_decision r; rv_by := rn_by r; rv_note := rn_note r; rv_arches := rn_arches r;
     rv_not_supported := rn_not_supported r; rv_released := rn_released r; rv_changes := rn_changes r; rv_only_reason := rn_only_reason r;
     rv_not_shipping := rn_not_shipping r; rv_solo := None; rv_withdrawn := None |}.
Definition newest_review (d : VDB) (name : string) : option Z :=
  fst <$> head (sort_by id_desc (List.filter (fun p => String.eqb (rv_name p.2) name) (map_to_list (reviews d)))).
(** ROWS_SQL: one row per build decided, on the name's newest review. *)
Definition app_row (r : Round) (review : option Z) (now : Z) (x : Decided) : AppRow :=
  {| ap_task := de_task x; ap_name := rn_name r; ap_arch := de_arch x; ap_version := de_version x; ap_decision := rn_decision r; ap_by := rn_by r;
     ap_note := rn_note r; ap_rebuild := de_rebuild x; ap_review := review; ap_agent := rn_through r; ap_created := now; ap_withdrawn := None |}.
Definition add_row (r : Round) (review : option Z) (now : Z) (d : VDB) (x : Decided) : VDB :=
  set_decisions (<[next_app d := app_row r review now x]> (approvals d)) (next_app d + 1) (reviews d) (next_rev d) d.
(** SOLO_REVIEW_SQL *)
Definition mark_solo (since : string) (v : RReview) : RReview :=
  {| rv_name := rv_name v; rv_version := rv_version v; rv_decision := rv_decision v; rv_by := rv_by v; rv_note := rv_note v; rv_arches := rv_arches v;
     rv_not_supported := rv_not_supported v; rv_released := rv_released v; rv_changes := rv_changes v; rv_only_reason := rv_only_reason v;
     rv_not_shipping := rv_not_shipping v; rv_solo := Some since; rv_withdrawn := rv_withdrawn v |}.
(** The batch: the builds set aside cancelled, the review, its rows, the exception's mark; the review's id and the builds it stopped. *)
Definition takeRound (r : Round) (now : Z) (d : VDB) : VDB * option (Z * list Z) :=
  let g := guard_of r in
  let stop := match rn_aside r with Some a => aside_hit a.1 g d | None => fun _ _ => false end in
  let gone := map fst (hit stop d) in
  let d1 := match rn_aside r with Some a => cancel_where stop a.2 d | None => d end in
  if undecided g d1 then
    let id := next_rev d1 in
    let d2 := set_decisions (approvals d1) (next_app d1) (<[id := review_row r]> (reviews d1)) (id + 1) d1 in
    let d3 := fold_left (add_row r (newest_review d2 (rn_name r)) now) (rn_rows r) d2 in
    let d4 := match rn_solo r, rn_rows r, newest_review d3 (rn_name r) with
              | Some s, _ :: _, Some v => set_decisions (approvals d3) (next_app d3) (alter (mark_solo (so_since s)) v (reviews d3)) (next_rev d3) d3
              | _, _, _ => d3
              end in
    (d4, Some (id, gone))
  else (d1, None).

(** A handler's answer: refused with the predicate's reason, or the input's status and code; taken already; or done. *)
Inductive Answer :=
| NotFound | Denied (r : Refusal) | BadInput (status : Z) (code : string) | DecidedAlready | DoneAs (id : Z).
Definition refuse (d : VDB) (status : Z) (code : string) : VDB * Answer := (d, BadInput status code).

(** The passkey an approval is decided with: a draft confirmed with one, or the door's own check; None is a door that asks for none. *)
Definition Gate : Type := option (Z * string + string).
Record Through := { th_agent : string; th_passkey : option string }.
Definition decidedWith (through : option Through) (gate : Gate) : Z * string + string :=
  match t ← through; th_passkey t with
  | Some k => inr k
  | None => match gate with None => inl (403, "passkey_required") | Some g => g end
  end.
Definition arch_index (a : string) : Z := match list_find (fun x => x = a) REPO_ARCHES with Some (n, _) => Z.of_nat n | None => -1 end.
Definition by_arch (x y : Z * RTask) : Z := arch_index (rt_arch x.2) - arch_index (rt_arch y.2).
Definition put_arch (a : string) (v : option Z) (l : NotShipping) : NotShipping :=
  match assoc a l with Some _ => map (fun p => if String.eqb p.1 a then (a, v) else p) l | None => (l ++ [(a, v)])%list end.
Definition words (o : option string) : string := trim (default "" o).
Definition short (s : string) : bool := (String.length s <? 4)%nat.

(** ** Approve *)

Record ApproveBody := { bo_note : option string; bo_only : option json; bo_reason : option string }.
(** The builds an approval of one architecture sets aside: what its other architectures have in review. *)
Definition inReviewOf (d : VDB) (name : string) (arches : list string) : list Z :=
  map fst (List.filter (fun t => str_in (rt_arch t.2) arches && in_flight (rt_status t.2))
    (List.filter (fun ch => negb (chain_standing ch)) (chains_of d name) ≫= (fun ch => option_list (ch_contributor ch) ++ option_list (ch_project ch))%list)).
(** The project's newest build of each other architecture the review covers. *)
Definition rebuilds_of (t : RTask) (x : Read) : list Rebuild :=
  omap (fun s => List.find (fun p => re_review p =? ev_id s) (pb_project (rd_builds x))) (othersOf (rt_arch t) (rt_version t) (rd_builds x) (rd_targets x)).
Definition approve_rows (later : VDB) (id : Z) (t : RTask) (others : list Rebuild) : list (Z * RTask) :=
  let ids := map re_id (List.filter (fun p => is_status staged (re_status p)) others) in
  sort_by by_arch ((id, t) :: hit (fun i _ => one_of_ids ids i) later).
Definition not_supported_of (others : list Rebuild) (current : TargetsT) (rows : list (Z * RTask)) : NotShipping :=
  fold_left (fun l (x : string * Target) =>
      if bool_decide (tg_status x.2 = not_supported) && negb (existsb (fun r => String.eqb (rt_arch r.2) x.1) rows) then put_arch x.1 (tg_task x.2) l else l)
    current
    (fold_left (fun l p => put_arch (re_arch p) (Some (re_id p)) l) (List.filter (fun p => is_status failed (re_status p)) others) []).
Definition publish_task (by_ : string) (review : Z) (r : Z * RTask) : RTask :=
  {| rt_name := rt_name r.2; rt_arch := rt_arch r.2; rt_version := rt_version r.2; rt_kind := "publish"; rt_trust := "project"; rt_publish := 1;
     rt_owner := None; rt_status := queued; rt_error := None;
     rt_params := {| rp_review := None; rp_by := Some by_; rp_agent := None; rp_built_with := None; rp_task := Some r.1; rp_review_id := Some review;
                     rp_solo := None; rp_any_host := None; rp_name := Some (rt_name r.2); rp_owner := None |};
     rt_pinned := None; rt_lease_owner := None |}.
Definition on_registration (name : string) (f : Registration -> Registration) (d : VDB) : VDB := set_registrations (alter f name (registrations d)) d.
Definition said (status : string) (g : Registration) : Registration :=
  {| rg_owner := rg_owner g; rg_status := status; rg_arches := rg_arches g; rg_closed_through := rg_closed_through g; rg_freed_by := rg_freed_by g;
     rg_targets := rg_targets g; rg_blocked := rg_blocked g |}.
(** A decision written, and what its handler does after: the second half of an approval. *)
Record Taken := { tk_name : string; tk_by : string; tk_review : Z; tk_gone : list Z; tk_rows : list (Z * RTask) }.
Definition takeApproval (c : Reviewer) (id : Z) (b : ApproveBody) (through : option Through) (gate : Gate) (now : Z) (read later d : VDB)
  : VDB * (Answer + Taken) :=
  let refuse d status code := (d, inl (BadInput status code)) in
  match vtasks read !! id with
  | None => (d, inl NotFound)
  | Some t =>
      let one := match bo_only b, through with Some _, None => true | _, _ => false end in
      let x := factsOf read id t in
      match decisions (Some c) (row_of id t) (rd_facts x) (if one then approve_only else approve) with
      | Some r => (d, inl (Denied r))
      | None =>
          let alone := if one then pf_alone (fa_package (rd_facts x)) else [] in
          let aside := List.filter (fun a => negb (existsb (fun s => String.eqb (sv_arch s) a) (rd_served x))) alone in
          let reason := if one then words (bo_reason b) else "" in
          if one && negb match bo_only b with Some (JStr a) => String.eqb a (rt_arch t) | _ => false end then refuse d 400 "only"
          else if one && short reason then refuse d 400 "reason"
          else match decidedWith through gate with
          | inl (status, code) => refuse d status code
          | inr _ =>
              let others := if one then [] else rebuilds_of t x in
              let rows := approve_rows later id t others in
              let d := settleTargets (rt_name t) d in
              if existsb (fun r => match in_staging later r.1 with [] => true | _ => false end) rows then refuse d 409 "nothing_packaged"
              else
                let stopping := match alone with [] => [] | _ => inReviewOf later (rt_name t) alone end in
                let round :=
                  {| rn_name := rt_name t; rn_version := rt_version t; rn_decision := "approved"; rn_by := rr_login c; rn_note := bo_note b;
                     rn_arches := map (fun r => rt_arch r.2) rows;
                     rn_not_supported := if one then [] else not_supported_of others (default [] (targets_now later (rt_name t))) rows;
                     rn_only_reason := if one then Some reason else None;
                     rn_not_shipping := map (fun a => (a, y ← assoc a (rd_targets x); tg_task y)) aside;
                     rn_released := false; rn_changes := false; rn_through := th_agent <$> through; rn_solo := selfReview (Some c) (rd_facts x);
                     rn_rows := map (fun r => {| de_task := r.1; de_arch := rt_arch r.2; de_version := rt_version r.2; de_rebuild := Some r.1 |}) rows;
                     rn_aside := match stopping with [] => None | _ => Some (stopping, "not shipping: " +:+ reason) end |} in
                match takeRound round now d with
                | (d1, None) => (d1, inl DecidedAlready)
                | (d1, Some (review, gone)) =>
                    (d1, inr {| tk_name := rt_name t; tk_by := rr_login c; tk_review := review; tk_gone := gone; tk_rows := rows |})
                end
          end
      end
  end.
(** The publish jobs, the registration, the audits of what was decided, and what the builds set aside left behind. *)
Definition finishApproval (k : Taken) (d : VDB) : VDB :=
  let d2 := fold_left (fun d r => add_task (publish_task (tk_by k) (tk_review k) r) d) (tk_rows k) d in
  let d3 := on_registration (tk_name k) (said "approved") d2 in
  let d4 := fold_left (fun d r => cancelPendingAudit r.1 d) (tk_rows k) d3 in
  let d5 := reclaimStagingPackages (tk_gone k) (fold_left (fun d i => cancelPendingAudit i d) (tk_gone k) d4) in
  settleTargets (tk_name k) d5.
Definition handleApprove (c : Reviewer) (id : Z) (b : ApproveBody) (through : option Through) (gate : Gate) (now : Z) (read later d : VDB) : VDB * Answer :=
  match takeApproval c id b through gate now read later d with
  | (d1, inl a) => (d1, a)
  | (d1, inr k) => (finishApproval k d1, DoneAs (tk_review k))
  end.

(** ** Withdraw *)

Definition taken_back (by_ why : string) (a : AppRow) : AppRow :=
  {| ap_task := ap_task a; ap_name := ap_name a; ap_arch := ap_arch a; ap_version := ap_version a; ap_decision := ap_decision a; ap_by := ap_by a;
     ap_note := ap_note a; ap_rebuild := ap_rebuild a; ap_review := ap_review a; ap_agent := ap_agent a; ap_created := ap_created a;
     ap_withdrawn := Some (by_, why) |}.
Definition voided (by_ why : string) (v : RReview) : RReview :=
  match rv_withdrawn v with
  | Some _ => v
  | None =>
      {| rv_name := rv_name v; rv_version := rv_version v; rv_decision := rv_decision v; rv_by := rv_by v; rv_note := rv_note v; rv_arches := rv_arches v;
         rv_not_supported := rv_not_supported v; rv_released := rv_released v; rv_changes := rv_changes v; rv_only_reason := rv_only_reason v;
         rv_not_shipping := rv_not_shipping v; rv_solo := rv_solo v; rv_withdrawn := Some (by_, why) |}
  end.
(** The review, whole: every row of it that stands; a row with no review is one of its own. *)
Definition void_rows (d : VDB) (a : Z * AppRow) : list Z :=
  match ap_review a.2 with
  | Some r => map fst (List.filter (fun p => opt_is r (ap_review p.2) && app_stands p.2) (map_to_list (approvals d)))
  | None => [a.1]
  end.
Record TakenBack := { tb_name : string; tb_approval : Z }.
Definition takeBack (c : Reviewer) (id : Z) (note : option string) (read later d : VDB) : VDB * (Answer + TakenBack) :=
  match vtasks read !! id with
  | None => (d, inl NotFound)
  | Some t =>
      let x := factsOf read id t in
      match decisions (Some c) (row_of id t) (rd_facts x) withdraw, rd_approval x with
      | Some r, _ => (d, inl (Denied r))
      | None, None => (d, inl NotFound)
      | None, Some a =>
          let why := words note in
          if short why then (d, inl (BadInput 400 "note"))
          else
            let ids := void_rows later a in
            let apps := map_imap (fun i p => Some (if one_of_ids ids i then taken_back (rr_login c) why p else p)) (approvals d) in
            let revs := match ap_review a.2 with Some r => alter (voided (rr_login c) why) r (reviews d) | None => reviews d end in
            (set_decisions apps (next_app d) revs (next_rev d) d, inr {| tb_name := rt_name t; tb_approval := a.1 |})
      end
  end.
(** Out of every ring; the registration is evidence again. *)
Definition finishBack (k : TakenBack) (d : VDB) : VDB :=
  let d2 := set_pool (pullFromRings (tb_name k) ("approval of " +:+ tb_name k +:+ " withdrawn") (pool d)).1 d in
  let d3 := on_registration (tb_name k) (fun g => if str_in (rg_status g) ["approved"; "published"] then said "staged" g else g) d2 in
  settleTargets (tb_name k) d3.
Definition handleWithdraw (c : Reviewer) (id : Z) (note : option string) (read later d : VDB) : VDB * Answer :=
  match takeBack c id note read later d with
  | (d1, inl a) => (d1, a)
  | (d1, inr k) => (finishBack k d1, DoneAs (tb_approval k))
  end.

(** ** Reject, and changes asked for *)

Definition round_of (d : VDB) (id : Z) (t : RTask) : list (Z * RTask) :=
  let r := List.filter (fun t => in_flight (rt_status t.2))
    (List.filter (fun ch => negb (chain_standing ch)) (chains_of d (rt_name t)) ≫= (fun ch => option_list (ch_contributor ch) ++ option_list (ch_project ch))%list) in
  if existsb (fun p => p.1 =? id) r then r else (r ++ [(id, t)])%list.
(** One row per architecture: its newest staged build in review, the project's when there is one. *)
Definition evidence_first (x y : Z * RTask) : Z :=
  let p t := if from_project t then 1 else 0 in
  if p x.2 =? p y.2 then x.1 - y.1 else p x.2 - p y.2.
Definition decided_of (id : Z) (t : RTask) (round : list (Z * RTask)) : list (Z * RTask) :=
  let sorted := sort_by evidence_first round in
  let pick a := last (List.filter (fun p => is_status staged (rt_status p.2) && String.eqb (rt_arch p.2) a) sorted) in
  match omap pick REPO_ARCHES with
  | [] => if existsb (fun p => is_status staged (rt_status p.2)) round || negb (isRepoArch (rt_arch t)) then []
          else option_list (List.find (fun p => p.1 =? id) round)
  | l => l
  end.
Record Closing := { cl_name : string; cl_why : string; cl_review : Z; cl_ids : list Z; cl_released : bool; cl_closes : bool }.
Definition takeClosing (c : Reviewer) (id : Z) (note : option string) (ask_changes : bool) (through : option Through) (now : Z) (read later d : VDB)
  : VDB * (Answer + Closing) :=
  match vtasks read !! id with
  | None => (d, inl NotFound)
  | Some t =>
      let x := factsOf read id t in
      match decisions (Some c) (row_of id t) (rd_facts x) (if ask_changes then changes else reject) with
      | Some r => (d, inl (Denied r))
      | None =>
          let why := words note in
          if negb (truthy why) then (d, inl (BadInput 400 "note"))
          else
            let round := round_of later id t in
            let decided := decided_of id t round in
            let in_pool := existsb (fun a => String.eqb (ap_name a.2) (rt_name t) && app_stands a.2) (map_to_list (approvals later)) in
            let released := negb ask_changes && negb in_pool in
            let r := {| rn_name := rt_name t; rn_version := rt_version t; rn_decision := "rejected"; rn_by := rr_login c; rn_note := Some why;
                        rn_arches := map (fun p => rt_arch p.2) decided; rn_not_supported := []; rn_only_reason := None; rn_not_shipping := [];
                        rn_released := released; rn_changes := ask_changes; rn_through := th_agent <$> through; rn_solo := selfReview (Some c) (rd_facts x);
                        rn_rows := map (fun p => {| de_task := p.1; de_arch := rt_arch p.2; de_version := rt_version p.2; de_rebuild := None |}) decided;
                        rn_aside := None |} in
            match takeRound r now d with
            | (d1, None) => (d1, inl DecidedAlready)
            | (d1, Some (review, _)) =>
                (d1, inr {| cl_name := rt_name t; cl_why := why; cl_review := review; cl_ids := map fst round; cl_released := released; cl_closes := negb in_pool |})
            end
      end
  end.
(** The round's builds stopped, the name freed or kept, and everything built until now behind it. *)
Definition finishClosing (k : Closing) (d : VDB) : VDB :=
  let last_build := foldr Z.max 0 (map fst (hit (fun _ t => String.eqb (rt_name t) (cl_name k) && is_build t) d)) in
  let d2 := cancel_where (fun i t => one_of_ids (cl_ids k) i && in_flight (rt_status t)) ("rejected: " +:+ cl_why k) d in
  let d3 := on_registration (cl_name k)
    (reg_status (if cl_released k then "rejected" else "registered") (if cl_closes k then last_build else 0) (if cl_released k then Some (cl_review k) else None)) d2 in
  let d4 := reclaimStagingPackages (cl_ids k) (fold_left (fun d i => cancelPendingAudit i d) (cl_ids k) d3) in
  settleTargets (cl_name k) d4.
Definition closeRound (c : Reviewer) (id : Z) (note : option string) (ask_changes : bool) (through : option Through) (now : Z) (read later d : VDB) : VDB * Answer :=
  match takeClosing c id note ask_changes through now read later d with
  | (d1, inl a) => (d1, a)
  | (d1, inr k) => (finishClosing k d1, DoneAs (cl_review k))
  end.

(** ** A claim, and its release *)

(** CLAIM_SQL's WHERE: no rebuild of the round's builds queued, running or staged. *)
Definition claimed (name : string) (round : list Z) (d : VDB) : bool :=
  existsb (fun p => String.eqb (rt_name p.2) name && is_build p.2 && from_project p.2 && in_flight (rt_status p.2)
             && match rp_review (rt_params p.2) with Some r => one_of_ids round r | None => false end) (map_to_list (vtasks d)).
Definition rebuild_task (by_ : string) (owner : option string) (self : option Solo) (name : string) (agent pin : option string) (s : Evidence) : RTask :=
  {| rt_name := name; rt_arch := ev_arch s; rt_version := ev_version s; rt_kind := "build"; rt_trust := "project"; rt_publish := 0; rt_owner := owner;
     rt_status := queued; rt_error := None;
     rt_params := {| rp_review := Some (ev_id s); rp_by := Some by_; rp_agent := match pin with Some _ => agent | None => None end; rp_built_with := None;
                     rp_task := None; rp_review_id := None; rp_solo := soloMark <$> self; rp_any_host := None; rp_name := None; rp_owner := None |};
     rt_pinned := pin; rt_lease_owner := None |}.
(** SAME_AGENT_SQL *)
Definition same_agent_ok (arch agent : string) (alive : Z) (kept_off : list string) (w : RWorker) : bool :=
  String.eqb (rw_arch w) arch && String.eqb (rw_trust w) "project" && negb (rw_revoked w) && negb (rw_drained w)
  && ostr_eqb (rw_agent w) (Some agent) && ostr_eqb (rw_agent_status w) (Some "ok") && (alive <? rw_last_seen w)
  && match rw_kinds w with None => true | Some k => str_in "build" k end
  && match rw_owner w with None => true | Some o => negb (str_in o kept_off) end.
Definition idle_first (x y : RWorker) : Z :=
  let b w := if rw_busy w then 1 else 0 in if b x =? b y then rw_last_seen y - rw_last_seen x else b x - b y.
Definition sameAgent (d : VDB) (agent : option string) (alive : Z) (kept_off : list string) (arch : string) : option string :=
  match agent with
  | Some a => if truthy a then rw_id <$> head (sort_by idle_first (List.filter (same_agent_ok arch a alive kept_off) (vworkers d))) else None
  | None => None
  end.
(** The worker a maintainer names: refused, or it and its agent. *)
Definition named_worker (d : VDB) (arch w : string) (kept_off : list string) : (Z * string) + (string * option string) :=
  match List.find (fun x => String.eqb (rw_id x) w && negb (rw_revoked x) && String.eqb (rw_trust x) "project") (vworkers d) with
  | None => inl (400, "worker")
  | Some x =>
      if negb (String.eqb (rw_arch x) arch) then inl (400, "worker")
      else if match rw_owner x with Some o => truthy o && str_in o kept_off | None => false end then inl (409, "requester_host")
      else if rw_drained x then inl (409, "drained")
      else if match rw_kinds x with Some (k :: ks) => negb (str_in "build" (k :: ks)) | _ => false end then inl (400, "kinds")
      else if negb (ostr_eqb (rw_agent_status x) (Some "ok")) then inl (400, "agent")
      else inr (rw_id x, rw_agent x)
  end.
Definition WORKER_ALIVE_MINUTES : Z := 10.
Definition queue_rebuild (name : string) (x : Evidence * (list Z * RTask)) (d : VDB) : VDB :=
  if claimed name x.2.1 d then d else add_task x.2.2 d.
Definition handleProjectBuild (c : Reviewer) (id : Z) (worker : option string) (now : Z) (read later d : VDB) : VDB * Answer :=
  match vtasks read !! id with
  | None => (d, NotFound)
  | Some t =>
      let x := factsOf read id t in
      let f := rd_facts x in
      match decisions (Some c) (row_of id t) f build with
      | Some r => (d, Denied r)
      | None =>
          let self := selfReview (Some c) f in
          let kept_off := List.filter (fun r => negb (ostr_eqb (Some r) (soloHostOf (fa_requesters f) (fa_solo f)))) (fa_requesters f) in
          match (match words worker with "" => inr None | w => match named_worker later (rt_arch t) w kept_off with inl e => inl e | inr p => inr (Some p) end end) with
          | inl (status, code) => refuse d status code
          | inr chosen =>
              let agent := p ← chosen; p.2 in
              let live p s := (re_review p =? ev_id s) && in_flight (re_status p) in
              let others := List.filter (fun s => negb (existsb (fun p => live p s) (pb_project (rd_builds x))))
                              (othersOf (rt_arch t) (rt_version t) (rd_builds x) (rd_targets x)) in
              let own := {| ev_id := id; ev_arch := rt_arch t; ev_version := rt_version t |} in
              let round := id :: map ev_id others in
              let task pin s := rebuild_task (rr_login c) (fa_owner f) self (rt_name t) agent pin s in
              if claimed (rt_name t) round d then (d, DecidedAlready)
              else
                let d1 := add_task (task (fst <$> chosen) own) d in
                let alive := now - WORKER_ALIVE_MINUTES * MIN in
                let rest := map (fun s => (s, ([ev_id s], task (sameAgent later agent alive kept_off (ev_arch s)) s)))
                              (sort_by (fun a b => arch_index (ev_arch a) - arch_index (ev_arch b)) others) in
                (settleTargets (rt_name t) (fold_left (fun d x => queue_rebuild (rt_name t) x d) rest d1), DoneAs (next_task d))
          end
      end
  end.
(** RELEASE_SQL *)
Definition let_go (claim : list Z) (d : VDB) (id : Z) (t : RTask) : bool :=
  one_of_ids claim id && in_flight (rt_status t)
  && existsb (fun p => one_of_ids claim p.1 && waits_or_runs (rt_status p.2)) (map_to_list (vtasks d)).
Definition handleRelease (c : Reviewer) (id : Z) (reason : option string) (read d : VDB) : VDB * Answer :=
  match vtasks read !! id with
  | None => (d, NotFound)
  | Some t =>
      let f := rd_facts (factsOf read id t) in
      match decisions (Some c) (row_of id t) f release with
      | Some r => (d, Denied r)
      | None =>
          let why := words reason in
          if short why then refuse d 400 "reason"
          else match map fst (hit (let_go (fa_claim f) d) d) with
          | [] => refuse d 409 "nothing_claimed"
          | g :: gone =>
              let d1 := cancel_where (let_go (fa_claim f) d) ("claim released by " +:+ rr_login c +:+ ": " +:+ why) d in
              let d2 := reclaimStagingPackages (g :: gone) (fold_left (fun d i => cancelPendingAudit i d) (g :: gone) d1) in
              (settleTargets (rt_name t) d2, DoneAs g)
          end
      end
  end.

(** ** A release to any host *)

(** placements()' view of the task: who asked, a release written, the exception's hosts, the others' and its requesters' hosts. *)
Record PlacementView := {
  pl_requesters : list string; pl_released : option string; pl_solo_hosts : list string; pl_others : list string; pl_mine : list string }.
Definition anyHostVerdict (c : option Reviewer) (t : RTask) (p : option PlacementView) : Verdict :=
  first_no
    [person c;
     no_if (negb (is_build t && from_project t && match rp_review (rt_params t) with Some _ => true | None => false end)) 409 not_a_copy;
     match p with
     | None => no 409 not_waiting
     | Some p =>
         first_no
           [no_if (negb (is_status queued (rt_status t))) 409 not_waiting;
            no_if (match pl_solo_hosts p, pl_released p with _ :: _, None => true | _, _ => false end) 409 solo_can_build;
            match c with Some c => no_if (str_in (rr_login c) (pl_requesters p)) 403 own_package | None => None end;
            no_if (match pl_released p with Some _ => true | None => false end) 409 released_already;
            no_if (match pl_others p with [] => false | _ => true end) 409 others_can_build;
            no_if (match pl_mine p with [] => true | _ => false end) 409 no_host]
     end].
Definition free_to (by_ : string) (t : RTask) : RTask :=
  let p := rt_params t in
  {| rt_name := rt_name t; rt_arch := rt_arch t; rt_version := rt_version t; rt_kind := rt_kind t; rt_trust := rt_trust t; rt_publish := rt_publish t;
     rt_owner := rt_owner t; rt_status := rt_status t; rt_error := rt_error t;
     rt_params := {| rp_review := rp_review p; rp_by := rp_by p; rp_agent := rp_agent p; rp_built_with := rp_built_with p; rp_task := rp_task p;
                     rp_review_id := rp_review_id p; rp_solo := rp_solo p; rp_any_host := Some by_;
                     rp_name := rp_name p; rp_owner := rp_owner p |};
     rt_pinned := rt_pinned t; rt_lease_owner := rt_lease_owner t |}.
(** ANY_HOST_SQL's WHERE *)
Definition still_held (t : RTask) : bool := is_status queued (rt_status t) && match rp_any_host (rt_params t) with None => true | Some _ => false end.
Definition handleAnyHost (c : Reviewer) (id : Z) (p : option PlacementView) (gate : Gate) (read d : VDB) : VDB * Answer :=
  match vtasks read !! id with
  | None => (d, NotFound)
  | Some t =>
      match anyHostVerdict (Some c) t p with
      | Some r => (d, Denied r)
      | None =>
          match gate with
          | None => refuse d 403 "passkey_required"
          | Some (inl (status, code)) => refuse d status code
          | Some (inr _) =>
              match vtasks d !! id with
              | Some t' => if still_held t' then (set_vtasks (<[id := free_to (rr_login c) t']> (vtasks d)) (next_task d) d, DoneAs id) else refuse d 409 "released_already"
              | None => refuse d 409 "released_already"
              end
          end
      end
  end.

(** A cancel by hand of a claim's rebuild or of a standing approval's publish job: refused; None, the cancel goes on. *)
Definition cancelByHand (c : Reviewer) (id : Z) (read : VDB) : option (Refusal + Z) :=
  t ← vtasks read !! id;
  if negb (waits_or_runs (rt_status t)) then None
  else match (if is_build t && from_project t then rp_review (rt_params t) else None) with
  | Some r =>
      match x ← vtasks read !! r; decisions (Some c) (row_of r x) (rd_facts (factsOf read r x)) release with
      | Some v => match rf_why v with own_package => Some (inl v) | _ => Some (inr 409) end
      | None => Some (inr 409)
      end
  | None =>
      match (if String.eqb (rt_kind t) "publish" then rp_task (rt_params t) else None) with
      | Some b => if existsb (fun a => (ap_task a.2 =? b) && app_stands a.2) (map_to_list (approvals read)) then Some (inr 409) else None
      | None => None
      end
  end.
