(* ===== verification/Blocks.v ===== *)
(** * Blocks and adoptions (worker/src/routes/blocks.ts, adopt.ts)

    The maintainers' brake on a package or a contributor, its lift by another maintainer, and the adoption that gives a served
    package its maintainer of record, over the tables of Review. A contributor's grants, drafts and open orders, which a block
    ends too, are rows of other components. *)
From S2P Require Import Prelude JsTime Json Tasks Targets Rings Governance Review ReviewDoors.
Local Open Scope string_scope.
Local Open Scope Z_scope.

(** ** A package *)

(** Who may block a package, and whether it can be. *)
Definition blockRefusal (c : Reviewer) (name : string) (reason : option string) (read : VDB) : (Z * string) + Registration :=
  if negb (isMaintainer c) then inl (403, "maintainer")
  else if short (words reason) then inl (400, "reason")
  else match registrations read !! name with
  | None => inl (404, "requested")
  | Some g => match rg_blocked g with Some _ => inl (409, "blocked") | None => inr g end
  end.
Record Blocking := { bk_name : string; bk_by : string; bk_note : string }.
(** Every ring loses it before the batch. *)
Definition takeBlock (c : Reviewer) (name : string) (reason : option string) (through : option Through) (gate : Gate) (read d : VDB) : VDB * (Answer + Blocking) :=
  match blockRefusal c name reason read with
  | inl (status, code) => (d, inl (BadInput status code))
  | inr _ =>
      match decidedWith through gate with
      | inl (status, code) => (d, inl (BadInput status code))
      | inr _ =>
          let note := "blocked by " +:+ rr_login c +:+ ": " +:+ String.substring 0 200 (words reason) in
          (set_pool (pullFromRings name note (pool d)).1 d, inr {| bk_name := name; bk_by := rr_login c; bk_note := note |})
      end
  end.
Definition block_registration (by_ : string) (last_build : Z) (g : Registration) : Registration :=
  {| rg_owner := rg_owner g; rg_status := "rejected"; rg_arches := rg_arches g; rg_closed_through := Z.max (rg_closed_through g) last_build;
     rg_freed_by := rg_freed_by g; rg_targets := rg_targets g; rg_blocked := Some by_ |}.
Definition of_name (name : string) (kinds : list string) (t : RTask) : bool := String.eqb (rt_name t) name && str_in (rt_kind t) kinds.
Definition finishBlock (k : Blocking) (d : VDB) : VDB :=
  let name := bk_name k in
  let last_build := foldr Z.max 0 (map fst (hit (fun _ t => of_name name ["build"] t) d)) in
  let d1 := on_registration name (block_registration (bk_by k) last_build) d in
  let d2 := cancel_where (fun _ t => of_name name ["build"; "publish"] t && in_flight (rt_status t)) (bk_note k) d1 in
  let d3 := cancel_where (fun _ t => String.eqb (rt_kind t) "audit" && is_status queued (rt_status t) && ostr_eqb (rp_name (rt_params t)) (Some name))
              "the build it audited was blocked" d2 in
  let stood a := String.eqb (ap_name a) name && app_stands a in
  let apps := (fun a => if stood a then taken_back (bk_by k) (bk_note k) a else a) <$> approvals d3 in
  let revs := (fun v => if String.eqb (rv_name v) name && String.eqb (rv_decision v) "approved" then voided (bk_by k) (bk_note k) v else v) <$> reviews d3 in
  settleTargets name (set_decisions apps (next_app d3) revs (next_rev d3) d3).
Definition handleBlockPackage (c : Reviewer) (name : string) (reason : option string) (through : option Through) (gate : Gate) (read d : VDB) : VDB * Answer :=
  match takeBlock c name reason through gate read d with
  | (d1, inl a) => (d1, a)
  | (d1, inr k) => (finishBlock k d1, DoneAs 0)
  end.
Definition lift_registration (g : Registration) : Registration :=
  {| rg_owner := rg_owner g; rg_status := "registered"; rg_arches := rg_arches g; rg_closed_through := rg_closed_through g;
     rg_freed_by := rg_freed_by g; rg_targets := rg_targets g; rg_blocked := None |}.
Definition handleUnblockPackage (c : Reviewer) (name : string) (reason : option string) (read d : VDB) : VDB * Answer :=
  if negb (isMaintainer c) then refuse d 403 "maintainer"
  else if short (words reason) then refuse d 400 "reason"
  else match g ← registrations read !! name; rg_blocked g with
  | None => refuse d 409 "not_blocked"
  | Some by_ => if String.eqb by_ (rr_login c) then refuse d 403 "blocker" else (on_registration name lift_registration d, DoneAs 0)
  end.

(** ** A contributor *)

Definition set_people (p : gmap string Person) (w : list RWorker) (d : VDB) : VDB :=
  {| vtasks := vtasks d; next_task := next_task d; approvals := approvals d; next_app := next_app d; reviews := reviews d; next_rev := next_rev d;
     registrations := registrations d; packages_in := packages_in d; vworkers := w; solo_row := solo_row d; pool := pool d;
     people := p; upkeep := upkeep d |}.
Definition blocked_person (by_ : option string) (p : Person) : Person := {| pe_role := pe_role p; pe_blocked := by_ |}.
Definition revoke_of (owner : string) (w : RWorker) : RWorker :=
  if ostr_eqb (rw_owner w) (Some owner) && negb (rw_revoked w) then
    {| rw_id := rw_id w; rw_arch := rw_arch w; rw_trust := rw_trust w; rw_revoked := true; rw_drained := rw_drained w; rw_owner := rw_owner w;
       rw_kinds := rw_kinds w; rw_agent := rw_agent w; rw_agent_status := rw_agent_status w; rw_last_seen := rw_last_seen w; rw_busy := rw_busy w |}
  else w.
Definition unpinned (t : RTask) : RTask :=
  {| rt_name := rt_name t; rt_arch := rt_arch t; rt_version := rt_version t; rt_kind := rt_kind t; rt_trust := rt_trust t; rt_publish := rt_publish t;
     rt_owner := rt_owner t; rt_status := rt_status t; rt_error := rt_error t; rt_params := rt_params t; rt_pinned := None; rt_lease_owner := rt_lease_owner t |}.
(** Rejected, and held: a name a review had freed stays free. *)
Definition owner_blocked (g : Registration) : Registration :=
  {| rg_owner := rg_owner g; rg_status := "rejected"; rg_arches := rg_arches g; rg_closed_through := rg_closed_through g;
     rg_freed_by := if String.eqb (rg_status g) "rejected" then rg_freed_by g else None; rg_targets := rg_targets g; rg_blocked := rg_blocked g |}.
Definition handleBlockContributor (c : Reviewer) (login : string) (reason : option string) (gate : Gate) (read d : VDB) : VDB * Answer :=
  if negb (isMaintainer c) then refuse d 403 "maintainer"
  else if short (words reason) then refuse d 400 "reason"
  else if String.eqb login (rr_login c) then refuse d 400 "self"
  else match people read !! login with
  | None => refuse d 404 "signed_in"
  | Some who =>
      if String.eqb (pe_role who) "maintainer" then refuse d 409 "governance"
      else match pe_blocked who with
      | Some _ => refuse d 409 "blocked"
      | None =>
          match decidedWith None gate with
          | inl (status, code) => refuse d status code
          | inr _ =>
              let packages := map fst (List.filter (fun p => String.eqb (rg_owner p.2) login) (map_to_list (registrations read))) in
              let d1 := set_people (alter (blocked_person (Some (rr_login c))) login (people d)) (map (revoke_of login) (vworkers d)) d in
              let theirs w := match List.find (fun x => String.eqb (rw_id x) w) (vworkers d1) with Some x => ostr_eqb (rw_owner x) (Some login) | None => false end in
              let d2 := set_vtasks ((fun t => if is_status queued (rt_status t) && match rt_pinned t with Some w => theirs w | None => false end then unpinned t else t) <$> vtasks d1) (next_task d1) d1 in
              let d3 := cancel_where (fun _ t => ostr_eqb (rt_owner t) (Some login) && from_contributor t && in_flight (rt_status t))
                          (login +:+ " was blocked by " +:+ rr_login c +:+ ": " +:+ String.substring 0 200 (default "" reason)) d2 in
              let d4 := cancel_where (fun _ t => String.eqb (rt_kind t) "audit" && is_status queued (rt_status t) && ostr_eqb (rp_owner (rt_params t)) (Some login))
                          "the build it audited was cancelled: its owner was blocked" d3 in
              let d5 := set_registrations ((fun g => if String.eqb (rg_owner g) login then owner_blocked g else g) <$> registrations d4) d4 in
              (fold_left (fun d name => settleTargets name d) packages d5, DoneAs 0)
          end
      end
  end.
Definition handleUnblockContributor (c : Reviewer) (login : string) (reason : option string) (read d : VDB) : VDB * Answer :=
  if negb (isMaintainer c) then refuse d 403 "maintainer"
  else if short (words reason) then refuse d 400 "reason"
  else match p ← people read !! login; pe_blocked p with
  | None => refuse d 409 "not_blocked"
  | Some by_ => if String.eqb by_ (rr_login c) then refuse d 403 "blocker" else (set_people (alter (blocked_person None) login (people d)) (vworkers d) d, DoneAs 0)
  end.

(** ** An adoption *)

Definition PROMOTED_RINGS : list string := ["edge"; "rc"; "stable"].
(** A row of the package, and a ring that has it. *)
Definition served (name : string) (p : RDB) : bool :=
  existsb (fun ring => existsb (fun r => String.eqb (p_name r.2) name) (map_to_list (joined p (ringMembers p ring)))) PROMOTED_RINGS.
Definition stands_on (id : Z) (d : VDB) : bool := existsb (fun a => (ap_task a.2 =? id) && app_stands a.2) (map_to_list (approvals d)).
(** ROUND_OPEN: a build of it still open, no approval standing on it or on the project's build that answered it. *)
Definition round_open (name : string) (d : VDB) : list (Z * RTask) :=
  hit (fun id t => of_name name ["build"] t && in_flight (rt_status t) && negb (stands_on id d)
         && negb (existsb (fun r => String.eqb (rt_name r.2) name && opt_is id (rp_review (rt_params r.2)) && stands_on r.1 d) (map_to_list (vtasks d)))) d.
Definition newest_standing (name : string) (d : VDB) : option (Z * AppRow) :=
  head (sort_by id_desc (List.filter (fun a => String.eqb (ap_name a.2) name && app_stands a.2) (map_to_list (approvals d)))).
Definition adopted (login status : string) (g : Registration) : Registration :=
  {| rg_owner := login; rg_status := status; rg_arches := rg_arches g; rg_closed_through := rg_closed_through g;
     rg_freed_by := rg_freed_by g; rg_targets := rg_targets g; rg_blocked := rg_blocked g |}.
Definition set_upkeep (u : gmap string (string * option string)) (d : VDB) : VDB :=
  {| vtasks := vtasks d; next_task := next_task d; approvals := approvals d; next_app := next_app d; reviews := reviews d; next_rev := next_rev d;
     registrations := registrations d; packages_in := packages_in d; vworkers := vworkers d; solo_row := solo_row d; pool := pool d;
     people := people d; upkeep := u |}.
(** A row of [package_maintainers], unless the name has one. *)
Definition maintained (name login : string) (since : option string) (d : VDB) : VDB :=
  match upkeep d !! name with Some _ => d | None => set_upkeep (<[name := (login, since)]> (upkeep d)) d end.
(** ADOPT_SQL's WHERE *)
Definition adoptable (name : string) (d : VDB) (g : Registration) : bool :=
  String.eqb (rg_status g) "unmaintained" && match rg_blocked g with None => true | Some _ => false end
  && match round_open name d with [] => true | _ => false end.
Definition adoptServed (c : Reviewer) (name : string) (self : option Solo) (read d : VDB) : VDB * Answer :=
  match newest_standing name read with
  | Some _ => refuse d 409 "approver"
  | None => match upkeep d !! name with Some _ => refuse d 409 "maintained" | None => (maintained name (rr_login c) (so_since <$> self) d, DoneAs 0) end
  end.
Definition handleAdoptPackage (c : Reviewer) (name : string) (read later d : VDB) : VDB * Answer :=
  if negb (isMaintainer c) then refuse d 403 "maintainer_only"
  else
    let pkg := registrations read !! name in
    let owned := match pkg with Some g => String.eqb (rg_owner g) (rr_login c) | None => false end in
    let self := s ← solo_row read; if owned && String.eqb (so_maintainer s) (rr_login c) then Some s else None in
    if negb (served name (pool read)) then refuse d 404 "no_ring"
    else if owned && match self with None => true | Some _ => false end then refuse d 403 "conflict_of_interest"
    else match upkeep read !! name with
    | Some _ => refuse d 409 "maintained"
    | None =>
        match (match pkg with Some g => if String.eqb (rg_status g) "unmaintained" then Some g else None | None => None end) with
        | None => adoptServed c name self later d
        | Some g =>
            match rg_blocked g with
            | Some _ => refuse d 409 "blocked"
            | None =>
                match round_open name later with
                | _ :: _ => refuse d 409 "round_open"
                | [] =>
                    let status := match newest_standing name later with Some _ => "published" | None => "registered" end in
                    let d1 := match registrations d !! name with
                              | Some g' => if adoptable name d g' then on_registration name (adopted (rr_login c) status) d else d
                              | None => d
                              end in
                    let moved := match registrations d !! name with Some g' => adoptable name d g' | None => false end in
                    (* MAINTAINER_SQL: where the registration is now the adopter's and no longer unmaintained *)
                    let d2 := match registrations d1 !! name with
                              | Some g' => if String.eqb (rg_owner g') (rr_login c) && negb (String.eqb (rg_status g') "unmaintained")
                                           then maintained name (rr_login c) (so_since <$> self) d1 else d1
                              | None => d1
                              end in
                    if moved then (d2, DoneAs 0) else refuse d2 409 "taken"
                end
            end
        end
    end.
