(* ===== verification/Delivery.v ===== *)
(** * What a finished task writes of a package (worker/src/routes/factory.ts handleComplete)

    A build that answers for a contributor or for a review goes to staging, superseding the ones before it, with its audit and
    its trial queued; a publish job done makes the registration published and its build done. The lease is one test here (the
    rules of leases are in Tasks), and the build's own word on what it uploaded is an argument. *)
From S2P Require Import Prelude JsTime Json Tasks Targets Rings Governance Review ReviewDoors.
Local Open Scope string_scope.
Local Open Scope Z_scope.

(** LEASE_HELD: still leased to the caller. *)
Definition held_by (who : string) (t : RTask) : bool := is_status leased (rt_status t) && ostr_eqb (rt_lease_owner t) (Some who).
Definition with_params (p : RParams) (t : RTask) : RTask :=
  {| rt_name := rt_name t; rt_arch := rt_arch t; rt_version := rt_version t; rt_kind := rt_kind t; rt_trust := rt_trust t; rt_publish := rt_publish t;
     rt_owner := rt_owner t; rt_status := rt_status t; rt_error := rt_error t; rt_params := p; rt_pinned := rt_pinned t; rt_lease_owner := rt_lease_owner t |}.
Definition with_version (v : option string) (publish : Z) (t : RTask) : RTask :=
  {| rt_name := rt_name t; rt_arch := rt_arch t; rt_version := v; rt_kind := rt_kind t; rt_trust := rt_trust t; rt_publish := publish;
     rt_owner := rt_owner t; rt_status := rt_status t; rt_error := rt_error t; rt_params := rt_params t; rt_pinned := rt_pinned t; rt_lease_owner := rt_lease_owner t |}.
Definition or_else {A} (a b : option A) : option A := match a with Some _ => a | None => b end.
(** A project's review build keeps the agent its worker ran. *)
Definition built_with (who : string) (d : VDB) (p : RParams) : RParams :=
  match rp_review p with
  | None => p
  | Some _ =>
      {| rp_review := rp_review p; rp_by := rp_by p; rp_agent := rp_agent p;
         rp_built_with := w ← List.find (fun w => String.eqb (rw_id w) who) (vworkers d); rw_agent w;
         rp_task := rp_task p; rp_review_id := rp_review_id p; rp_solo := rp_solo p; rp_any_host := rp_any_host p; rp_name := rp_name p; rp_owner := rp_owner p |}
  end.
Definition job (kind : string) (t : RTask) (v : option string) (p : RParams) : RTask :=
  {| rt_name := rt_name t; rt_arch := rt_arch t; rt_version := v; rt_kind := kind; rt_trust := "project"; rt_publish := 0; rt_owner := None;
     rt_status := queued; rt_error := None; rt_params := p; rt_pinned := None; rt_lease_owner := None |}.
Definition about (id : Z) (name owner : option string) : RParams :=
  {| rp_review := None; rp_by := None; rp_agent := None; rp_built_with := None; rp_task := Some id; rp_review_id := None; rp_solo := None; rp_any_host := None;
     rp_name := name; rp_owner := owner |}.
(** An older staged build, superseded, with the audit and the trial that wait for it. *)
Definition supersede (d : VDB) (o : Z) : VDB :=
  let waits kind t := String.eqb (rt_kind t) kind && is_status queued (rt_status t) && opt_is o (rp_task (rt_params t)) in
  cancel_where (fun _ t => waits "trial" t) "the build it tried was superseded"
    (cancel_where (fun _ t => waits "audit" t) "the build it audited was superseded" (cancel_where (fun i _ => i =? o) "superseded" d)).
Inductive Done := Taken_ | LeaseMoved | NotUploaded | GateFailed | NoSuch.
(** The build's upload: what staging has of it, and whether the gate's own verdict on it is a failure. *)
Record Upload := { up_have : list string; up_filename : string; up_version : option string; up_gate_failed : bool }.
Definition stageBuild (who : string) (id : Z) (u : Upload) (d : VDB) : VDB * Done :=
  match vtasks d !! id with
  | None => (d, NoSuch)
  | Some t =>
      let review := rp_review (rt_params t) in
      if negb (is_build t && (from_contributor t || match review with Some _ => true | None => false end)) then (d, NoSuch)
      else if negb (forallb (fun f => str_in f (up_have u)) [up_filename u; "PKGBUILD"; "build.log"]) then (d, NotUploaded)
      else if up_gate_failed u then (d, GateFailed)
      else if negb (held_by who t) then (d, LeaseMoved)
      else
        let t' := with_params (built_with who d (rt_params t)) (with_status staged (rt_error t) (with_version (or_else (rt_version t) (up_version u)) (rt_publish t) t)) in
        let d1 := set_vtasks (<[id := t']> (vtasks d)) (next_task d) d in
        let older := map fst (hit (fun i o => is_build o && String.eqb (rt_trust o) (rt_trust t) && is_status staged (rt_status o)
                                     && String.eqb (rt_name o) (rt_name t) && String.eqb (rt_arch o) (rt_arch t) && (i <? id)) d1) in
        let d2 := reclaimStagingPackages older (fold_left supersede older d1) in
        let d3 := on_registration (rt_name t) (said "staged") d2 in
        let d4 := add_task (job "audit" t (up_version u) (about id (Some (rt_name t)) (rt_owner t))) d3 in
        let d5 := match review with Some _ => add_task (job "trial" t (up_version u) (about id (Some (rt_name t)) None)) d4 | None => d4 end in
        (settleTargets (rt_name t) d5, Taken_)
  end.
(** The project's approved build is in the pool. *)
Definition publishDone (who : string) (id : Z) (d : VDB) : VDB * Done :=
  match vtasks d !! id with
  | None => (d, NoSuch)
  | Some t =>
      if negb (String.eqb (rt_kind t) "publish") then (d, NoSuch)
      else if negb (held_by who t) then (d, LeaseMoved)
      else
        let d1 := set_vtasks (<[id := with_status done_ (rt_error t) t]> (vtasks d)) (next_task d) d in
        match rp_task (rt_params t) with
        | None => (d1, Taken_)
        | Some build_id =>
            let d2 := on_registration (rt_name t) (said "published") d1 in
            let d3 := set_vtasks (alter (fun x => if is_status staged (rt_status x) then with_status done_ (rt_error x) (with_version (rt_version x) 1 x) else x) build_id (vtasks d2)) (next_task d2) d2 in
            let from := x ← vtasks d3 !! build_id; rp_review (rt_params x) in
            (settleTargets (rt_name t) (reclaimStagingPackages (build_id :: option_list from) d3), Taken_)
        end
  end.

(** ** Retry at size (handleRetryAtSize) *)

Fixpoint after_digits (s : string) : string := match s with String c s' => if is_digit c then after_digits s' else s | EmptyString => "" end.
Fixpoint drop_chars (n : nat) (s : string) : string := match n, s with S n', String _ s' => drop_chars n' s' | _, _ => s end.
Definition OOM_WORDS : string := "out of memory at ".
(** OOM_ERROR: [/^out of memory at \d+ GB/] *)
Definition OOM_ERROR (e : string) : bool :=
  starts_with OOM_WORDS e
  && let rest := drop_chars (String.length OOM_WORDS) e in
     match rest with String c _ => is_digit c && starts_with " GB" (after_digits rest) | EmptyString => false end.
Definition may_retry (t : RTask) : bool :=
  is_build t && OOM_ERROR (default "" (rt_error t)) && match rt_status t with failed | queued => true | _ => false end.
(** The UPDATE's WHERE, on the row it finds. *)
Definition retried (t : RTask) : bool :=
  is_build t && match rt_status t with failed | queued => true | _ => false end && starts_with OOM_WORDS (default "" (rt_error t)).
Definition queued_again (t : RTask) : RTask :=
  {| rt_name := rt_name t; rt_arch := rt_arch t; rt_version := rt_version t; rt_kind := rt_kind t; rt_trust := rt_trust t; rt_publish := rt_publish t;
     rt_owner := rt_owner t; rt_status := queued; rt_error := rt_error t; rt_params := rt_params t; rt_pinned := rt_pinned t; rt_lease_owner := None |}.
(** [asked] is what the size sent comes to: refused, or the size (Sizing). *)
Definition handleRetryAtSize (c : Reviewer) (id : Z) (asked : (Z * string) + Z) (read d : VDB) : VDB * Answer :=
  if negb (isMaintainer c) then refuse d 403 "maintainer"
  else match vtasks read !! id with
  | None => (d, NotFound)
  | Some t =>
      if negb (may_retry t) then refuse d 409 "not_oom"
      else match asked with
      | inl (status, code) => refuse d status code
      | inr _ =>
          match vtasks d !! id with
          | Some t' => if retried t' then (settleTargets (rt_name t) (set_vtasks (<[id := queued_again t']> (vtasks d)) (next_task d) d), DoneAs id) else refuse d 409 "moved"
          | None => refuse d 409 "moved"
          end
      end
  end.
