(* ===== verification/Projects.v ===== *)
(** * The project a request names (worker/src/request.ts, routes/contributors.ts parseProjectUrl and detect)

    An address read as a project - a GitHub repository, a release of it, another forge's repository, a vendor's page -, what GitHub
    says of a repository, whether a source answers, and the checks a request is shown by. The platform's URL parser and fetch are
    arguments. *)
From S2P Require Import Prelude JsTime Json JsonText Bytes Governance.
Local Open Scope string_scope.
Local Open Scope Z_scope.

(** What [new URL(s)] reads (None where it throws), and what [fetch] answers: None where it throws, else the status and the body as JSON. *)
Record Url := { u_protocol : string; u_hostname : string; u_host : string; u_pathname : string }.
Class Web := { URL : string -> option Url; fetch : string -> string -> option (Z * option json) }.

(** ** Text *)

Definition id_char (c : ascii) : bool := is_alnum c || existsb (Ascii.eqb c) (String.list_ascii_of_string "._+-").
(** [s.trim().split(/\s+/)] *)
Fixpoint words_acc (w : string) (s : string) : list string :=
  match s with
  | EmptyString => if truthy w then [w] else []
  | String c r => if is_space c then (if truthy w then w :: words_acc "" r else words_acc "" r) else words_acc (w +:+ String c "") r
  end.
Definition words_of (s : string) : list string := words_acc "" s.
Definition no_space (s : string) : bool := str_forallb (fun c => negb (is_space c)) s.
Definition is_https (s : string) : bool := starts_with "https://" s && truthy (str_drop 8 s) && no_space (str_drop 8 s).
Definition upper_hex (n : N) : ascii := ascii_of_N (if (n <? 10)%N then 48 + n else 55 + n)%N.
Definition unreserved (c : ascii) : bool := is_alnum c || existsb (Ascii.eqb c) (String.list_ascii_of_string "-_.!~*'()").
Fixpoint encodeURIComponent (s : string) : string :=
  match s with
  | EmptyString => ""
  | String c r => let n := N_of_ascii c in
      if unreserved c then String c (encodeURIComponent r) else String "%" (String (upper_hex (n / 16)) (String (upper_hex (n mod 16)) (encodeURIComponent r)))
  end.
(** The bytes of a run of escapes, whole characters or it throws. *)
Fixpoint decode_from (run : bytes) (s : string) : option string :=
  match s with
  | EmptyString => if utf8_ok run then Some (text_of run) else None
  | String "%" (String h (String l r)) =>
      match hex_val h, hex_val l with Some x, Some y => decode_from (run ++ [16 * x + y]) r | _, _ => None end
  | String "%" _ => None
  | String c r => if utf8_ok run then (fun t => text_of run +:+ String c t) <$> decode_from [] r else None
  end.
Definition decodeURIComponent (s : string) : option string := decode_from [] s.

(** ** An address *)

Definition FORGES : list string := ["github.com"; "gitlab.com"; "codeberg.org"].
(** [host in FORGES]: an object's own names, and the two of its prototype's a host can spell. *)
Definition in_forges (host : string) : bool := str_in host (FORGES ++ ["constructor"; "__proto__"]).
Definition seg_char (c : ascii) : bool := is_alnum c || existsb (Ascii.eqb c) (String.list_ascii_of_string "_.-").
Definition is_seg (s : string) : bool := truthy s && str_forallb seg_char s.
Definition without_end (e s : string) : string := if ends_with e s then str_take (String.length s - String.length e) s else s.
Fixpoint before_view (l : list string) : list string := match l with [] => [] | s :: r => if String.eqb s "-" then [] else s :: before_view r end.
Fixpoint map_last (f : string -> string) (l : list string) : list string := match l with [] => [] | [s] => [f s] | s :: r => s :: map_last f r end.
Record Forge := { fg_forge : string; fg_path : string; fg_repo : string }.
Definition forgeOf `{Web} (url : string) : option Forge :=
  match URL url with
  | None => None
  | Some u =>
      let host := let h := to_lower (u_hostname u) in if starts_with "www." h then str_drop 4 h else h in
      if negb (String.eqb (u_protocol u) "https:") || negb (in_forges host) then None
      else
        let segs := before_view (List.filter truthy (split_on "/" (u_pathname u))) in
        let segs := if String.eqb host "gitlab.com" then segs else firstn 2 segs in
        if (length segs <? 2)%nat then None
        else
          let segs := map_last (without_end ".git") segs in
          if forallb is_seg segs then Some {| fg_forge := host; fg_path := join "/" segs; fg_repo := List.last segs "" |} else None
  end.
(** A project: its home, its repository when it is GitHub's, the tag and the source its address says. *)
Record Project := { pj_project : string; pj_github : option (string * string); pj_tag : option string; pj_source : option string }.
Inductive Parsed := parsed (p : Project) | not_parsed | parse_throws.
Definition github_home (o r : string) : string := "https://github.com/" +:+ o +:+ "/" +:+ r.
Definition is_github (u : string) : bool := starts_with "https://github.com/" u.
(** [(…+?)(?:\.git)?]: a repository's last segment. *)
Definition repo_of (s : string) : string := if (4 <? String.length s)%nat then without_end ".git" s else s.
(** The tag an archive's file says. *)
Definition archive_tag (f : string) : option string :=
  let t := if ends_with ".tar.gz" f then without_end ".tar.gz" f else if ends_with ".zip" f then without_end ".zip" f else "" in if truthy t then Some t else None.
Definition github_at (o r : string) (tag source : option string) : Project :=
  {| pj_project := github_home o r; pj_github := Some (o, r); pj_tag := tag; pj_source := source |}.
Definition github_tagged (o r tag : string) (source : option string) : Parsed :=
  match decodeURIComponent tag with Some t => parsed (github_at o r (Some t) source) | None => parse_throws end.
Definition github_segs (u : string) : list string := split_on "/" (str_drop 19 u).
Definition of_github (u : string) : Parsed :=
  let repository o r := if is_seg o && is_seg r then parsed (github_at o (repo_of r) None None) else not_parsed in
  match github_segs u with
  | [o; r; "archive"; "refs"; "tags"; f] =>
      match archive_tag f with Some t => if is_seg o && is_seg r then github_tagged o r t (Some u) else not_parsed | None => not_parsed end
  | [o; r; "releases"; "tag"; t] | [o; r; "releases"; "tag"; t; ""] => if is_seg o && is_seg r && truthy t then github_tagged o r t None else not_parsed
  | [o; r] | [o; r; ""] => repository o r
  | _ => not_parsed
  end.
Fixpoint trim_slashes (s : string) : string :=
  match s with
  | EmptyString => ""
  | String c r => let r' := trim_slashes r in if Ascii.eqb c "/" && negb (truthy r') then "" else String c r'
  end.
Definition parseProjectUrl `{Web} (raw : string) : Parsed :=
  let u := trim raw in
  let vendor home := parsed {| pj_project := home; pj_github := None; pj_tag := None; pj_source := None |} in
  if negb (is_https u) then not_parsed
  else if is_github u then of_github u
  else match forgeOf u with
  | Some f => if negb (String.eqb (fg_forge f) "github.com") then vendor ("https://" +:+ fg_forge f +:+ "/" +:+ fg_path f)
              else match URL u with Some p => vendor (u_protocol p +:+ "//" +:+ to_lower (u_host p) +:+ trim_slashes (u_pathname p)) | None => not_parsed end
  | None => match URL u with Some p => vendor (u_protocol p +:+ "//" +:+ to_lower (u_host p) +:+ trim_slashes (u_pathname p)) | None => not_parsed end
  end.
Definition sourceHasPath `{Web} (s : string) : bool := match URL s with Some u => truthy (trim_slashes (u_pathname u)) | None => false end.

(** ** What GitHub says, whether a source answers *)

Section Asked.
Context `{Web}.
Definition is_ok (status : Z) : bool := (200 <=? status) && (status <=? 299).
(** One call: None where it throws, Some None where GitHub has no such page. *)
Definition gh (path : string) : option (option json) :=
  match fetch "GET" ("https://api.github.com" +:+ path) with
  | None => None
  | Some (status, body) => if status =? 404 then Some None else if negb (is_ok status) then None else Some <$> body
  end.
Record Detected := { dt_error : bool; dt_tag : option string; dt_license : option string; dt_pkgbuild : bool }.
Definition no_answer : Detected := {| dt_error := true; dt_tag := None; dt_license := None; dt_pkgbuild := false |}.
Definition first_of (v : option json) : option json := match v with Some (JArr (x :: _)) => Some x | _ => None end.
Definition is_blob (name : string) (v : json) : bool :=
  ostr_eqb (as_str (field (Some v) "type")) (Some "blob") && ostr_eqb (as_str (field (Some v) "path")) (Some name).
Definition top_has (tree : option json) (name : string) : bool := match field tree "tree" with Some (JArr l) => existsb (is_blob name) l | _ => false end.
(** The latest release's tag, or the newest tag. *)
Definition latest_tag (home : string) : option (option string) :=
  rel ← gh (home +:+ "/releases/latest");
  let tag := as_str (field rel "tag_name") in
  if truthyo tag then Some tag else tags ← gh (home +:+ "/tags?per_page=1"); Some (as_str (field (first_of tags) "name")).
Definition detect (url : string) : Detected :=
  match is_github url, of_github url with
  | true, parsed {| pj_github := Some (o, r); pj_tag := None |} =>
      let home := "/repos/" +:+ o +:+ "/" +:+ r in
      match gh home with
      | Some (Some (JObj meta)) =>
          let meta := Some (JObj meta) in
          default no_answer (
            tag ← latest_tag home;
            tree ← gh (home +:+ "/git/trees/" +:+ encodeURIComponent (default (default "undefined" (as_str (field meta "default_branch"))) tag));
            Some {| dt_error := false; dt_tag := tag; dt_license := as_str (field (field meta "license") "spdx_id"); dt_pkgbuild := top_has tree "PKGBUILD" |})
      | _ => no_answer
      end
  | _, _ => no_answer
  end.
Definition sourceAnswers (source : string) : bool :=
  match fetch "HEAD" source with
  | Some (status, _) =>
      is_ok status || ((status =? 405) || (status =? 403)) && match fetch "GET" source with Some (status, _) => is_ok status | None => false end
  | None => false
  end.
End Asked.

(** ** What a request says, and the checks it is shown by *)

Definition CHECKLIST : list string := ["official"; "license"; "unshipped"; "evidence"].
Definition is_spdx (w : string) : bool := truthy w && str_forallb id_char w.
Fixpoint spdx_rest (l : list string) : bool :=
  match l with
  | [] => true
  | op :: w :: r => str_in op ["OR"; "AND"; "WITH"] && is_spdx w && spdx_rest r
  | _ => false
  end.
(** LICENSE, of a text trimmed. *)
Definition LICENSE (s : string) : bool :=
  (starts_with "custom:" s && is_spdx (str_drop 7 s)) || match words_of s with w :: r => is_spdx w && spdx_rest r | [] => false end.
(** PKGNAME *)
Definition name_char (c : ascii) : bool := is_digit c || is_lower c || existsb (Ascii.eqb c) (String.list_ascii_of_string "@._+-").
Definition PKGNAME (s : string) : bool :=
  match s with
  | String c r => (is_digit c || is_lower c || existsb (Ascii.eqb c) (String.list_ascii_of_string "@_+")) && str_forallb name_char r && (String.length r <=? 99)%nat
  | EmptyString => false
  end.
Record RequestedPackage := { rp_project : option string; rp_source : option string; rp_description : option string; rp_license : option string; rp_detected : option json }.
Record RequestRow := { row_id : Z; row_version : string; row_checklist : option json; row_migrated : Z; row_record : string; row_created_at : string }.
Inductive CheckKey := ck_project | ck_source | ck_description | ck_license | ck_checklist | ck_record.
Record RequestCheck := { ck_key : CheckKey; ck_ok : bool; ck_note : string }.
Record RequestChecks := { rc_checks : list RequestCheck; rc_complete : bool; rc_confirmed : list (string * bool); rc_migrated : bool }.
Definition httpso (s : option string) : bool := match s with Some s => is_https s | None => false end.
(** A URL as a note reads it: the host and the last segment. *)
Definition tail (s : string) : string :=
  let bare := if starts_with "https://" s then str_drop 8 s else if starts_with "http://" s then str_drop 7 s else s in
  let bare := trim_slashes (if starts_with "www." bare then str_drop 4 bare else bare) in
  let parts := split_on "/" bare in
  if (3 <? length parts)%nat then hd "" parts +:+ "/…/" +:+ List.last parts "" else bare.
Definition is_confirmed (checklist : option json) (k : string) : bool := match field checklist k with Some (JBool true) => true | _ => false end.
Definition requestChecks `{Web} (pkg : RequestedPackage) (req : option RequestRow) : RequestChecks :=
  let confirmed := map (fun k => (k, is_confirmed (q ← req; row_checklist q) k)) CHECKLIST in
  let n := zlen (List.filter (fun c => c.2) confirmed) in
  let all := n =? zlen CHECKLIST in
  let migrated := match req with Some q => row_migrated q =? 1 | None => false end in
  let version := trim (match req with Some q => row_version q | None => "" end) in
  let known := truthy version && negb (String.eqb version "unknown") in
  let description := trim (default "" (rp_description pkg)) in
  let license := trim (default "" (rp_license pkg)) in
  let says := match as_str (field (rp_detected pkg) "license") with Some l => if String.eqb l "NOASSERTION" then "" else l | None => "" end in
  let agrees := negb (truthy says) || String.eqb (to_lower says) (to_lower license) in
  let project := default "" (rp_project pkg) in let source := default "" (rp_source pkg) in
  let checks :=
    [ {| ck_key := ck_project; ck_ok := httpso (rp_project pkg); ck_note := if httpso (rp_project pkg) then tail project else "no project URL on the record" |};
      {| ck_key := ck_source; ck_ok := httpso (rp_source pkg) && known && sourceHasPath source;
         ck_note := if negb (httpso (rp_source pkg)) then "no source URL" else if negb known then "the version is unknown — name the release"
                    else if negb (sourceHasPath source) then version +:+ ", but the source is a home page, not a release" else version +:+ " · " +:+ tail source |};
      {| ck_key := ck_description; ck_ok := (8 <=? String.length description)%nat && (String.length description <=? 120)%nat;
         ck_note := if truthy description then (if (120 <? String.length description)%nat then zstr (Z.of_nat (String.length description)) +:+ " characters — 120 is the most"
                                                else if (String.length description <? 8)%nat then "too short" else description) else "missing" |};
      {| ck_key := ck_license; ck_ok := truthy license && LICENSE license && agrees;
         ck_note := if negb (truthy license) then "missing" else if negb (LICENSE license) then license +:+ " is not an SPDX identifier"
                    else if negb agrees then license +:+ " — GitHub says " +:+ says else license +:+ (if truthy says then " · GitHub agrees" else "") |};
      {| ck_key := ck_checklist; ck_ok := all;
         ck_note := if all then "confirmed by the contributor"
                    else if migrated then "none — written from a registration made before the request form; renew the request to confirm them"
                    else match req with Some _ => zstr n +:+ " of " +:+ zstr (zlen CHECKLIST) | None => "no request on the record" end |};
      {| ck_key := ck_record; ck_ok := match req with Some q => truthy (row_record q) | None => false end;
         ck_note := match req with Some q => "request #" +:+ zstr (row_id q) +:+ " · " +:+ str_take 10 (row_created_at q) | None => "no record" end |} ] in
  {| rc_checks := checks; rc_complete := forallb ck_ok checks; rc_confirmed := confirmed; rc_migrated := migrated |}.
