(* ===== verification/Contributors.v ===== *)
(** * A contributor's rights, and who may have a name (worker/src/routes/contributors.ts)

    The one table of rights the pages draw and the doors refuse with (workspace), and the name's rule: when a registration's name
    is free, who holds it, whether a request for it would be taken. Nothing here writes; the doors are in Requests. *)
From S2P Require Import Prelude JsTime Json Tasks Targets Rings Governance Projects Review ReviewDoors Blocks.
Local Open Scope string_scope.
Local Open Scope Z_scope.

(** ** The rights *)

(** Who asks: a signed-in contributor, with whether a maintainer blocked them. *)
Record Caller := { ca_who : Reviewer; ca_blocked : bool }.
Definition ca_login (c : Caller) : string := rr_login (ca_who c).
Definition ca_maintains (c : Caller) : bool := isMaintainer (ca_who c).
Definition landed (status : string) : bool := str_in status ["approved"; "published"].
(** A registration as Remove reads it, a worker as its row's button reads it. *)
Record Removable := { rm_name : string; rm_owner : string; rm_status : string; rm_served : list string; rm_reviewing : option (Z * Status) }.
Record WorkerRow := { wr_id : string; wr_owner : option string; wr_revoked : bool }.
Inductive WWhy :=
| w_sign_in | w_blocked | w_only_owner | w_owner_or_maintainer | w_maintainer_decides | w_pool_hosts | w_gone | w_revoked
| w_landed (status : string) | w_served (rings : list string) | w_reviewing (id : Z) (s : Status).
(** None is allowed; a refusal has the status the door answers. *)
Definition WVerdict : Type := option (Z * WWhy).
Inductive Right := r_request | r_register | r_token | r_build | r_dequeue | r_remove | r_revoke | r_withdraw.
Definition RIGHTS : list Right := [r_request; r_register; r_token; r_build; r_dequeue; r_remove; r_revoke; r_withdraw].
Definition wno (status : Z) (w : WWhy) (b : bool) : WVerdict := if b then Some (status, w) else None.
(** [a ?? b ?? … ?? allow] *)
Definition wfirst (l : list WVerdict) : WVerdict := foldr (fun v r => match v with Some x => Some x | None => r end) None l.
Section Workspace.
Context (c : option Caller) (login : string).
Definition w_person : WVerdict := wno 401 w_sign_in (match c with None => true | _ => false end).
Definition w_owner : bool := match c with Some c => String.eqb (ca_login c) login | None => false end.
Definition w_maintainer : bool := match c with Some c => ca_maintains c | None => false end.
Definition w_block : WVerdict := wno 403 w_blocked (match c with Some c => ca_blocked c | None => false end).
Definition onlyOwner (status : Z) : WVerdict := wfirst [w_person; wno status w_only_owner (negb w_owner)].
Definition ownerOrMaintainer (status : Z) : WVerdict := wfirst [w_person; wno status w_owner_or_maintainer (negb (w_owner || w_maintainer))].
(** Who provides a machine to the pool: a maintainer, on their own page, not blocked. *)
Definition provide : WVerdict := wfirst [onlyOwner 403; wno 403 w_pool_hosts (negb w_maintainer); w_block].
Definition workspace (r : Right) : WVerdict :=
  match r with
  | r_request => wfirst [onlyOwner 403; w_block]
  | r_register => match provide with None => Some (410, w_gone) | v => v end
  | r_token => onlyOwner 403
  | r_build => wfirst [onlyOwner 404; w_block]
  | r_dequeue => onlyOwner 403
  | r_remove => ownerOrMaintainer 403
  | r_revoke => ownerOrMaintainer 404
  | r_withdraw => wfirst [w_person; wno 403 w_maintainer_decides (negb w_maintainer)]
  end.
(** Remove on each registration, Revoke on each worker. *)
Definition removes (x : Removable) : WVerdict :=
  let theirs := match c with Some c => String.eqb (ca_login c) (rm_owner x) | None => false end in
  wfirst [w_person; wno 403 w_only_owner (negb theirs && negb w_maintainer);
          wno 403 (w_landed (rm_status x)) (negb w_maintainer && landed (rm_status x));
          wno 409 (w_served (rm_served x)) (negb w_maintainer && match rm_served x with [] => false | _ => true end);
          match rm_reviewing x with Some (id, s) => wno 409 (w_reviewing id s) (negb w_maintainer) | None => None end].
Definition revokes (w : WorkerRow) : WVerdict := wfirst [w_person; wno 404 w_revoked (wr_revoked w); workspace r_revoke].
End Workspace.
(** The verdicts as a page reads them. *)
Definition rights (c : option Caller) (login : string) : list (Right * option WWhy) := map (fun r => (r, snd <$> workspace c login r)) RIGHTS.

(** registrationsOf, by name: the rings that serve the factory's builds of it, the project's build of it in flight. *)
Definition serves (name : string) (p : RDB) (ring : string) : bool :=
  existsb (fun r => String.eqb (p_name r.2) name && String.eqb (p_source r.2) "factory") (map_to_list (joined p (ringMembers p ring))).
Definition registrationOf (d : VDB) (name : string) : option Removable :=
  (fun g => {| rm_name := name; rm_owner := rg_owner g; rm_status := rg_status g;
               rm_served := List.filter (serves name (pool d)) RINGS;
               rm_reviewing := (fun t => (t.1, rt_status t.2)) <$>
                 head (sort_by id_desc (hit (fun _ t => of_name name ["build"] t && from_project t && in_flight (rt_status t)) d)) |})
  <$> registrations d !! name.

(** ** The name's rule *)

(** nameIsFree, FREE_SQL *)
Definition nameIsFree (g : Registration) : bool :=
  String.eqb (rg_status g) "unmaintained"
  || (String.eqb (rg_status g) "rejected" && match rg_freed_by g with Some _ => true | None => false end).
(** A source's row of the name in edge. *)
Record Provided := { pv_source : string; pv_arch : string; pv_version : string }.
Definition providedBy (d : VDB) (name : string) : list Provided :=
  map (fun r => {| pv_source := p_source r.2; pv_arch := p_arch r.2; pv_version := p_version r.2 |})
    (List.filter (fun r => String.eqb (p_name r.2) name) (map_to_list (joined (pool d) (ringMembers (pool d) "edge")))).
Record NameFacts := { nf_name : option Registration; nf_in_pool : option Z; nf_running : option Z; nf_provided : list Provided }.
(** The registration from [read], the rest from [later]: a standing approval of it, a build of it that runs, what the sources ship. *)
Definition nameFacts (read later : VDB) (name : string) : NameFacts :=
  let byName := registrations read !! name in
  let some {A} (o : option A) := match byName with Some _ => o | None => None end in
  {| nf_name := byName;
     nf_in_pool := some (fst <$> List.find (fun a => String.eqb (ap_name a.2) name && app_stands a.2) (map_to_list (approvals later)));
     nf_running := some (fst <$> head (sort_by id_desc (hit (fun _ t => of_name name ["build"] t && is_status leased (rt_status t)) later)));
     nf_provided := providedBy later name |}.
Definition upstreamOf (provided : list Provided) (arches : list string) : list Provided :=
  List.filter (fun p => negb (str_in (pv_source p) ["factory"; "chaotic"]) && str_in (pv_arch p) arches) provided.
Inductive NameState := ns_blocked | ns_reserved | ns_taken | ns_busy.
Definition NameRefusal : Type := option (Z * NameState).
Definition nameHeld (f : NameFacts) (login : option string) : NameRefusal :=
  match nf_name f with
  | None => None
  | Some g =>
      match rg_blocked g with
      | Some _ => Some (403, ns_blocked)
      | None =>
          if negb (ostr_eqb (Some (rg_owner g)) login) && negb (nameIsFree g)
          then Some (409, if landed (rg_status g) then ns_taken else ns_reserved) else None
      end
  end.
Definition renewable (status : string) : bool := str_in status ["registered"; "waiting"; "rejected"; "unmaintained"; "staged"].
Definition nameInUse (f : NameFacts) (arches : list string) : NameRefusal :=
  let upstream := upstreamOf (nf_provided f) arches in
  match (match nf_name f with Some g => if negb (renewable (rg_status g)) then Some (409, if landed (rg_status g) then ns_taken else ns_busy) else None | None => None end) with
  | Some r => Some r
  | None =>
      match nf_in_pool f, nf_running f with
      | Some _, _ => Some (409, ns_taken)
      | None, Some _ => Some (409, ns_busy)
      | None, None => if (length upstream =? length arches)%nat then Some (409, ns_taken) else None
      end
  end.

(** The Factory form's live check (handleNameStanding). *)
Inductive Standing := st_invalid | st_state (s : option NameState).
Record Stands := { sg_state : Standing; sg_owner : option string; sg_freed : option string; sg_renew : option NameState }.
Definition handleNameStanding (name : string) (arches : list string) (read later : VDB) : Stands :=
  let name := to_lower name in
  let arches := List.filter (fun a => str_in a REPO_ARCHES) arches in
  let asked := match arches with [] => REPO_ARCHES | _ => arches end in
  if negb (PKGNAME name) then {| sg_state := st_invalid; sg_owner := None; sg_freed := None; sg_renew := None |}
  else
    let f := nameFacts read later name in
    let open g := match rg_blocked g with None => true | Some _ => false end in
    {| sg_state := st_state (snd <$> match nameHeld f None with Some r => Some r | None => nameInUse f asked end);
       sg_owner := rg_owner <$> nf_name f;
       sg_freed := g ← nf_name f; if open g && nameIsFree g then Some (rg_status g) else None;
       sg_renew := g ← nf_name f; if open g then snd <$> nameInUse f asked else None |}.
(** What the form makes of it for who is signed in: whether the request may be sent. *)
Definition nameOk (s : Stands) (login : string) : bool :=
  match sg_state s with st_state None => true | _ => false end
  || match sg_owner s with
     | Some o => truthy o && String.eqb o login && negb match sg_state s with st_state (Some ns_blocked) => true | _ => false end
                 && match sg_renew s with None => true | Some _ => false end
     | None => false
     end.
