(* ===== verification/Requests.v ===== *)
(** * The contributors' doors (worker/src/routes/contributors.ts)

    A package requested - its name reserved in one statement, the request recorded, its builds queued -, built again, taken out of
    the queue, removed; a worker revoked. A request is two steps: what it reads and the reservation, then what it writes once the
    record is in the bucket, or the reservation undone. The columns the review never reads are beside it: [names] has
    factory_packages', [cols] build_tasks'. *)
From S2P Require Import Prelude JsTime Json Tasks Targets Rings Governance Projects Review ReviewDoors Blocks Delivery Contributors.
Local Open Scope string_scope.
Local Open Scope Z_scope.

(** ** The tables *)

Record NameCols := { nc_request : option Z; nc_project : option string; nc_url : string; nc_release : option string; nc_recipe : option string; nc_tag : option string }.
(** A queued build's own: the recipe it builds, the asker's reason, and its params' marks. *)
Record TaskCols := {
  tc_ref : string; tc_reason : string; tc_lesson : option Z; tc_hint : option string; tc_native : bool; tc_4k : bool; tc_bump : option string; tc_created : Z }.
(** A row of package_requests. *)
Record ReqRow := { rq_name : string; rq_owner : string; rq_project : string; rq_source : string; rq_version : string; rq_arches : list string }.
(** [maintainers] is factory_maintainers, the list the governance file gives. *)
Record CDB := {
  cv : VDB; names : gmap string NameCols; cols : gmap Z TaskCols; requests : gmap Z ReqRow; next_request : Z; maintainers : list string; updates_checked : option string }.
Definition set_cv (d : VDB) (x : CDB) : CDB :=
  {| cv := d; names := names x; cols := cols x; requests := requests x; next_request := next_request x; maintainers := maintainers x; updates_checked := updates_checked x |}.
Definition set_names (n : gmap string NameCols) (x : CDB) : CDB :=
  {| cv := cv x; names := n; cols := cols x; requests := requests x; next_request := next_request x; maintainers := maintainers x; updates_checked := updates_checked x |}.
Definition set_cols (k : gmap Z TaskCols) (x : CDB) : CDB :=
  {| cv := cv x; names := names x; cols := k; requests := requests x; next_request := next_request x; maintainers := maintainers x; updates_checked := updates_checked x |}.
Definition add_request (r : ReqRow) (x : CDB) : CDB :=
  {| cv := cv x; names := names x; cols := cols x; requests := <[next_request x := r]> (requests x); next_request := next_request x + 1;
     maintainers := maintainers x; updates_checked := updates_checked x |}.
Definition col (x : CDB) (id : Z) : TaskCols :=
  default {| tc_ref := ""; tc_reason := ""; tc_lesson := None; tc_hint := None; tc_native := false; tc_4k := false; tc_bump := None; tc_created := 0 |} (cols x !! id).
(** An INSERT of a contributor's build, with its columns. *)
Definition community_build (name arch : string) (version : option string) (owner : string) (pinned : option string) : RTask :=
  {| rt_name := name; rt_arch := arch; rt_version := version; rt_kind := "build"; rt_trust := "community"; rt_publish := 0; rt_owner := Some owner;
     rt_status := queued; rt_error := None; rt_params := no_params; rt_pinned := pinned; rt_lease_owner := None |}.
Definition add_build (t : RTask) (k : TaskCols) (x : CDB) : CDB :=
  set_cols (<[next_task (cv x) := k]> (cols x)) (set_cv (add_task t (cv x)) x).

(** ** The queue *)

Definition QUEUED_QUOTA : Z := 10.
Record QueueAsk := { qa_arches : option (list string); qa_worker : option string; qa_hint : option string; qa_reason : option string; qa_release : option string }.
Record Queued := { qd_tasks : list Z; qd_building : list (Z * string) }.
(** buildersFor: the community registrations of a maintainer, of this architecture. *)
Definition buildersFor (x : CDB) (arch : string) : list RWorker :=
  List.filter (fun w => negb (rw_revoked w) && String.eqb (rw_trust w) "community" && String.eqb (rw_arch w) arch
                        && match rw_owner w with Some o => str_in o (maintainers x) | None => false end) (vworkers (cv x)).
Definition replace_dash (c : ascii) : ascii := if Ascii.eqb c "-" then "_"%char else c.
Fixpoint str_map (f : ascii -> ascii) (s : string) : string := match s with String c r => String (f c) (str_map f r) | EmptyString => "" end.
Definition version_of (tag : option string) : option string :=
  match tag with
  | Some t => if truthy t then Some (str_map replace_dash (if starts_with "v" t then str_drop 1 t else t)) else None
  | None => None
  end.
Definition ref_of (url : string) (recipe tag : option string) : string :=
  if truthyo recipe then url +:+ "@" +:+ default "HEAD" tag +:+ ":" +:+ default "" recipe else "draft:" +:+ url +:+ "@" +:+ default "latest" tag.
(** The last build of this architecture that ended with a drafted recipe: the drafter's lesson. *)
Definition last_ended (x : CDB) (name arch : string) : option Z :=
  fst <$> head (sort_by id_desc (hit (fun id t => of_name name ["build"] t && String.eqb (rt_arch t) arch && from_contributor t && negb (waits_or_runs (rt_status t))
                                            && starts_with "draft:" (tc_ref (col x id))) (cv x))).
(** A task of the same recipe still queued or running. *)
Definition same_recipe (x : CDB) (name arch ref : string) : option (Z * RTask) :=
  head (hit (fun id t => String.eqb (rt_name t) name && String.eqb (rt_arch t) arch && String.eqb (tc_ref (col x id)) ref && waits_or_runs (rt_status t)) (cv x)).
Definition queued_of (x : CDB) (login : string) : Z :=
  zlen (hit (fun _ t => ostr_eqb (rt_owner t) (Some login) && waits_or_runs (rt_status t)) (cv x)).
Definition asked_again (pinned : option string) (t : RTask) : RTask :=
  {| rt_name := rt_name t; rt_arch := rt_arch t; rt_version := rt_version t; rt_kind := rt_kind t; rt_trust := rt_trust t; rt_publish := rt_publish t;
     rt_owner := rt_owner t; rt_status := rt_status t; rt_error := rt_error t; rt_params := no_params; rt_pinned := pinned; rt_lease_owner := rt_lease_owner t |}.
(** The asked build while it waits: the choice made now, the marks only the server takes away. *)
Definition marks_now (pinned : option string) (lesson : option Z) (hint : option string) (was : TaskCols) : TaskCols :=
  let native := match pinned with None => tc_native was | Some _ => false end in
  {| tc_ref := tc_ref was; tc_reason := tc_reason was; tc_lesson := lesson; tc_hint := hint; tc_native := native; tc_4k := native && tc_4k was;
     tc_bump := tc_bump was; tc_created := tc_created was |}.
Record Plan := { pl_name : string; pl_ref : string; pl_version : option string; pl_pinned : option string; pl_hint : option string; pl_reason : string; pl_now : Z }.
(** One architecture; an error ends the loop, with what went before it in the table. *)
Definition queue_one (c : Caller) (p : Plan) (acc : CDB * (Queued + Z * string)) (arch : string) : CDB * (Queued + Z * string) :=
  match acc with
  | (x, inr e) => (x, inr e)
  | (x, inl q) =>
      let lesson := if starts_with "draft:" (pl_ref p) then last_ended x (pl_name p) arch else None in
      match same_recipe x (pl_name p) arch (pl_ref p) with
      | Some (id, t) =>
          if is_status queued (rt_status t)
          then (set_cols (<[id := marks_now (pl_pinned p) lesson (pl_hint p) (col x id)]> (cols x))
                  (set_cv (set_vtasks (alter (asked_again (pl_pinned p)) id (vtasks (cv x))) (next_task (cv x)) (cv x)) x),
                inl {| qd_tasks := (qd_tasks q ++ [id])%list; qd_building := qd_building q |})
          else (x, inl {| qd_tasks := qd_tasks q; qd_building := (qd_building q ++ [(id, arch)])%list |})
      | None =>
          if QUEUED_QUOTA <=? queued_of x (ca_login c) then (x, inr (429, "quota"))
          else
            (add_build (community_build (pl_name p) arch (pl_version p) (ca_login c) (pl_pinned p))
               {| tc_ref := pl_ref p; tc_reason := pl_reason p; tc_lesson := lesson; tc_hint := pl_hint p; tc_native := false; tc_4k := false; tc_bump := None;
                  tc_created := pl_now p |} x,
             inl {| qd_tasks := (qd_tasks q ++ [next_task (cv x)])%list; qd_building := qd_building q |})
      end
  end.
(** What a worker named comes to: none, or the one that builds it, alone and not drained. *)
Definition named_builder (x : CDB) (arches : list string) (worker : option string) : option string + Z * string :=
  let w := trim (default "" worker) in
  if negb (truthy w) || str_in w ["shared"; "queue"] then inl None
  else match arches with
  | [arch] =>
      match List.find (fun b => String.eqb (rw_id b) w) (buildersFor x arch) with
      | None => inr (403, "not_a_builder")
      | Some b => if rw_drained b then inr (409, "drained") else inl (Some (rw_id b))
      end
  | _ => inr (400, "one_architecture")
  end.
Definition said_waiting (g : Registration) : Registration := if String.eqb (rg_status g) "building" then g else said "waiting" g.
Definition queueBuilds (c : Caller) (name : string) (ask : QueueAsk) (now : Z) (x : CDB) : CDB * (Queued + Z * string) :=
  match registrations (cv x) !! name, names x !! name with
  | Some g, Some n =>
      match rg_blocked g, workspace (Some c) (rg_owner g) r_build with
      | Some _, _ => (x, inr (403, "blocked"))
      | None, Some (status, _) => (x, inr (status, "build"))
      | None, None =>
          let wanted := match qa_arches ask with Some (a :: l) => a :: l | _ => rg_arches g end in
          let arches := List.filter (fun a => str_in a REPO_ARCHES && str_in a (rg_arches g)) wanted in
          match arches with
          | [] => (x, inr (400, "arches"))
          | _ =>
              match named_builder x arches (qa_worker ask) with
              | inr e => (x, inr e)
              | inl pinned =>
                  let tag := or_else (qa_release ask) (or_else (nc_release n) (nc_tag n)) in
                  let hint := let h := trim (default "" (qa_hint ask)) in if truthy h then Some (str_take 600 h) else None in
                  let p := {| pl_name := name; pl_ref := ref_of (nc_url n) (nc_recipe n) tag; pl_version := version_of tag; pl_pinned := pinned; pl_hint := hint;
                              pl_reason := default "contributor" (qa_reason ask); pl_now := now |} in
                  match fold_left (queue_one c p) arches (x, inl {| qd_tasks := []; qd_building := [] |}) with
                  | (x', inl q) =>
                      match qd_tasks q with
                      | [] => (x', inl q)
                      | _ => (set_cv (settleTargets name (on_registration name said_waiting (cv x'))) x', inl q)
                      end
                  | r => r
                  end
              end
          end
      end
  | _, _ => (x, inr (404, "request_first"))
  end.
(** The Build button: "bump to …" is the pool's own word. *)
Definition handleBuildPackage (c : Caller) (name : string) (ask : QueueAsk) (now : Z) (x : CDB) : CDB * (Queued + Z * string) :=
  let reason := let r := trim (default "" (qa_reason ask)) in if truthy r then Some (str_take 200 r) else None in
  match reason with
  | Some r => if starts_with "bump to " (to_lower r) then (x, inr (400, "reason"))
              else queueBuilds c name {| qa_arches := qa_arches ask; qa_worker := qa_worker ask; qa_hint := qa_hint ask; qa_reason := reason; qa_release := qa_release ask |} now x
  | None => queueBuilds c name {| qa_arches := qa_arches ask; qa_worker := qa_worker ask; qa_hint := qa_hint ask; qa_reason := None; qa_release := qa_release ask |} now x
  end.
(** A queued build taken out by its owner. *)
Definition handleDequeueBuild (c : Caller) (name : string) (id : Z) (read d : VDB) : VDB * Answer :=
  match vtasks read !! id with
  | None => (d, NotFound)
  | Some t =>
      if negb (String.eqb (rt_name t) name) then (d, NotFound)
      else if negb (from_contributor t) then refuse d 403 "not_yours"
      else match workspace (Some c) (default "its owner" (rt_owner t)) r_dequeue with
      | Some (status, _) => refuse d status "dequeue"
      | None =>
          if negb (is_status queued (rt_status t)) then refuse d 409 "not_queued"
          else match vtasks d !! id with
          | Some now =>
              if is_status queued (rt_status now) then
                let d1 := set_vtasks (<[id := with_status cancelled (Some ("taken out of the queue by " +:+ ca_login c)) now]> (vtasks d)) (next_task d) d in
                let left_ := hit (fun _ t => of_name name ["build"] t && waits_or_runs (rt_status t)) d1 in
                let d2 := match left_ with
                          | [] => on_registration name (fun g => if String.eqb (rg_status g) "waiting" then said "registered" g else g) d1
                          | _ => d1
                          end in
                (settleTargets name d2, DoneAs id)
              else refuse d 409 "just_taken"
          | None => refuse d 409 "just_taken"
          end
      end
  end.
(** A worker revoked: the builds asked for it go back to the queue. *)
Definition handleRevokeWorker (c : Caller) (id : string) (read d : VDB) : VDB * Answer :=
  match List.find (fun w => String.eqb (rw_id w) id) (vworkers read) with
  | None => (d, NotFound)
  | Some w =>
      let row := {| wr_id := rw_id w; wr_owner := rw_owner w; wr_revoked := rw_revoked w |} in
      match revokes (Some c) (default "its owner" (rw_owner w)) row with
      | Some (status, _) => refuse d status "revoke"
      | None =>
          if existsb (fun w => String.eqb (rw_id w) id && negb (rw_revoked w)) (vworkers d) then
            let revoked w := if String.eqb (rw_id w) id
                             then {| rw_id := rw_id w; rw_arch := rw_arch w; rw_trust := rw_trust w; rw_revoked := true; rw_drained := rw_drained w; rw_owner := rw_owner w;
                                     rw_kinds := rw_kinds w; rw_agent := rw_agent w; rw_agent_status := rw_agent_status w; rw_last_seen := rw_last_seen w; rw_busy := rw_busy w |}
                             else w in
            let d1 := set_people (people d) (map revoked (vworkers d)) d in
            (set_vtasks ((fun t => if is_status queued (rt_status t) && ostr_eqb (rt_pinned t) (Some id) then unpinned t else t) <$> vtasks d1) (next_task d1) d1, DoneAs 0)
          else refuse d 404 "revoked"
      end
  end.

(** ** A registration removed *)

Record Removing := { ro_gone : string; ro_by : string; ro_maintainer : bool }.
(** The door, and the rings left: what is still served leaves with it. *)
Definition takeRemoval (c : Caller) (name : string) (read d : VDB) : VDB * (Answer + Removing) :=
  match registrationOf read name with
  | None => (d, inl NotFound)
  | Some r =>
      match removes (Some c) r with
      | Some (status, _) => (d, inl (BadInput status "remove"))
      | None =>
          let d1 := match rm_served r with [] => d | _ => set_pool (pullFromRings name ("registration removed by " +:+ ca_login c) (pool d)).1 d end in
          (d1, inr {| ro_gone := name; ro_by := ca_login c; ro_maintainer := ca_maintains c |})
      end
  end.
(** The builds it stops, as read; a maintainer's removal takes the project's and the publish jobs too. *)
Definition stopping_of (k : Removing) (read : VDB) : list Z :=
  map fst (hit (fun _ t => in_flight (rt_status t)
    && if ro_maintainer k then of_name (ro_gone k) ["build"; "publish"] t else of_name (ro_gone k) ["build"] t && from_contributor t) read).
(** The batch: the builds cancelled whatever they are by then, their audits and trials, the registration gone. *)
Definition finishRemoval (k : Removing) (read : VDB) (x : CDB) : CDB :=
  let ids := stopping_of k read in
  let of_them kind t := String.eqb (rt_kind t) kind && is_status queued (rt_status t) && match rp_task (rt_params t) with Some i => one_of_ids ids i | None => false end in
  let d1 := cancel_where (fun i _ => one_of_ids ids i) ("registration removed by " +:+ ro_by k) (cv x) in
  let d2 := cancel_where (fun _ t => of_them "audit" t) "the build it audited was cancelled with its registration" d1 in
  let d3 := cancel_where (fun _ t => of_them "trial" t) "the build it tried was cancelled with its registration" d2 in
  let d4 := set_registrations (delete (ro_gone k) (registrations d3)) d3 in
  set_names (delete (ro_gone k) (names x)) (set_cv (reclaimStagingPackages ids d4) x).
Definition handleDeletePackage (c : Caller) (name : string) (read later : VDB) (x : CDB) : CDB * Answer :=
  match takeRemoval c name read (cv x) with
  | (d, inl a) => (set_cv d x, a)
  | (d, inr k) => (finishRemoval k later (set_cv d x), DoneAs 0)
  end.

(** ** A package requested *)

Record Ask := {
  ak_name : option string; ak_url : option string; ak_source : option string; ak_version : option string; ak_description : option string;
  ak_license : option string; ak_arches : option (list string); ak_checklist : option json }.
Definition version_char (c : ascii) : bool := is_alnum c || existsb (Ascii.eqb c) (String.list_ascii_of_string "._+~-").
Definition is_version (s : string) : bool := truthy s && str_forallb version_char s && (String.length s <=? 64)%nat.
Definition path_end (s : string) : string := List.last (split_on "/" s) "".

(** reserveName: the name inserted, or taken while it is the caller's to take; None changes nothing. *)
Definition reserve_row (login : string) (g : Registration) : Registration :=
  {| rg_owner := login; rg_status := if nameIsFree g then "registered" else rg_status g; rg_arches := rg_arches g; rg_closed_through := rg_closed_through g;
     rg_freed_by := None; rg_targets := rg_targets g; rg_blocked := rg_blocked g |}.
Definition new_row (login : string) (arches : list string) : Registration :=
  {| rg_owner := login; rg_status := "registered"; rg_arches := arches; rg_closed_through := 0; rg_freed_by := None; rg_targets := []; rg_blocked := None |}.
Definition may_take (login : string) (g : Registration) : bool :=
  match rg_blocked g with None => true | Some _ => false end && (String.eqb (rg_owner g) login || nameIsFree g).
Definition new_names (url : string) : NameCols := {| nc_request := None; nc_project := None; nc_url := url; nc_release := None; nc_recipe := None; nc_tag := None |}.
Definition reserveName (name login url : string) (arches : list string) (x : CDB) : option CDB :=
  match registrations (cv x) !! name with
  | None => Some (set_names (<[name := new_names url]> (names x)) (set_cv (set_registrations (<[name := new_row login arches]> (registrations (cv x))) (cv x)) x))
  | Some g => if may_take login g then Some (set_cv (on_registration name (reserve_row login) (cv x)) x) else None
  end.
(** A reservation held while its record is written: the request, and the registration as it was read. *)
Record Reserved := {
  pq_name : string; pq_by : Caller; pq_was : option (Registration * NameCols); pq_build : list string; pq_project : string; pq_source : string; pq_tag : string;
  pq_recipe : option string; pq_latest : option string }.
Definition pq_login (p : Reserved) : string := ca_login (pq_by p).
Definition tainted (project source login : string) (x : CDB) : bool :=
  existsb (fun r => (String.eqb (rq_project r.2) project || (truthy source && String.eqb (rq_source r.2) source)) && negb (String.eqb (rq_owner r.2) login)
                    && match p ← people (cv x) !! rq_owner r.2; pe_blocked p with Some _ => true | None => false end) (map_to_list (requests x)).
(** Another name of the same project: blocked, or in the pool already. *)
Definition by_project (project name : string) (x : CDB) : option (option string) :=
  (fun p => g ← registrations (cv x) !! p.1; rg_blocked g)
  <$> List.find (fun p => ostr_eqb (nc_project p.2) (Some project) && negb (String.eqb p.1 name)) (map_to_list (names x)).
(** The version and its source: from GitHub when the project is there, from the request otherwise. *)
Definition said_source (k : Ask) (p : Project) : string := match pj_source p with Some s => s | None => trim (default "" (ak_source k)) end.
Definition version_and_source `{Web} (k : Ask) (p : Project) (license : string) : string * string * Detected + Z * string :=
  let tag := match pj_tag p with Some t => t | None => trim (default "" (ak_version k)) end in
  let source := said_source k p in
  match pj_github p with
  | Some _ =>
      let dt := detect (pj_project p) in
      let tag := if truthy tag then tag else default "" (dt_tag dt) in
      let source := if truthy source then source else pj_project p +:+ "/archive/refs/tags/" +:+ encodeURIComponent tag +:+ ".tar.gz" in
      if dt_error dt then inr (400, "detect")
      else if negb (truthy tag) then inr (400, "no_release")
      else if match dt_license dt with Some l => truthy l && negb (String.eqb l "NOASSERTION") && negb (String.eqb (to_lower l) (to_lower license)) | None => false end
      then inr (400, "license")
      else inl (tag, source, dt)
  | None =>
      if negb (is_https source && sourceHasPath source) then inr (400, "source")
      else if negb (is_version tag) then inr (400, "version")
      else inl (tag, source, {| dt_error := false; dt_tag := None; dt_license := None; dt_pkgbuild := false |})
  end.
Definition said_description (k : Ask) : string := join " " (words_of (default "" (ak_description k))).
Definition said_license (k : Ask) : string := trim (default "" (ak_license k)).
Definition said_name (k : Ask) (p : Project) : string :=
  to_lower (match ak_name k with Some n => n | None => match pj_github p with Some (_, r) => r | None => path_end (pj_project p) end end).
Definition asked_arches (k : Ask) : list string := List.filter (fun a => str_in a REPO_ARCHES) (default REPO_ARCHES (ak_arches k)).
(** Everything checked before anything is written; then the name reserved. *)
Definition takeRequest `{Web} (c : Caller) (k : Ask) (read later x : CDB) : CDB * (Answer + Reserved) :=
  let refuse status code := (x, inl (BadInput status code)) in
  match workspace (Some c) (ca_login c) r_request, (if truthyo (ak_url k) then parseProjectUrl (default "" (ak_url k)) else not_parsed) with
  | Some (status, _), _ => refuse status "request"
  | None, not_parsed => refuse 400 "url"
  | None, parse_throws => refuse 500 "throws"
  | None, parsed p =>
      let description := said_description k in
      let license := said_license k in
      let name := said_name k p in
      let arches := asked_arches k in
      let f := nameFacts (cv read) (cv later) name in
      let upstream := upstreamOf (nf_provided f) arches in
      let build := List.filter (fun a => negb (existsb (fun u => String.eqb (pv_arch u) a) upstream)) arches in
      if existsb (fun q => negb (is_confirmed (ak_checklist k) q)) CHECKLIST then refuse 400 "checklist"
      else if (String.length description <? 8)%nat || (120 <? String.length description)%nat then refuse 400 "description"
      else if negb (LICENSE license) then refuse 400 "license"
      else if negb (PKGNAME name) then refuse 400 "name"
      else if match arches with [] => true | _ => false end then refuse 400 "arches"
      else if tainted (pj_project p) (said_source k p) (ca_login c) read then refuse 403 "tainted"
      else match nameHeld f (Some (ca_login c)), by_project (pj_project p) name later, nameInUse f arches with
      | Some (status, _), _, _ => refuse status "held"
      | None, Some (Some _), _ => refuse 403 "project_blocked"
      | None, Some None, _ => refuse 409 "project_taken"
      | None, None, Some (status, _) => refuse status "in_use"
      | None, None, None =>
          match version_and_source k p license with
          | inr (status, code) => refuse status code
          | inl (tag, source, dt) =>
              if negb (sourceAnswers source) then refuse 400 "no_answer"
              else match reserveName name (ca_login c) (pj_project p) build x with
              | None => refuse 409 "reserved"
              | Some x' =>
                  (x', inr {| pq_name := name; pq_by := c;
                              pq_was := match nf_name f, names read !! name with Some g, Some n => Some (g, n) | _, _ => None end;
                              pq_build := build; pq_project := pj_project p; pq_source := source; pq_tag := tag;
                              pq_recipe := if dt_pkgbuild dt then Some "PKGBUILD" else None; pq_latest := dt_tag dt |})
              end
          end
      end
  end.
(** The reservation undone: a new name free again, a registration as it was. *)
Definition unreserve (p : Reserved) (x : CDB) : CDB :=
  match registrations (cv x) !! pq_name p, names x !! pq_name p with
  | Some g, Some n =>
      let was := o ← pq_was p; nc_request o.2 in
      if String.eqb (rg_owner g) (pq_login p) && oz_eqb (nc_request n) was then
        match pq_was p with
        | None => set_names (delete (pq_name p) (names x)) (set_cv (set_registrations (delete (pq_name p) (registrations (cv x))) (cv x)) x)
        | Some (o, _) =>
            set_cv (on_registration (pq_name p) (fun g => {| rg_owner := rg_owner o; rg_status := rg_status o; rg_arches := rg_arches g; rg_closed_through := rg_closed_through g;
                                                             rg_freed_by := rg_freed_by o; rg_targets := rg_targets g; rg_blocked := rg_blocked g |}) (cv x)) x
        end
      else x
  | _, _ => x
  end.
Definition was_staged (p : Reserved) : bool := match pq_was p with Some (o, _) => String.eqb (rg_status o) "staged" | None => false end.
(** The registration written whole, whoever's row it finds. *)
Definition write_request (p : Reserved) (id : Z) (x : CDB) : CDB :=
  let status := if was_staged p then "staged" else "registered" in
  let row := match registrations (cv x) !! pq_name p with
             | None => new_row (pq_login p) (pq_build p)
             | Some g => {| rg_owner := pq_login p; rg_status := status; rg_arches := pq_build p; rg_closed_through := rg_closed_through g; rg_freed_by := rg_freed_by g;
                            rg_targets := rg_targets g; rg_blocked := rg_blocked g |}
             end in
  set_names (<[pq_name p := {| nc_request := Some id; nc_project := Some (pq_project p); nc_url := pq_project p; nc_release := Some (pq_tag p); nc_recipe := pq_recipe p;
                                nc_tag := pq_latest p |}]> (names x))
    (set_cv (set_registrations (<[pq_name p := row]> (registrations (cv x))) (cv x)) x).
(** What is written before the bucket answers: an old build leaves the queue, the request is on the table. *)
Definition recordRow (p : Reserved) (x : CDB) : CDB :=
  let x1 := match pq_was p with
            | Some _ => set_cv (cancel_where (fun _ t => of_name (pq_name p) ["build"] t && from_contributor t && is_status queued (rt_status t))
                                  ("superseded: the request was renewed by " +:+ pq_login p) (cv x)) x
            | None => x
            end in
  add_request {| rq_name := pq_name p; rq_owner := pq_login p; rq_project := pq_project p; rq_source := pq_source p; rq_version := pq_tag p; rq_arches := pq_build p |} x1.
(** The record in the bucket: the registration points at it, and the request queues its builds. *)
Definition finishRequest (p : Reserved) (now : Z) (x : CDB) : CDB * Answer :=
  let id := next_request x in
  let x3 := write_request p id (recordRow p x) in
  let keeps := was_staged p && match pq_was p with Some (_, n) => String.eqb (default "" (nc_release n)) (pq_tag p) | None => false end in
  let no_ask := {| qa_arches := None; qa_worker := None; qa_hint := None; qa_reason := None; qa_release := None |} in
  let x4 := if keeps then x3 else (queueBuilds (pq_by p) (pq_name p) no_ask now x3).1 in
  (set_cv (settleTargets (pq_name p) (cv x4)) x4, DoneAs id).
(** A record the bucket refused, or a request no row was written of. *)
Definition failRequest (p : Reserved) (recorded : bool) (x : CDB) : CDB := unreserve p (if recorded then recordRow p x else x).
Definition handleRequestPackage `{Web} (c : Caller) (k : Ask) (now : Z) (read later x : CDB) : CDB * Answer :=
  match takeRequest c k read later x with
  | (x', inl a) => (x', a)
  | (x', inr p) => finishRequest p now x'
  end.
