(* ===== verification/ReviewFacts.v ===== *)
(** What the reads of Review bring, and what its doors' statements do to the tables (Review.v, ReviewDoors.v). *)
From S2P Require Import Prelude JsTime Json Tasks Targets Rings Governance Review ReviewDoors.
Local Open Scope string_scope.
Local Open Scope Z_scope.

(** ** Reading *)

Lemma in_table {A} (m : gmap Z A) p : In p (map_to_list m) <-> m !! p.1 = Some p.2.
Proof. rewrite <- list_elem_of_In. destruct p as [i x]. apply elem_of_map_to_list. Qed.
Lemma tasks_where_In d f p : In p (tasks_where d f) <-> vtasks d !! p.1 = Some p.2 /\ f p.2 = true.
Proof. unfold tasks_where. by rewrite sort_by_In, filter_In, in_table. Qed.
Lemma taken_in {A} n (l : list A) x : In x (take n l) -> In x l.
Proof. intros H. rewrite <- (take_drop n l). apply in_app_iff. by left. Qed.
Lemma omap_In {A B} (f : A -> option B) (l : list A) y : In y (omap f l) <-> exists x, In x l /\ f x = Some y.
Proof.
  rewrite <- list_elem_of_In, list_elem_of_omap. split; intros (x & H & E); exists x; by rewrite ?list_elem_of_In in *.
Qed.
Lemma bind_In {A B} (f : A -> list B) (l : list A) y : In y (l ≫= f) <-> exists x, In x l /\ In y (f x).
Proof.
  rewrite <- list_elem_of_In, list_elem_of_bind. split; intros (x & H & E); exists x; by rewrite ?list_elem_of_In in *.
Qed.
(** What is picked keeps its key: distinct where the list's are. *)
Lemma omap_nodup {A B C} (f : A -> option B) (g : A -> C) (h : B -> C) l :
  NoDup (map g l) -> (forall s q, In s l -> f s = Some q -> h q = g s) -> NoDup (map h (omap f l)).
Proof.
  induction l as [|s l IH]; intros Hn Hk; [constructor|]. cbn [map] in Hn. apply NoDup_cons in Hn as [Hs Hn].
  assert (IH' : NoDup (map h (omap f l))) by (apply IH; [done|intros s' q Hs'; apply Hk; by right]).
  change (omap f (s :: l)) with (match f s with Some q => q :: omap f l | None => omap f l end). destruct (f s) as [q|] eqn:Eq; [|done].
  cbn [map]. constructor; [|done]. rewrite (Hk s q (or_introl eq_refl) Eq). intros (q' & E & (s' & Hs' & Eq')%omap_In)%list_elem_of_In%in_map_iff.
  rewrite (Hk s' q' (or_intror Hs') Eq') in E. apply Hs. rewrite <- E. apply list_elem_of_In. by apply in_map.
Qed.
Lemma filter_nodup {A C} (f : A -> bool) (h : A -> C) l : NoDup (map h l) -> NoDup (map h (List.filter f l)).
Proof.
  induction l as [|s l IH]; [done|]. cbn. intros [Hs Hn]%NoDup_cons. destruct (f s); [|by apply IH]. cbn. constructor; [|by apply IH].
  intros (s' & E & [H _]%filter_In)%list_elem_of_In%in_map_iff. apply Hs. rewrite <- E. apply list_elem_of_In. by apply in_map.
Qed.
Lemma find_spec {A} (f : A -> bool) l x : List.find f l = Some x -> In x l /\ f x = true.
Proof. apply find_some. Qed.
Lemma hit_In f d p : In p (hit f d) <-> vtasks d !! p.1 = Some p.2 /\ f p.1 p.2 = true.
Proof. unfold hit. by rewrite filter_In, in_table. Qed.
Lemma one_of_ids_In ids id : one_of_ids ids id = true <-> In id ids.
Proof. unfold one_of_ids. rewrite existsb_exists. split; [intros (x & H & E); breflect; by subst|intros H; exists id; split; [done|apply Z.eqb_refl]]. Qed.
Lemma opt_is_Some id o : opt_is id o = true <-> o = Some id.
Proof. apply oz_eqb_eq. Qed.
Lemma is_status_true x s : is_status x s = true <-> s = x.
Proof. apply bool_decide_eq_true. Qed.

(** What a decision's rows say of a task, and a rebuild of its evidence. *)
Record rows_ok (d : VDB) : Prop := {
  ok_next : 0 <= next_task d;
  ok_task id t : vtasks d !! id = Some t -> 0 <= id < next_task d;
  ok_app k a : approvals d !! k = Some a -> k < next_app d;
  ok_rev v r : reviews d !! v = Some r -> v < next_rev d;
  ok_rebuild id t r : vtasks d !! id = Some t -> is_build t = true -> from_project t = true -> rp_review (rt_params t) = Some r ->
    exists x, vtasks d !! r = Some x /\ rt_name x = rt_name t /\ rt_arch x = rt_arch t;
  ok_about k a : approvals d !! k = Some a -> exists x, vtasks d !! ap_task a = Some x /\ rt_name x = ap_name a /\ rt_arch x = ap_arch a;
  ok_answer k a r : approvals d !! k = Some a -> ap_rebuild a = Some r -> r = ap_task a;
  ok_review k a : approvals d !! k = Some a -> exists v r, ap_review a = Some v /\ reviews d !! v = Some r /\ rv_name r = ap_name a /\ rv_decision r = ap_decision a }.

Section Reads.
Context (d : VDB) (name : string) (unregistered : bool) (pk : PackageRows).
Hypothesis Hok : rows_ok d.
Hypothesis Hpk : packageRows d name unregistered = Some pk.

Lemma decision_rows_In p : In p (decision_rows d name) -> approvals d !! p.1 = Some p.2 /\ ap_name p.2 = name.
Proof. intros H%taken_in. apply sort_by_In, filter_In in H as [H E]. breflect. by apply in_table in H. Qed.
(** A build the rule reads is a build of the package. *)
Lemma read_build b : In b (pk_builds pk) -> exists t, b = build_of (tb_id (vb b), t) /\ vtasks d !! tb_id (vb b) = Some t /\ rt_name t = name /\ is_build t = true.
Proof.
  assert (Hrows : exists rows ds, (forall p, In p rows -> vtasks d !! p.1 = Some p.2 /\ rt_name p.2 = name /\ is_build p.2 = true) /\
    (forall a, In a ds -> approvals d !! a.1 = Some a.2 /\ ap_name a.2 = name) /\ pk_builds pk = map build_of (rows ++ named_builds d (map fst rows) ds)).
  { exists (REPO_ARCHES ≫= build_rows d name), (decision_rows d name). split_and!.
    - intros p (a & _ & H%taken_in)%bind_In. apply tasks_where_In in H as [H E]. breflect. done.
    - intros a. apply decision_rows_In.
    - unfold packageRows in Hpk. destruct (registrations d !! name), unregistered; try done; by injection Hpk as <-. }
  destruct Hrows as (rows & ds & Hr & Hd & ->). intros ([id t] & <- & H)%in_map_iff. exists t. split; [done|]. cbn. apply in_app_or in H as [H|H]; [by apply Hr in H|].
  unfold named_builds in H. apply filter_In in H as [H E]. apply in_table in H. breflect. cbn in *. split; [done|]. split; [|done].
  match goal with H : existsb _ _ = true |- _ => apply existsb_exists in H as (i & Hi & E) end. breflect. subst i. apply bind_In in Hi as (a & Ha & Hi). destruct (Hd _ Ha) as [Hk Hn].
  assert (id = ap_task a.2) as ->.
  { destruct Hi as [<-|Hi]; [done|]. destruct (ap_rebuild a.2) eqn:Er; [|done]. destruct Hi as [<-|[]]. by eapply ok_answer. }
  destruct (ok_about d Hok _ _ Hk) as (x & Hx & E1 & _). congruence.
Qed.
Let p := buildsOfPackage (pk_builds pk) (pk_decisions pk).
Lemma newest_In b : In b (sort_by newest_build (pk_builds pk)) <-> In b (pk_builds pk).
Proof. apply sort_by_In. Qed.
(** A rebuild as the page reads it is the project's, of its evidence and of its architecture. *)
Lemma project_read q : In q (pb_project p) -> exists t, vtasks d !! re_id q = Some t /\ rt_name t = name /\ is_build t = true /\ from_project t = true
  /\ rp_review (rt_params t) = Some (re_review q) /\ rt_arch t = re_arch q /\ rt_status t = re_status q /\ re_status q <> cancelled.
Proof.
  intros (b & Hb%newest_In & H)%omap_In. destruct (read_build _ Hb) as (t & Eb & Ht & Hn & Hk). rewrite Eb in H. cbn in H.
  destruct (rp_review (rt_params t)) as [r|] eqn:Er; [|done]. destruct (_ && _) eqn:E; [|done]. injection H as <-. cbn. unfold trusted in E. breflect. cbn in *.
  exists t. split_and!; try done; [by apply String.eqb_eq|]. intros Ec. apply is_status_true in Ec. congruence.
Qed.
Lemma staged_read s : In s (pb_staged p) -> exists t, vtasks d !! ev_id s = Some t /\ rt_name t = name /\ is_build t = true /\ from_contributor t = true
  /\ rt_arch t = ev_arch s /\ rt_version t = ev_version s /\ rt_status t = staged.
Proof.
  intros (b & <- & [Hb%newest_In E]%filter_In)%in_map_iff. destruct (read_build _ Hb) as (t & Eb & Ht & Hn & Hk). exists t. rewrite Eb in *. unfold trusted in E. breflect. cbn in *.
  split_and!; try done; [by apply String.eqb_eq|by apply is_status_true].
Qed.
(** The target of an architecture is a build of it. *)
Lemma newest_of_arch ds ct a x : newestOf (map vb (pk_builds pk)) ds ct a = Some x -> exists t, vtasks d !! tb_id x = Some t /\ rt_arch t = a /\ tb_status x = rt_status t /\ tb_trust x = rt_trust t.
Proof.
  intros (H & Hc & _)%newestOf_spec. apply in_map_iff in H as (b & <- & Hb). destruct (read_build _ Hb) as (t & Eb & Ht & Hn & Hk). exists t. split; [done|].
  unfold counts_for in Hc. breflect. rewrite Eb in *. by cbn in *.
Qed.
Lemma target_read a x : assoc a (targets_of pk) = Some x ->
  x = targetOf (map vb (pk_builds pk)) (map vd (pk_decisions pk)) (pk_closed pk) (pk_not_shipping pk) a.
Proof. intros H%assoc_In. by apply targetsOf_In in H. Qed.
Lemma reviewed_from a from : reviewedFrom (assoc a (targets_of pk)) p = Some from ->
  exists x, vtasks d !! from = Some x /\ rt_name x = name /\ rt_arch x = a.
Proof.
  destruct (assoc a _) as [x|] eqn:E; [|done]. apply target_read in E. cbn. destruct (tg_task x) as [task|] eqn:Et; [|done]. cbn. intros H.
  assert (Hb : exists b, newestOf (map vb (pk_builds pk)) (map vd (pk_decisions pk)) (pk_closed pk) a = Some b /\ tb_id b = task).
  { rewrite E in Et, H. unfold targetOf in Et, H. destruct (newestOf _ _ _ _) as [b|]; cbn in *; repeat case_match; simplify_eq/=; eauto. }
  destruct Hb as (b & Hb & <-). destruct (newest_of_arch _ _ _ _ Hb) as (t & Ht & Ha & _).
  assert (Hn : forall y, vtasks d !! tb_id b = Some y -> rt_name y = name).
  { intros y Hy. apply newestOf_spec in Hb as (Hb & _). apply in_map_iff in Hb as (b' & <- & Hb'). destruct (read_build _ Hb') as (t' & _ & Ht' & Hn & _). congruence. }
  assert (Hq : forall q, List.find (fun q => re_id q =? tb_id b) (pb_project p) = Some q -> exists x, vtasks d !! re_review q = Some x /\ rt_name x = name /\ rt_arch x = a).
  { intros q [Hq Eq]%find_spec. breflect. destruct (project_read _ Hq) as (y & Hy & H1 & H2 & H3 & H4 & H5 & _). rewrite Eq in Hy.
    destruct (ok_rebuild d Hok _ _ _ Hy H2 H3 H4) as (z & Hz & E1 & E2). exists z. split; [done|]. rewrite E1, E2. split; congruence. }
  destruct (tg_status x); try done; try (injection H as <-; eauto); destruct (List.find _ _) as [q|] eqn:Eq; try done; injection H as <-; by apply Hq.
Qed.
Lemma others_read arch v s : In s (othersOf arch v p (targets_of pk)) -> In s (pb_staged p) /\ ev_arch s <> arch /\ ev_version s = v /\ isRepoArch (ev_arch s) = true
  /\ reviewedFrom (assoc (ev_arch s) (targets_of pk)) p = Some (ev_id s).
Proof.
  intros [H E]%filter_In. apply ostr_eqb_eq in E. apply omap_In in H as (a & [Ha Hne]%filter_In & H).
  destruct (reviewedFrom _ _) as [from|] eqn:Ef; [|done]. cbn in H. apply find_spec in H as [Hs Eid]. breflect. subst from.
  destruct (reviewed_from _ _ Ef) as (x & Hx & _ & Ex). destruct (staged_read _ Hs) as (t & Ht & _ & _ & _ & Et & _). assert (ev_arch s = a) as -> by congruence.
  split_and!; try done. by apply str_in_In.
Qed.
Lemma others_distinct arch v : NoDup (map ev_arch (othersOf arch v p (targets_of pk))).
Proof.
  unfold othersOf. apply filter_nodup. apply (omap_nodup _ id); [rewrite map_id; apply NoDup_ListNoDup, List.NoDup_filter, NoDup_ListNoDup; repeat constructor; set_solver|].
  intros a s _ H. destruct (reviewedFrom _ _) as [from|] eqn:Ef; [|done]. cbn in H. apply find_spec in H as [Hs Eid]. breflect. subst from.
  destruct (reviewed_from _ _ Ef) as (x & Hx & _ & Ex). destruct (staged_read _ Hs) as (t & Ht & _ & _ & _ & Et & _). unfold id. congruence.
Qed.
End Reads.

(** ** A row's facts *)

Lemma package_rows d name : exists pk, packageRows d name true = Some pk.
Proof. unfold packageRows. destruct (registrations d !! name); by eexists. Qed.
Section Row.
Context (d : VDB) (id : Z) (t : RTask).
Hypothesis Hok : rows_ok d.
Hypothesis Ht : vtasks d !! id = Some t.
Let x := factsOf d id t.
Lemma read_of : exists pk, packageRows d (rt_name t) true = Some pk /\ rd_builds x = buildsOfPackage (pk_builds pk) (pk_decisions pk)
  /\ rd_targets x = targets_of pk /\ fa_named (rd_facts x) = namedOf (pk_arches pk) /\ rd_served x = servedOf (pk_decisions pk)
  /\ fa_package (rd_facts x) = packageFacts (row_of id t) (rd_builds x) (rd_targets x) (namedOf (pk_arches pk)) (rd_served x).
Proof. destruct (package_rows d (rt_name t)) as [pk E]. exists pk. unfold x, factsOf. cbv zeta. rewrite E. done. Qed.
Lemma rebuild_read q : In q (rebuilds_of t x) -> exists y s, vtasks d !! re_id q = Some y /\ rt_name y = rt_name t /\ is_build y = true /\ from_project y = true
  /\ rp_review (rt_params y) = Some (re_review q) /\ rt_arch y = re_arch q /\ rt_status y = re_status q /\ re_arch q <> rt_arch t
  /\ In s (othersOf (rt_arch t) (rt_version t) (rd_builds x) (rd_targets x)) /\ ev_id s = re_review q /\ ev_arch s = re_arch q.
Proof.
  destruct read_of as (pk & Epk & Eb & Et & _). unfold rebuilds_of. rewrite Eb, Et. intros (s & Hs & H)%omap_In. apply find_spec in H as [Hq E]. breflect.
  destruct (project_read _ _ _ _ Hok Epk _ Hq) as (y & Hy & H1 & H2 & H3 & H4 & H5 & H6 & _). destruct (others_read _ _ _ _ Hok Epk _ _ _ Hs) as (Hst & Hne & _).
  destruct (staged_read _ _ _ _ Hok Epk _ Hst) as (z & Hz & _ & _ & _ & Ez & _). destruct (ok_rebuild d Hok _ _ _ Hy H2 H3 H4) as (z' & Hz' & _ & E2).
  assert (ev_arch s = re_arch q) as Es by congruence. exists y, s. split_and!; congruence.
Qed.
Lemma rebuilds_distinct : NoDup (map re_arch (rebuilds_of t x)).
Proof.
  destruct read_of as (pk & Epk & Eb & Et & _). unfold rebuilds_of. rewrite Eb, Et. apply (omap_nodup _ ev_arch); [by eapply others_distinct|].
  intros s q Hs [Hq E]%find_spec. breflect. destruct (project_read _ _ _ _ Hok Epk _ Hq) as (y & Hy & H1 & H2 & H3 & H4 & H5 & _).
  destruct (others_read _ _ _ _ Hok Epk _ _ _ Hs) as (Hst & _). destruct (staged_read _ _ _ _ Hok Epk _ Hst) as (z & Hz & _ & _ & _ & Ez & _).
  destruct (ok_rebuild d Hok _ _ _ Hy H2 H3 H4) as (z' & Hz' & _ & E2). congruence.
Qed.
End Row.

(** The builds an approval decides, each once. *)
Lemma hit_nodup f d : NoDup (map fst (hit f d)).
Proof. apply filter_nodup, NoDup_fst_map_to_list. Qed.
Lemma approve_rows_perm later id t others : approve_rows later id t others ≡ₚ
  (id, t) :: hit (fun i _ => one_of_ids (map re_id (List.filter (fun p => is_status staged (re_status p)) others)) i) later.
Proof. apply sort_by_perm. Qed.
Lemma approve_rows_spec read later id t others : rows_ok read -> vtasks read !! id = Some t -> incl others (rebuilds_of t (factsOf read id t)) ->
  NoDup (map fst (approve_rows later id t others)) /\
  forall r, In r (approve_rows later id t others) -> r = (id, t) \/ (vtasks later !! r.1 = Some r.2 /\ exists q, In q others /\ re_id q = r.1 /\ re_status q = staged).
Proof.
  intros Hok Ht Hin. set (ids := map re_id (List.filter (fun p => is_status staged (re_status p)) others)).
  assert (Hr : forall r, In r (hit (fun i _ => one_of_ids ids i) later) -> vtasks later !! r.1 = Some r.2 /\ exists q, In q others /\ re_id q = r.1 /\ re_status q = staged).
  { intros r [H E]%hit_In. split; [done|]. apply one_of_ids_In, in_map_iff in E as (q & Eq & [Hq Es]%filter_In). apply is_status_true in Es. eauto. }
  split.
  - rewrite approve_rows_perm. cbn. constructor; [|apply hit_nodup]. intros (r & E & H)%list_elem_of_In%in_map_iff. apply Hr in H as (_ & q & Hq & Eq & _).
    destruct (rebuild_read _ _ _ Hok _ (Hin _ Hq)) as (y & s & Hy & _ & _ & _ & _ & Ea & _ & Hne & _). assert (y = t) by congruence. subst. congruence.
  - intros r H. assert (In r ((id, t) :: hit (fun i _ => one_of_ids ids i) later)) as [<-|H'].
    { apply list_elem_of_In. pose proof (approve_rows_perm later id t others) as Hp. fold ids in Hp. rewrite <- Hp. by apply list_elem_of_In. }
    + by left.
    + right. by apply Hr.
Qed.

(** *** A round *)

Lemma make_chain_parts ts apps c p ch : make_chain ts apps c p = ch -> ch_contributor ch = c /\ ch_project ch = p.
Proof. by intros <-. Qed.
Lemma chain_tasks ts apps ch r : In ch (chains ts apps) -> In r (option_list (ch_contributor ch) ++ option_list (ch_project ch))%list -> In r ts.
Proof.
  unfold chains. cbv zeta. set (builds := List.filter _ ts). set (cs := List.filter (fun t => from_contributor t.2) builds). set (ps := List.filter (fun t => from_project t.2) builds).
  assert (Hps : forall r, In r ps -> In r ts) by (intros q [[H _]%filter_In _]%filter_In; done).
  assert (Hcs : forall r, In r cs -> In r ts) by (intros q [[H _]%filter_In _]%filter_In; done).
  intros [(c & E & Hc)%in_map_iff|(q & E & [Hq _]%filter_In)%in_map_iff]%in_app_iff H; apply make_chain_parts in E as [E1 E2]; rewrite E1, E2 in H; apply in_app_or in H as [H|H]; cbn in H.
  - destruct H as [<-|[]]; auto.
  - destruct (List.find _ ps) as [q|] eqn:Eq; [|done]. destruct H as [<-|[]]. apply find_spec in Eq as [Hq _]. auto.
  - done.
  - destruct H as [<-|[]]; auto.
Qed.
Lemma chains_of_tasks d name ch r : In ch (chains_of d name) -> In r (option_list (ch_contributor ch) ++ option_list (ch_project ch))%list ->
  vtasks d !! r.1 = Some r.2 /\ rt_name r.2 = name.
Proof. intros H1 H2. pose proof (chain_tasks _ _ _ _ H1 H2) as H%taken_in. apply tasks_where_In in H as [H E]. by breflect. Qed.
Lemma round_read later id t r : In r (round_of later id t) -> r = (id, t) \/ (vtasks later !! r.1 = Some r.2 /\ rt_name r.2 = rt_name t).
Proof.
  unfold round_of. set (l := List.filter _ _). assert (Hl : forall r, In r l -> vtasks later !! r.1 = Some r.2 /\ rt_name r.2 = rt_name t).
  { intros q [(ch & [Hch _]%filter_In & H)%bind_In _]%filter_In. by eapply chains_of_tasks. }
  destruct (existsb _ l); [right; auto|]. intros [H|[<-|[]]]%in_app_iff; auto.
Qed.
Lemma round_once later id t r r' : In r (round_of later id t) -> In r' (round_of later id t) -> r.1 = r'.1 -> r = r'.
Proof.
  unfold round_of. set (l := List.filter _ _). assert (Hl : forall r, In r l -> vtasks later !! r.1 = Some r.2).
  { intros q [(ch & [Hch _]%filter_In & H)%bind_In _]%filter_In. by eapply chains_of_tasks. }
  assert (Hll : forall r r', In r l -> In r' l -> r.1 = r'.1 -> r = r').
  { intros [i a] [i' a'] H H' E. apply Hl in H, H'. cbn in *. subst. congruence. }
  destruct (existsb _ l) eqn:E; [apply Hll|]. assert (Hne : forall r, In r l -> r.1 <> id).
  { intros q Hq Eq. assert (existsb (fun p => p.1 =? id) l = true) by (apply existsb_exists; exists q; by rewrite Z.eqb_eq). congruence. }
  intros [H|[<-|[]]]%in_app_iff [H'|[<-|[]]]%in_app_iff Er; [by apply Hll|by apply Hne in H|cbn in Er; symmetry in Er; by apply Hne in H'|done].
Qed.
Lemma last_In {A} (l : list A) x : last l = Some x -> In x l.
Proof. rewrite last_Some. intros [k ->]. apply in_app_iff. right. by left. Qed.
Lemma picks_nodup {A} (f : string -> option (Z * A)) (arch : A -> string) l : NoDup l -> (forall a r, f a = Some r -> arch r.2 = a) ->
  (forall a b r r', f a = Some r -> f b = Some r' -> r.1 = r'.1 -> r = r') -> NoDup (map fst (omap f l)).
Proof.
  intros Hl Ha Hf. induction Hl as [|a l Hn Hl IH]; [constructor|]. change (omap f (a :: l)) with (match f a with Some q => q :: omap f l | None => omap f l end).
  destruct (f a) as [r|] eqn:E; [|done]. cbn. constructor; [|done]. intros (r' & Er & (b & Hb & E')%omap_In)%list_elem_of_In%in_map_iff.
  assert (r' = r) as -> by (by eapply Hf). apply Ha in E, E'. subst. apply Hn. by apply list_elem_of_In.
Qed.
Lemma decided_read later id t : let l := decided_of id t (round_of later id t) in
  NoDup (map fst l) /\ forall r, In r l -> In r (round_of later id t).
Proof.
  unfold decided_of. cbv zeta. set (round := round_of later id t). set (pick := fun a => last _).
  assert (Hp : forall a r, pick a = Some r -> In r round /\ rt_arch r.2 = a).
  { intros a r H%last_In. apply filter_In in H as [H E]. rewrite sort_by_In in H. breflect. done. }
  assert (Hn : NoDup (map fst (omap pick REPO_ARCHES)) /\ forall r, In r (omap pick REPO_ARCHES) -> In r round).
  { split; [|intros r (a & _ & H)%omap_In; by apply Hp in H as [H _]]. eapply (picks_nodup _ rt_arch).
    - repeat constructor; set_solver.
    - intros a r H. by apply Hp.
    - intros a b r r' H H'. apply Hp in H as [H _], H' as [H' _]. by eapply round_once. }
  revert Hn. destruct (omap pick REPO_ARCHES) as [|r l]; intros Hn; [|exact Hn].
  destruct (existsb _ round || negb _); [split; [constructor|done]|]. destruct (List.find _ round) as [r|] eqn:E; [|split; [constructor|done]].
  apply find_spec in E as [E _]. cbn. split; [repeat constructor; set_solver|]. by intros r' [<-|[]].
Qed.
