(* ===== verification/ReviewTables.v ===== *)
(** What the statements of Review's doors change: tasks that keep what they are of, and a decision's rows (ReviewDoors.v). *)
From S2P Require Import Prelude JsTime Json Tasks Targets Rings Governance Review ReviewDoors Blocks Delivery ReviewFacts.
Local Open Scope string_scope.
Local Open Scope Z_scope.

(** ** Statements that decide nothing *)

(** What a task is of: nothing the doors write changes it. *)
Definition fixed (t : RTask) : string * string * string * string * option Z * option Z * option Z * option string :=
  let p := rt_params t in (rt_name t, rt_arch t, rt_kind t, rt_trust t, rp_review p, rp_task p, rp_review_id p, rp_by p).
(** Who blocks a package; what is not a block brings none. *)
Definition blocked_by (d : VDB) (name : string) : option string := g ← registrations d !! name; rg_blocked g.
Record same_log (d d' : VDB) : Prop := {
  sl_app : approvals d' = approvals d; sl_napp : next_app d' = next_app d; sl_rev : reviews d' = reviews d; sl_nrev : next_rev d' = next_rev d;
  sl_block name who : blocked_by d' name = Some who -> blocked_by d name = Some who }.
#[export] Instance same_log_preorder : PreOrder same_log.
Proof. split; [by split|]. intros a b c [? ? ? ? H] [? ? ? ? G]. split; [congruence..|auto]. Qed.
Lemma blocked_alter f name d : (forall g, rg_blocked (f g) = rg_blocked g) -> same_log d (set_registrations (alter f name (registrations d)) d).
Proof.
  intros H. split; try done. intros n who. unfold blocked_by. cbn. destruct (decide (n = name)) as [->|Hne]; [rewrite lookup_alter_eq|by rewrite lookup_alter_ne].
  destruct (registrations d !! name); cbn; [by rewrite H|done].
Qed.
Lemma blocked_each (f : Registration -> Registration) d : (forall g, rg_blocked (f g) = rg_blocked g) -> same_log d (set_registrations (f <$> registrations d) d).
Proof. intros H. split; try done. intros n who. unfold blocked_by. cbn. rewrite lookup_fmap. destruct (registrations d !! n); cbn; [by rewrite H|done]. Qed.

Section Touches.
(** Whether a build that ended may be queued again (a retry by hand), and whether a new task may be more than a build's audit or trial. *)
Context (retries brings : bool).
Definition stays (t t' : RTask) : Prop := fixed t' = fixed t /\ (retries = true \/ (in_flight (rt_status t') = true -> in_flight (rt_status t) = true)).
(** A task that answers no build and carries no review. *)
Definition plain (t : RTask) : Prop :=
  (rp_review (rt_params t) = None /\ rp_review_id (rt_params t) = None) /\ (brings = true \/ str_in (rt_kind t) ["audit"; "trial"] = true).
Inductive touch (d d' : VDB) : Prop :=
| touch_tasks : (forall id, option_Forall2 stays (vtasks d !! id) (vtasks d' !! id)) -> next_task d' = next_task d -> same_log d d' -> touch d d'
| touch_job t : plain t -> vtasks d' = <[next_task d := t]> (vtasks d) -> next_task d' = next_task d + 1 -> same_log d d' -> touch d d'.
Definition touches : VDB -> VDB -> Prop := rtc touch.
#[export] Instance touches_preorder : PreOrder touches.
Proof. unfold touches. apply _. Qed.

Lemma stays_refl t : stays t t.
Proof. split; [done|]. by right. Qed.
Lemma kept_all (m : gmap Z RTask) id : option_Forall2 stays (m !! id) (m !! id).
Proof. destruct (m !! id); constructor. apply stays_refl. Qed.
Lemma touch_rest d d' : vtasks d' = vtasks d -> next_task d' = next_task d -> same_log d d' -> touches d d'.
Proof. intros E1 E2 E3. apply rtc_once, touch_tasks; [|done..]. intros id. rewrite E1. apply kept_all. Qed.
Lemma touch_fold {A} (f : VDB -> A -> VDB) l : (forall d x, touches d (f d x)) -> forall d, touches d (fold_left f l d).
Proof. intros H. induction l as [|x l IH]; intros d; [reflexivity|]. cbn. etrans; [apply H|apply IH]. Qed.
Lemma touch_map (f : Z -> RTask -> RTask) d : (forall i t, stays t (f i t)) ->
  touches d (set_vtasks (map_imap (fun i t => Some (f i t)) (vtasks d)) (next_task d) d).
Proof.
  intros H. apply rtc_once, touch_tasks; [|done|done]. intros id. cbn. rewrite map_lookup_imap. destruct (vtasks d !! id); constructor. apply H.
Qed.
Lemma touch_each (f : RTask -> RTask) d : (forall t, stays t (f t)) -> touches d (set_vtasks (f <$> vtasks d) (next_task d) d).
Proof. intros H. apply rtc_once, touch_tasks; [|done|done]. intros id. cbn. rewrite lookup_fmap. destruct (vtasks d !! id); constructor. apply H. Qed.
Lemma touch_at id t t' d : vtasks d !! id = Some t -> stays t t' -> touches d (set_vtasks (<[id := t']> (vtasks d)) (next_task d) d).
Proof.
  intros Ht H. apply rtc_once, touch_tasks; [|done|done]. intros i. cbn. destruct (decide (i = id)) as [->|Hne].
  - rewrite lookup_insert_eq, Ht. by constructor.
  - rewrite lookup_insert_ne by done. apply kept_all.
Qed.
Lemma touch_alter id f d : (forall t, stays t (f t)) -> touches d (set_vtasks (alter f id (vtasks d)) (next_task d) d).
Proof.
  intros H. apply rtc_once, touch_tasks; [|done|done]. intros i. cbn. destruct (decide (i = id)) as [->|Hne].
  - rewrite lookup_alter_eq. destruct (vtasks d !! id); constructor. apply H.
  - rewrite lookup_alter_ne by done. apply kept_all.
Qed.
Lemma touch_cancel f why d : touches d (cancel_where f why d).
Proof. apply touch_map. intros i t. destruct (f i t); [|apply stays_refl]. split; [done|]. by right. Qed.
Lemma touch_settle name d : touches d (settleTargets name d).
Proof. unfold settleTargets. destruct (targets_now d name); [|reflexivity]. apply touch_rest; [done..|]. by apply blocked_alter. Qed.
Lemma touch_registration name f d : (forall g, rg_blocked (f g) = rg_blocked g) -> touches d (on_registration name f d).
Proof. intros H. apply touch_rest; [done..|]. by apply blocked_alter. Qed.
Lemma touch_registrations f d : (forall g, rg_blocked (f g) = rg_blocked g) -> touches d (set_registrations (f <$> registrations d) d).
Proof. intros H. apply touch_rest; [done..|]. by apply blocked_each. Qed.
Lemma touch_people p w d : touches d (set_people p w d).
Proof. by apply touch_rest. Qed.
Lemma touch_packages m d : touches d (set_packages_in m d).
Proof. by apply touch_rest. Qed.
Lemma touch_reclaim ids d : touches d (reclaimStagingPackages ids d).
Proof. by apply touch_rest. Qed.
Lemma touch_pool p d : touches d (set_pool p d).
Proof. by apply touch_rest. Qed.
Lemma touch_audit id d : touches d (cancelPendingAudit id d).
Proof. unfold cancelPendingAudit. cbv zeta. etrans; apply touch_cancel. Qed.
Lemma touch_add t d : plain t -> touches d (add_task t d).
Proof. intros H. apply rtc_once. by apply (touch_job d (add_task t d) t). Qed.
End Touches.
Create HintDb touches.
#[export] Hint Resolve touch_cancel touch_settle touch_registration touch_reclaim touch_pool touch_audit stays_refl : touches.
#[export] Hint Extern 1 (forall g, rg_blocked _ = rg_blocked g) => intros ?; repeat case_match; reflexivity : touches.
(** Through the last statement, then the ones before it. *)
Ltac touching := repeat first [reflexivity | etrans; [|solve [eauto with touches | apply touch_fold; eauto with touches]]].

Section Doors.
Context (retries brings : bool).
Notation touches := (touches retries brings).

Lemma finishClosing_touches k d : touches d (finishClosing k d).
Proof. unfold finishClosing. cbv zeta. touching. Qed.
Lemma finishBack_touches k d : touches d (finishBack k d).
Proof. unfold finishBack. cbv zeta. touching. Qed.
Lemma takeBlock_touches c name reason th g read d : touches d (takeBlock c name reason th g read d).1.
Proof. unfold takeBlock. repeat (case_match; cbn [fst]); try reflexivity; touching. Qed.
Lemma handleRelease_touches c id reason read d : touches d (handleRelease c id reason read d).1.
Proof. unfold handleRelease. cbv zeta. repeat (case_match; cbn [fst]); try reflexivity. touching. Qed.
Lemma handleAnyHost_touches c id p g read d : touches d (handleAnyHost c id p g read d).1.
Proof.
  unfold handleAnyHost, refuse. repeat (case_match; cbn [fst]); try reflexivity. eapply touch_at; [done|]. split; [done|]. by right.
Qed.
Lemma supersede_touches d o : touches d (supersede d o).
Proof. unfold supersede. cbv zeta. touching. Qed.
Lemma stageBuild_touches who id u d : touches d (stageBuild who id u d).1.
Proof.
  unfold stageBuild. destruct (vtasks d !! id) as [t|] eqn:Et; [|reflexivity]. cbv zeta. destruct (negb _); [reflexivity|]. destruct (negb _); [reflexivity|].
  destruct (up_gate_failed u); [reflexivity|]. destruct (held_by who t) eqn:Eh; [|reflexivity]. cbn [negb fst].
  unfold held_by in Eh. breflect. match goal with H : is_status leased _ = true |- _ => apply is_status_true in H end.
  etrans; [|apply touch_settle]. match goal with |- context [match rp_review (rt_params t) with Some _ => add_task ?j ?x | None => ?x end] => set (d4 := x) end.
  transitivity d4; [|destruct (rp_review _); [by apply touch_add; split; [|right]|reflexivity]]. unfold d4. etrans; [|by apply touch_add; split; [|right]].
  etrans; [|by apply touch_registration]. etrans; [|apply touch_reclaim]. etrans; [|apply touch_fold; intros; apply supersede_touches].
  eapply touch_at; [done|]. split; [unfold fixed, built_with; cbn; destruct (rp_review (rt_params t)) eqn:Er; cbn; congruence|]. right. intros _.
  match goal with H : rt_status t = leased |- _ => by rewrite H end.
Qed.
Lemma publishDone_touches who id d : touches d (publishDone who id d).1.
Proof.
  unfold publishDone. destruct (vtasks d !! id) as [t|] eqn:Et; [|reflexivity]. destruct (negb _); [reflexivity|]. destruct (negb _); [reflexivity|]. cbv zeta.
  assert (H : touches d (set_vtasks (<[id := with_status done_ (rt_error t) t]> (vtasks d)) (next_task d) d)) by (eapply touch_at; [done|]; split; [done|]; by right).
  destruct (rp_task _) as [b|]; [|done]. cbn [fst]. etrans; [|apply touch_settle]. etrans; [|apply touch_reclaim].
  etrans; [|apply touch_alter]; [|intros x; destruct (is_status _ _); [split; [done|by right]|apply stays_refl]]. etrans; [exact H|by apply touch_registration].
Qed.
Lemma handleBlockContributor_touches c login reason g read d : touches d (handleBlockContributor c login reason g read d).1.
Proof.
  unfold handleBlockContributor, refuse. cbv zeta. repeat (case_match; cbn [fst]; try reflexivity).
  etrans; [|apply touch_fold; intros; apply touch_settle]. etrans; [|apply touch_registrations; intros ?; by case_match]. etrans; [|apply touch_cancel]. etrans; [|apply touch_cancel].
  etrans; [apply touch_people|apply touch_each].
  intros t. destruct (_ && _); [split; [done|by right]|apply stays_refl].
Qed.
Lemma maintained_touches name login since d : touches d (maintained name login since d).
Proof. unfold maintained. destruct (upkeep d !! name); [reflexivity|]. by apply touch_rest. Qed.
Lemma handleAdoptPackage_touches c name read later d : touches d (handleAdoptPackage c name read later d).1.
Proof.
  unfold handleAdoptPackage, adoptServed, refuse. cbv zeta.
  repeat (case_match; cbn [fst]; try reflexivity; try apply maintained_touches; try by apply touch_registration);
    (etrans; [|apply maintained_touches]; by apply touch_registration).
Qed.
End Doors.

(** ** A decision written *)

#[export] Instance id_desc_comparator {A} : Comparator (@id_desc A).
Proof. constructor; intros; unfold id_desc in *; lia. Qed.
Lemma newest_review_is d v r : reviews d !! v = Some r -> (forall w q, reviews d !! w = Some q -> w <= v) -> newest_review d (rv_name r) = Some v.
Proof.
  intros Hv Hmax. unfold newest_review. set (l := List.filter _ _).
  assert (Hin : In (v, r) l) by (apply filter_In; split; [by apply in_table|apply String.eqb_refl]).
  destruct (sort_by id_desc l) as [|[w q] l'] eqn:E; [apply (proj1 (sort_by_nil _ _)) in E; by rewrite E in Hin|]. cbn. f_equal.
  assert (In (w, q) l) as [Hw _]%filter_In by (apply (sort_by_In id_desc); rewrite E; by left). apply in_table in Hw. apply Hmax in Hw. cbn in *.
  destruct (sort_by_head id_desc _ _ _ _ E Hin) as [[= -> ->]|H]; [done|]. unfold id_desc in H. cbn in H. lia.
Qed.
Record recorded (r : Round) (v : Z) (row : RReview) (now : Z) (d d' : VDB) : Prop := {
  re_tasks : vtasks d' = vtasks d; re_ntask : next_task d' = next_task d;
  re_napp : next_app d' = next_app d + Z.of_nat (length (rn_rows r));
  re_app k a : approvals d' !! k = Some a <-> approvals d !! k = Some a \/ exists i x, rn_rows r !! i = Some x /\ k = next_app d + Z.of_nat i /\ a = app_row r (Some v) now x;
  re_rev : reviews d' = <[v := row]> (reviews d); re_nrev : next_rev d' = v + 1;
  re_block name : blocked_by d' name = blocked_by d name }.
Lemma add_rows_spec r v now rows : forall d, (forall k a, approvals d !! k = Some a -> k < next_app d) ->
  let d' := fold_left (add_row r v now) rows d in
  vtasks d' = vtasks d /\ next_task d' = next_task d /\ reviews d' = reviews d /\ next_rev d' = next_rev d /\ next_app d' = next_app d + Z.of_nat (length rows) /\ registrations d' = registrations d /\
  forall k a, approvals d' !! k = Some a <-> approvals d !! k = Some a \/ exists i x, rows !! i = Some x /\ k = next_app d + Z.of_nat i /\ a = app_row r v now x.
Proof.
  induction rows as [|x rows IH]; intros d Hd; cbn.
  { split_and!; try done; [lia|]. intros k a. split; [by left|]. intros [H|(i & y & H & _)]; [done|by rewrite lookup_nil in H]. }
  destruct (IH (add_row r v now d x)) as (E1 & E2 & E3 & E4 & E5 & E6 & Ha).
  { cbn. intros k a [[<- _]|[_ H%Hd]]%lookup_insert_Some; lia. }
  cbn in E1, E2, E3, E4, E5, E6. split_and!; try done; [rewrite E5; lia|]. intros k a. rewrite Ha. cbn. split.
  - intros [[[<- <-]|[Hne H]]%lookup_insert_Some|(i & y & Hy & -> & ->)]; [|by left|].
    + right. exists O, x. split_and!; [done|lia|done].
    + right. exists (S i), y. split_and!; [done|lia|done].
  - intros [H|(i & y & Hy & -> & ->)].
    + left. rewrite lookup_insert_ne; [done|]. apply Hd in H. lia.
    + destruct i as [|i]; [injection Hy as ->; left; rewrite Z.add_0_r; apply lookup_insert_eq|]. right. exists i, y. split_and!; [done|lia|done].
Qed.
(** The review as the batch leaves it: marked where its requester decided under the exception. *)
Definition review_written (r : Round) : RReview :=
  match rn_solo r, rn_rows r with Some s, _ :: _ => mark_solo (so_since s) (review_row r) | _, _ => review_row r end.
Lemma review_written_same r : rv_name (review_written r) = rn_name r /\ rv_decision (review_written r) = rn_decision r /\ rv_by (review_written r) = rn_by r
  /\ rv_arches (review_written r) = rn_arches r.
Proof. unfold review_written. by destruct (rn_solo r), (rn_rows r). Qed.
Lemma takeRound_spec r now d : rows_ok d ->
  match (takeRound r now d).2 with
  | None => touches false false d (takeRound r now d).1
  | Some (v, gone) => v = next_rev d /\ undecided (guard_of r) d = true /\ exists m, touches false false d m /\ recorded r v (review_written r) now m (takeRound r now d).1
  end.
Proof.
  intros Hok. unfold takeRound. cbv zeta. set (d1 := match rn_aside r with Some a => _ | None => d end).
  assert (H1 : touches false false d d1 /\ same_log d d1) by (unfold d1; destruct (rn_aside r); [split; [apply touch_cancel|done]|by split; [reflexivity|]]).
  destruct H1 as [Ht [Ea Ena Er Enr]]. assert (Eu : undecided (guard_of r) d1 = undecided (guard_of r) d) by (unfold undecided, live_decision; by rewrite Ea).
  destruct (undecided _ d1) eqn:Eg; [|done]. rewrite Eu in Eg. set (v := next_rev d1) in *.
  set (d2 := set_decisions _ _ (<[v := review_row r]> (reviews d1)) _ d1).
  assert (Hn : newest_review d2 (rn_name r) = Some v).
  { apply (newest_review_is d2 v (review_row r)); [apply lookup_insert_eq|]. unfold d2. cbn. intros w q [[<- _]|[_ H]]%lookup_insert_Some; [done|]. rewrite Er in H. apply (ok_rev d Hok) in H. unfold v. lia. }
  rewrite Hn. set (d3 := fold_left _ (rn_rows r) d2).
  destruct (add_rows_spec r (Some v) now (rn_rows r) d2) as (E1 & E2 & E3 & E4 & E5 & E6 & Hrows).
  { cbn. intros k a H. rewrite Ena. rewrite Ea in H. by apply (ok_app d Hok) in H. }
  fold d3 in E1, E2, E3, E4, E5, E6, Hrows. assert (Hn3 : newest_review d3 (rn_name r) = Some v) by (unfold newest_review in *; by rewrite E3).
  rewrite Hn3. assert (Hrec : forall row d4, approvals d4 = approvals d3 -> next_app d4 = next_app d3 -> vtasks d4 = vtasks d3 -> next_task d4 = next_task d3 -> next_rev d4 = next_rev d3 -> registrations d4 = registrations d3 ->
    reviews d4 = <[v := row]> (reviews d1) -> recorded r v row now d1 d4).
  { intros row d4 F1 F2 F3 F4 F5 F6 F7. split; [by rewrite F3, E1|by rewrite F4, E2|by rewrite F2, E5| |done|by rewrite F5, E4|intros name; unfold blocked_by; by rewrite F6, E6]. intros k a. rewrite F1. apply Hrows. }
  cbn [snd fst]. split; [congruence|]. split; [done|]. exists d1. split; [done|]. unfold review_written.
  destruct (rn_solo r) as [s|]; [destruct (rn_rows r) as [|x rows] eqn:Erows|]; [by apply Hrec| |by apply Hrec].
  apply Hrec; try done. cbn [reviews set_decisions]. rewrite E3. unfold d2. cbn [reviews set_decisions]. by rewrite alter_insert_eq.
Qed.
