(* ===== verification/ProjectFacts.v ===== *)
(** Addresses read back: what the pool writes of a project is read as that project (Projects.v). *)
From S2P Require Import Prelude TextFacts JsTime Json JsonText Bytes Governance Projects.
Local Open Scope string_scope.
Local Open Scope Z_scope.

(** ** Percent-encoding *)

Lemma text_of_app a b : text_of (a ++ b)%list = text_of a +:+ text_of b.
Proof. induction a as [|x a IH]; [done|]. cbn. by rewrite IH. Qed.
Lemma not_cont c : c < 128 -> cont c = false /\ forall lo hi, 128 <= lo -> between lo hi c = false.
Proof. intros H. unfold cont, between. split; [|intros lo hi Hl]; apply andb_false_iff; left; apply Z.leb_gt; lia. Qed.
(** An ASCII byte ends every character before it. *)
Lemma utf8_cut l c r : 0 <= c < 128 -> utf8_ok (l ++ c :: r)%list = true -> utf8_ok l = true /\ utf8_ok r = true.
Proof.
  intros Hc. destruct (not_cont c ltac:(lia)) as [Nc Nb]. remember (length l) as n eqn:En. assert (Hn : (length l <= n)%nat) by lia. clear En. revert l Hn.
  induction n as [|n IH]; intros l Hn H.
  - destruct l; [|cbn in Hn; lia]. cbn in H. rewrite (proj2 (Z.ltb_lt c 128)) in H by lia. done.
  - destruct l as [|a l1]; [cbn in H; by rewrite (proj2 (Z.ltb_lt c 128)) in H by lia|]. cbn [app] in H. cbn in Hn. cbn [utf8_ok] in H |- *. destruct (a <? 128); [apply IH; [lia|done]|].
    destruct l1 as [|b l2]; cbn [app] in H; [rewrite Nc, !Nb, !andb_false_r in H by lia; destruct r as [|d [|e r2]]; cbn in H; by rewrite ?andb_false_r in H|].
    destruct (between 194 223 a && cont b); [apply IH; [cbn in Hn; lia|done]|].
    destruct l2 as [|d l3]; cbn [app] in H; [rewrite Nc in H; by destruct r|]. cbn in Hn. destruct (cont d && _); [apply IH; [lia|done]|].
    destruct l3 as [|e l4]; cbn [app] in H; [by rewrite Nc, !andb_false_r in H|]. destruct (cont d && cont e && _); [apply IH; [cbn in Hn; lia|done]|done].
Qed.
Lemma hex_back n : (n < 16)%N -> hex_val (upper_hex n) = Some (Z.of_N n).
Proof. intros H. assert (In n (map N.of_nat (seq 0 16))) as Hi by (apply in_map_iff; exists (N.to_nat n); rewrite in_seq; lia). cbn in Hi. by repeat destruct Hi as [<-|Hi]. Qed.
Lemma unreserved_ascii c : unreserved c = true -> 0 <= Z.of_N (N_of_ascii c) < 128 /\ Ascii.eqb c "%" = false.
Proof. destruct c as [[] [] [] [] [] [] [] []]; vm_compute; done. Qed.
Lemma decode_plain run c r : Ascii.eqb c "%" = false -> decode_from run (String c r) = if utf8_ok run then (fun t => text_of run +:+ String c t) <$> decode_from [] r else None.
Proof. intros H. destruct c as [[] [] [] [] [] [] [] []]; done. Qed.
(** What encodeURIComponent writes, decodeURIComponent reads back. *)
Lemma decode_encode s : forall run, utf8_ok (run ++ bytes_of s)%list = true -> decode_from run (encodeURIComponent s) = Some (text_of run +:+ s).
Proof.
  induction s as [|c s IH]; intros run H; cbn [bytes_of] in H.
  - rewrite app_nil_r in H. cbn. by rewrite H, app_nil_s.
  - cbn [encodeURIComponent]. cbv zeta. destruct (unreserved c) eqn:Eu.
    + apply unreserved_ascii in Eu as [Hc Hp]. destruct (utf8_cut _ _ _ Hc H) as [H1 H2]. rewrite decode_plain, H1, (IH []) by done. done.
    + cbn [decode_from]. pose proof (N_ascii_bounded c) as Hb. set (n := N_of_ascii c) in *.
      assert (H1 : (n / 16 < 16)%N) by (apply N.Div0.div_lt_upper_bound; lia). assert (H2 : (n mod 16 < 16)%N) by (by apply N.mod_lt).
      rewrite (hex_back _ H1), (hex_back _ H2), N2Z.inj_div, N2Z.inj_mod. change (Z.of_N 16) with 16. rewrite <- Z.div_mod by done. rewrite IH by (by rewrite <- app_assoc).
      rewrite text_of_app. cbn [text_of]. rewrite N2Z.id. unfold n. rewrite ascii_N_embedding. by rewrite <- app_assoc_s.
Qed.

(** ** An address written *)
Lemma without_app a e : without_end e (a +:+ e) = a.
Proof. unfold without_end. rewrite ends_with_app, length_app_s. replace (String.length a + String.length e - String.length e)%nat with (String.length a) by lia. apply str_take_app. Qed.
Lemma str_take_forallb p n s : str_forallb p s = true -> str_forallb p (str_take n s) = true.
Proof. revert s. induction n as [|n IH]; intros [|c s]; [done..|]. cbn. intros [H1 H2]%andb_true_iff. by rewrite H1, IH. Qed.
Lemma seg_plain s : is_seg s = true -> lacks "/" s = true /\ no_space s = true.
Proof.
  intros [_ H]%andb_true_iff. split; (eapply str_forallb_weaken; [|exact H]); intros c; destruct c as [[] [] [] [] [] [] [] []]; vm_compute; done.
Qed.
Lemma escaped_plain s : lacks "/" (encodeURIComponent s) = true /\ no_space (encodeURIComponent s) = true.
Proof.
  assert (H : forall c, lacks "/" (encodeURIComponent (String c "")) = true /\ no_space (encodeURIComponent (String c "")) = true)
    by (intros c; destruct c as [[] [] [] [] [] [] [] []]; vm_compute; done).
  induction s as [|c s [IH1 IH2]]; [done|]. destruct (H c) as [H1 H2]. change (String c s) with (String c "" +:+ s).
  assert (E : encodeURIComponent (String c "" +:+ s) = encodeURIComponent (String c "") +:+ encodeURIComponent s) by (change (String c "" +:+ s) with (String c s); cbn [encodeURIComponent]; cbv zeta; by destruct (unreserved c)).
  rewrite E. unfold lacks, no_space in *. by rewrite !str_forallb_app, H1, IH1, H2, IH2.
Qed.
Lemma escaped_truthy s : truthy s = true -> truthy (encodeURIComponent s) = true.
Proof. destruct s as [|c s]; [done|]. intros _. cbn. by destruct (unreserved c). Qed.
Lemma repo_seg r : is_seg r = true -> is_seg (repo_of r) = true.
Proof.
  intros H. unfold repo_of. destruct (4 <? String.length r)%nat eqn:El; [|done]. apply Nat.ltb_lt in El. unfold without_end. destruct (ends_with ".git" r); [|done]. unfold is_seg in *.
  apply andb_true_iff in H as [_ H]. rewrite str_take_forallb by done. cbn [String.length]. destruct r as [|c r]; [cbn in El; lia|]. cbn [String.length] in *. destruct (S (String.length r) - 4)%nat eqn:E; [lia|done].
Qed.

Section Read.
Context `{Web} (o r : string).
Hypothesis (Ho : is_seg o = true) (Hr : is_seg r = true).
Lemma github_text s : no_space s = true ->
  let u := github_home o r +:+ s in parseProjectUrl u = of_github u /\ github_segs u = o :: split_on "/" (r +:+ s).
Proof using Ho Hr.
  intros Hs u. destruct (seg_plain o Ho) as [Lo No], (seg_plain r Hr) as [Lr Nr].
  assert (Eu : u = "https://github.com/" +:+ o +:+ String "/" (r +:+ s)) by (unfold u, github_home; by rewrite <- !app_assoc_s).
  assert (Hn : no_space (o +:+ String "/" (r +:+ s)) = true) by (unfold no_space in *; rewrite str_forallb_app, No; cbn; by rewrite str_forallb_app, Nr, Hs).
  assert (Hd : str_drop 19 u = o +:+ String "/" (r +:+ s)) by (by rewrite Eu).
  split; [|unfold github_segs; rewrite Hd; by apply split_cons].
  unfold parseProjectUrl. rewrite trim_none by (rewrite Eu; exact Hn). assert (Hh : is_https u = true) by (rewrite Eu; exact Hn). assert (Hg : is_github u = true) by (rewrite Eu; apply starts_with_app).
  by rewrite Hh, Hg.
Qed.
Lemma home_reads : parseProjectUrl (github_home o r) = parsed (github_at o (repo_of r) None None).
Proof using Ho Hr.
  destruct (github_text "" eq_refl) as [E1 E2]. rewrite !app_nil_s in *. rewrite E1. unfold of_github. rewrite E2, split_none by (by apply seg_plain). by rewrite Ho, Hr.
Qed.
Lemma archive_reads tag : truthy tag = true -> utf8_ok (bytes_of tag) = true ->
  let source := github_home o r +:+ "/archive/refs/tags/" +:+ encodeURIComponent tag +:+ ".tar.gz" in
  parseProjectUrl source = parsed (github_at o r (Some tag) (Some source)).
Proof using Ho Hr.
  intros Ht Hu source. destruct (escaped_plain tag) as [Le Ne]. set (e := encodeURIComponent tag) in *.
  destruct (github_text ("/archive/refs/tags/" +:+ e +:+ ".tar.gz")) as [E1 E2]; [unfold no_space in *; by rewrite !str_forallb_app, Ne|]. fold source in E1, E2. rewrite E1. unfold of_github. rewrite E2.
  change ("/archive/refs/tags/" +:+ e +:+ ".tar.gz") with (String "/" ("archive" +:+ String "/" ("refs" +:+ String "/" ("tags" +:+ String "/" (e +:+ ".tar.gz"))))).
  rewrite !split_cons by (done || by apply seg_plain). rewrite split_none by (unfold lacks in *; by rewrite str_forallb_app, Le).
  unfold archive_tag. rewrite ends_with_app, without_app. cbv zeta. unfold e at 1. rewrite escaped_truthy, Ho, Hr by done. cbn [andb]. unfold github_tagged, decodeURIComponent, e. by rewrite decode_encode.
Qed.
End Read.
(** A project on GitHub: two segments, and its home is theirs. *)
Lemma parsed_github `{Web} u p o r : parseProjectUrl u = parsed p -> pj_github p = Some (o, r) -> is_seg o = true /\ is_seg r = true /\ pj_project p = github_home o r.
Proof.
  assert (Hg : forall u, of_github u = parsed p -> pj_github p = Some (o, r) -> is_seg o = true /\ is_seg r = true /\ pj_project p = github_home o r).
  { intros v. unfold of_github, github_tagged. cbv zeta. repeat case_match; try done; intros [= <-] [= <- <-]; breflect; repeat split; try done; by apply repo_seg. }
  unfold parseProjectUrl. cbv zeta. destruct (negb _); [done|]. destruct (is_github _); [apply Hg|]. repeat case_match; try done; by intros [= <-].
Qed.

(** what the pool writes of a project is read as that project. The home a GitHub address comes to is the address of the same
    repository - but for a repository whose own name ends in .git -, and the source a request gets from the tag found, percent-encoded,
    reads back as that tag of that repository: a project is one project however it was pasted. *)
Theorem a_source_reads_back_as_its_project `{Web} u p o r tag :
  parseProjectUrl u = parsed p -> pj_github p = Some (o, r) -> truthy tag = true -> utf8_ok (bytes_of tag) = true ->
  let source := pj_project p +:+ "/archive/refs/tags/" +:+ encodeURIComponent tag +:+ ".tar.gz" in
  parseProjectUrl source = parsed {| pj_project := pj_project p; pj_github := Some (o, r); pj_tag := Some tag; pj_source := Some source |}
  /\ (ends_with ".git" r = false -> parseProjectUrl (pj_project p) = parsed {| pj_project := pj_project p; pj_github := Some (o, r); pj_tag := None; pj_source := None |}).
Proof.
  intros Hp Hg Ht Hu source. destruct (parsed_github u p o r Hp Hg) as (Ho & Hr & E). unfold source. rewrite E. split; [by apply (archive_reads o r Ho Hr)|].
  intros Hn. rewrite (home_reads o r Ho Hr). unfold repo_of, without_end. rewrite Hn. by destruct (4 <? _)%nat.
Qed.

(** ** What a request says *)

Lemma plain_word_snoc w c : (w = "" \/ plain_word w = true) -> is_space c = false -> plain_word (w +:+ String c "") = true.
Proof.
  intros Hw Hc. unfold plain_word in *. rewrite str_forallb_app. cbn [str_forallb]. rewrite Hc. destruct w as [|d w]; [done|]. destruct Hw as [|[_ Hw]%andb_true_iff]; [done|]. by rewrite Hw.
Qed.
Lemma words_are_words s : forall w, (w = "" \/ plain_word w = true) -> forallb plain_word (words_acc w s) = true.
Proof.
  induction s as [|c s IH]; intros w Hw; cbn [words_acc].
  - destruct w as [|d w]; [done|]. destruct Hw as [|Hw]; [done|]. cbn. by rewrite andb_true_r.
  - destruct (is_space c) eqn:E; [|apply IH; right; by apply plain_word_snoc]. destruct w as [|d w]; [by apply IH; left|]. destruct Hw as [|Hw]; [done|].
    cbn [truthy String.eqb negb forallb]. rewrite Hw. by apply IH; left.
Qed.
Lemma words_trimmed s : trim (join " " (words_of s)) = join " " (words_of s).
Proof. apply trim_words, words_are_words. by left. Qed.
