(* ===== verification/RequestFacts.v ===== *)
(** What the contributors' doors change of what a review reads (Requests.v). *)
From S2P Require Import Prelude JsTime Json Tasks Targets Rings Governance Projects Review ReviewDoors Blocks Delivery Contributors Requests ReviewFacts ReviewTables.
Local Open Scope string_scope.
Local Open Scope Z_scope.

(** ** A contributor's build answers no review *)

Definition asks_nothing (t : RTask) : Prop :=
  let p := rt_params t in rp_review p = None /\ rp_task p = None /\ rp_review_id p = None /\ rp_by p = None.
(** Every row with a contributor's columns is a task that answers nothing. *)
Definition cols_ok (x : CDB) : Prop := forall id k, cols x !! id = Some k -> id < next_task (cv x) /\ exists t, vtasks (cv x) !! id = Some t /\ asks_nothing t.
Lemma asks_fixed t t' : fixed t' = fixed t -> asks_nothing t -> asks_nothing t'.
Proof. unfold fixed, asks_nothing. cbn. intros [= _ _ _ _ -> -> -> ->]. done. Qed.

(** What a request that goes past every check says of its project. *)
Record said_well `{Web} (k : Ask) (p : Reserved) (pj : Project) (dt : Detected) : Prop := {
  sw_url : parseProjectUrl (default "" (ak_url k)) = parsed pj;
  sw_project : pq_project p = pj_project pj;
  sw_checklist : existsb (fun q => negb (is_confirmed (ak_checklist k) q)) CHECKLIST = false;
  sw_description : (String.length (said_description k) <? 8)%nat || (120 <? String.length (said_description k))%nat = false;
  sw_license : LICENSE (said_license k) = true;
  sw_version : version_and_source k pj (said_license k) = inl (pq_tag p, pq_source p, dt) }.
(** A request that goes past every check reserves its name: nobody else's, not in use, none of a blocked project. *)
Lemma takeRequest_spec `{Web} c k read later x :
  (exists a, takeRequest c k read later x = (x, inl a)) \/
  exists p x', takeRequest c k read later x = (x', inr p) /\ pq_by p = c /\ reserveName (pq_name p) (pq_login p) (pq_project p) (pq_build p) x = Some x'
    /\ ca_blocked c = false
    /\ (forall g, registrations (cv read) !! pq_name p = Some g -> may_take (pq_login p) g = true /\ renewable (rg_status g) = true)
    /\ pq_was p = match registrations (cv read) !! pq_name p, names read !! pq_name p with Some g, Some n => Some (g, n) | _, _ => None end
    /\ exists pj dt, said_well k p pj dt.
Proof.
  unfold takeRequest. cbv zeta. destruct (workspace _ _ _) as [[??]|] eqn:Ew; [left; by eexists|]. destruct (if truthyo _ then _ else _) as [pj| |] eqn:Ep; [|left; by eexists..].
  set (name := said_name k pj). set (arches := asked_arches k). destruct (existsb _ _) eqn:Ek; [left; by eexists|]. destruct (_ || _) eqn:Ed; [left; by eexists|].
  destruct (negb (LICENSE _)) eqn:El; [left; by eexists|]. destruct (negb (PKGNAME _)); [left; by eexists|]. destruct (match arches with [] => true | _ => false end); [left; by eexists|]. destruct (tainted _ _ _ _); [left; by eexists|].
  set (f := nameFacts (cv read) (cv later) name). destruct (nameHeld f _) as [[??]|] eqn:Eh; [left; by eexists|].
  destruct (by_project _ _ _) as [[?|]|]; [left; by eexists..|]. destruct (nameInUse f arches) as [[??]|] eqn:Eu; [left; by eexists|].
  destruct (version_and_source _ _ _) as [[[tag source] dt]|[??]] eqn:Ever; [|left; by eexists]. destruct (negb (sourceAnswers _)); [left; by eexists|].
  destruct (reserveName _ _ _ _ _) as [x'|] eqn:Er; [|left; by eexists]. right. eexists _, x'. split; [reflexivity|]. cbn [pq_by pq_name pq_project pq_build pq_was]. unfold pq_login. cbn [pq_by].
  split; [done|]. split; [done|]. split.
  { cbn in Ew. unfold onlyOwner, w_person, w_owner, w_block, wno in Ew. cbn in Ew. rewrite String.eqb_refl in Ew. cbn in Ew. by destruct (ca_blocked c). }
  split; [|split; [done|]; exists pj, dt; split; try done; [by destruct (truthyo (ak_url k)) in Ep|by apply negb_false_iff]].
  intros g Hg. unfold nameHeld, f, nameFacts in Eh. unfold nameInUse, f, nameFacts in Eu. cbn [nf_name] in Eh, Eu. rewrite Hg in Eh, Eu. unfold may_take. destruct (rg_blocked g); [done|]. split.
  - cbn in Eh |- *. destruct (nameIsFree g); [apply orb_true_r|]. by destruct (String.eqb (rg_owner g) (ca_login c)).
  - destruct (renewable _); [done|]. by destruct (landed _).
Qed.

Section Touch.
Context (retries : bool).
Notation touches := (touches retries true).
(** What a door leaves: only what decides nothing changed, and the columns still of such builds. *)
Definition leaves (x x' : CDB) : Prop := cols_ok x -> touches (cv x) (cv x') /\ cols_ok x'.

Lemma touch_registered (m : gmap string Registration) d : (forall n g w, m !! n = Some g -> rg_blocked g = Some w -> blocked_by d n = Some w) -> touches d (set_registrations m d).
Proof. intros H. apply touch_rest; [done..|]. split; try done. intros n w. unfold blocked_by at 1. cbn. destruct (m !! n) as [g|] eqn:E; [|done]. cbn. by apply H. Qed.
Lemma touches_keep d d' : touches d d' -> forall id t, vtasks d !! id = Some t -> id < next_task d -> exists t', vtasks d' !! id = Some t' /\ fixed t' = fixed t.
Proof.
  induction 1 as [d|a b c Hab _ IH]; intros id t Ht Hlt; [by exists t|]. destruct Hab as [Hall En _|j _ Ev En _].
  - pose proof (Hall id) as Hf. rewrite Ht in Hf. inversion Hf as [s t1 [Es _]|]; subst. destruct (IH id t1) as (t' & H1 & H2); [done|lia|]. exists t'. split; [done|congruence].
  - apply IH; [|lia]. by rewrite Ev, lookup_insert_ne by lia.
Qed.
Lemma touches_next d d' : touches d d' -> next_task d <= next_task d'.
Proof. induction 1 as [|a b c Hab _ IH]; [done|]. destruct Hab as [_ En _|j _ _ En _]; lia. Qed.
Lemma leaves_cv d x : touches (cv x) d -> leaves x (set_cv d x).
Proof.
  intros H Hok. split; [done|]. intros id k Hk. cbn in *. destruct (Hok _ _ Hk) as (Hlt & t & Ht & Hn). split; [pose proof (touches_next _ _ H); lia|].
  destruct (touches_keep _ _ H _ _ Ht Hlt) as (t' & H1 & E). exists t'. split; [done|]. by apply (asks_fixed t).
Qed.
#[export] Instance leaves_preorder : PreOrder leaves.
Proof. split; [by split|]. intros x y z H1 H2 Hok. destruct (H1 Hok) as [T1 Hy]. destruct (H2 Hy) as [T2 Hz]. split; [by etrans|done]. Qed.
Lemma leaves_names n x : leaves x (set_names n x).
Proof. by split. Qed.
Lemma leaves_request r x : leaves x (add_request r x).
Proof. by split. Qed.
Lemma leaves_build t k x : asks_nothing t -> leaves x (add_build t k x).
Proof.
  intros (H1 & H2 & H3 & H4) Hok. split; [by apply touch_add; split; [|left]|]. intros id k'. cbn. destruct (decide (id = next_task (cv x))) as [->|Hne].
  - rewrite lookup_insert_eq. intros [= <-]. split; [lia|]. exists t. by rewrite lookup_insert_eq.
  - rewrite !lookup_insert_ne by done. intros Hk. destruct (Hok _ _ Hk) as [Hlt Ht]. split; [lia|done].
Qed.

(** ** The queue *)

Lemma ref_nonempty url recipe tag : ref_of url recipe tag <> "".
Proof. unfold ref_of. destruct (truthyo recipe); [|done]. by destruct url. Qed.
Lemma same_recipe_spec x name arch ref id t : ref <> "" -> same_recipe x name arch ref = Some (id, t) ->
  vtasks (cv x) !! id = Some t /\ exists k, cols x !! id = Some k /\ tc_ref k = ref.
Proof.
  unfold same_recipe. intros Hne H. assert (Hin : In (id, t) (hit (fun id t => String.eqb (rt_name t) name && String.eqb (rt_arch t) arch && String.eqb (tc_ref (col x id)) ref && waits_or_runs (rt_status t)) (cv x))).
  { destruct (hit _ _); [done|]. cbn in H. injection H as ->. by left. }
  apply hit_In in Hin as [Ht Hb]. cbn [fst snd] in *. split; [done|]. breflect. unfold col in *. destruct (cols x !! id) as [k|]; [by exists k|]. by cbn in *; congruence.
Qed.
Lemma leaves_again pinned lesson hint x id t k : vtasks (cv x) !! id = Some t -> cols x !! id = Some k ->
  leaves x (set_cols (<[id := marks_now pinned lesson hint (col x id)]> (cols x)) (set_cv (set_vtasks (alter (asked_again pinned) id (vtasks (cv x))) (next_task (cv x)) (cv x)) x)).
Proof.
  intros Ht Hk Hok. destruct (Hok _ _ Hk) as (Hlt & t0 & Ht0 & N1 & N2 & N3 & N4). rewrite Ht in Ht0. injection Ht0 as <-.
  assert (Hst : stays retries t (asked_again pinned t)) by (split; [unfold fixed; cbn; congruence|by right]). split; cbn.
  - apply rtc_once, touch_tasks; [|done|done]. intros i. cbn. destruct (decide (i = id)) as [->|Hne]; [rewrite lookup_alter_eq, Ht; by constructor|rewrite lookup_alter_ne by done; apply kept_all].
  - intros i k'. cbn. destruct (decide (i = id)) as [->|Hne].
    + intros _. split; [done|]. eexists. by rewrite lookup_alter_eq, Ht.
    + rewrite lookup_insert_ne, lookup_alter_ne by done. apply Hok.
Qed.
Lemma queue_one_leaves c p acc arch : pl_ref p <> "" -> leaves acc.1 (queue_one c p acc arch).1.
Proof.
  intros Hne. destruct acc as [x [q|e]]; [|reflexivity]. cbn. destruct (same_recipe _ _ _ _) as [[id t]|] eqn:E.
  - destruct (same_recipe_spec _ _ _ _ _ _ Hne E) as [Ht (k & Hk & _)]. destruct (is_status _ _); [|reflexivity]. by eapply leaves_again.
  - destruct (_ <=? _); [reflexivity|]. by apply leaves_build.
Qed.
Lemma queue_all_leaves c p l acc : pl_ref p <> "" -> leaves acc.1 (fold_left (queue_one c p) l acc).1.
Proof. intros Hne. revert acc. induction l as [|a l IH]; intros acc; [reflexivity|]. cbn. etrans; [by apply queue_one_leaves|apply IH]. Qed.
Lemma queueBuilds_leaves c name ask now x : leaves x (queueBuilds c name ask now x).1.
Proof.
  unfold queueBuilds. destruct (registrations _ !! _) as [g|]; [|reflexivity]. destruct (names x !! name) as [n|]; [|reflexivity].
  destruct (rg_blocked g); [reflexivity|]. destruct (workspace _ _ _) as [[??]|]; [reflexivity|]. cbv zeta. destruct (List.filter _ _) as [|a l]; [reflexivity|].
  destruct (named_builder _ _ _) as [w|e]; [|reflexivity]. set (p := {| pl_name := _ |}).
  pose proof (queue_all_leaves c p (a :: l) (x, inl {| qd_tasks := []; qd_building := [] |}) (ref_nonempty _ _ _)) as H. cbn [fst] in H.
  destruct (fold_left _ _ _) as [x' [q|e]]; cbn [fst] in H |- *; [|done]. destruct (qd_tasks q); [done|]. cbn [fst]. etrans; [exact H|].
  apply leaves_cv. etrans; [|apply touch_settle]. apply touch_registration. intros g'. unfold said_waiting. by case_match.
Qed.
Lemma handleBuildPackage_leaves c name ask now x : leaves x (handleBuildPackage c name ask now x).1.
Proof. unfold handleBuildPackage. cbv zeta. repeat (case_match; try reflexivity); apply queueBuilds_leaves. Qed.
Lemma handleDequeueBuild_touches c name id read d : touches d (handleDequeueBuild c name id read d).1.
Proof.
  unfold handleDequeueBuild, refuse. cbv zeta. repeat (case_match; cbn [fst]; try reflexivity); (etrans; [|apply touch_settle]);
    try (etrans; [|apply touch_registration; intros ?; by case_match]); (eapply touch_at; [done|]; split; [done|]; by right).
Qed.
Lemma handleRevokeWorker_touches c id read d : touches d (handleRevokeWorker c id read d).1.
Proof.
  unfold handleRevokeWorker, refuse. cbv zeta. repeat (case_match; cbn [fst]; try reflexivity). etrans; [apply touch_people|apply touch_each].
  intros t. case_match; [split; [done|by right]|apply stays_refl].
Qed.
Lemma takeRemoval_touches c name read d : touches d (takeRemoval c name read d).1.
Proof. unfold takeRemoval. repeat (case_match; cbn [fst]; try reflexivity). apply touch_pool. Qed.
Lemma finishRemoval_leaves k read x : leaves x (finishRemoval k read x).
Proof.
  unfold finishRemoval. cbv zeta. etrans; [|apply leaves_names]. apply leaves_cv. etrans; [|apply touch_reclaim].
  etrans; [|apply touch_registered; intros n g w Hg Hw; unfold blocked_by; apply lookup_delete_Some in Hg as [_ Hg]; by rewrite Hg]. etrans; [|apply touch_cancel]. etrans; apply touch_cancel.
Qed.
Lemma blocked_row d name g f n g' w : registrations d !! name = Some g -> rg_blocked (f g) = rg_blocked g ->
  <[name := f g]> (registrations d) !! n = Some g' -> rg_blocked g' = Some w -> blocked_by d n = Some w.
Proof.
  intros Hg Hf. unfold blocked_by. destruct (decide (n = name)) as [->|Hne]; [rewrite lookup_insert_eq, Hg; intros [= <-]; cbn; by rewrite Hf|rewrite lookup_insert_ne by done].
  intros ->. done.
Qed.
Lemma new_row_blocks d name login arches n g' w : <[name := new_row login arches]> (registrations d) !! n = Some g' -> rg_blocked g' = Some w -> blocked_by d n = Some w.
Proof. unfold blocked_by. destruct (decide (n = name)) as [->|Hne]; [rewrite lookup_insert_eq; by intros [= <-]|rewrite lookup_insert_ne by done]. by intros ->. Qed.
Lemma reserveName_leaves name login url arches x x' : reserveName name login url arches x = Some x' -> leaves x x'.
Proof.
  unfold reserveName. destruct (registrations (cv x) !! name) as [g|] eqn:Eg.
  - destruct (may_take _ _); [|done]. intros [= <-]. apply leaves_cv. by apply touch_registration.
  - intros [= <-]. etrans; [|apply leaves_names]. apply leaves_cv, touch_registered. intros n g w. by apply new_row_blocks.
Qed.
Lemma takeRequest_leaves `{Web} c k read later x : leaves x (takeRequest c k read later x).1.
Proof.
  destruct (takeRequest_spec c k read later x) as [(a & ->)|(p & x' & -> & _ & Hr & _)]; [reflexivity|]. by eapply reserveName_leaves.
Qed.
Lemma recordRow_leaves p x : leaves x (recordRow p x).
Proof. unfold recordRow. cbv zeta. etrans; [|apply leaves_request]. case_match; [apply leaves_cv, touch_cancel|reflexivity]. Qed.
Lemma write_request_leaves p id x : leaves x (write_request p id x).
Proof.
  unfold write_request. cbv zeta. etrans; [|apply leaves_names]. apply leaves_cv, touch_registered. intros n g w.
  destruct (registrations (cv x) !! pq_name p) as [g0|] eqn:E; [|apply new_row_blocks].
  unfold blocked_by. destruct (decide (n = pq_name p)) as [->|Hne]; [rewrite lookup_insert_eq, E; by intros [= <-]|rewrite lookup_insert_ne by done]. by intros ->.
Qed.
Lemma finishRequest_leaves p now x : leaves x (finishRequest p now x).1.
Proof.
  unfold finishRequest. cbv zeta. cbn [fst]. etrans; [|apply leaves_cv, touch_settle]. etrans; [apply recordRow_leaves|]. etrans; [apply (write_request_leaves p (next_request x))|].
  case_match; [reflexivity|apply queueBuilds_leaves].
Qed.
Lemma unreserve_leaves p x : leaves x (unreserve p x).
Proof.
  unfold unreserve. destruct (registrations _ !! _) as [g|] eqn:E; [|reflexivity]. destruct (names x !! _); [|reflexivity]. cbv zeta. destruct (_ && _); [|reflexivity].
  destruct (pq_was p) as [[o on]|]; [by apply leaves_cv, touch_registration|]. etrans; [|apply leaves_names]. apply leaves_cv, touch_registered.
  intros m g' w Hg Hw. unfold blocked_by. apply lookup_delete_Some in Hg as [_ Hg]. by rewrite Hg.
Qed.
Lemma failRequest_leaves p recorded x : leaves x (failRequest p recorded x).
Proof. unfold failRequest. etrans; [|apply unreserve_leaves]. case_match; [apply recordRow_leaves|reflexivity]. Qed.
End Touch.
