(* ===== verification/ReviewRuns.v ===== *)
(** Every interleaving of Review's doors: what each step keeps of the tables, and the runs (Review.v, ReviewDoors.v, Blocks.v, Delivery.v). *)
From S2P Require Import Prelude JsTime Json Tasks Targets Rings Governance Review ReviewDoors Blocks Delivery ReviewFacts ReviewTables.
Local Open Scope string_scope.
Local Open Scope Z_scope.

(** ** The record grows *)

(** A decision's row and a review as they were written: everything but whether they were taken back. *)
Definition entry (a : AppRow) :=
  (ap_task a, ap_name a, ap_arch a, ap_version a, ap_decision a, ap_by a, ap_note a, ap_rebuild a, ap_review a, ap_agent a, ap_created a).
Definition signed (v : RReview) :=
  (rv_name v, rv_version v, rv_decision v, rv_by v, rv_note v, rv_arches v, rv_not_supported v, rv_released v, rv_changes v, rv_only_reason v, rv_not_shipping v, rv_solo v).
Definition row_kept (a a' : AppRow) : Prop := entry a' = entry a /\ (ap_withdrawn a' = None -> ap_withdrawn a = None).
Definition review_kept (v v' : RReview) : Prop := signed v' = signed v /\ (rv_withdrawn v' = None -> rv_withdrawn v = None).
Record grows (d d' : VDB) : Prop := {
  g_tasks id t : vtasks d !! id = Some t -> exists t', vtasks d' !! id = Some t' /\ fixed t' = fixed t;
  g_app k a : approvals d !! k = Some a -> exists a', approvals d' !! k = Some a' /\ row_kept a a';
  g_rev v r : reviews d !! v = Some r -> exists r', reviews d' !! v = Some r' /\ review_kept r r';
  g_old k a v : approvals d' !! k = Some a -> ap_review a = Some v -> v < next_rev d -> is_Some (approvals d !! k);
  g_next : next_task d <= next_task d'; g_nrev : next_rev d <= next_rev d' }.
#[export] Instance grows_preorder : PreOrder grows.
Proof.
  split.
  - intros d. split; [eauto| | |eauto|lia|lia]; intros k a H; exists a; (split; [done|by split]).
  - intros a b c [] []. split.
    + intros id t H. apply g_tasks0 in H as (t1 & H & E1). apply g_tasks1 in H as (t2 & H & E2). exists t2. split; [done|congruence].
    + intros k x H. apply g_app0 in H as (x1 & H & E1 & W1). apply g_app1 in H as (x2 & H & E2 & W2). exists x2. split; [done|]. split; [congruence|auto].
    + intros k x H. apply g_rev0 in H as (x1 & H & E1 & W1). apply g_rev1 in H as (x2 & H & E2 & W2). exists x2. split; [done|]. split; [congruence|auto].
    + intros k x v H E Hv. destruct (g_old1 _ _ _ H E) as [x1 H1]; [lia|]. pose proof (g_app1 _ _ H1) as (x2 & H2 & [E2 _]). unfold entry in E2.
      apply (g_old0 _ x1 v); [done|congruence|done].
    + lia.
    + lia.
Qed.
(** The decisions that stand on a build: at most one. *)
Definition live (a : AppRow) : Prop := ap_withdrawn a = None.
Definition one_live (d : VDB) : Prop :=
  forall i j a b, approvals d !! i = Some a -> approvals d !! j = Some b -> live a -> live b -> ap_task a = ap_task b -> i = j.

(** ** The statements that write the record, and those that queue a rebuild *)

(** Rows taken back where they stand; nothing else. *)
Record withdraws (d d' : VDB) : Prop := {
  w_tasks : vtasks d' = vtasks d; w_next : next_task d' = next_task d; w_napp : next_app d' = next_app d; w_nrev : next_rev d' = next_rev d;
  w_app k : option_Forall2 (fun a a' => a' = a \/ exists b w, a' = taken_back b w a) (approvals d !! k) (approvals d' !! k);
  w_rev v : option_Forall2 (fun r r' => r' = r \/ exists b w, r' = voided b w r) (reviews d !! v) (reviews d' !! v);
  w_block name : blocked_by d' name = blocked_by d name }.
(** A registration's block, and nothing of the record. *)
Record blocks_only (d d' : VDB) : Prop := {
  bo_tasks : vtasks d' = vtasks d; bo_next : next_task d' = next_task d; bo_app : approvals d' = approvals d; bo_napp : next_app d' = next_app d;
  bo_rev : reviews d' = reviews d; bo_nrev : next_rev d' = next_rev d }.
(** A rebuild queued: of a build of the package, none of it in flight. *)
Record queues (d d' : VDB) : Prop := {
  q_by : string; q_owner : option string; q_self : option Solo; q_name : string; q_agent : option string; q_pin : option string; q_of : Evidence;
  q_free : claimed q_name [ev_id q_of] d = false;
  q_is : exists x, vtasks d !! ev_id q_of = Some x /\ rt_name x = q_name /\ rt_arch x = ev_arch q_of;
  q_to : d' = add_task (rebuild_task q_by q_owner q_self q_name q_agent q_pin q_of) d }.
Record round_ok (r : Round) (d : VDB) : Prop := {
  ro_once : NoDup (map de_task (rn_rows r));
  ro_about x : In x (rn_rows r) -> (exists t, vtasks d !! de_task x = Some t /\ rt_name t = rn_name r /\ rt_arch t = de_arch x) /\
    (forall b, de_rebuild x = Some b -> b = de_task x) }.

Section Keeps.
Context (retries brings : bool).

Lemma touch_grows d d' : rows_ok d -> touch retries brings d d' -> grows d d'.
Proof.
  intros Hok [Ht En [Ea _ Er Erv]|t _ Et En [Ea _ Er Erv]]; (split;
    [|intros k a H; exists a; rewrite Ea; split; [done|by split]|intros k a H; exists a; rewrite Er; split; [done|by split]|intros k a v; rewrite Ea; eauto|lia|lia]).
  - intros id t H. specialize (Ht id). rewrite H in Ht. inversion Ht as [? t' [E _] E1 E2|]; subst. by exists t'.
  - intros id x H. rewrite Et. rewrite lookup_insert_ne; [by exists x|]. apply (ok_task d Hok) in H. lia.
Qed.
Lemma kept_task d d' id t' : (forall id, option_Forall2 (stays retries) (vtasks d !! id) (vtasks d' !! id)) -> vtasks d' !! id = Some t' ->
  exists t, vtasks d !! id = Some t /\ stays retries t t'.
Proof. intros H E. specialize (H id). rewrite E in H. inversion H as [t ? Hs E1 E2|]; subst. by exists t. Qed.
Lemma kept_back d d' id t : (forall id, option_Forall2 (stays retries) (vtasks d !! id) (vtasks d' !! id)) -> vtasks d !! id = Some t ->
  exists t', vtasks d' !! id = Some t' /\ stays retries t t'.
Proof. intros H E. specialize (H id). rewrite E in H. inversion H as [? t' Hs E1 E2|]; subst. by exists t'. Qed.
Lemma fixed_of t t' : fixed t' = fixed t ->
  rt_name t' = rt_name t /\ rt_arch t' = rt_arch t /\ is_build t' = is_build t /\ from_project t' = from_project t /\ rp_review (rt_params t') = rp_review (rt_params t).
Proof. unfold fixed, is_build, from_project. intros [= -> -> -> -> -> _ _ _]. done. Qed.
(** A task added that answers a build of its own name and architecture, if it answers one. *)
Lemma add_ok d d' t : rows_ok d -> vtasks d' = <[next_task d := t]> (vtasks d) -> next_task d' = next_task d + 1 -> same_log d d' ->
  (forall r, is_build t = true -> from_project t = true -> rp_review (rt_params t) = Some r -> exists x, vtasks d !! r = Some x /\ rt_name x = rt_name t /\ rt_arch x = rt_arch t) ->
  rows_ok d'.
Proof.
  intros Hok Et En [Ea Ena Er Enr] Hr. pose proof (ok_next d Hok) as Hnn. assert (Hkeep : forall i x, vtasks d !! i = Some x -> vtasks d' !! i = Some x).
  { intros i x H. rewrite Et, lookup_insert_ne; [done|]. apply (ok_task d Hok) in H. lia. }
  split; [lia|..].
  - intros id x. rewrite Et, En. intros [[<- _]|[_ H%(ok_task d Hok)]]%lookup_insert_Some; lia.
  - rewrite Ea, Ena. apply (ok_app d Hok).
  - rewrite Er, Enr. apply (ok_rev d Hok).
  - intros id x r. rewrite Et at 1. intros [[_ <-]|[_ H]]%lookup_insert_Some H1 H2 H3.
    + destruct (Hr _ H1 H2 H3) as (y & Hy & E). exists y. auto.
    + destruct (ok_rebuild d Hok _ _ _ H H1 H2 H3) as (y & Hy & E). exists y. auto.
  - rewrite Ea. intros k a H. destruct (ok_about d Hok _ _ H) as (y & Hy & E). exists y. auto.
  - rewrite Ea. apply (ok_answer d Hok).
  - rewrite Ea, Er. apply (ok_review d Hok).
Qed.
Lemma touch_ok d d' : rows_ok d -> touch retries brings d d' -> rows_ok d'.
Proof.
  intros Hok [Ht En Hl|t [[P1 P2] _] Et En Hl]; [|eapply add_ok; try done; by rewrite P1].
  destruct Hl as [Ea Ena Er Enr]. split; [by rewrite En; apply ok_next|..].
  - intros id t' H. destruct (kept_task _ _ _ _ Ht H) as (t & H' & _). rewrite En. by eapply ok_task.
  - rewrite Ea, Ena. apply (ok_app d Hok).
  - rewrite Er, Enr. apply (ok_rev d Hok).
  - intros id t' r H H1 H2 H3. destruct (kept_task _ _ _ _ Ht H) as (t & H' & E & _). apply fixed_of in E as (E1 & E2 & E3 & E4 & E5).
    destruct (ok_rebuild d Hok _ _ r H') as (x & Hx & F1 & F2); [congruence..|]. destruct (kept_back _ _ _ _ Ht Hx) as (x' & Hx' & E & _).
    apply fixed_of in E as (G1 & G2 & _). exists x'. split; [done|]. split; congruence.
  - rewrite Ea. intros k a H. destruct (ok_about d Hok _ _ H) as (x & Hx & F1 & F2). destruct (kept_back _ _ _ _ Ht Hx) as (x' & Hx' & E & _).
    apply fixed_of in E as (G1 & G2 & _). exists x'. split; [done|]. split; congruence.
  - rewrite Ea. apply (ok_answer d Hok).
  - rewrite Ea, Er. apply (ok_review d Hok).
Qed.
Lemma same_log_live d d' : same_log d d' -> one_live d -> one_live d'.
Proof. intros [Ea _ _ _]. unfold one_live. by rewrite Ea. Qed.

Lemma withdrawn_is (a a' : AppRow) : a' = a \/ (exists b w, a' = taken_back b w a) -> row_kept a a'.
Proof. intros [->|(b & w & ->)]; [by split|]. by split. Qed.
Lemma voided_is (r r' : RReview) : r' = r \/ (exists b w, r' = voided b w r) -> review_kept r r'.
Proof. intros [->|(b & w & ->)]; [by split|]. unfold voided. destruct (rv_withdrawn r) eqn:E; [by split|]. split; [done|]. by cbn. Qed.
Lemma withdraw_to d d' k a' : withdraws d d' -> approvals d' !! k = Some a' -> exists a, approvals d !! k = Some a /\ row_kept a a'.
Proof. intros H E. pose proof (w_app _ _ H k) as Hk. rewrite E in Hk. inversion Hk as [a ? Hw E1 E2|]; subst. exists a. split; [done|]. by apply withdrawn_is. Qed.
Lemma withdraw_grows d d' : withdraws d d' -> grows d d'.
Proof.
  intros [Et En _ Env Ha Hr _]. split.
  - intros id t H. exists t. by rewrite Et.
  - intros k a H. specialize (Ha k). rewrite H in Ha. inversion Ha as [? a' Hw E1 E2|]; subst. exists a'. split; [done|]. by apply withdrawn_is.
  - intros v r H. specialize (Hr v). rewrite H in Hr. inversion Hr as [? r' Hw E1 E2|]; subst. exists r'. split; [done|]. by apply voided_is.
  - intros k a v H _ _. specialize (Ha k). rewrite H in Ha. inversion Ha; eauto.
  - lia.
  - lia.
Qed.
Lemma withdraw_ok d d' : rows_ok d -> withdraws d d' -> rows_ok d'.
Proof.
  intros Hok Hw. pose proof Hw as [Et En Ena Enr _ Hr _]. split.
  - rewrite En. by apply ok_next.
  - rewrite Et, En. by apply ok_task.
  - intros k a' H. destruct (withdraw_to _ _ _ _ Hw H) as (a & Ha & _). rewrite Ena. by eapply ok_app.
  - intros v r' H. specialize (Hr v). rewrite H in Hr. inversion Hr as [r ? _ E1 E2|]; subst. rewrite Enr. by eapply ok_rev.
  - rewrite Et. by apply ok_rebuild.
  - intros k a' H. destruct (withdraw_to _ _ _ _ Hw H) as (a & Ha & [[=] _]). rewrite Et. destruct (ok_about d Hok _ _ Ha) as (x & Hx & E). exists x. split; [congruence|]. by split; destruct E; congruence.
  - intros k a' r H Er. destruct (withdraw_to _ _ _ _ Hw H) as (a & Ha & [[=] _]). assert (r = ap_task a) by (eapply (ok_answer d Hok); [done|congruence]). congruence.
  - intros k a' H. destruct (withdraw_to _ _ _ _ Hw H) as (a & Ha & [[=] _]). destruct (ok_review d Hok _ _ Ha) as (v & r & Ev & Hv & E1 & E2).
    specialize (Hr v). rewrite Hv in Hr. inversion Hr as [? r' Hv' E3 E4|]; subst. apply voided_is in Hv' as [[=] _]. exists v, r'. split_and!; congruence.
Qed.
Lemma blocks_grows d d' : blocks_only d d' -> grows d d'.
Proof.
  intros [E1 E2 E3 E4 E5 E6]. split; rewrite ?E1, ?E3, ?E5; [eauto| | |eauto|lia|lia]; intros k a H; exists a; (split; [done|by split]).
Qed.
Lemma blocks_ok d d' : rows_ok d -> blocks_only d d' -> rows_ok d'.
Proof. intros [] [E1 E2 E3 E4 E5 E6]. split; rewrite ?E1, ?E2, ?E3, ?E4, ?E5, ?E6; done. Qed.
Lemma withdraw_live d d' : withdraws d d' -> one_live d -> one_live d'.
Proof.
  intros Hw H i j a b Ha Hb La Lb E. destruct (withdraw_to _ _ _ _ Hw Ha) as (a0 & Ha0 & [Ea Wa]), (withdraw_to _ _ _ _ Hw Hb) as (b0 & Hb0 & [Eb Wb]).
  apply (H i j a0 b0); [done|done|by apply Wa|by apply Wb|]. unfold entry in Ea, Eb. congruence.
Qed.
Lemma queue_grows d d' : rows_ok d -> queues d d' -> grows d d'.
Proof.
  intros Hok []. subst. split; [|intros k a H; exists a; split; [done|by split]..|intros k a v; eauto|cbn; lia|done].
  intros id t H. exists t. split; [|done]. cbn. rewrite lookup_insert_ne; [done|]. apply (ok_task d Hok) in H. lia.
Qed.
Lemma queue_ok d d' : rows_ok d -> queues d d' -> rows_ok d'.
Proof.
  intros Hok [by_ o self name ag pin e _ (x & Hx & E1 & E2) ->]. eapply add_ok; try done. cbn. intros r _ _ [= <-]. by exists x.
Qed.
Lemma recorded_grows r v row now d d' : rows_ok d -> v = next_rev d -> recorded r v row now d d' -> grows d d'.
Proof.
  intros Hok -> [Et En _ Ha Er Env _]. split.
  - intros id t H. exists t. by rewrite Et.
  - intros k a H. exists a. split; [|by split]. apply Ha. by left.
  - intros w q H. exists q. split; [|by split]. rewrite Er, lookup_insert_ne; [done|]. apply (ok_rev d Hok) in H. lia.
  - intros k a v [H|(i & x & _ & _ & ->)]%Ha E Hv; [eauto|]. cbn in E. injection E as <-. lia.
  - lia.
  - lia.
Qed.
Lemma recorded_ok r v row now d d' : rows_ok d -> round_ok r d -> v = next_rev d -> rv_name row = rn_name r -> rv_decision row = rn_decision r ->
  recorded r v row now d d' -> rows_ok d'.
Proof.
  intros Hok [_ Hr] -> En0 Ed [Et En Ena Ha Er Enr _]. split.
  - rewrite En. by apply ok_next.
  - rewrite Et, En. by apply ok_task.
  - intros k a [H|(i & x & Hi & -> & _)]%Ha; rewrite Ena; [apply (ok_app d Hok) in H; lia|]. apply lookup_lt_Some in Hi. lia.
  - intros w q. rewrite Er, Enr. intros [[<- _]|[_ H%(ok_rev d Hok)]]%lookup_insert_Some; lia.
  - rewrite Et. by apply ok_rebuild.
  - intros k a [H|(i & x & Hi & -> & ->)]%Ha; rewrite Et; [by eapply ok_about|]. cbn. apply list_elem_of_lookup_2, list_elem_of_In in Hi. by apply Hr.
  - intros k a b [H|(i & x & Hi & -> & ->)]%Ha; [by eapply ok_answer|]. cbn. apply list_elem_of_lookup_2, list_elem_of_In in Hi. by apply Hr.
  - intros k a [H|(i & x & Hi & -> & ->)]%Ha; rewrite Er.
    + destruct (ok_review d Hok _ _ H) as (w & q & E1 & Hw & E2). exists w, q. split; [done|]. split; [|done]. rewrite lookup_insert_ne; [done|]. apply (ok_rev d Hok) in Hw. lia.
    + exists (next_rev d), row. cbn. split_and!; [done|apply lookup_insert_eq|done..].
Qed.
(** The rows written are of builds nothing stands on, each once. *)
Lemma recorded_live r v row now d d' : round_ok r d -> undecided (guard_of r) d = true -> recorded r v row now d d' -> one_live d -> one_live d'.
Proof.
  intros [Hn _] Hu [_ _ _ Ha _ _ _] H. assert (Hno : forall k a x, approvals d !! k = Some a -> live a -> In x (rn_rows r) -> ap_task a <> de_task x).
  { intros k a x Hk La Hx E. unfold undecided in Hu. breflect. unfold live_decision in Hu. assert (Ht : true = false) by (rewrite <- Hu; symmetry; apply existsb_exists; exists (k, a);
      rewrite in_table; split; [done|]; apply andb_true_iff; split; [apply one_of_ids_In; cbn; rewrite E; apply in_app_iff; left; by apply in_map|cbn; by rewrite La]). done. }
  intros i j a b [Hi|(m & x & Hm & -> & ->)]%Ha [Hj|(n & y & Hy & -> & ->)]%Ha La Lb E.
  - by eapply H.
  - exfalso. eapply Hno; [exact Hi|done| |exact E]. apply list_elem_of_In. by eapply list_elem_of_lookup_2.
  - exfalso. eapply Hno; [exact Hj|done| |symmetry; exact E]. apply list_elem_of_In. by eapply list_elem_of_lookup_2.
  - cbn in E. f_equal. f_equal. eapply NoDup_lookup; [exact Hn| |]; change (map de_task (rn_rows r)) with (de_task <$> rn_rows r); rewrite list_lookup_fmap.
    + by rewrite Hm.
    + rewrite Hy. cbn. by rewrite E.
Qed.
End Keeps.

(** ** What each door writes *)

Lemma grows_task d d' id t : grows d d' -> vtasks d !! id = Some t -> exists t', vtasks d' !! id = Some t' /\ rt_name t' = rt_name t /\ rt_arch t' = rt_arch t.
Proof. intros H Ht. apply (g_tasks _ _ H) in Ht as (t' & Ht & E). apply fixed_of in E as (E1 & E2 & _). by exists t'. Qed.
Lemma touches_ok retries brings d d' : rows_ok d -> touches retries brings d d' -> rows_ok d' /\ grows d d' /\ same_log d d'.
Proof.
  intros Hok H. induction H as [|a b c H _ IH]; [by split_and!|]. destruct IH as (I1 & I2 & I3); [by eapply touch_ok|].
  split; [done|]. split; [etrans; [by eapply touch_grows|done]|]. etrans; [|done]. by destruct H.
Qed.
(** What an approval decided, as its batch wrote it. *)
Definition self_marked (c : Reviewer) (id : Z) (read : VDB) (r : Round) : Prop :=
  exists t, vtasks read !! id = Some t /\ rn_solo r = selfReview (Some c) (rd_facts (factsOf read id t)).
Record approves_rows (c : Reviewer) (id : Z) (read : VDB) (r : Round) (k : Taken) : Prop := {
  ar_decision : rn_decision r = "approved"; ar_by : rn_by r = tk_by k; ar_name : rn_name r = tk_name k; ar_who : tk_by k = rr_login c;
  ar_rows : rn_rows r = map (fun x => {| de_task := x.1; de_arch := rt_arch x.2; de_version := rt_version x.2; de_rebuild := Some x.1 |}) (tk_rows k);
  ar_names x : In x (tk_rows k) -> rt_name x.2 = tk_name k; ar_arches : rn_arches r = map (fun x => rt_arch x.2) (tk_rows k);
  ar_solo : self_marked c id read r }.
(** A refusal leaves the tables as they are. *)
Ltac as_it_was := cbn [fst snd]; reflexivity.
Lemma takeApproval_writes c id b th g now read later d : rows_ok read -> grows read later -> grows later d -> rows_ok d ->
  match (takeApproval c id b th g now read later d).2 with
  | inl _ => touches false false d (takeApproval c id b th g now read later d).1
  | inr k => exists r m, touches false false d m /\ takeRound r now m = ((takeApproval c id b th g now read later d).1, Some (tk_review k, tk_gone k)) /\ round_ok r m
      /\ approves_rows c id read r k
  end.
Proof.
  intros Hread Hrl Hld Hd. unfold takeApproval. cbv zeta. destruct (vtasks read !! id) as [t|] eqn:Et; [|as_it_was].
  destruct (decisions _ _ _ _); [as_it_was|]. destruct (_ && _); [as_it_was|]. destruct (_ && _); [as_it_was|]. destruct (decidedWith th g) as [[]|]; [as_it_was|].
  set (one := match bo_only b, th with Some _, None => true | _, _ => false end). set (others := if one then [] else rebuilds_of t (factsOf read id t)).
  assert (Hin : incl others (rebuilds_of t (factsOf read id t))) by (unfold others; destruct one; [by intros y []|by intros y]).
  destruct (approve_rows_spec read later id t others Hread Et Hin) as [Hnd Hrows]. destruct (existsb _ _); [apply touch_settle|].
  match goal with |- context [takeRound ?r now ?m] => set (rd := r); set (m0 := m) end.
  assert (Hm : touches false false d m0) by apply touch_settle. assert (Hmok : rows_ok m0) by (by eapply touches_ok). assert (Hlm : grows later m0) by (etrans; [done|by eapply touches_ok]).
  assert (Hn : forall y, In y (approve_rows later id t others) -> rt_name y.2 = rt_name t /\ exists x, vtasks later !! y.1 = Some x /\ rt_name x = rt_name t /\ rt_arch x = rt_arch y.2).
  { intros y Hy. destruct (Hrows _ Hy) as [->|(Hl & q & Hq & Eq & _)]; [split; [done|]; by eapply grows_task|].
    destruct (rebuild_read _ _ _ Hread _ (Hin _ Hq)) as (z & _ & Hz & Ez & _). rewrite Eq in Hz. destruct (grows_task _ _ _ _ Hrl Hz) as (z' & Hz' & E1 & _).
    assert (z' = y.2) as -> by congruence. split; [congruence|]. exists y.2. split_and!; [done|congruence|done]. }
  assert (Hro : round_ok rd m0).
  { split; [cbn; rewrite map_map; exact Hnd|]. cbn. intros x (y & <- & Hy)%in_map_iff. cbn. split; [|by intros b0 [= <-]].
    destruct (Hn _ Hy) as (_ & x & Hx & E1 & E2). destruct (grows_task _ _ _ _ Hlm Hx) as (x' & Hx' & F1 & F2). exists x'. split; [done|]. split; congruence. }
  pose proof (takeRound_spec rd now m0 Hmok) as Hs. destruct (takeRound rd now m0) as [d1 [[v gone]|]] eqn:Er; cbn [fst snd] in Hs |- *; [|by etrans].
  exists rd, m0. split_and!; try done. split; try done; [|by exists t]. cbn [tk_rows tk_name]. intros y Hy. by apply Hn.
Qed.
Lemma takeClosing_writes c id note ch th now read later d : rows_ok read -> grows read later -> grows later d -> rows_ok d ->
  match (takeClosing c id note ch th now read later d).2 with
  | inl _ => touches false false d (takeClosing c id note ch th now read later d).1
  | inr k => exists r gone, takeRound r now d = ((takeClosing c id note ch th now read later d).1, Some (cl_review k, gone)) /\ round_ok r d /\ rn_decision r = "rejected" /\ self_marked c id read r
  end.
Proof.
  intros Hread Hrl Hld Hd. unfold takeClosing. cbv zeta. destruct (vtasks read !! id) as [t|] eqn:Et; [|as_it_was].
  destruct (decisions _ _ _ _); [as_it_was|]. destruct (negb _); [as_it_was|]. destruct (decided_read later id t) as [Hnd Hin]. cbv zeta in Hnd, Hin.
  match goal with |- context [takeRound ?r now d] => set (rd := r) end.
  assert (Hro : round_ok rd d).
  { split; [cbn; rewrite map_map; exact Hnd|]. cbn. intros x (y & <- & Hy)%in_map_iff. cbn. split; [|done]. apply Hin, round_read in Hy as [->|[Hy En]].
    - cbn. apply (grows_task read); [by transitivity later|done].
    - destruct (grows_task _ _ _ _ Hld Hy) as (x' & Hx' & F1 & F2). exists x'. split; [done|]. split; congruence. }
  pose proof (takeRound_spec rd now d Hd) as Hs. destruct (takeRound rd now d) as [d1 [[v gone]|]] eqn:Er; cbn [fst snd] in Hs |- *; [|done]. exists rd, gone. split_and!; try done. by exists t.
Qed.
Lemma takeBack_writes c id note read later d : withdraws d (takeBack c id note read later d).1.
Proof.
  assert (Hrefl : withdraws d d).
  { split; try done; intros k; [destruct (approvals d !! k)|destruct (reviews d !! k)]; constructor; by left. }
  unfold takeBack. cbv zeta. repeat (case_match; cbn [fst]; try done).
  - split; try done; cbn; intros k; [|destruct (decide (k = z)) as [->|Hne]; [rewrite lookup_alter_eq|rewrite lookup_alter_ne by done]].
    + rewrite map_lookup_imap. destruct (approvals d !! k); constructor. destruct (one_of_ids _ _); eauto.
    + destruct (reviews d !! z); constructor. right. eauto.
    + destruct (reviews d !! k); constructor. by left.
  - split; try done; cbn; intros k; [|destruct (reviews d !! k); constructor; by left].
    rewrite map_lookup_imap. destruct (approvals d !! k); constructor. destruct (one_of_ids _ _); eauto.
Qed.
Lemma finishBlock_writes k d : exists b m m', blocks_only d b /\ touches false false b m /\ withdraws m m' /\ touches false false m' (finishBlock k d).
Proof.
  unfold finishBlock. cbv zeta. eexists (on_registration (bk_name k) _ d), _, _. split; [|split; [|split; [|apply touch_settle]]].
  - done.
  - etrans; [|apply touch_cancel]. apply touch_cancel.
  - split; try done; intros i; cbn [approvals reviews set_decisions]; rewrite lookup_fmap.
    + destruct (approvals _ !! i); constructor. destruct (_ && _); eauto.
    + destruct (reviews _ !! i); constructor. destruct (_ && _); eauto.
Qed.
(** A claim's steps: rebuilds queued of builds that have none in flight. *)
Definition claims (d d' : VDB) : Prop := rtc (fun a b => queues a b \/ touch false false a b) d d'.
Lemma touches_claims d d' : touches false false d d' -> claims d d'.
Proof. apply rtc_subrel. auto. Qed.
Lemma claimed_some name round s d : In (ev_id s) round -> claimed name round d = false -> claimed name [ev_id s] d = false.
Proof.
  intros Hin H. unfold claimed in *. apply not_true_is_false. intros E. apply existsb_exists in E as (p & Hp & E). rewrite <- not_true_iff_false in H. apply H.
  apply existsb_exists. exists p. split; [done|]. destruct (rp_review _); [|by rewrite andb_false_r in E]. breflect. repeat (apply andb_true_iff; split); try done; [by apply String.eqb_eq|].
  match goal with Ho : one_of_ids _ _ = true |- _ => apply one_of_ids_In in Ho; destruct Ho as [<-|[]] end. by apply one_of_ids_In.
Qed.
Definition of_package (name : string) (s : Evidence) (d : VDB) : Prop := exists x, vtasks d !! ev_id s = Some x /\ rt_name x = name /\ rt_arch x = ev_arch s.
Lemma of_package_grows name s d d' : grows d d' -> of_package name s d -> of_package name s d'.
Proof. intros H (x & Hx & E1 & E2). destruct (grows_task _ _ _ _ H Hx) as (x' & Hx' & F1 & F2). exists x'. split_and!; congruence. Qed.
Lemma queue_rebuilds by_ owner self name agent (pin : Evidence -> option string) l : forall d, rows_ok d -> (forall s, In s l -> of_package name s d) ->
  claims d (fold_left (fun d s => queue_rebuild name (s, ([ev_id s], rebuild_task by_ owner self name agent (pin s) s)) d) l d).
Proof.
  induction l as [|s l IH]; intros d Hok Hl; [apply rtc_refl|]. cbn [fold_left]. set (d1 := queue_rebuild _ _ d).
  assert (H : d1 = d \/ queues d d1).
  { unfold d1, queue_rebuild. cbn. destruct (claimed _ _ d) eqn:Ec; [by left|]. right. econstructor; [exact Ec|apply Hl; by left|done]. }
  assert (Hok1 : rows_ok d1 /\ grows d d1) by (destruct H as [->|H]; [done|]; split; [by eapply queue_ok|by apply queue_grows]).
  assert (Hr : claims d1 (fold_left (fun d s => queue_rebuild name (s, ([ev_id s], rebuild_task by_ owner self name agent (pin s) s)) d) l d1)).
  { apply IH; [apply Hok1|]. intros s' Hs'. eapply of_package_grows; [apply Hok1|apply Hl; by right]. }
  destruct H as [E|H]; [by rewrite E in *|]. eapply rtc_l; [left; exact H|exact Hr].
Qed.
Lemma fold_left_map {A B C} (f : A -> C -> A) (g : B -> C) l : forall a, fold_left f (map g l) a = fold_left (fun a x => f a (g x)) l a.
Proof. induction l as [|x l IH]; intros a; [done|]. cbn. apply IH. Qed.
Lemma handleProjectBuild_writes c id worker now read later d : rows_ok read -> grows read d -> rows_ok d -> claims d (handleProjectBuild c id worker now read later d).1.
Proof.
  intros Hread Hg Hd. unfold handleProjectBuild. cbv zeta. destruct (vtasks read !! id) as [t|] eqn:Et; [|apply rtc_refl].
  destruct (decisions _ _ _ _); [apply rtc_refl|]. match goal with |- context [match ?m with inl _ => _ | inr chosen => _ end] => destruct m as [[]|chosen] end; [apply rtc_refl|].
  set (x := factsOf read id t). set (others := List.filter _ _). destruct (claimed _ _ d) eqn:Ec; [apply rtc_refl|]. cbn [fst].
  set (own := {| ev_id := id; ev_arch := rt_arch t; ev_version := rt_version t |}). set (d1 := add_task _ d). set (l := sort_by _ others). rewrite fold_left_map.
  assert (Hown : of_package (rt_name t) own read) by (by exists t).
  assert (Hfree : claimed (rt_name t) [ev_id own] d = false) by (apply (claimed_some _ (id :: map ev_id others)); [by left|exact Ec]).
  assert (Hq : queues d d1) by (econstructor; [exact Hfree|exact (of_package_grows _ _ _ _ Hg Hown)|done]).
  assert (Hl : forall s, In s l -> of_package (rt_name t) s read).
  { intros s [Hs _]%sort_by_In%filter_In. destruct (read_of read id t) as (pk & Epk & Eb & Etg & _). fold x in Eb, Etg. rewrite Eb, Etg in Hs.
    destruct (others_read _ _ _ _ Hread Epk _ _ _ Hs) as (Hst & _). destruct (staged_read _ _ _ _ Hread Epk _ Hst) as (z & Hz & E1 & _ & _ & E2 & _). by exists z. }
  assert (Hg1 : grows read d1) by (etrans; [exact Hg|by apply queue_grows]).
  eapply rtc_l; [left; exact Hq|]. match goal with |- rtc _ _ (settleTargets _ ?m) => transitivity m end.
  - match goal with |- context [sameAgent later ?a ?al ?ko _] => apply (queue_rebuilds _ _ _ _ _ (fun s => sameAgent later a al ko (ev_arch s)) l d1) end; [by eapply queue_ok|]. intros s Hs. eapply of_package_grows; [exact Hg1|by apply Hl].
  - apply touches_claims, touch_settle.
Qed.
(** What an approval leaves to write: a publish job for each build it decided, then statements that decide nothing. *)
Lemma finishApproval_writes k d : touches false false (fold_left (fun d r => add_task (publish_task (tk_by k) (tk_review k) r) d) (tk_rows k) d) (finishApproval k d).
Proof. unfold finishApproval. cbv zeta. touching. Qed.

(** ** Runs *)

(** What a door's handler has left to write when its decision is taken. *)
Inductive Pending := PApproval (k : Taken) | PClosing (k : Closing) | PBack (k : TakenBack) | PBlock (k : Blocking).
Definition finish (p : Pending) : VDB -> VDB :=
  match p with PApproval k => finishApproval k | PClosing k => finishClosing k | PBack k => finishBack k | PBlock k => finishBlock k end.
(** One request's first writes, or another part of the program's ([OpElse]: what it leaves behind). *)
Inductive DOp :=
| OpApprove (c : Reviewer) (id : Z) (b : ApproveBody) (through : option Through) (gate : Gate) (now : Z) (read later : VDB)
| OpClose (c : Reviewer) (id : Z) (note : option string) (ask_changes : bool) (through : option Through) (now : Z) (read later : VDB)
| OpBack (c : Reviewer) (id : Z) (note : option string) (read later : VDB)
| OpBlock (c : Reviewer) (name : string) (reason : option string) (through : option Through) (gate : Gate) (read : VDB)
| OpUnblock (c : Reviewer) (name : string) (reason : option string) (read : VDB)
| OpBuild (c : Reviewer) (id : Z) (worker : option string) (now : Z) (read later : VDB)
| OpRelease (c : Reviewer) (id : Z) (reason : option string) (read : VDB)
| OpAnyHost (c : Reviewer) (id : Z) (p : option PlacementView) (gate : Gate) (read : VDB)
| OpStage (who : string) (id : Z) (u : Upload)
| OpPublished (who : string) (id : Z)
| OpBlockPerson (c : Reviewer) (login : string) (reason : option string) (gate : Gate) (read : VDB)
| OpUnblockPerson (c : Reviewer) (login : string) (reason : option string) (read : VDB)
| OpAdopt (c : Reviewer) (name : string) (read later : VDB)
| OpElse (d : VDB).
Definition kept_for {K} (p : K -> Pending) (x : VDB * (Answer + K)) : VDB * option Pending :=
  (x.1, match x.2 with inr k => Some (p k) | inl _ => None end).
Definition dstep (o : DOp) (d : VDB) : VDB * option Pending :=
  match o with
  | OpApprove c id b th g now read later => kept_for PApproval (takeApproval c id b th g now read later d)
  | OpClose c id note ch th now read later => kept_for PClosing (takeClosing c id note ch th now read later d)
  | OpBack c id note read later => kept_for PBack (takeBack c id note read later d)
  | OpBlock c name reason th g read => kept_for PBlock (takeBlock c name reason th g read d)
  | OpUnblock c name reason read => ((handleUnblockPackage c name reason read d).1, None)
  | OpBuild c id worker now read later => ((handleProjectBuild c id worker now read later d).1, None)
  | OpRelease c id reason read => ((handleRelease c id reason read d).1, None)
  | OpAnyHost c id p g read => ((handleAnyHost c id p g read d).1, None)
  | OpStage who id u => ((stageBuild who id u d).1, None)
  | OpPublished who id => ((publishDone who id d).1, None)
  | OpBlockPerson c login reason g read => ((handleBlockContributor c login reason g read d).1, None)
  | OpUnblockPerson c login reason read => ((handleUnblockContributor c login reason read d).1, None)
  | OpAdopt c name read later => ((handleAdoptPackage c name read later d).1, None)
  | OpElse d' => (d', None)
  end.
(** What a handler read is a state the run went through, and what it read again came no earlier. *)
Definition read_then (past : list VDB) (read later : VDB) : Prop := exists newer older, past = (newer ++ later :: older)%list /\ In read (later :: older).
Definition reads_past (past : list VDB) (o : DOp) : Prop :=
  match o with
  | OpApprove _ _ _ _ _ _ read later | OpClose _ _ _ _ _ _ read later | OpBack _ _ _ read later | OpBuild _ _ _ _ read later | OpAdopt _ _ read later => read_then past read later
  | OpBlock _ _ _ _ _ read | OpUnblock _ _ _ read | OpRelease _ _ _ read | OpAnyHost _ _ _ _ read | OpBlockPerson _ _ _ _ read | OpUnblockPerson _ _ _ read => In read past
  | _ => True
  end.
Definition no_rows (d : VDB) : Prop := vtasks d = ∅ /\ approvals d = ∅ /\ reviews d = ∅ /\ 0 <= next_task d.
Section Runs.
Context (retries : bool).
(** The rest of the program decides nothing and queues no rebuild. *)
Definition rest_keeps (d : VDB) (o : DOp) : Prop := match o with OpElse d' => touches retries true d d' | _ => True end.
Inductive review_run : list VDB -> list Pending -> VDB -> Prop :=
| rr_start d : no_rows d -> review_run [d] [] d
| rr_door past pend d o : review_run past pend d -> reads_past past o -> rest_keeps d o ->
    review_run ((dstep o d).1 :: past) (option_list (dstep o d).2 ++ pend)%list (dstep o d).1
| rr_finish past before k after d : review_run past (before ++ k :: after)%list d -> review_run (finish k d :: past) (before ++ after)%list (finish k d).

(** A rebuild of a contributor's build. *)
Definition rebuild_of (d : VDB) (id : Z) (t : RTask) (r : Z) : Prop :=
  vtasks d !! id = Some t /\ is_build t = true /\ from_project t = true /\ rp_review (rt_params t) = Some r.
(** A rebuild in flight is its build's newest. *)
Definition single_claim (d : VDB) : Prop :=
  forall i j t u r, rebuild_of d i t r -> rebuild_of d j u r -> in_flight (rt_status t) = true -> j <= i.
Record log_ok (d : VDB) : Prop := { lo_rows : rows_ok d; lo_live : one_live d; lo_claim : retries = false -> single_claim d }.

Lemma touch_claim brings d d' : rows_ok d -> touch false brings d d' -> single_claim d -> single_claim d'.
Proof.
  intros Hok Ht Hs i j t' u' r (H1 & H2 & H3 & H4) (G1 & G2 & G3 & G4) Hf.
  assert (Hback : forall i t', vtasks d' !! i = Some t' -> rp_review (rt_params t') = Some r -> exists t, vtasks d !! i = Some t /\ stays false t t').
  { intros k x Hk Hr. destruct Ht as [Hk' _ _|y [[Py _] _] Ey _ _]; [by eapply kept_task|]. rewrite Ey in Hk. apply lookup_insert_Some in Hk as [[_ <-]|[_ Hk]]; [congruence|].
    exists x. split; [done|]. split; [done|]. by right. }
  destruct (Hback _ _ H1 H4) as (t & Ht1 & E1 & [|F1]); [done|]. destruct (Hback _ _ G1 G4) as (u & Hu1 & E2 & _).
  apply fixed_of in E1 as (_ & _ & E3 & E4 & E5), E2 as (_ & _ & E6 & E7 & E8). apply (Hs i j t u r); [unfold rebuild_of; split_and!; congruence|unfold rebuild_of; split_and!; congruence|auto].
Qed.
Lemma queue_claim d d' : rows_ok d -> queues d d' -> single_claim d -> single_claim d'.
Proof.
  intros Hok [by_ o self name ag pin e Hf (x & Hx & E1 & E2) ->] Hs i j t u r (H1 & H2 & H3 & H4) (G1 & G2 & G3 & G4) Hi. cbn in H1, G1.
  apply lookup_insert_Some in H1 as [[<- <-]|[Hni H1]], G1 as [[<- <-]|[Hnj G1]]; [lia|apply (ok_task d Hok) in G1; lia| |by eapply (Hs i j t u r)].
  cbn in G4. injection G4 as <-. exfalso. destruct (ok_rebuild d Hok _ _ _ H1 H2 H3 H4) as (y & Hy & F1 & _). assert (y = x) as -> by congruence.
  unfold claimed in Hf. rewrite <- not_true_iff_false in Hf. apply Hf. apply existsb_exists. exists (i, t). split; [by apply in_table|]. cbn [snd].
  assert (rt_name t = name) as -> by congruence. rewrite String.eqb_refl, H2, H3, Hi, H4. cbn. by rewrite Z.eqb_refl.
Qed.
Lemma same_tasks_claim d d' : vtasks d' = vtasks d -> single_claim d -> single_claim d'.
Proof. intros E. unfold single_claim, rebuild_of. by rewrite E. Qed.

Lemma touches_log d d' : log_ok d -> touches retries true d d' -> log_ok d' /\ grows d d'.
Proof.
  intros Hl H. induction H as [|a b c H _ IH]; [done|]. destruct IH as [I1 I2].
  - destruct Hl as [H1 H2 H3]. split; [by eapply touch_ok|eapply same_log_live; [|done]; by destruct H|]. intros E. rewrite E in H. eapply touch_claim; [done..|by apply H3].
  - split; [done|]. etrans; [by eapply touch_grows; [apply Hl|]|done].
Qed.
Lemma stays_any t t' : stays false t t' -> stays retries t t'.
Proof. intros [E [|H]]; [done|]. split; [done|by right]. Qed.
Lemma touches_any d d' : touches false false d d' -> touches retries true d d'.
Proof.
  apply rtc_subrel. intros a b [Ht En Hl|t [Ht _] Et En Hl]; [apply touch_tasks; [|done..]|eapply touch_job; [split; [exact Ht|by left]|done..]].
  intros id. specialize (Ht id). inversion Ht; constructor. by apply stays_any.
Qed.
Lemma withdraw_log d d' : log_ok d -> withdraws d d' -> log_ok d' /\ grows d d'.
Proof.
  intros [H1 H2 H3] H. split; [|by apply withdraw_grows]. split; [by eapply withdraw_ok|by eapply withdraw_live|]. intros E. eapply same_tasks_claim; [|by apply H3]. by destruct H.
Qed.
Lemma claims_log d d' : log_ok d -> claims d d' -> log_ok d' /\ grows d d'.
Proof.
  intros Hl H. induction H as [|a b c H _ IH]; [done|]. assert (Hb : log_ok b /\ grows a b).
  { destruct H as [H|H]; [|apply touches_log; [done|]; by apply touches_any, rtc_once]. destruct Hl as [H1 H2 H3]. split; [|by apply queue_grows].
    split; [by eapply queue_ok|intros i j x y; destruct H as [? ? ? ? ? ? ? _ _ ->]; apply H2|]. intros E. eapply queue_claim; [done..|by apply H3]. }
  destruct IH as [I1 I2]; [apply Hb|]. split; [done|]. etrans; [apply Hb|done].
Qed.
(** A decision's batch. *)
Lemma round_log r now d d' v gone : log_ok d -> round_ok r d -> takeRound r now d = (d', Some (v, gone)) ->
  log_ok d' /\ grows d d' /\ v = next_rev d /\ exists m, touches false false d m /\ recorded r v (review_written r) now m d'.
Proof.
  intros Hl Hr E. pose proof (takeRound_spec r now d (lo_rows d Hl)) as H. rewrite E in H. cbn in H. destruct H as (-> & Hu & m & Hm & Hrec).
  destruct (touches_log d m Hl (touches_any _ _ Hm)) as [Hlm Hgm]. destruct (touches_ok _ _ _ _ (lo_rows d Hl) Hm) as (_ & _ & [Ea Ena Erv Env _]).
  assert (Hrm : round_ok r m).
  { destruct Hr as [H1 H2]. split; [done|]. intros x Hx. destruct (H2 x Hx) as ((t & Ht & E1 & E2) & Hb). split; [|done].
    destruct (grows_task _ _ _ _ Hgm Ht) as (t' & Ht' & F1 & F2). exists t'. split_and!; congruence. }
  assert (Hum : undecided (guard_of r) m = true) by (unfold undecided, live_decision in *; by rewrite Ea).
  destruct (review_written_same r) as (W1 & W2 & _). destruct Hlm as [M1 M2 M3]. split_and!; [|etrans; [exact Hgm|by eapply recorded_grows]|done|by exists m].
  split; [by eapply recorded_ok|by eapply recorded_live|]. intros Er. eapply same_tasks_claim; [by destruct Hrec|by apply M3].
Qed.
End Runs.
