(* ===== verification/ReviewRunFacts.v ===== *)
(** What Review's doors keep over every interleaving: one decision stands on a build, the record is only added to, a claim is one
    rebuild in flight, and a publish job carries a decision (Review.v, ReviewDoors.v, Blocks.v, Delivery.v). *)
From S2P Require Import Prelude JsTime Json Tasks Targets Rings Governance Review ReviewDoors Blocks Delivery ReviewFacts ReviewTables ReviewRuns.
Local Open Scope string_scope.
Local Open Scope Z_scope.

(** ** Publish jobs *)

(** The decision a publish job carries: a row of its review, approved by who the job names. *)
Definition carried (d : VDB) (v : Z) (name arch : string) (build_id : Z) (by_ : string) : Prop :=
  exists k a, approvals d !! k = Some a /\ ap_review a = Some v /\ ap_task a = build_id /\ ap_decision a = "approved" /\ ap_by a = by_ /\ ap_name a = name /\ ap_arch a = arch.
Definition takens (pend : list Pending) : list Taken := omap (fun p => match p with PApproval k => Some k | _ => None end) pend.
Record pubs_ok (ks : list Taken) (d : VDB) : Prop := {
  pb_from id t v : vtasks d !! id = Some t -> rp_review_id (rt_params t) = Some v ->
    exists b by_, rp_task (rt_params t) = Some b /\ rp_by (rt_params t) = Some by_ /\ carried d v (rt_name t) (rt_arch t) b by_;
  pb_once i j t u v : vtasks d !! i = Some t -> vtasks d !! j = Some u -> rp_review_id (rt_params t) = Some v -> rp_review_id (rt_params u) = Some v ->
    rp_task (rt_params t) = rp_task (rt_params u) -> i = j;
  pb_rows k x : In k ks -> In x (tk_rows k) -> carried d (tk_review k) (rt_name x.2) (rt_arch x.2) x.1 (tk_by k);
  pb_nodup k : In k ks -> NoDup (map fst (tk_rows k));
  pb_open k x id t : In k ks -> In x (tk_rows k) -> vtasks d !! id = Some t -> rp_review_id (rt_params t) = Some (tk_review k) -> rp_task (rt_params t) <> Some x.1;
  pb_below k : In k ks -> tk_review k < next_rev d;
  pb_distinct : NoDup (map tk_review ks) }.
(** The jobs that carry a review are the ones there were, and the record is added to. *)
Record quiet (d d' : VDB) : Prop := {
  qu_grows : grows d d'; qu_rev : next_rev d <= next_rev d';
  qu_jobs id t' : vtasks d' !! id = Some t' -> rp_review_id (rt_params t') <> None -> exists t, vtasks d !! id = Some t /\ fixed t' = fixed t }.
#[export] Instance quiet_preorder : PreOrder quiet.
Proof.
  split; [intros d; split; [done|lia|eauto]|]. intros a b c [H1 H2 H3] [G1 G2 G3]. split; [by etrans|lia|]. intros id t H E.
  destruct (G3 _ _ H E) as (t1 & Ht1 & E1). destruct (H3 _ _ Ht1) as (t0 & Ht0 & E0); [unfold fixed in E1; congruence|]. exists t0. split; [done|congruence].
Qed.
Lemma carried_grows d d' v name arch b by_ : grows d d' -> carried d v name arch b by_ -> carried d' v name arch b by_.
Proof.
  intros H (k & a & Ha & E). apply (g_app _ _ H) in Ha as (a' & Ha' & [Ee _]). exists k, a'. split; [done|]. unfold entry in Ee. destruct E as (E1 & E2 & E3 & E4 & E5 & E6).
  split_and!; congruence.
Qed.
Lemma pubs_quiet ks d d' : pubs_ok ks d -> quiet d d' -> pubs_ok ks d'.
Proof.
  intros [P1 P2 P3 P4 P5 P6 P7] [Hg Hr Hj]. assert (Hback : forall id t' v, vtasks d' !! id = Some t' -> rp_review_id (rt_params t') = Some v ->
    exists t, vtasks d !! id = Some t /\ fixed t' = fixed t /\ rp_review_id (rt_params t) = Some v /\ rp_task (rt_params t) = rp_task (rt_params t') /\ rp_by (rt_params t) = rp_by (rt_params t')
      /\ rt_name t = rt_name t' /\ rt_arch t = rt_arch t').
  { intros id t' v Ht E. destruct (Hj _ _ Ht) as (t & Ht0 & Ef); [by rewrite E|]. exists t. pose proof Ef as Ef'. unfold fixed in Ef'. split_and!; congruence. }
  split.
  - intros id t v Ht E. destruct (Hback _ _ _ Ht E) as (t0 & Ht0 & _ & E1 & E2 & E3 & E4 & E5). destruct (P1 _ _ _ Ht0 E1) as (b & by_ & F1 & F2 & F3).
    exists b, by_. split; [congruence|]. split; [congruence|]. rewrite <- E4, <- E5. by eapply carried_grows.
  - intros i j t u v Ht Hu E F Eq. destruct (Hback _ _ _ Ht E) as (t0 & Ht0 & _ & E1 & E2 & _), (Hback _ _ _ Hu F) as (u0 & Hu0 & _ & F1 & F2 & _).
    eapply P2; [exact Ht0|exact Hu0|exact E1|exact F1|congruence].
  - intros k x Hk Hx. eapply carried_grows; [done|by apply P3].
  - done.
  - intros k x id t Hk Hx Ht E. destruct (Hback _ _ _ Ht E) as (t0 & Ht0 & _ & E1 & E2 & _). rewrite <- E2. by eapply P5.
  - intros k Hk. apply P6 in Hk. lia.
  - done.
Qed.
Lemma pubs_drop ks d k before after : ks = (before ++ k :: after)%list -> pubs_ok ks d -> pubs_ok (before ++ after) d.
Proof.
  intros -> [P1 P2 P3 P4 P5 P6 P7]. assert (Hin : forall k', In k' (before ++ after) -> In k' (before ++ k :: after)).
  { intros k' [H|H]%in_app_iff; apply in_app_iff; [by left|right; by right]. }
  split; eauto. rewrite map_app in P7 |- *. cbn in P7. apply NoDup_ListNoDup in P7. apply NoDup_ListNoDup. by apply List.NoDup_remove_1 in P7.
Qed.

Section Publishing.
Context (d : VDB) (k : Taken) (before after : list Taken).
(** A publish job queued for the next of the builds its approval decided. *)
Definition rest_of (rows : list (Z * RTask)) : Taken :=
  {| tk_name := tk_name k; tk_by := tk_by k; tk_review := tk_review k; tk_gone := tk_gone k; tk_rows := rows |}.
Lemma publish_one x rows m : rows_ok m -> pubs_ok (before ++ rest_of (x :: rows) :: after) m ->
  pubs_ok (before ++ rest_of rows :: after) (add_task (publish_task (tk_by k) (tk_review k) x) m).
Proof.
  intros Hok [P1 P2 P3 P4 P5 P6 P7]. set (ks := (before ++ _ :: after)%list) in *. set (m' := add_task _ m).
  assert (Hme : In (rest_of (x :: rows)) ks) by (apply in_app_iff; right; by left).
  assert (Hks : forall k', In k' (before ++ rest_of rows :: after) -> k' = rest_of rows \/ (In k' ks /\ tk_review k' <> tk_review k)).
  { intros k' H. assert (Hk' : k' = rest_of rows \/ In k' (before ++ after)).
    { apply in_app_iff in H as [H|[H|H]]; [right; apply in_app_iff; by left|by left|right; apply in_app_iff; by right]. }
    destruct Hk' as [->|H']; [by left|]. right. split; [apply in_app_iff in H' as [H'|H']; apply in_app_iff; [by left|right; by right]|].
    intros E. unfold ks in P7. rewrite map_app in P7. apply NoDup_ListNoDup in P7. cbn in P7. apply List.NoDup_remove_2 in P7. apply P7. rewrite <- E, <- map_app. by apply in_map. }
  assert (Hnew : forall i t, vtasks m' !! i = Some t -> (i = next_task m /\ t = publish_task (tk_by k) (tk_review k) x) \/ vtasks m !! i = Some t).
  { unfold m'. cbn. intros i t [[<- <-]|[_ H]]%lookup_insert_Some; auto. }
  assert (Hc : forall v n ar b by_, carried m v n ar b by_ -> carried m' v n ar b by_) by done.
  split.
  - intros id t v [[-> ->]|Ht]%Hnew E; [|exact (P1 id t v Ht E)]. cbn in E. injection E as <-. exists x.1, (tk_by k). split_and!; [done..|]. apply Hc. apply (P3 (rest_of (x :: rows)) x Hme). by left.
  - intros i j t u v [[-> ->]|Ht]%Hnew [[-> ->]|Hu]%Hnew E F Eq; [done| | |by eapply P2].
    + cbn in E, Eq. injection E as <-. exfalso. eapply (P5 (rest_of (x :: rows)) x _ u Hme); [by left|exact Hu|exact F|by rewrite <- Eq].
    + cbn in F, Eq. injection F as <-. exfalso. eapply (P5 (rest_of (x :: rows)) x _ t Hme); [by left|exact Ht|exact E|by rewrite Eq].
  - intros k' y [->|[Hk' _]]%Hks Hy; apply Hc; [|by apply P3]. apply (P3 (rest_of (x :: rows)) y Hme). by right.
  - intros k' [->|[Hk' _]]%Hks; [|by apply P4]. pose proof (P4 _ Hme) as Hn. cbn in Hn. by apply NoDup_cons in Hn as [_ Hn].
  - intros k' y id t [->|[Hk' Hne]]%Hks Hy [[-> ->]|Ht]%Hnew E.
    + cbn. intros [= Eq]. pose proof (P4 _ Hme) as Hn. cbn in Hn. apply NoDup_cons in Hn as [Hn _]. apply Hn. rewrite Eq. apply list_elem_of_In. by apply in_map.
    + apply (P5 (rest_of (x :: rows)) y id t Hme); [by right|done|done].
    + cbn in E. congruence.
    + by eapply P5.
  - intros k' [->|[Hk' _]]%Hks; [apply (P6 _ Hme)|by apply P6].
  - unfold ks in P7. rewrite map_app in P7 |- *. exact P7.
Qed.
End Publishing.
Lemma publish_all retries k before after rows : forall m, log_ok retries m -> pubs_ok (before ++ rest_of k rows :: after) m ->
  let m' := fold_left (fun d r => add_task (publish_task (tk_by k) (tk_review k) r) d) rows m in
  log_ok retries m' /\ grows m m' /\ pubs_ok (before ++ after) m'.
Proof.
  induction rows as [|x rows IH]; intros m Hl Hp; cbn.
  - split; [done|]. split; [done|]. by eapply pubs_drop.
  - set (m1 := add_task _ m). assert (Hg1 : grows m m1).
    { split; [|intros i a H; exists a; split; [done|by split]..|intros i a v; eauto|cbn; lia|done]. intros id t H. exists t. split; [|done]. cbn. rewrite lookup_insert_ne; [done|].
      apply (ok_task m (lo_rows _ _ Hl)) in H. lia. }
    assert (Hl1 : log_ok retries m1).
    { destruct Hl as [H1 H2 H3]. split; [by eapply add_ok|done|]. intros E i j t u r (A1 & A2 & A3 & A4) (B1 & B2 & B3 & B4) Hf. cbn in A1, B1.
      apply lookup_insert_Some in A1 as [[_ <-]|[_ A1]]; [done|]. apply lookup_insert_Some in B1 as [[_ <-]|[_ B1]]; [done|]. by apply (H3 E i j t u r). }
    destruct (IH m1 Hl1) as (I1 & I2 & I3); [apply publish_one; [apply Hl|done]|]. split; [done|]. split; [by etrans|done].
Qed.

(** ** Steps *)

Section Run.
Context (retries : bool).
Inductive move (d d' : VDB) : Prop :=
| mv_touch : touch retries true d d' -> move d d'
| mv_queue : queues d d' -> move d d'
| mv_withdraw : withdraws d d' -> move d d'
| mv_block : blocks_only d d' -> move d d'
| mv_round r now v gone : round_ok r d -> takeRound r now d = (d', Some (v, gone)) -> move d d'.
Definition moves : VDB -> VDB -> Prop := rtc move.
Lemma touch_quiet d d' : log_ok retries d -> touch retries true d d' -> quiet d d'.
Proof.
  intros Hl H. split; [eapply touch_grows; [apply Hl|done]|destruct H as [_ _ []|? _ _ _ []]; lia|]. intros id t' Ht E. destruct H as [Hk _ _|t [[_ P] _] Et _ _].
  - destruct (kept_task _ _ _ _ _ Hk Ht) as (t & Ht0 & E0 & _). by exists t.
  - rewrite Et in Ht. apply lookup_insert_Some in Ht as [[_ <-]|[_ Ht]]; [congruence|]. by exists t'.
Qed.
Lemma move_keeps d d' : log_ok retries d -> move d d' -> log_ok retries d' /\ quiet d d'.
Proof.
  intros Hl [H|H|H|H|r now v gone Hr E].
  - destruct (touches_log retries d d' Hl) as [H1 _]; [by apply rtc_once|]. split; [done|by apply touch_quiet].
  - destruct (claims_log retries d d' Hl) as [H1 H2]; [apply rtc_once; by left|]. split; [done|]. destruct H as [by_ o self name ag pin e _ _ ->]. split; [done|cbn; lia|].
    cbn. intros id t' [[_ <-]|[_ Ht]]%lookup_insert_Some E; [done|]. by exists t'.
  - destruct (withdraw_log retries d d' Hl H) as [H1 H2]. split; [done|]. destruct H as [Et _ _ En _ _ _]. split; [done|lia|]. intros id t'. rewrite Et. eauto.
  - pose proof (blocks_grows _ _ H) as Hg. destruct Hl as [L1 L2 L3]. split; [split; [by eapply blocks_ok|intros i j a b; rewrite (bo_app _ _ H); apply L2|]|].
    + intros E. eapply same_tasks_claim; [by destruct H|by apply L3].
    + destruct H as [Et _ _ _ _ En]. split; [done|lia|]. intros id t'. rewrite Et. eauto.
  - destruct (round_log retries r now d d' v gone Hl Hr E) as (H1 & H2 & -> & m & Hm & Hrec). split; [done|].
    destruct (touches_ok _ _ _ _ (lo_rows _ _ Hl) Hm) as (_ & Hgm & [_ _ _ En]). destruct Hrec as [Et _ _ _ _ Enr]. split; [done|lia|].
    intros id t'. rewrite Et. intros Ht E'. assert (Hq : quiet d m).
    { clear - Hl Hm. pose proof (touches_any retries _ _ Hm) as Ha. clear Hm. induction Ha as [|a b c H _ IH]; [done|]. etrans; [by eapply touch_quiet|]. apply IH. by apply (touches_log retries a b Hl (rtc_once _ _ H)). }
    by apply (qu_jobs _ _ Hq).
Qed.
Lemma moves_keep d d' : log_ok retries d -> moves d d' -> log_ok retries d' /\ quiet d d'.
Proof.
  intros Hl H. induction H as [|a b c H _ IH]; [done|]. destruct (move_keeps _ _ Hl H) as [H1 H2]. destruct (IH H1) as [H3 H4]. split; [done|]. by etrans.
Qed.
Lemma touches_moves d d' : touches false false d d' -> moves d d'.
Proof. intros H%(touches_any retries). revert H. apply rtc_subrel. intros x y. apply mv_touch. Qed.
Lemma claims_moves d d' : claims d d' -> moves d d'.
Proof.
  intros H. induction H as [|a b c H _ IH]; [reflexivity|]. etrans; [|exact IH]. destruct H as [H|H]; [apply rtc_once; by apply mv_queue|]. by apply touches_moves, rtc_once.
Qed.
Lemma finishBlock_moves k d : moves d (finishBlock k d).
Proof.
  destruct (finishBlock_writes k d) as (b & m & m' & H0 & H1 & H2 & H3). transitivity b; [apply rtc_once; by apply mv_block|]. transitivity m; [by apply touches_moves|]. transitivity m'; [apply rtc_once; by apply mv_withdraw|]. by apply touches_moves.
Qed.
(** A decision's batch in a run: the tables it leaves, with its row for every build it decided. *)
Lemma approval_moves c id b th g now read later d k : rows_ok read -> grows read later -> grows later d -> log_ok retries d ->
  (takeApproval c id b th g now read later d).2 = inr k -> let d' := (takeApproval c id b th g now read later d).1 in
  moves d d' /\ NoDup (map fst (tk_rows k)) /\ next_rev d <= tk_review k < next_rev d' /\
  forall x, In x (tk_rows k) -> carried d' (tk_review k) (rt_name x.2) (rt_arch x.2) x.1 (tk_by k).
Proof.
  intros Hread Hrl Hld Hl E d'. pose proof (takeApproval_writes c id b th g now read later d Hread Hrl Hld (lo_rows _ _ Hl)) as H. rewrite E in H.
  destruct H as (r & m & Hm & Er & Hr & [Ed Eb En Ew Erows Hnames _ _]). fold d' in Er. destruct (touches_log retries d m Hl (touches_any retries _ _ Hm)) as [Hlm _].
  destruct (round_log retries _ _ _ _ _ _ Hlm Hr Er) as (_ & _ & Ev & m' & Hm' & [_ _ _ Ha _ Enr]). split; [|split; [|split]].
  - transitivity m; [by apply touches_moves|]. apply rtc_once. by eapply mv_round.
  - destruct Hr as [Hn _]. rewrite Erows, map_map in Hn. exact Hn.
  - destruct (touches_ok _ _ _ _ (lo_rows _ _ Hl) Hm) as (_ & _ & [_ _ _ Env]). rewrite Ev, Env, Enr, Ev. lia.
  - intros x Hx. set (de := {| de_task := x.1; de_arch := rt_arch x.2; de_version := rt_version x.2; de_rebuild := Some x.1 |}).
    assert (Hde : In de (rn_rows r)) by (rewrite Erows; by apply (in_map (fun x => {| de_task := x.1; de_arch := rt_arch x.2; de_version := rt_version x.2; de_rebuild := Some x.1 |}))).
    apply list_elem_of_In, list_elem_of_lookup in Hde as [i Hi]. exists (next_app m' + Z.of_nat i), (app_row r (Some (tk_review k)) now de).
    split; [apply Ha; right; by exists i, de|]. cbn. rewrite (Hnames _ Hx). by rewrite <- En.
Qed.

(** ** Runs *)

Record run_inv (past : list VDB) (pend : list Pending) (d : VDB) : Prop := {
  ri_head : head past = Some d; ri_log : Forall (log_ok retries) past; ri_grows : StronglySorted (fun new old => grows old new) past; ri_pubs : pubs_ok (takens pend) d }.
Lemma inv_now past pend d : run_inv past pend d -> log_ok retries d /\ forall p, In p past -> log_ok retries p /\ grows p d.
Proof.
  intros [Hh Hl Hg _]. destruct past as [|d0 past]; [done|]. injection Hh as ->. apply Forall_cons in Hl as [Hd Hl]. split; [done|].
  apply StronglySorted_inv in Hg as [_ Hg]. intros p [<-|Hp]; [done|]. apply list_elem_of_In in Hp. split; [by eapply Forall_forall in Hl|by eapply Forall_forall in Hg].
Qed.
Lemma inv_reads past pend d read later : run_inv past pend d -> read_then past read later -> log_ok retries read /\ grows read later /\ grows later d.
Proof.
  intros Hi (newer & older & E & Hr). pose proof (inv_now _ _ _ Hi) as [_ Hp]. assert (Hl : In later past) by (rewrite E; apply in_app_iff; right; by left).
  assert (Hread : In read past) by (rewrite E; apply in_app_iff; by right). split; [by apply Hp|]. split; [|by apply Hp].
  destruct Hr as [<-|Hr]; [done|]. destruct Hi as [_ _ Hg _]. rewrite E in Hg. clear -Hg Hr. induction newer as [|n l IH]; cbn in Hg; apply StronglySorted_inv in Hg as [Hg Hf]; [|by apply IH].
  apply list_elem_of_In in Hr. by eapply Forall_forall in Hf.
Qed.
Lemma inv_step past pend pend' d d' : run_inv past pend d -> log_ok retries d' -> grows d d' -> pubs_ok (takens pend') d' -> run_inv (d' :: past) pend' d'.
Proof.
  intros Hi Hl Hg Hp. pose proof (inv_now _ _ _ Hi) as [_ Hpast]. destruct Hi as [Hh Hlp Hgp _]. split; [done|by constructor| |done].
  constructor; [done|]. apply Forall_forall. intros p Hin%list_elem_of_In. etrans; [|exact Hg]. by apply Hpast.
Qed.
Lemma inv_moves past pend pend' d d' : run_inv past pend d -> moves d d' -> takens pend' = takens pend -> run_inv (d' :: past) pend' d'.
Proof.
  intros Hi Hm E. destruct (inv_now _ _ _ Hi) as [Hl _]. destruct (moves_keep _ _ Hl Hm) as [H1 H2]. eapply inv_step; [done..|apply H2|]. rewrite E. eapply pubs_quiet; [apply Hi|done].
Qed.
Lemma takens_add k pend : takens (PApproval k :: pend) = k :: takens pend.
Proof. done. Qed.
Lemma takens_app a b : takens (a ++ b) = (takens a ++ takens b)%list.
Proof. unfold takens. apply omap_app. Qed.
Lemma door_ok past pend d o : run_inv past pend d -> reads_past past o -> rest_keeps retries d o ->
  run_inv ((dstep o d).1 :: past) (option_list (dstep o d).2 ++ pend) (dstep o d).1.
Proof.
  intros Hi Hr Hk. destruct (inv_now _ _ _ Hi) as [Hl Hpast]. pose proof (lo_rows _ _ Hl) as Hok.
  assert (Hquiet : forall d' p, moves d d' -> takens (option_list p) = [] -> run_inv (d' :: past) (option_list p ++ pend) d').
  { intros d' p Hm Ep. eapply inv_moves; [done..|]. by rewrite takens_app, Ep. }
  assert (Htouch : forall d' p, touches false false d d' -> takens (option_list p) = [] -> run_inv (d' :: past) (option_list p ++ pend) d') by (intros; apply Hquiet; [by apply touches_moves|done]).
  destruct o; cbn [dstep reads_past rest_keeps] in *.
  - destruct (inv_reads _ _ _ _ _ Hi Hr) as (Hlr & Hg1 & Hg2). pose proof (lo_rows _ _ Hlr) as Hread.
    pose proof (takeApproval_writes c id b through gate now read later d Hread Hg1 Hg2 Hok) as Hw.
    pose proof (approval_moves c id b through gate now read later d) as Ha. unfold kept_for. cbn [fst snd].
    destruct (takeApproval c id b through gate now read later d) as [d' [a|k]]; cbn [fst snd] in *; [by apply Htouch|].
    destruct (Ha k Hread Hg1 Hg2 Hl eq_refl) as (Hm & Hnd & Hrev & Hc). destruct (moves_keep _ _ Hl Hm) as [Hl' Hq].
    eapply inv_step; [done..|apply Hq|]. destruct (pubs_quiet _ _ _ (ri_pubs _ _ _ Hi) Hq) as [P1 P2 P3 P4 P5 P6 P7].
    change (takens (option_list (Some (PApproval k)) ++ pend)) with (k :: takens pend).
    assert (Hold : forall k', In k' (takens pend) -> tk_review k' < tk_review k) by (intros k' H%(pb_below _ _ (ri_pubs _ _ _ Hi)); lia).
    split; [done|done| | | | |].
    + intros k' x [<-|H] Hx; [by apply Hc|by apply P3].
    + intros k' [<-|H]; [done|by apply P4].
    + intros k' x i t [<-|H] Hx Ht E; [|by eapply P5]. exfalso.
      destruct (qu_jobs _ _ Hq _ _ Ht) as (t0 & Ht0 & Ef); [by rewrite E|]. destruct (pb_from _ _ (ri_pubs _ _ _ Hi) i t0 (tk_review k) Ht0) as (b0 & by0 & _ & _ & key & a & Ha' & Ev & _).
      { unfold fixed in Ef. congruence. }
      destruct (ok_review d Hok _ _ Ha') as (v & rv & E1 & Hv & _). apply (ok_rev d Hok) in Hv. assert (v = tk_review k) by congruence. lia.
    + intros k' [<-|H]; [lia|by apply P6].
    + cbn. constructor; [|done]. intros (k' & E & H)%list_elem_of_In%in_map_iff. apply Hold in H. lia.
  - destruct (inv_reads _ _ _ _ _ Hi Hr) as (Hlr & Hg1 & Hg2). pose proof (takeClosing_writes c id note ask_changes through now read later d (lo_rows _ _ Hlr) Hg1 Hg2 Hok) as Hw.
    unfold kept_for. cbn [fst snd]. destruct (takeClosing _ _ _ _ _ _ _ _ _) as [d' [a|k]]; cbn [fst snd] in *; [by apply Htouch|].
    destruct Hw as (r & gone & Er & Hro & _ & _). apply Hquiet; [|done]. apply rtc_once. by eapply mv_round.
  - apply Hquiet; [apply rtc_once, mv_withdraw, takeBack_writes|]. unfold kept_for. by destruct (takeBack _ _ _ _ _ _) as [? []].
  - apply Htouch; [apply takeBlock_touches|]. unfold kept_for. by destruct (takeBlock _ _ _ _ _ _ _) as [? []].
  - apply Hquiet; [|done]. cbn [fst]. unfold handleUnblockPackage, refuse. repeat (case_match; cbn [fst]; try reflexivity). by apply rtc_once, mv_block.
  - apply Hquiet; [|done]. destruct (inv_reads _ _ _ _ _ Hi Hr) as (Hlr & Hg1 & Hg2). apply claims_moves, handleProjectBuild_writes; [apply Hlr|by etrans|done].
  - apply Htouch; [apply handleRelease_touches|done].
  - apply Htouch; [apply handleAnyHost_touches|done].
  - apply Htouch; [apply stageBuild_touches|done].
  - apply Htouch; [apply publishDone_touches|done].
  - apply Htouch; [apply handleBlockContributor_touches|done].
  - apply Htouch; [|done]. cbn [fst]. unfold handleUnblockContributor, refuse. repeat (case_match; cbn [fst]; try reflexivity). apply touch_people.
  - apply Htouch; [apply handleAdoptPackage_touches|done].
  - apply Hquiet; [|done]. revert Hk. apply rtc_subrel. intros x y. apply mv_touch.
Qed.
Lemma pending_ok past before k after d : run_inv past (before ++ k :: after) d -> run_inv (finish k d :: past) (before ++ after) (finish k d).
Proof.
  intros Hi. destruct (inv_now _ _ _ Hi) as [Hl _]. destruct k as [k|k|k|k]; cbn [finish].
  - pose proof (ri_pubs _ _ _ Hi) as Hp. rewrite takens_app, takens_add in Hp.
    assert (Hp' : pubs_ok (takens before ++ rest_of k (tk_rows k) :: takens after) d) by (by destruct k).
    destruct (publish_all retries _ _ _ _ _ Hl Hp') as (H1 & H2 & H3). pose proof (finishApproval_writes k d) as Hf. set (m := fold_left _ (tk_rows k) d) in *.
    destruct (moves_keep m _ H1 (touches_moves _ _ Hf)) as [H4 H5]. eapply inv_step; [done..|etrans; [exact H2|apply H5]|]. rewrite takens_app. by eapply pubs_quiet.
  - eapply inv_moves; [done|apply touches_moves, finishClosing_touches|by rewrite !takens_app].
  - eapply inv_moves; [done|apply touches_moves, finishBack_touches|by rewrite !takens_app].
  - eapply inv_moves; [done|apply finishBlock_moves|by rewrite !takens_app].
Qed.
Lemma start_inv d : no_rows d -> run_inv [d] [] d.
Proof.
  intros (E1 & E2 & E3 & E4). split; [done| |repeat constructor|].
  - constructor; [|constructor]. split.
    + split; [done|..]; intros *; rewrite ?E1, ?E2, ?E3; by rewrite lookup_empty.
    + intros i j a b H. by rewrite E2, lookup_empty in H.
    + intros _ i j t u r [H _]. by rewrite E1, lookup_empty in H.
  - split; try done; intros *; rewrite ?E1; try (by rewrite lookup_empty). constructor.
Qed.
Lemma review_run_ok past pend d : review_run retries past pend d -> run_inv past pend d.
Proof. induction 1; [by apply start_inv|by apply door_ok|by apply pending_ok]. Qed.
End Run.

(** C2: one decision stands on a build. Over every interleaving of claims, approvals of a package or of one architecture,
    rejections, changes asked for, withdrawals, releases, blocks and deliveries - each handler on what it read before and
    stopping where it may - no build has two decisions that stand, and a decision on the record stays there as it was written:
    it may be taken back, once taken back it stays so, and nothing else of it changes. *)
Theorem one_decision_stands retries past pend d :
  review_run retries past pend d ->
  one_live d /\ forall p k a, In p past -> approvals p !! k = Some a -> exists a', approvals d !! k = Some a' /\ row_kept a a'.
Proof. intros H%review_run_ok. destruct (inv_now _ _ _ _ H) as [Hl Hp]. split; [apply Hl|]. intros p k a Hin. apply Hp in Hin as [_ Hg]. by apply Hg. Qed.


(** C21: a publish job carries a decision. Whatever was read and whatever came between, a publish job with a review has on the
    record the row it carries: an approval by the maintainer it names, of the build it names, for its package and its
    architecture, in that review; and no second job carries it. *)
Theorem a_publish_job_carries_a_decision retries past pend d id t v :
  review_run retries past pend d -> vtasks d !! id = Some t -> rp_review_id (rt_params t) = Some v ->
  (exists b by_, rp_task (rt_params t) = Some b /\ rp_by (rt_params t) = Some by_ /\ carried d v (rt_name t) (rt_arch t) b by_)
  /\ forall j u, vtasks d !! j = Some u -> rp_review_id (rt_params u) = Some v -> rp_task (rt_params u) = rp_task (rt_params t) -> j = id.
Proof.
  intros H%review_run_ok Ht Hv. pose proof (ri_pubs _ _ _ _ H) as Hp. split; [by eapply pb_from|]. intros j u Hu Hw E. by eapply pb_once.
Qed.
