(* ===== verification/RequestRuns.v ===== *)
(** Runs of the contributors' doors with the review's, and what a name reserved keeps (Requests.v). *)
From S2P Require Import Prelude JsTime Json Tasks Targets Rings Governance Projects Review ReviewDoors Blocks Delivery Contributors Requests ReviewFacts ReviewTables RequestFacts ReviewRuns ReviewRunFacts.
Local Open Scope string_scope.
Local Open Scope Z_scope.

(** ** The runs *)

(** A handler's second half, to come: a request's record, a removal's batch, a review's own. *)
Inductive CPend := PReserved (p : Reserved) | PRemoving (k : Removing) | PReview (k : Pending).
Definition review_of (p : CPend) : option Pending := match p with PReview k => Some k | _ => None end.
Definition name_of (p : CPend) : option string := match p with PReserved p => Some (pq_name p) | _ => None end.
(** The name of a request in flight is its requester's, and nobody else's to take. *)
Definition held (p : Reserved) (x : CDB) : Prop :=
  exists g, registrations (cv x) !! pq_name p = Some g /\ rg_owner g = pq_login p /\ nameIsFree g = false.
Definition holds_on (pend : list CPend) (x x' : CDB) : Prop := forall p, In (PReserved p) pend -> held p x -> held p x'.
(** Nobody writes two requests for one name at a time. *)
Definition fresh (pend : list CPend) (c : Caller) (name : string) : Prop := forall p, In (PReserved p) pend -> pq_login p = ca_login c -> pq_name p <> name.

Section Runs.
(** [calm]: no request's name is freed, removed or adopted while it is written, and nobody writes two for one name at a time. *)
Context {web : Web} (retries calm : bool).
Inductive pool_run : list CDB -> list CPend -> CDB -> Prop :=
| pr_start x : no_rows (cv x) -> cols x = ∅ -> pool_run [x] [] x
| pr_review past pend x o : pool_run past pend x -> reads_past (map cv past) o -> rest_keeps retries (cv x) o ->
    let x' := set_cv (dstep o (cv x)).1 x in (calm = true -> holds_on pend x x') ->
    pool_run (x' :: past) (map PReview (option_list (dstep o (cv x)).2) ++ pend)%list x'
| pr_review_end past before k after x : pool_run past (before ++ PReview k :: after)%list x ->
    let x' := set_cv (finish k (cv x)) x in (calm = true -> holds_on (before ++ after)%list x x') -> pool_run (x' :: past) (before ++ after)%list x'
| pr_request past pend x c k read later x' r : pool_run past pend x -> In read past -> In later past -> takeRequest c k read later x = (x', r) ->
    (calm = true -> forall p, r = inr p -> fresh pend c (pq_name p)) ->
    pool_run (x' :: past) (match r with inr p => [PReserved p] | inl _ => [] end ++ pend)%list x'
| pr_record past before p after x now : pool_run past (before ++ PReserved p :: after)%list x ->
    let x' := (finishRequest p now x).1 in pool_run (x' :: past) (before ++ after)%list x'
| pr_fail past before p after x recorded : pool_run past (before ++ PReserved p :: after)%list x ->
    let x' := failRequest p recorded x in pool_run (x' :: past) (before ++ after)%list x'
| pr_build past pend x c name ask now : pool_run past pend x -> let x' := (handleBuildPackage c name ask now x).1 in pool_run (x' :: past) pend x'
| pr_dequeue past pend x c name id read : pool_run past pend x -> In read past ->
    let x' := set_cv (handleDequeueBuild c name id (cv read) (cv x)).1 x in pool_run (x' :: past) pend x'
| pr_revoke past pend x c id read : pool_run past pend x -> In read past ->
    let x' := set_cv (handleRevokeWorker c id (cv read) (cv x)).1 x in pool_run (x' :: past) pend x'
| pr_remove past pend x c name read d r : pool_run past pend x -> In read past -> takeRemoval c name (cv read) (cv x) = (d, r) ->
    pool_run (set_cv d x :: past) (match r with inr k => [PRemoving k] | inl _ => [] end ++ pend)%list (set_cv d x)
| pr_removed past before k after x read : pool_run past (before ++ PRemoving k :: after)%list x -> In read past ->
    let x' := finishRemoval k (cv read) x in (calm = true -> holds_on (before ++ after)%list x x') -> pool_run (x' :: past) (before ++ after)%list x'.

(** *** They are runs of the review, whose rest they are *)

Lemma omap_reviews l : omap review_of (map PReview l) = l.
Proof. induction l as [|a l IH]; [done|]. cbn. by rewrite IH. Qed.
Lemma rest_run past pend d d' : review_run retries past pend d -> touches retries true d d' -> review_run retries (d' :: past) pend d'.
Proof. intros H Ht. by apply (rr_door retries past pend d (OpElse d') H). Qed.
Lemma run_past past pend d : review_run retries past pend d -> In d past.
Proof. destruct 1; by left. Qed.
Lemma cols_grow x d : cols_ok x -> grows (cv x) d -> cols_ok (set_cv d x).
Proof.
  intros Hok Hg id k Hk. destruct (Hok id k Hk) as (Hlt & t & Ht & Hn). pose proof (g_next _ _ Hg). split; [cbn; lia|]. destruct (g_tasks _ _ Hg _ _ Ht) as (t' & Ht' & E).
  exists t'. split; [done|]. by apply (asks_fixed t).
Qed.
Lemma review_grow past pend pend' d d' : review_run retries past pend d -> review_run retries (d' :: past) pend' d' -> grows d d'.
Proof. intros H1 H2. pose proof (review_run_ok _ _ _ _ H2) as Hi. destruct (inv_now _ _ _ _ Hi) as [_ Hp]. apply Hp. right. by eapply run_past. Qed.
Lemma pool_rest past pend x x' : review_run retries (map cv past) pend (cv x) -> cols_ok x -> leaves retries x x' ->
  review_run retries (map cv (x' :: past)) pend (cv x') /\ cols_ok x'.
Proof. intros IH Hok Hl. destruct (Hl Hok) as [Ht Hok']. split; [by apply rest_run with (cv x)|done]. Qed.
Lemma pool_cv past pend x d : review_run retries (map cv past) pend (cv x) -> cols_ok x -> touches retries true (cv x) d ->
  review_run retries (map cv (set_cv d x :: past)) pend d /\ cols_ok (set_cv d x).
Proof. intros H1 H2 H3. by apply (pool_rest past pend x), leaves_cv. Qed.
Lemma pool_review past pend x : pool_run past pend x -> review_run retries (map cv past) (omap review_of pend) (cv x) /\ cols_ok x.
Proof.
  induction 1 as [x Hn Hc|past pend x o _ [IH Hok] Hr Hk x' _|past before k after x _ [IH Hok] x' _|past pend x c k read later x' r _ [IH Hok] _ _ Et _|past before p after x now _ [IH Hok] x'
    |past before p after x recorded _ [IH Hok] x'|past pend x c name ask now _ [IH Hok] x'|past pend x c name id read _ [IH Hok] _ x'|past pend x c id read _ [IH Hok] _ x'
    |past pend x c name read d r _ [IH Hok] _ Er|past before k after x read _ [IH Hok] _ x' _]; rewrite ?omap_app in *; try (cbn [omap list_omap review_of] in IH).
  - split; [by apply rr_start|]. intros id k. by rewrite Hc, lookup_empty.
  - pose proof (rr_door retries _ _ _ o IH Hr Hk) as Hd. rewrite omap_reviews. split; [exact Hd|]. apply cols_grow; [done|]. by eapply review_grow.
  - pose proof (rr_finish retries _ _ _ _ _ IH) as Hd. split; [exact Hd|]. apply cols_grow; [done|]. by eapply review_grow.
  - replace x' with (takeRequest c k read later x).1 by (by rewrite Et). destruct r; (apply (pool_rest past _ x); [done..|apply takeRequest_leaves]).
  - apply (pool_rest past _ x); [done..|apply finishRequest_leaves].
  - apply (pool_rest past _ x); [done..|apply failRequest_leaves].
  - apply (pool_rest past _ x); [done..|apply handleBuildPackage_leaves].
  - apply (pool_cv past _ x); [done..|apply handleDequeueBuild_touches].
  - apply (pool_cv past _ x); [done..|apply handleRevokeWorker_touches].
  - replace d with (takeRemoval c name (cv read) (cv x)).1 by (by rewrite Er). destruct r; (apply (pool_cv past _ x); [done..|apply takeRemoval_touches]).
  - apply (pool_rest past _ x); [done..|apply finishRemoval_leaves].
Qed.

(** *** A name reserved *)

(** No registration is lost, given away or freed. *)
Definition kept_name (g g' : Registration) : Prop := rg_owner g' = rg_owner g /\ (nameIsFree g = false -> nameIsFree g' = false).
Definition keeps_names (x x' : CDB) : Prop :=
  forall n g, registrations (cv x) !! n = Some g -> exists g', registrations (cv x') !! n = Some g' /\ kept_name g g'.
#[local] Instance keeps_names_preorder : PreOrder keeps_names.
Proof.
  split; [intros x n g Hg; exists g; by repeat split|]. intros x y z H1 H2 n g Hg. destruct (H1 _ _ Hg) as (g1 & Hg1 & E1 & F1). destruct (H2 _ _ Hg1) as (g2 & Hg2 & E2 & F2).
  exists g2. split; [done|]. split; [congruence|auto].
Qed.
Lemma names_same x x' : registrations (cv x') = registrations (cv x) -> keeps_names x x'.
Proof. intros E n g. rewrite E. intros Hg. exists g. by repeat split. Qed.
Lemma names_alter n f x x' : registrations (cv x') = alter f n (registrations (cv x)) -> (forall g, kept_name g (f g)) -> keeps_names x x'.
Proof.
  intros E Hf m g Hg. rewrite E. destruct (decide (m = n)) as [->|Hne]; [rewrite lookup_alter_eq, Hg; by exists (f g)|rewrite lookup_alter_ne by done].
  exists g. split; [done|by split].
Qed.
Lemma names_settle n x y d : registrations (cv x) = registrations d -> keeps_names x (set_cv (settleTargets n d) y).
Proof. intros E. unfold settleTargets. destruct (targets_now d n) as [t|]; [|by apply names_same]. apply (names_alter n (with_targets t)); [cbn; by rewrite E|]. intros g. by split. Qed.
Lemma kept_waiting g : kept_name g (said_waiting g).
Proof. unfold said_waiting. destruct (String.eqb (rg_status g) "building"); by split. Qed.
Lemma queue_one_names c p acc arch : registrations (cv (queue_one c p acc arch).1) = registrations (cv acc.1).
Proof. destruct acc as [x [q|e]]; [|done]. cbn. destruct (same_recipe _ _ _ _) as [[id t]|]; [by destruct (is_status _ _)|]. by destruct (_ <=? _). Qed.
Lemma queue_all_names c p l acc : registrations (cv (fold_left (queue_one c p) l acc).1) = registrations (cv acc.1).
Proof. revert acc. induction l as [|a l IH]; intros acc; [done|]. cbn. rewrite IH. apply queue_one_names. Qed.
Lemma queueBuilds_names c name ask now x : keeps_names x (queueBuilds c name ask now x).1.
Proof.
  unfold queueBuilds. destruct (registrations _ !! _) as [g|]; [|reflexivity]. destruct (names x !! name) as [n|]; [|reflexivity].
  destruct (rg_blocked g); [reflexivity|]. destruct (workspace _ _ _) as [[??]|]; [reflexivity|]. cbv zeta. destruct (List.filter _ _) as [|a l]; [reflexivity|].
  destruct (named_builder _ _ _) as [w|e]; [|reflexivity]. set (p := {| pl_name := _ |}).
  pose proof (queue_all_names c p (a :: l) (x, inl {| qd_tasks := []; qd_building := [] |})) as H. cbn [fst] in H.
  destruct (fold_left _ _ _) as [x' [q|e]]; cbn [fst] in H |- *; [|by apply names_same]. destruct (qd_tasks q); [by apply names_same|]. cbn [fst].
  transitivity (set_cv (on_registration name said_waiting (cv x')) x'); [|by apply (names_settle name)]. apply (names_alter name said_waiting); [cbn; by rewrite H|apply kept_waiting].
Qed.
Lemma build_names c name ask now x : keeps_names x (handleBuildPackage c name ask now x).1.
Proof. unfold handleBuildPackage. cbv zeta. repeat (case_match; try reflexivity); apply queueBuilds_names. Qed.
Lemma dequeue_names c name id read x : keeps_names x (set_cv (handleDequeueBuild c name id read (cv x)).1 x).
Proof.
  unfold handleDequeueBuild, refuse. cbv zeta. repeat (case_match; cbn [fst]; try by apply names_same); [|by apply names_settle].
  set (f := fun g => _). match goal with |- keeps_names x (set_cv (settleTargets name (on_registration name f ?d)) x) => transitivity (set_cv (on_registration name f d) x) end;
    [|by apply (names_settle name)]. apply (names_alter name f); [done|]. intros g. unfold f. by case_match; split.
Qed.
Lemma revoke_names c id read x : registrations (cv (set_cv (handleRevokeWorker c id read (cv x)).1 x)) = registrations (cv x).
Proof. unfold handleRevokeWorker, refuse. cbv zeta. by repeat (case_match; cbn [fst]). Qed.
Lemma removal_names c name read x : registrations (takeRemoval c name read (cv x)).1 = registrations (cv x).
Proof. unfold takeRemoval. by repeat (case_match; cbn [fst]). Qed.
Lemma record_names p x : registrations (cv (recordRow p x)) = registrations (cv x).
Proof. unfold recordRow. cbv zeta. by destruct (pq_was p). Qed.
Lemma write_others p id x m : m <> pq_name p -> registrations (cv (write_request p id x)) !! m = registrations (cv x) !! m.
Proof. intros Hne. unfold write_request. cbn. by rewrite lookup_insert_ne. Qed.
(** What a request of one name leaves of the others. *)
Definition others_kept (n : string) (x x' : CDB) : Prop :=
  forall m g, m <> n -> registrations (cv x) !! m = Some g -> exists g', registrations (cv x') !! m = Some g' /\ kept_name g g'.
Lemma finish_others p now x : others_kept (pq_name p) x (finishRequest p now x).1.
Proof.
  intros m g Hne Hg. unfold finishRequest. cbv zeta. cbn [fst]. set (x3 := write_request _ _ _). set (x4 := if _ : bool then x3 else _).
  assert (H4 : keeps_names x3 (set_cv (settleTargets (pq_name p) (cv x4)) x4)).
  { transitivity x4; [unfold x4; case_match; [reflexivity|apply queueBuilds_names]|by apply names_settle]. }
  apply H4. unfold x3. by rewrite write_others, record_names.
Qed.
Lemma fail_others p recorded x : others_kept (pq_name p) x (failRequest p recorded x).
Proof.
  intros m g Hne Hg. exists g. split; [|by split]. unfold failRequest. set (x1 := if recorded then _ else _).
  assert (E : registrations (cv x1) = registrations (cv x)) by (unfold x1; case_match; [apply record_names|done]).
  unfold unreserve. destruct (registrations (cv x1) !! pq_name p) as [g1|] eqn:E1; [|by rewrite E]. destruct (names x1 !! _) as [n1|]; [|by rewrite E]. cbv zeta.
  destruct (_ && _); [|by rewrite E]. destruct (pq_was p) as [[o on]|]; cbn; [by rewrite lookup_alter_ne, E|by rewrite lookup_delete_ne, E].
Qed.
Lemma reserve_others name login url arches x x' : reserveName name login url arches x = Some x' -> others_kept name x x'.
Proof.
  unfold reserveName. intros Hr m g Hne Hg. exists g. split; [|by split]. destruct (registrations (cv x) !! name) as [g0|].
  - destruct (may_take _ _); [|done]. injection Hr as <-. cbn. by rewrite lookup_alter_ne.
  - injection Hr as <-. cbn. by rewrite lookup_insert_ne.
Qed.
(** What a request's second half writes. *)
Lemma queue_one_rows c p acc arch : names (queue_one c p acc arch).1 = names acc.1 /\ requests (queue_one c p acc arch).1 = requests acc.1.
Proof. destruct acc as [x [q|e]]; [|done]. cbn. destruct (same_recipe _ _ _ _) as [[id t]|]; [by destruct (is_status _ _)|]. by destruct (_ <=? _). Qed.
Lemma queueBuilds_rows c name ask now x : names (queueBuilds c name ask now x).1 = names x /\ requests (queueBuilds c name ask now x).1 = requests x.
Proof.
  assert (Hall : forall p l acc, names (fold_left (queue_one c p) l acc).1 = names acc.1 /\ requests (fold_left (queue_one c p) l acc).1 = requests acc.1).
  { intros p l. induction l as [|a l IH]; intros acc; [done|]. cbn. destruct (IH (queue_one c p acc a)) as [-> ->]. apply queue_one_rows. }
  unfold queueBuilds. destruct (registrations _ !! _) as [g|]; [|done]. destruct (names x !! name) as [n|]; [|done].
  destruct (rg_blocked g); [done|]. destruct (workspace _ _ _) as [[??]|]; [done|]. cbv zeta. destruct (List.filter _ _) as [|a l]; [done|].
  destruct (named_builder _ _ _) as [w|e]; [|done]. set (p := {| pl_name := _ |}). pose proof (Hall p (a :: l) (x, inl {| qd_tasks := []; qd_building := [] |})) as [E1 E2].
  cbn [fst] in E1, E2. destruct (fold_left _ _ _) as [x' [q|e]]; [|done]. by destruct (qd_tasks q).
Qed.
Lemma finish_writes p now x : let x' := (finishRequest p now x).1 in exists g n r, registrations (cv x') !! pq_name p = Some g /\ rg_owner g = pq_login p
  /\ names x' !! pq_name p = Some n /\ nc_request n = Some (next_request x) /\ requests x' !! next_request x = Some r /\ (rq_name r, rq_owner r) = (pq_name p, pq_login p).
Proof.
  unfold finishRequest. cbv zeta. cbn [fst]. set (x3 := write_request _ _ _). set (x4 := if _ : bool then x3 else _).
  assert (Hx3 : exists g n r, registrations (cv x3) !! pq_name p = Some g /\ rg_owner g = pq_login p /\ names x3 !! pq_name p = Some n /\ nc_request n = Some (next_request x)
    /\ requests x3 !! next_request x = Some r /\ (rq_name r, rq_owner r) = (pq_name p, pq_login p)).
  { unfold x3, write_request. cbv zeta. cbn. rewrite !lookup_insert_eq. eexists _, _, _. split; [reflexivity|]. split; [by case_match|]. split; [reflexivity|]. split; [done|].
    unfold recordRow. cbv zeta. split; [by case_match; cbn; rewrite lookup_insert_eq|done]. }
  destruct Hx3 as (g & n & r & Hg & Ho & Hn & Hq & Hr & E).
  assert (H4 : keeps_names x3 x4 /\ names x4 = names x3 /\ requests x4 = requests x3).
  { unfold x4. case_match; [by repeat split|]. split; [apply queueBuilds_names|apply queueBuilds_rows]. }
  destruct H4 as (Hk & En & Eq). destruct (transitivity Hk (names_settle (pq_name p) x4 x4 (cv x4) eq_refl) _ _ Hg) as (g' & Hg' & [Ho' _]).
  exists g', n, r. cbn. rewrite En, Eq. split_and!; [exact Hg'|congruence|done..].
Qed.
(** What a reservation leaves: the name its requester's, and not free. *)
Lemma reserved_held p x x' : reserveName (pq_name p) (pq_login p) (pq_project p) (pq_build p) x = Some x' -> held p x'.
Proof.
  unfold reserveName. destruct (registrations (cv x) !! pq_name p) as [g|] eqn:Eg; [destruct (may_take _ _); [|done]|]; intros [= <-].
  - exists (reserve_row (pq_login p) g). cbn. rewrite lookup_alter_eq, Eg. repeat split. unfold nameIsFree at 1. cbn. rewrite andb_false_r, orb_false_r.
    destruct (nameIsFree g) eqn:Ef; [done|]. unfold nameIsFree in Ef. by apply orb_false_elim in Ef as [-> _].
  - exists (new_row (pq_login p) (pq_build p)). cbn. by rewrite lookup_insert_eq.
Qed.
(** Nobody else takes a name that is held. *)
Lemma held_refused p x login url arches : held p x -> login <> pq_login p -> reserveName (pq_name p) login url arches x = None.
Proof.
  intros (g & Hg & Ho & Hf) Hne. unfold reserveName, may_take. rewrite Hg, Ho, Hf, orb_false_r. destruct (String.eqb_spec (pq_login p) login) as [<-|_]; [done|].
  by rewrite andb_false_r.
Qed.
Lemma held_kept n g g' : rg_owner g = n -> nameIsFree g = false -> kept_name g g' -> rg_owner g' = n /\ nameIsFree g' = false.
Proof. intros <- Hf [-> H]. by auto. Qed.
Lemma holds_keep pend x x' : keeps_names x x' -> holds_on pend x x'.
Proof. intros Hk p _ (g & Hg & Ho & Hf). destruct (Hk _ _ Hg) as (g' & Hg' & K). exists g'. split; [done|]. by apply (held_kept _ g). Qed.
Lemma holds_others name pend x x' : others_kept name x x' -> (forall p, In (PReserved p) pend -> held p x -> pq_name p <> name) -> holds_on pend x x'.
Proof.
  intros Hk Hn p Hp Hh. pose proof (Hn p Hp Hh) as Hne. destruct Hh as (g & Hg & Ho & Hf). destruct (Hk _ _ Hne Hg) as (g' & Hg' & K). exists g'. split; [done|]. by apply (held_kept _ g).
Qed.
(** Of the requests in flight: each has its name, and a name once. *)
Definition names_safe (pend : list CPend) (x : CDB) : Prop := (forall p, In (PReserved p) pend -> held p x) /\ NoDup (omap name_of pend).
Lemma safe_holds pend pend' x x' : names_safe pend x -> omap name_of pend' = omap name_of pend -> (forall p, In (PReserved p) pend' -> In (PReserved p) pend) ->
  holds_on pend' x x' -> names_safe pend' x'.
Proof. intros [H1 H2] E Hi Hh. split; [intros p Hp; apply Hh; [done|]; by apply H1, Hi|by rewrite E]. Qed.
Lemma safe_grown before k after x x' : names_safe (before ++ k :: after)%list x -> name_of k = None -> holds_on (before ++ after)%list x x' -> names_safe (before ++ after)%list x'.
Proof.
  intros Hs Ek. apply (safe_holds (before ++ k :: after)%list); [done|..].
  - rewrite !omap_app. cbn. by rewrite Ek.
  - intros p. rewrite !in_app_iff. cbn. tauto.
Qed.
Lemma name_in p pend : In (PReserved p) pend -> pq_name p ∈ omap name_of pend.
Proof. intros H. apply list_elem_of_omap. exists (PReserved p). split; [by apply list_elem_of_In|done]. Qed.
Lemma once_named before p after : NoDup (omap name_of (before ++ PReserved p :: after)%list) -> forall q, In (PReserved q) (before ++ after)%list -> pq_name q <> pq_name p.
Proof.
  intros Hn q Hq E. rewrite omap_app in Hn. cbn in Hn. apply name_in in Hq. rewrite E, omap_app, elem_of_app in Hq. apply NoDup_app in Hn as (_ & Hd & Hc).
  apply NoDup_cons in Hc as [Hc _]. destruct Hq as [Hb|Ha]; [|done]. apply (Hd _ Hb). by left.
Qed.
(** A request that ends, its record written or refused. *)
Lemma safe_ended before p after x x' : names_safe (before ++ PReserved p :: after)%list x -> others_kept (pq_name p) x x' -> names_safe (before ++ after)%list x'.
Proof.
  intros [H1 H2] Hk.
  assert (Hi : forall q, In (PReserved q) (before ++ after)%list -> In (PReserved q) (before ++ PReserved p :: after)%list) by (intros q; rewrite !in_app_iff; cbn; tauto).
  split.
  - intros q Hq. refine (holds_others (pq_name p) (before ++ after)%list x x' Hk _ q Hq (H1 q (Hi q Hq))). intros r Hr _. by apply (once_named before p after).
  - rewrite omap_app in H2 |- *. cbn in H2. apply NoDup_app in H2 as (Hb & Hd & Hc). apply NoDup_cons in Hc as [_ Hc]. apply NoDup_app. split_and!; [done| |done].
    intros n Hn Hin. apply (Hd n Hn). by right.
Qed.
(** A request that starts: its name is in no other's hands. *)
Lemma safe_taken pend c k read later x x' p : names_safe pend x -> takeRequest c k read later x = (x', inr p) -> fresh pend c (pq_name p) -> names_safe (PReserved p :: pend) x'.
Proof.
  intros [H1 H2] Et Hf. destruct (takeRequest_spec c k read later x) as [(a & Ea)|(q & y & Eq & Hby & Hr & _)]; [congruence|]. rewrite Et in Eq. injection Eq as <- <-.
  assert (Hne : forall q, In (PReserved q) pend -> held q x -> pq_name q <> pq_name p).
  { intros q Hq Hh E. assert (El : pq_login p = pq_login q).
    { destruct (decide (pq_login p = pq_login q)) as [El|Hne]; [done|]. by rewrite <- E, (held_refused q x _ _ _ Hh Hne) in Hr. }
    apply (Hf q); [done| |done]. rewrite <- El. unfold pq_login. by rewrite Hby. }
  split.
  - intros q [[= <-]|Hq]; [by apply (reserved_held p x)|]. by refine (holds_others (pq_name p) pend x x' (reserve_others _ _ _ _ _ _ Hr) Hne q Hq (H1 q Hq)).
  - cbn. constructor; [|done]. intros Hin. apply list_elem_of_omap in Hin as (k' & Hk' & En). destruct k' as [q| |]; [|done..]. injection En as En. apply list_elem_of_In in Hk'.
    by apply (Hne q); [done|apply H1|].
Qed.
Lemma omap_quiet l : omap name_of (map PReview l) = [].
Proof. by induction l. Qed.
Lemma quiet_in p l pend : In (PReserved p) (map PReview l ++ pend)%list -> In (PReserved p) pend.
Proof. rewrite in_app_iff, in_map_iff. by intros [(? & ? & _)|]. Qed.
Lemma pool_names past pend x : calm = true -> pool_run past pend x -> names_safe pend x.
Proof.
  intros Hcalm. induction 1 as [x Hn Hc|past pend x o _ IH _ _ x' Hh|past before k after x _ IH x' Hh|past pend x c k read later x' r _ IH _ _ Et Hf|past before p after x now _ IH x'
    |past before p after x recorded _ IH x'|past pend x c name ask now _ IH x'|past pend x c name id read _ IH _ x'|past pend x c id read _ IH _ x'
    |past pend x c name read d r _ IH _ Er|past before k after x read _ IH _ x' Hh].
  - split; [done|constructor].
  - specialize (Hh Hcalm). apply (safe_holds pend _ x); [done|by rewrite omap_app, omap_quiet|intros p; apply quiet_in|]. intros p Hp. apply Hh. by eapply quiet_in.
  - by apply (safe_grown before (PReview k) after x); [..|apply Hh].
  - destruct r as [a|p]; [|by apply (safe_taken pend c k read later x); [..|apply Hf]]. destruct (takeRequest_spec c k read later x) as [(b & Eb)|(q & y & Eq & _)]; [|congruence].
    rewrite Et in Eb. by injection Eb as -> _.
  - apply (safe_ended before p after x); [done|apply finish_others].
  - apply (safe_ended before p after x); [done|apply fail_others].
  - apply (safe_holds pend _ x); [done..|apply holds_keep, build_names].
  - apply (safe_holds pend _ x); [done..|apply holds_keep, dequeue_names].
  - apply (safe_holds pend _ x); [done..|apply holds_keep, names_same, revoke_names].
  - assert (E : registrations (cv (set_cv d x)) = registrations (cv x)) by (rewrite <- (removal_names c name (cv read) x), Er; done).
    apply (safe_holds pend _ x); [done|by destruct r|intros p; by destruct r; [|intros [|]]|apply holds_keep, names_same, E].
  - by apply (safe_grown before (PRemoving k) after x); [..|apply Hh].
Qed.
End Runs.
