(* ===== verification/RequestRules.v ===== *)
(** What the contributors' doors keep: a name reserved, the queue's quota, a registration removed, the form's live check (Requests.v). *)
From S2P Require Import Prelude TextFacts JsTime Json Tasks Targets Rings RingsFacts PullFacts Governance Projects ProjectFacts Review ReviewDoors Blocks Delivery Contributors Requests ReviewFacts ReviewTables RequestFacts ReviewRuns ReviewRunFacts RequestRuns.
Local Open Scope string_scope.
Local Open Scope Z_scope.

(** ** A name reserved *)

Section Holder.
Context {web : Web}.
End Holder.

(** ** The quota *)

Definition count (f : Z -> RTask -> bool) (m : gmap Z RTask) : Z := zlen (List.filter (fun p => f p.1 p.2) (map_to_list m)).
Lemma filter_perm {A} (f : A -> bool) l k : l ≡ₚ k -> length (List.filter f l) = length (List.filter f k).
Proof. induction 1 as [| |a b l|]; cbn; [done|by destruct (f x); cbn; congruence|by destruct (f a), (f b)|congruence]. Qed.
Lemma count_insert f m id t : m !! id = None -> count f (<[id := t]> m) = count f m + (if f id t then 1 else 0).
Proof.
  intros Hn. unfold count, zlen. rewrite (filter_perm _ _ _ (map_to_list_insert m id t Hn)). cbn. destruct (f id t); cbn; lia.
Qed.
Lemma count_alter f g m id t : m !! id = Some t -> f id (g t) = f id t -> count f (alter g id m) = count f m.
Proof.
  intros Ht E. assert (Ha : alter g id m = <[id := g t]> (delete id m)) by (apply map_eq; intros i; destruct (decide (i = id)) as [->|Hne];
    [by rewrite lookup_alter_eq, Ht, lookup_insert_eq|by rewrite lookup_alter_ne, lookup_insert_ne, lookup_delete_ne]).
  rewrite Ha. transitivity (count f (<[id := t]> (delete id m))); [|by rewrite insert_delete_id].
  rewrite !count_insert by apply lookup_delete_eq. by rewrite E.
Qed.
Section Quota.
Context (c : Caller).
Definition below_next (x : CDB) : Prop := forall id t, vtasks (cv x) !! id = Some t -> id < next_task (cv x).
(** What the queue does to who waits: the asker's builds up to the quota, nobody else's. *)
Record within (x x' : CDB) : Prop := {
  wi_own : queued_of x' (ca_login c) <= Z.max QUEUED_QUOTA (queued_of x (ca_login c));
  wi_others login : login <> ca_login c -> queued_of x' login = queued_of x login;
  wi_next : below_next x -> below_next x' }.
Lemma within_same x x' : vtasks (cv x') = vtasks (cv x) -> next_task (cv x') = next_task (cv x) -> within x x'.
Proof.
  intros E En. assert (Hq : forall login, queued_of x' login = queued_of x login) by (intros login; unfold queued_of, hit; by rewrite E).
  split; [rewrite Hq; lia|by intros|]. intros H id t. rewrite E, En. apply H.
Qed.
#[local] Instance within_preorder : PreOrder within.
Proof.
  split; [intros x; by apply within_same|]. intros x y z [A1 A2 A3] [B1 B2 B3]. split; [lia|intros login Hne; by rewrite B2, A2|auto].
Qed.
Lemma within_again pinned id t k x : vtasks (cv x) !! id = Some t ->
  within x (set_cols k (set_cv (set_vtasks (alter (asked_again pinned) id (vtasks (cv x))) (next_task (cv x)) (cv x)) x)).
Proof.
  intros Ht. assert (Hq : forall login, queued_of (set_cols k (set_cv (set_vtasks (alter (asked_again pinned) id (vtasks (cv x))) (next_task (cv x)) (cv x)) x)) login = queued_of x login).
  { intros login. by apply (count_alter (fun _ t => ostr_eqb (rt_owner t) (Some login) && waits_or_runs (rt_status t)) (asked_again pinned) (vtasks (cv x)) id t). }
  split; [rewrite Hq; lia|by intros|]. intros H i u. cbn. rewrite lookup_alter_Some. intros [(-> & t' & E & _)|[_ E]]; by eapply H.
Qed.
Lemma within_build name arch version pinned k x : below_next x -> queued_of x (ca_login c) < QUEUED_QUOTA ->
  within x (add_build (community_build name arch version (ca_login c) pinned) k x).
Proof.
  intros Hb Hlt. set (t := community_build _ _ _ _ _). assert (Hnew : vtasks (cv x) !! next_task (cv x) = None) by (destruct (_ !! _) as [u|] eqn:E; [apply Hb in E; lia|done]).
  assert (Hq : forall login, queued_of (add_build t k x) login = queued_of x login + (if String.eqb (ca_login c) login then 1 else 0)).
  { intros login. pose proof (count_insert (fun _ t => ostr_eqb (rt_owner t) (Some login) && waits_or_runs (rt_status t)) _ _ t Hnew) as H. unfold count in H. unfold queued_of, hit.
    cbn in H |- *. by rewrite andb_true_r in H. }
  split.
  - rewrite Hq, String.eqb_refl. lia.
  - intros login Hne. rewrite Hq. destruct (String.eqb_spec (ca_login c) login) as [E|_]; [congruence|lia].
  - intros _ i u. cbn. intros [[<- _]|[_ H]]%lookup_insert_Some; [lia|]. apply Hb in H. lia.
Qed.
(** One architecture asked for; what is refused is refused at the quota. *)
Definition at_quota (r : CDB * (Queued + Z * string)) : Prop := match r.2 with inr e => e = (429, "quota") /\ QUEUED_QUOTA <= queued_of r.1 (ca_login c) | inl _ => True end.
Lemma queue_one_within p acc arch : pl_ref p <> "" -> below_next acc.1 -> within acc.1 (queue_one c p acc arch).1 /\ (at_quota acc -> at_quota (queue_one c p acc arch)).
Proof.
  intros Hne Hb. destruct acc as [x [q|e]]; [|split; [reflexivity|done]]. cbn. destruct (same_recipe _ _ _ _) as [[id t]|] eqn:E.
  - destruct (same_recipe_spec _ _ _ _ _ _ Hne E) as [Ht _]. destruct (is_status _ _); [|split; [reflexivity|done]]. split; [by apply (within_again _ _ t)|done].
  - destruct (_ <=? _) eqn:Eq; [split; [reflexivity|]; breflect; by intros _|]. breflect. split; [by apply within_build|done].
Qed.
Lemma queue_all_within p l acc : pl_ref p <> "" -> below_next acc.1 ->
  within acc.1 (fold_left (queue_one c p) l acc).1 /\ (at_quota acc -> at_quota (fold_left (queue_one c p) l acc)).
Proof.
  intros Hne. revert acc. induction l as [|a l IH]; intros acc Hb; [split; [reflexivity|done]|]. cbn. destruct (queue_one_within p acc a Hne Hb) as [W Q].
  destruct (IH (queue_one c p acc a)) as [W' Q']; [by apply (wi_next _ _ W)|]. split; [by etrans|auto].
Qed.
Lemma named_no_quota x l w e : named_builder x l w = inr e -> e <> (429, "quota").
Proof. unfold named_builder. cbv zeta. repeat case_match; (discriminate || by intros [= <-]). Qed.
Lemma queueBuilds_within name ask now x : below_next x -> within x (queueBuilds c name ask now x).1 /\
  ((queueBuilds c name ask now x).2 = inr (429, "quota") -> QUEUED_QUOTA <= queued_of (queueBuilds c name ask now x).1 (ca_login c)).
Proof.
  intros Hb. unfold queueBuilds. destruct (registrations _ !! _) as [g|]; [|by split]. destruct (names x !! name) as [n|]; [|by split].
  destruct (rg_blocked g); [by split|]. destruct (workspace _ _ _) as [[??]|]; [by split|]. cbv zeta. destruct (List.filter _ _) as [|a l]; [by split|].
  destruct (named_builder x (a :: l) (qa_worker ask)) as [w|e] eqn:Ew; [|split; [done|cbn; intros [= ->]; by apply named_no_quota in Ew]]. set (p := {| pl_name := _ |}).
  destruct (queue_all_within p (a :: l) (x, inl {| qd_tasks := []; qd_building := [] |}) (ref_nonempty _ _ _) Hb) as [W Q]. specialize (Q I). unfold at_quota in Q. cbn [fst] in W.
  destruct (fold_left _ _ _) as [x' [q|e]]; cbn [fst snd] in *; [|split; [done|by destruct Q]]. destruct (qd_tasks q); [by split|]. split; [|done]. cbn [fst].
  etrans; [exact W|]. apply within_same; cbn; unfold settleTargets; by case_match.
Qed.
End Quota.


(** ** A registration removed *)

Lemma cancel_lookup f why d id : vtasks (cancel_where f why d) !! id = (fun t => if f id t then with_status cancelled (Some why) t else t) <$> vtasks d !! id.
Proof. unfold cancel_where. cbn. rewrite map_lookup_imap. by destruct (vtasks d !! id). Qed.
Section Removal.
Context (k : Removing) (x : CDB).
Let ids := stopping_of k (cv x).
Lemma stopping_In id : In id ids <-> exists t, vtasks (cv x) !! id = Some t /\ in_flight (rt_status t) = true /\
  (if ro_maintainer k then of_name (ro_gone k) ["build"; "publish"] t else of_name (ro_gone k) ["build"] t && from_contributor t) = true.
Proof.
  unfold ids, stopping_of. rewrite in_map_iff. split.
  - intros ([i t] & <- & [Ht Hb]%hit_In). exists t. cbn in *. by apply andb_true_iff in Hb.
  - intros (t & Ht & Hf & Hb). exists (id, t). split; [done|]. apply hit_In. cbn. by rewrite Hf.
Qed.
Definition of_stopped (kind : string) (t : RTask) : bool :=
  String.eqb (rt_kind t) kind && is_status queued (rt_status t) && match rp_task (rt_params t) with Some i => one_of_ids ids i | None => false end.
Lemma removal_keeps : let x' := finishRemoval k (cv x) x in
  registrations (cv x') = delete (ro_gone k) (registrations (cv x)) /\ names x' = delete (ro_gone k) (names x) /\ pool (cv x') = pool (cv x).
Proof. done. Qed.
Lemma stopped_names kind t : of_stopped kind t = true -> exists i, rp_task (rt_params t) = Some i /\ one_of_ids ids i = true.
Proof. intros [_ H]%andb_true_iff. destruct (rp_task (rt_params t)) as [i|]; [by exists i|done]. Qed.
Lemma removal_tasks id : vtasks (cv (finishRemoval k (cv x) x)) !! id = vtasks (cancel_where (fun _ t => of_stopped "trial" t) "the build it tried was cancelled with its registration"
  (cancel_where (fun _ t => of_stopped "audit" t) "the build it audited was cancelled with its registration"
    (cancel_where (fun i _ => one_of_ids ids i) ("registration removed by " +:+ ro_by k) (cv x)))) !! id.
Proof. done. Qed.
Lemma removal_task id t' : vtasks (cv (finishRemoval k (cv x) x)) !! id = Some t' -> exists t, vtasks (cv x) !! id = Some t /\
  (t' = t /\ one_of_ids ids id = false \/
   rt_status t' = cancelled /\ rt_name t' = rt_name t /\ (one_of_ids ids id = true \/ exists i, rp_task (rt_params t) = Some i /\ one_of_ids ids i = true)).
Proof.
  rewrite removal_tasks, !cancel_lookup. destruct (vtasks (cv x) !! id) as [t|]; [|done]. cbn [fmap option_fmap option_map]. intros [= <-]. exists t. split; [done|].
  destruct (one_of_ids ids id) eqn:Ei.
  - right. repeat case_match; cbn; by auto.
  - destruct (of_stopped "audit" t) eqn:Ea; [right; repeat case_match; cbn; by eauto using stopped_names|]. destruct (of_stopped "trial" t) eqn:Et; [|by left].
    right. cbn. by eauto using stopped_names.
Qed.
(** What is left in flight of the name, and what is left of the others. *)
Lemma removal_left id t : vtasks (cv (finishRemoval k (cv x) x)) !! id = Some t -> in_flight (rt_status t) = true ->
  vtasks (cv x) !! id = Some t /\ (if ro_maintainer k then of_name (ro_gone k) ["build"; "publish"] t else of_name (ro_gone k) ["build"] t && from_contributor t) = false.
Proof.
  intros (t0 & Ht & [[-> Hi]|(Hs & _)])%removal_task Hf; [|by rewrite Hs in Hf]. split; [done|]. apply not_true_is_false. intros Hb.
  assert (In id ids) as Hin%one_of_ids_In by (apply stopping_In; by exists t0). congruence.
Qed.
Lemma removal_others id t : vtasks (cv x) !! id = Some t -> rt_name t <> ro_gone k -> vtasks (cv (finishRemoval k (cv x) x)) !! id = Some t
  \/ exists i b, rp_task (rt_params t) = Some i /\ vtasks (cv x) !! i = Some b /\ rt_name b = ro_gone k.
Proof.
  intros Ht Hne. assert (Hnamed : forall i, one_of_ids ids i = true -> exists b, vtasks (cv x) !! i = Some b /\ rt_name b = ro_gone k).
  { intros i (b & Hb & _ & Hn)%one_of_ids_In%stopping_In. exists b. split; [done|]. destruct (ro_maintainer k); unfold of_name in Hn; by breflect. }
  destruct (vtasks (cv (finishRemoval k (cv x) x)) !! id) as [t'|] eqn:E.
  - destruct (removal_task _ _ E) as (t0 & Ht0 & [[-> _]|(_ & _ & [Hi|(i & Hp & Hi)])]); rewrite Ht in Ht0; injection Ht0 as <-; [by left|..].
    + destruct (Hnamed _ Hi) as (b & Hb & Hn). rewrite Ht in Hb. by injection Hb as <-.
    + right. destruct (Hnamed _ Hi) as (b & Hb & Hn). by exists i, b.
  - by rewrite removal_tasks, !cancel_lookup, Ht in E.
Qed.
End Removal.

Lemma served_pulled m name note ring d : rings_ok d m -> isRing ring = true -> serves name (pullFromRings name note d).1 ring = false.
Proof.
  intros Hok Hr. destruct (pulled_less d m name note ring Hok Hr) as (_ & Ep & Hl). apply not_true_is_false. unfold serves, joined. rewrite Ep. intros ([id p] & Hin & Hb)%existsb_exists.
  apply in_table, map_lookup_filter_Some in Hin as [Hp Hm]. cbn in *. apply (Hl _ _ Hp) in Hm as [_ Hn]. unfold built_here in Hn. congruence.
Qed.
Lemma removes_spec c r : removes (Some c) r = None -> ca_maintains c = true \/ rm_owner r = ca_login c /\ landed (rm_status r) = false /\ rm_served r = [] /\ rm_reviewing r = None.
Proof.
  unfold removes, wno, w_person, w_maintainer, wfirst. generalize (landed (rm_status r)). intros l. cbn. destruct (ca_maintains c); [by left|]. cbn. destruct (String.eqb_spec (ca_login c) (rm_owner r)) as [E|_]; [|done]. cbn.
  destruct l; [done|]. destruct (rm_served r); [|done]. destruct (rm_reviewing r) as [[??]|]; [done|]. by right.
Qed.
Lemma registrationOf_spec d name r : registrationOf d name = Some r -> exists g, registrations d !! name = Some g /\ rm_owner r = rg_owner g /\ rm_status r = rg_status g
  /\ rm_served r = List.filter (serves name (pool d)) RINGS
  /\ rm_reviewing r = (fun t => (t.1, rt_status t.2)) <$> head (sort_by id_desc (hit (fun _ t => of_name name ["build"] t && from_project t && in_flight (rt_status t)) d)).
Proof. unfold registrationOf. destruct (registrations d !! name) as [g|]; [|done]. intros [= <-]. by exists g. Qed.
Lemma head_none {A} (l : list A) : head l = None -> l = [].
Proof. by destruct l. Qed.


(** ** The form's live check *)

Lemma in_use_unblocked f arches r : nameInUse f arches = Some r -> r.2 <> ns_blocked.
Proof. unfold nameInUse. repeat (case_match; simplify_eq); try done; intros [= <-]; done. Qed.
Lemma form_reads_the_rule read later n arches login : truthy login = true -> List.filter (fun a => str_in a REPO_ARCHES) arches <> [] ->
  let f := nameFacts read later (to_lower n) in
  nameOk (handleNameStanding n arches read later) login =
  PKGNAME (to_lower n) && match nameHeld f (Some login), nameInUse f (List.filter (fun a => str_in a REPO_ARCHES) arches) with None, None => true | _, _ => false end.
Proof.
  intros Hl Ha f. unfold handleNameStanding. cbv zeta. set (asked := List.filter _ arches) in *. fold f. destruct (PKGNAME (to_lower n)); [|done]. cbn [negb andb].
  replace (match asked with [] => REPO_ARCHES | _ => asked end) with asked by (by destruct asked). unfold nameOk. cbn [sg_state sg_owner sg_renew]. clearbody f.
  pose proof (in_use_unblocked f asked) as Hu. destruct (nf_name f) as [g|] eqn:Eg; cbn; [|unfold nameHeld; rewrite Eg; by destruct (nameInUse f asked) as [[??]|]].
  assert (Hh : forall l, nameHeld f l = match rg_blocked g with Some _ => Some (403, ns_blocked) | None =>
    if negb (ostr_eqb (Some (rg_owner g)) l) && negb (nameIsFree g) then Some (409, if landed (rg_status g) then ns_taken else ns_reserved) else None end) by (intros l; unfold nameHeld; by rewrite Eg).
  rewrite !Hh. destruct (rg_blocked g) as [w|]; cbn; [by rewrite andb_false_r|].
  destruct (String.eqb_spec (rg_owner g) login) as [->|Hne]; cbn.
  - rewrite Hl. generalize (String.eqb (rg_status g) "approved" || (String.eqb (rg_status g) "published" || false)). intros b.
    destruct (nameInUse f asked) as [[s st]|], (negb (nameIsFree g)), b; cbn; by rewrite ?andb_false_r.
  - rewrite andb_false_r. destruct (negb (nameIsFree g)); cbn; [done|]. by destruct (nameInUse f asked) as [[s st]|].
Qed.
Definition of_the_name (code : string) : bool := str_in code ["name"; "held"; "in_use"].
Section Door.
Context {web : Web} (c : Caller) (k : Ask) (n : string) (read later x : CDB).
Hypothesis Hname : ak_name k = Some n.
Let f := nameFacts (cv read) (cv later) (to_lower n).
Definition rule_lets : bool :=
  PKGNAME (to_lower n) && match nameHeld f (Some (ca_login c)), nameInUse f (asked_arches k) with None, None => true | _, _ => false end.
Lemma version_code p license status code : version_and_source k p license = inr (status, code) -> of_the_name code = false.
Proof. unfold version_and_source. cbv zeta. repeat case_match; intros E; (discriminate || by injection E as <- <-). Qed.
(** How a request ends: refused for another reason, refused for its name, or its name reserved. *)
Inductive taken : CDB * (Answer + Reserved) -> Prop :=
| tk_other status code : of_the_name code = false -> taken (x, inl (BadInput status code))
| tk_name status code : of_the_name code = true -> rule_lets = false -> taken (x, inl (BadInput status code))
| tk_reserved x' p : rule_lets = true -> pq_name p = to_lower n -> taken (x', inr p).
Lemma takeRequest_taken : taken (takeRequest c k read later x).
Proof.
  unfold takeRequest. cbv zeta. unfold said_name. rewrite Hname. fold f. destruct (workspace _ _ _) as [[??]|]; [by apply tk_other|]. destruct (if truthyo _ then _ else _) as [pj| |]; [|by apply tk_other..].
  destruct (existsb _ _); [by apply tk_other|]. destruct (_ || _); [by apply tk_other|]. destruct (negb (LICENSE _)); [by apply tk_other|].
  destruct (PKGNAME (to_lower n)) eqn:Ep; [cbn [negb]|apply tk_name; [done|unfold rule_lets; by rewrite Ep]].
  destruct (match asked_arches k with [] => true | _ => false end); [by apply tk_other|]. destruct (tainted _ _ _ _); [by apply tk_other|].
  destruct (nameHeld f _) as [[??]|] eqn:Eh; [apply tk_name; [done|unfold rule_lets; by rewrite Ep, Eh]|]. destruct (by_project _ _ _) as [[?|]|]; [by apply tk_other..|].
  destruct (nameInUse f _) as [[??]|] eqn:Eu; [apply tk_name; [done|unfold rule_lets; by rewrite Ep, Eh, Eu]|].
  destruct (version_and_source _ _ _) as [[[tag source] dt]|[status code]] eqn:Ev; [|by eapply tk_other, version_code]. destruct (negb _); [by apply tk_other|].
  destruct (reserveName _ _ _ _ _) as [x'|]; [|by apply tk_other]. apply tk_reserved; [unfold rule_lets; by rewrite Ep, Eh, Eu|done].
Qed.
End Door.

(** the form's live check is the door's rule. Asked of the same tables, a name the form lets its asker send is never refused for the
    name - not its spelling, not who holds it, not what is in the pool -, and a name it does not let them send is refused. *)
Theorem the_live_check_is_the_door `{Web} c k n arches read later x :
  ak_name k = Some n -> ak_arches k = Some arches -> truthy (ca_login c) = true -> List.filter (fun a => str_in a REPO_ARCHES) arches <> [] ->
  let ok := nameOk (handleNameStanding n arches (cv read) (cv later)) (ca_login c) in
  let r := takeRequest c k read later x in
  (ok = true -> forall status code, r.2 = inl (BadInput status code) -> str_in code ["name"; "held"; "in_use"] = false)
  /\ (ok = false -> exists status code, r = (x, inl (BadInput status code))).
Proof.
  intros Hn Ha Hl Hne ok r. assert (E : ok = rule_lets c k n read later) by (unfold ok, rule_lets, asked_arches; rewrite Ha; by apply form_reads_the_rule).
  rewrite E. unfold r. destruct (takeRequest_taken c k n read later x Hn) as [s e Ec|s e Ec Er|x' p Er _]; (split; [intros Ht|intros Hf]); (congruence || eauto || by intros ?? [= <- <-]).
Qed.

(** ** The checks a request is shown by *)

Lemma between_lengths n : (n <? 8)%nat || (120 <? n)%nat = false -> (8 <=? n)%nat && (n <=? 120)%nat = true.
Proof. intros [H1 H2]%orb_false_iff. apply Nat.ltb_ge in H1, H2. apply andb_true_iff. by split; apply Nat.leb_le. Qed.
Lemma all_confirmed v : existsb (fun q => negb (is_confirmed v q)) CHECKLIST = false -> forallb (is_confirmed v) CHECKLIST = true.
Proof. generalize CHECKLIST. intros l. induction l as [|q l IH]; [done|]. cbn. intros [H1 H2]%orb_false_iff. apply negb_false_iff in H1. by rewrite H1, IH. Qed.
Lemma all_counted v : forallb (is_confirmed v) CHECKLIST = true -> zlen (List.filter (fun c => c.2) (map (fun k => (k, is_confirmed v k)) CHECKLIST)) =? zlen CHECKLIST = true.
Proof. cbn. intros H. breflect. repeat match goal with E : is_confirmed v _ = true |- _ => rewrite E; clear E end. done. Qed.
Lemma license_truthy s : LICENSE s = true -> truthy s = true.
Proof. by destruct s. Qed.
Lemma is_version_plain s : is_version s = true -> truthy s = true /\ trim s = s.
Proof.
  unfold is_version. intros [[Ht Hv]%andb_true_iff _]%andb_true_iff. split; [done|]. apply trim_none. eapply str_forallb_weaken; [|exact Hv]. intros c. destruct c as [[] [] [] [] [] [] [] []]; vm_compute; done.
Qed.
Section Shown.
Context `{Web} (k : Ask) (p : Reserved) (pj : Project) (dt : Detected) (id : Z) (record at_ : string).
Hypothesis Hs : said_well k p pj dt.
(** The registration and the request the record writes of it. *)
Definition package_of : RequestedPackage :=
  {| rp_project := Some (pq_project p); rp_source := Some (pq_source p); rp_description := Some (said_description k); rp_license := Some (said_license k);
     rp_detected := match dt_license dt with Some l => Some (JObj [("license", JStr l)]) | None => None end |}.
Definition row_of : RequestRow :=
  {| row_id := id; row_version := pq_tag p; row_checklist := ak_checklist k; row_migrated := 0; row_record := record; row_created_at := at_ |}.
Lemma licence_agrees : match dt_license dt with Some l => truthy l && negb (String.eqb l "NOASSERTION") && negb (String.eqb (to_lower l) (to_lower (said_license k))) | None => false end = false.
Proof using Hs.
  pose proof (sw_version _ _ _ _ Hs) as Hv. unfold version_and_source in Hv. cbv zeta in Hv. destruct (pj_github pj); repeat case_match; try done; injection Hv as _ _ <-; by simplify_eq.
Qed.
Lemma check_project : pj_github pj <> None -> is_https (pq_project p) = true.
Proof using Hs.
  intros Hg. destruct (pj_github pj) as [[o r]|] eqn:E; [|done]. destruct (parsed_github _ pj o r (sw_url _ _ _ _ Hs) E) as (Ho & Hr & Eh). rewrite (sw_project _ _ _ _ Hs), Eh.
  destruct (seg_plain o Ho) as [_ No], (seg_plain r Hr) as [_ Nr]. change (no_space (o +:+ String "/" r) = true). unfold no_space in *. rewrite str_forallb_app, No. cbn. by rewrite Nr.
Qed.
Lemma check_source : pj_github pj = None -> pq_tag p <> "unknown" ->
  is_https (pq_source p) && (truthy (trim (pq_tag p)) && negb (String.eqb (trim (pq_tag p)) "unknown")) && sourceHasPath (pq_source p) = true.
Proof using Hs.
  intros Hg Hu. pose proof (sw_version _ _ _ _ Hs) as Hv. unfold version_and_source in Hv. rewrite Hg in Hv. cbv zeta in Hv.
  destruct (negb (is_https _ && _)) eqn:E1; [done|]. destruct (negb (is_version _)) eqn:E2; [done|]. apply negb_false_iff in E1, E2. injection Hv as Et Es _. rewrite Et in E2. rewrite Es in E1.
  destruct (is_version_plain _ E2) as [Ht E]. rewrite E, Ht. apply andb_true_iff in E1 as [-> ->]. rewrite (proj2 (String.eqb_neq _ _) Hu). done.
Qed.
End Shown.

(** a request the door took passes the checks it is shown by - the description, the licence, the four confirmations, the record,
    always; where it comes from, when the version and its source are the request's own; its home, when that is a repository on GitHub.
    What the form accepts and what the card calls complete are one rule, the address of a source apart. *)
Theorem what_the_door_takes_the_checks_pass `{Web} c k read later x x' p id record at_ :
  takeRequest c k read later x = (x', inr p) -> truthy record = true ->
  exists pj dt, parseProjectUrl (default "" (ak_url k)) = parsed pj /\
  let r := requestChecks (package_of k p dt) (Some (row_of k p id record at_)) in
  map ck_key (rc_checks r) = [ck_project; ck_source; ck_description; ck_license; ck_checklist; ck_record]
  /\ (forall check, In check (rc_checks r) -> ck_ok check = true \/ ck_key check = ck_project /\ pj_github pj = None
       \/ ck_key check = ck_source /\ (pj_github pj <> None \/ pq_tag p = "unknown"))
  /\ forallb (fun b => b.2) (rc_confirmed r) = true.
Proof.
  intros Ht Hr. destruct (takeRequest_spec c k read later x) as [(a & E)|(q & y & E & _ & _ & _ & _ & _ & pj & dt & Hs)]; [by rewrite Ht in E|].
  rewrite Ht in E. injection E as <- <-. exists pj, dt. split; [apply Hs|]. cbv zeta. split; [done|]. pose proof (all_confirmed _ (sw_checklist _ _ _ _ Hs)) as Hc. split; [|exact Hc].
  pose proof (sw_description _ _ _ _ Hs) as Hd. pose proof (sw_license _ _ _ _ Hs) as Hl. pose proof (licence_agrees _ _ _ _ Hs) as Ha.
  intros check Hin. cbn [requestChecks rc_checks] in Hin. cbn [In] in Hin. destruct Hin as [<-|[<-|[<-|[<-|[<-|[<-|[]]]]]]]; cbn [ck_ok ck_key].
  - destruct (pj_github pj) eqn:Eg; [left; apply (check_project k p pj dt Hs); by rewrite Eg|by right; left].
  - destruct (pj_github pj) eqn:Eg; [by right; right; split; [|left]|]. destruct (decide (pq_tag p = "unknown")) as [Eu|Hu]; [by right; right; split; [|right]|].
    left. by apply (check_source k p pj dt Hs).
  - left. change (rp_description (package_of k p dt)) with (Some (said_description k)). cbn [default from_option Datatypes.id]. unfold said_description at 1 2. rewrite words_trimmed. by apply between_lengths.
  - left. change (rp_license (package_of k p dt)) with (Some (said_license k)). cbn [default from_option Datatypes.id package_of rp_detected].
    replace (trim (said_license k)) with (said_license k) by (symmetry; apply trim_idem). rewrite Hl, license_truthy by done. cbn [andb].
    destruct (dt_license dt) as [l|]; [|done]. change (as_str (field _ "license")) with (Some l). cbn beta iota.
    destruct (String.eqb l "NOASSERTION"); [done|]. destruct (truthy l); [|done]. by apply negb_false_iff in Ha.
  - left. by apply all_counted.
  - left. exact Hr.
Qed.
(** ** The review's rest *)

(** C7: what the contributors' doors do is the rest of the review's world. A run of requests, builds, dequeues, revocations and removals
    among the review's own doors is a run of the review, every handler's reads mapped - each of their writes is one a review's run allows
    between its steps -; so at most one decision on a build stands, a decision once written is still on the record, and no build a
    contributor's door queued answers for a review. *)
Theorem contributions_are_the_reviews_rest `{Web} retries calm past pend x :
  pool_run retries calm past pend x ->
  review_run retries (map cv past) (omap review_of pend) (cv x) /\ one_live (cv x)
  /\ (forall p k a, In p past -> approvals (cv p) !! k = Some a -> exists a', approvals (cv x) !! k = Some a' /\ row_kept a a')
  /\ forall id k t, cols x !! id = Some k -> vtasks (cv x) !! id = Some t -> rp_review (rt_params t) = None /\ rp_review_id (rt_params t) = None.
Proof.
  intros Hr. destruct (pool_review retries calm _ _ _ Hr) as [Hv Hc]. split; [done|]. destruct (inv_now _ _ _ _ (review_run_ok _ _ _ _ Hv)) as [Hl Hp]. split; [apply Hl|]. split.
  - intros p k a Hin. apply (in_map cv) in Hin. destruct (Hp _ Hin) as [_ Hg]. apply Hg.
  - intros id k t Hk Ht. destruct (Hc _ _ Hk) as (_ & t' & Ht' & H1 & _ & H2 & _). rewrite Ht in Ht'. by injection Ht' as <-.
Qed.
