(* ===== verification/ReviewSamples.v ===== *)
(** A package through review, from its contributor's builds on (Review.v, ReviewDoors.v, Blocks.v, Delivery.v). *)
From S2P Require Import Prelude JsTime Json Tasks Targets Rings RingsFacts Governance Review ReviewDoors Blocks Delivery ReviewFacts ReviewTables ReviewRuns.
Local Open Scope string_scope.
Local Open Scope Z_scope.

Definition nothing_yet : VDB :=
  {| vtasks := ∅; next_task := 1; approvals := ∅; next_app := 1; reviews := ∅; next_rev := 1; registrations := ∅; packages_in := ∅; vworkers := []; solo_row := None;
     pool := no_release; people := ∅; upkeep := ∅ |}.
Definition felix : Registration :=
  {| rg_owner := "ada"; rg_status := "staged"; rg_arches := ["x86_64"; "aarch64"]; rg_closed_through := 0; rg_freed_by := None; rg_targets := []; rg_blocked := None |}.
Definition brought_build (arch : string) : RTask :=
  {| rt_name := "felix"; rt_arch := arch; rt_version := Some "1.0"; rt_kind := "build"; rt_trust := "community"; rt_publish := 0; rt_owner := Some "ada";
     rt_status := staged; rt_error := None; rt_params := no_params; rt_pinned := None; rt_lease_owner := None |}.
Definition m1 : Reviewer := {| rr_login := "m1"; rr_role := "maintainer" |}.
Definition m2 : Reviewer := {| rr_login := "m2"; rr_role := "maintainer" |}.
Definition ada : Reviewer := {| rr_login := "ada"; rr_role := "maintainer" |}.
Definition passkey : Gate := Some (inr "key").
Definition whole : ApproveBody := {| bo_note := None; bo_only := None; bo_reason := None |}.
Definition leased_to (who : string) (id : Z) (d : VDB) : VDB :=
  set_vtasks (alter (fun t => {| rt_name := rt_name t; rt_arch := rt_arch t; rt_version := rt_version t; rt_kind := rt_kind t; rt_trust := rt_trust t; rt_publish := rt_publish t;
    rt_owner := rt_owner t; rt_status := leased; rt_error := rt_error t; rt_params := rt_params t; rt_pinned := rt_pinned t; rt_lease_owner := Some who |}) id (vtasks d)) (next_task d) d.
Definition uploaded (arch : string) : Upload :=
  let f := "felix-1.0-" +:+ arch +:+ ".pkg.tar.zst" in {| up_have := [f; "PKGBUILD"; "build.log"]; up_filename := f; up_version := Some "1.0"; up_gate_failed := false |}.
Definition status_now (id : Z) (d : VDB) : option Status := rt_status <$> vtasks d !! id.
Definition in_stage (id : Z) (arch : string) (d : VDB) : VDB := set_packages_in (<[id := ["felix-1.0-" +:+ arch +:+ ".pkg.tar.zst"]]> (packages_in d)) d.
(** Requests that each read the state they write on. *)
Definition go (f : VDB -> DOp) (d : VDB) : VDB := (dstep (f d) d).1.
Definition d_requested : VDB := add_task (brought_build "aarch64") (add_task (brought_build "x86_64") (set_registrations {["felix" := felix]} nothing_yet)).
Definition d_claimed : VDB := go (fun d => OpBuild m1 1 None 0 d d) d_requested.
Definition d_rebuilt : VDB :=
  in_stage 4 "aarch64" (in_stage 3 "x86_64"
    (go (fun d => OpStage "h2" 4 (uploaded "aarch64")) (leased_to "h2" 4 (go (fun d => OpStage "h1" 3 (uploaded "x86_64")) (leased_to "h1" 3 d_claimed))))).
Definition d_taken : VDB := go (fun d => OpApprove m2 3 whole None passkey 100 d d) d_rebuilt.
Definition set_solo (s : option Solo) (d : VDB) : VDB :=
  {| vtasks := vtasks d; next_task := next_task d; approvals := approvals d; next_app := next_app d; reviews := reviews d; next_rev := next_rev d;
     registrations := registrations d; packages_in := packages_in d; vworkers := vworkers d; solo_row := s; pool := pool d; people := people d; upkeep := upkeep d |}.
Definition the_exception : Solo := {| so_maintainer := "ada"; so_since := "2026-10-01"; so_reason := "the only maintainer awake" |}.
(** *** These states are reached *)

Section Reached.
Context (retries : bool).
Definition reached (d : VDB) : Prop := exists past pend, review_run retries (d :: past) pend d.
Lemma reached_go f d : reached d -> (forall past, reads_past (d :: past) (f d)) -> rest_keeps retries d (f d) -> reached (go f d).
Proof. intros (past & pend & H) Hr Hk. exists (d :: past), (option_list (dstep (f d) d).2 ++ pend)%list. by apply rr_door. Qed.
Lemma reached_else d d' : reached d -> touches retries true d d' -> reached d'.
Proof. intros H Ht. by apply (reached_go (fun _ => OpElse d') d). Qed.
Lemma leased_touches who id d : match status_now id d with Some s => in_flight s | None => true end = true -> touches retries true d (leased_to who id d).
Proof.
  intros H. unfold status_now in H. apply rtc_once, touch_tasks; [|done|done]. intros i. cbn. destruct (decide (i = id)) as [->|Hne]; [rewrite lookup_alter_eq|rewrite lookup_alter_ne by done; apply kept_all].
  destruct (vtasks d !! id); constructor. split; [done|]. right. by intros _.
Qed.
Lemma reads_now past d : read_then (d :: past) d d.
Proof. exists [], past. split; [done|by left]. Qed.
Lemma requested_reached : reached d_requested.
Proof.
  apply (reached_else nothing_yet); [exists [], []; by apply rr_start|]. unfold d_requested.
  etrans; [|apply touch_add; split; [done|by left]]. etrans; [|apply touch_add; split; [done|by left]].
  apply touch_rest; [done..|]. split; try done. intros n who. unfold blocked_by. cbn. destruct (decide (n = "felix")) as [->|Hne]; [by rewrite lookup_singleton_eq|by rewrite lookup_singleton_ne].
Qed.
Lemma claimed_reached : reached d_claimed.
Proof. apply reached_go; [apply requested_reached|intros past; apply reads_now|done]. Qed.
Lemma rebuilt_reached : reached d_rebuilt.
Proof.
  unfold d_rebuilt. apply (reached_else (go (fun d => OpStage "h2" 4 (uploaded "aarch64")) (leased_to "h2" 4 (go (fun d => OpStage "h1" 3 (uploaded "x86_64")) (leased_to "h1" 3 d_claimed))))).
  - apply reached_go; [|done..]. eapply reached_else; [|by apply leased_touches; vm_compute]. apply reached_go; [|done..]. eapply reached_else; [|by apply leased_touches; vm_compute]. apply claimed_reached.
  - unfold in_stage. etrans; apply touch_packages.
Qed.
Lemma taken_reached : reached d_taken.
Proof. apply reached_go; [apply rebuilt_reached|intros past; apply reads_now|done]. Qed.
Lemma solo_touches s d : touches retries true d (set_solo s d).
Proof. by apply touch_rest. Qed.
Lemma solo_reached : reached (set_solo (Some the_exception) d_rebuilt).
Proof. apply (reached_else d_rebuilt); [apply rebuilt_reached|apply solo_touches]. Qed.
End Reached.

(** ** What the code does in corners it does not mean to reach *)

Definition ended (s : Status) (e : option string) (id : Z) (d : VDB) : VDB := set_vtasks (alter (with_status s e) id (vtasks d)) (next_task d) d.
Definition standing_rows (name : string) (d : VDB) : list Z := map fst (List.filter (fun a => String.eqb (ap_name a.2) name && app_stands a.2) (map_to_list (approvals d))).
Definition registered_as (name : string) (d : VDB) : option (string * option string) := (fun g => (rg_status g, rg_blocked g)) <$> registrations d !! name.
Definition approved (c : Reviewer) (id : Z) (d : VDB) : VDB := (handleApprove c id whole None passkey 100 d d d).1.
(** A withdrawal leaves its approval's publish job in the queue: a host that takes it publishes what was taken back. *)
Definition d_withdrawn : VDB := let d := approved m2 3 d_rebuilt in (handleWithdraw m1 3 (Some "broke the rule") d d d).1.
Definition d_published : VDB := (publishDone "h1" 9 (leased_to "h1" 9 d_withdrawn)).1.
Example withdrawn_approval_still_publishes :
  (standing_rows "felix" d_withdrawn, rt_kind <$> vtasks d_withdrawn !! 9, status_now 9 d_withdrawn, registered_as "felix" d_withdrawn) = ([], Some "publish", Some queued, Some ("staged", None))
  /\ (standing_rows "felix" d_published, status_now 3 d_published, registered_as "felix" d_published) = ([], Some done_, Some ("published", None)).
Proof. vm_compute. done. Qed.
(** An approval that read before a block writes after it: the batch asks only whether the builds are undecided. *)
Definition d_blocked : VDB := (handleBlockPackage m1 "felix" (Some "ships a binary") None passkey d_rebuilt d_rebuilt).1.
Definition d_raced : VDB := (handleApprove m2 3 whole None passkey 100 d_rebuilt d_rebuilt d_blocked).1.
Example a_block_during_an_approval :
  registered_as "felix" d_blocked = Some ("rejected", Some "m1")
  /\ (standing_rows "felix" d_raced, status_now 9 d_raced, registered_as "felix" d_raced) = ([2; 1], Some queued, Some ("approved", Some "m1")).
Proof. vm_compute. done. Qed.
(** A retry at size asks nothing of a block: a build that had run out of memory is built, and its package approved, while it is blocked. *)
Definition d_oom : VDB := ended failed (Some "out of memory at 4 GB (size 1)") 4 (leased_to "h2" 4 d_claimed).
Definition d_oom_blocked : VDB := (handleBlockPackage m1 "felix" (Some "ships a binary") None passkey d_oom d_oom).1.
Example a_blocked_package_is_built_again :
  registered_as "felix" d_oom_blocked = Some ("rejected", Some "m1")
  /\ (handleRetryAtSize m2 4 (inr 2) d_oom_blocked d_oom_blocked).2 = DoneAs 4
  /\ status_now 4 (handleRetryAtSize m2 4 (inr 2) d_oom_blocked d_oom_blocked).1 = Some queued.
Proof. vm_compute. done. Qed.
(** A retry at size of a rebuild that is not its build's newest: the package's facts count it, the approval does not ship it. *)
Definition d_two_rebuilds : VDB :=
  let d := ended failed (Some "out of memory at 4 GB (size 1)") 4 (in_stage 3 "x86_64" (go (fun d => OpStage "h1" 3 (uploaded "x86_64")) (leased_to "h1" 3 d_claimed))) in
  let d := go (fun d => OpBuild m1 2 None 0 d d) d in
  let d := ended failed (Some "out of memory at 4 GB (size 1)") 7 d in
  let d := (handleRetryAtSize m2 4 (inr 2) d d).1 in
  in_stage 4 "aarch64" (go (fun d => OpStage "h2" 4 (uploaded "aarch64")) (leased_to "h2" 4 d)).
Example retry_leaves_an_architecture_out :
  let x := factsOf d_two_rebuilds 3 (default (brought_build "") (vtasks d_two_rebuilds !! 3)) in
  (fa_named (rd_facts x), pf_missing (fa_package (rd_facts x))) = (["x86_64"; "aarch64"], None)
  /\ (handleApprove m2 3 whole None passkey 100 d_two_rebuilds d_two_rebuilds d_two_rebuilds).2 = DoneAs 1
  /\ (fun v => (rv_arches v, rv_not_supported v)) <$> reviews (approved m2 3 d_two_rebuilds) !! 1 = Some (["x86_64"], [("aarch64", Some 7)]).
Proof. vm_compute. done. Qed.
