(* ===== verification/RequestSamples.v ===== *)
(** Requests followed through, and the contributors' doors at concrete inputs (Requests.v, RequestRules.v). *)
From S2P Require Import Prelude TextFacts JsTime Json Bytes Tasks Targets Rings RingsFacts PullFacts Governance Projects ProjectFacts Review ReviewDoors Blocks Delivery Contributors Requests ReviewFacts ReviewTables RequestFacts ReviewRuns ReviewRunFacts RequestRuns ReviewSamples RequestRules.
Local Open Scope string_scope.
Local Open Scope Z_scope.

(** A web where every repository on GitHub is at v1.0, under the MIT licence, with a recipe of its own, and every source answers. *)
Definition read_url (s : string) : option Url :=
  if starts_with "https://" s then
    match split_on "/" (str_drop 8 s) with
    | host :: path => Some {| u_protocol := "https:"; u_hostname := host; u_host := host; u_pathname := "/" +:+ join "/" path |}
    | [] => None
    end
  else None.
Definition says_github (path : string) : json :=
  if ends_with "/releases/latest" path then JObj [("tag_name", JStr "v1.0")]
  else if ends_with "/git/trees/v1.0" path then JObj [("tree", JArr [JObj [("path", JStr "PKGBUILD"); ("type", JStr "blob")]])]
  else JObj [("default_branch", JStr "main"); ("license", JObj [("spdx_id", JStr "MIT")])].
#[local] Instance small_web : Web :=
  {| URL := read_url; fetch method url := Some (200, if starts_with "https://api.github.com" url then Some (says_github url) else None) |}.
Definition by_login (login : string) : Caller := {| ca_who := {| rr_login := login; rr_role := "contributor" |}; ca_blocked := false |}.
Definition by_maintainer (c : Reviewer) : Caller := {| ca_who := c; ca_blocked := false |}.
Definition confirmed : json := JObj (map (fun q => (q, JBool true)) CHECKLIST).
Definition asking (name url : string) : Ask :=
  {| ak_name := Some name; ak_url := Some url; ak_source := None; ak_version := None; ak_description := Some "a small thing"; ak_license := Some "MIT";
     ak_arches := Some ["x86_64"; "aarch64"]; ak_checklist := Some confirmed |}.
Definition no_requests (d : VDB) : CDB :=
  {| cv := d; names := ∅; cols := ∅; requests := ∅; next_request := 1; maintainers := ["m1"; "m2"]; updates_checked := None |}.
Definition x_start : CDB := no_requests nothing_yet.
Definition felix_by (who : string) (x : CDB) : CDB * (Answer + Reserved) := takeRequest (by_login who) (asking "felix" ("https://github.com/" +:+ who +:+ "/felix")) x x x.
Definition sent (who : string) (x : CDB) : CDB := (handleRequestPackage (by_login who) (asking "felix" ("https://github.com/" +:+ who +:+ "/felix")) 100 x x x).1.
Definition owned (name : string) (x : CDB) : option (string * string) := (fun g => (rg_owner g, rg_status g)) <$> registrations (cv x) !! name.
Example request_sent :
  let x := sent "ada" x_start in
  owned "felix" x = Some ("ada", "waiting") /\ (n ← names x !! "felix"; nc_request n) = Some 1 /\ queued_of x "ada" = 2
  /\ (fun k => tc_ref k) <$> cols x !! 1 = Some "https://github.com/ada/felix@v1.0:PKGBUILD" /\ vtasks (cv x) !! 1 = Some (community_build "felix" "x86_64" (Some "1.0") "ada" None).
Proof. vm_compute. done. Qed.
Example request_refused : (felix_by "bob" (sent "ada" x_start)).2 = inl (BadInput 409 "held").
Proof. vm_compute. done. Qed.

(** ** The properties at these inputs *)

Definition x_reserved : CDB := (felix_by "ada" x_start).1.
Lemma ada_reserves : exists p, felix_by "ada" x_start = (x_reserved, inr p) /\ pq_name p = "felix" /\ pq_login p = "ada".
Proof. unfold x_reserved. destruct (felix_by "ada" x_start) as [x [a|p]] eqn:E; vm_compute in E; [done|]. exists p. split; [done|]. injection E as <- <-. done. Qed.
Lemma started calm : pool_run true calm [x_start] [] x_start.
Proof. by apply pr_start. Qed.
Lemma ada_in_flight p : felix_by "ada" x_start = (x_reserved, inr p) -> pool_run true true [x_reserved; x_start] [PReserved p] x_reserved.
Proof.
  intros E. apply (pr_request true true [x_start] [] x_start (by_login "ada") (asking "felix" "https://github.com/ada/felix") x_start x_start x_reserved (inr p));
    [apply started|by left|by left|exact E|by intros _ ? _ ? []].
Qed.
Definition x_sent : CDB := sent "ada" x_start.
Lemma ada_sent calm : exists past, pool_run true calm past [] x_sent.
Proof.
  destruct ada_reserves as (p & E & _). exists [(finishRequest p 100 x_reserved).1; x_reserved; x_start].
  assert (Er : x_sent = (finishRequest p 100 x_reserved).1) by (unfold x_sent, sent, handleRequestPackage; unfold felix_by in E; by rewrite E). rewrite Er.
  apply (pr_record true calm [x_reserved; x_start] [] p [] x_reserved 100).
  apply (pr_request true calm [x_start] [] x_start (by_login "ada") (asking "felix" "https://github.com/ada/felix") x_start x_start x_reserved (inr p)); [apply started|by left|by left|exact E|by intros _ ? _ ? []].
Qed.
Definition whatever : QueueAsk := {| qa_arches := None; qa_worker := None; qa_hint := None; qa_reason := None; qa_release := Some "v2.0" |}.
Lemma contributions_are_the_reviews_rest_witness : exists past, review_run true past [] (cv x_sent) /\ one_live (cv x_sent).
Proof.
  destruct (ada_sent true) as [past H]. destruct (contributions_are_the_reviews_rest true true past [] x_sent H) as (Hv & Hl & _). by exists (map cv past).
Defined.
Lemma the_live_check_is_the_door_witness :
  nameOk (handleNameStanding "Felix" ["x86_64"] (cv x_sent) (cv x_sent)) "bob" = false
  /\ exists status code, takeRequest (by_login "bob") (asking "Felix" "https://github.com/bob/felix") x_sent x_sent x_sent = (x_sent, inl (BadInput status code)).
Proof.
  split; [by vm_compute|]. by apply (the_live_check_is_the_door (by_login "bob") (asking "Felix" "https://github.com/bob/felix") "Felix" ["x86_64"; "aarch64"] x_sent x_sent x_sent); [..|vm_compute].
Defined.

Lemma a_source_reads_back_as_its_project_witness :
  let source := "https://github.com/ada/felix/archive/refs/tags/v1%2B%C3%A9.tar.gz" in
  parseProjectUrl source = parsed {| pj_project := "https://github.com/ada/felix"; pj_github := Some ("ada", "felix"); pj_tag := Some "v1+é"; pj_source := Some source |}.
Proof.
  intros source.
  exact (proj1 (a_source_reads_back_as_its_project " https://github.com/ada/felix.git/ " (github_at "ada" "felix" None None) "ada" "felix" "v1+é" ltac:(vm_compute; reflexivity) eq_refl eq_refl eq_refl)).
Defined.
Lemma what_the_door_takes_the_checks_pass_witness : exists x' p pj dt,
  takeRequest (by_login "ada") (asking "felix" "https://github.com/ada/felix") x_start x_start x_start = (x', inr p)
  /\ rc_complete (requestChecks (package_of (asking "felix" "https://github.com/ada/felix") p dt) (Some (row_of (asking "felix" "https://github.com/ada/felix") p 1 "felix/1/request.json" "2026-10-01"))) = true
  /\ parseProjectUrl "https://github.com/ada/felix" = parsed pj /\ pj_github pj = Some ("ada", "felix").
Proof.
  destruct ada_reserves as (p & E & _). exists x_reserved, p.
  destruct (what_the_door_takes_the_checks_pass (by_login "ada") (asking "felix" "https://github.com/ada/felix") x_start x_start x_start x_reserved p 1 "felix/1/request.json" "2026-10-01" E eq_refl) as (pj & dt & Hp & _).
  exists pj, (detect "https://github.com/ada/felix"). split; [exact E|]. split.
  - replace p with (match (felix_by "ada" x_start).2 with inr p => p | inl _ => p end) by (by rewrite E). vm_compute. done.
  - split; [exact Hp|]. vm_compute in Hp. by injection Hp as <-.
Defined.

(** ** What the code does in corners it does not mean to reach *)

(** The record writes the registration whole, whoever holds it by then: a name removed and requested again meanwhile is taken from its holder. *)
Definition finished (r : CDB * (Answer + Reserved)) (x : CDB) : CDB := match r.2 with inr p => (finishRequest p 100 x).1 | inl _ => x end.
Definition x_removed : CDB := (handleDeletePackage (by_maintainer m1) "felix" (cv x_reserved) (cv x_reserved) x_reserved).1.
Example a_late_record_takes_the_name :
  owned "felix" x_removed = None /\ owned "felix" (sent "bob" x_removed) = Some ("bob", "waiting") /\ owned "felix" (finished (felix_by "ada" x_start) (sent "bob" x_removed)) = Some ("ada", "waiting").
Proof. vm_compute. done. Qed.
(** The rule counts the sources' rows, not the architectures they ship: two sources on one architecture stand for both, or hide that all are shipped. *)
Definition shipped_twice : NameFacts :=
  {| nf_name := None; nf_in_pool := None; nf_running := None;
     nf_provided := [{| pv_source := "extra"; pv_arch := "x86_64"; pv_version := "1" |}; {| pv_source := "packages"; pv_arch := "x86_64"; pv_version := "2" |}] |}.
Example two_sources_on_one_architecture :
  nameInUse shipped_twice ["x86_64"; "aarch64"] = Some (409, ns_taken) /\ nameInUse shipped_twice ["x86_64"] = None.
Proof. vm_compute. done. Qed.
(** A removal does not ask whether the package is blocked: its owner removes the registration the block is written on, and requests the name again. *)
Definition x_blocked : CDB := set_names {["felix" := new_names "https://github.com/ada/felix"]} (no_requests d_blocked).
Definition x_unblocked : CDB := (handleDeletePackage (by_login "ada") "felix" (cv x_blocked) (cv x_blocked) x_blocked).1.
Example an_owner_lifts_a_block :
  blocked_by (cv x_blocked) "felix" = Some "m1" /\ (felix_by "ada" x_blocked).2 = inl (BadInput 403 "held")
  /\ blocked_by (cv (sent "ada" x_unblocked)) "felix" = None /\ owned "felix" (sent "ada" x_unblocked) = Some ("ada", "waiting").
Proof. vm_compute. done. Qed.
(** The quota met on a later architecture answers an error over builds already queued. *)
Definition nine_queued : CDB :=
  foldr (fun n x => add_build (community_build n "x86_64" None "ada" None) (col x 0) x) x_sent ["a"; "b"; "c"; "d"; "e"; "f"; "g"].
Example a_refusal_over_a_queued_build :
  let r := handleBuildPackage (by_login "ada") "felix" whatever 200 nine_queued in
  queued_of nine_queued "ada" = 9 /\ r.2 = inr (429, "quota") /\ queued_of r.1 "ada" = 10 /\ rt_arch <$> vtasks (cv r.1) !! next_task (cv nine_queued) = Some "x86_64".
Proof. vm_compute. done. Qed.
(** The removal's batch writes over what its builds are by then: a publish job that ended meanwhile is cancelled on the record. *)
Definition d_publishing : VDB := leased_to "h1" 9 (approved m2 3 d_rebuilt).
Definition d_ended : VDB := (publishDone "h1" 9 d_publishing).1.
Example a_removal_cancels_what_ended :
  let k := {| ro_gone := "felix"; ro_by := "m1"; ro_maintainer := true |} in
  status_now 9 d_ended = Some done_ /\ status_now 9 (cv (finishRemoval k d_publishing (no_requests d_ended))) = Some cancelled.
Proof. vm_compute. done. Qed.
(** One repository under two projects: another case of its name, its host with www., its .git before a release's path. *)
Definition home_of (u : string) : option string := match parseProjectUrl u with parsed p => Some (pj_project p) | _ => None end.
Example one_repository_two_projects :
  map home_of ["https://github.com/ada/felix"; "https://github.com/Ada/Felix"; "https://www.github.com/ada/felix"; "https://github.com/ada/felix.git/releases/tag/v1"]
  = [Some "https://github.com/ada/felix"; Some "https://github.com/Ada/Felix"; Some "https://www.github.com/ada/felix"; Some "https://github.com/ada/felix.git"].
Proof. vm_compute. done. Qed.
(** A request for a GitHub project may name a source the checks refuse: the door asks only that it answers. *)
Definition elsewhere : Ask :=
  {| ak_name := Some "felix"; ak_url := Some "https://github.com/ada/felix"; ak_source := Some "http://vendor.com"; ak_version := None; ak_description := Some "a small thing";
     ak_license := Some "MIT"; ak_arches := None; ak_checklist := Some confirmed |}.
Example a_source_the_checks_refuse :
  match (takeRequest (by_login "ada") elsewhere x_start x_start x_start).2 with
  | inr p => Some (pq_source p, rc_complete (requestChecks (package_of elsewhere p (detect "https://github.com/ada/felix")) (Some (row_of elsewhere p 1 "felix/1/request.json" "2026-10-01"))))
  | inl _ => None
  end = Some ("http://vendor.com", false).
Proof. vm_compute. done. Qed.
(** An address GitHub's own form would never write stops the request with an exception: a tag that does not decode. *)
Example a_tag_that_throws : parseProjectUrl "https://github.com/ada/felix/releases/tag/100%" = parse_throws.
Proof. vm_compute. done. Qed.
