(* ===== verification/ReviewRuleFacts.v ===== *)
(** What Review's decisions promise: two people, a package approved whole, a review taken back whole, a block that leaves nothing
    behind (Review.v, ReviewDoors.v, Blocks.v). *)
From S2P Require Import Prelude JsTime Json Tasks Targets Rings RingsFacts Governance Review ReviewDoors Blocks Delivery ReviewFacts ReviewTables ReviewRuns ReviewRunFacts ReviewSamples.
Local Open Scope string_scope.
Local Open Scope Z_scope.

(** ** Two people *)

Lemma first_no_none l : first_no l = None <-> forall v, In v l -> v = None.
Proof.
  induction l as [|[r|] l IH]; cbn.
  - split; [by intros _ v []|done].
  - split; [done|]. intros H. by apply (H (Some r)); left.
  - rewrite IH. split; [intros H v [<-|Hv]; auto|intros H v Hv; apply H; by right].
Qed.
Lemma no_if_none b s w : no_if b s w = None <-> b = false.
Proof. unfold no_if. by destruct b. Qed.
Lemma no_for_none {A} (o : option A) s w : no_for o s w = None <-> o = None.
Proof. unfold no_for. by destruct o. Qed.
Definition decides : list Decision := [approve; approve_only; reject; changes; build; release].
(** Every reason a decision asks of, each absent. *)
Ltac no_reason H := unfold decisions in H; cbv zeta in H;
  repeat match goal with
  | H : first_no _ = None |- _ => pose proof (proj1 (first_no_none _) H); clear H
  | H : forall v, In v (first_no _ :: ?r) -> v = None |- _ =>
      assert (forall v, In v r -> v = None) by (intros ? ?; apply H; by right); pose proof (H _ (or_introl eq_refl)); clear H
  end; match goal with H : forall v, In v _ -> v = None |- _ => apply H; cbn [In]; tauto end.
Lemma decided_by_another c t f w : In w decides -> decisions (Some c) t f w = None -> isMaintainer c = true /\ (brought (rr_login c) f = true -> selfReview (Some c) f <> None).
Proof.
  intros Hw H. set (p := person (Some c)). set (o := no_if (brought (rr_login c) f && match selfReview (Some c) f with None => true | Some _ => false end) 403 own_package).
  assert (Hpo : p = None /\ o = None) by (unfold decides in Hw; cbn [In] in Hw; decompose [or] Hw; clear Hw; subst; try done; split; no_reason H).
  destruct Hpo as [Hp Ho]. split.
  - unfold p, person in Hp. apply no_if_none in Hp. by apply negb_false_iff in Hp.
  - unfold o in Ho. apply no_if_none in Ho. intros Hb. rewrite Hb in Ho. by destruct (selfReview _ _).
Qed.
Definition reviews_by : list Decision := [approve; approve_only; reject; changes].
Lemma decided_staged c t f w : In w reviews_by -> decisions (Some c) t f w = None -> ro_status t = staged.
Proof.
  intros Hw H. assert (Hs : no_if (negb (is_status staged (ro_status t))) 409 (not_staged (ro_status t)) = None)
    by (unfold reviews_by in Hw; cbn [In] in Hw; decompose [or] Hw; clear Hw; subst; try done; no_reason H).
  apply no_if_none, negb_false_iff in Hs. by apply is_status_true in Hs.
Qed.
(** Who asked for a build, as the tables say: the registration's owner, the build's own, or the one whose build it answers. *)
Definition asked_for (d : VDB) (id : Z) (t : RTask) (who : string) : Prop :=
  (exists g, registrations d !! rt_name t = Some g /\ rg_owner g = who) \/ rt_owner t = Some who
  \/ (from_project t = true /\ exists f x, rp_review (rt_params t) = Some f /\ vtasks d !! f = Some x /\ rt_owner x = Some who).
Lemma requester_In l who : In (Some who) l -> who <> "" -> In who (requestersOf l).
Proof.
  intros H Hne. unfold requestersOf. apply dedup_In, omap_In. exists (Some who). split; [done|]. cbn. unfold truthy. by destruct (String.eqb_spec who "").
Qed.
Lemma asked_brought d id t who : who <> "" -> asked_for d id t who -> brought who (rd_facts (factsOf d id t)) = true.
Proof.
  intros Hne H. unfold brought, factsOf. cbv zeta. cbn [rd_facts fa_owner fa_requesters]. apply orb_true_iff. destruct H as [(g & Hg & <-)|[Ho|(Hp & f & x & Hf & Hx & Ho)]].
  - left. unfold ownerOf. rewrite Hg. by apply ostr_eqb_eq.
  - right. apply str_in_In, requester_In; [|done]. rewrite Ho. right. by left.
  - right. apply str_in_In, requester_In; [|done]. rewrite Hp, Hf. cbn. rewrite Hx. cbn. right. right. by left.
Qed.
Lemma self_is c f s : selfReview (Some c) f = Some s -> fa_solo f = Some s /\ so_maintainer s = rr_login c.
Proof. unfold selfReview. cbn. destruct (fa_solo f) as [s'|]; [|done]. cbn. destruct (_ && _) eqn:E; [|done]. intros [= <-]. breflect. done. Qed.
(** The review a request took, and the build it was pressed on. *)
Definition review_taken (o : DOp) (p : option Pending) : option (Reviewer * Z * VDB * Z) :=
  match o, p with
  | OpApprove c id _ _ _ _ read _, Some (PApproval k) => Some (c, id, read, tk_review k)
  | OpClose c id _ _ _ _ read _, Some (PClosing k) => Some (c, id, read, cl_review k)
  | _, _ => None
  end.
Lemma takeApproval_pressed c id b th g now read later d k : (takeApproval c id b th g now read later d).2 = inr k ->
  let one := match bo_only b, th with Some _, None => true | _, _ => false end in
  exists t, vtasks read !! id = Some t /\ decisions (Some c) (row_of id t) (rd_facts (factsOf read id t)) (if one then approve_only else approve) = None
    /\ tk_rows k = approve_rows later id t (if one then [] else rebuilds_of t (factsOf read id t)).
Proof.
  unfold takeApproval. cbv zeta. destruct (vtasks read !! id) as [t|]; [|done]. destruct (decisions _ _ _ _) eqn:Ed; [done|]. destruct (_ && _); [done|].
  destruct (_ && _); [done|]. destruct (decidedWith th g) as [[]|]; [done|]. destruct (existsb _ _); [done|]. destruct (takeRound _ _ _) as [d1 [[v gone]|]]; [|done].
  cbn. intros [= <-]. cbn. by exists t.
Qed.
Lemma takeClosing_pressed c id note ch th now read later d k : (takeClosing c id note ch th now read later d).2 = inr k ->
  exists t, vtasks read !! id = Some t /\ decisions (Some c) (row_of id t) (rd_facts (factsOf read id t)) (if ch then changes else reject) = None.
Proof.
  unfold takeClosing. cbv zeta. destruct (vtasks read !! id) as [t|]; [|done]. destruct (decisions _ _ _ _) eqn:Ed; [done|]. destruct (negb _); [done|].
  intros _. by exists t.
Qed.
(** Whoever asked for the build decides it only as the exception's maintainer. *)
Lemma taken_by c id t read w : In w reviews_by -> decisions (Some c) (row_of id t) (rd_facts (factsOf read id t)) w = None ->
  isMaintainer c = true /\ rt_status t = staged /\ (rr_login c <> "" -> asked_for read id t (rr_login c) ->
    exists s, solo_row read = Some s /\ so_maintainer s = rr_login c /\ selfReview (Some c) (rd_facts (factsOf read id t)) = Some s).
Proof.
  intros Hw H. assert (Hw' : In w decides) by (unfold decides, reviews_by in *; cbn in Hw |- *; tauto).
  destruct (decided_by_another c _ _ w Hw' H) as [H1 H2]. split; [done|].
  split; [exact (decided_staged c _ _ w Hw H)|]. intros Hne Ha. specialize (H2 (asked_brought _ _ _ _ Hne Ha)).
  destruct (selfReview _ _) as [s|] eqn:Es; [|done]. destruct (self_is _ _ _ Es) as [E1 E2]. by exists s.
Qed.
(** A review of a round with rows, by someone who asked for the build: marked by the exception. *)
Definition marked (d : VDB) (v : Z) (s : Solo) : Prop :=
  forall k a, approvals d !! k = Some a -> ap_review a = Some v -> exists rv, reviews d !! v = Some rv /\ rv_solo rv = Some (so_since s).
Lemma round_marked retries r now m d' v gone s : log_ok retries m -> round_ok r m -> takeRound r now m = (d', Some (v, gone)) -> rn_solo r = Some s -> marked d' v s.
Proof.
  intros Hl Hr E Es k a Hk Ev. destruct (round_log retries _ _ _ _ _ _ Hl Hr E) as (_ & _ & Hv & m' & Hm' & [_ _ _ Ha Er _]).
  destruct (touches_ok _ _ _ _ (lo_rows _ _ Hl) Hm') as (Hok' & _ & [Ea _ _ _]).
  apply Ha in Hk as [Hk|(i & x & Hi & -> & ->)].
  - exfalso. rewrite Ea in Hk. destruct (ok_review m (lo_rows _ _ Hl) _ _ Hk) as (w & q & Ew & Hw & _). apply (ok_rev m (lo_rows _ _ Hl)) in Hw. assert (w = v) by congruence. lia.
  - exists (review_written r). rewrite Er. split; [apply lookup_insert_eq|]. unfold review_written. rewrite Es. destruct (rn_rows r); [by rewrite lookup_nil in Hi|done].
Qed.
Definition taken_well (c : Reviewer) (id : Z) (t : RTask) (read d : VDB) (v : Z) : Prop :=
  isMaintainer c = true /\ rt_status t = staged
  /\ (rr_login c <> "" -> asked_for read id t (rr_login c) -> exists s, solo_row read = Some s /\ so_maintainer s = rr_login c /\ marked d v s).
Lemma round_taken_well retries c id t read r now m d' v gone w : In w reviews_by -> decisions (Some c) (row_of id t) (rd_facts (factsOf read id t)) w = None ->
  vtasks read !! id = Some t -> self_marked c id read r -> log_ok retries m -> round_ok r m -> takeRound r now m = (d', Some (v, gone)) -> taken_well c id t read d' v.
Proof.
  intros Hw H Ht (t' & Ht' & Es) Hl Hr E. assert (t' = t) as -> by congruence. destruct (taken_by _ _ _ _ _ Hw H) as (D1 & D2 & D3). split; [done|]. split; [done|].
  intros Hne Ha. destruct (D3 Hne Ha) as (s & S1 & S2 & S3). exists s. split; [done|]. split; [done|]. rewrite S3 in Es. by eapply round_marked.
Qed.

(** C6: nobody decides what they asked for. Over every run, a review taken - an approval of a package or of one architecture, a
    rejection, changes asked for - was taken by a maintainer on a build that waits for a decision; when they are the package's
    owner, or asked for that build or for the one it answers, the governance file's exception names them and the review, where it
    has a row, says so. *)
Theorem nobody_decides_what_they_asked_for retries past pend d o c id t read v :
  review_run retries past pend d -> reads_past past o -> review_taken o (dstep o d).2 = Some (c, id, read, v) -> vtasks read !! id = Some t ->
  taken_well c id t read (dstep o d).1 v.
Proof.
  intros Hrun Hreads Htaken Ht. pose proof (review_run_ok _ _ _ _ Hrun) as Hi. destruct (inv_now _ _ _ _ Hi) as [Hl _].
  destruct o as [c0 id0 b th g now read0 later|c0 id0 note ch th now read0 later| | | | | | | | | | | | ]; cbn [review_taken] in Htaken; try done;
    cbn [reads_past dstep] in *; unfold kept_for in *; cbn [fst snd] in *; destruct (inv_reads _ _ _ _ _ _ Hi Hreads) as (Hlr & Hg1 & Hg2).
  - pose proof (takeApproval_writes c0 id0 b th g now read0 later d (lo_rows _ _ Hlr) Hg1 Hg2 (lo_rows _ _ Hl)) as Hw.
    pose proof (takeApproval_pressed c0 id0 b th g now read0 later d) as Hp. destruct (takeApproval c0 id0 b th g now read0 later d) as [d' [a|k]]; cbn [fst snd] in *; [done|].
    injection Htaken as -> -> -> <-. destruct Hw as (r & m & Hm & Er & Hr & Har). destruct (Hp k eq_refl) as (t' & Ht' & Hdec & _). assert (t' = t) as -> by congruence.
    destruct (touches_log retries d m Hl (touches_any retries _ _ Hm)) as [Hlm _]. eapply (round_taken_well retries); [|exact Hdec|done|apply Har|done..].
    destruct (match bo_only b, th with Some _, None => true | _, _ => false end); cbn; tauto.
  - pose proof (takeClosing_writes c0 id0 note ch th now read0 later d (lo_rows _ _ Hlr) Hg1 Hg2 (lo_rows _ _ Hl)) as Hw.
    pose proof (takeClosing_pressed c0 id0 note ch th now read0 later d) as Hp. destruct (takeClosing c0 id0 note ch th now read0 later d) as [d' [a|k]]; cbn [fst snd] in *; [done|].
    injection Htaken as -> -> -> <-. destruct Hw as (r & gone & Er & Hr & _ & Hs). destruct (Hp k eq_refl) as (t' & Ht' & Hdec). assert (t' = t) as -> by congruence.
    eapply (round_taken_well retries c id t read r now d); [|exact Hdec|done|exact Hs|exact Hl|exact Hr|exact Er]. destruct ch; cbn; tauto.
Qed.
Lemma nobody_decides_what_they_asked_for_witness :
  let d := set_solo (Some the_exception) d_rebuilt in
  let o := OpApprove ada 3 whole None passkey 100 d d in
  exists past pend t, review_run false past pend d /\ vtasks d !! 3 = Some t /\ asked_for d 3 t "ada" /\ taken_well ada 3 t d (dstep o d).1 1.
Proof.
  cbv zeta. destruct (solo_reached false) as (past & pend & H).
  assert (exists t, vtasks (set_solo (Some the_exception) d_rebuilt) !! 3 = Some t) as [t Ht] by (eexists; vm_compute; reflexivity).
  exists (set_solo (Some the_exception) d_rebuilt :: past), pend, t. split; [exact H|]. split; [exact Ht|]. split.
  - left. assert (rt_name t = "felix") as -> by (vm_compute in Ht; injection Ht as <-; reflexivity). eexists. split; [vm_compute; reflexivity|reflexivity].
  - refine (nobody_decides_what_they_asked_for false _ _ _ (OpApprove ada 3 whole None passkey 100 _ _) ada 3 t _ 1 H _ _ Ht); [apply reads_now|vm_compute; reflexivity].
Defined.

(** ** A package approved whole *)

Lemma newest_first_found (P : Rebuild -> bool) (f : VBuild -> option Rebuild) l q b : (forall x r, f x = Some r -> re_id r = tb_id (vb x)) ->
  StronglySorted (cmp_le newest_build) l -> List.find P (omap f l) = Some q -> In b (omap f l) -> P b = true -> re_id b <= re_id q.
Proof.
  intros Hf Hs. induction Hs as [|x l Hs IH Hx]; [done|]. change (omap f (x :: l)) with (match f x with Some r => r :: omap f l | None => omap f l end).
  destruct (f x) as [r|] eqn:E; [|done]. cbn. destruct (P r) eqn:Ep.
  - intros [= <-] [<-|(y & Hy & Ey)%omap_In] _; [lia|]. apply Hf in E, Ey. apply list_elem_of_In in Hy. eapply Forall_forall in Hx; [|exact Hy]. unfold cmp_le, newest_build, newest_first in Hx. lia.
  - intros Hq [<-|Hb] Hp; [congruence|by apply IH].
Qed.
#[export] Instance newest_build_comparator : Comparator newest_build.
Proof. constructor; intros; unfold newest_build, newest_first in *; lia. Qed.
Lemma project_newest builds ds P q b : let p := buildsOfPackage builds ds in
  List.find P (pb_project p) = Some q -> In b (pb_project p) -> P b = true -> re_id b <= re_id q.
Proof.
  intros p. unfold p, buildsOfPackage. cbv zeta. cbn [pb_project]. apply newest_first_found; [|apply sort_by_sorted; apply _].
  intros x r. destruct (tb_review _); [|done]. destruct (_ && _); [|done]. by intros [= <-].
Qed.
Section Whole.
Context (d : VDB) (id : Z) (t : RTask).
Hypothesis Hok : rows_ok d.
Hypothesis Hclaim : single_claim d.
Let x := factsOf d id t.
(** An architecture the facts count as covered, shipped by this approval: the build it takes of it is the staged one. *)
Lemma covered_ships s : In s (othersOf (rt_arch t) (rt_version t) (rd_builds x) (rd_targets x)) -> project_staged (rd_builds x) s = true ->
  exists q, In q (rebuilds_of t x) /\ re_status q = staged /\ re_arch q = ev_arch s.
Proof.
  intros Hs Hst. destruct (read_of d id t) as (pk & Epk & Eb & Et & _). fold x in Eb, Et. apply existsb_exists in Hst as (b & Hb & Eq). breflect.
  match goal with H : is_status staged _ = true |- _ => apply is_status_true in H as Hbs end.
  destruct (List.find (fun p => re_review p =? ev_id s) (pb_project (rd_builds x))) as [q|] eqn:Ef.
  2:{ eapply find_none in Ef; [|exact Hb]. cbn in Ef. lia. }
  assert (Hq : In q (rebuilds_of t x)) by (apply omap_In; by exists s). exists q. split; [done|].
  destruct (rebuild_read d id t Hok q Hq) as (y & s' & Hy & H1 & H2 & H3 & H4 & H5 & H6 & _). pose proof Ef as [Hq' Eqs]%find_spec. rewrite Eb in Hb, Ef.
  destruct (project_read _ _ _ _ Hok Epk _ Hb) as (z & Hz & _ & G2 & G3 & G4 & G5 & G6 & _). breflect.
  assert (Hle : re_id b <= re_id q) by (eapply project_newest; [exact Ef|exact Hb|by apply Z.eqb_eq]).
  assert (Hge : re_id q <= re_id b).
  { apply (Hclaim _ _ z y (ev_id s)); [unfold rebuild_of; split_and!; congruence|unfold rebuild_of; split_and!; congruence|by rewrite G6, Hbs]. }
  assert (re_id b = re_id q) as E by lia. assert (y = z) as -> by congruence. split; [congruence|].
  rewrite Eb, Et in Hs. destruct (others_read _ _ _ _ Hok Epk _ _ _ Hs) as (Hss & _). destruct (staged_read _ _ _ _ Hok Epk _ Hss) as (w & Hw & _ & _ & _ & Ew & _).
  destruct (ok_rebuild d Hok _ _ _ Hy H2 H3 H4) as (w' & Hw' & _ & Ew'). assert (w' = w) as -> by congruence. congruence.
Qed.
End Whole.
(** An approval of the architecture stands at this version. *)
Definition served_at (d : VDB) (name arch : string) (v : option string) : Prop :=
  exists k a, approvals d !! k = Some a /\ app_stands a = true /\ ap_name a = name /\ ap_arch a = arch /\ v <> None /\ ap_version a = v.
Lemma shipped_served d id t a : shipped (row_of id t) (rd_served (factsOf d id t)) a = true -> served_at d (rt_name t) a (rt_version t).
Proof.
  destruct (read_of d id t) as (pk & Epk & _ & _ & _ & Es & _). rewrite Es. unfold shipped. cbn. destruct (rt_version t) as [v|] eqn:Ev; [|done]. intros (s & Hs & E)%existsb_exists.
  apply in_map_iff in Hs as (y & <- & [Hy Hst]%filter_In). breflect. cbn in *.
  assert (Hdec : pk_decisions pk = map (fun p => decision_of p.2) (decision_rows d (rt_name t))).
  { unfold packageRows in Epk. destruct (registrations d !! rt_name t); by injection Epk as <-. }
  rewrite Hdec in Hy. apply in_map_iff in Hy as ([k b] & <- & Hb). apply decision_rows_In in Hb as [Hb En]. cbn in *. exists k, b. split_and!; try done.
  unfold vdstands, stands in Hst. cbn in Hst. unfold app_stands. by destruct (ap_withdrawn b).
Qed.
Lemma asks_whole b (through : option Through) : bo_only b = None \/ through <> None -> match bo_only b, through with Some _, None => true | _, _ => false end = false.
Proof. intros [->|H]; [done|]. destruct (bo_only b), through; done. Qed.


(** ** The runs' theorems on a run *)

Lemma approved_reached retries : exists past pend, review_run retries past pend (approved m2 3 d_rebuilt).
Proof.
  destruct (rebuilt_reached retries) as (past & pend & H).
  assert (Hd : review_run retries _ _ _) by (apply (rr_door retries _ _ _ (OpApprove m2 3 whole None passkey 100 d_rebuilt d_rebuilt) H); [apply reads_now|done]).
  unfold approved, handleApprove. cbn [dstep] in Hd. unfold kept_for in Hd. destruct (takeApproval _ _ _ _ _ _ _ _ _) as [d' r] eqn:E.
  destruct r as [r|k]; [by vm_compute in E|]. exists (finishApproval k d' :: d' :: d_rebuilt :: past)%list, pend. by apply (rr_finish retries _ [] (PApproval k) pend).
Qed.
Lemma one_decision_stands_witness :
  exists past pend, review_run false past pend d_taken /\ one_live d_taken /\ (approvals d_taken !! 1) <> None /\ forall p k a, In p past -> approvals p !! k = Some a -> exists a', approvals d_taken !! k = Some a' /\ row_kept a a'.
Proof.
  destruct (taken_reached false) as (past & pend & H). destruct (one_decision_stands _ _ _ _ H) as [H1 H2].
  exists (d_taken :: past), pend. split; [exact H|]. split; [exact H1|]. split; [vm_compute; discriminate|exact H2].
Defined.
Lemma a_publish_job_carries_a_decision_witness :
  exists past pend t, review_run false past pend (approved m2 3 d_rebuilt) /\ vtasks (approved m2 3 d_rebuilt) !! 9 = Some t
    /\ exists b by_, rp_task (rt_params t) = Some b /\ rp_by (rt_params t) = Some by_ /\ carried (approved m2 3 d_rebuilt) 1 (rt_name t) (rt_arch t) b by_.
Proof.
  destruct (approved_reached false) as (past & pend & H).
  assert (exists t, vtasks (approved m2 3 d_rebuilt) !! 9 = Some t /\ rp_review_id (rt_params t) = Some 1) as (t & Ht & Hv) by (eexists; split; [vm_compute; reflexivity|reflexivity]).
  exists past, pend, t. split; [exact H|]. split; [exact Ht|]. exact (proj1 (a_publish_job_carries_a_decision _ _ _ _ 9 t 1 H Ht Hv)).
Defined.
