(* ===== verification/ReviewBackFacts.v ===== *)
(** A review taken back whole, and a block that leaves nothing behind (ReviewDoors.v, Blocks.v, Delivery.v). *)
From S2P Require Import Prelude JsTime Json Tasks Targets Rings Governance Review ReviewDoors Blocks Delivery ReviewFacts ReviewTables ReviewRuns ReviewRunFacts ReviewSamples.
Local Open Scope string_scope.
Local Open Scope Z_scope.

(** ** A withdrawal *)

Lemma approval_of_In apps ids a : approval_of apps ids = Some a -> In a apps.
Proof.
  unfold approval_of. destruct (List.find _ _) as [x|] eqn:E; [intros [= <-]|intros E'; clear E; rename E' into E];
    apply find_spec in E as [E _]; by apply filter_In in E as [E _].
Qed.
Lemma standing_read d name id k a : standingApproval d name id = Some (k, a) -> approvals d !! k = Some a /\ app_stands a = true /\ ap_name a = name.
Proof.
  unfold standingApproval. destruct (chainOf _ id) as [ch|] eqn:E; [|done]. cbn. unfold chain_standing. destruct (ch_approval ch) as [x|] eqn:Ea; [|done].
  destruct (app_stands x.2) eqn:Es; [|done]. intros [= ->]. apply find_spec in E as [Hch _]. assert (Hin : In (k, a) (story_approvals d name)).
  { unfold chains_of, chains in Hch. cbv zeta in Hch. apply in_app_or in Hch as [(c & <- & _)%in_map_iff|(c & <- & _)%in_map_iff]; by apply approval_of_In in Ea. }
  apply taken_in in Hin. apply sort_by_In, filter_In in Hin as [Hin En]. apply in_table in Hin. breflect. done.
Qed.
Lemma takeBack_pressed c id note read later d k : (takeBack c id note read later d).2 = inr k ->
  exists t a why, vtasks read !! id = Some t /\ tb_name k = rt_name t /\ standingApproval read (rt_name t) id = Some (tb_approval k, a) /\ isMaintainer c = true /\
    let ids := void_rows later (tb_approval k, a) in let d' := (takeBack c id note read later d).1 in
    approvals d' = map_imap (fun i p => Some (if one_of_ids ids i then taken_back (rr_login c) why p else p)) (approvals d) /\
    reviews d' = match ap_review a with Some r => alter (voided (rr_login c) why) r (reviews d) | None => reviews d end.
Proof.
  unfold takeBack. cbv zeta. destruct (vtasks read !! id) as [t|]; [|done]. destruct (decisions _ _ _ _) eqn:Ed; [done|]. destruct (rd_approval _) as [[k0 a]|] eqn:Ea; [|done].
  destruct (short _); [done|]. cbn. intros [= <-]. exists t, a, (words note). split_and!; try done. cbn in Ed. unfold person in Ed. destruct (isMaintainer c); [done|]. by cbn in Ed.
Qed.
(** C28: a review is taken back whole. Over every run, a withdrawal taken on any build of a review - by a maintainer, on what it
    read before - leaves no row of that review standing, however many architectures it approved and whoever wrote since; the review
    is marked, and no row of another is touched. *)
Theorem a_review_is_taken_back_whole retries past pend d c id note read later k :
  review_run retries past pend d -> read_then past read later -> (takeBack c id note read later d).2 = inr k ->
  let d' := (takeBack c id note read later d).1 in
  isMaintainer c = true /\ exists a v, approvals d !! tb_approval k = Some a /\ ap_name a = tb_name k /\ ap_review a = Some v
    /\ (forall j b, approvals d' !! j = Some b -> ap_review b = Some v -> app_stands b = false)
    /\ (forall rv, reviews d' !! v = Some rv -> rv_withdrawn rv <> None)
    /\ (forall j b, approvals d !! j = Some b -> ap_review b <> Some v -> approvals d' !! j = Some b).
Proof.
  intros Hrun Hread Hk d'. pose proof (review_run_ok _ _ _ _ Hrun) as Hi. destruct (inv_reads _ _ _ _ _ _ Hi Hread) as (Hlr & Hg1 & Hg2).
  destruct (takeBack_pressed _ _ _ _ _ _ _ Hk) as (t & a & why & Ht & En & Hst & Hm & Ea & Er). fold d' in Ea, Er. split; [done|].
  destruct (standing_read _ _ _ _ _ Hst) as (Ha & Hs & Hn). destruct (ok_review read (lo_rows _ _ Hlr) _ _ Ha) as (v & rv & Ev & Hv & _).
  pose proof (ok_rev read (lo_rows _ _ Hlr) _ _ Hv) as Hlt. pose proof (g_nrev _ _ Hg1) as Hnr. destruct (g_app _ _ Hg1 _ _ Ha) as (a1 & Ha1 & [E1 _]). destruct (g_app _ _ Hg2 _ _ Ha1) as (a2 & Ha2 & [E2 _]).
  unfold entry in E1, E2. exists a2, v. split; [done|]. split; [congruence|]. split; [congruence|]. split; [|split].
  - intros j b. rewrite Ea, map_lookup_imap. destruct (approvals d !! j) as [b0|] eqn:Ej; [|done]. cbn. destruct (one_of_ids _ j) eqn:Eo; intros [= <-] Hv0; [unfold app_stands; cbn; apply andb_false_r|].
    destruct (g_old _ _ Hg2 _ _ _ Ej Hv0) as [b1 Hb1]; [lia|]. destruct (g_app _ _ Hg2 _ _ Hb1) as (b2 & Hb2 & [Eb Wb]). assert (b2 = b0) as -> by congruence. unfold entry in Eb.
    apply not_true_is_false. intros Hs0. rewrite <- not_true_iff_false in Eo. apply Eo, one_of_ids_In. unfold void_rows. cbn [snd]. rewrite Ev. apply in_map_iff. exists (j, b1). split; [done|].
    apply filter_In. split; [by apply in_table|]. cbn [snd]. apply andb_true_iff. split; [apply opt_is_Some; congruence|]. unfold app_stands in *. apply andb_true_iff in Hs0 as [D W].
    assert (ap_decision b1 = ap_decision b0) as -> by congruence. rewrite D. destruct (ap_withdrawn b0); [done|]. by rewrite Wb.
  - intros rv'. rewrite Er, Ev, lookup_alter_eq. destruct (reviews d !! v) as [r0|]; [|done]. cbn. intros [= <-]. unfold voided. by destruct (rv_withdrawn r0) eqn:E; rewrite ?E.
  - intros j b Hj Hne. rewrite Ea, map_lookup_imap, Hj. cbn. destruct (one_of_ids _ j) eqn:Eo; [|done]. exfalso. apply one_of_ids_In in Eo. unfold void_rows in Eo. cbn [snd] in Eo. rewrite Ev in Eo.
    apply in_map_iff in Eo as ([i b1] & <- & [Hb1 Eb]%filter_In). apply in_table in Hb1. cbn in *. breflect. match goal with H : opt_is _ _ = true |- _ => apply opt_is_Some in H end.
    destruct (g_app _ _ Hg2 _ _ Hb1) as (b2 & Hb2 & [E3 _]). unfold entry in E3. congruence.
Qed.
Lemma a_review_is_taken_back_whole_witness :
  exists past pend k, review_run false past pend d_taken /\ (takeBack m1 3 (Some "not good") d_taken d_taken d_taken).2 = inr k
    /\ isMaintainer m1 = true /\ exists a v, approvals d_taken !! tb_approval k = Some a /\ ap_name a = tb_name k /\ ap_review a = Some v.
Proof.
  destruct (taken_reached false) as (past & pend & H).
  assert (exists k, (takeBack m1 3 (Some "not good") d_taken d_taken d_taken).2 = inr k) as [k Ek] by (eexists; vm_compute; reflexivity).
  destruct (a_review_is_taken_back_whole false _ _ _ m1 3 (Some "not good") _ _ k H (reads_now _ _) Ek) as (H1 & a & v & H2 & H3 & H4 & _).
  exists (d_taken :: past), pend, k. split; [exact H|]. split; [exact Ek|]. split; [exact H1|]. exists a, v. split; [exact H2|]. split; [exact H3|exact H4].
Defined.

(** ** A block *)

Lemma settled_tasks name d : vtasks (settleTargets name d) = vtasks d /\ approvals (settleTargets name d) = approvals d /\ reviews (settleTargets name d) = reviews d /\ next_task (settleTargets name d) = next_task d.
Proof. unfold settleTargets. by destruct (targets_now d name). Qed.
Lemma cancelled_lookup f why d id t : vtasks (cancel_where f why d) !! id = Some t -> exists t0, vtasks d !! id = Some t0 /\ fixed t = fixed t0 /\
  (t = t0 /\ f id t0 = false \/ rt_status t = cancelled /\ f id t0 = true).
Proof.
  cbn. rewrite map_lookup_imap. destruct (vtasks d !! id) as [t0|]; [|done]. cbn. intros [= <-]. exists t0. split; [done|]. destruct (f id t0) eqn:E; split; try done; [by right|by left].
Qed.
Definition halted (name : string) (d : VDB) : Prop :=
  (forall id t, vtasks d !! id = Some t -> of_name name ["build"; "publish"] t = true -> in_flight (rt_status t) = false)
  /\ (forall k a, approvals d !! k = Some a -> ap_name a = name -> app_stands a = false).
Lemma of_name_fixed name kinds t t' : fixed t' = fixed t -> of_name name kinds t' = of_name name kinds t.
Proof. unfold fixed, of_name. by intros [= -> _ -> _ _ _ _ _]. Qed.

(** C29: a block leaves nothing of the package behind. Whatever it finds, when a block is through no build and no publish job of
    the package is in flight, no approval of it stands, and its registration - rejected, closed through its last build - says who
    blocked it; builds of other packages are as they were. *)
Theorem a_block_leaves_nothing_behind k d : let d' := finishBlock k d in
  halted (bk_name k) d'
  /\ (forall g, registrations d' !! bk_name k = Some g -> rg_status g = "rejected" /\ rg_blocked g = Some (bk_by k)
        /\ forall id t, vtasks d' !! id = Some t -> of_name (bk_name k) ["build"] t = true -> id <= rg_closed_through g)
  /\ (forall id t, vtasks d !! id = Some t -> rt_name t <> bk_name k -> is_build t = true -> vtasks d' !! id = Some t).
Proof.
  unfold finishBlock. cbv zeta. set (last := foldr Z.max 0 _). set (d1 := on_registration _ _ d). set (d2 := cancel_where _ (bk_note k) d1). set (d3 := cancel_where _ _ d2). set (d4 := set_decisions _ _ _ _ d3).
  destruct (settled_tasks (bk_name k) d4) as (E1 & E2 & _). assert (Hback : forall id t, vtasks d3 !! id = Some t -> exists t0, vtasks d !! id = Some t0 /\ fixed t = fixed t0 /\
    (of_name (bk_name k) ["build"; "publish"] t0 = true -> in_flight (rt_status t) = false)).
  { intros id t H. apply cancelled_lookup in H as (t2 & H & F2 & C2). apply cancelled_lookup in H as (t1 & H & F1 & C1). exists t1. split; [done|]. split; [congruence|]. intros Ho.
    destruct C2 as [[-> _]|[-> _]]; [|done]. destruct C1 as [[-> C]|[-> _]]; [|done]. by rewrite Ho in C. }
  split; [split|split].
  - intros id t. rewrite E1. intros H Ho. destruct (Hback _ _ H) as (t0 & _ & F & G). apply G. by rewrite <- (of_name_fixed _ _ _ _ F).
  - intros key a. rewrite E2. cbn. rewrite lookup_fmap. destruct (approvals d !! key) as [b|]; [|done]. cbn. intros [= <-].
    destruct (_ && app_stands b) eqn:E; cbn; [intros _; unfold app_stands; cbn; apply andb_false_r|]. intros En. by rewrite En, String.eqb_refl in E.
  - intros g Hg. assert (Hg' : exists g0, registrations d !! bk_name k = Some g0 /\ rg_status g = "rejected" /\ rg_blocked g = Some (bk_by k) /\ rg_closed_through g = Z.max (rg_closed_through g0) last).
    { unfold settleTargets in Hg. destruct (targets_now d4 _); cbn in Hg; rewrite ?lookup_alter_eq in Hg; destruct (registrations d !! bk_name k) as [g0|]; try done; cbn in Hg; injection Hg as <-; by exists g0. }
    destruct Hg' as (g0 & _ & H1 & H2 & H3). split; [done|]. split; [done|]. intros id t. rewrite E1. intros H Ho. destruct (Hback _ _ H) as (t0 & H0 & F & _).
    rewrite (of_name_fixed _ _ _ _ F) in Ho. assert (id <= last); [|lia]. apply (proj1 (max_spec _)), in_map_iff. exists (id, t0). split; [done|]. by apply hit_In.
  - intros id t Ht Hne Hb. rewrite E1. cbn. rewrite !map_lookup_imap, Ht. cbn.
    assert (Ho : of_name (bk_name k) ["build"; "publish"] t = false) by (unfold of_name; by rewrite (proj2 (String.eqb_neq _ _) Hne)). rewrite Ho. cbn.
    unfold is_build in Hb. apply String.eqb_eq in Hb. by rewrite Hb.
Qed.
