(* ===== verification/Program.v ===== *)
(** * A request as its statements

    A handler of the Worker runs one statement (or one batch) of the database at a time, each at its own moment, and other requests
    run between them. [prog] is such a handler: a step reads the clock and the tables, changes them, and says how the handler goes
    on. [exec] relates a handler to the moments its statements ran at, whatever the others did in between; [solo] runs it alone;
    [wstep] interleaves any number of them. *)
From S2P Require Import Prelude.
Local Open Scope Z_scope.

Section Program.
Context {S : Type}.

(** A handler that will give an [A]; a statement the database refuses ends it with an error. *)
Inductive prog (A : Type) : Type :=
| Ret (a : A)
| Throw
| Step (f : Z -> S -> S) (k : Z -> S -> prog A).
Arguments Ret {A} a.
Arguments Throw {A}.
Arguments Step {A} f k.

Fixpoint prog_then {A B} (q : A -> prog B) (p : prog A) : prog B :=
  match p with Ret a => q a | Throw => Throw | Step f k => Step f (fun now d => prog_then q (k now d)) end.
#[global] Instance prog_ret : MRet prog := fun A a => Ret a.
#[global] Instance prog_bind : MBind prog := fun A B q p => prog_then q p.

(** A read; a statement with what it answers; a batch, which a unique key may refuse whole. *)
Definition ask {A} (f : Z -> S -> A) : prog A := Step (fun _ d => d) (fun now d => Ret (f now d)).
Definition stmt {A} (f : Z -> S -> S * A) : prog A := Step (fun now d => (f now d).1) (fun now d => Ret (f now d).2).
Definition batch {A} (f : Z -> S -> option (S * A)) : prog A :=
  Step (fun now d => match f now d with Some x => x.1 | None => d end) (fun now d => match f now d with Some x => Ret x.2 | None => Throw end).

(** ** A handler's moments *)

(** When a statement ran, the tables it found and those it left. *)
Record Moment := { m_now : Z; m_before : S; m_after : S }.
Fixpoint exec {A} (p : prog A) (tr : list Moment) (r : option A) : Prop :=
  match p with
  | Ret a => tr = [] /\ r = Some a
  | Throw => tr = [] /\ r = None
  | Step f k => exists now d tr', tr = {| m_now := now; m_before := d; m_after := f now d |} :: tr' /\ exec (k now d) tr' r
  end.
(** Alone, all of it at one time. *)
Fixpoint solo {A} (p : prog A) (now : Z) (d : S) : S * option A :=
  match p with Ret a => (d, Some a) | Throw => (d, None) | Step f k => solo (k now d) now (f now d) end.
Fixpoint solo_moments {A} (p : prog A) (now : Z) (d : S) : list Moment :=
  match p with
  | Ret _ | Throw => []
  | Step f k => {| m_now := now; m_before := d; m_after := f now d |} :: solo_moments (k now d) now (f now d)
  end.

Lemma solo_exec {A} (p : prog A) now d : exec p (solo_moments p now d) (solo p now d).2.
Proof. revert d. induction p as [a| |f k IH]; intros d; cbn; [done..|]. exists now, d. eexists. by split; [|apply IH]. Qed.
Lemma exec_bind {A B} (q : A -> prog B) p tr r :
  exec (p ≫= q) tr r -> (exists t1 t2 a, tr = (t1 ++ t2)%list /\ exec p t1 (Some a) /\ exec (q a) t2 r) \/ (r = None /\ exec p tr None).
Proof.
  unfold mbind, prog_bind. revert tr. induction p as [a| |f k IH]; intros tr; cbn.
  - intros H. left. by exists [], tr, a.
  - intros [-> ->]. by right.
  - intros (now & d & tr' & -> & H). destruct (IH _ _ _ H) as [(t1 & t2 & a & -> & H1 & H2)|[-> H1]].
    + left. exists (({| m_now := now; m_before := d; m_after := f now d |}) :: t1), t2, a. split; [done|]. split; [|done]. by exists now, d, t1.
    + right. split; [done|]. by exists now, d, tr'.
Qed.
(** A handler that answers passed each of its parts. *)
Lemma exec_answers {A B} (q : A -> prog B) p tr b :
  exec (p ≫= q) tr (Some b) -> exists t1 t2 a, tr = (t1 ++ t2)%list /\ exec p t1 (Some a) /\ exec (q a) t2 (Some b).
Proof. intros [H|[[=] _]]%exec_bind. done. Qed.
Lemma exec_ask {A} (f : Z -> S -> A) tr a :
  exec (ask f) tr (Some a) -> exists now d, tr = [{| m_now := now; m_before := d; m_after := d |}] /\ a = f now d.
Proof. intros (now & d & tr' & -> & -> & [= ->]). by exists now, d. Qed.
Lemma exec_stmt {A} (f : Z -> S -> S * A) tr a :
  exec (stmt f) tr (Some a) -> exists now d, tr = [{| m_now := now; m_before := d; m_after := (f now d).1 |}] /\ a = (f now d).2.
Proof. intros (now & d & tr' & -> & -> & [= ->]). by exists now, d. Qed.
Lemma exec_batch {A} (f : Z -> S -> option (S * A)) tr a :
  exec (batch f) tr (Some a) -> exists now d d', tr = [{| m_now := now; m_before := d; m_after := d' |}] /\ f now d = Some (d', a).
Proof.
  intros (now & d & tr' & -> & H). exists now, d. destruct (f now d) as [[d' b]|]; destruct H as [-> [=]]. subst. by exists d'.
Qed.

(** ** What every statement of a handler does *)

(** Each step, from tables where [I] holds, does [P]; what it answers is [Q]. *)
Fixpoint steps {A} (I : Z -> S -> Prop) (P : Z -> S -> S -> Prop) (Q : A -> Prop) (p : prog A) : Prop :=
  match p with Ret a => Q a | Throw => True | Step f k => forall now d, I now d -> P now d (f now d) /\ steps I P Q (k now d) end.
Lemma steps_bind {A B} I P (Q : A -> Prop) (Q' : B -> Prop) (q : A -> prog B) p :
  steps I P Q p -> (forall a, Q a -> steps I P Q' (q a)) -> steps I P Q' (p ≫= q).
Proof.
  unfold mbind, prog_bind. induction p as [a| |f k IH]; cbn; [auto|done|]. intros H Hq now d Hd. destruct (H now d Hd). auto.
Qed.
Lemma steps_ask {A} (I : Z -> S -> Prop) (P : Z -> S -> S -> Prop) (Q : A -> Prop) f :
  (forall now d, I now d -> P now d d) -> (forall now d, I now d -> Q (f now d)) -> steps I P Q (ask f).
Proof. intros H HQ now d Hd. split; [by apply H|by apply HQ]. Qed.
Lemma steps_stmt {A} (I : Z -> S -> Prop) (P : Z -> S -> S -> Prop) (Q : A -> Prop) (f : Z -> S -> S * A) :
  (forall now d, I now d -> P now d (f now d).1 /\ Q (f now d).2) -> steps I P Q (stmt f).
Proof. intros H now d Hd. by apply H. Qed.
Lemma steps_batch {A} (I : Z -> S -> Prop) (P : Z -> S -> S -> Prop) (Q : A -> Prop) (f : Z -> S -> option (S * A)) :
  (forall now d, I now d -> P now d d) -> (forall now d d' a, I now d -> f now d = Some (d', a) -> P now d d' /\ Q a) -> steps I P Q (batch f).
Proof. intros H0 H now d Hd. destruct (f now d) as [[d' a]|] eqn:E; [|by split; [apply H0|]]. by apply (H now d d' a). Qed.
Lemma steps_mono {A} (I I' : Z -> S -> Prop) (P P' : Z -> S -> S -> Prop) (Q Q' : A -> Prop) (p : prog A) :
  (forall now d, I' now d -> I now d) -> (forall now d d', I' now d -> P now d d' -> P' now d d') -> (forall a, Q a -> Q' a) ->
  steps I P Q p -> steps I' P' Q' p.
Proof. intros HI HP HQ. induction p as [a| |f k IH]; cbn; [auto|done|]. intros H now d Hd. destruct (H now d (HI _ _ Hd)). split; auto. Qed.
(** What the moments of a handler are. *)
Lemma steps_exec {A} (I : Z -> S -> Prop) (P : Z -> S -> S -> Prop) (Q : A -> Prop) (p : prog A) tr r : steps I P Q p -> exec p tr r ->
  (forall m, In m tr -> I (m_now m) (m_before m)) -> (forall m, In m tr -> P (m_now m) (m_before m) (m_after m)) /\ (forall a, r = Some a -> Q a).
Proof.
  revert tr. induction p as [a| |f k IH]; intros tr; cbn.
  - intros HQ [-> ->] _. split; [by intros m []|]. by intros ? [= <-].
  - intros _ [-> ->] _. split; [by intros m []|done].
  - intros H (now & d & tr' & -> & Hx) HI. destruct (H now d) as [Hp Hk]; [exact (HI _ (or_introl eq_refl))|].
    destruct (IH _ _ _ Hk Hx) as [H1 H2]; [intros m Hm; apply HI; by right|]. split; [|done]. by intros m [<-|Hm]; [|apply H1].
Qed.

(** ** Any number of them at once *)

Section World.
Context {R : Type} (starts : prog R -> Prop).

(** The tables, the latest time a statement read, and the requests in flight. *)
Record World := { w_db : S; w_now : Z; w_running : list (prog R) }.
Inductive wstep (w : World) : World -> Prop :=
| w_arrives p : starts p -> wstep w {| w_db := w_db w; w_now := w_now w; w_running := w_running w ++ [p] |}
| w_runs i f k now : w_running w !! i = Some (Step f k) -> w_now w <= now ->
    wstep w {| w_db := f now (w_db w); w_now := now; w_running := <[i := k now (w_db w)]> (w_running w) |}.
Inductive wsteps (w : World) : World -> Prop :=
| w_none : wsteps w w
| w_more w' w'' : wsteps w w' -> wstep w' w'' -> wsteps w w''.

Lemma wsteps_trans w1 w2 w3 : wsteps w1 w2 -> wsteps w2 w3 -> wsteps w1 w3.
Proof. intros H. induction 1; [done|by eapply w_more]. Qed.
(** A request alone is a run. *)
Lemma runs_alone w i p now : w_running w !! i = Some p -> w_now w <= now ->
  exists w', wsteps w w' /\ w_db w' = (solo p now (w_db w)).1 /\ w_now w' <= now.
Proof.
  revert w. induction p as [a| |f k IH]; intros w E Hn; [exists w; by split; [constructor|]..|]. cbn.
  set (w1 := {| w_db := f now (w_db w); w_now := now; w_running := <[i := k now (w_db w)]> (w_running w) |}).
  destruct (IH now (w_db w) w1) as (w' & H1 & H2 & H3); [cbn; apply list_lookup_insert_eq; by eapply lookup_lt_Some|cbn; lia|].
  exists w'. split; [|done]. eapply wsteps_trans; [|exact H1]. eapply w_more; [constructor|]. by eapply w_runs.
Qed.
Lemma arrives_alone w p now : starts p -> w_now w <= now -> exists w', wsteps w w' /\ w_db w' = (solo p now (w_db w)).1 /\ w_now w' <= now.
Proof.
  intros Hp Hn. destruct (runs_alone {| w_db := w_db w; w_now := w_now w; w_running := w_running w ++ [p] |} (length (w_running w)) p now) as (w' & H1 & H2).
  - cbn. rewrite lookup_app_r by lia. by rewrite Nat.sub_diag.
  - done.
  - exists w'. split; [|done]. eapply wsteps_trans; [|exact H1]. eapply w_more; [constructor|]. by constructor.
Qed.

Context (I : Z -> S -> Prop) (P : Z -> S -> S -> Prop).
(** What the requests in flight rest on. *)
Definition in_order (w : World) : Prop := I (w_now w) (w_db w) /\ Forall (steps I P (fun _ => True)) (w_running w).
Hypothesis later_ok : forall now now' d, now <= now' -> I now d -> I now' d.
Hypothesis kept : forall now d d', I now d -> P now d d' -> I now d'.
Hypothesis starts_ok : forall p, starts p -> steps I P (fun _ => True) p.

Lemma wstep_in_order w w' : in_order w -> wstep w w' -> in_order w' /\ (w_db w' = w_db w \/ P (w_now w') (w_db w) (w_db w')).
Proof.
  intros [Hi Hr] [p Hp|i f k now E Hn]; cbn.
  - split; [|by left]. split; [done|]. apply Forall_app. split; [done|]. constructor; [by apply starts_ok|constructor].
  - pose proof (proj1 (Forall_lookup _ _) Hr _ _ E) as Hs. cbn in Hs. destruct (Hs now (w_db w)) as [Hp Hk]; [by eapply later_ok|].
    split; [|by right]. split; [cbn; eapply kept; [|exact Hp]; by eapply later_ok|]. by apply Forall_insert.
Qed.
Lemma wsteps_in_order w w' : in_order w -> wsteps w w' -> in_order w'.
Proof. intros H. induction 1 as [|w' w'' _ IH Hs]; [done|]. by eapply wstep_in_order. Qed.
End World.
End Program.
Arguments Ret {S A} a.
Arguments Throw {S A}.
Arguments Step {S A} f k.
Arguments prog S A : clear implicits.
Arguments Moment S : clear implicits.
Arguments World S R : clear implicits.
#[export] Hint Resolve steps_bind steps_ask steps_stmt steps_batch : prog.
