(* ===== verification/Accounts.v ===== *)
(** * A person's account: sessions and tokens (worker/src/routes/auth.ts, agents.ts, meta.ts, and the account's doors of routes/contributors.ts)

    Who a request comes from: the browser's session or a contributor's token, each kept as its SHA-256; the sign-in with GitHub that
    makes a session, the sign-out, the two doors that make a token. [ADB] is CDB with the account's own tables beside it: the columns
    of contributors a review never reads, passkeys, passkey_challenges, agent_grants, drafts, and the journal's lines of their kind. *)
From S2P Require Import Prelude JsTime Json JsonText Bytes WebAuthn Program.
From S2P Require Import Tasks Targets Rings Governance Projects Review ReviewDoors Blocks Delivery Contributors Requests.
Local Open Scope string_scope.
Local Open Scope Z_scope.

(** ** The tables *)

(** contributors' columns a review never reads: the session's hash, the token's, when they were last seen, and the day's counts of what their agents did. *)
Record Account := {
  ac_session : option string; ac_token : string; ac_seen : Z;
  ac_day : option string; ac_requests : Z; ac_claims : Z; ac_drafts : Z }.
Definition set_session (s : option string) (a : Account) : Account :=
  {| ac_session := s; ac_token := ac_token a; ac_seen := ac_seen a; ac_day := ac_day a; ac_requests := ac_requests a; ac_claims := ac_claims a; ac_drafts := ac_drafts a |}.
Definition set_token (t : string) (a : Account) : Account :=
  {| ac_session := ac_session a; ac_token := t; ac_seen := ac_seen a; ac_day := ac_day a; ac_requests := ac_requests a; ac_claims := ac_claims a; ac_drafts := ac_drafts a |}.
Definition set_seen (n : Z) (a : Account) : Account :=
  {| ac_session := ac_session a; ac_token := ac_token a; ac_seen := n; ac_day := ac_day a; ac_requests := ac_requests a; ac_claims := ac_claims a; ac_drafts := ac_drafts a |}.
Record Passkey := {
  pk_id : string; pk_login : string; pk_credential : string; pk_key : string; pk_alg : Z; pk_rp : string; pk_counter : Z; pk_label : string;
  pk_created : Z; pk_last : option Z }.
Inductive Purpose := p_register | p_confirm.
#[export] Instance Purpose_eq_dec : EqDecision Purpose.
Proof. solve_decision. Defined.
Record Challenge := { ch_value : string; ch_login : string; ch_purpose : Purpose; ch_bound : option string; ch_expires : Z }.
Inductive Scope := contribute | review_scope | block_scope.
#[export] Instance Scope_eq_dec : EqDecision Scope.
Proof. solve_decision. Defined.
(** [gr_revoked]: when, and by what word. *)
Record Grant := {
  gr_id : string; gr_login : string; gr_agent : string; gr_scopes : list Scope; gr_token : option string; gr_code : option string;
  gr_challenge : option string; gr_code_expires : option Z; gr_created : Z; gr_expires : Z; gr_revoked : option (Z * string); gr_last : option Z }.
Inductive DraftVerdict := dv_approve | dv_changes | dv_reject | dv_block.
Inductive DraftState := ds_waiting | ds_confirmed | ds_refused | ds_discarded.
#[export] Instance DraftVerdict_eq_dec : EqDecision DraftVerdict.
Proof. solve_decision. Defined.
#[export] Instance DraftState_eq_dec : EqDecision DraftState.
Proof. solve_decision. Defined.
Record Draft := {
  dr_id : string; dr_grant : string; dr_login : string; dr_agent : string; dr_client : option string; dr_verdict : DraftVerdict; dr_note : string;
  dr_name : string; dr_task : option Z; dr_facts : string; dr_created : Z; dr_expires : Z; dr_used : option Z; dr_state : DraftState }.
(** A journal's line: whose account, who did it, what ([ev_what]: a passkey, a grant), and the passkey it was confirmed with. *)
Record Event := { ev_status : string; ev_action : string; ev_login : string; ev_by : string; ev_what : list string; ev_with : option string }.

Record ADB := {
  base : CDB; accounts : gmap string Account; passkeys : list Passkey; challenges : list Challenge; grants : list Grant; drafts : list Draft;
  events : list Event }.
Definition set_base (x : CDB) (d : ADB) : ADB :=
  {| base := x; accounts := accounts d; passkeys := passkeys d; challenges := challenges d; grants := grants d; drafts := drafts d; events := events d |}.
Definition set_accounts (x : gmap string Account) (d : ADB) : ADB :=
  {| base := base d; accounts := x; passkeys := passkeys d; challenges := challenges d; grants := grants d; drafts := drafts d; events := events d |}.
Definition set_passkeys (x : list Passkey) (d : ADB) : ADB :=
  {| base := base d; accounts := accounts d; passkeys := x; challenges := challenges d; grants := grants d; drafts := drafts d; events := events d |}.
Definition set_challenges (x : list Challenge) (d : ADB) : ADB :=
  {| base := base d; accounts := accounts d; passkeys := passkeys d; challenges := x; grants := grants d; drafts := drafts d; events := events d |}.
Definition set_grants (x : list Grant) (d : ADB) : ADB :=
  {| base := base d; accounts := accounts d; passkeys := passkeys d; challenges := challenges d; grants := x; drafts := drafts d; events := events d |}.
Definition set_drafts (x : list Draft) (d : ADB) : ADB :=
  {| base := base d; accounts := accounts d; passkeys := passkeys d; challenges := challenges d; grants := grants d; drafts := x; events := events d |}.
Definition add_event (e : Event) (d : ADB) : ADB :=
  {| base := base d; accounts := accounts d; passkeys := passkeys d; challenges := challenges d; grants := grants d; drafts := drafts d; events := events d ++ [e] |}.
Definition on_account (login : string) (f : Account -> Account) (d : ADB) : ADB := set_accounts (alter f login (accounts d)) d.
(** The review's tables behind them. *)
Definition review_of (d : ADB) : VDB := cv (base d).
Definition set_review (v : VDB) (d : ADB) : ADB := set_base (set_cv v (base d)) d.

(** A row of a table with a condition, [UPDATE … WHERE] and [DELETE … WHERE], with how many. *)
Definition update_where {A} (p : A -> bool) (f : A -> A) (l : list A) : list A := map (fun x => if p x then f x else x) l.
Definition without_where {A} (p : A -> bool) (l : list A) : list A := List.filter (fun x => negb (p x)) l.
Definition some_where {A} (p : A -> bool) (l : list A) : bool := existsb p l.
Definition is_some {A} (o : option A) : bool := match o with Some _ => true | None => false end.

(** ** A request *)

(** What a door reads of it: the Authorization and Cookie headers, the Origin, and its own address. *)
Record Ask := { rq_auth : option string; rq_cookie : string; rq_origin : option string; rq_hostname : string; rq_at : string }.
Definition bearer (q : Ask) : string := match rq_auth q with Some h => if starts_with "Bearer " h then str_drop 7 h else "" | None => "" end.
Definition hasAgentToken (q : Ask) : bool := starts_with "oma_" (bearer q).

(** [(?:^|;\s* )name=([^;]+)], the first. *)
Definition cookie_value (name : string) (part : string) : option string :=
  let p := name +:+ "=" in
  if starts_with p part then let v := str_drop (String.length p) part in if truthy v then Some v else None else None.
Definition cookie_parts (h : string) : list string := match split_on ";" h with p :: r => p :: map trim_start r | [] => [] end.
(** None throws: the value is not an encoding of text. *)
Definition cookieOf (q : Ask) (name : string) : option (option string) :=
  match omap (cookie_value name) (cookie_parts (rq_cookie q)) with [] => Some None | v :: _ => Some <$> decodeURIComponent v end.

(** ** The production names *)

Definition DASHBOARD_HOST : string := "omarchy-pool.org".
Definition API_HOST : string := "pkgs.omarchy-pool.org".
Definition LEGACY_API_HOST : string := "pkgs.firemanxbr.org".
Definition LEGACY_DASHBOARD_HOSTS : list string := ["omarchy-pool.firemanxbr.org"; "dashboard-omarchy.firemanxbr.org"; "www.omarchy-pool.org"].
Definition PRODUCTION_HOSTS : list string := DASHBOARD_HOST :: API_HOST :: LEGACY_API_HOST :: LEGACY_DASHBOARD_HOSTS.
Definition isProductionHost (host : string) : bool := str_in host PRODUCTION_HOSTS.

(** ** Who it comes from *)

(** A door's answer: its status and its code, or what it did. *)
Inductive Reply :=
| Refused (status : Z) (code : string)
| Redirect (location : string)
| Done (status : Z) (said : list (string * string)).
Abbreviation door := (prog ADB Reply).
Definition answer {A} (r : A) : prog ADB A := Ret r.

Definition SEEN_MINUTES : Z := 10.
Definition roleFor (d : ADB) (login : string) : string := if str_in login (maintainers (base d)) then "maintainer" else "contributor".

Section Runtime.
Context `{R : Runtime}.
Definition sha256Hex (s : string) : string := to_hex (sha256 (bytes_of s)).

(** The browser's session, and nothing else: a request with an Authorization header has none. *)
Inductive Browser := b_session (s : string) | b_none | b_bearer.
Definition browserSession (q : Ask) : option Browser :=
  match rq_auth q with
  | Some _ => Some b_bearer
  | None => (fun o => let s := default "" o in if starts_with "oms_" s then b_session s else b_none) <$> cookieOf q "omc"
  end.

(** The account a hash opens, with the row the review reads. *)
Definition account_where (p : Account -> bool) (d : ADB) : option (string * Account) := List.find (fun x => p x.2) (map_to_list (accounts d)).
Definition caller_of (d : ADB) (login : string) : Caller :=
  let p := people (review_of d) !! login in
  {| ca_who := {| rr_login := login; rr_role := match p with Some p => pe_role p | None => "contributor" end |};
     ca_blocked := match p with Some p => is_some (pe_blocked p) | None => false end |}.
Definition seen_now (login : string) (now : Z) (d : ADB) : ADB :=
  on_account login (fun a => if ac_seen a <? now - SEEN_MINUTES * 60000 then set_seen now a else a) d.
Definition opened (by_ : Account -> bool) : prog ADB (option Caller) :=
  row ← ask (fun now d => x ← account_where by_ d; Some (caller_of d x.1, SEEN_MINUTES * 60000 <? now - ac_seen x.2));
  match row with
  | None => Ret None
  | Some (c, stale) => if (stale : bool) then _ ← stmt (fun now d => (seen_now (ca_login c) now d, tt)); Ret (Some c) else Ret (Some c)
  end.
Definition contributorOf (q : Ask) : prog ADB (option Caller) :=
  let token := bearer q in
  match (if truthy token then Some None else cookieOf q "omc") with
  | None => Throw
  | Some cookie =>
      let session := default "" cookie in
      if starts_with "omc_" token then opened (fun a => String.eqb (ac_token a) (sha256Hex token))
      else if starts_with "oms_" session then opened (fun a => ostr_eqb (ac_session a) (Some (sha256Hex session)))
      else Ret None
  end.

(** ** Sign in, sign out *)

(** A path on this origin: [/^\/(?![\/\\])[^\x00-\x1f\x7f]*$/]. *)
Definition plain_char (c : ascii) : bool := let n := N_of_ascii c in (32 <=? n)%N && negb (n =? 127)%N.
Definition own_path (s : string) : bool :=
  match s with
  | String "/" r => negb (match r with String c _ => Ascii.eqb c "/" || Ascii.eqb c "\" | EmptyString => false end) && str_forallb plain_char r
  | _ => false
  end.
Definition safeNext (next : option string) : string := let n := default "/factory" next in if own_path n then n else "/factory".
(** The state cookie's value, and the redirect: [state] is the draw. *)
Definition handleAuthStart (q : Ask) (path : string) (next : option string) (configured : bool) (state : string) : Reply :=
  if isProductionHost (rq_hostname q) && negb (String.eqb (rq_hostname q) DASHBOARD_HOST) then Redirect ("https://" +:+ DASHBOARD_HOST +:+ path)
  else if negb configured then Refused 501 "oauth"
  else Done 302 [("omc_state", state +:+ ":" +:+ encodeURIComponent (safeNext next))].

(** GitHub's answers to the code and to the token: the user, or the HTTP status it refused with. *)
Record GithubUser := { gu_login : string; gu_type : option string }.
Record Github := { gh_token : option string; gh_user : Z + GithubUser }.
Definition a_user (u : GithubUser) : bool := truthy (gu_login u) && negb (ostr_eqb (gu_type u) (Some "Bot")).
Definition person_of (login role : string) (v : VDB) : Person :=
  {| pe_role := role; pe_blocked := p ← people v !! login; pe_blocked p |}.
Definition with_person (login role : string) (d : ADB) : ADB :=
  set_review (set_people (<[login := person_of login role (review_of d)]> (people (review_of d))) (vworkers (review_of d)) (review_of d)) d.
(** The other accounts' session and token hashes are unique. *)
Definition held_by_another (login : string) (p : Account -> bool) (d : ADB) : bool :=
  existsb (fun x => negb (String.eqb x.1 login) && p x.2) (map_to_list (accounts d)).
Definition new_account (session : option string) (token : string) (now : Z) : Account :=
  {| ac_session := session; ac_token := token; ac_seen := now; ac_day := None; ac_requests := 0; ac_claims := 0; ac_drafts := 0 |}.
Definition signed_in (login role session unset : string) (now : Z) (d : ADB) : option (ADB * unit) :=
  let same_session a := ostr_eqb (ac_session a) (Some session) in
  if held_by_another login same_session d then None
  else match accounts d !! login with
  | Some a => Some (with_person login role (set_accounts (<[login := set_seen now (set_session (Some session) a)]> (accounts d)) d), tt)
  | None =>
      if held_by_another login (fun a => String.eqb (ac_token a) unset) d then None
      else Some (with_person login role (set_accounts (<[login := new_account (Some session) unset now]> (accounts d)) d), tt)
  end.
(** The session and the unset token are draws. *)
Record Callback := { cb_code : option string; cb_state : option string; cb_configured : bool }.
Definition handleAuthCallback (q : Ask) (cb : Callback) (gh : Github) (token unset : string) : door :=
  match cookieOf q "omc_state" with
  | None => Throw
  | Some saved =>
      match cb_state cb, saved with
      | Some state, Some saved =>
          if negb (truthyo (cb_code cb) && truthy state && truthy saved && starts_with (state +:+ ":") saved) then answer (Refused 400 "state")
          else match decodeURIComponent (str_drop (String.length state + 1) saved) with
          | None => Throw
          | Some next =>
              let next := if truthy next then next else "/factory" in
              if negb (cb_configured cb) then answer (Refused 501 "oauth")
              else if negb (truthyo (gh_token gh)) then answer (Refused 502 "token")
              else match gh_user gh with
              | inl status => answer (Refused 502 "user")
              | inr u =>
                  if negb (a_user u) then answer (Refused 400 "user")
                  else
                    role ← ask (fun _ d => roleFor d (gu_login u));
                    _ ← batch (fun now d => signed_in (gu_login u) role (sha256Hex token) (sha256Hex unset) now d);
                    answer (Redirect (if String.eqb next "/me" then "/user/" +:+ encodeURIComponent (gu_login u) else next))
              end
          end
      | _, _ => answer (Refused 400 "state")
      end
  end.
Definition signed_out (session : string) (d : ADB) : ADB :=
  set_accounts ((fun a => if ostr_eqb (ac_session a) (Some session) then set_session None a else a) <$> accounts d) d.
Definition handleLogout (q : Ask) : door :=
  match cookieOf q "omc" with
  | None => Throw
  | Some o =>
      let session := default "" o in
      if starts_with "oms_" session then _ ← stmt (fun _ d => (signed_out (sha256Hex session) d, tt)); answer (Redirect "/")
      else answer (Redirect "/")
  end.

(** ** The command line's token *)

(** The mark a reset of the login's passkeys leaves: no token hashes to it. *)
Definition RESET_TOKEN_MARK : string := "reset:".
Definition was_reset (a : Account) : bool := starts_with RESET_TOKEN_MARK (ac_token a).
Definition registered (login role token : string) (now : Z) (d : ADB) : option (ADB * bool) :=
  if held_by_another login (fun a => String.eqb (ac_token a) token) d then None
  else match accounts d !! login with
  | Some a => if was_reset a then Some (d, false)
              else Some (with_person login role (set_accounts (<[login := set_seen now (set_token token a)]> (accounts d)) d), true)
  | None => Some (with_person login role (set_accounts (<[login := new_account None token now]> (accounts d)) d), true)
  end.
(** [github_token] of the body, GitHub's answer to it; the token is a draw. *)
Definition handleRegister (github_token : option string) (user : Z + GithubUser) (token : string) : door :=
  if negb (truthyo github_token) then answer (Refused 400 "github_token")
  else match user with
  | inl _ => answer (Refused 401 "github")
  | inr u =>
      if negb (a_user u) then answer (Refused 400 "user")
      else
        role ← ask (fun _ d => roleFor d (gu_login u));
        made ← batch (fun now d => registered (gu_login u) role (sha256Hex token) now d);
        answer (if (made : bool) then Done 201 [("login", gu_login u); ("role", role)] else Refused 403 "token_reset")
  end.
Definition new_token (login token : string) (d : ADB) : option (ADB * unit) :=
  if held_by_another login (fun a => String.eqb (ac_token a) token) d then None else Some (on_account login (set_token token) d, tt).
Definition handleNewToken (c : Caller) (token : string) : door :=
  match workspace (Some c) (ca_login c) r_token with
  | Some (status, _) => answer (Refused status "token")
  | None => _ ← batch (fun _ d => new_token (ca_login c) (sha256Hex token) d); answer (Done 201 [("login", ca_login c)])
  end.
End Runtime.
