(* ===== verification/Grants.v ===== *)
(** * What a person lets an agent do (worker/src/agents.ts, and the grant's half of routes/agents.ts)

    A grant is made by the signed-in person in their own browser, swapped once for a token within a minute, and read again on every
    call: its scopes, its person's role and block, the day's counts. *)
From S2P Require Import Prelude JsTime Json JsonText Bytes WebAuthn Program.
From S2P Require Import Tasks Targets Rings Governance Projects Review ReviewDoors Blocks Delivery Contributors Requests Accounts.
Local Open Scope string_scope.
Local Open Scope Z_scope.

(** ** Scopes, names, lives *)

Definition SCOPES : list Scope := [contribute; review_scope; block_scope].
Definition scope_word (s : Scope) : string := match s with contribute => "contribute" | review_scope => "review" | block_scope => "block" end.
Definition DECISION_SCOPES : list Scope := [review_scope; block_scope].
Definition scope_in (s : Scope) (l : list Scope) : bool := existsb (fun x => bool_decide (x = s)) l.
Definition decides (s : Scope) : bool := scope_in s DECISION_SCOPES.
Definition CONTRIBUTE_DAYS : Z := 30.
Definition CONTRIBUTE_MAX_DAYS : Z := 90.
Definition DECISION_DAYS : Z := 7.
Definition LIVE_GRANTS : Z := 3.
Definition CODE_SECONDS : Z := 60.
Definition DRAFT_MINUTES : Z := 30.
Definition DAY : Z := 86400000.

(** [/[\s,]+/] between the words. *)
Definition comma_is_space (c : ascii) : ascii := if Ascii.eqb c "," then " "%char else c.
Definition parseScopes (raw : option string) : option (list Scope) :=
  let asked := words_of (str_map comma_is_space (default "contribute" raw)) in
  match asked with
  | [] => None
  | _ => if forallb (fun s => str_in s (map scope_word SCOPES)) asked then Some (List.filter (fun s => str_in (scope_word s) asked) SCOPES) else None
  end.
(** One printable line of 1 to 60 characters. *)
Definition one_line (s : string) : string := join " " (words_of s).
Definition agentName (raw : option string) : option string :=
  s ← raw;
  let s := one_line s in
  if (1 <=? slen s) && (slen s <=? 60) && str_forallb plain_char s then Some s else None.
Definition grantExpiry (scopes : list Scope) (days : option Z) (now : Z) : Z :=
  now + (if existsb decides scopes then DECISION_DAYS else Z.min CONTRIBUTE_MAX_DAYS (Z.max 1 (default CONTRIBUTE_DAYS days))) * DAY.
(** The client's own name: printable, 80 characters at most. *)
Fixpoint str_filter (p : ascii -> bool) (s : string) : string :=
  match s with EmptyString => "" | String c r => if p c then String c (str_filter p r) else str_filter p r end.
Definition clientOf (header : option string) : option string :=
  let s := trim (str_filter (fun c => let n := N_of_ascii c in (32 <=? n)%N && (n <=? 126)%N) (default "" header)) in
  if truthy s then Some (str_take 80 s) else None.

(** ** A form's nonce *)

(** [a.charCodeAt(i) ^ b.charCodeAt(i)], of every place. *)
Fixpoint xor_chars (a b : string) : Z :=
  match a, b with String x a', String y b' => Z.lor (Z.lxor (Z.of_N (N_of_ascii x)) (Z.of_N (N_of_ascii y))) (xor_chars a' b') | _, _ => 0 end.
Definition sameNonce (a b : string) : bool := (slen a =? slen b) && (xor_chars a b =? 0).
(** The HMAC of the parts' text is the runtime's. *)
Class Nonces := { mac : string -> string }.
Definition newline : string := String (ascii_of_nat 10) "".
Definition formNonce `{Nonces} (parts : list string) : string := mac (join newline parts).

(** ** The table *)

Definition swapped (g : Grant) : bool := is_some (gr_token g).
Definition unrevoked (g : Grant) : bool := negb (is_some (gr_revoked g)).
Definition of_login (login : string) (g : Grant) : bool := String.eqb (gr_login g) login.
(** Swapped, not revoked, not expired. *)
Definition live_grant (now : Z) (g : Grant) : bool := unrevoked g && swapped g && (now <? gr_expires g).
Definition live_grants (login : string) (now : Z) (d : ADB) : list Grant := List.filter (fun g => of_login login g && live_grant now g) (grants d).
Definition revoke (now : Z) (by_ : string) (g : Grant) : Grant :=
  {| gr_id := gr_id g; gr_login := gr_login g; gr_agent := gr_agent g; gr_scopes := gr_scopes g; gr_token := gr_token g; gr_code := gr_code g;
     gr_challenge := gr_challenge g; gr_code_expires := gr_code_expires g; gr_created := gr_created g; gr_expires := gr_expires g;
     gr_revoked := Some (now, by_); gr_last := gr_last g |}.
Definition swap (hash : string) (g : Grant) : Grant :=
  {| gr_id := gr_id g; gr_login := gr_login g; gr_agent := gr_agent g; gr_scopes := gr_scopes g; gr_token := Some hash; gr_code := None;
     gr_challenge := None; gr_code_expires := None; gr_created := gr_created g; gr_expires := gr_expires g;
     gr_revoked := gr_revoked g; gr_last := gr_last g |}.
Definition touch_grant (now : Z) (g : Grant) : Grant :=
  {| gr_id := gr_id g; gr_login := gr_login g; gr_agent := gr_agent g; gr_scopes := gr_scopes g; gr_token := gr_token g; gr_code := gr_code g;
     gr_challenge := gr_challenge g; gr_code_expires := gr_code_expires g; gr_created := gr_created g; gr_expires := gr_expires g;
     gr_revoked := gr_revoked g; gr_last := Some now |}.
Definition discard (now : Z) (x : Draft) : Draft :=
  {| dr_id := dr_id x; dr_grant := dr_grant x; dr_login := dr_login x; dr_agent := dr_agent x; dr_client := dr_client x; dr_verdict := dr_verdict x;
     dr_note := dr_note x; dr_name := dr_name x; dr_task := dr_task x; dr_facts := dr_facts x; dr_created := dr_created x; dr_expires := dr_expires x;
     dr_used := Some now; dr_state := ds_discarded |}.
Definition revoked_grant (id : string) (d : ADB) : bool := some_where (fun g => String.eqb (gr_id g) id && negb (unrevoked g)) (grants d).
(** DISCARD_SQL: the login's waiting drafts of the last thirty minutes whose grant is revoked. *)
Definition discarding (login : string) (now : Z) (d : ADB) (x : Draft) : bool :=
  String.eqb (dr_login x) login && (now - DRAFT_MINUTES * 60000 <? dr_created x) && negb (is_some (dr_used x)) && revoked_grant (dr_grant x) d.
Definition discard_drafts (login : option string) (now : Z) (d : ADB) : ADB :=
  match login with Some l => set_drafts (update_where (discarding l now d) (discard now) (drafts d)) d | None => d end.
(** UNSWAPPED_SQL *)
Definition drop_unswapped (login : string) (d : ADB) : ADB :=
  set_grants (without_where (fun g => of_login login g && negb (swapped g)) (grants d)) d.
Definition by_token (hash : string) (g : Grant) : bool := ostr_eqb (gr_token g) (Some hash).
Definition login_of_token (hash : string) (d : ADB) : option string := gr_login <$> List.find (by_token hash) (grants d).

(** ** Grant *)

Record GrantAsk := { ga_agent : string; ga_scopes : list Scope; ga_port : Z; ga_state : string; ga_challenge : string; ga_days : option Z }.
(** [Number(s)] of text, where it is a whole number: a decimal with its fraction and exponent, or 0x, 0o, 0b. *)
Fixpoint span_digits (acc : Z) (n : nat) (s : string) : Z * nat * string :=
  match s with String c r => if is_digit c then span_digits (10 * acc + digit_val c) (S n) r else (acc, n, s) | EmptyString => (acc, n, s) end.
Definition exponent_of (s : string) : option Z :=
  match s with
  | EmptyString => Some 0
  | String e r =>
      if Ascii.eqb e "e" || Ascii.eqb e "E" then
        let '(sign, r) := match r with String "-" r => (-1, r) | String "+" r => (1, r) | _ => (1, r) end in
        match span_digits 0 0 r with (x, S _, EmptyString) => Some (sign * x) | _ => None end
      else None
  end.
Definition decimal_of (s : string) : option Z :=
  let '(a, n, r) := span_digits 0 0 s in
  let '(m, k, r) := match r with String "." r => span_digits a 0 r | _ => (a, O, r) end in
  match (n + k)%nat with
  | O => None
  | _ => x ← exponent_of r;
         let p := x - Z.of_nat k in
         if 0 <=? p then Some (m * 10 ^ p) else if m mod 10 ^ (- p) =? 0 then Some (m / 10 ^ (- p)) else None
  end.
Fixpoint radix_of (base acc : Z) (s : string) : option Z :=
  match s with
  | EmptyString => Some acc
  | String c r => v ← hex_val (lower_ascii c); if base <=? v then None else radix_of base (base * acc + v) r
  end.
Definition whole_number (s : string) : option Z :=
  let s := trim s in
  match s with
  | "" => Some 0
  | String "0" (String m (String c r)) =>
      let m := lower_ascii m in
      if Ascii.eqb m "x" then radix_of 16 0 (String c r) else if Ascii.eqb m "o" then radix_of 8 0 (String c r)
      else if Ascii.eqb m "b" then radix_of 2 0 (String c r) else decimal_of s
  | String "-" r => Z.opp <$> decimal_of r
  | String "+" r => decimal_of r
  | _ => decimal_of s
  end.
Definition url_chars (lo hi : Z) (s : string) : bool := str_forallb url_char s && (lo <=? slen s) && (slen s <=? hi).
(** The link's or the form's parameters, [URLSearchParams.get]. *)
Abbreviation Params := (list (string * string)).
Definition grantAsk (p : Params) : option GrantAsk :=
  agent ← agentName (assoc "agent" p);
  scopes ← parseScopes (assoc "scopes" p);
  port ← match assoc "port" p with Some s => whole_number s | None => Some 0 end;
  if (port <? 1024) || (65535 <? port) then None else
  let state := default "" (assoc "state" p) in
  if negb (url_chars 16 128 state) then None else
  let challenge := default "" (assoc "challenge" p) in
  if negb (url_chars 43 43 challenge) then None else
  if negb (String.eqb (default "S256" (assoc "method" p)) "S256") then None else
  let ask days := Some {| ga_agent := agent; ga_scopes := scopes; ga_port := port; ga_state := state; ga_challenge := challenge; ga_days := days |} in
  match assoc "days" p with
  | Some s => if truthy s then (n ← whole_number s; if n <? 1 then None else ask (Some n)) else ask None
  | None => ask None
  end.
Definition grantParts (session : string) (a : GrantAsk) (ts : string) : list string :=
  ["grant"; session; ga_agent a; join "," (map scope_word (ga_scopes a)); zstr (ga_port a); ga_state a; ga_challenge a;
   match ga_days a with Some n => zstr n | None => "" end; ts].
Definition GRANT_FORM_MS : Z := 10 * 60000.
Inductive GrantRefusal := gx_blocked | gx_maintainer | gx_live.
Definition grantRefusal (c : Caller) (a : GrantAsk) (others : Z) : option GrantRefusal :=
  if ca_blocked c then Some gx_blocked
  else if existsb decides (ga_scopes a) && negb (ca_maintains c) then Some gx_maintainer
  else if LIVE_GRANTS <=? others then Some gx_live else None.
(** A live grant of the same name is replaced at the swap: it does not count. *)
Definition others_of (a : GrantAsk) (live : list Grant) : Z :=
  zlen live - (if existsb (fun g => String.eqb (gr_agent g) (ga_agent a)) live then 1 else 0).

Section Runtime.
Context `{R : Runtime} `{N : Nonces}.

(** The signed-in person in the browser, with the session. *)
Definition personInBrowser (q : Ask) : prog ADB (Reply + Caller * string) :=
  match browserSession q with
  | None => Throw
  | Some b_bearer => Ret (inl (Refused 403 "session_only"))
  | Some b_none => Ret (inl (Refused 401 "sign_in"))
  | Some (b_session s) =>
      c ← contributorOf q;
      Ret (match c with Some c => inr (c, s) | None => inl (Refused 401 "sign_in") end)
  end.
Definition sameOrigin (q : Ask) : bool := ostr_eqb (rq_origin q) (Some (rq_at q)).

(** The grant page: what its form is written with. *)
Record GrantPage := { gp_ask : GrantAsk; gp_refusal : option GrantRefusal; gp_replaces : bool; gp_expires : Z; gp_ts : string; gp_nonce : string }.
Definition handleGrantPage (q : Ask) (p : Params) : prog ADB (Reply + GrantPage) :=
  if isProductionHost (rq_hostname q) && negb (String.eqb (rq_hostname q) DASHBOARD_HOST) then Ret (inl (Redirect ("https://" +:+ DASHBOARD_HOST)))
  else
    who ← personInBrowser q;
    match who with
    | inl r => Ret (inl r)
    | inr (c, session) =>
        match grantAsk p with
        | None => Ret (inl (Refused 400 "ask"))
        | Some a =>
            live ← ask (fun now d => (now, live_grants (ca_login c) now d));
            let '(now, live) := live in
            let ts := zstr now in
            Ret (inr {| gp_ask := a; gp_refusal := grantRefusal c a (others_of a live);
                        gp_replaces := existsb (fun g => String.eqb (gr_agent g) (ga_agent a)) live; gp_expires := grantExpiry (ga_scopes a) (ga_days a) now;
                        gp_ts := ts; gp_nonce := formNonce (grantParts (sha256Hex session) a ts) |})
        end
    end.

(** GRANT_INSERT_SQL, after UNSWAPPED_SQL in its batch. *)
Definition new_grant (id login : string) (a : GrantAsk) (code : string) (now : Z) : Grant :=
  {| gr_id := id; gr_login := login; gr_agent := ga_agent a; gr_scopes := ga_scopes a; gr_token := None; gr_code := Some code;
     gr_challenge := Some (ga_challenge a); gr_code_expires := Some (now + CODE_SECONDS * 1000); gr_created := now;
     gr_expires := grantExpiry (ga_scopes a) (ga_days a) now; gr_revoked := None; gr_last := None |}.
Definition other_live (login agent : string) (now : Z) (d : ADB) : list Grant :=
  List.filter (fun g => negb (String.eqb (gr_agent g) agent)) (live_grants login now d).
Definition grant_insert (id login : string) (a : GrantAsk) (code : string) (now : Z) (d : ADB) : option (ADB * bool) :=
  let d := drop_unswapped login d in
  if zlen (other_live login (ga_agent a) now d) <? LIVE_GRANTS then
    if some_where (fun g => String.eqb (gr_id g) id || ostr_eqb (gr_code g) (Some code)) (grants d) then None
    else Some (set_grants (grants d ++ [new_grant id login a code now]) d, true)
  else Some (d, false).
(** [form]: the body's fields, if it is a form; [spent]: the limiter let it by; [id] and [code] are draws. *)
Definition handleGrant (q : Ask) (form : option Params) (spent : bool) (id code : string) : door :=
  who ← personInBrowser q;
  match who with
  | inl r => answer r
  | inr (c, session) =>
      if negb (sameOrigin q) then answer (Refused 403 "origin")
      else match form with
      | None => answer (Refused 400 "form")
      | Some form =>
          match grantAsk form with
          | None => answer (Refused 400 "ask")
          | Some a =>
              let ts := default "" (assoc "ts" form) in
              now ← ask (fun now _ => now);
              if negb (sameNonce (default "" (assoc "nonce" form)) (formNonce (grantParts (sha256Hex session) a ts)))
                 || negb (match whole_number ts with Some t => (now - t <? GRANT_FORM_MS) && (t <=? now) | None => false end) then answer (Refused 403 "nonce")
              else if negb (ostr_eqb (assoc "action" form) (Some "grant")) then answer (Done 303 [("state", ga_state a); ("error", "access_denied")])
              else if negb spent then answer (Refused 429 "rate_limited")
              else
                live ← ask (live_grants (ca_login c));
                match grantRefusal c a (others_of a live) with
                | Some gx_live => answer (Refused 409 "live")
                | Some _ => answer (Refused 403 "refused")
                | None =>
                    made ← batch (grant_insert id (ca_login c) a (sha256Hex code));
                    answer (if (made : bool) then Done 303 [("state", ga_state a); ("code", code)] else Refused 409 "live")
                end
          end
      end
  end.

(** ** Swap *)

Definition s256 (verifier : string) : string := toB64url (sha256 (bytes_of verifier)).
(** [/^[A-Za-z0-9._~-]{43,128}$/] and [/^[0-9a-f]{64}$/] *)
Definition is_verifier (s : string) : bool :=
  str_forallb (fun c => is_alnum c || existsb (Ascii.eqb c) (String.list_ascii_of_string "._~-")) s && (43 <=? slen s) && (slen s <=? 128).
Definition is_code (s : string) : bool := str_forallb is_hex_lower s && (slen s =? 64).
(** SWAP_SQL's row: the code, not taken, in its minute, and the verifier's challenge. *)
Definition swappable (code challenge : string) (now : Z) (g : Grant) : bool :=
  ostr_eqb (gr_code g) (Some code) && negb (swapped g) && unrevoked g && ostr_eqb (gr_challenge g) (Some challenge)
  && match gr_code_expires g with Some e => now <? e | None => false end.
(** REPLACE_SQL: the other live grants of its login and name. *)
Definition replaced (hash : string) (g : Grant) (now : Z) (x : Grant) : bool :=
  String.eqb (gr_login x) (gr_login g) && String.eqb (gr_agent x) (gr_agent g) && live_grant now x && negb (by_token hash x).
Definition swap_batch (hash code challenge : string) (now : Z) (d : ADB) : option (ADB * option Grant) :=
  let row := List.find (swappable code challenge now) (grants d) in
  if is_some row && some_where (by_token hash) (grants d) then None
  else
    let l := update_where (swappable code challenge now) (swap hash) (grants d) in
    let l := match List.find (by_token hash) l with Some g => update_where (replaced hash g now) (revoke now "replaced") l | None => l end in
    let d := set_grants l d in
    Some (discard_drafts (login_of_token hash d) now d, swap hash <$> row).
(** [spent]: the limiter; the token is a draw. *)
Definition handleSwap (body : option json) (spent : bool) (token : string) : door :=
  if negb spent then answer (Refused 429 "rate_limited")
  else
    let code := default "" (as_str (field body "code")) in
    let verifier := default "" (as_str (field body "code_verifier")) in
    if negb (is_code code) || negb (is_verifier verifier) then answer (Refused 400 "invalid_request")
    else
      row ← batch (swap_batch (sha256Hex token) (sha256Hex code) (s256 verifier));
      answer (match row with Some g => Done 200 [("token", token); ("grant", gr_id g); ("login", gr_login g)] | None => Refused 400 "invalid_grant" end).

(** ** Revoke *)

(** LOGOUT_SQL and REVOKE_GRANT_SQL, each with the drafts of what they revoked. *)
Definition logout_batch (hash : string) (now : Z) (d : ADB) : ADB * option string :=
  let row := List.find (fun g => by_token hash g && unrevoked g) (grants d) in
  let d := set_grants (update_where (fun g => by_token hash g && unrevoked g) (revoke now "logout") (grants d)) d in
  (discard_drafts (login_of_token hash d) now d, gr_id <$> row).
Definition handleAgentLogout (q : Ask) : door :=
  if negb (hasAgentToken q) then answer (Refused 401 "grant_invalid")
  else
    row ← stmt (logout_batch (sha256Hex (bearer q)));
    answer (match row with Some id => Done 200 [("revoked", id)] | None => Refused 401 "grant_invalid" end).
Definition revoke_batch (id login : string) (now : Z) (d : ADB) : ADB * option string :=
  let hit g := String.eqb (gr_id g) id && of_login login g && unrevoked g in
  let row := List.find hit (grants d) in
  (discard_drafts (Some login) now (set_grants (update_where hit (revoke now login) (grants d)) d), gr_id <$> row).
Definition handleRevokeGrant (c : Caller) (id : string) : door :=
  row ← stmt (revoke_batch id (ca_login c));
  answer (match row with Some id => Done 200 [("revoked", id)] | None => Refused 404 "not_found" end).

(** ** Every call *)

Record AgentCaller := { ag_who : Caller; ag_grant : string; ag_agent : string; ag_client : option string; ag_scopes : list Scope; ag_expires : Z }.
(** GRANT_SQL: the unrevoked grant of the token, joined to its login's row. *)
Definition grant_of (hash : string) (d : ADB) : option (Grant * Caller) :=
  g ← List.find (fun g => by_token hash g && unrevoked g) (grants d);
  match accounts d !! gr_login g with Some _ => Some (g, caller_of d (gr_login g)) | None => None end.
Definition used_now (id : string) (now : Z) (d : ADB) : ADB :=
  set_grants (update_where (fun g => String.eqb (gr_id g) id && match gr_last g with Some t => t <? now - SEEN_MINUTES * 60000 | None => true end) (touch_grant now) (grants d)) d.
(** [limited]: the login's limiter refuses; [guard]: the cost guard is up. *)
Definition agentOf (q : Ask) (client : option string) (wanted : list Scope) (write limited guard : bool) : prog ADB (Reply + AgentCaller) :=
  if negb (hasAgentToken q) then Ret (inl (Refused 401 "grant_invalid"))
  else
    row ← ask (fun now d => x ← grant_of (sha256Hex (bearer q)) d; Some (x, now));
    match row with
    | None => Ret (inl (Refused 401 "grant_invalid"))
    | Some (g, c, now) =>
        if gr_expires g <=? now then Ret (inl (Refused 401 "grant_expired"))
        else if limited then Ret (inl (Refused 429 "rate_limited"))
        else match List.find (fun s => scope_in s (gr_scopes g)) wanted with
        | None => Ret (inl (Refused 403 "scope"))
        | Some held =>
            if decides held && negb (ca_maintains c) then Ret (inl (Refused 403 "maintainer_only"))
            else if ca_blocked c then Ret (inl (Refused 403 "blocked"))
            else if write && guard then Ret (inl (Refused 503 "cost_guard"))
            else
              let said := inr {| ag_who := {| ca_who := ca_who c; ca_blocked := false |}; ag_grant := gr_id g; ag_agent := gr_agent g;
                                 ag_client := clientOf client; ag_scopes := gr_scopes g; ag_expires := gr_expires g |} in
              if match gr_last g with Some t => SEEN_MINUTES * 60000 <? now - t | None => true end
              then _ ← stmt (fun now d => (used_now (gr_id g) now d, tt)); Ret said else Ret said
        end
    end.

(** *** The day's counts *)

Inductive DayKind := k_requests | k_claims | k_drafts.
Definition DAY_CAPS_requests : Z := 5.
Definition DAY_CAPS_claims : Z := 10.
Definition DAY_CAPS_drafts : Z := 30.
Definition DAY_CAPS_maintainer_requests : Z := 50.
Definition dayCap (k : DayKind) (c : Caller) : Z :=
  match k with
  | k_requests => if ca_maintains c then DAY_CAPS_maintainer_requests else DAY_CAPS_requests
  | k_claims => DAY_CAPS_claims
  | k_drafts => DAY_CAPS_drafts
  end.
Definition day_count (k : DayKind) (a : Account) : Z := match k with k_requests => ac_requests a | k_claims => ac_claims a | k_drafts => ac_drafts a end.
Definition utcDay (now : Z) : string := str_take 10 (iso now).
(** daySql: one more of [k], the others kept or, on a new day, started again. *)
Definition counted (k : DayKind) (day : string) (a : Account) : Account :=
  let same := ostr_eqb (ac_day a) (Some day) in
  let n x mine := if same then (if (mine : bool) then x + 1 else x) else (if mine then 1 else 0) in
  {| ac_session := ac_session a; ac_token := ac_token a; ac_seen := ac_seen a; ac_day := Some day;
     ac_requests := n (ac_requests a) (match k with k_requests => true | _ => false end);
     ac_claims := n (ac_claims a) (match k with k_claims => true | _ => false end);
     ac_drafts := n (ac_drafts a) (match k with k_drafts => true | _ => false end) |}.
Definition day_open (k : DayKind) (day : string) (cap : Z) (a : Account) : bool := negb (ostr_eqb (ac_day a) (Some day)) || (day_count k a <? cap).
Definition day_statement (k : DayKind) (day login : string) (cap : Z) (d : ADB) : ADB * bool :=
  match accounts d !! login with
  | Some a => if day_open k day cap a then (on_account login (counted k day) d, true) else (d, false)
  | None => (d, false)
  end.
Definition dayCount (c : Caller) (k : DayKind) : prog ADB (option Reply) :=
  moved ← stmt (fun now d => day_statement k (utcDay now) (ca_login c) (dayCap k c) d);
  Ret (if (moved : bool) then None else Some (Refused 429 "day_limit")).
End Runtime.

(** ** The routes an agent's token is taken by *)

Definition all_digits (s : string) : bool := truthy s && str_forallb is_digit s.
Definition draft_id (s : string) : bool := starts_with "d_" s && (slen s =? 34) && str_forallb is_hex_lower (str_drop 2 s).
Definition agent_route (verb path : string) : option (list Scope) :=
  match split_on "/" path with
  | [""; "factory"; "packages"] => if String.eqb verb "POST" then Some [contribute] else None
  | [""; "factory"; "me"] => if String.eqb verb "GET" then Some [contribute] else None
  | [""; "factory"; "tasks"; id; "build"] => if String.eqb verb "POST" && all_digits id then Some [review_scope] else None
  | [""; "factory"; "tasks"; id; "release"] => if String.eqb verb "POST" && all_digits id then Some [review_scope] else None
  | [""; "factory"; "drafts"] => if String.eqb verb "POST" then Some [review_scope; block_scope] else None
  | [""; "factory"; "drafts"; id] => if String.eqb verb "GET" && draft_id id then Some [review_scope; block_scope] else None
  | _ => None
  end.
Definition agentTokenRefusal (q : Ask) (verb path : string) : option Reply :=
  if negb (hasAgentToken q) then None else match agent_route verb path with Some _ => None | None => Some (Refused 403 "agent_token") end.
