(* ===== verification/Passkeys.v ===== *)
(** * Passkeys (worker/src/routes/passkeys.ts)

    Registered, used, removed and reset: each door as its statements, in their order. A challenge is issued for one purpose of one
    login, lives five minutes and is deleted by the statement that takes it; the insert of a key asks again for everything its request
    rested on. *)
From S2P Require Import Prelude JsTime Json JsonText Bytes WebAuthn Program.
From S2P Require Import Tasks Targets Rings Governance Projects Review ReviewDoors Blocks Delivery Contributors Requests Accounts Grants.
Local Open Scope string_scope.
Local Open Scope Z_scope.

Definition MAX_PASSKEYS : Z := 10.
Definition CHALLENGE_MINUTES : Z := 5.
Definition LIVE_CHALLENGES : Z := 5.
Definition PASSKEY_VERDICTS : list DraftVerdict := [dv_approve; dv_block].
Definition RESET_REASON_MIN : Z := 4.
Definition RESET_REASON_MAX : Z := 300.
Definition JUST_NOW_MINUTES : Z := 10.

Record RelyingParty := { rp_id : string; rp_origin : string; rp_name : string }.
(** The dashboard's name for every production name, localhost for itself, nothing anywhere else. *)
Definition relyingParty (q : Ask) : option RelyingParty :=
  if isProductionHost (rq_hostname q) then Some {| rp_id := DASHBOARD_HOST; rp_origin := "https://" +:+ DASHBOARD_HOST; rp_name := "omarchy-pool" |}
  else if String.eqb (rq_hostname q) "localhost" then Some {| rp_id := "localhost"; rp_origin := rq_at q; rp_name := "omarchy-pool (local)" |}
  else None.

(** ** What an assertion is for *)

Definition positive_id (s : string) : bool := match s with String c r => is_digit c && negb (Ascii.eqb c "0") && str_forallb is_digit r && (slen r <=? 14) | _ => false end.
Definition is_arch (s : string) : bool := str_in s REPO_ARCHES.
Definition login_text (s : string) : bool := str_forallb (fun c => is_alnum c || Ascii.eqb c "-") s && (1 <=? slen s) && (slen s <=? 39).
Definition blockable (s : string) : bool :=
  str_forallb (fun c => is_alnum c || existsb (Ascii.eqb c) (String.list_ascii_of_string "@._+-")) s && (1 <=? slen s) && (slen s <=? 100).
Definition host_text (s : string) : bool :=
  starts_with "h_" s && (slen s =? 12) && str_forallb (fun c => is_digit c || is_lower c) (str_drop 2 s).
Definition passkey_text (s : string) : bool := starts_with "pk_" s && (slen s =? 35) && str_forallb is_hex_lower (str_drop 3 s).
Definition HOST_ACTS : list string := ["resume"; "retire"; "retire-legacy"; "seal-key"; "pin-passkey"; "widen-envelope"; "set-agent-keys"].
Definition OWNER_ACTS : list string := ["cause"; "resume-all"].
(** No part holds a colon, so the parts are those of the split. *)
Definition SUBJECT (s : string) : bool :=
  match split_on ":" s with
  | ["approve"; id] => positive_id id
  | ["approve"; id; arch] => positive_id id && is_arch arch
  | ["any-host"; id] => positive_id id
  | ["block"; what; name] => str_in what ["package"; "contributor"] && blockable name
  | ["passkey"; "add"] => true
  | ["passkey"; "remove"; id] => passkey_text id
  | ["passkey"; "reset"; login] => login_text login
  | ["promote"; "force"; a; b] => str_in a PROMOTED_RINGS && str_in b PROMOTED_RINGS
  | ["promote"; "force"; a; b; arch] => str_in a PROMOTED_RINGS && str_in b PROMOTED_RINGS && is_arch arch
  | ["host"; act; x] => str_in act HOST_ACTS && host_text x || str_in act OWNER_ACTS && login_text x
  | _ => false
  end.
Definition forcedSubject (from to : string) (arch : option string) : string :=
  "promote:force:" +:+ from +:+ ":" +:+ to +:+ (if truthyo arch then ":" +:+ default "" arch else "").

(** ** The statements *)

Definition holds (login : string) (k : Passkey) : bool := String.eqb (pk_login k) login.
Definition has_passkey (d : ADB) (login : string) : bool := some_where (holds login) (passkeys d).
Definition newest_key (x y : Passkey) : Z := pk_created y - pk_created x.
Definition passkeys_of (d : ADB) (login : string) : list Passkey := take (Z.to_nat MAX_PASSKEYS) (sort_by newest_key (List.filter (holds login) (passkeys d))).
Definition by_credential (d : ADB) (credential : string) : option Passkey := List.find (fun k => String.eqb (pk_credential k) credential) (passkeys d).
Definition own_passkey (d : ADB) (id login : string) : option Passkey := List.find (fun k => String.eqb (pk_id k) id && holds login k) (passkeys d).
Definition session_of (d : ADB) (login : string) : option string := a ← accounts d !! login; ac_session a.
(** PASSKEY_INSERT_SQL's conditions; [vouched] is the passkey that vouched. *)
Definition may_insert (k : Passkey) (vouched : option string) (session : string) (d : ADB) : bool :=
  (zlen (List.filter (holds (pk_login k)) (passkeys d)) <? MAX_PASSKEYS)
  && negb (is_some (by_credential d (pk_credential k)))
  && ostr_eqb (session_of d (pk_login k)) (Some session)
  && match vouched with Some v => is_some (own_passkey d v (pk_login k)) | None => negb (has_passkey d (pk_login k)) end.
Definition passkey_event (status action login : string) (id : string) (with_ : option string) (d : ADB) : ADB :=
  if is_some (own_passkey d id login) then add_event {| ev_status := status; ev_action := action; ev_login := login; ev_by := login; ev_what := [id]; ev_with := with_ |} d
  else d.
(** The insert and its line, in one batch; the primary key refuses an id twice. *)
Definition insert_batch (k : Passkey) (vouched : option string) (session : string) (d : ADB) : option (ADB * bool) :=
  if may_insert k vouched session d then
    if some_where (fun x => String.eqb (pk_id x) (pk_id k)) (passkeys d) then None
    else Some (passkey_event "ok" "register" (pk_login k) (pk_id k) vouched (set_passkeys (passkeys d ++ [k]) d), true)
  else Some (passkey_event "ok" "register" (pk_login k) (pk_id k) vouched d, false).
Definition remove_batch (id login confirmed : string) (d : ADB) : ADB * bool :=
  let d' := passkey_event "warn" "remove" login id (Some confirmed) d in
  (set_passkeys (without_where (fun k => String.eqb (pk_id k) id && holds login k) (passkeys d)) d', is_some (own_passkey d id login)).
(** PASSKEY_USED_SQL: the counter moves only forward, or there is none. *)
Definition use_ok (id : string) (counter : Z) (k : Passkey) : bool :=
  String.eqb (pk_id k) id && ((pk_counter k <? counter) || (pk_counter k =? 0) && (counter =? 0)).
Definition use_key (counter now : Z) (k : Passkey) : Passkey :=
  {| pk_id := pk_id k; pk_login := pk_login k; pk_credential := pk_credential k; pk_key := pk_key k; pk_alg := pk_alg k; pk_rp := pk_rp k;
     pk_counter := counter; pk_label := pk_label k; pk_created := pk_created k; pk_last := Some now |}.
Definition used (id : string) (counter now : Z) (d : ADB) : ADB * bool :=
  (set_passkeys (update_where (use_ok id counter) (use_key counter now) (passkeys d)) d, some_where (use_ok id counter) (passkeys d)).

(** ** Challenges *)

Definition CHALLENGE_MS : Z := CHALLENGE_MINUTES * 60000.
Definition live_challenge (login : string) (now : Z) (x : Challenge) : bool := String.eqb (ch_login x) login && (now <? ch_expires x).
Definition same_slot (login : string) (p : Purpose) (bound : option string) (x : Challenge) : bool :=
  String.eqb (ch_login x) login && bool_decide (ch_purpose x = p) && ostr_eqb (ch_bound x) bound.
(** The login's expired ones pruned, the one for the same replaced, the new one in while fewer than five live. *)
Definition issue_batch (value login : string) (p : Purpose) (bound : option string) (now : Z) (d : ADB) : option (ADB * bool) :=
  let l := without_where (fun x => String.eqb (ch_login x) login && (ch_expires x <=? now)) (challenges d) in
  let l := without_where (same_slot login p bound) l in
  if zlen (List.filter (live_challenge login now) l) <? LIVE_CHALLENGES then
    if some_where (fun x => String.eqb (ch_value x) value) l then None
    else Some (set_challenges (l ++ [{| ch_value := value; ch_login := login; ch_purpose := p; ch_bound := bound; ch_expires := now + CHALLENGE_MS |}]) d, true)
  else Some (set_challenges l d, false).
Definition issueChallenge (login : string) (p : Purpose) (bound : option string) (challenge : string) : prog ADB (option string) :=
  made ← batch (issue_batch challenge login p bound);
  Ret (if (made : bool) then Some challenge else None).
Definition is_challenge (value : string) (x : Challenge) : bool := String.eqb (ch_value x) value.
Definition good_for (login : string) (p : Purpose) (bound : option string) (now : Z) (x : Challenge) : bool :=
  String.eqb (ch_login x) login && bool_decide (ch_purpose x = p) && ostr_eqb (ch_bound x) bound && (now <? ch_expires x).
Definition take_statement (value login : string) (p : Purpose) (bound : option string) (now : Z) (d : ADB) : ADB * bool :=
  (set_challenges (without_where (is_challenge value) (challenges d)) d,
   match List.find (is_challenge value) (challenges d) with Some x => good_for login p bound now x | None => false end).
Definition takeChallenge (value login : string) (p : Purpose) (bound : option string) : prog ADB bool := stmt (take_statement value login p bound).

(** [new TextDecoder().decode]: what is not UTF-8 is replaced, a character at a time. *)
Definition REPLACEMENT : bytes := [239; 191; 189].
Definition second_of_three (a b : Z) : bool :=
  (between 225 236 a || between 238 239 a) && cont b || (a =? 224) && between 160 191 b || (a =? 237) && between 128 159 b.
Definition second_of_four (a b : Z) : bool :=
  between 241 243 a && cont b || (a =? 240) && between 144 191 b || (a =? 244) && between 128 143 b.
Fixpoint replaced_utf8 (l : bytes) : bytes :=
  match l with
  | [] => []
  | a :: l1 =>
      if a <? 128 then a :: replaced_utf8 l1
      else match l1 with
      | [] => REPLACEMENT
      | b :: l2 =>
          if between 194 223 a && cont b then a :: b :: replaced_utf8 l2
          else if second_of_three a b then
            match l2 with
            | [] => REPLACEMENT
            | c :: l3 => if cont c then a :: b :: c :: replaced_utf8 l3 else (REPLACEMENT ++ replaced_utf8 l2)%list
            end
          else if second_of_four a b then
            match l2 with
            | [] => REPLACEMENT
            | c :: l3 =>
                if cont c then
                  match l3 with
                  | [] => REPLACEMENT
                  | e :: l4 => if cont e then a :: b :: c :: e :: replaced_utf8 l4 else (REPLACEMENT ++ replaced_utf8 l3)%list
                  end
                else (REPLACEMENT ++ replaced_utf8 l2)%list
            end
          else (REPLACEMENT ++ replaced_utf8 l1)%list
      end
  end.
Definition decode_text (l : bytes) : string := text_of (replaced_utf8 (without_bom l)).
(** The challenge a clientDataJSON answers, read before anything else. *)
Definition challengeOf (clientDataJSON : option json) : option string :=
  s ← as_str clientDataJSON;
  if truthy s && (slen s <=? 4096) then
    match fromB64url s "the value" with
    | Ok b => c ← json_parse (decode_text b);
              v ← as_str (field (Some c) "challenge");
              if url_chars 43 43 v then Some v else None
    | _ => None
    end
  else None.

(** ** An assertion, checked *)

Record AssertionFields := { af_credential : string; af_client : string; af_auth : string; af_sig : string; af_handle : string }.
Definition assertion_of (get : string -> option string) : AssertionFields :=
  let s k := default "" (get k) in
  {| af_credential := s "credential"; af_client := s "client_data"; af_auth := s "authenticator_data"; af_sig := s "signature"; af_handle := s "user_handle" |}.
(** A JSON body's [assertion], and a form's fields. *)
Definition assertionIn (v : option json) : AssertionFields := assertion_of (fun k => as_str (field v k)).
Definition assertionForm (p : Params) : AssertionFields := assertion_of (fun k => assoc k p).

Inductive Refusing := x_no_passkey | x_passkey_required | x_stale | x_not_yours | x_other_rp | x_raced | x_verifier (c : WebAuthnCode).
Definition code_word (c : WebAuthnCode) : string :=
  match c with
  | E_encoding => "encoding" | E_cbor => "cbor" | E_client_data => "client_data" | E_type => "type" | E_challenge => "challenge" | E_origin => "origin"
  | E_cross_origin => "cross_origin" | E_auth_data => "auth_data" | E_rp_id => "rp_id" | E_user_present => "user_present" | E_user_verified => "user_verified"
  | E_attested => "attested" | E_credential => "credential" | E_attestation => "attestation" | E_algorithm => "algorithm" | E_key => "key"
  | E_signature => "signature" | E_counter => "counter" | E_user_handle => "user_handle"
  end.
Definition refused_word (r : Refusing) : string :=
  match r with
  | x_no_passkey => "no_passkey" | x_passkey_required => "passkey_required" | x_stale => "challenge" | x_not_yours => "not_yours"
  | x_other_rp => "other_rp" | x_raced => "counter" | x_verifier c => code_word c
  end.
Record Confirmed := { cf_passkey : string; cf_just_now : bool }.
Definition justRegistered (now : Z) (k : Passkey) : bool := negb (is_some (pk_last k)) && (now - pk_created k <? JUST_NOW_MINUTES * 60000).
Definition refusedAct (r : Refusing) : Reply := Refused 403 (refused_word r).

Section Runtime.
Context `{R : Runtime} `{N : Nonces}.

Definition userHandleOf (login : string) : bytes := sha256 (bytes_of ("omarchy-pool passkey user" +:+ newline +:+ login)).
Definition docChallenge (doc : string) : string := toB64url (sha256 (bytes_of doc)).
Definition expected (challenge : string) (rp : RelyingParty) : Expected := {| x_challenge := challenge; x_origin := rp_origin rp; x_rpId := rp_id rp |}.
Definition input_of (f : AssertionFields) : AssertionInput :=
  {| as_client := Some (JStr (af_client f)); as_auth := Some (JStr (af_auth f)); as_sig := Some (JStr (af_sig f));
     as_handle := if truthy (af_handle f) then Some (JStr (af_handle f)) else Some JNull |}.
Definition stored_of (k : Passkey) : StoredKey :=
  {| st_key := pk_key k; st_alg := pk_alg k; st_counter := pk_counter k; st_handle := userHandleOf (pk_login k) |}.
Definition checkAssertion (rp : RelyingParty) (login bound : string) (f : AssertionFields) : prog ADB (Refusing + Confirmed) :=
  if negb (truthy (af_credential f) && truthy (af_client f) && truthy (af_auth f) && truthy (af_sig f)) then
    has ← ask (fun _ d => has_passkey d login); Ret (inl (if (has : bool) then x_passkey_required else x_no_passkey))
  else match challengeOf (Some (JStr (af_client f))) with
  | None => Ret (inl x_stale)
  | Some challenge =>
      good ← takeChallenge challenge login p_confirm (Some bound);
      if negb good then Ret (inl x_stale)
      else
        key ← (if slen (af_credential f) <=? 1400 then ask (fun _ d => by_credential d (af_credential f)) else Ret None);
        match key with
        | None => Ret (inl x_not_yours)
        | Some k =>
            if negb (holds login k) then Ret (inl x_not_yours)
            else if negb (String.eqb (pk_rp k) (rp_id rp)) then Ret (inl x_other_rp)
            else match verifyAssertion (input_of f) (expected challenge rp) (stored_of k) with
            | Spin => Throw
            | Err e => Ret (inl (x_verifier (code e)))
            | Ok (counter, _) =>
                moved ← stmt (fun now d => let u := used (pk_id k) counter now d in (u.1, (u.2, now)));
                let '(moved, now) := moved in
                Ret (if (moved : bool) then inr {| cf_passkey := pk_id k; cf_just_now := justRegistered now k |} else inl x_raced)
            end
        end
  end.

(** ** The person *)

Inductive Need := n_maintainer | n_holder.
Definition maintainerRefusal (c : Caller) : option Reply :=
  if negb (ca_maintains c) then Some (Refused 403 "maintainer_only") else if ca_blocked c then Some (Refused 403 "blocked") else None.
Definition personOnRp (q : Ask) (need : Need) : prog ADB (Reply + Caller * RelyingParty) :=
  match browserSession q with
  | None => Throw
  | Some b_bearer => Ret (inl (Refused 403 "session_only"))
  | Some b_none => Ret (inl (Refused 401 "sign_in"))
  | Some (b_session _) =>
      c ← contributorOf q;
      Ret (match c with
           | None => inl (Refused 401 "sign_in")
           | Some c =>
               match relyingParty q with
               | None => inl (Refused 403 "rp_unavailable")
               | Some rp =>
                   if negb (sameOrigin q) then inl (Refused 403 "origin")
                   else match need, maintainerRefusal c with
                   | n_maintainer, Some no => inl no
                   | _, _ => inr (c, rp)
                   end
               end
           end)
  end.
(** One printable line of 1 to 40 characters; "Passkey" when none. *)
Definition passkeyLabel (raw : option json) : option string :=
  match raw with
  | None | Some JNull | Some (JStr _) =>
      let s := one_line (default "" (as_str raw)) in
      let s := if truthy s then s else "Passkey" in
      if (slen s <=? 40) && str_forallb plain_char s then Some s else None
  | _ => None
  end.

(** ** The routes *)

(** The options the browser's ceremony takes: the challenge, and the credentials it names. *)
Definition options (challenge : string) (keys : list Passkey) : Reply := Done 200 (("challenge", challenge) :: map (fun k => ("credential", pk_credential k)) keys).
Definition handlePasskeyOptions (q : Ask) (draw : string) : door :=
  who ← personOnRp q n_maintainer;
  match who with
  | inl r => answer r
  | inr (c, _) =>
      mine ← ask (fun _ d => passkeys_of d (ca_login c));
      if MAX_PASSKEYS <=? zlen mine then answer (Refused 409 "passkey_limit")
      else
        challenge ← issueChallenge (ca_login c) p_register None draw;
        answer (match challenge with Some x => options x mine | None => Refused 429 "rate_limited" end)
  end.

(** [String(v ?? "")] *)
Fixpoint js_text (v : json) : string :=
  match v with
  | JNull => "null" | JBool b => if b then "true" else "false" | JNum m s => num_text m s | JStr s => s
  | JArr l => join "," (map (fun x => match x with JNull => "" | _ => js_text x end) l)
  | JObj _ => "[object Object]"
  end.
Definition text_or_empty (v : option json) : string := match v with None | Some JNull => "" | Some v => js_text v end.
Definition session_hash (q : Ask) : string := match browserSession q with Some (b_session s) => sha256Hex s | _ => sha256Hex "" end.
Definition registration_of (body : option json) : RegistrationInput :=
  {| in_id := Some (JStr (text_or_empty (field body "id"))); in_client := field body "clientDataJSON";
     in_attestation := Some (JStr (text_or_empty (field body "attestationObject"))) |}.
Definition new_passkey (id login label : string) (rp : RelyingParty) (r : Registered) (now : Z) : Passkey :=
  {| pk_id := id; pk_login := login; pk_credential := rg_id r; pk_key := rg_key r; pk_alg := rg_alg r; pk_rp := rp_id rp; pk_counter := rg_counter r;
     pk_label := label; pk_created := now; pk_last := None |}.
(** Why nothing was inserted, as the door reads it after. *)
Definition not_inserted (q : Ask) (login credential : string) (vouched : option string) : door :=
  taken ← ask (fun _ d => is_some (by_credential d credential));
  if (taken : bool) then answer (Refused 409 "passkey_exists")
  else
    still ← contributorOf q;
    if negb (ostr_eqb (ca_login <$> still) (Some login)) then answer (Refused 401 "sign_in")
    else match vouched with
    | Some v =>
        held ← ask (fun _ d => is_some (own_passkey d v login));
        answer (if (held : bool) then Refused 409 "passkey_limit" else refusedAct x_not_yours)
    | None =>
        has ← ask (fun _ d => has_passkey d login);
        answer (if (has : bool) then refusedAct x_passkey_required else Refused 409 "passkey_limit")
    end.
(** The verified registration stored, with what vouches for it. *)
Definition store_passkey (q : Ask) (c : Caller) (rp : RelyingParty) (body : option json) (label challenge id : string) (vouched : option string) : door :=
  match verifyRegistration (registration_of body) (expected challenge rp) with
  | Spin => Throw
  | Err e => answer (Refused 400 (code_word (code e)))
  | Ok r =>
      ins ← batch (fun now d => insert_batch (new_passkey id (ca_login c) label rp r now) vouched (session_hash q) d);
      if (ins : bool) then answer (Done 201 (("passkey", id) :: match vouched with Some v => [("confirmed_with", v)] | None => [] end))
      else not_inserted q (ca_login c) (rg_id r) vouched
  end.
(** [id] is a draw. *)
Definition handlePasskeyRegister (q : Ask) (body : option json) (id : string) : door :=
  who ← personOnRp q n_maintainer;
  match who with
  | inl r => answer r
  | inr (c, rp) =>
      if negb (match body with Some (JObj _) | Some (JArr _) => true | _ => false end) then answer (Refused 400 "body")
      else match passkeyLabel (field body "label") with
      | None => answer (Refused 400 "label")
      | Some label =>
          match challengeOf (field body "clientDataJSON") with
          | None => answer (Refused 400 "client_data")
          | Some challenge =>
              good ← takeChallenge challenge (ca_login c) p_register None;
              if negb good then answer (Refused 403 "challenge")
              else
                has ← ask (fun _ d => has_passkey d (ca_login c));
                if (has : bool) then
                  ok ← checkAssertion rp (ca_login c) "passkey:add" (assertionIn (field body "assertion"));
                  match ok with
                  | inl r => answer (refusedAct r)
                  | inr k => store_passkey q c rp body label challenge id (Some (cf_passkey k))
                  end
                else store_passkey q c rp body label challenge id None
          end
      end
  end.

Definition handlePasskeyRemove (q : Ask) (id : string) (body : option json) : door :=
  who ← personOnRp q n_holder;
  match who with
  | inl r => answer r
  | inr (c, rp) =>
      row ← ask (fun _ d => own_passkey d id (ca_login c));
      match row with
      | None => answer (Refused 404 "not_found")
      | Some _ =>
          ok ← checkAssertion rp (ca_login c) ("passkey:remove:" +:+ id) (assertionIn (field body "assertion"));
          match ok with
          | inl r => answer (refusedAct r)
          | inr k =>
              gone ← stmt (fun _ d => remove_batch id (ca_login c) (cf_passkey k) d);
              answer (if (gone : bool) then Done 200 [("removed", id); ("confirmed_with", cf_passkey k)] else Refused 404 "not_found")
          end
      end
  end.

(** The options for one draft or act: a challenge bound to it, the login's passkeys. *)
Definition assertionOptions (login bound draw : string) : door :=
  keys ← ask (fun _ d => passkeys_of d login);
  match keys with
  | [] => answer (Refused 403 "no_passkey")
  | _ =>
      challenge ← issueChallenge login p_confirm (Some bound) draw;
      answer (match challenge with Some x => options x keys | None => Refused 429 "rate_limited" end)
  end.
Definition signed_doc (subject : string) : bool :=
  existsb (fun p => starts_with p subject) ["host:pin-passkey:"; "host:widen-envelope:"; "host:set-agent-keys:"].
Definition reset_target (subject : string) : option string :=
  if starts_with "passkey:reset:" subject then let t := str_drop 14 subject in if truthy t then Some t else None else None.
Definition handlePasskeyAssert (q : Ask) (body : option json) (draw : string) : door :=
  who ← personOnRp q n_holder;
  match who with
  | inl r => answer r
  | inr (c, _) =>
      match (s ← as_str (field body "for"); if SUBJECT s then Some s else None) with
      | None => answer (Refused 400 "for")
      | Some subject =>
          if signed_doc subject then answer (Refused 400 "for")
          else match (if starts_with "passkey:remove:" subject then None else maintainerRefusal c) with
          | Some no => answer no
          | None =>
              if String.eqb subject ("passkey:reset:" +:+ ca_login c) then answer (Refused 403 "second_maintainer")
              else if String.eqb subject ("host:cause:" +:+ ca_login c) then answer (Refused 403 "second_maintainer")
              else
                nothing ← match reset_target subject with
                          | Some target => has ← ask (fun _ d => has_passkey d target); Ret (negb has)
                          | None => Ret false
                          end;
                if (nothing : bool) then answer (Refused 409 "nothing_to_reset")
                else
                  first ← (if String.eqb subject "passkey:add" then has ← ask (fun _ d => has_passkey d (ca_login c)); Ret (negb has) else Ret false);
                  if (first : bool) then answer (Refused 409 "first_passkey") else assertionOptions (ca_login c) subject draw
          end
      end
  end.

(** ** A reset *)

Definition reset_event (by_ login action : string) (what : list string) (with_ : option string) (d : ADB) : ADB :=
  if has_passkey d login then add_event {| ev_status := "warn"; ev_action := action; ev_login := login; ev_by := by_; ev_what := what; ev_with := with_ |} d else d.
Definition grant_lines (by_ login : string) (now : Z) (d : ADB) : ADB :=
  if has_passkey d login then
    fold_left (fun d g => add_event {| ev_status := "warn"; ev_action := "revoke_grant"; ev_login := login; ev_by := by_; ev_what := [gr_id g]; ev_with := None |} d)
      (live_grants login now d) d
  else d.
Definition reset_grants (login : string) (now : Z) (d : ADB) : ADB :=
  if has_passkey d login then set_grants (update_where (fun g => of_login login g && live_grant now g) (revoke now "reset") (grants d)) d else d.
Definition reset_token (login mark : string) (d : ADB) : option ADB :=
  if has_passkey d login && is_some (accounts d !! login) then
    if held_by_another login (fun a => String.eqb (ac_token a) mark) d then None else Some (on_account login (set_token mark) d)
  else Some d.
Record ResetSaid := { rs_line : bool; rs_removed : list string; rs_grants : list string }.
(** The reset's batch, a statement after the other. *)
Definition reset_batch (by_ login confirmed mark : string) (ids : list string) (now : Z) (d : ADB) : option (ADB * ResetSaid) :=
  let line := has_passkey d login in
  let revoked := if line then map gr_id (live_grants login now d) else [] in
  let d := reset_event by_ login "reset" ids (Some confirmed) d in
  let d := reset_event by_ login "revoke_token" [] None d in
  let d := grant_lines by_ login now d in
  let d := reset_grants login now d in
  let d := discard_drafts (Some login) now d in
  let d := drop_unswapped login d in
  d ← reset_token login mark d;
  let removed := map pk_id (List.filter (holds login) (passkeys d)) in
  let d := set_passkeys (without_where (holds login) (passkeys d)) d in
  let d := set_challenges (without_where (fun x => String.eqb (ch_login x) login) (challenges d)) d in
  Some (on_account login (set_session None) d, {| rs_line := line; rs_removed := removed; rs_grants := revoked |}).
(** [draw]: the mark's hex; [unwritten]: the bucket refused the record. *)
Definition handlePasskeyReset (q : Ask) (body : option json) (draw : string) (unwritten : bool) : door :=
  who ← personOnRp q n_maintainer;
  match who with
  | inl r => answer r
  | inr (c, rp) =>
      match (s ← as_str (field body "login"); if login_text s then Some s else None) with
      | None => answer (Refused 400 "login")
      | Some login =>
          if String.eqb login (ca_login c) then answer (Refused 403 "second_maintainer")
          else
            let reason := one_line (default "" (as_str (field body "reason"))) in
            if (slen reason <? RESET_REASON_MIN) || (RESET_REASON_MAX <? slen reason) || negb (str_forallb plain_char reason) then answer (Refused 400 "reason")
            else
              held ← ask (fun _ d => passkeys_of d login);
              match held with
              | [] => answer (Refused 409 "nothing_to_reset")
              | _ =>
                  ok ← checkAssertion rp (ca_login c) ("passkey:reset:" +:+ login) (assertionIn (field body "assertion"));
                  match ok with
                  | inl r => answer (refusedAct r)
                  | inr k =>
                      said ← batch (reset_batch (ca_login c) login (cf_passkey k) (RESET_TOKEN_MARK +:+ draw) (map pk_id held));
                      if negb (rs_line said) || match rs_removed said with [] => true | _ => false end then answer (Refused 409 "nothing_to_reset")
                      else
                        _ ← (if unwritten then
                               stmt (fun _ d => (add_event {| ev_status := "error"; ev_action := "reset"; ev_login := login; ev_by := ca_login c; ev_what := []; ev_with := None |} d, tt))
                             else Ret tt);
                        answer (Done 200 (("reset", login) :: ("confirmed_with", cf_passkey k) :: map (fun i => ("passkey", i)) (rs_removed said)))
                  end
              end
      end
  end.

(** ** The web's acts, and a draft's confirmation *)

(** The door's half of an act a passkey confirms; [doc], the document it signs. *)
Definition webGate (q : Ask) (login subject : string) (doc : option string) (assertion : option json) : prog ADB (Reply + Confirmed) :=
  match rq_auth q with
  | Some _ => Ret (inl (Refused 403 "session_only"))
  | None =>
      match relyingParty q with
      | None => Ret (inl (Refused 403 "rp_unavailable"))
      | Some rp =>
          if negb (sameOrigin q) then Ret (inl (Refused 403 "origin"))
          else
            let for_doc := match doc with
                           | Some doc => ostr_eqb (challengeOf (field assertion "client_data")) (Some (docChallenge doc))
                           | None => true
                           end in
            if negb for_doc then Ret (inl (refusedAct x_stale))
            else
              ok ← checkAssertion rp login subject (assertionIn assertion);
              Ret (match ok with inl r => inl (refusedAct r) | inr k => inr k end)
      end
  end.
Definition confirmPasskey (q : Ask) (login draft : string) (form : Params) : prog ADB (Reply + Confirmed) :=
  match relyingParty q with
  | None => Ret (inl (Refused 403 "rp_unavailable"))
  | Some rp =>
      ok ← checkAssertion rp login draft (assertionForm form);
      Ret (match ok with inl r => inl (refusedAct r) | inr k => inr k end)
  end.
End Runtime.
