(* ===== verification/Drafts.v ===== *)
(** * An agent's drafts, and the decisions a passkey confirms (worker/src/routes/agents.ts, and the doors of routes/review.ts and
    routes/blocks.ts that ask for one)

    An agent drafts a verdict; its person opens the link in their browser and confirms it, and only then does the web's own handler
    decide. The handlers are ReviewDoors' and Blocks', their statements one by one among everyone else's. *)
From S2P Require Import Prelude JsTime Json JsonText Bytes WebAuthn Program.
From S2P Require Import Tasks Targets Rings Governance Projects Review ReviewDoors Blocks Delivery Contributors Requests Accounts Grants Passkeys.
Local Open Scope string_scope.
Local Open Scope Z_scope.

Definition with_draft (used : option Z) (s : DraftState) (x : Draft) : Draft :=
  {| dr_id := dr_id x; dr_grant := dr_grant x; dr_login := dr_login x; dr_agent := dr_agent x; dr_client := dr_client x; dr_verdict := dr_verdict x;
     dr_note := dr_note x; dr_name := dr_name x; dr_task := dr_task x; dr_facts := dr_facts x; dr_created := dr_created x; dr_expires := dr_expires x;
     dr_used := used; dr_state := s |}.
Definition is_draft (id : string) (x : Draft) : bool := String.eqb (dr_id x) id.
Definition find_draft (id : string) (d : ADB) : option Draft := List.find (is_draft id) (drafts d).
(** A draft as its agent reads it: a waiting one past its thirty minutes is expired. *)
Definition draft_word (now : Z) (x : Draft) : string :=
  match dr_state x with
  | ds_waiting => if dr_expires x <=? now then "expired" else "waiting"
  | ds_confirmed => "confirmed" | ds_refused => "refused" | ds_discarded => "discarded"
  end.

(** ** The facts a draft is made on *)

Definition jopt {A} (f : A -> json) (o : option A) : json := match o with Some x => f x | None => JNull end.
Definition target_word (s : TargetState) : string :=
  match s with
  | waiting => "waiting" | building => "building" | built => "built" | not_supported => "not_supported" | reviewing => "reviewing"
  | reviewed => "reviewed" | Targets.approved => "approved" | published => "published" | not_shipping => "not_shipping"
  end.
Definition by_name (x y : string * Target) : Z := if str_ltb x.1 y.1 then -1 else if str_ltb y.1 x.1 then 1 else 0.
Definition facts_json (id : Z) (t : RTask) (x : Read) : json :=
  let f := rd_facts x in
  let p := fa_package f in
  JObj [("task", JInt id); ("status", JStr (status_word (rt_status t))); ("version", jopt JStr (rt_version t)); ("owner", jopt JStr (fa_owner f));
        ("requesters", JArr (map JStr (fa_requesters f))); ("standing", JBool (fa_standing f)); ("already", JBool (fa_already f));
        ("claim", JArr (map (fun n => JInt n) (fa_claim f)));
        ("inFlight", jopt (fun b => JObj [("id", JInt b.1); ("status", JStr (status_word b.2))]) (fa_in_flight f));
        ("building", jopt (fun b => JObj [("id", JInt (bu_id b)); ("arch", JStr (bu_arch b))]) (pf_building p));
        ("rebuilding", jopt (fun b => JObj [("id", JInt (re_id b)); ("arch", JStr (re_arch b)); ("status", JStr (status_word (re_status b))); ("review", JInt (re_review b))]) (pf_rebuilding p));
        ("unbuilt", jopt (fun s => JObj [("id", JInt (ev_id s)); ("arch", JStr (ev_arch s)); ("version", jopt JStr (ev_version s))]) (pf_unbuilt p));
        ("superseded", jopt (fun s => JObj [("arch", JStr (rt_arch t)); ("task", jopt (fun n => JInt n) (tg_task s)); ("status", JStr (target_word (tg_status s)))]) (pf_superseded p));
        ("targets", JArr (map (fun x => JArr [JStr x.1; JStr (target_word (tg_status x.2)); jopt (fun n => JInt n) (tg_task x.2)]) (sort_by by_name (rd_targets x))))].
Definition DRAFTED (v : DraftVerdict) : option Decision :=
  match v with dv_approve => Some approve | dv_changes => Some changes | dv_reject => Some reject | dv_block => None end.
Definition verdict_word (v : DraftVerdict) : string :=
  match v with dv_approve => "approve" | dv_changes => "request_changes" | dv_reject => "reject" | dv_block => "block" end.
Definition verdict_of (s : string) : option DraftVerdict := List.find (fun v => String.eqb (verdict_word v) s) [dv_approve; dv_changes; dv_reject; dv_block].
Definition asks_passkey (v : DraftVerdict) : bool := existsb (fun x => bool_decide (x = v)) PASSKEY_VERDICTS.

(** A handler's answer as a door's. *)
Definition reply_of (a : Answer) : Reply :=
  match a with
  | NotFound => Refused 404 "not_found" | Denied r => Refused (rf_status r) (default "" (code_of (rf_why r)))
  | BadInput status code => Refused status code | DecidedAlready => Refused 409 "decided" | DoneAs id => Done 200 [("id", zstr id)]
  end.
Definition done (a : Answer) : bool := match a with DoneAs _ => true | _ => false end.

Section Runtime.
Context `{R : Runtime} `{N : Nonces}.

(** The web's predicate on one build for a verdict: the build and the facts' digest, or its refusal. *)
Definition verdict_read (c : Reviewer) (id : Z) (w : Decision) (d : VDB) : Answer + RTask * string :=
  match vtasks d !! id with
  | Some t =>
      if negb (is_build t) then inl NotFound
      else
        let x := factsOf d id t in
        match decisions (Some c) (row_of id t) (rd_facts x) w with
        | Some r => inl (Denied r)
        | None => inr (t, sha256Hex (json_text (facts_json id t x)))
        end
  | None => inl NotFound
  end.
(** The facts a block is drafted on: who has the name, for what request, not blocked. *)
Definition blockFacts (name : string) (g : Registration) (request : option Z) : string :=
  sha256Hex (json_text (JObj [("name", JStr name); ("owner", JStr (rg_owner g)); ("request", jopt (fun n => JInt n) request); ("blocked_at", JNull)])).
Definition request_of (d : ADB) (name : string) : option Z := n ← names (base d) !! name; nc_request n.
(** Both, as a draft and its confirmation read them: the build and the digest. *)
Definition drafted_on (c : Reviewer) (v : DraftVerdict) (name : string) (task : Z) (note : string) (d : ADB) : Reply + option Z * string :=
  match DRAFTED v with
  | None =>
      match blockRefusal c name (Some note) (review_of d) with
      | inl (status, code) => inl (Refused status code)
      | inr g => inr (None, blockFacts name g (request_of d name))
      end
  | Some w =>
      match verdict_read c task w (review_of d) with
      | inl a => inl (reply_of a)
      | inr (t, facts) => if String.eqb (rt_name t) name then inr (Some task, facts) else inl (Refused 400 "name")
      end
  end.

(** ** A draft *)

(** [/^[a-z0-9@._+-]{1,100}$/] *)
Definition package_text (s : string) : bool :=
  str_forallb (fun c => is_lower c || is_digit c || existsb (Ascii.eqb c) (String.list_ascii_of_string "@._+-")) s && (1 <=? slen s) && (slen s <=? 100).
Definition new_draft (id : string) (a : AgentCaller) (v : DraftVerdict) (note name : string) (task : option Z) (facts : string) (now : Z) : Draft :=
  {| dr_id := id; dr_grant := ag_grant a; dr_login := ca_login (ag_who a); dr_agent := ag_agent a; dr_client := ag_client a; dr_verdict := v;
     dr_note := note; dr_name := name; dr_task := task; dr_facts := facts; dr_created := now; dr_expires := now + DRAFT_MINUTES * 60000;
     dr_used := None; dr_state := ds_waiting |}.
Definition draft_insert (x : Draft) (d : ADB) : option (ADB * unit) :=
  if some_where (is_draft (dr_id x)) (drafts d) then None else Some (set_drafts (drafts d ++ [x]) d, tt).
Definition handleDraft (a : AgentCaller) (body : option json) (id : string) : door :=
  match (s ← as_str (field body "verdict"); verdict_of s) with
  | None => answer (Refused 400 "verdict")
  | Some v =>
      let need := match v with dv_block => block_scope | _ => review_scope end in
      if negb (scope_in need (ag_scopes a)) then answer (Refused 403 "scope")
      else
        let name := default "" (as_str (field body "name")) in
        let note := trim (default "" (as_str (field body "note"))) in
        if negb (package_text name) then answer (Refused 400 "name")
        else if (slen note <? 4) || (500 <? slen note) then answer (Refused 400 "note")
        else
          let task := as_int (field body "task") in
          if negb (is_some task) && is_some (DRAFTED v) then answer (Refused 400 "task")
          else
            no ← dayCount (ag_who a) k_drafts;
            match no with
            | Some r => answer r
            | None =>
                on ← ask (fun _ d => drafted_on (ca_who (ag_who a)) v name (default 0 task) note d);
                match on with
                | inl r => answer r
                | inr (task, facts) =>
                    _ ← batch (fun now d => draft_insert (new_draft id a v note name task facts now) d);
                    answer (Done 201 [("draft", id)])
                end
            end
  end.
Definition handleGetDraft (a : AgentCaller) (id : string) : door :=
  x ← ask (fun now d => x ← find_draft id d; Some (x, draft_word now x));
  answer (match x with
          | Some (x, word) => if String.eqb (dr_login x) (ca_login (ag_who a)) then Done 200 [("draft", id); ("state", word)] else Refused 404 "not_found"
          | None => Refused 404 "not_found"
          end).

(** ** The decision *)

(** Who a decision came through, as its rows keep it. *)
Definition through_json (x : Draft) (now : Z) (k : option Confirmed) : json :=
  JObj ([("agent", JStr (dr_agent x)); ("client", jopt JStr (dr_client x)); ("grant", JStr (dr_grant x)); ("draft", JStr (dr_id x));
         ("drafted_at", JStr (iso (dr_created x))); ("confirmed_at", JStr (iso now))]
        ++ match k with Some k => ("passkey", JStr (cf_passkey k)) :: (if cf_just_now k then [("registered_just_now", JBool true)] else []) | None => [] end)%list.
Definition through_of (x : Draft) (now : Z) (k : option Confirmed) : Through := {| th_agent := json_text (through_json x now k); th_passkey := cf_passkey <$> k |}.
Definition on_review {A} (f : Z -> VDB -> VDB * A) : prog ADB A := stmt (fun now d => let r := f now (review_of d) in (set_review r.1 d, r.2)).
Definition review_read : prog ADB VDB := ask (fun _ d => review_of d).
(** A handler of the review as its statements; where the pool's side fails, if it does: before its batch, or after it. *)
Inductive Fails := f_before | f_after.
Definition two_steps {K} (take : VDB -> Z -> VDB -> VDB * (Answer + K)) (finish : K -> VDB -> VDB) (said : K -> Answer) (fails : option Fails) : prog ADB (option Answer) :=
  later ← review_read;
  match fails with
  | Some f_before => Ret None
  | _ =>
      t ← on_review (take later);
      match t, fails with
      | inl a, _ => Ret (Some a)
      | inr _, Some f_after => Ret None
      | inr k, _ => _ ← on_review (fun _ d => (finish k d, tt)); Ret (Some (said k))
      end
  end.
Definition approving (c : Reviewer) (id : Z) (b : ApproveBody) (through : option Through) (gate : Gate) (read : VDB) : option Fails -> prog ADB (option Answer) :=
  two_steps (fun later now d => takeApproval c id b through gate now read later d) finishApproval (fun k => DoneAs (tk_review k)).
Definition closing (c : Reviewer) (id : Z) (note : option string) (ask_changes : bool) (through : option Through) (read : VDB) : option Fails -> prog ADB (option Answer) :=
  two_steps (fun later now d => takeClosing c id note ask_changes through now read later d) finishClosing (fun k => DoneAs (cl_review k)).
Definition blocking (c : Reviewer) (name : string) (reason : option string) (through : option Through) (gate : Gate) (read : VDB) : option Fails -> prog ADB (option Answer) :=
  two_steps (fun _ _ d => takeBlock c name reason through gate read d) finishBlock (fun _ => DoneAs 0).
Definition deciding (c : Reviewer) (x : Draft) (through : Through) (fails : option Fails) : prog ADB (option Answer) :=
  let id := default 0 (dr_task x) in
  read ← review_read;
  match dr_verdict x with
  | dv_approve => approving c id {| bo_note := Some (dr_note x); bo_only := None; bo_reason := None |} (Some through) None read fails
  | dv_changes => closing c id (Some (dr_note x)) true (Some through) read fails
  | dv_reject => closing c id (Some (dr_note x)) false (Some through) read fails
  | dv_block => blocking c (dr_name x) (Some (dr_note x)) (Some through) None read fails
  end.

(** ** The confirmation *)

Definition confirmParts (session id : string) : list string := ["confirm"; session; id].
Definition ownDraft (c : Caller) (id : string) : prog ADB (Reply + Draft) :=
  x ← (if draft_id id then ask (fun _ d => find_draft id d) else Ret None);
  Ret (match x with
       | None => inl (Refused 404 "not_found")
       | Some x => if String.eqb (dr_login x) (ca_login c) then inr x else inl (Refused 403 "not_yours")
       end).
(** DRAFT_GRANT_SQL: the grant is there and not revoked. *)
Definition grant_stands (id : string) (d : ADB) : bool := match List.find (fun g => String.eqb (gr_id g) id) (grants d) with Some g => unrevoked g | None => false end.
(** The facts of now, where the predicate allows the verdict. *)
Definition facts_now (c : Reviewer) (x : Draft) (d : ADB) : option string :=
  match DRAFTED (dr_verdict x) with
  | None => match blockRefusal c (dr_name x) (Some (dr_note x)) (review_of d) with
            | inl _ => None | inr g => Some (blockFacts (dr_name x) g (request_of d (dr_name x))) end
  | Some w => match verdict_read c (default 0 (dr_task x)) w (review_of d) with inl _ => None | inr (_, facts) => Some facts end
  end.
(** Whether the draft may be confirmed now: its grant lives, the predicate allows it, and the facts are those it was made on. *)
Definition nowRefusal (c : Caller) (x : Draft) : prog ADB (option Reply) :=
  live ← ask (fun _ d => grant_stands (dr_grant x) d);
  if negb live then Ret (Some (Refused 409 "grant"))
  else
    on ← ask (fun _ d => facts_now (ca_who c) x d);
    Ret (match on with
         | None => Some (Refused 409 "refused")
         | Some facts => if String.eqb facts (dr_facts x) then None else Some (Refused 409 "changed")
         end).
(** [UPDATE drafts SET used_at = now, state = ? WHERE id = ? AND login = ? AND used_at IS NULL], and SPEND_SQL where [unexpired]. *)
Definition spendable (id login : string) (unexpired : bool) (now : Z) (x : Draft) : bool :=
  is_draft id x && String.eqb (dr_login x) login && negb (is_some (dr_used x)) && (negb unexpired || (now <? dr_expires x)).
Definition spend (id login : string) (unexpired : bool) (s : DraftState) (now : Z) (d : ADB) : ADB * bool :=
  (set_drafts (update_where (spendable id login unexpired now) (with_draft (Some now) s) (drafts d)) d, some_where (spendable id login unexpired now) (drafts d)).
Definition set_outcome (id : string) (s : DraftState) (d : ADB) : ADB :=
  set_drafts (update_where (is_draft id) (fun x => with_draft (dr_used x) s x) (drafts d)) d.
(** [json_extract(agent, '$.draft')] of the rows since the draft, and a block of the person's. *)
Definition decidedBy (x : Draft) (login : string) (d : VDB) : bool :=
  match dr_verdict x with
  | dv_block => match g ← registrations d !! dr_name x; rg_blocked g with Some by_ => String.eqb by_ login | None => false end
  | _ => existsb (fun a => String.eqb (ap_name a.2) (dr_name x) && (dr_created x <=? ap_created a.2)
                           && ostr_eqb (t ← ap_agent a.2; v ← json_parse t; as_str (field (Some v) "draft")) (Some (dr_id x))) (map_to_list (approvals d))
  end.
(** [form]: the body's fields, if it is a form; [fails]: where the pool's side fails, if it does. *)
Definition handleConfirm (q : Ask) (id : string) (form : option Params) (fails : option Fails) : door :=
  who ← personInBrowser q;
  match who with
  | inl r => answer r
  | inr (c, session) =>
      if negb (sameOrigin q) then answer (Refused 403 "origin")
      else match form with
      | None => answer (Refused 400 "form")
      | Some form =>
          found ← ownDraft c id;
          match found with
          | inl r => answer r
          | inr x =>
              if negb (sameNonce (default "" (assoc "nonce" form)) (formNonce (confirmParts (sha256Hex session) (dr_id x)))) then answer (Refused 403 "nonce")
              else if ostr_eqb (assoc "action" form) (Some "discard") then
                gone ← stmt (fun now d => spend (dr_id x) (ca_login c) false ds_discarded now d);
                answer (if (gone : bool) then Done 200 [("discarded", dr_id x)] else Refused 409 "spent")
              else if is_some (dr_used x) then answer (Refused 409 "spent")
              else
                now ← ask (fun now _ => now);
                if dr_expires x <=? now then answer (Refused 410 "expired")
                else
                  pk ← (if asks_passkey (dr_verdict x) then
                          k ← confirmPasskey q (ca_login c) (dr_id x) form; Ret (match k with inl r => inl r | inr k => inr (Some k) end)
                        else Ret (inr None));
                  match pk with
                  | inl r => answer r
                  | inr k =>
                      if match dr_verdict x with dv_reject | dv_block => true | _ => false end && negb (String.eqb (trim (default "" (assoc "name" form))) (dr_name x))
                      then answer (Refused 400 "name")
                      else
                        no ← nowRefusal c x;
                        match no with
                        | Some r => _ ← stmt (fun now d => ((spend (dr_id x) (ca_login c) false ds_refused now d).1, tt)); answer r
                        | None =>
                            once ← stmt (fun now d => spend (dr_id x) (ca_login c) true ds_confirmed now d);
                            if negb once then answer (Refused 409 "spent")
                            else
                              now ← ask (fun now _ => now);
                              a ← deciding (ca_who c) x (through_of x now k) fails;
                              match a with
                              | None =>
                                  stands ← ask (fun _ d => decidedBy x (ca_login c) (review_of d));
                                  _ ← stmt (fun _ d => (set_outcome (dr_id x) (if (stands : bool) then ds_confirmed else ds_refused) d, tt));
                                  answer (Refused 500 (if (stands : bool) then "unfinished" else "failed"))
                              | Some a =>
                                  _ ← stmt (fun _ d => (set_outcome (dr_id x) (if done a then ds_confirmed else ds_refused) d, tt));
                                  answer (reply_of a)
                              end
                        end
                  end
          end
      end
  end.
(** The options for the draft's passkey. *)
Definition handleConfirmChallenge (q : Ask) (id : string) (form : option Params) (draw : string) : door :=
  who ← personInBrowser q;
  match who with
  | inl r => answer r
  | inr (c, session) =>
      if negb (sameOrigin q) then answer (Refused 403 "origin")
      else
        x ← ask (fun now d => x ← find_draft id d; Some (x, now));
        match x with
        | None => answer (Refused 404 "not_found")
        | Some (x, now) =>
            if negb (String.eqb (dr_login x) (ca_login c)) then answer (Refused 404 "not_found")
            else if negb match form with Some f => sameNonce (default "" (assoc "nonce" f)) (formNonce (confirmParts (sha256Hex session) (dr_id x))) | None => false end
            then answer (Refused 403 "nonce")
            else if negb (asks_passkey (dr_verdict x)) then answer (Refused 400 "no_passkey_needed")
            else if is_some (dr_used x) then answer (Refused 409 "spent")
            else if dr_expires x <=? now then answer (Refused 410 "expired")
            else match relyingParty q with
            | None => answer (Refused 403 "rp_unavailable")
            | Some _ => assertionOptions (ca_login c) (dr_id x) draw
            end
        end
  end.

(** ** The web's own acts *)

(** A handler with its gate shut answers before it or at it: at it, the person is asked. *)
Definition at_gate (a : Answer) : bool := match a with BadInput 403 "passkey_required" => true | _ => false end.
Definition gated (q : Ask) (login : string) (subject : VDB -> string) (assertion : option json) (shut : VDB -> Answer) (act : VDB -> Gate -> door) : door :=
  read ← review_read;
  if negb (at_gate (shut read)) then answer (reply_of (shut read))
  else
    gate ← webGate q login (subject read) None assertion;
    match gate with
    | inl r => answer r
    | inr k => act read (Some (inr (cf_passkey k)))
    end.
Definition said_of (a : option Answer) : door := match a with Some a => answer (reply_of a) | None => Throw end.
Definition approve_subject (id : Z) (b : ApproveBody) (read : VDB) : string :=
  "approve:" +:+ zstr id +:+ match bo_only b, vtasks read !! id with Some _, Some t => ":" +:+ rt_arch t | _, _ => "" end.
Definition refused_by {K} (r : VDB * (Answer + K)) : Answer := match r.2 with inl a => a | inr _ => NotFound end.
(** POST /factory/tasks/:id/approve and the two blocks, from the page. *)
Definition webApprove (q : Ask) (id : Z) (b : ApproveBody) (assertion : option json) : door :=
  c ← contributorOf q;
  match c with
  | None => answer (Refused 401 "sign_in")
  | Some c =>
      gated q (ca_login c) (approve_subject id b) assertion
        (fun read => refused_by (takeApproval (ca_who c) id b None None 0 read read read))
        (fun read gate => a ← approving (ca_who c) id b None gate read None; said_of a)
  end.
Definition webBlockPackage (q : Ask) (name : string) (reason : option string) (assertion : option json) : door :=
  c ← contributorOf q;
  match c with
  | None => answer (Refused 401 "sign_in")
  | Some c =>
      gated q (ca_login c) (fun _ => "block:package:" +:+ name) assertion
        (fun read => refused_by (takeBlock (ca_who c) name reason None None read read))
        (fun read gate => a ← blocking (ca_who c) name reason None gate read None; said_of a)
  end.
(** BLOCK_GRANTS_SQL and DISCARD_SQL, in the block's batch. *)
Definition block_grants (login : string) (now : Z) (d : ADB) : ADB :=
  discard_drafts (Some login) now (set_grants (update_where (fun g => of_login login g && unrevoked g) (revoke now "blocked") (grants d)) d).
Definition block_batch (c : Reviewer) (login : string) (reason : option string) (gate : Gate) (read : VDB) (now : Z) (d : ADB) : ADB * Answer :=
  let r := handleBlockContributor c login reason gate read (review_of d) in
  (if done r.2 then block_grants login now (set_review r.1 d) else d, r.2).
Definition webBlockContributor (q : Ask) (login : string) (reason : option string) (assertion : option json) : door :=
  c ← contributorOf q;
  match c with
  | None => answer (Refused 401 "sign_in")
  | Some c =>
      gated q (ca_login c) (fun _ => "block:contributor:" +:+ login) assertion
        (fun read => (handleBlockContributor (ca_who c) login reason None read read).2)
        (fun read gate => a ← stmt (block_batch (ca_who c) login reason gate read); answer (reply_of a))
  end.

(** ** An agent's claim *)

Definition agentClaim (a : AgentCaller) (id : Z) (worker : option string) : door :=
  no ← dayCount (ag_who a) k_claims;
  match no with
  | Some r => answer r
  | None =>
      read ← review_read;
      later ← review_read;
      x ← on_review (fun now d => handleProjectBuild (ca_who (ag_who a)) id worker now read later d);
      answer (reply_of x)
  end.
Definition agentRelease (a : AgentCaller) (id : Z) (reason : option string) : door :=
  no ← dayCount (ag_who a) k_claims;
  match no with
  | Some r => answer r
  | None => read ← review_read; x ← on_review (fun _ d => handleRelease (ca_who (ag_who a)) id reason read d); answer (reply_of x)
  end.
End Runtime.
