(* ===== verification/AccountRuns.v ===== *)
(** Every interleaving of the accounts' doors: what a statement of theirs does to the tables ([touch]), the requests that may run, and what
    each statement leaves alone and does to the table it writes (Accounts.v, Grants.v, Passkeys.v, Drafts.v). *)
From S2P Require Import Prelude JsTime Json JsonText Bytes WebAuthn Program.
From S2P Require Import Tasks Targets Rings Governance Projects Review ReviewDoors Blocks Delivery Contributors Requests Accounts Grants Passkeys Drafts.
Local Open Scope string_scope.
Local Open Scope Z_scope.

(** ** What a statement does *)

(** [L]: whose sign-ins, tokens and grants they may be. *)
Inductive touch (L : string -> Prop) (now : Z) (d : ADB) : ADB -> Prop :=
| u_same : touch L now d d
| u_seen login : touch L now d (seen_now login now d)
| u_sign_in login role session unset d' u : L login -> signed_in login role session unset now d = Some (d', u) -> touch L now d d'
| u_sign_out session : touch L now d (signed_out session d)
| u_registered login role token d' b : registered login role token now d = Some (d', b) -> touch L now d d'
| u_token login token d' u : L login -> new_token login token d = Some (d', u) -> touch L now d d'
| u_grant id login a code d' b : L login -> grant_insert id login a code now d = Some (d', b) -> touch L now d d'
| u_swap hash code challenge d' g : swap_batch hash code challenge now d = Some (d', g) -> touch L now d d'
| u_logout hash : touch L now d (logout_batch hash now d).1
| u_revoke id login : touch L now d (revoke_batch id login now d).1
| u_used_grant id : touch L now d (used_now id now d)
| u_count k c : touch L now d (day_statement k (utcDay now) (ca_login c) (dayCap k c) d).1
| u_issue value login p bound d' b : issue_batch value login p bound now d = Some (d', b) -> touch L now d d'
| u_take value login p bound : touch L now d (take_statement value login p bound now d).1
| u_insert k vouched session d' b : pk_created k = now -> pk_last k = None -> insert_batch k vouched session d = Some (d', b) -> touch L now d d'
| u_used id counter : touch L now d (used id counter now d).1
| u_remove id login confirmed : touch L now d (remove_batch id login confirmed d).1
| u_reset by_ login confirmed mark ids d' s : reset_batch by_ login confirmed mark ids now d = Some (d', s) -> touch L now d d'
| u_line e : touch L now d (add_event e d)
| u_draft x d' u : dr_used x = None -> draft_insert x d = Some (d', u) -> touch L now d d'
| u_spend id login unexpired s : touch L now d (spend id login unexpired s now d).1
| u_outcome id s : touch L now d (set_outcome id s d)
| u_review v : touch L now d (set_review v d)
| u_block c login reason gate read : touch L now d (block_batch c login reason gate read now d).1.
#[export] Hint Constructors touch : prog.


(** One step of a handler at a time. *)
Ltac walk_one :=
  match goal with
  | |- steps _ _ _ (mbind _ _) => apply steps_bind with (Q := fun _ => True); [|intros ? _]
  | |- steps _ _ _ (match ?x with _ => _ end) => destruct x
  | |- steps _ _ _ (let '(_, _) := ?x in _) => destruct x
  | |- steps _ _ _ (ask _) => apply steps_ask; [intros; apply u_same|done]
  | |- steps _ _ _ review_read => apply steps_ask; [intros; apply u_same|done]
  | |- steps _ _ _ (on_review _) => apply steps_stmt; intros; split; [apply u_review|done]
  | |- steps _ _ _ (stmt _) => apply steps_stmt; intros; split; [cbv zeta; cbn [fst snd]; eauto with prog|done]
  | |- steps _ _ _ (batch _) => apply steps_batch; [intros; apply u_same|intros ? ? ? ? _ ?; split; [first [solve [eauto with prog] | eapply u_insert; [| |eassumption]; done | eapply u_draft; [|eassumption]; done]|done]]
  | |- steps _ _ _ _ => done
  end.
Ltac walk := intros; repeat (cbv zeta; walk_one).

Section Walks.
Context `{R : Runtime} `{N : Nonces}.
(** From tables where [I] holds a request is only of someone [L] allows. *)
Context (I : Z -> ADB -> Prop) (L : string -> Prop).
Definition allowed (o : option Caller) : Prop := match o with Some c => L (ca_login c) | None => True end.
Hypothesis callers : forall q, steps I (touch L) allowed (contributorOf q).
Abbreviation walks := (steps I (touch L) (fun _ => True)).

Lemma contributorOf_walks q : walks (contributorOf q).
Proof. by eapply steps_mono; [| | |apply callers]. Qed.
Hint Resolve contributorOf_walks : prog.
Ltac walks_in := intros; repeat (cbv zeta; first [solve [auto with prog nocore] | walk_one]).

Lemma callback_walks q cb gh token unset : (forall u, gh_user gh = inr u -> L (gu_login u)) -> walks (handleAuthCallback q cb gh token unset).
Proof. intros Hu. unfold handleAuthCallback. destruct (gh_user gh) as [|u]; [walks_in|]. specialize (Hu u eq_refl). walks_in. Qed.
Lemma logout_walks q : walks (handleLogout q).
Proof. unfold handleLogout. walks_in. Qed.
Lemma register_walks t u token : walks (handleRegister t u token).
Proof. unfold handleRegister. walks_in. Qed.
Lemma new_token_walks c token : L (ca_login c) -> walks (handleNewToken c token).
Proof. unfold handleNewToken. walks_in. Qed.
Definition in_browser (o : Reply + Caller * string) : Prop := match o with inr (c, _) => L (ca_login c) | inl _ => True end.
Lemma in_browser_callers q : steps I (touch L) in_browser (personInBrowser q).
Proof.
  unfold personInBrowser. destruct (browserSession q) as [[s| |]|]; try done. eapply steps_bind; [apply callers|]. by intros [c|] Hc.
Qed.
Lemma in_browser_walks q : walks (personInBrowser q).
Proof. by eapply steps_mono; [| | |apply in_browser_callers]. Qed.
Lemma on_rp_walks q need : walks (personOnRp q need).
Proof. unfold personOnRp. walks_in. Qed.
Lemma assertion_walks rp login bound f : walks (checkAssertion rp login bound f).
Proof. unfold checkAssertion, takeChallenge. walks_in. Qed.
Lemma issue_walks login p bound draw : walks (issueChallenge login p bound draw).
Proof. unfold issueChallenge. walks_in. Qed.
Lemma counted_walks c k : walks (dayCount c k).
Proof. unfold dayCount. walks_in. Qed.
Hint Resolve in_browser_walks on_rp_walks assertion_walks issue_walks counted_walks : prog.
Lemma page_walks q p : walks (handleGrantPage q p).
Proof. unfold handleGrantPage. walks_in. Qed.
Lemma grant_walks q form spent id code : walks (handleGrant q form spent id code).
Proof. unfold handleGrant. eapply steps_bind; [apply in_browser_callers|]. intros [no|[c s]] Hc; [done|]. cbn in Hc. walks_in. Qed.
Lemma swap_walks body spent token : walks (handleSwap body spent token).
Proof. unfold handleSwap. walks_in. Qed.
Lemma agent_logout_walks q : walks (handleAgentLogout q).
Proof. unfold handleAgentLogout. walks_in. Qed.
Lemma revoke_walks c id : walks (handleRevokeGrant c id).
Proof. unfold handleRevokeGrant. walks_in. Qed.
Lemma agentOf_walks q client wanted write limited guard : walks (agentOf q client wanted write limited guard).
Proof. unfold agentOf. walks_in. Qed.
Lemma options_walks q draw : walks (handlePasskeyOptions q draw).
Proof. unfold handlePasskeyOptions. walks_in. Qed.
Lemma not_inserted_walks q login credential vouched : walks (not_inserted q login credential vouched).
Proof. unfold not_inserted. walks_in. Qed.
Hint Resolve not_inserted_walks : prog.
Lemma store_walks q c rp body label challenge id vouched : walks (store_passkey q c rp body label challenge id vouched).
Proof. unfold store_passkey. walks_in. Qed.
Hint Resolve store_walks agentOf_walks : prog.
Lemma register_passkey_walks q body id : walks (handlePasskeyRegister q body id).
Proof. unfold handlePasskeyRegister, takeChallenge. walks_in. Qed.
Lemma remove_walks q id body : walks (handlePasskeyRemove q id body).
Proof. unfold handlePasskeyRemove. walks_in. Qed.
Lemma assertion_options_walks login bound draw : walks (assertionOptions login bound draw).
Proof. unfold assertionOptions. walks_in. Qed.
Hint Resolve assertion_options_walks : prog.
Lemma assert_walks q body draw : walks (handlePasskeyAssert q body draw).
Proof. unfold handlePasskeyAssert. walks_in. Qed.
Lemma reset_walks q body draw unwritten : walks (handlePasskeyReset q body draw unwritten).
Proof. unfold handlePasskeyReset. walks_in. Qed.
Lemma gate_walks q login subject doc a : walks (webGate q login subject doc a).
Proof. unfold webGate. walks_in. Qed.
Lemma confirm_passkey_walks q login draft form : walks (confirmPasskey q login draft form).
Proof. unfold confirmPasskey. walks_in. Qed.
Hint Resolve gate_walks confirm_passkey_walks : prog.

Lemma two_steps_walks {K} take finish (said : K -> Answer) fails : walks (two_steps take finish said fails).
Proof. unfold two_steps. walks_in. Qed.
Lemma approving_walks c id b through gate read fails : walks (approving c id b through gate read fails).
Proof. apply two_steps_walks. Qed.
Lemma closing_walks c id note ask_changes through read fails : walks (closing c id note ask_changes through read fails).
Proof. apply two_steps_walks. Qed.
Lemma blocking_walks c name reason through gate read fails : walks (blocking c name reason through gate read fails).
Proof. apply two_steps_walks. Qed.
Hint Resolve approving_walks closing_walks blocking_walks : prog.
Lemma deciding_walks c x through fails : walks (deciding c x through fails).
Proof. unfold deciding. walks_in. Qed.
Lemma draft_walks a body id : walks (handleDraft a body id).
Proof. unfold handleDraft. walks_in. Qed.
Lemma get_draft_walks a id : walks (handleGetDraft a id).
Proof. unfold handleGetDraft. walks_in. Qed.
Lemma own_draft_walks c id : walks (ownDraft c id).
Proof. unfold ownDraft. walks_in. Qed.
Lemma now_refusal_walks c x : walks (nowRefusal c x).
Proof. unfold nowRefusal. walks_in. Qed.
Hint Resolve deciding_walks own_draft_walks now_refusal_walks : prog.
Lemma confirm_walks q id form fails : walks (handleConfirm q id form fails).
Proof. unfold handleConfirm. walks_in. Qed.
Lemma challenge_walks q id form draw : walks (handleConfirmChallenge q id form draw).
Proof. unfold handleConfirmChallenge. walks_in. Qed.
Lemma gated_walks q login subject assertion shut act : (forall read gate, walks (act read gate)) -> walks (gated q login subject assertion shut act).
Proof. unfold gated. walks_in. Qed.
Lemma web_approve_walks q id b assertion : walks (webApprove q id b assertion).
Proof. unfold webApprove. walks_in. apply gated_walks. unfold said_of. walks_in. Qed.
Lemma web_block_walks q name reason assertion : walks (webBlockPackage q name reason assertion).
Proof. unfold webBlockPackage. walks_in. apply gated_walks. unfold said_of. walks_in. Qed.
Lemma web_block_person_walks q login reason assertion : walks (webBlockContributor q login reason assertion).
Proof. unfold webBlockContributor. walks_in. apply gated_walks. walks_in. Qed.
Lemma claim_walks a id worker : walks (agentClaim a id worker).
Proof. unfold agentClaim. walks_in. Qed.
Lemma release_walks a id reason : walks (agentRelease a id reason).
Proof. unfold agentRelease. walks_in. Qed.

(** ** The requests *)

(** A door for a signed-in person, by their session or their token. *)
Definition signed_in_door (q : Ask) (k : Caller -> door) : door :=
  c ← contributorOf q; match c with Some c => k c | None => answer (Refused 401 "sign_in") end.
(** A door for an agent's token. *)
Definition agent_door (q : Ask) (client : option string) (wanted : list Scope) (write limited guard : bool) (k : AgentCaller -> door) : door :=
  a ← agentOf q client wanted write limited guard; match a with inr a => k a | inl r => answer r end.
(** [L]: who signs in. *)
Inductive a_door : door -> Prop :=
| ad_callback q cb gh token unset : (forall u, gh_user gh = inr u -> L (gu_login u)) -> a_door (handleAuthCallback q cb gh token unset)
| ad_logout q : a_door (handleLogout q)
| ad_register t u token : a_door (handleRegister t u token)
| ad_token q token : a_door (signed_in_door q (fun c => handleNewToken c token))
| ad_grant q form spent id code : a_door (handleGrant q form spent id code)
| ad_swap body spent token : a_door (handleSwap body spent token)
| ad_agent_logout q : a_door (handleAgentLogout q)
| ad_revoke q id : a_door (signed_in_door q (fun c => handleRevokeGrant c id))
| ad_options q draw : a_door (handlePasskeyOptions q draw)
| ad_passkey q body id : a_door (handlePasskeyRegister q body id)
| ad_remove q id body : a_door (handlePasskeyRemove q id body)
| ad_assert q body draw : a_door (handlePasskeyAssert q body draw)
| ad_reset q body draw unwritten : a_door (handlePasskeyReset q body draw unwritten)
| ad_draft q client limited guard body id : a_door (agent_door q client [review_scope; block_scope] true limited guard (fun a => handleDraft a body id))
| ad_read q client limited guard id : a_door (agent_door q client [review_scope; block_scope] false limited guard (fun a => handleGetDraft a id))
| ad_claim q client limited guard id worker : a_door (agent_door q client [review_scope] true limited guard (fun a => agentClaim a id worker))
| ad_release q client limited guard id reason : a_door (agent_door q client [review_scope] true limited guard (fun a => agentRelease a id reason))
| ad_challenge q id form draw : a_door (handleConfirmChallenge q id form draw)
| ad_confirm q id form fails : a_door (handleConfirm q id form fails)
| ad_approve q id b assertion : a_door (webApprove q id b assertion)
| ad_block q name reason assertion : a_door (webBlockPackage q name reason assertion)
| ad_block_person q login reason assertion : a_door (webBlockContributor q login reason assertion).

Lemma door_walks p : a_door p -> walks p.
Proof.
  intros []; eauto using callback_walks, logout_walks, register_walks, grant_walks, swap_walks, agent_logout_walks, options_walks, register_passkey_walks,
    remove_walks, assert_walks, reset_walks, challenge_walks, confirm_walks, web_approve_walks, web_block_walks, web_block_person_walks.
  all: unfold signed_in_door, agent_door.
  1-2: (eapply steps_bind; [apply callers|]); intros [c|] Hc; [|done]; eauto using new_token_walks, revoke_walks.
  all: apply steps_bind with (Q := fun _ => True); [apply agentOf_walks|]; intros [] _; [done|]; eauto using draft_walks, get_draft_walks, claim_walks, release_walks.
Qed.
End Walks.

(** ** Runs *)

Definition anyone (_ : string) : Prop := True.
Section Runs.
Context `{R : Runtime} `{N : Nonces}.
Abbreviation account_step := (wstep (a_door anyone)).
Abbreviation account_run := (wsteps (a_door anyone)).
(** The requests in flight are doors', wherever they are. *)
Definition in_flight_ok (w : World ADB Reply) : Prop := Forall (steps (fun _ _ => True) (touch anyone) (fun _ => True)) (w_running w).

Lemma opened_steps (I : Z -> ADB -> Prop) (L : string -> Prop) p :
  (forall now d x, I now d -> account_where p d = Some x -> L x.1) -> steps I (touch L) (allowed L) (opened p).
Proof.
  intros H. unfold opened. apply steps_bind with (Q := fun o => match o with Some (c, _) => L (ca_login c) | None => True end).
  - apply steps_ask; [intros; apply u_same|]. intros now d Hd. destruct (account_where p d) as [x|] eqn:E; [|done]. cbn. by apply (H now d x).
  - intros [[c b]|] Hc; [|done]. destruct b; [|done]. eapply steps_bind with (Q := fun _ => True); [|done]. apply steps_stmt. intros. split; [apply u_seen|done].
Qed.
Lemma callers_anyone q : steps (fun _ _ => True) (touch anyone) (allowed anyone) (contributorOf q).
Proof. unfold contributorOf. repeat (cbv zeta; case_match; try done); by apply opened_steps. Qed.
Lemma any_door p : a_door anyone p -> steps (fun _ _ => True) (touch anyone) (fun _ => True) p.
Proof. apply door_walks, callers_anyone. Qed.

(** What every statement keeps, every run keeps. *)
Lemma run_keeps (J : Z -> ADB -> Prop) (w w' : World ADB Reply) :
  (forall now now' d, now <= now' -> J now d -> J now' d) -> (forall now d d', J now d -> touch anyone now d d' -> J now d') ->
  J (w_now w) (w_db w) -> in_flight_ok w -> account_run w w' -> J (w_now w') (w_db w').
Proof.
  intros Hl Hk Hj Hr Hs. refine (proj1 (wsteps_in_order (a_door anyone) J (touch anyone) Hl Hk _ w w' _ Hs)).
  - intros p Hp. eapply steps_mono; [| | |by apply any_door]; by auto.
  - split; [done|]. eapply Forall_impl; [exact Hr|]. intros p. by apply steps_mono.
Qed.
Lemma run_in_flight (w w' : World ADB Reply) : in_flight_ok w -> account_run w w' -> in_flight_ok w'.
Proof. intros Hr Hs. by refine (proj2 (wsteps_in_order (a_door anyone) (fun _ _ => True) (touch anyone) _ _ any_door w w' _ Hs)). Qed.
Lemma none_in_flight (w : World ADB Reply) : w_running w = [] -> in_flight_ok w.
Proof. unfold in_flight_ok. intros ->. constructor. Qed.
(** A step of a run changes nothing, or is one statement. *)
Lemma step_touches (w w' : World ADB Reply) : in_flight_ok w -> account_step w w' -> w_db w' = w_db w \/ touch anyone (w_now w') (w_db w) (w_db w').
Proof. intros Hw Hs. by refine (proj2 (wstep_in_order (a_door anyone) (fun _ _ => True) (touch anyone) _ _ any_door w w' _ Hs)). Qed.
End Runs.

(** ** Lists under a condition *)

Lemma in_without {A} (p : A -> bool) l x : In x (without_where p l) <-> In x l /\ p x = false.
Proof. unfold without_where. rewrite filter_In, negb_true_iff. done. Qed.
Lemma without_le {A} (p q : A -> bool) l : zlen (List.filter q (without_where p l)) <= zlen (List.filter q l).
Proof.
  unfold without_where, zlen. induction l as [|x l IH]; cbn [List.filter]; [lia|].
  destruct (p x), (q x) eqn:Eq; cbn [negb List.filter length]; rewrite ?Eq; cbn [length]; lia.
Qed.
Lemma zlen_snoc {A} (q : A -> bool) l x : zlen (List.filter q (l ++ [x])) = zlen (List.filter q l) + (if q x then 1 else 0).
Proof. unfold zlen. rewrite List.filter_app, length_app. cbn [List.filter]. destruct (q x); cbn [length]; lia. Qed.
Lemma update_filter {A} (p q : A -> bool) f l : (forall x, p x = true -> q (f x) = q x) -> zlen (List.filter q (update_where p f l)) = zlen (List.filter q l).
Proof.
  intros H. unfold update_where, zlen. induction l as [|x l IH]; cbn [List.filter map]; [done|].
  destruct (p x) eqn:Ep; [rewrite (H x Ep)|]; destruct (q x); cbn [length]; lia.
Qed.
Lemma update_map {A B} (p : A -> bool) f (g : A -> B) l : (forall x, p x = true -> g (f x) = g x) -> map g (update_where p f l) = map g l.
Proof. intros H. unfold update_where. rewrite map_map. apply map_ext. intros x. destruct (p x) eqn:E; [by apply H|done]. Qed.
Lemma in_update {A} (p : A -> bool) f l y : In y (update_where p f l) <-> exists x, In x l /\ y = if p x then f x else x.
Proof. unfold update_where. rewrite in_map_iff. naive_solver. Qed.
Lemma without_NoDup {A B} (p : A -> bool) (g : A -> B) l : NoDup (map g l) -> NoDup (map g (without_where p l)).
Proof.
  unfold without_where. induction l as [|x l IH]; cbn; [done|]. intros [Hx Hl]%NoDup_cons. destruct (negb (p x)); [|by apply IH]. cbn. apply NoDup_cons.
  split; [|by apply IH]. rewrite !list_elem_of_In, !in_map_iff in *. intros (y & E & Hy%filter_In). apply Hx. exists y. by split; [|apply Hy].
Qed.
Lemma snoc_NoDup {A B} (g : A -> B) l x : NoDup (map g l) -> ~ In (g x) (map g l) -> NoDup (map g (l ++ [x])).
Proof.
  intros Hl Hx. rewrite map_app. apply NoDup_app. split; [done|]. split; [|apply NoDup_singleton].
  intros y Hy Hy'. cbn in Hy'. apply list_elem_of_singleton in Hy' as ->. by apply Hx, list_elem_of_In.
Qed.
Lemma no_such {A} (p : A -> bool) l : some_where p l = false -> forall x, In x l -> p x = false.
Proof. intros H x Hx. destruct (p x) eqn:E; [|done]. assert (some_where p l = true) by (apply existsb_exists; eauto). congruence. Qed.
Lemma find_none_all {A} (p : A -> bool) l : is_some (List.find p l) = false -> forall x, In x l -> p x = false.
Proof. intros H x Hx. destruct (List.find p l) eqn:E; [done|]. by eapply List.find_none. Qed.
Lemma by_key {A B} `{EqDecision B} (g : A -> B) l x y : NoDup (map g l) -> In x l -> In y l -> g x = g y -> x = y.
Proof.
  induction l as [|z l IH]; cbn; [done|]. intros [Hz Hl]%NoDup_cons [->|Hx] [->|Hy] E; [done| | |by apply IH].
  - destruct Hz. rewrite E. apply list_elem_of_In. by apply in_map.
  - destruct Hz. rewrite <- E. apply list_elem_of_In. by apply in_map.
Qed.

(** ** What each statement leaves alone *)

Definition with_lines (l : list Event) (d : ADB) : ADB :=
  {| base := base d; accounts := accounts d; passkeys := passkeys d; challenges := challenges d; grants := grants d; drafts := drafts d; events := events d ++ l |}.
Lemma no_lines d : with_lines [] d = d.
Proof. destruct d. unfold with_lines. cbn. by rewrite app_nil_r. Qed.
Lemma more_lines a b d : with_lines b (with_lines a d) = with_lines (a ++ b) d.
Proof. unfold with_lines. cbn. by rewrite (assoc_L (++)). Qed.
Lemma line_is e d : add_event e d = with_lines [e] d.
Proof. done. Qed.
Lemma lines_fold {A} (f : A -> Event) l d : fold_left (fun d x => add_event (f x) d) l d = with_lines (map f l) d.
Proof.
  revert d. induction l as [|x l IH]; intros d; cbn [fold_left map]; [by rewrite no_lines|]. by rewrite IH, line_is, more_lines.
Qed.
Lemma passkey_event_is status action login id w d : exists l, passkey_event status action login id w d = with_lines l d.
Proof. unfold passkey_event. case_match; [by eexists|]. exists []. by rewrite no_lines. Qed.
Lemma discard_is login now d : exists l, discard_drafts login now d = set_drafts l d.
Proof. unfold discard_drafts. destruct login; [by eexists|]. exists (drafts d). by destruct d. Qed.

Record reset_did (by_ login confirmed mark : string) (ids : list string) (now : Z) (d d' : ADB) (s : ResetSaid) : Prop := {
  rd_base : base d' = base d;
  rd_keys : passkeys d' = without_where (holds login) (passkeys d);
  rd_challenges : challenges d' = without_where (fun x => String.eqb (ch_login x) login) (challenges d);
  rd_grants : grants d' = without_where (fun g => of_login login g && negb (swapped g))
                (if has_passkey d login then update_where (fun g => of_login login g && live_grant now g) (revoke now "reset") (grants d) else grants d);
  rd_accounts : accounts d' = alter (set_session None) login (if has_passkey d login && is_some (accounts d !! login) then alter (set_token mark) login (accounts d) else accounts d);
  rd_line : rs_line s = has_passkey d login;
  rd_removed : rs_removed s = map pk_id (List.filter (holds login) (passkeys d));
  rd_said : exists l, events d' = (events d ++ l)%list /\
    (has_passkey d login = true -> In {| ev_status := "warn"; ev_action := "reset"; ev_login := login; ev_by := by_; ev_what := ids; ev_with := Some confirmed |} l);
  rd_drafts : exists g, drafts d' = update_where (discarding login now g) (discard now) (drafts d)
    /\ grants g = (if has_passkey d login then update_where (fun g => of_login login g && live_grant now g) (revoke now "reset") (grants d) else grants d) }.
Lemma reset_spec by_ login confirmed mark ids now d d' s : reset_batch by_ login confirmed mark ids now d = Some (d', s) -> reset_did by_ login confirmed mark ids now d d' s.
Proof.
  unfold reset_batch. cbv zeta.
  set (e1 := {| ev_status := "warn"; ev_action := "reset"; ev_login := login; ev_by := by_; ev_what := ids; ev_with := Some confirmed |}).
  assert (E1 : exists l, grant_lines by_ login now (reset_event by_ login "revoke_token" [] None (reset_event by_ login "reset" ids (Some confirmed) d)) = with_lines l d
           /\ (has_passkey d login = true -> In e1 l)).
  { unfold grant_lines, reset_event, has_passkey. destruct (some_where (holds login) (passkeys d)) eqn:Eh; cbn [passkeys add_event]; rewrite ?Eh.
    - rewrite lines_fold, !line_is, !more_lines. cbn [passkeys with_lines]. rewrite Eh. eexists. split; [done|]. intros _. by left.
    - exists []. by rewrite no_lines. }
  destruct E1 as (l & -> & Hl).
  assert (E2 : reset_grants login now (with_lines l d) =
    set_grants (if has_passkey d login then update_where (fun g => of_login login g && live_grant now g) (revoke now "reset") (grants d) else grants d) (with_lines l d)).
  { unfold reset_grants, has_passkey. cbn [passkeys with_lines]. case_match; [done|]. by destruct d. }
  rewrite E2. set (d2 := set_grants _ _). unfold discard_drafts, drop_unswapped. set (d3 := set_grants _ (set_drafts _ d2)).
  assert (E3 : reset_token login mark d3 = (if has_passkey d login && is_some (accounts d !! login) then
     if held_by_another login (fun a => String.eqb (ac_token a) mark) d3 then None else Some (on_account login (set_token mark) d3) else Some d3)).
  { done. }
  rewrite E3. destruct (has_passkey d login && is_some (accounts d !! login)) eqn:Et.
  - case_match; [done|]. cbn. intros [= <- <-]. split; cbn; try done; rewrite ?Et; try done; [by exists l|by exists d2].
  - cbn. intros [= <- <-]. split; cbn; try done; rewrite ?Et; try done; [by exists l|by exists d2].
Qed.

(** The tables of keys: two statements of every three leave them alone. *)
Definition same_keys (d d' : ADB) : Prop := passkeys d' = passkeys d /\ challenges d' = challenges d.
Inductive key_touch (now : Z) (d : ADB) : ADB -> Prop :=
| kt_issue value login p bound d' b : issue_batch value login p bound now d = Some (d', b) -> key_touch now d d'
| kt_take value login p bound : key_touch now d (take_statement value login p bound now d).1
| kt_insert k vouched session d' b : pk_created k = now -> pk_last k = None -> insert_batch k vouched session d = Some (d', b) -> key_touch now d d'
| kt_used id counter : key_touch now d (used id counter now d).1
| kt_remove id login confirmed : key_touch now d (remove_batch id login confirmed d).1
| kt_reset by_ login confirmed mark ids d' s : reset_batch by_ login confirmed mark ids now d = Some (d', s) -> key_touch now d d'.
(** The batches opened, each with what it answered. *)
Ltac open_batches :=
  unfold signed_in, registered, new_token, grant_insert, swap_batch, draft_insert, logout_batch, revoke_batch, day_statement, block_batch, discard_drafts in *;
  cbv zeta in *; cbn [fst snd] in *; repeat (case_match; simplify_eq/=; try done).
Lemma touch_keys L now d d' : touch L now d d' -> same_keys d d' \/ key_touch now d d'.
Proof. intros []; eauto using key_touch; left; try done; open_batches. Qed.

(** The table of grants. *)
Inductive grant_touch (L : string -> Prop) (now : Z) (d : ADB) : ADB -> Prop :=
| gt_grant id login a code d' b : L login -> grant_insert id login a code now d = Some (d', b) -> grant_touch L now d d'
| gt_swap hash code challenge d' g : swap_batch hash code challenge now d = Some (d', g) -> grant_touch L now d d'
| gt_logout hash : grant_touch L now d (logout_batch hash now d).1
| gt_revoke id login : grant_touch L now d (revoke_batch id login now d).1
| gt_used id : grant_touch L now d (used_now id now d)
| gt_reset by_ login confirmed mark ids d' s : reset_batch by_ login confirmed mark ids now d = Some (d', s) -> grant_touch L now d d'
| gt_block c login reason gate read : grant_touch L now d (block_batch c login reason gate read now d).1.
Lemma touch_grants L now d d' : touch L now d d' -> grants d' = grants d \/ grant_touch L now d d'.
Proof.
  intros [| | | | | | | | | | | | | |k v session d1 b _ _ H| |id login confirmed| | | | | | |]; eauto using grant_touch; left; try done; unfold issue_batch in *; try (by open_batches).
  - unfold insert_batch in H. destruct (may_insert _ _ _ _); [destruct (some_where _ _); [done|]|]; injection H as <- <-;
      edestruct (passkey_event_is "ok" "register" (pk_login k) (pk_id k) v) as [e ->]; done.
  - unfold remove_batch. by destruct (passkey_event_is "warn" "remove" login id (Some confirmed) d) as [e ->].
Qed.
(** What each makes of the rows: some gone, some revoked or touched, one swapped, one new. *)
Lemma grants_discard login now d : grants (discard_drafts login now d) = grants d.
Proof. by destruct login. Qed.
Lemma swap_grants hash code challenge now d d' r : swap_batch hash code challenge now d = Some (d', r) ->
  exists l, grants d' = match List.find (by_token hash) l with Some g => update_where (replaced hash g now) (revoke now "replaced") l | None => l end
    /\ l = update_where (swappable code challenge now) (swap hash) (grants d) /\ r = swap hash <$> List.find (swappable code challenge now) (grants d)
    /\ (is_some r = true -> some_where (by_token hash) (grants d) = false).
Proof.
  unfold swap_batch. cbv zeta. destruct (_ && _) eqn:E; [done|]. intros [= <- <-]. eexists. rewrite grants_discard. split_and!; [|done..|]; [done|].
  intros Hr. destruct (List.find _ _); [|done]. done.
Qed.

(** The table of accounts. *)
Inductive account_touch (L : string -> Prop) (now : Z) (d d' : ADB) : Prop :=
| at_kept l f : accounts d' = alter f l (accounts d) ->
    (forall a, ac_session (f a) = ac_session a /\ ac_token (f a) = ac_token a /\ ac_day (f a) = ac_day a /\ forall k, day_count k (f a) = day_count k a) -> account_touch L now d d'
| at_sign_in l role session unset u : L l -> signed_in l role session unset now d = Some (d', u) -> account_touch L now d d'
| at_sign_out session : d' = signed_out session d -> account_touch L now d d'
| at_registered l role token b : registered l role token now d = Some (d', b) -> account_touch L now d d'
| at_token l token : L l -> accounts d' = alter (set_token token) l (accounts d) -> account_touch L now d d'
| at_count k c : d' = (day_statement k (utcDay now) (ca_login c) (dayCap k c) d).1 -> account_touch L now d d'
| at_reset by_ l confirmed mark ids s : reset_batch by_ l confirmed mark ids now d = Some (d', s) -> account_touch L now d d'.
Lemma touch_accounts L now d d' : touch L now d d' -> accounts d' = accounts d \/ account_touch L now d d'.
Proof.
  intros Ht. destruct Ht as [|l|l role session unset d1 u Hl H|s|l role token d1 b H|l token d1 u Hl H|? ? ? ? d1 b Hl H|? ? ? d1 ? H| | | | |? ? ? ? d1 ? H|
    |k v s d1 b _ _ H| |id l w|by_ l w mark ids d1 s H| |x d1 u _ H| | | |].
  all: try (right; eauto using account_touch; done).
  all: try (by left).
  - right. apply at_kept with (l := l) (f := fun a => if ac_seen a <? now - SEEN_MINUTES * 60000 then set_seen now a else a); [done|]. intros a. by case_match.
  - right. unfold new_token in H. case_match; [done|]. injection H as <-. by apply at_token with (l := l) (token := token).
  - left. by open_batches.
  - left. by open_batches.
  - left. by open_batches.
  - left. unfold issue_batch in H. by open_batches.
  - left. unfold insert_batch in H. destruct (may_insert _ _ _ _); [destruct (some_where _ _); [done|]|]; injection H as <- <-;
      edestruct (passkey_event_is "ok" "register" (pk_login k) (pk_id k) v) as [e ->]; done.
  - left. unfold remove_batch. by destruct (passkey_event_is "warn" "remove" l id (Some w) d) as [e ->].
  - left. by open_batches.
  - left. by open_batches.
Qed.
