(* ===== verification/AccountTables.v ===== *)
(** The tables of keys and of grants over every run - their caps, what is unique in them - and what an accepted answer went through,
    whatever ran in between (Passkeys.v, Grants.v). *)
From S2P Require Import Prelude JsTime Json JsonText Bytes WebAuthn WebAuthnFacts Program.
From S2P Require Import Tasks Targets Rings Governance Projects Review ReviewDoors Blocks Delivery Contributors Requests Accounts Grants Passkeys Drafts AccountRuns.
Local Open Scope string_scope.
Local Open Scope Z_scope.

(** ** The tables of keys *)

Record keys_ok (now : Z) (d : ADB) : Prop := {
  k_ids : NoDup (map pk_id (passkeys d)); k_credentials : NoDup (map pk_credential (passkeys d));
  k_cap login : zlen (List.filter (holds login) (passkeys d)) <= MAX_PASSKEYS;
  c_values : NoDup (map ch_value (challenges d));
  c_cap login : zlen (List.filter (live_challenge login now) (challenges d)) <= LIVE_CHALLENGES;
  c_life x : In x (challenges d) -> ch_expires x <= now + CHALLENGE_MS }.
Lemma keys_later now now' d : now <= now' -> keys_ok now d -> keys_ok now' d.
Proof.
  intros Hn []. split; try done.
  - intros login. etrans; [|apply (c_cap0 login)]. apply filter_le. unfold live_challenge. intros x _ [-> H]%andb_true_iff. cbn. breflect. apply Z.ltb_lt. lia.
  - intros x H. specialize (c_life0 x H). lia.
Qed.
Lemma keys_same now d d' : same_keys d d' -> keys_ok now d -> keys_ok now d'.
Proof. intros [E1 E2] []. split; rewrite ?E1, ?E2; done. Qed.
Lemma issue_ok value login p bound now d d' b : issue_batch value login p bound now d = Some (d', b) -> keys_ok now d -> keys_ok now d'.
Proof.
  unfold issue_batch. cbv zeta. set (l1 := without_where _ (challenges d)). set (l2 := without_where (same_slot _ _ _) l1). intros H [].
  assert (Hin : forall x, In x l2 -> In x (challenges d)) by (intros x Hx; by apply in_without in Hx as [[Hx _]%in_without _]).
  assert (Hnd : NoDup (map ch_value l2)) by by apply without_NoDup, without_NoDup.
  assert (Hcap : forall l, zlen (List.filter (live_challenge l now) l2) <= LIVE_CHALLENGES).
  { intros l. etrans; [apply without_le|]. etrans; [apply without_le|]. apply c_cap0. }
  destruct (_ <? _) eqn:El; [destruct (some_where _ l2) eqn:Ed; [done|]|]; injection H as <- <-; cbn; split; try done; cbn.
  - apply snoc_NoDup; [done|]. rewrite in_map_iff. intros (x & E & Hx). pose proof (no_such _ _ Ed x Hx) as Hne. cbn in Hne, E. by rewrite E, String.eqb_refl in Hne.
  - intros l. rewrite zlen_snoc. destruct (live_challenge l now _) eqn:E; [|specialize (Hcap l); lia].
    unfold live_challenge in E. cbn in E. breflect. subst l. unfold LIVE_CHALLENGES in *. lia.
  - intros x [Hx|[<-|[]]]%in_app_iff; [by apply c_life0, Hin|cbn; lia].
  - intros x Hx. by apply c_life0, Hin.
Qed.
Lemma insert_ok k vouched session now d d' b : insert_batch k vouched session d = Some (d', b) -> keys_ok now d -> keys_ok now d'.
Proof.
  unfold insert_batch. intros H Hok. destruct (may_insert _ _ _ _) eqn:Em; [destruct (some_where _ _) eqn:Ed; [done|]|].
  - injection H as <- <-. destruct (passkey_event_is "ok" "register" (pk_login k) (pk_id k) vouched (set_passkeys (passkeys d ++ [k]) d)) as [l ->].
    destruct Hok. split; try done; cbn.
    + apply snoc_NoDup; [done|]. rewrite in_map_iff. intros (x & E & Hx). pose proof (no_such _ _ Ed x Hx) as Hne. cbn in Hne. by rewrite E, String.eqb_refl in Hne.
    + unfold may_insert in Em. breflect. apply snoc_NoDup; [done|]. rewrite in_map_iff. intros (x & E & Hx).
      match goal with H : is_some (by_credential _ _) = false |- _ => pose proof (find_none_all _ _ H x Hx) as Hne end. cbn in Hne. by rewrite E, String.eqb_refl in Hne.
    + intros login. rewrite zlen_snoc. destruct (holds login k) eqn:Eh; [|specialize (k_cap0 login); lia]. unfold holds in Eh. apply String.eqb_eq in Eh as <-.
      unfold may_insert in Em. breflect. unfold MAX_PASSKEYS in *. lia.
  - injection H as <- <-. destruct (passkey_event_is "ok" "register" (pk_login k) (pk_id k) vouched d) as [l ->]. by destruct Hok.
Qed.
Lemma key_touch_ok now d d' : key_touch now d d' -> keys_ok now d -> keys_ok now d'.
Proof.
  intros [value login p bound d1 b H|value login p bound|k vouched session d1 b _ _ H|id counter|id login confirmed|by_ login confirmed mark ids d1 s H] Hok.
  - by eapply issue_ok.
  - destruct Hok. split; try done; cbn; [by apply without_NoDup|intros l; etrans; [apply without_le|done]|intros x [Hx _]%in_without; auto].
  - by eapply insert_ok.
  - destruct Hok. split; try done; cbn; rewrite ?update_map by done; try done. intros login. by rewrite update_filter.
  - unfold remove_batch. destruct (passkey_event_is "warn" "remove" login id (Some confirmed) d) as [l ->]. destruct Hok. cbn. split; try done; cbn;
      [by apply without_NoDup|by apply without_NoDup|intros l'; etrans; [apply without_le|done]].
  - destruct (reset_spec _ _ _ _ _ _ _ _ _ H). destruct Hok. split; rewrite ?rd_keys, ?rd_challenges; try (by apply without_NoDup).
    + intros l. etrans; [apply without_le|done].
    + intros l. etrans; [apply without_le|done].
    + intros x [Hx _]%in_without. auto.
Qed.
Lemma touch_keys_ok L now d d' : touch L now d d' -> keys_ok now d -> keys_ok now d'.
Proof. intros [H|H]%touch_keys; [by apply keys_same|by apply key_touch_ok]. Qed.

(** ** What an accepted answer went through *)

(** A challenge of this login for this act, live when it was taken, and taken. *)
Definition took (tr : list (Moment ADB)) (login bound c : string) : Prop :=
  exists m x, In m tr /\ In x (challenges (m_before m)) /\ ch_value x = c /\ ch_login x = login /\ ch_purpose x = p_confirm
    /\ ch_bound x = Some bound /\ m_now m < ch_expires x /\ (forall y, In y (challenges (m_after m)) -> ch_value y <> c).
Lemma good_for_is login p bound now x : good_for login p bound now x = true -> ch_login x = login /\ ch_purpose x = p /\ ch_bound x = bound /\ now < ch_expires x.
Proof. unfold good_for. intros H. breflect. by match goal with H : bool_decide _ = true |- _ => apply bool_decide_eq_true in H end. Qed.
Lemma exec_take value login p bound tr : exec (takeChallenge value login p bound) tr (Some true) ->
  exists m x, tr = [m] /\ In x (challenges (m_before m)) /\ ch_value x = value /\ good_for login p bound (m_now m) x = true
    /\ forall y, In y (challenges (m_after m)) -> ch_value y <> value.
Proof.
  intros (now & d & -> & H)%exec_stmt. unfold take_statement in H. cbn in H. destruct (List.find _ _) as [x|] eqn:E; [|done].
  apply List.find_some in E as [Hin E]. apply String.eqb_eq in E. eexists _, x. split; [done|]. cbn. split_and!; try done.
  intros y [_ Hy]%in_without. by apply String.eqb_neq in Hy.
Qed.

Section Answers.
Context `{R : Runtime} `{N : Nonces}.

(** The passkey's own row, and the use that moved its counter. *)
Inductive accepted (rp : RelyingParty) (login bound : string) (f : AssertionFields) (tr : list (Moment ADB)) (k : Confirmed) : Prop :=
| acc c x n flags : challengeOf (Some (JStr (af_client f))) = Some c -> took tr login bound c ->
    (exists m, In m tr /\ In x (passkeys (m_before m))) ->
    pk_id x = cf_passkey k -> pk_login x = login -> pk_rp x = rp_id rp -> pk_credential x = af_credential f ->
    verifyAssertion (input_of f) (expected c rp) (stored_of x) = Ok (n, flags) ->
    (exists m y, In m tr /\ In y (passkeys (m_before m)) /\ pk_id y = pk_id x /\ moved_forward (pk_counter y) n
       /\ In (use_key n (m_now m) y) (passkeys (m_after m))) ->
    accepted rp login bound f tr k.
Lemma accepted_more rp login bound f t1 t2 t3 k : accepted rp login bound f t2 k -> accepted rp login bound f (t1 ++ t2 ++ t3)%list k.
Proof.
  intros [c x n fl H1 (m & y & H2 & H3) (m' & H4 & H5) H6 H7 H8 H9 H10 (m2 & z & H11 & H12)].
  assert (Hin : forall m, In m t2 -> In m (t1 ++ t2 ++ t3)%list) by (intros; rewrite !in_app_iff; auto).
  eapply acc; try done; [exists m, y|exists m'|exists m2, z]; split; auto.
Qed.
Lemma exec_assertion rp login bound f tr k : exec (checkAssertion rp login bound f) tr (Some (inr k)) -> accepted rp login bound f tr k.
Proof.
  unfold checkAssertion. intros H. destruct (negb _).
  { apply exec_answers in H as (? & ? & ? & _ & _ & [_ [=]]). }
  destruct (challengeOf _) as [c|] eqn:Ec; [|by destruct H].
  apply exec_answers in H as (t1 & t2 & good & -> & Ht & H). destruct good; [|by destruct H]. cbn [negb] in H.
  apply exec_take in Ht as (m & ch & -> & H1 & H2 & H3 & H4). apply good_for_is in H3 as (H3 & H5 & H6 & H7).
  apply exec_answers in H as (t3 & t4 & key & -> & Hk & H). destruct key as [x|]; [|by destruct H].
  destruct (slen _ <=? 1400); [|by destruct Hk]. apply exec_ask in Hk as (now2 & d2 & -> & Hx). symmetry in Hx.
  apply List.find_some in Hx as [Hx Ecred]. apply String.eqb_eq in Ecred.
  destruct (holds login x) eqn:Eh; [|by destruct H]. apply String.eqb_eq in Eh. cbn [negb] in H.
  destruct (String.eqb_spec (pk_rp x) (rp_id rp)) as [Erp|]; [|by destruct H]. cbn [negb] in H.
  destruct (verifyAssertion _ _ _) as [[n fl]|e|] eqn:Ev; [|by destruct H|by destruct H].
  apply exec_answers in H as (t5 & t6 & mv & -> & Hu & H). apply exec_stmt in Hu as (now3 & d3 & -> & ->). cbn in H.
  destruct (some_where _ _) eqn:Es; [|by destruct H]. destruct H as [-> [= ->]].
  apply existsb_exists in Es as (y & Hy & Ey). pose proof Ey as Eu. unfold use_ok in Ey. apply andb_true_iff in Ey as [Ey Ec2]. apply String.eqb_eq in Ey.
  eapply acc with (x := x); [exact Ec| | |done|done|done|done|exact Ev|].
  - exists m, ch. split; [by left|]. done.
  - eexists. split; [right; left; done|done].
  - eexists _, y. split; [right; right; left; done|]. cbn. split; [done|]. split; [done|]. split.
    + unfold moved_forward. apply orb_true_iff in Ec2 as [Ec2|Ec2]; breflect; lia.
    + apply in_update. exists y. split; [done|]. by rewrite Eu.
Qed.

(** ** The person in the browser *)

Definition from_session (q : Ask) (c : Caller) (tr : list (Moment ADB)) : Prop :=
  rq_auth q = None /\ exists s m a, cookieOf q "omc" = Some (Some s) /\ In m tr /\ accounts (m_before m) !! ca_login c = Some a
    /\ ac_session a = Some (sha256Hex s) /\ c = caller_of (m_before m) (ca_login c).
Lemma from_session_more q c t1 t2 t3 : from_session q c t2 -> from_session q c (t1 ++ t2 ++ t3)%list.
Proof. intros (Ha & s & m & a & H1 & H2 & H3). split; [done|]. exists s, m, a. rewrite !in_app_iff. auto. Qed.
Lemma exec_opened p c tr : exec (opened p) tr (Some (Some c)) ->
  exists m a, In m tr /\ accounts (m_before m) !! ca_login c = Some a /\ p a = true /\ c = caller_of (m_before m) (ca_login c).
Proof.
  unfold opened. intros H. apply exec_answers in H as (t1 & t2 & row & -> & Hr & H). apply exec_ask in Hr as (now & d & -> & ->).
  destruct (account_where p d) as [[login a]|] eqn:E; cbn in H; [|by destruct H].
  apply List.find_some in E as [Hin Hp]. apply list_elem_of_In, elem_of_map_to_list in Hin.
  assert (Hc : c = caller_of d login).
  { destruct (_ <? _); [destruct H as (? & ? & ? & _ & H)|]; by destruct H as [_ [= <-]]. }
  exists {| m_now := now; m_before := d; m_after := d |}, a. subst c. cbn. split_and!; try done. by left.
Qed.
Lemma exec_caller q c tr : rq_auth q = None -> exec (contributorOf q) tr (Some (Some c)) -> from_session q c tr.
Proof.
  intros Ha. unfold contributorOf, bearer. rewrite Ha. cbn. intros H. destruct (cookieOf q "omc") as [o|] eqn:Ec; [|by destruct H].
  destruct (starts_with "oms_" (default "" o)) eqn:Es; [|by destruct H]. apply exec_opened in H as (m & a & H1 & H2 & H3 & H4). apply ostr_eqb_eq in H3.
  destruct o as [s|]; [|done]. split; [done|]. exists s, m, a. done.
Qed.
Lemma browser_none q s : browserSession q = Some (b_session s) -> rq_auth q = None.
Proof. unfold browserSession. by destruct (rq_auth q). Qed.
Lemma exec_on_rp q need c rp tr : exec (personOnRp q need) tr (Some (inr (c, rp))) ->
  from_session q c tr /\ relyingParty q = Some rp /\ rq_origin q = Some (rq_at q) /\ (need = n_maintainer -> maintainerRefusal c = None).
Proof.
  unfold personOnRp. intros H. destruct (browserSession q) as [[s| |]|] eqn:Eb; try (by destruct H). apply browser_none in Eb.
  apply exec_answers in H as (t1 & t2 & o & -> & Hc & H). destruct H as [-> H]. destruct o as [c'|]; [|done].
  destruct (relyingParty q) as [rp'|] eqn:Er; [|done]. destruct (negb (sameOrigin q)) eqn:Eo; [done|]. apply negb_false_iff, ostr_eqb_eq in Eo.
  assert (E : c' = c /\ rp' = rp /\ (need = n_maintainer -> maintainerRefusal c = None)) by (destruct need, (maintainerRefusal c') eqn:Em; simplify_eq; done).
  destruct E as (-> & -> & Hm). split_and!; try done. rewrite app_nil_r. by apply exec_caller.
Qed.
Lemma exec_gate q login subject doc a tr k : exec (webGate q login subject doc a) tr (Some (inr k)) ->
  rq_auth q = None /\ exists rp, relyingParty q = Some rp /\ rq_origin q = Some (rq_at q) /\ accepted rp login subject (assertionIn a) tr k
    /\ forall x, doc = Some x -> challengeOf (field a "client_data") = Some (docChallenge x).
Proof.
  unfold webGate. intros H. destruct (rq_auth q); [by destruct H|]. split; [done|]. destruct (relyingParty q) as [rp|]; [|by destruct H].
  destruct (negb (sameOrigin q)) eqn:Eo; [by destruct H|]. apply negb_false_iff, ostr_eqb_eq in Eo. cbv zeta in H. destruct (negb _) eqn:Ed; [by destruct H|].
  apply exec_answers in H as (t1 & t2 & o & -> & Hc & [-> H]). destruct o as [|k']; [done|]. injection H as <-. exists rp. rewrite app_nil_r.
  split_and!; try done; [by apply exec_assertion|]. intros x ->. by apply negb_false_iff, ostr_eqb_eq in Ed.
Qed.
End Answers.

(** ** The table of grants *)

(** *** Counting *)

Definition count {A} (p : A -> bool) (l : list A) : Z := zlen (List.filter p l).
Lemma count_cons {A} (p : A -> bool) x l : count p (x :: l) = (if p x then 1 else 0) + count p l.
Proof. unfold count, zlen. cbn [List.filter]. destruct (p x); cbn [length]; lia. Qed.
Lemma count_snoc {A} (p : A -> bool) l x : count p (l ++ [x]) = count p l + (if p x then 1 else 0).
Proof. apply zlen_snoc. Qed.
Lemma count_pos {A} (p : A -> bool) l : 0 <= count p l.
Proof. unfold count, zlen. lia. Qed.
Lemma count_none {A} (p : A -> bool) l : (forall x, In x l -> p x = false) -> count p l = 0.
Proof. induction l as [|x l IH]; [done|]. intros H. rewrite count_cons, (H x (or_introl eq_refl)), IH; [done|]. intros y Hy. apply H. by right. Qed.
Lemma count_in {A} (p : A -> bool) l x : In x l -> p x = true -> 1 <= count p l.
Proof.
  induction l as [|y l IH]; [done|]. rewrite count_cons. pose proof (count_pos p l). intros [->|Hx] Hp; [rewrite Hp; lia|].
  specialize (IH Hx Hp). destruct (p y); lia.
Qed.
(** Rows changed one by one, or gone: no more of [q] than there were of [p]. *)
Lemma count_update {A} (p q c : A -> bool) (f : A -> A) (l : list A) : (forall x, In x l -> q (if c x then f x else x) = true -> p x = true) -> count q (update_where c f l) <= count p l.
Proof.
  unfold update_where. induction l as [|x l IH]; [done|]. intros H. cbn [map]. rewrite !count_cons.
  specialize (IH (fun y Hy => H y (or_intror Hy))). specialize (H x (or_introl eq_refl)). destruct (q _); [rewrite H by done; lia|destruct (p x); lia].
Qed.
Lemma count_mono {A} (p q : A -> bool) (l : list A) : (forall x, In x l -> q x = true -> p x = true) -> count q l <= count p l.
Proof.
  induction l as [|x l IH]; [done|]. intros H. rewrite !count_cons. specialize (IH (fun y Hy => H y (or_intror Hy))). specialize (H x (or_introl eq_refl)).
  destruct (q x); [rewrite H by done; lia|destruct (p x); lia].
Qed.
Lemma count_split {A} (p q : A -> bool) l : count p l = count (fun x => p x && q x) l + count (fun x => p x && negb (q x)) l.
Proof. induction l as [|x l IH]; [done|]. rewrite !count_cons, IH. destruct (p x), (q x); cbn; lia. Qed.
(** At most one, where any two have the same key. *)
Lemma count_one {A B} (p : A -> bool) (g : A -> B) l : NoDup (map g l) -> (forall x y, In x l -> In y l -> p x = true -> p y = true -> g x = g y) -> count p l <= 1.
Proof.
  induction l as [|x l IH]; [done|]. cbn [map]. intros [Hx Hl]%NoDup_cons H. rewrite count_cons.
  assert (Hle : count p l <= 1) by (apply IH; [done|]; intros; apply H; auto with datatypes).
  destruct (p x) eqn:Ep; [|lia]. rewrite count_none; [lia|]. intros y Hy. destruct (p y) eqn:Ey; [|done]. destruct Hx. rewrite (H x y) by (cbn; auto).
  apply list_elem_of_In. by apply in_map.
Qed.
Lemma one_of {A} (p : A -> bool) l x y : count p l <= 1 -> In x l -> In y l -> p x = true -> p y = true -> x = y.
Proof.
  induction l as [|z l IH]; [done|]. rewrite count_cons. intros H [->|Hx] [->|Hy] Ex Ey; [done| | |].
  - rewrite Ex in H. pose proof (count_in p l y Hy Ey). lia.
  - rewrite Ey in H. pose proof (count_in p l x Hx Ex). lia.
  - apply IH; try done. pose proof (count_pos p l). destruct (p z); lia.
Qed.

(** *** The invariant *)

Definition waits (login : string) (g : Grant) : bool := of_login login g && negb (swapped g).
Definition lives (login : string) (now : Z) (g : Grant) : bool := of_login login g && live_grant now g.
Definition others_live (u : Grant) (now : Z) (g : Grant) : bool := lives (gr_login u) now g && negb (String.eqb (gr_agent g) (gr_agent u)).
Record grants_ok (now : Z) (l : list Grant) : Prop := {
  go_ids : NoDup (map gr_id l);
  go_codes x y c : In x l -> In y l -> gr_code x = Some c -> gr_code y = Some c -> gr_id x = gr_id y;
  go_tokens x y h : In x l -> In y l -> gr_token x = Some h -> gr_token y = Some h -> gr_id x = gr_id y;
  go_one login : count (waits login) l <= 1;
  go_names x y : In x l -> In y l -> live_grant now x = true -> live_grant now y = true -> gr_login x = gr_login y -> gr_agent x = gr_agent y -> gr_id x = gr_id y;
  go_room u : In u l -> swapped u = false -> count (others_live u now) l < LIVE_GRANTS;
  go_cap login : count (lives login now) l <= LIVE_GRANTS }.

Lemma live_still now now' g : now <= now' -> live_grant now' g = true -> live_grant now g = true.
Proof. unfold live_grant. intros Hn H. breflect. rewrite andb_true_iff, Z.ltb_lt. split; [by apply andb_true_iff|lia]. Qed.
Lemma grants_later now now' l : now <= now' -> grants_ok now l -> grants_ok now' l.
Proof.
  intros Hn []. split; try done.
  - intros x y Hx Hy Lx Ly. by apply go_names0; try done; eapply live_still.
  - intros u Hu Hs. eapply Z.le_lt_trans; [apply count_mono with (p := others_live u now)|by apply go_room0]. intros x _. unfold others_live, lives.
    intros [[-> H]%andb_true_iff ->]%andb_true_iff. by rewrite (live_still now now' x).
  - intros login. etrans; [|apply (go_cap0 login)]. apply count_mono. intros x _. unfold lives. intros [-> H]%andb_true_iff. by rewrite (live_still now now' x).
Qed.
(** Rows gone. *)
Lemma grants_without now p l : grants_ok now l -> grants_ok now (without_where p l).
Proof.
  intros []. assert (Hin : forall x, In x (without_where p l) -> In x l) by (by intros x [Hx _]%in_without).
  assert (Hc : forall q : Grant -> bool, count q (without_where p l) <= count q l) by (intros; apply without_le).
  split; [by apply without_NoDup|eauto|eauto| |intros x y Hx Hy; by apply go_names0; apply Hin| |].
  - intros login. by etrans; [apply Hc|].
  - intros u Hu Hs. by eapply Z.le_lt_trans; [apply Hc|apply go_room0; [apply Hin|]].
  - intros login. by etrans; [apply Hc|].
Qed.
(** Rows revoked or touched. *)
Definition tamed (f : Grant -> Grant) : Prop :=
  forall now g, gr_id (f g) = gr_id g /\ gr_login (f g) = gr_login g /\ gr_agent (f g) = gr_agent g /\ gr_code (f g) = gr_code g /\ gr_token (f g) = gr_token g
    /\ (live_grant now (f g) = true -> live_grant now g = true).
Lemma tamed_revoke t by_ : tamed (revoke t by_).
Proof. by intros now g. Qed.
Lemma tamed_touch t : tamed (touch_grant t).
Proof. by intros now g. Qed.
Lemma grants_tamed now p f l : tamed f -> grants_ok now l -> grants_ok now (update_where p f l).
Proof.
  intros Hf [].
  assert (Hg : tamed (fun x => if p x then f x else x)) by (intros n g; destruct (p g); [apply Hf|done]). clear Hf.
  set (F := fun x => if p x then f x else x) in *. assert (E : forall x, In x (update_where p f l) <-> exists y, In y l /\ x = F y) by (intros; apply in_update).
  assert (Es : forall y, swapped (F y) = swapped y) by (intros y; unfold swapped; destruct (Hg now y) as (_ & _ & _ & _ & -> & _); done).
  split.
  - rewrite update_map; [done|]. intros x Hx. destruct (Hg now x) as (H & _). unfold F in H. by rewrite Hx in H.
  - intros x y c (x' & Hx & ->)%E (y' & Hy & ->)%E. destruct (Hg now x') as (-> & _ & _ & -> & _), (Hg now y') as (-> & _ & _ & -> & _). eauto.
  - intros x y c (x' & Hx & ->)%E (y' & Hy & ->)%E. destruct (Hg now x') as (-> & _ & _ & _ & -> & _), (Hg now y') as (-> & _ & _ & _ & -> & _). eauto.
  - intros login. etrans; [|apply (go_one0 login)]. apply count_update. intros x _. fold (F x). unfold waits, of_login. rewrite Es. by destruct (Hg now x) as (_ & -> & _).
  - intros x y (x' & Hx & ->)%E (y' & Hy & ->)%E. destruct (Hg now x') as (-> & -> & -> & _ & _ & L1), (Hg now y') as (-> & -> & -> & _ & _ & L2). eauto.
  - intros u (u' & Hu & ->)%E Hs. rewrite Es in Hs. eapply Z.le_lt_trans; [|apply (go_room0 u' Hu Hs)]. apply count_update. intros x _. fold (F x).
    unfold others_live, lives, of_login. destruct (Hg now u') as (_ & -> & -> & _), (Hg now x) as (_ & -> & -> & _ & _ & L).
    intros [[-> H]%andb_true_iff ->]%andb_true_iff. by rewrite L.
  - intros login. etrans; [|apply (go_cap0 login)]. apply count_update. intros x _. fold (F x). unfold lives, of_login.
    destruct (Hg now x) as (_ & -> & _ & _ & _ & L). intros [-> H]%andb_true_iff. by apply L.
Qed.

(** *** A new one, and its swap *)

Lemma live_swapped now g : live_grant now g = true -> swapped g = true.
Proof. unfold live_grant. intros H. by breflect. Qed.
Lemma insert_ok_grants id login a code now l : grants_ok now l -> (forall g, In g l -> waits login g = false) ->
  zlen (List.filter (fun g => negb (String.eqb (gr_agent g) (ga_agent a))) (List.filter (lives login now) l)) < LIVE_GRANTS ->
  some_where (fun g => String.eqb (gr_id g) id || ostr_eqb (gr_code g) (Some code)) l = false -> grants_ok now (l ++ [new_grant id login a code now]).
Proof.
  intros [] Hw Hr Hn. set (n := new_grant id login a code now). assert (Hd : live_grant now n = false) by done.
  assert (Hin : forall x, In x (l ++ [n]) <-> In x l \/ x = n) by (intros x; rewrite in_app_iff; cbn; naive_solver).
  assert (Hnew : forall x, In x l -> gr_id x <> id /\ gr_code x <> Some code).
  { intros x Hx. pose proof (no_such _ _ Hn x Hx) as H. cbn in H. apply orb_false_iff in H as [H1 H2]. apply String.eqb_neq in H1. split; [done|].
    intros E. by rewrite E, (proj2 (ostr_eqb_eq _ _) eq_refl) in H2. }
  split.
  - apply snoc_NoDup; [done|]. rewrite in_map_iff. intros (x & E & Hx). by destruct (Hnew x Hx).
  - intros x y c [Hx| ->]%Hin [Hy| ->]%Hin; [eauto| | |done].
    + intros E [= <-]. by destruct (Hnew x Hx).
    + intros [= <-] E. by destruct (Hnew y Hy).
  - intros x y h [Hx| ->]%Hin [Hy| ->]%Hin; eauto; done.
  - intros lo. rewrite count_snoc. destruct (waits lo n) eqn:E; [|specialize (go_one0 lo); lia].
    unfold waits, of_login in E. cbn in E. breflect. subst lo. by rewrite count_none.
  - intros x y [Hx| ->]%Hin [Hy| ->]%Hin Lx Ly; [by apply go_names0|congruence..].
  - intros u Hu Hs. rewrite count_snoc. unfold others_live at 2, lives. rewrite Hd, andb_false_r. cbn. rewrite Z.add_0_r. apply Hin in Hu as [Hu| ->]; [by apply go_room0|].
    unfold count. replace (List.filter (others_live n now) l) with (List.filter (fun g => negb (String.eqb (gr_agent g) (ga_agent a))) (List.filter (lives login now) l)); [done|].
    clear. induction l as [|x l IH]; [done|]. cbn [List.filter]. unfold others_live at 1. cbn. destruct (lives login now x); cbn; [|done]. by rewrite IH.
  - intros lo. rewrite count_snoc. unfold lives at 2. rewrite Hd, andb_false_r, Z.add_0_r. apply go_cap0.
Qed.
Lemma swappable_waits code ch now g : swappable code ch now g = true -> gr_code g = Some code /\ swapped g = false.
Proof. unfold swappable. intros H. breflect. split; [done|]. by destruct (swapped g). Qed.
Lemma swap_token hash g : by_token hash (swap hash g) = true.
Proof. by apply ostr_eqb_eq. Qed.
(** The rows after a swap: the code's row holds the token, the others of its name are revoked. *)
Definition swap_row (hash code ch : string) (now : Z) (g x : Grant) : Grant :=
  if String.eqb (gr_id x) (gr_id g) then swap hash x else if replaced hash (swap hash g) now x then revoke now "replaced" x else x.
Lemma swap_rows hash code ch now d d' g : grants_ok now (grants d) -> swap_batch hash code ch now d = Some (d', Some (swap hash g)) ->
  List.find (swappable code ch now) (grants d) = Some g ->
  In g (grants d) /\ swappable code ch now g = true /\ some_where (by_token hash) (grants d) = false /\ grants d' = map (swap_row hash code ch now g) (grants d).
Proof.
  intros Hok H Hf. destruct (swap_grants _ _ _ _ _ _ _ H) as (l & E & -> & _ & Hno). specialize (Hno eq_refl).
  apply List.find_some in Hf as [Hin Hs]. split_and!; try done. destruct (swappable_waits _ _ _ _ Hs) as [Hc _].
  assert (Hid : forall x, In x (grants d) -> swappable code ch now x = String.eqb (gr_id x) (gr_id g)).
  { intros x Hx. destruct (swappable code ch now x) eqn:Ex.
    - destruct (swappable_waits _ _ _ _ Ex) as [Hcx _]. symmetry. apply String.eqb_eq. by eapply go_codes.
    - symmetry. apply String.eqb_neq. intros Ei. rewrite (by_key gr_id (grants d) x g (go_ids _ _ Hok) Hx Hin Ei) in Ex. congruence. }
  assert (Hfind : List.find (by_token hash) (update_where (swappable code ch now) (swap hash) (grants d)) = Some (swap hash g)).
  { destruct (List.find _ _) as [y|] eqn:Ey.
    - apply List.find_some in Ey as [(x & Hx & ->)%in_update Ey]. rewrite Hid in Ey |- * by done. destruct (String.eqb_spec (gr_id x) (gr_id g)) as [Ei|Ei].
      + f_equal. by rewrite (by_key gr_id (grants d) x g (go_ids _ _ Hok) Hx Hin Ei).
      + by rewrite (no_such _ _ Hno x Hx) in Ey.
    - pose proof (List.find_none _ _ Ey (swap hash g)) as Hn. rewrite in_update, swap_token in Hn.
      discriminate Hn. exists g. by rewrite Hs. }
  rewrite Hfind in E. rewrite E. unfold update_where. rewrite map_map. apply map_ext_in. intros x Hx. unfold swap_row. rewrite Hid by done.
  destruct (String.eqb_spec (gr_id x) (gr_id g)) as [Ei|Ei]; [|done]. unfold replaced. by rewrite swap_token, andb_false_r.
Qed.
Section Swap.
Context (hash code ch : string) (now : Z) (g : Grant) (l : list Grant).
Hypothesis Hok : grants_ok now l.
Hypothesis Hin : In g l.
Hypothesis Hs : swappable code ch now g = true.
Hypothesis Hno : some_where (by_token hash) l = false.
Abbreviation F := (swap_row hash code ch now g).

Lemma row_same x : gr_id (F x) = gr_id x /\ gr_login (F x) = gr_login x /\ gr_agent (F x) = gr_agent x.
Proof. unfold swap_row. repeat case_match; done. Qed.
Lemma row_code x c : gr_code (F x) = Some c -> gr_code x = Some c.
Proof. unfold swap_row. repeat case_match; done. Qed.
Lemma row_token x h : gr_token (F x) = Some h -> (gr_id x = gr_id g /\ h = hash) \/ (gr_id x <> gr_id g /\ gr_token x = Some h).
Proof. unfold swap_row. destruct (String.eqb_spec (gr_id x) (gr_id g)) as [E|E]; [intros [= <-]; by left|]. case_match; by right. Qed.
Lemma row_waits x : swapped (F x) = false -> swapped x = false /\ gr_id x <> gr_id g.
Proof. unfold swap_row. destruct (String.eqb_spec (gr_id x) (gr_id g)) as [E|E]; [done|]. case_match; done. Qed.
(** A live one after is the swapped one, or was live and of another login or name. *)
Lemma row_lives x : In x l -> live_grant now (F x) = true ->
  gr_id x = gr_id g \/ (live_grant now x = true /\ (gr_login x = gr_login g -> gr_agent x <> gr_agent g)).
Proof.
  unfold swap_row. intros Hx. destruct (String.eqb_spec (gr_id x) (gr_id g)) as [E|E]; [by left|]. destruct (replaced _ _ _ _) eqn:Er; [done|]. intros Hl.
  right. split; [done|]. intros El Ea. unfold replaced in Er. cbn in Er. by rewrite El, Ea, !String.eqb_refl, Hl, (no_such _ _ Hno x Hx) in Er.
Qed.
Lemma is_row x : In x l -> gr_id x = gr_id g -> x = g.
Proof. intros Hx E. by apply (by_key gr_id l); [apply (go_ids _ _ Hok)|..]. Qed.
Lemma in_rows y : In y (map F l) -> exists x, In x l /\ y = F x.
Proof. rewrite in_map_iff. naive_solver. Qed.
Lemma count_rows (p q : Grant -> bool) : (forall x, In x l -> q (F x) = true -> p x = true) -> count q (map F l) <= count p l.
Proof. exact (count_update p q (fun _ => true) F l). Qed.

Lemma swap_names x y : In x (map F l) -> In y (map F l) -> live_grant now x = true -> live_grant now y = true -> gr_login x = gr_login y -> gr_agent x = gr_agent y -> gr_id x = gr_id y.
Proof.
  intros (x' & Hx & ->)%in_rows (y' & Hy & ->)%in_rows Lx Ly. destruct (row_same x') as (-> & -> & ->), (row_same y') as (-> & -> & ->). intros El Ea.
  destruct (row_lives x' Hx Lx) as [Ex|[Lx' Nx]], (row_lives y' Hy Ly) as [Ey|[Ly' Ny]].
  - congruence.
  - apply is_row in Ex; [|done]. subst. by destruct Ny.
  - apply is_row in Ey; [|done]. subst. by destruct Nx.
  - by apply (go_names _ _ Hok).
Qed.
Lemma swap_ids : NoDup (map gr_id (map F l)).
Proof. rewrite map_map, (map_ext _ gr_id); [apply (go_ids _ _ Hok)|]. intros x. by destruct (row_same x). Qed.
Lemma swap_cap login : count (lives login now) (map F l) <= LIVE_GRANTS.
Proof.
  destruct (String.eqb_spec (gr_login g) login) as [El|El].
  - rewrite (count_split _ (fun x => String.eqb (gr_agent x) (gr_agent g))).
    assert (H1 : count (fun x => lives login now x && String.eqb (gr_agent x) (gr_agent g)) (map F l) <= 1).
    { apply count_one with (g := gr_id); [apply swap_ids|]. intros x y Hx Hy. unfold lives, of_login. intros Px Py. breflect. apply swap_names; congruence. }
    assert (H2 : count (fun x => lives login now x && negb (String.eqb (gr_agent x) (gr_agent g))) (map F l) < LIVE_GRANTS); [|unfold LIVE_GRANTS in *; lia].
    eapply Z.le_lt_trans; [|apply (go_room _ _ Hok g Hin); by eapply swappable_waits]. apply count_rows. intros x Hx. unfold others_live, lives, of_login.
    destruct (row_same x) as (_ & -> & ->). rewrite El. intros [[-> HL]%andb_true_iff Ea]%andb_true_iff. rewrite Ea.
    destruct (row_lives x Hx HL) as [Ex|[-> _]]; [|done]. apply is_row in Ex; [|done]. subst. by rewrite String.eqb_refl in Ea.
  - etrans; [|apply (go_cap _ _ Hok login)]. apply count_rows. intros x Hx. unfold lives, of_login. destruct (row_same x) as (_ & -> & _).
    intros [Ex HL]%andb_true_iff. rewrite Ex. apply String.eqb_eq in Ex. destruct (row_lives x Hx HL) as [Er|[-> _]]; [|done]. apply is_row in Er; [|done]. congruence.
Qed.
Lemma swap_room u : In u (map F l) -> swapped u = false -> count (others_live u now) (map F l) < LIVE_GRANTS.
Proof.
  intros (u' & Hu & ->)%in_rows (Hw & Hne)%row_waits. destruct (swappable_waits _ _ _ _ Hs) as [_ Hgw].
  assert (Hl : gr_login u' <> gr_login g).
  { intros El. apply Hne. f_equal. eapply one_of; [apply (go_one _ _ Hok (gr_login g))|done..| |]; unfold waits, of_login.
    - by rewrite El, String.eqb_refl, Hw.
    - by rewrite String.eqb_refl, Hgw. }
  eapply Z.le_lt_trans; [|apply (go_room _ _ Hok u' Hu Hw)]. apply count_rows. intros x Hx. unfold others_live, lives, of_login.
  destruct (row_same u') as (_ & -> & ->), (row_same x) as (_ & -> & ->). intros [[Ex HL]%andb_true_iff ->]%andb_true_iff. rewrite Ex. apply String.eqb_eq in Ex.
  destruct (row_lives x Hx HL) as [Er|[-> _]]; [|done]. apply is_row in Er; [|done]. congruence.
Qed.
Lemma swap_ok_grants : grants_ok now (map F l).
Proof.
  split; [apply swap_ids| | | |apply swap_names|apply swap_room|apply swap_cap].
  - intros x y c (x' & Hx & ->)%in_rows (y' & Hy & ->)%in_rows Cx%row_code Cy%row_code. destruct (row_same x') as (-> & _), (row_same y') as (-> & _). by eapply go_codes.
  - intros x y h (x' & Hx & ->)%in_rows (y' & Hy & ->)%in_rows Tx%row_token Ty%row_token. destruct (row_same x') as (-> & _), (row_same y') as (-> & _).
    assert (Hh : forall z, In z l -> gr_token z <> Some hash) by (intros z Hz E; pose proof (no_such _ _ Hno z Hz) as H; unfold by_token in H; by rewrite E, (proj2 (ostr_eqb_eq _ _) eq_refl) in H).
    destruct Tx as [[E1 ->]|[N1 T1]], Ty as [[E2 E3]|[N2 T2]]; [congruence|by destruct (Hh y')|subst; by destruct (Hh x')|by eapply go_tokens].
  - intros login. etrans; [|apply (go_one _ _ Hok login)]. apply count_rows. intros x Hx. unfold waits, of_login. destruct (row_same x) as (_ & -> & _).
    intros [-> Hw]%andb_true_iff. apply negb_true_iff, row_waits in Hw as [-> _]. done.
Qed.
End Swap.

(** *** What every statement does of it *)

Lemma touch_grants_ok L now d d' : touch L now d d' -> grants_ok now (grants d) -> grants_ok now (grants d').
Proof.
  intros [E|H]%touch_grants Hok; [by rewrite E|].
  destruct H as [id l a code d1 b Hl H|hash code ch d1 r H|hash|id l|id|by_ l confirmed mark ids d1 s H|c l reason gate read].
  - unfold grant_insert in H. cbv zeta in H. assert (Hd : grants_ok now (grants (drop_unswapped l d))) by by apply grants_without.
    destruct (Z.ltb_spec (zlen (other_live l (ga_agent a) now (drop_unswapped l d))) LIVE_GRANTS); [destruct (some_where _ _) eqn:En; [done|]|]; injection H as <- <-; [|done].
    apply insert_ok_grants; [done| |done|done]. intros x [_ Hx]%in_without. done.
  - destruct (swap_grants _ _ _ _ _ _ _ H) as (l & E & El & Er & _). destruct (List.find (swappable code ch now) (grants d)) as [g|] eqn:Ef.
    + cbn in Er. rewrite Er in H. destruct (swap_rows _ _ _ _ _ _ _ Hok H Ef) as (Hin & Hs & Hno & ->). by apply swap_ok_grants.
    + assert (Hl : grants_ok now l).
      { rewrite El. replace (update_where (swappable code ch now) (swap hash) (grants d)) with (grants d); [done|].
        unfold update_where. symmetry. etrans; [|apply map_id]. apply map_ext_in. intros x Hx. by rewrite (List.find_none _ _ Ef x Hx). }
      rewrite E. destruct (List.find _ l) as [y|]; [|done]. apply grants_tamed; [apply tamed_revoke|done].
  - unfold logout_batch. cbn [fst]. rewrite grants_discard. apply grants_tamed; [apply tamed_revoke|done].
  - unfold revoke_batch. cbn [fst]. rewrite grants_discard. apply grants_tamed; [apply tamed_revoke|done].
  - apply grants_tamed; [apply tamed_touch|done].
  - rewrite (rd_grants _ _ _ _ _ _ _ _ _ (reset_spec _ _ _ _ _ _ _ _ _ H)). apply grants_without. destruct (has_passkey d l); [|done].
    apply grants_tamed; [apply tamed_revoke|done].
  - unfold block_batch. cbn [fst]. destruct (done _); [|done]. unfold block_grants. rewrite grants_discard. apply grants_tamed; [apply tamed_revoke|done].
Qed.
