(* ===== verification/PasskeyRules.v ===== *)
(** What a passkey guards: no approval and no block without the person's own answer for that very act, no later passkey without one the
    login holds; and what a reset of a login's passkeys leaves, and for how long (Passkeys.v, Drafts.v). *)
From S2P Require Import Prelude JsTime Json JsonText Bytes WebAuthn WebAuthnFacts Program.
From S2P Require Import Tasks Targets Rings Governance Projects Review ReviewDoors Blocks Delivery Contributors Requests.
From S2P Require Import Accounts Grants Passkeys Drafts AccountRuns AccountTables.
Local Open Scope string_scope.
Local Open Scope Z_scope.

(** ** What leaves the review and the keys alone *)

(** Statements that write neither what the review reads nor a passkey's row, but for its counter; the others are loud. *)
Definition calm (_ : Z) (d d' : ADB) : Prop := review_of d' = review_of d /\ map pk_id (passkeys d') = map pk_id (passkeys d).
Abbreviation quiet := (steps (fun _ _ => True) calm (fun _ => True)).
Definition loud (W : Moment ADB -> Prop) : Prop := forall m, W m -> ~ calm (m_now m) (m_before m) (m_after m).
Definition writes (m : Moment ADB) : Prop := review_of (m_after m) <> review_of (m_before m).
Lemma writes_loud : loud writes.
Proof. intros m H [E _]. by apply H. Qed.
(** A passkey of [id] is there after, and was not. *)
Definition adds (m : Moment ADB) : Prop := exists k, In k (passkeys (m_after m)) /\ forall y, In y (passkeys (m_before m)) -> pk_id y <> pk_id k.
Lemma adds_loud : loud adds.
Proof.
  intros m (k & Hk & Hn) [_ E]. assert (H : In (pk_id k) (map pk_id (passkeys (m_before m)))) by (rewrite <- E; by apply in_map).
  apply in_map_iff in H as (y & Ey & Hy). by apply (Hn y).
Qed.
#[local] Hint Resolve writes_loud adds_loud : core.
Lemma quiet_not {A} (W : Moment ADB -> Prop) (p : prog ADB A) tr r m : loud W -> quiet p -> exec p tr r -> In m tr -> ~ W m.
Proof. intros Hl Hp Hx Hm Hw. apply (Hl m Hw). by apply (proj1 (steps_exec _ _ _ _ _ _ Hp Hx (fun _ _ => I))). Qed.
(** A part that is quiet before what is loud: the loud statement comes after all of it, and it answered. *)
Lemma written_after {A B} (W : Moment ADB -> Prop) (q : A -> prog ADB B) p tr r m : loud W -> quiet p -> exec (p ≫= q) tr r -> In m tr -> W m ->
  exists t1 t2 a, tr = (t1 ++ t2)%list /\ exec p t1 (Some a) /\ exec (q a) t2 r /\ In m t2.
Proof.
  intros Hl Hp Hx Hm Hw. destruct (exec_bind _ _ _ _ Hx) as [(t1 & t2 & a & -> & H1 & H2)|[-> H1]].
  - exists t1, t2, a. split_and!; try done. apply in_app_iff in Hm as [Hm|Hm]; [|done]. by destruct (quiet_not _ _ _ _ _ Hl Hp H1 Hm).
  - by destruct (quiet_not _ _ _ _ _ Hl Hp H1 Hm).
Qed.
Lemma nothing_written {A} (W : Moment ADB -> Prop) (p : prog ADB A) tr r m : loud W -> quiet p -> exec p tr r -> In m tr -> W m -> False.
Proof. intros Hl H1 H2 H3. by eapply quiet_not. Qed.

Ltac quiet_one :=
  match goal with
  | |- steps _ _ _ (mbind _ _) => apply steps_bind with (Q := fun _ => True); [|intros ? _]
  | |- steps _ _ _ (match ?x with _ => _ end) => destruct x
  | |- steps _ _ _ (ask _) => apply steps_ask; done
  | |- steps _ _ _ review_read => apply steps_ask; done
  | |- steps _ _ _ (stmt _) => apply steps_stmt; intros; split; [cbv zeta; split; cbn; rewrite ?update_map; done|done]
  | |- steps _ _ _ _ => done
  end.
Ltac quiet_in := intros; repeat (cbv zeta; first [solve [auto with quiet nocore] | quiet_one]).
Create HintDb quiet.

Section Rules.
Context `{R : Runtime} `{N : Nonces}.

Lemma opened_quiet p : quiet (opened p).
Proof. unfold opened. quiet_in. Qed.
Lemma caller_quiet q : quiet (contributorOf q).
Proof. unfold contributorOf. repeat (cbv zeta; case_match; try done); apply opened_quiet. Qed.
Lemma assertion_quiet rp login bound f : quiet (checkAssertion rp login bound f).
Proof. unfold checkAssertion, takeChallenge. quiet_in. Qed.
Hint Resolve caller_quiet assertion_quiet : quiet.
Lemma gate_quiet q login subject doc a : quiet (webGate q login subject doc a).
Proof. unfold webGate. quiet_in. Qed.
Lemma browser_quiet q : quiet (personInBrowser q).
Proof. unfold personInBrowser. quiet_in. Qed.
Lemma own_draft_quiet c id : quiet (ownDraft c id).
Proof. unfold ownDraft. quiet_in. Qed.
Lemma now_refusal_quiet c x : quiet (nowRefusal c x).
Proof. unfold nowRefusal. quiet_in. Qed.
Lemma confirm_passkey_quiet q login draft form : quiet (confirmPasskey q login draft form).
Proof. unfold confirmPasskey. quiet_in. Qed.
Hint Resolve gate_quiet browser_quiet own_draft_quiet now_refusal_quiet confirm_passkey_quiet : quiet.

(** ** The web's acts *)

(** A door of the web's that a passkey confirms, the act it is for, and the answer it was given. *)
Inductive web_act (q : Ask) : door -> (VDB -> string) -> option json -> Prop :=
| wa_approve id b a : web_act q (webApprove q id b a) (approve_subject id b) a
| wa_block name reason a : web_act q (webBlockPackage q name reason a) (fun _ => "block:package:" +:+ name) a
| wa_person login reason a : web_act q (webBlockContributor q login reason a) (fun _ => "block:contributor:" +:+ login) a.
Lemma gated_writes q login subject a shut act tr r m : exec (gated q login subject a shut act) tr r -> In m tr -> writes m ->
  exists t1 t2 rp read k, tr = (t1 ++ t2)%list /\ In m t2 /\ relyingParty q = Some rp /\ rq_auth q = None /\ rq_origin q = Some (rq_at q)
    /\ accepted rp login (subject read) (assertionIn a) t1 k.
Proof.
  unfold gated. intros H Hm Hw. apply written_after with (m := m) (W := writes) in H as (t1 & t2 & read & -> & Hr & H & Hm2); [|done|quiet_in|done..].
  destruct (negb _); [destruct H as [-> _]; done|].
  apply written_after with (m := m) (W := writes) in H as (t3 & t4 & gate & -> & Hg & H & Hm4); [|done|auto with quiet|done..].
  destruct gate as [x|k]; [destruct H as [-> _]; done|]. apply exec_gate in Hg as (Ha & rp & H1 & H2 & H3 & _).
  exists (t1 ++ t3)%list, t4, rp, read, k. rewrite <- (assoc_L (++)). split_and!; try done.
  rewrite <- (app_nil_r t3). by apply accepted_more.
Qed.

(** C9: an approval or a block pressed on the web writes nothing of the
    review until the signed-in person's own passkey answered for exactly
    that act: a session of theirs in the browser, from the pool's page, a
    challenge issued to them for that act, live and spent by the answer, and
    a key of theirs for this relying party that signed it and whose counter
    moved on. *)
Theorem no_decision_without_the_persons_passkey q p subject a tr r m :
  web_act q p subject a -> exec p tr r -> In m tr -> writes m ->
  exists t1 t2 c rp read k, tr = (t1 ++ t2)%list /\ In m t2 /\ from_session q c t1 /\ relyingParty q = Some rp /\ rq_origin q = Some (rq_at q)
    /\ accepted rp (ca_login c) (subject read) (assertionIn a) t1 k.
Proof.
  intros Hp Hx Hm Hw.
  assert (H : exists t1 t2 c, tr = (t1 ++ t2)%list /\ exec (contributorOf q) t1 (Some (Some c)) /\ exists shut act, exec (gated q (ca_login c) subject a shut act) t2 r /\ In m t2).
  { destruct Hp; (apply written_after with (m := m) (W := writes) in Hx as (t1 & t2 & o & -> & Hc & Hx & Hm2); [|done|auto with quiet|done..]);
      (destruct o as [c|]; [|by destruct Hx as [-> _]]); exists t1, t2, c; split_and!; try done; by do 2 eexists. }
  destruct H as (t1 & t2 & c & -> & Hc & shut & act & Hg & Hm2).
  destruct (gated_writes _ _ _ _ _ _ _ _ _ Hg Hm2 Hw) as (t3 & t4 & rp & read & k & -> & Hm4 & H1 & H2 & H3 & H4).
  exists (t1 ++ t3)%list, t4, c, rp, read, k. rewrite <- (assoc_L (++)). split_and!; try done.
  - apply exec_caller in Hc; [|done]. apply (from_session_more _ _ [] t1 t3 Hc).
  - rewrite <- (app_nil_r t3). by apply accepted_more.
Qed.

(** ** An agent's draft *)

Lemma exec_in_browser q c s tr : exec (personInBrowser q) tr (Some (inr (c, s))) -> from_session q c tr.
Proof.
  unfold personInBrowser. intros H. destruct (browserSession q) as [[s'| |]|] eqn:Eb; try (by destruct H). apply browser_none in Eb.
  apply exec_answers in H as (t1 & t2 & o & -> & Hc & [-> H]). destruct o as [c'|]; [|done]. injection H as <- <-. rewrite app_nil_r. by apply exec_caller.
Qed.
Lemma exec_own_draft c id x tr : exec (ownDraft c id) tr (Some (inr x)) ->
  dr_id x = id /\ dr_login x = ca_login c /\ exists m, In m tr /\ In x (drafts (m_before m)).
Proof.
  unfold ownDraft. intros H. apply exec_answers in H as (t1 & t2 & o & -> & Ho & [-> H]). destruct o as [y|]; [|done].
  destruct (String.eqb_spec (dr_login y) (ca_login c)) as [El|]; [|done]. injection H as <-. destruct (draft_id id); [|by destruct Ho].
  apply exec_ask in Ho as (now & d & -> & Hy). symmetry in Hy. apply List.find_some in Hy as [Hy E]. apply String.eqb_eq in E.
  split_and!; try done. eexists. split; [by left|done].
Qed.
Lemma exec_now_refusal c x tr : exec (nowRefusal c x) tr (Some None) ->
  (exists m, In m tr /\ grant_stands (dr_grant x) (m_before m) = true) /\ (exists m, In m tr /\ facts_now (ca_who c) x (m_before m) = Some (dr_facts x)).
Proof.
  unfold nowRefusal. intros H. apply exec_answers in H as (t1 & t2 & live & -> & Hl & H). apply exec_ask in Hl as (n1 & d1 & -> & Hl).
  destruct live; [|by destruct H]. cbn [negb] in H. apply exec_answers in H as (t3 & t4 & on & -> & Ho & [-> H]). apply exec_ask in Ho as (n2 & d2 & -> & Ho).
  destruct on as [facts|]; [|done]. destruct (String.eqb_spec facts (dr_facts x)) as [->|]; [|done].
  split; [exists {| m_now := n1; m_before := d1; m_after := d1 |}|exists {| m_now := n2; m_before := d2; m_after := d2 |}]; (split; [cbn; auto|by symmetry]).
Qed.
(** Every row of a draft's id is spent, and there is one. *)
Definition spent (id : string) (d : ADB) : Prop :=
  (exists x, In x (drafts d) /\ dr_id x = id) /\ forall x, In x (drafts d) -> dr_id x = id -> dr_used x <> None.
(** The spending statement: a waiting draft of this login, within its minutes, spent by it. *)
Definition spends (m : Moment ADB) (id login : string) : Prop :=
  exists y, In y (drafts (m_before m)) /\ dr_id y = id /\ dr_login y = login /\ dr_used y = None /\ m_now m < dr_expires y.
Lemma exec_spend id login s (tr : list (Moment ADB)) : exec (stmt (fun now d => spend id login true s now d)) tr (Some true) -> exists m, tr = [m] /\ spends m id login.
Proof.
  intros (now & d & -> & H)%exec_stmt. unfold spend in H. cbn [snd] in H. symmetry in H. apply existsb_exists in H as (y & Hy & E).
  unfold spendable, is_draft in E. cbn [negb orb] in E. breflect. eexists. split; [done|]. exists y. cbn. split_and!; try done. by destruct (dr_used y).
Qed.

(** C10: what a draft's confirmation writes of the review, it writes after all
    of this: the signed-in person's own session from the pool's page; the
    draft theirs; its agent's grant standing; the predicate allowing the
    verdict on the very facts it was drafted on; the draft spent by this
    request, waiting until then and within its thirty minutes; and, for an
    approval and a block, the person's own passkey answering for this draft. *)
Theorem a_draft_is_decided_by_its_person q id form fails tr r m : exec (handleConfirm q id form fails) tr r -> In m tr -> writes m ->
  exists t1 t2 c x f, form = Some f /\ tr = (t1 ++ t2)%list /\ In m t2 /\ from_session q c t1 /\ rq_origin q = Some (rq_at q)
    /\ dr_id x = id /\ dr_login x = ca_login c /\ (exists m0, In m0 t1 /\ In x (drafts (m_before m0)))
    /\ (exists m0, In m0 t1 /\ grant_stands (dr_grant x) (m_before m0) = true)
    /\ (exists m0, In m0 t1 /\ facts_now (ca_who c) x (m_before m0) = Some (dr_facts x))
    /\ (exists m0, In m0 t1 /\ spends m0 id (ca_login c))
    /\ (asks_passkey (dr_verdict x) = true -> exists rp k, relyingParty q = Some rp /\ accepted rp (ca_login c) id (assertionForm f) t1 k).
Proof.
  unfold handleConfirm. intros H Hm Hw.
  apply written_after with (m := m) (W := writes) in H as (t1 & u1 & who & -> & Hc & H & Hm1); [|done|auto with quiet|done..].
  destruct who as [no|[c s]]; [by destruct H as [-> _]|]. destruct (negb (sameOrigin q)) eqn:Eo; [by destruct H as [-> _]|].
  apply negb_false_iff, ostr_eqb_eq in Eo. destruct form as [f|]; [|by destruct H as [-> _]].
  apply written_after with (m := m) (W := writes) in H as (t2 & u2 & found & -> & Hx & H & Hm2); [|done|auto with quiet|done..].
  destruct found as [no|x]; [by destruct H as [-> _]|]. apply exec_own_draft in Hx as (Eid & El & Hx).
  destruct (negb (sameNonce _ _)); [by destruct H as [-> _]|].
  destruct (ostr_eqb _ (Some "discard")).
  { exfalso. eapply (nothing_written writes); [done| |exact H|done..]. quiet_in. }
  destruct (is_some (dr_used x)); [by destruct H as [-> _]|].
  apply written_after with (m := m) (W := writes) in H as (t3 & u3 & now & -> & _ & H & Hm3); [|done|quiet_in|done..].
  destruct (_ <=? _); [by destruct H as [-> _]|].
  apply written_after with (m := m) (W := writes) in H as (t4 & u4 & pk & -> & Hk & H & Hm4); [|done|quiet_in|done..].
  destruct pk as [no|k]; [by destruct H as [-> _]|]. destruct (_ && _); [by destruct H as [-> _]|].
  apply written_after with (m := m) (W := writes) in H as (t5 & u5 & no & -> & Hn & H & Hm5); [|done|auto with quiet|done..].
  destruct no as [no|].
  { exfalso. eapply (nothing_written writes); [done| |exact H|done..]. quiet_in. }
  apply exec_now_refusal in Hn as [Hg Hf].
  apply written_after with (m := m) (W := writes) in H as (t6 & u6 & once & -> & Hs & H & Hm6); [|done|quiet_in|done..].
  destruct once; [|by destruct H as [-> _]]. apply exec_spend in Hs as (ms & -> & Hs).
  exists (t1 ++ t2 ++ t3 ++ t4 ++ t5 ++ [ms])%list, u6, c, x, f. rewrite <- !(assoc_L (++)).
  assert (Hin : forall P t, (exists m0, In m0 t /\ P m0) -> (forall m0, In m0 t -> In m0 (t1 ++ t2 ++ t3 ++ t4 ++ t5 ++ [ms])%list) ->
           exists m0, In m0 (t1 ++ t2 ++ t3 ++ t4 ++ t5 ++ [ms])%list /\ P m0) by (intros P t (m0 & H1 & H2) H3; exists m0; auto).
  split_and!; try done.
  - apply exec_in_browser in Hc. by apply (from_session_more _ _ [] t1).
  - eapply Hin; [exact Hx|]. intros m0. rewrite !in_app_iff. auto 10.
  - eapply Hin; [exact Hg|]. intros m0. rewrite !in_app_iff. auto 10.
  - eapply Hin; [exact Hf|]. intros m0. rewrite !in_app_iff. auto 10.
  - exists ms. split; [rewrite !in_app_iff; cbn; auto 10|]. by rewrite <- Eid.
  - intros Ha. rewrite Ha in Hk. apply exec_answers in Hk as (t7 & t8 & o & -> & Hk & [-> Ek]). destruct o as [no|k']; [done|].
    unfold confirmPasskey in Hk. destruct (relyingParty q) as [rp|]; [|by destruct Hk].
    apply exec_answers in Hk as (t9 & t10 & o & -> & Hk & [-> E]). destruct o as [|k2]; [done|]. injection E as <-. exists rp, k'. split; [done|].
    rewrite !app_nil_r. rewrite <- Eid. apply exec_assertion in Hk. apply (accepted_more _ _ _ _ (t1 ++ t2 ++ t3)%list _ (t5 ++ [ms])%list) in Hk.
    by rewrite <- !(assoc_L (++)) in Hk.
Qed.

(** ** A passkey joins *)

Lemma on_rp_quiet q need : quiet (personOnRp q need).
Proof. unfold personOnRp. quiet_in. Qed.
Lemma take_quiet value login p bound : quiet (takeChallenge value login p bound).
Proof. unfold takeChallenge. quiet_in. Qed.
Lemma not_inserted_quiet q login credential vouched : quiet (not_inserted q login credential vouched).
Proof. unfold not_inserted. quiet_in. Qed.
Hint Resolve on_rp_quiet take_quiet not_inserted_quiet : quiet.
Lemma insert_adds k vouched session d d' b : insert_batch k vouched session d = Some (d', b) ->
  (b = false /\ passkeys d' = passkeys d) \/ (b = true /\ may_insert k vouched session d = true /\ passkeys d' = (passkeys d ++ [k])%list).
Proof.
  unfold insert_batch. destruct (may_insert _ _ _ _) eqn:Em; [destruct (some_where _ _); [done|]|]; intros [= <- <-].
  - right. destruct (passkey_event_is "ok" "register" (pk_login k) (pk_id k) vouched (set_passkeys (passkeys d ++ [k]) d)) as [l ->]. done.
  - left. destruct (passkey_event_is "ok" "register" (pk_login k) (pk_id k) vouched d) as [l ->]. done.
Qed.
Lemma store_adds q c rp body label challenge id vouched tr r m :
  exec (store_passkey q c rp body label challenge id vouched) tr r -> In m tr -> adds m ->
  exists reg k, verifyRegistration (registration_of body) (expected challenge rp) = Ok reg /\ k = new_passkey id (ca_login c) label rp reg (m_now m)
    /\ passkeys (m_after m) = (passkeys (m_before m) ++ [k])%list /\ may_insert k vouched (session_hash q) (m_before m) = true.
Proof.
  unfold store_passkey. intros H Hm Ha. destruct (verifyRegistration _ _) as [reg|e|] eqn:Ev; [|by destruct H as [-> _]|by destruct H as [-> _]].
  exists reg. destruct H as (now & d & tr' & -> & H). destruct Hm as [<-|Hm]; cbn [m_now m_before m_after] in *.
  - destruct (insert_batch _ _ _ _) as [[d' b]|] eqn:Ei.
    + apply insert_adds in Ei as [(_ & E)|(_ & E1 & E2)].
      * destruct Ha as (k & Hk & Hn). cbn in Hk, Hn. rewrite E in Hk. by destruct (Hn k).
      * by eexists.
    + destruct Ha as (k & Hk & Hn). by destruct (Hn k).
  - exfalso. destruct (insert_batch _ _ _ _) as [[d' b]|]; [|by destruct H as [-> _]]. destruct b; [by destruct H as [-> _]|].
    exact (nothing_written adds _ _ _ _ adds_loud (not_inserted_quiet _ _ _ _) H Hm Ha).
Qed.

(** C13: a passkey joins a login only in the registration of a maintainer in
    their own session, from the pool's page, with a verified answer to a live
    challenge issued to them to register; the session is still theirs in the
    very statement that stores the key, and either the login holds none then,
    or a key it still holds answered for the addition. *)
Theorem a_later_passkey_is_vouched_for q body id tr r m : exec (handlePasskeyRegister q body id) tr r -> In m tr -> adds m ->
  exists t1 t2 c rp k reg label challenge, tr = (t1 ++ t2)%list /\ In m t2 /\ from_session q c t1 /\ maintainerRefusal c = None
    /\ relyingParty q = Some rp /\ rq_origin q = Some (rq_at q)
    /\ verifyRegistration (registration_of body) (expected challenge rp) = Ok reg
    /\ (exists m0 x, In m0 t1 /\ In x (challenges (m_before m0)) /\ ch_value x = challenge /\ good_for (ca_login c) p_register None (m_now m0) x = true)
    /\ k = new_passkey id (ca_login c) label rp reg (m_now m) /\ passkeys (m_after m) = (passkeys (m_before m) ++ [k])%list
    /\ session_of (m_before m) (ca_login c) = Some (session_hash q)
    /\ (has_passkey (m_before m) (ca_login c) = false
        \/ exists v, accepted rp (ca_login c) "passkey:add" (assertionIn (field body "assertion")) t1 v
             /\ is_some (own_passkey (m_before m) (cf_passkey v) (ca_login c)) = true).
Proof.
  unfold handlePasskeyRegister. intros H Hm Ha.
  apply written_after with (m := m) (W := adds) in H as (t1 & u1 & who & -> & Hc & H & Hm1); [|done|auto with quiet|done..].
  destruct who as [no|[c rp]]; [by destruct H as [-> _]|]. apply exec_on_rp in Hc as (Hc & Hrp & Ho & Hma). specialize (Hma eq_refl).
  destruct (negb _); [by destruct H as [-> _]|]. destruct (passkeyLabel _) as [label|]; [|by destruct H as [-> _]].
  destruct (challengeOf _) as [challenge|]; [|by destruct H as [-> _]].
  apply written_after with (m := m) (W := adds) in H as (t2 & u2 & good & -> & Ht & H & Hm2); [|done|auto with quiet|done..].
  destruct good; [|by destruct H as [-> _]]. cbn [negb] in H. apply exec_take in Ht as (m0 & x & -> & Hx1 & Hx2 & Hx3 & _).
  apply written_after with (m := m) (W := adds) in H as (t3 & u3 & has & -> & Hh & H & Hm3); [|done|quiet_in|done..].
  assert (Hend : forall t4 u4 vouched, u3 = (t4 ++ u4)%list -> exec (store_passkey q c rp body label challenge id vouched) u4 r -> In m u4 ->
    (vouched = None \/ exists v, vouched = Some (cf_passkey v) /\ accepted rp (ca_login c) "passkey:add" (assertionIn (field body "assertion")) t4 v) ->
    exists t1' t2' c0 rp0 k reg label0 challenge0, (t1 ++ [m0] ++ t3 ++ u3 = t1' ++ t2')%list /\ In m t2' /\ from_session q c0 t1' /\ maintainerRefusal c0 = None
    /\ relyingParty q = Some rp0 /\ rq_origin q = Some (rq_at q) /\ verifyRegistration (registration_of body) (expected challenge0 rp0) = Ok reg
    /\ (exists m1 x, In m1 t1' /\ In x (challenges (m_before m1)) /\ ch_value x = challenge0 /\ good_for (ca_login c0) p_register None (m_now m1) x = true)
    /\ k = new_passkey id (ca_login c0) label0 rp0 reg (m_now m) /\ passkeys (m_after m) = (passkeys (m_before m) ++ [k])%list
    /\ session_of (m_before m) (ca_login c0) = Some (session_hash q)
    /\ (has_passkey (m_before m) (ca_login c0) = false
        \/ exists v, accepted rp0 (ca_login c0) "passkey:add" (assertionIn (field body "assertion")) t1' v
             /\ is_some (own_passkey (m_before m) (cf_passkey v) (ca_login c0)) = true)).
  { intros t4 u4 vouched -> Hs Hm4 Hv. destruct (store_adds _ _ _ _ _ _ _ _ _ _ _ Hs Hm4 Ha) as (reg & k & Hreg & Hk & E & Hmay).
    exists (t1 ++ [m0] ++ t3 ++ t4)%list, u4, c, rp, k, reg, label, challenge. rewrite <- !(assoc_L (++)). unfold may_insert in Hmay. subst k. cbn in Hmay. breflect.
    split_and!; try done.
    - by apply (from_session_more _ _ [] t1).
    - exists m0, x. split_and!; try done. rewrite !in_app_iff. cbn. auto.
    - destruct Hv as [->|(v & -> & Hv)]; [left; by apply negb_true_iff|right]. exists v. split; [|done].
      apply (accepted_more _ _ _ _ (t1 ++ [m0] ++ t3)%list _ []) in Hv. by rewrite app_nil_r, <- !(assoc_L (++)) in Hv. }
  destruct has.
  - apply written_after with (m := m) (W := adds) in H as (t4 & u4 & ok & -> & Hk & H & Hm4); [|done|auto with quiet|done..].
    destruct ok as [no|v]; [by destruct H as [-> _]|]. apply exec_assertion in Hk. eapply Hend; [done|exact H|done|]. right. by exists v.
  - eapply (Hend [] u3); [done|exact H|done|by left].
Qed.
End Rules.

(** ** A reset *)

(** No session, a token nothing hashes to, no passkey, and of its grants none that lives or waits for its swap. *)
Record locked (login : string) (now : Z) (d : ADB) : Prop := {
  lk_account : exists a, accounts d !! login = Some a /\ ac_session a = None /\ was_reset a = true;
  lk_keys : has_passkey d login = false;
  lk_grants g : In g (grants d) -> gr_login g = login -> swapped g = true /\ live_grant now g = false }.
Lemma live_later now now' g : now <= now' -> live_grant now g = false -> live_grant now' g = false.
Proof. unfold live_grant. destruct (unrevoked g && swapped g); [|done]. cbn. rewrite !Z.ltb_ge. lia. Qed.
Lemma locked_later login now now' d : now <= now' -> locked login now d -> locked login now' d.
Proof. intros Hn []. split; try done. intros g Hg Hl. destruct (lk_grants0 g Hg Hl). split; [done|by eapply live_later]. Qed.

(** ** What keeps it *)

(** The login's account as it is, whatever of it was seen or counted, and its session at most ended. *)
Definition account_kept (login : string) (d d' : ADB) : Prop :=
  forall a, accounts d !! login = Some a -> exists a', accounts d' !! login = Some a' /\ ac_token a' = ac_token a /\ (ac_session a = None -> ac_session a' = None).
Lemma kept_alter login l f d d' : accounts d' = alter f l (accounts d) -> (l = login -> forall a, ac_token (f a) = ac_token a /\ (ac_session a = None -> ac_session (f a) = None)) ->
  account_kept login d d'.
Proof.
  intros E H a Ha. rewrite E. destruct (decide (l = login)) as [->|Hl].
  - exists (f a). rewrite lookup_alter, Ha. split; [by rewrite decide_True|]. by apply H.
  - exists a. by rewrite lookup_alter_ne.
Qed.
Lemma kept_same login d d' : accounts d' = accounts d -> account_kept login d d'.
Proof. intros E a Ha. exists a. by rewrite E. Qed.
Definition not_of (login l : string) : Prop := l <> login.
Lemma touch_account login now d d' : touch (not_of login) now d d' -> (forall a, accounts d !! login = Some a -> was_reset a = true) ->
  has_passkey d login = false -> account_kept login d d'.
Proof.
  intros Ht Hw Hk. destruct (touch_accounts _ _ _ _ Ht) as [E|H]; [by apply kept_same|].
  destruct H as [l f E Hf|l role session unset u Hl H|s ->|l role token b H|l token Hl E|k c ->|by_ l w mark ids s H].
  - apply kept_alter with (l := l) (f := f); [done|]. intros _ a. by destruct (Hf a) as (-> & -> & _).
  - unfold signed_in in H. destruct (held_by_another _ _ _); [done|]. destruct (accounts d !! l) as [a0|] eqn:E.
    + injection H as <-. intros a Ha. exists a. cbn. by rewrite lookup_insert_ne.
    + destruct (held_by_another _ _ _); [done|]. injection H as <-. intros a Ha. exists a. cbn. by rewrite lookup_insert_ne.
  - intros a Ha. cbn. rewrite lookup_fmap, Ha. cbn. eexists. split; [done|]. by case_match.
  - unfold registered in H. destruct (held_by_another _ _ _); [done|]. destruct (decide (l = login)) as [->|Hl].
    + intros a Ha. rewrite Ha in H. rewrite (Hw a Ha) in H. injection H as <- <-. by exists a.
    + intros a Ha. exists a. split; [|done]. destruct (accounts d !! l) as [a0|]; [destruct (was_reset a0)|]; injection H as <- <-; cbn; by rewrite ?lookup_insert_ne.
  - by apply kept_alter with (l := l) (f := set_token token).
  - unfold day_statement. destruct (accounts d !! ca_login c) eqn:E; [|by apply kept_same]. destruct (day_open _ _ _ _); [|by apply kept_same].
    by apply kept_alter with (l := ca_login c) (f := counted k (utcDay now)).
  - pose proof (rd_accounts _ _ _ _ _ _ _ _ _ (reset_spec _ _ _ _ _ _ _ _ _ H)) as E.
    destruct (decide (l = login)) as [->|Hl].
    + rewrite Hk in E. cbn in E. by apply kept_alter with (l := login) (f := set_session None).
    + intros a Ha. exists a. rewrite E, lookup_alter_ne by done. split; [|done]. case_match; [by rewrite lookup_alter_ne|done].
Qed.
(** No session, no passkey: nothing stores one. *)
Lemma touch_no_keys L login now d d' : touch L now d d' -> session_of d login = None -> has_passkey d login = false -> has_passkey d' login = false.
Proof.
  intros [[E _]|H]%touch_keys Hs Hk; [unfold has_passkey in *; by rewrite E|].
  assert (Hno : forall x, In x (passkeys d) -> holds login x = false) by by apply no_such.
  assert (Hend : (forall x, In x (passkeys d') -> holds login x = false) -> has_passkey d' login = false).
  { intros Hx. unfold has_passkey. destruct (some_where _ _) eqn:E; [|done]. apply existsb_exists in E as (x & Hin & E). by rewrite (Hx x Hin) in E. }
  destruct H as [value l p bound d1 b H|value l p bound|k vouched session d1 b _ _ H|id counter|id l confirmed|by_ l confirmed mark ids d1 s H]; apply Hend.
  - unfold issue_batch in H. open_batches; auto.
  - done.
  - unfold insert_batch in H. destruct (may_insert k vouched session d) eqn:Em; [destruct (some_where _ _); [done|]|]; injection H as <- <-;
      edestruct (passkey_event_is "ok" "register" (pk_login k) (pk_id k) vouched) as [e ->]; [|done].
    cbn. intros x [Hx|[<-|[]]]%in_app_iff; [auto|]. unfold holds. apply String.eqb_neq. intros El. unfold may_insert in Em. breflect. by rewrite El, Hs in *.
  - intros x [y [Hy ->]]%in_update. transitivity (holds login y); [by case_match|by apply Hno].
  - unfold remove_batch. edestruct (passkey_event_is "warn" "remove" l id (Some confirmed) d) as [e ->]. cbn. intros x [Hx _]%in_without. auto.
  - rewrite (rd_keys _ _ _ _ _ _ _ _ _ (reset_spec _ _ _ _ _ _ _ _ _ H)). intros x [Hx _]%in_without. auto.
Qed.
Definition shut (login : string) (now : Z) (g : Grant) : Prop := gr_login g = login -> swapped g = true /\ live_grant now g = false.
Lemma shut_revoke login now by_ g : shut login now g -> shut login now (revoke now by_ g).
Proof. intros H Hl. by destruct (H Hl). Qed.
Lemma touch_shut login now d d' : touch (not_of login) now d d' -> (forall g, In g (grants d) -> shut login now g) -> forall g, In g (grants d') -> shut login now g.
Proof.
  intros [E|H]%touch_grants Hg; [by rewrite E|].
  assert (Hup : forall p f, (forall g, p g = true -> shut login now g -> shut login now (f g)) -> forall g, In g (update_where p f (grants d)) -> shut login now g).
  { intros p f Hf g (x & Hx & ->)%in_update. destruct (p x) eqn:E; [apply Hf; auto|auto]. }
  destruct H as [id l a code d1 b Hl H|hash code ch d1 r H|hash|id l|id|by_ l confirmed mark ids d1 s H|c l reason gate read].
  - unfold grant_insert in H. cbv zeta in H. destruct (_ <? _); [destruct (some_where _ _); [done|]|]; injection H as <- <-; cbn.
    + intros g [[Hx _]%in_without|[<-|[]]]%in_app_iff; [auto|]. by intros E.
    + intros g [Hx _]%in_without. auto.
  - destruct (swap_grants _ _ _ _ _ _ _ H) as (l & E & -> & _). rewrite E.
    assert (Hs : forall g, In g (update_where (swappable code ch now) (swap hash) (grants d)) -> shut login now g).
    { apply Hup. intros g Hp Hsh El. destruct (Hsh El) as [Hw _]. unfold swappable in Hp. breflect. by rewrite Hw in *. }
    destruct (List.find _ _) as [y|]; [|done]. intros g (x & Hx & ->)%in_update. case_match; [apply shut_revoke|]; auto.
  - unfold logout_batch. cbn [fst]. rewrite grants_discard. apply Hup. intros g _. apply shut_revoke.
  - unfold revoke_batch. cbn [fst]. rewrite grants_discard. apply Hup. intros g _. apply shut_revoke.
  - apply Hup. done.
  - rewrite (rd_grants _ _ _ _ _ _ _ _ _ (reset_spec _ _ _ _ _ _ _ _ _ H)). intros g [Hx _]%in_without. destruct (has_passkey d l); [|auto].
    revert g Hx. apply Hup. intros g _. apply shut_revoke.
  - unfold block_batch. cbn [fst]. destruct (done _); [|auto]. unfold block_grants. rewrite grants_discard. apply Hup. intros g _. apply shut_revoke.
Qed.
Lemma touch_locked login now d d' : locked login now d -> touch (not_of login) now d d' -> locked login now d'.
Proof.
  intros [(a & Ha & Hs & Hw) Hk Hg] Ht. split.
  - destruct (touch_account login now d d' Ht) with (a := a) as (a' & Ha' & Et & Es); [|done..|].
    { intros a0 Ha0. by rewrite Ha in Ha0; injection Ha0 as <-. }
    exists a'. split_and!; [done|auto|]. unfold was_reset. by rewrite Et.
  - eapply touch_no_keys; [exact Ht| |done]. unfold session_of. by rewrite Ha.
  - intros g Hin. by apply (touch_shut login now d d' Ht Hg).
Qed.

(** ** What was under way *)

(** Only a sign-in gives a login a session. *)
Lemma touch_session L login now d d' : touch L now d d' -> session_of d login = None ->
  session_of d' login = None \/ exists role session unset u, signed_in login role session unset now d = Some (d', u).
Proof.
  intros Ht Hs.
  assert (Hal : forall l f, accounts d' = alter f l (accounts d) -> (forall a, ac_session a = None -> ac_session (f a) = None) -> session_of d' login = None).
  { intros l f E Hf. unfold session_of in *. rewrite E. destruct (decide (l = login)) as [->|Hl]; [rewrite lookup_alter, decide_True by done|by rewrite lookup_alter_ne].
    destruct (accounts d !! login) as [a|]; [|done]. by apply Hf. }
  assert (Hsm : accounts d' = accounts d -> session_of d' login = None) by (unfold session_of; by intros ->).
  assert (Hin : forall l a, accounts d' = <[l := a]> (accounts d) -> (l = login -> ac_session a = None) -> session_of d' login = None).
  { intros l a E Ha. unfold session_of in *. rewrite E. destruct (decide (l = login)) as [->|Hl]; [rewrite lookup_insert, decide_True by done; by apply Ha|by rewrite lookup_insert_ne]. }
  destruct (touch_accounts _ _ _ _ Ht) as [E|H]; [by left; apply Hsm|].
  destruct H as [l f E Hf|l role session unset u Hl H|s ->|l role token b H|l token Hl E|k c ->|by_ l w mark ids s H].
  - left. apply Hal with (l := l) (f := f); [done|]. intros a. by destruct (Hf a) as (-> & _).
  - destruct (decide (l = login)) as [->|Hne]; [right; by exists role, session, unset, u|left]. unfold signed_in in H. destruct (held_by_another _ _ _); [done|].
    destruct (accounts d !! l); [|destruct (held_by_another _ _ _); [done|]]; injection H as <-; by eapply Hin.
  - left. unfold session_of in *. cbn. rewrite lookup_fmap. destruct (accounts d !! login) as [a|]; [|done]. cbn in *. by case_match.
  - left. unfold registered in H. destruct (held_by_another _ _ _); [done|]. destruct (accounts d !! l) as [a0|] eqn:E.
    + destruct (was_reset a0); injection H as <- <-; [done|]. eapply Hin; [done|]. intros ->. unfold session_of in Hs. by rewrite E in Hs.
    + injection H as <- <-. by eapply Hin.
  - left. by apply Hal with (l := l) (f := set_token token).
  - left. unfold day_statement in *. destruct (accounts d !! ca_login c); [|by apply Hsm]. destruct (day_open _ _ _ _); [|by apply Hsm].
    by apply Hal with (l := ca_login c) (f := counted k (utcDay now)).
  - left. pose proof (rd_accounts _ _ _ _ _ _ _ _ _ (reset_spec _ _ _ _ _ _ _ _ _ H)) as E. unfold session_of in *. rewrite E.
    destruct (decide (l = login)) as [->|Hne]; [rewrite lookup_alter, decide_True by done|rewrite lookup_alter_ne by done].
    + match goal with |- context [?m !! login] => by destruct (m !! login) end.
    + destruct (_ && _); [by rewrite lookup_alter_ne|done].
Qed.
Section UnderWay.
Context `{R : Runtime} `{N : Nonces}.
(** A run in which the login stays signed out. *)
Inductive still_out (login : string) (w : World ADB Reply) : World ADB Reply -> Prop :=
| so_none : still_out login w w
| so_more w' w'' : still_out login w w' -> wstep (a_door anyone) w' w'' -> session_of (w_db w'') login = None -> still_out login w w''.
Lemma still_out_run login w w' : still_out login w w' -> wsteps (a_door anyone) w w'.
Proof. induction 1; [constructor|by econstructor]. Qed.

(** C12: a registration already under way when a reset lands stores nothing:
    whatever requests are in flight at the reset's batch - the lost device's
    own included - the login gets no passkey as long as it stays signed out,
    and only a sign-in of that login with GitHub ends that. *)
Theorem no_registration_outlives_a_reset by_ login confirmed mark ids now d d' s (w w' : World ADB Reply) :
  reset_batch by_ login confirmed mark ids now d = Some (d', s) -> w_db w = d' -> in_flight_ok w -> still_out login w w' ->
  has_passkey (w_db w') login = false
  /\ forall w'', wstep (a_door anyone) w' w'' -> session_of (w_db w'') login = None
       \/ exists role session unset u, signed_in login role session unset (w_now w'') (w_db w') = Some (w_db w'', u).
Proof.
  intros H Ed Hf Hs.
  assert (H0 : session_of (w_db w) login = None /\ has_passkey (w_db w) login = false).
  { destruct (reset_spec _ _ _ _ _ _ _ _ _ H) as [_ Ek _ _ Ea _ _ _ _]. rewrite Ed. unfold session_of, has_passkey. rewrite Ek, Ea, lookup_alter, decide_True by done. split.
    - match goal with |- context [?m !! login] => by destruct (m !! login) end.
    - destruct (some_where _ _) eqn:E; [|done]. apply existsb_exists in E as (x & Hx & E). apply in_without in Hx as [_ Hx]. congruence. }
  assert (H1 : session_of (w_db w') login = None /\ has_passkey (w_db w') login = false).
  { induction Hs as [|w1 w2 Hs IH Hst Hn]; [done|]. destruct IH as [I1 I2]. split; [done|].
    destruct (step_touches w1 w2) as [->|Ht]; [by eapply run_in_flight; [exact Hf|by eapply still_out_run]|done|done|]. by eapply touch_no_keys. }
  split; [apply H1|]. intros w'' Hst. destruct (step_touches w' w'') as [->|Ht]; [|done|left; apply H1|].
  - eapply run_in_flight; [exact Hf|by eapply still_out_run].
  - eapply touch_session; [exact Ht|apply H1].
Qed.
End UnderWay.

(** ** Who still comes in *)

Section Locks.
Context `{R : Runtime} `{N : Nonces}.
(** SHA-256 gives bytes. *)
Hypothesis sha256_bytes : forall b, are_bytes (sha256 b).

Lemma hex_digit_is v : 0 <= v < 16 -> is_hex_lower (hex_digit v) = true.
Proof. intros H. assert (v = 0 \/ v = 1 \/ v = 2 \/ v = 3 \/ v = 4 \/ v = 5 \/ v = 6 \/ v = 7 \/ v = 8 \/ v = 9 \/ v = 10 \/ v = 11 \/ v = 12 \/ v = 13 \/ v = 14 \/ v = 15) as Hv by lia. by repeat destruct Hv as [->|Hv]; [..|subst]. Qed.
Lemma no_hash_is_a_mark s a : ac_token a = sha256Hex s -> was_reset a = false.
Proof.
  unfold was_reset, sha256Hex. intros ->. destruct (sha256 (bytes_of s)) as [|x l] eqn:E; [done|]. pose proof (sha256_bytes (bytes_of s)) as H. rewrite E in H.
  apply Forall_cons in H as [Hx _]. unfold is_byte in Hx. cbn [to_hex]. pose proof (hex_digit_is (x / 16)) as Hd.
  unfold RESET_TOKEN_MARK, starts_with. cbn [String.prefix]. destruct (ascii_dec _ _) as [Eh|]; [|done]. rewrite <- Eh in Hd.
  exfalso. enough (is_hex_lower "r" = true) by done. apply Hd. Z.div_mod_to_equations; lia.
Qed.
Lemma callers_locked login q : steps (locked login) (touch (not_of login)) (allowed (not_of login)) (contributorOf q).
Proof.
  assert (Hno : forall (p : Account -> bool), (forall a, ac_session a = None -> was_reset a = true -> p a = false) ->
    steps (locked login) (touch (not_of login)) (allowed (not_of login)) (opened p)).
  { intros p Hp. apply opened_steps. intros now d [l a] [(a0 & Ha & Hs & Hw) _ _] Hx. cbn. intros ->.
    unfold account_where in Hx. apply List.find_some in Hx as [Hin Hx]. cbn in Hx. apply list_elem_of_In, elem_of_map_to_list in Hin.
    rewrite Ha in Hin. injection Hin as <-. by rewrite Hp in Hx. }
  unfold contributorOf. repeat (cbv zeta; case_match; try done); apply Hno.
  - intros a _ Hw. apply String.eqb_neq. intros E. apply no_hash_is_a_mark in E. congruence.
  - intros a Hs _. by rewrite Hs.
  - intros a _ Hw. apply String.eqb_neq. intros E. apply no_hash_is_a_mark in E. congruence.
  - intros a Hs _. by rewrite Hs.
Qed.
Lemma locked_door login p : a_door (not_of login) p -> steps (locked login) (touch (not_of login)) (fun _ => True) p.
Proof. apply door_walks, callers_locked. Qed.

(** ** The reset *)

Lemma reset_locks by_ login confirmed mark ids now d d' s : is_some (accounts d !! login) = true ->
  reset_batch by_ login confirmed (RESET_TOKEN_MARK +:+ mark) ids now d = Some (d', s) -> rs_line s = true -> locked login now d'.
Proof.
  intros Ha H Hl. destruct (reset_spec _ _ _ _ _ _ _ _ _ H) as [_ Ek _ Eg Ea El _ _ _]. rewrite Hl in El. symmetry in El. rewrite El in Eg, Ea. rewrite Ha in Ea. cbn in Ea. split.
  - rewrite Ea, !lookup_alter. destruct (accounts d !! login) as [a|]; [|done]. rewrite !decide_True by done. eexists. split; [done|]. split; [done|].
    unfold was_reset. cbn. unfold RESET_TOKEN_MARK. by destruct mark.
  - unfold has_passkey. destruct (some_where _ _) eqn:E; [|done]. apply existsb_exists in E as (x & Hx & E). rewrite Ek in Hx. apply in_without in Hx as [_ Hx]. congruence.
  - intros g Hg Hlo. rewrite Eg in Hg. apply in_without in Hg as [(x & Hx & ->)%in_update Hw].
    assert (Hof : of_login login x = true) by (apply String.eqb_eq; revert Hlo; by case_match).
    assert (Hsw : swapped x = true).
    { destruct (swapped x) eqn:E; [done|]. exfalso. assert (Hv : live_grant now x = false) by (unfold live_grant; by rewrite E, andb_false_r).
      rewrite Hof, Hv in Hw. cbn in Hw. by rewrite Hof, E in Hw. }
    rewrite Hof. cbn [andb]. destruct (live_grant now x) eqn:Ev; done.
Qed.

(** C11: a reset shuts the login out until its person signs in with GitHub
    again: from the tables the reset's batch leaves, with no request of
    anyone's in flight, over every run of the accounts' doors in which that
    login does not sign in - registrations with a GitHub token, swaps of codes
    and tokens kept from before, other people's acts included - the login has
    no session, no passkey, a token nothing hashes to, and no agent's grant
    that lives or waits for its swap. *)
Theorem a_reset_shuts_the_login_out by_ login confirmed mark ids now d d' s (w w' : World ADB Reply) :
  is_some (accounts d !! login) = true -> reset_batch by_ login confirmed (RESET_TOKEN_MARK +:+ mark) ids now d = Some (d', s) -> rs_line s = true ->
  w_db w = d' -> w_now w = now -> w_running w = [] -> wsteps (a_door (not_of login)) w w' -> locked login (w_now w') (w_db w').
Proof.
  intros Ha H Hl Ed En Er Hs.
  refine (proj1 (wsteps_in_order (a_door (not_of login)) (locked login) (touch (not_of login)) _ _ (locked_door login) w w' _ Hs)).
  - intros. by eapply locked_later.
  - intros. by eapply touch_locked.
  - split; [|rewrite Er; constructor]. rewrite Ed, En. by eapply reset_locks.
Qed.
End Locks.
