(* ===== verification/GrantRules.v ===== *)
(** What an agent gets of its person, and for how long: the caps of the tables over every run, the swap of a code, the reach of a token,
    the day's counts, a draft's one decision (Grants.v, Passkeys.v, Drafts.v). *)
From S2P Require Import Prelude JsTime Json JsonText Bytes WebAuthn Program.
From S2P Require Import Tasks Targets Rings Governance Projects Review ReviewDoors Blocks Delivery Contributors Requests.
From S2P Require Import Accounts Grants Passkeys Drafts AccountRuns AccountTables.
Local Open Scope string_scope.
Local Open Scope Z_scope.

Section Caps.
Context `{R : Runtime} `{N : Nonces}.

(** over every run of the accounts' doors, a login keeps ten passkeys at
    most and five live challenges at most, no two rows share a credential, an
    id or a challenge, and no challenge lives past five minutes. *)
Theorem passkeys_and_challenges_keep_their_caps (w w' : World ADB Reply) :
  keys_ok (w_now w) (w_db w) -> in_flight_ok w -> wsteps (a_door anyone) w w' ->
  (forall login, zlen (List.filter (holds login) (passkeys (w_db w'))) <= MAX_PASSKEYS
     /\ zlen (List.filter (live_challenge login (w_now w')) (challenges (w_db w'))) <= LIVE_CHALLENGES)
  /\ NoDup (map pk_id (passkeys (w_db w'))) /\ NoDup (map pk_credential (passkeys (w_db w'))) /\ NoDup (map ch_value (challenges (w_db w')))
  /\ forall x, In x (challenges (w_db w')) -> ch_expires x <= w_now w' + CHALLENGE_MS.
Proof.
  intros Hok Hr Hs. assert (Hk : keys_ok (w_now w') (w_db w')).
  { eapply run_keeps; [apply keys_later| |exact Hok|done|done]. intros now d d' ? Ht. by eapply touch_keys_ok. }
  destruct Hk. by split_and!.
Qed.

(** C16: over every run of the accounts' doors, a login has three live grants
    at most, each of another agent's name, and one code waiting for its swap
    at most; a token opens one grant only, and a code one. *)
Theorem live_grants_keep_their_caps (w w' : World ADB Reply) :
  grants_ok (w_now w) (grants (w_db w)) -> in_flight_ok w -> wsteps (a_door anyone) w w' ->
  (forall login, zlen (live_grants login (w_now w') (w_db w')) <= LIVE_GRANTS /\ count (waits login) (grants (w_db w')) <= 1
     /\ NoDup (map gr_agent (live_grants login (w_now w') (w_db w'))))
  /\ forall x y, In x (grants (w_db w')) -> In y (grants (w_db w')) ->
       (exists h, gr_token x = Some h /\ gr_token y = Some h) \/ (exists c, gr_code x = Some c /\ gr_code y = Some c) -> x = y.
Proof.
  intros Hok Hr Hs. assert (Hk : grants_ok (w_now w') (grants (w_db w'))).
  { apply (run_keeps (fun now d => grants_ok now (grants d)) w w'); try done; [intros ? ? ?; by apply grants_later|intros now d d' ? Ht; by eapply touch_grants_ok]. }
  destruct Hk. split.
  - intros login. split; [apply (go_cap login)|]. split; [done|]. unfold live_grants.
    assert (Hn : forall l, (forall x, In x l -> In x (grants (w_db w')) /\ gr_login x = login /\ live_grant (w_now w') x = true) -> NoDup (map gr_id l) -> NoDup (map gr_agent l)).
    { induction l as [|x l IH]; [constructor|]. intros Hl [Hx Hd]%NoDup_cons. cbn. apply NoDup_cons. split; [|apply IH; [intros; apply Hl; by right|done]].
      rewrite list_elem_of_In, in_map_iff. intros (y & Ea & Hy). apply Hx. destruct (Hl x (or_introl eq_refl)) as (X1 & X2 & X3), (Hl y (or_intror Hy)) as (Y1 & Y2 & Y3).
      rewrite (go_names x y) by congruence. apply list_elem_of_In. by apply in_map. }
    apply Hn.
    + intros x [Hx [E HL]%andb_true_iff]%filter_In. apply String.eqb_eq in E. done.
    + pose proof (without_NoDup (fun g => negb (of_login login g && live_grant (w_now w') g)) gr_id _ go_ids) as Hw. unfold without_where in Hw.
      erewrite List.filter_ext in Hw; [exact Hw|]. intros x. cbn. by rewrite negb_involutive.
  - intros x y Hx Hy [(h & E1 & E2)|(c & E1 & E2)]; apply (by_key gr_id (grants (w_db w'))); eauto.
Qed.
End Caps.

(** ** The swap *)

Section Swap.
Context `{R : Runtime} `{N : Nonces}.
(** C15: a code becomes a token once, for who began the login: the swap that
    answers with a token found the code's own grant, not swapped and not
    revoked, within the code's minute, with the challenge the verifier hashes
    to; it leaves that grant holding the token's hash and no code, nothing
    that the same code and verifier could swap again, and no other live grant
    of that login and agent's name. *)
Theorem a_code_is_one_token body spent token tr said : exec (handleSwap body spent token) tr (Some (Done 200 said)) ->
  exists m code verifier g, tr = [m] /\ as_str (field body "code") = Some code /\ as_str (field body "code_verifier") = Some verifier
    /\ In g (grants (m_before m)) /\ gr_code g = Some (sha256Hex code) /\ swapped g = false /\ unrevoked g = true
    /\ gr_challenge g = Some (s256 verifier) /\ (exists e, gr_code_expires g = Some e /\ m_now m < e)
    /\ In (swap (sha256Hex token) g) (grants (m_after m)) /\ (forall x, In x (grants (m_before m)) -> gr_token x <> Some (sha256Hex token))
    /\ (forall x now, In x (grants (m_after m)) -> swappable (sha256Hex code) (s256 verifier) now x = true -> m_now m <= now -> False)
    /\ forall x, In x (grants (m_after m)) -> gr_login x = gr_login g -> gr_agent x = gr_agent g -> live_grant (m_now m) x = true -> gr_token x = Some (sha256Hex token).
Proof.
  unfold handleSwap. intros H. destruct (negb spent); [by destruct H|]. destruct (_ || _) eqn:Ec; [by destruct H|].
  apply exec_answers in H as (t1 & t2 & row & -> & Hb & [-> H]). apply exec_batch in Hb as (now & d & d' & -> & Hb).
  destruct (as_str (field body "code")) as [code|]; [|done]. destruct (as_str (field body "code_verifier")) as [verifier|]; [|by rewrite orb_true_r in Ec]. cbn [default] in *. unfold id in *.
  destruct (swap_grants _ _ _ _ _ _ _ Hb) as (l & E & El & Er & Hno). destruct row as [y|]; [|done]. specialize (Hno eq_refl).
  destruct (List.find _ (grants d)) as [g0|] eqn:Ef; [|done]. clear Er. apply List.find_some in Ef as [Hin0 Hs0].
  assert (Hl : forall x, In x l -> (exists x0, In x0 (grants d) /\ swappable (sha256Hex code) (s256 verifier) now x0 = true /\ x = swap (sha256Hex token) x0)
             \/ (In x (grants d) /\ swappable (sha256Hex code) (s256 verifier) now x = false)).
  { intros x. rewrite El, in_update. intros (x0 & Hx & ->). destruct (swappable _ _ _ x0) eqn:E0; [left; by exists x0|by right]. }
  destruct (List.find (by_token _) l) as [z|] eqn:Ey.
  2: { pose proof (List.find_none _ _ Ey (swap (sha256Hex token) g0)) as Hn. rewrite swap_token in Hn. discriminate Hn. rewrite El, in_update. exists g0. by rewrite Hs0. }
  apply List.find_some in Ey as [Hz Ez]. destruct (Hl z Hz) as [(g & Hin & Hs & ->)|[Hx _]]; [|by rewrite (no_such _ _ Hno z Hx) in Ez].
  pose proof Hs as Hp. unfold swappable in Hp. destruct (gr_code_expires g) as [e|] eqn:Ee; [|by rewrite andb_false_r in Hp]. breflect.
  eexists _, code, verifier, g. split; [done|]. cbn [m_before m_after m_now]. rewrite E. split_and!; try done; [by exists e|..].
  - apply in_update. exists (swap (sha256Hex token) g). unfold replaced. by rewrite swap_token, andb_false_r.
  - intros x Hx Ex. pose proof (no_such _ _ Hno x Hx) as Hn. unfold by_token in Hn. by rewrite Ex, (proj2 (ostr_eqb_eq _ _) eq_refl) in Hn.
  - intros x now' (x1 & Hx & ->)%in_update Hsw Hle. destruct (replaced _ _ _ x1); [unfold swappable, unrevoked in Hsw; cbn in Hsw; by rewrite andb_false_r in Hsw|].
    destruct (Hl x1 Hx) as [(x0 & _ & _ & ->)|[_ Hf]]; [unfold swappable in Hsw; cbn in Hsw; done|].
    unfold swappable in Hf, Hsw. destruct (gr_code_expires x1) as [e1|]; [|by rewrite andb_false_r in Hsw]. apply andb_true_iff in Hsw as [Hc He]. rewrite Hc in Hf.
    cbn in Hf. apply Z.ltb_ge in Hf. apply Z.ltb_lt in He. lia.
  - intros x (x1 & Hx & ->)%in_update. destruct (replaced _ _ _ x1) eqn:Er; [done|]. intros E1 E2 HL. unfold replaced in Er. cbn in Er.
    rewrite E1, E2, !String.eqb_refl, HL in Er. cbn in Er. apply negb_false_iff in Er. by apply ostr_eqb_eq.
Qed.
End Swap.

(** ** An agent's call *)

Section Reach.
Context `{R : Runtime} `{N : Nonces}.
(** What a call may not do before its grant was read: anything but mark it used. *)
Definition only_marks (_ : Z) (d d' : ADB) : Prop := base d' = base d /\ accounts d' = accounts d /\ drafts d' = drafts d.
Definition does (m : Moment ADB) : Prop := ~ only_marks (m_now m) (m_before m) (m_after m).
Lemma agentOf_marks q client wanted write limited guard : steps (fun _ _ => True) only_marks (fun _ => True) (agentOf q client wanted write limited guard).
Proof.
  unfold agentOf. destruct (negb _); [done|]. apply steps_bind with (Q := fun _ => True); [by apply steps_ask|]. intros [[[g c] now]|] _; [|done].
  repeat case_match; try done. all: apply steps_bind with (Q := fun _ => True); [by apply steps_stmt|done].
Qed.
(** The grant an agent's call is taken on. *)
Record held_by (q : Ask) (wanted : list Scope) (write limited guard : bool) (a : AgentCaller) (m : Moment ADB) (g : Grant) : Prop := {
  hb_there : In g (grants (m_before m)); hb_token : gr_token g = Some (sha256Hex (bearer q)); hb_unrevoked : unrevoked g = true; hb_live : m_now m < gr_expires g;
  hb_scope : exists s, In s wanted /\ scope_in s (gr_scopes g) = true /\ (decides s = true -> ca_maintains (caller_of (m_before m) (gr_login g)) = true);
  hb_open : ca_blocked (caller_of (m_before m) (gr_login g)) = false;
  hb_quiet : limited = false /\ (write = true -> guard = false);
  hb_who : ca_who (ag_who a) = ca_who (caller_of (m_before m) (gr_login g)) /\ ag_grant a = gr_id g /\ ag_scopes a = gr_scopes g /\ ag_agent a = gr_agent g }.
Lemma exec_agent q client wanted write limited guard tr a : exec (agentOf q client wanted write limited guard) tr (Some (inr a)) ->
  hasAgentToken q = true /\ exists m g, In m tr /\ held_by q wanted write limited guard a m g.
Proof.
  unfold agentOf. intros H. destruct (hasAgentToken q); [|by destruct H]. split; [done|]. cbn [negb] in H.
  apply exec_answers in H as (t1 & t2 & row & -> & Hr & H). apply exec_ask in Hr as (now & d & -> & Hr).
  destruct (grant_of (sha256Hex (bearer q)) d) as [[g c]|] eqn:Eg; cbn in Hr; subst row; [|by destruct H].
  unfold grant_of in Eg. destruct (List.find _ _) as [g'|] eqn:Ef; [|done]. cbn in Eg. destruct (accounts d !! gr_login g'); [|done]. injection Eg as -> <-.
  apply List.find_some in Ef as [Hin Hp]. apply andb_true_iff in Hp as [Ht Hu]. apply ostr_eqb_eq in Ht.
  destruct (Z.leb_spec (gr_expires g) now); [by destruct H|]. destruct limited; [by destruct H|].
  destruct (List.find _ wanted) as [s|] eqn:Es; [|by destruct H]. apply List.find_some in Es as [Hs Hsc].
  destruct (decides s && _) eqn:Ed; [by destruct H|]. destruct (ca_blocked _) eqn:Eb; [by destruct H|]. destruct (write && guard) eqn:Ew; [by destruct H|].
  exists {| m_now := now; m_before := d; m_after := d |}, g. split; [by left|].
  assert (Ea : a = {| ag_who := {| ca_who := ca_who (caller_of d (gr_login g)); ca_blocked := false |}; ag_grant := gr_id g; ag_agent := gr_agent g;
                      ag_client := clientOf client; ag_scopes := gr_scopes g; ag_expires := gr_expires g |}).
  { match type of H with exec (if ?b then _ else _) _ _ => destruct b end; [destruct H as (? & ? & ? & _ & H)|]; by destruct H as [_ [= ->]]. }
  subst a. split; cbn; try done.
  - exists s. split_and!; try done. intros E. change (decides s = true) in E. rewrite E in Ed. by apply negb_false_iff.
  - split; [done|]. intros ->. by destruct guard.
Qed.

(** C14: what an agent's token writes it writes within its grant: the call's
    part that changes the review, an account or the drafts runs only after the
    statement that read, by the token's hash, a grant not revoked and not
    expired, with a scope the route takes, of a person who is not blocked and
    still maintains where the scope decides - and it runs as that person. *)
Theorem an_agent_acts_within_its_grant q client wanted write limited guard k tr r m :
  exec (agent_door q client wanted write limited guard k) tr r -> In m tr -> does m ->
  hasAgentToken q = true /\ exists t1 t2 a m0 g, tr = (t1 ++ t2)%list /\ In m0 t1 /\ In m t2 /\ held_by q wanted write limited guard a m0 g /\ exec (k a) t2 r.
Proof.
  unfold agent_door. intros H Hm Hd.
  assert (Hq : forall t o, exec (agentOf q client wanted write limited guard) t o -> ~ In m t).
  { intros t o Hx Hin. apply Hd. by apply (proj1 (steps_exec _ _ _ _ _ _ (agentOf_marks q client wanted write limited guard) Hx (fun _ _ => I))). }
  destruct (exec_bind _ _ _ _ H) as [(t1 & t2 & o & -> & H1 & H2)|[_ H1]]; [|by destruct (Hq _ _ H1)].
  apply in_app_iff in Hm as [Hm|Hm]; [by destruct (Hq _ _ H1)|]. destruct o as [no|a]; [by destruct H2 as [-> _]|].
  destruct (exec_agent _ _ _ _ _ _ _ _ H1) as (Ht & m0 & g & Hin & Hg). split; [done|]. by exists t1, t2, a, m0, g.
Qed.
End Reach.

(** ** The day's counts *)

(** Every account's columns but its session, token and last sight are as they were. *)
Definition counts_kept (d d' : ADB) : Prop :=
  forall login a, accounts d !! login = Some a -> exists a', accounts d' !! login = Some a' /\ ac_day a' = ac_day a /\ forall k, day_count k a' = day_count k a.
Lemma counts_alter l f d d' : accounts d' = alter f l (accounts d) -> (forall a, ac_day (f a) = ac_day a /\ forall k, day_count k (f a) = day_count k a) -> counts_kept d d'.
Proof.
  intros E H login a Ha. rewrite E. destruct (decide (l = login)) as [->|Hl].
  - exists (f a). rewrite lookup_alter, Ha. split; [by rewrite decide_True|]. by apply H.
  - exists a. by rewrite lookup_alter_ne.
Qed.
Lemma counts_same d d' : accounts d' = accounts d -> counts_kept d d'.
Proof. intros E l a Ha. exists a. by rewrite E. Qed.
Lemma counts_insert l f d d' x : accounts d' = <[l := x]> (accounts d) -> (forall a, accounts d !! l = Some a -> x = f a) ->
  (forall a, ac_day (f a) = ac_day a /\ forall k, day_count k (f a) = day_count k a) -> counts_kept d d'.
Proof.
  intros E H Hf login a Ha. rewrite E. destruct (decide (l = login)) as [->|Hl].
  - exists x. rewrite lookup_insert, decide_True by done. rewrite (H a Ha). split; [done|]. by apply Hf.
  - exists a. by rewrite lookup_insert_ne.
Qed.
(** Only a day's statement counts. *)
Lemma touch_counts L now d d' : touch L now d d' -> counts_kept d d' \/ exists k c, d' = (day_statement k (utcDay now) (ca_login c) (dayCap k c) d).1.
Proof.
  intros [E|H]%touch_accounts; [left; by apply counts_same|].
  destruct H as [l f E Hf|l role session unset u Hl H|s ->|l role token b H|l token Hl E|k c ->|by_ l w mark ids s H]; [left..| |left].
  - apply counts_alter with (l := l) (f := f); [done|]. intros a. by destruct (Hf a) as (_ & _ & H).
  - unfold signed_in in H. destruct (held_by_another _ _ _); [done|]. destruct (accounts d !! l) as [a0|] eqn:E.
    + injection H as <-. apply counts_insert with (l := l) (f := fun a => set_seen now (set_session (Some session) a)) (x := set_seen now (set_session (Some session) a0)); [done| |by intros a].
      intros a Ha. congruence.
    + destruct (held_by_another _ _ _); [done|]. injection H as <-. apply counts_insert with (l := l) (f := fun a => a) (x := new_account (Some session) unset now); [done| |by intros a].
      intros a Ha. congruence.
  - intros login a Ha. cbn. rewrite lookup_fmap, Ha. cbn. eexists. split; [done|]. by case_match.
  - unfold registered in H. destruct (held_by_another _ _ _); [done|]. destruct (accounts d !! l) as [a0|] eqn:E.
    + destruct (was_reset a0); injection H as <- <-; [by apply counts_same|].
      apply counts_insert with (l := l) (f := fun a => set_seen now (set_token token a)) (x := set_seen now (set_token token a0)); [done| |by intros a]. intros a Ha. congruence.
    + injection H as <- <-. apply counts_insert with (l := l) (f := fun a => a) (x := new_account None token now); [done| |by intros a]. intros a Ha. congruence.
  - by apply counts_alter with (l := l) (f := set_token token).
  - right. by exists k, c.
  - pose proof (rd_accounts _ _ _ _ _ _ _ _ _ (reset_spec _ _ _ _ _ _ _ _ _ H)) as E. intros login a Ha. rewrite E.
    destruct (decide (l = login)) as [->|Hne]; [|exists a; rewrite lookup_alter_ne by done; case_match; by rewrite ?lookup_alter_ne].
    rewrite lookup_alter, decide_True by done. case_match; [rewrite lookup_alter, decide_True by done|]; rewrite Ha; by eexists.
Qed.

(** The statements of one UTC day, [n] of them counted as [k] for [login]. *)
Inductive in_one_day (day login : string) (k : DayKind) : Z -> ADB -> ADB -> Prop :=
| od_none d : in_one_day day login k 0 d d
| od_counted n c now d d1 d2 : in_one_day day login k n d d1 -> utcDay now = day -> ca_login c = login ->
    day_statement k (utcDay now) login (dayCap k c) d1 = (d2, true) -> in_one_day day login k (n + 1) d d2
| od_other n now d d1 d2 : in_one_day day login k n d d1 -> utcDay now = day -> touch anyone now d1 d2 -> in_one_day day login k n d d2.
Definition most (k : DayKind) : Z := match k with k_requests => DAY_CAPS_maintainer_requests | k_claims => DAY_CAPS_claims | k_drafts => DAY_CAPS_drafts end.
Lemma cap_most k c : dayCap k c <= most k.
Proof. destruct k; [|done..]. cbn. by case_match. Qed.
(** So many counted this day, and under the cap where any was. *)
Definition counted_so_far (day login : string) (k : DayKind) (n : Z) (d : ADB) : Prop :=
  exists a, accounts d !! login = Some a /\ 0 <= day_count k a /\ (n = 0 \/ (ac_day a = Some day /\ 0 <= n <= day_count k a /\ day_count k a <= most k)).
#[local] Instance DayKind_eq_dec : EqDecision DayKind.
Proof. solve_decision. Defined.
Lemma counted_count k k' day a : day_count k (counted k' day a) =
  if ostr_eqb (ac_day a) (Some day) then day_count k a + (if bool_decide (k = k') then 1 else 0) else if bool_decide (k = k') then 1 else 0.
Proof. unfold counted. destruct (ostr_eqb _ _), k, k'; cbn; case_bool_decide; try done; lia. Qed.
(** A statement of the day: one more if it is of this kind, and never past the cap. *)
Lemma counted_step k k' c day login n d : counted_so_far day login k n d -> ca_login c = login ->
  let r := day_statement k' day login (dayCap k' c) d in counted_so_far day login k n r.1 /\ (k = k' -> r.2 = true -> counted_so_far day login k (n + 1) r.1).
Proof.
  intros (a & Ha & H0 & Hn) Hc. cbv zeta. unfold day_statement. rewrite Ha. destruct (day_open k' day (dayCap k' c) a) eqn:Eo; cbn [fst snd]; [|split; [by exists a|done]].
  assert (Hlk : accounts (on_account login (counted k' day) d) !! login = Some (counted k' day a)) by (cbn; by rewrite lookup_alter, decide_True, Ha).
  unfold day_open in Eo. pose proof (cap_most k' c) as Hcap.
  assert (Hpos : 0 <= day_count k (counted k' day a)) by (rewrite counted_count; repeat case_match; lia).
  split.
  - exists (counted k' day a). split_and!; try done. destruct Hn as [->|(Ed & Hn & Hm)]; [by left|right]. rewrite counted_count, Ed, (proj2 (ostr_eqb_eq _ _) eq_refl).
    rewrite Ed, (proj2 (ostr_eqb_eq _ _) eq_refl) in Eo. cbn [negb orb] in Eo. apply Z.ltb_lt in Eo.
    split; [done|]. case_bool_decide; [subst|]; lia.
  - intros -> _. exists (counted k' day a). split_and!; try done. right. rewrite counted_count, bool_decide_true by done.
    destruct (ostr_eqb (ac_day a) (Some day)) eqn:Ed; cbn [negb orb] in Eo.
    + apply Z.ltb_lt in Eo. split; [done|]. destruct Hn as [->|(_ & Hn & Hm)]; lia.
    + assert (1 <= most k') by (by destruct k'). destruct Hn as [->|(E & _)]; [by split; [|lia]|]. by rewrite E, (proj2 (ostr_eqb_eq _ _) eq_refl) in Ed.
Qed.
Lemma counted_elsewhere k k' c day login n d : counted_so_far day login k n d -> ca_login c <> login ->
  counted_so_far day login k n (day_statement k' day (ca_login c) (dayCap k' c) d).1.
Proof.
  intros (a & Ha & H) Hc. unfold day_statement. destruct (accounts d !! ca_login c) eqn:E; [|by exists a]. destruct (day_open _ _ _ _); [|by exists a].
  exists a. cbn. by rewrite lookup_alter_ne.
Qed.

(** C19: in one UTC day, whatever runs beside them - other calls, other kinds,
    sign-ins, new tokens, resets - a login's agents get at most ten claims and
    releases counted, thirty drafts, and fifty requests: the statement that
    counts one more is refused from the cap on. *)
Theorem the_days_counts_hold day login k n d d' a : accounts d !! login = Some a -> 0 <= day_count k a ->
  in_one_day day login k n d d' -> 0 <= n <= most k.
Proof.
  intros Ha H0 Hr. enough (H : counted_so_far day login k n d').
  { assert (0 <= most k) by by destruct k. destruct H as (b & _ & _ & [->|(_ & Hn & Hm)]); lia. }
  induction Hr as [d|n c now d d1 d2 _ IH Ed Ec Hs|n now d d1 d2 _ IH Ed Ht].
  - exists a. split_and!; try done. by left.
  - specialize (IH Ha). rewrite Ed in Hs. destruct (counted_step k k c day login n d1 IH Ec) as [_ H]. rewrite Hs in H. by apply H.
  - specialize (IH Ha). destruct (touch_counts _ _ _ _ Ht) as [Hk|(k' & c & ->)].
    + destruct IH as (b & Hb & Hp & Hn). destruct (Hk login b Hb) as (b' & Hb' & E1 & E2). exists b'. by rewrite E1, E2.
    + rewrite Ed. destruct (decide (ca_login c = login)) as [<-|Hne]; [by apply (counted_step k k' c)|by apply counted_elsewhere].
Qed.

(** ** A draft *)

(** A draft's row is there, and every row of its id is spent. *)
Definition decided_once (id : string) (l : list Draft) : Prop := (exists x, In x l /\ dr_id x = id) /\ forall x, In x l -> dr_id x = id -> dr_used x <> None.
Definition keeps_use (f : Draft -> Draft) : Prop := forall x, dr_id (f x) = dr_id x /\ (dr_used x <> None -> dr_used (f x) <> None).
Lemma decided_update p f l id : keeps_use f -> decided_once id l -> decided_once id (update_where p f l).
Proof.
  intros Hf [(x & Hx & E) Hs]. split.
  - exists (if p x then f x else x). split; [apply in_update; by exists x|]. case_match; [|done]. by destruct (Hf x) as [-> _].
  - intros y (z & Hz & ->)%in_update. case_match; [|by apply Hs]. destruct (Hf z) as [-> Hu]. intros Ez. by apply Hu, Hs.
Qed.
Ltac discards H := match goal with |- drafts (discard_drafts ?l _ ?d0) = _ \/ _ => destruct (H l d0 eq_refl); auto end.
(** What a statement makes of the drafts: nothing, rows changed that stay spent, or one new row of a new id. *)
Lemma touch_drafts L now d d' : touch L now d d' -> drafts d' = drafts d
  \/ (exists p f, drafts d' = update_where p f (drafts d) /\ keeps_use f) \/ exists x, some_where (is_draft (dr_id x)) (drafts d) = false /\ drafts d' = (drafts d ++ [x])%list.
Proof.
  assert (Hd : forall login d0, drafts d0 = drafts d -> drafts (discard_drafts login now d0) = drafts d
    \/ (exists p f, drafts (discard_drafts login now d0) = update_where p f (drafts d) /\ keeps_use f)).
  { intros [l|] d0 E; [right|by left]. exists (discarding l now d0), (discard now). split; [cbn; by rewrite E|done]. }
  intros Ht. destruct Ht as [|l|l role session unset d1 u Hl H|s|l role token d1 b H|l token d1 u Hl H|? ? ? ? d1 b Hl H|? ? ? d1 ? H| | | |k c|? ? ? ? d1 ? H|
    |k v s d1 b _ _ H| |id l w|by_ l w mark ids d1 s H| |x d1 u Hu H|id l un s|id s| |c l reason gate read].
  all: try (by left).
  - left. by open_batches.
  - left. by open_batches.
  - left. by open_batches.
  - left. by open_batches.
  - unfold swap_batch in H. cbv zeta in H. destruct (_ && _); [done|]. injection H as <- <-. discards Hd.
  - unfold logout_batch. cbn [fst]. discards Hd.
  - unfold revoke_batch. cbn [fst]. discards Hd.
  - left. by open_batches.
  - left. unfold issue_batch in H. by open_batches.
  - left. unfold insert_batch in H. destruct (may_insert _ _ _ _); [destruct (some_where _ _); [done|]|]; injection H as <- <-;
      edestruct (passkey_event_is "ok" "register" (pk_login k) (pk_id k) v) as [e ->]; done.
  - left. unfold remove_batch. by destruct (passkey_event_is "warn" "remove" l id (Some w) d) as [e ->].
  - right. left. destruct (rd_drafts _ _ _ _ _ _ _ _ _ (reset_spec _ _ _ _ _ _ _ _ _ H)) as (g & E & _). by do 2 eexists.
  - right. right. unfold draft_insert in H. destruct (some_where _ _) eqn:E; [done|]. injection H as <-. by exists x.
  - right. left. by do 2 eexists.
  - right. left. eexists (is_draft id), _. split; [done|]. by intros x.
  - unfold block_batch. cbn [fst]. destruct (done _); [|by left]. unfold block_grants. discards Hd.
Qed.
Lemma touch_decided L now d d' id : touch L now d d' -> decided_once id (drafts d) -> decided_once id (drafts d').
Proof.
  intros [->|[(p & f & -> & Hf)|(x & Hn & ->)]]%touch_drafts H; [done|by apply decided_update|]. destruct H as [(y & Hy & E) Hs]. split.
  - exists y. rewrite in_app_iff. auto.
  - intros z [Hz|[<-|[]]]%in_app_iff; [by apply Hs|]. intros Ez. pose proof (no_such _ _ Hn y Hy) as Hny. unfold is_draft in Hny. by rewrite E, Ez, String.eqb_refl in Hny.
Qed.

