(* ===== verification/AccountSamples.v ===== *)
(** A maintainer's account followed through - their session, passkeys, an agent's grant, its draft - the properties at these inputs, and what
    a reset does not reach (Accounts.v, Grants.v, Passkeys.v, Drafts.v). *)
From S2P Require Import Prelude JsTime Json JsonText Bytes WebAuthn CborFacts WebAuthnFacts Program.
From S2P Require Import Tasks Targets Rings Governance Projects Review ReviewDoors Blocks Delivery Contributors Requests ReviewSamples RequestSamples.
From S2P Require Import Accounts Grants Passkeys Drafts AccountRuns AccountTables PasskeyRules GrantRules.
Local Open Scope string_scope.
Local Open Scope Z_scope.

(** A runtime with a digest of 32 bytes, and a form's code that is its text. *)
#[local] Instance here : Runtime := sample_runtime.
#[local] Instance plain_nonces : Nonces := {| mac := fun s => s |}.
Lemma digest_bytes b : are_bytes (sha256 b).
Proof. apply be_bytes_ok. Qed.

(** ** The tables *)

Definition maintains (login : string) : Person := {| pe_role := "maintainer"; pe_blocked := None |}.
Definition in_review : CDB :=
  set_cv (set_people {["m1" := maintains "m1"; "m2" := maintains "m2"]} [] d_rebuilt) x_start.
Definition account (login : string) : Account :=
  {| ac_session := Some (sha256Hex ("oms_" +:+ login)); ac_token := sha256Hex ("omc_" +:+ login); ac_seen := 0; ac_day := None; ac_requests := 0; ac_claims := 0; ac_drafts := 0 |}.
Definition key_of (login : string) : Passkey :=
  {| pk_id := "pk_" +:+ login; pk_login := login; pk_credential := "key-of-" +:+ login; pk_key := toB64url (encode cose_sample); pk_alg := ES256; pk_rp := "localhost";
     pk_counter := 3; pk_label := "Passkey"; pk_created := 0; pk_last := None |}.
Definition nonce_of (c : ascii) : string := String.string_of_list_ascii (repeat c 43).
Definition issued (value login : string) (p : Purpose) (bound : option string) : Challenge :=
  {| ch_value := value; ch_login := login; ch_purpose := p; ch_bound := bound; ch_expires := 300000 |}.
Definition two_people : ADB :=
  {| base := in_review; accounts := {["m1" := account "m1"; "m2" := account "m2"]}; passkeys := [key_of "m1"; key_of "m2"];
     challenges := []; grants := []; drafts := []; events := [] |}.
Definition with_challenge (value login : string) (p : Purpose) (bound : option string) (d : ADB) : ADB := set_challenges (challenges d ++ [issued value login p bound]) d.

(** A request from the login's browser, from the pool's own page. *)
Definition from_browser (login : string) : Accounts.Ask :=
  {| rq_auth := None; rq_cookie := "omc=oms_" +:+ login; rq_origin := Some "http://localhost"; rq_hostname := "localhost"; rq_at := "http://localhost" |}.
Definition with_token (token : string) : Accounts.Ask :=
  {| rq_auth := Some ("Bearer " +:+ token); rq_cookie := ""; rq_origin := None; rq_hostname := "localhost"; rq_at := "http://localhost" |}.
(** The authenticator's answer to a challenge. *)
Definition client_said (type_ challenge : string) : string :=
  toB64url (bytes_of (json_text (JObj [("type", JStr type_); ("challenge", JStr challenge); ("origin", JStr "http://localhost"); ("crossOrigin", JBool false)]))).
Definition local_auth (flags n : Z) (tail : bytes) : bytes := (sha256 (bytes_of "localhost") ++ [flags] ++ be_bytes 4 n ++ tail)%list.
Definition answer_fields (login challenge : string) : list (string * string) :=
  [("credential", "key-of-" +:+ login); ("client_data", client_said "webauthn.get" challenge); ("authenticator_data", toB64url (local_auth 5 4 []));
   ("signature", toB64url (der (sha256 (bytes_of "localhost")) (0 :: repeat 3 31)%list))].
Definition answer_json (login challenge : string) : option json := Some (JObj (map (fun x => (x.1, JStr x.2)) (answer_fields login challenge))).

Definition at_approve : ADB := with_challenge (nonce_of "a") "m2" p_confirm (Some "approve:3") two_people.
Definition approving_it : door := webApprove (from_browser "m2") 3 whole (answer_json "m2" (nonce_of "a")).
(** ** An agent's approval, from the grant on *)

Definition after {A} (p : prog ADB A) (now : Z) (d : ADB) : ADB := (solo p now d).1.
Definition verifier : string := String.string_of_list_ascii (repeat "v" 43)%char.
Definition code : string := String.string_of_list_ascii (repeat "c" 64)%char.
Definition draft_name : string := "d_" +:+ String.string_of_list_ascii (repeat "d" 32)%char.
Definition the_ask : list (string * string) :=
  [("agent", "bot"); ("scopes", "review"); ("port", "4000"); ("state", String.string_of_list_ascii (repeat "s" 16)%char); ("challenge", s256 verifier)].
Definition grant_form (login : string) (a : GrantAsk) : option (list (string * string)) :=
  Some (the_ask ++ [("ts", "1000"); ("nonce", formNonce (grantParts (sha256Hex ("oms_" +:+ login)) a "1000")); ("action", "grant")])%list.
Definition granting_of (a : option GrantAsk) : door := match a with Some a => handleGrant (from_browser "m2") (grant_form "m2" a) true "g_1" code | None => Throw end.
Definition granting : door := granting_of (grantAsk the_ask).
Definition swapping : door := handleSwap (Some (JObj [("code", JStr code); ("code_verifier", JStr verifier)])) true "oma_bot".
Definition an_approval : option json := Some (JObj [("verdict", JStr "approve"); ("name", JStr "felix"); ("task", JInt 3); ("note", JStr "looks right")]).
Definition drafting : door :=
  agent_door (with_token "oma_bot") (Some "bot/1") [review_scope; block_scope] true false false (fun a => handleDraft a an_approval draft_name).
Definition confirm_form : option (list (string * string)) :=
  Some ([("nonce", formNonce (confirmParts (sha256Hex "oms_m2") draft_name)); ("action", "confirm")] ++ answer_fields "m2" (nonce_of "b"))%list.
Definition challenging : door := handleConfirmChallenge (from_browser "m2") draft_name confirm_form (nonce_of "b").
Definition confirming : door := handleConfirm (from_browser "m2") draft_name confirm_form None.
Definition d_coded : ADB := after granting 1000 two_people.
Definition d_granted : ADB := after swapping 2000 d_coded.
Definition d_drafted : ADB := after drafting 3000 d_granted.
Definition d_asked : ADB := after challenging 4000 d_drafted.
Definition d_confirmed : ADB := after confirming 5000 d_asked.
Example an_agents_approval :
  (solo granting 1000 two_people).2 = Some (Done 303 [("state", "ssssssssssssssss"); ("code", code)])
  /\ map (fun g => (gr_agent g, live_grant 2000 g)) (grants d_granted) = [("bot", true)]
  /\ map (fun x => (dr_name x, draft_word 3000 x)) (drafts d_drafted) = [("felix", "waiting")]
  /\ (solo confirming 5000 d_asked).2 = Some (Done 200 [("id", "1")]) /\ map (draft_word 5000) (drafts d_confirmed) = ["confirmed"]
  /\ (next_app (review_of d_asked), next_app (review_of d_confirmed)) = (1, 3).
Proof. vm_compute. done. Qed.

(** ** The properties at these inputs *)

Definition tells (m : Moment ADB) : bool := negb (next_app (review_of (m_after m)) =? next_app (review_of (m_before m))).
Lemma tells_writes m : tells m = true -> writes m.
Proof. unfold tells, writes. intros H E. by rewrite E, Z.eqb_refl in H. Qed.
Lemma no_decision_without_the_persons_passkey_witness :
  exists m t1 t2 c rp read k, In m t2 /\ solo_moments approving_it 1000 at_approve = (t1 ++ t2)%list /\ from_session (from_browser "m2") c t1
    /\ accepted rp (ca_login c) (approve_subject 3 whole read) (assertionIn (answer_json "m2" (nonce_of "a"))) t1 k.
Proof.
  assert (H : existsb tells (solo_moments approving_it 1000 at_approve) = true) by (vm_compute; reflexivity).
  apply existsb_exists in H as (m & Hm & Hw).
  destruct (no_decision_without_the_persons_passkey (from_browser "m2") approving_it (approve_subject 3 whole) (answer_json "m2" (nonce_of "a"))
    (solo_moments approving_it 1000 at_approve) (solo approving_it 1000 at_approve).2 m (wa_approve _ _ _ _) (solo_exec _ _ _) Hm (tells_writes m Hw))
    as (t1 & t2 & c & rp & read & k & E & H2 & Hc & _ & _ & Ha).
  exists m, t1, t2, c, rp, read, k. auto.
Defined.
Lemma a_draft_is_decided_by_its_person_witness :
  exists m t1 t2 c x, In m t2 /\ solo_moments confirming 5000 d_asked = (t1 ++ t2)%list /\ from_session (from_browser "m2") c t1 /\ dr_id x = draft_name /\ dr_login x = ca_login c
    /\ (exists m0, In m0 t1 /\ spends m0 draft_name (ca_login c)).
Proof.
  assert (H : existsb tells (solo_moments confirming 5000 d_asked) = true) by (vm_compute; reflexivity).
  apply existsb_exists in H as (m & Hm & Hw).
  destruct (a_draft_is_decided_by_its_person (from_browser "m2") draft_name confirm_form None (solo_moments confirming 5000 d_asked)
    (solo confirming 5000 d_asked).2 m (solo_exec _ _ _) Hm (tells_writes m Hw)) as (t1 & t2 & c & x & f & _ & E & H2 & Hc & _ & Ei & El & _ & _ & _ & Hs & _).
  exists m, t1, t2, c, x. auto 10.
Defined.

(** A second passkey, vouched for by the first. *)
Definition at_add : ADB :=
  with_challenge (nonce_of "b") "m2" p_confirm (Some "passkey:add") (with_challenge (nonce_of "a") "m2" p_register None two_people).
Definition add_body : option json :=
  Some (JObj [("id", JStr (toB64url [5; 6])); ("label", JStr "Phone"); ("clientDataJSON", JStr (client_said "webauthn.create" (nonce_of "a")));
    ("attestationObject", JStr (toB64url (encode (CMap [(CText "fmt", CText "none"); (CText "attStmt", CMap []);
       (CText "authData", CBytes (local_auth 69 0 (repeat 0 16 ++ [0; 2; 5; 6] ++ encode cose_sample)%list))]))));
    ("assertion", JObj (map (fun x => (x.1, JStr x.2)) (answer_fields "m2" (nonce_of "b"))))]).
Definition adding : door := handlePasskeyRegister (from_browser "m2") add_body "pk_2".
Definition one_more (m : Moment ADB) : bool := existsb (fun k => negb (existsb (fun y => String.eqb (pk_id y) (pk_id k)) (passkeys (m_before m)))) (passkeys (m_after m)).
Lemma one_more_adds m : one_more m = true -> adds m.
Proof.
  unfold one_more. intros (k & Hk & H)%existsb_exists. exists k. split; [done|]. intros y Hy E. apply negb_true_iff in H.
  assert (existsb (fun y => String.eqb (pk_id y) (pk_id k)) (passkeys (m_before m)) = true) by (apply existsb_exists; exists y; by rewrite E, String.eqb_refl). congruence.
Qed.
Lemma a_later_passkey_is_vouched_for_witness :
  (solo adding 1000 at_add).2 = Some (Done 201 [("passkey", "pk_2"); ("confirmed_with", "pk_m2")])
  /\ exists m t1 t2 c k, In m t2 /\ solo_moments adding 1000 at_add = (t1 ++ t2)%list /\ from_session (from_browser "m2") c t1
    /\ passkeys (m_after m) = (passkeys (m_before m) ++ [k])%list.
Proof.
  split; [vm_compute; reflexivity|]. assert (H : existsb one_more (solo_moments adding 1000 at_add) = true) by (vm_compute; reflexivity).
  apply existsb_exists in H as (m & Hm & Hw).
  destruct (a_later_passkey_is_vouched_for (from_browser "m2") add_body "pk_2" (solo_moments adding 1000 at_add) (solo adding 1000 at_add).2 m (solo_exec _ _ _) Hm (one_more_adds m Hw))
    as (t1 & t2 & c & rp & k & reg & label & challenge & E & H2 & Hc & _ & _ & _ & _ & _ & _ & Hk & _).
  exists m, t1, t2, c, k. auto.
Defined.

(** *** Runs *)

Definition world_at (d : ADB) (now : Z) : World ADB Reply := {| w_db := d; w_now := now; w_running := [] |}.
Lemma world_db d now : w_db (world_at d now) = d.
Proof. reflexivity. Qed.
Lemma world_now d now : w_now (world_at d now) = now.
Proof. reflexivity. Qed.
Lemma world_idle d now : w_running (world_at d now) = [].
Proof. reflexivity. Qed.
Lemma alone_from L p now d t : a_door L p -> t <= now ->
  exists w' : World ADB Reply, wsteps (a_door L) (world_at d t) w' /\ w_db w' = after p now d /\ w_now w' <= now.
Proof. exact (arrives_alone (a_door L) (world_at d t) p now). Qed.
Lemma filter_most {A} (p : A -> bool) l n : zlen l <= n -> zlen (List.filter p l) <= n.
Proof. pose proof (filter_length_le p l). unfold zlen. lia. Qed.
Lemma two_people_keys now : keys_ok now two_people.
Proof.
  split; cbn [two_people passkeys challenges map].
  - apply (bool_decide_unpack _). vm_compute. exact I.
  - apply (bool_decide_unpack _). vm_compute. exact I.
  - intros login. by apply filter_most.
  - constructor.
  - intros login. by apply filter_most.
  - done.
Qed.
Lemma no_grants now : grants_ok now (grants two_people).
Proof. split; try done. constructor. Qed.
Lemma a_granting L : a_door L granting.
Proof.
  assert (H : is_some (grantAsk the_ask) = true) by (vm_compute; reflexivity). unfold granting. destruct (grantAsk the_ask); [constructor|discriminate H].
Qed.
Definition optioning : door := handlePasskeyOptions (from_browser "m2") (nonce_of "a").
Lemma passkeys_and_challenges_keep_their_caps_witness :
  exists w' : World ADB Reply, w_db w' = after optioning 1000 two_people /\ length (challenges (w_db w')) = 1%nat
    /\ zlen (List.filter (holds "m2") (passkeys (w_db w'))) <= MAX_PASSKEYS.
Proof.
  destruct (alone_from anyone optioning 1000 two_people 0) as (w' & H & E & _); [constructor|done|].
  exists w'. split; [done|]. split; [rewrite E; vm_compute; reflexivity|].
  apply (proj1 (passkeys_and_challenges_keep_their_caps (world_at two_people 0) w' (two_people_keys 0) (none_in_flight (world_at two_people 0) eq_refl) H) "m2").
Defined.
Lemma live_grants_keep_their_caps_witness :
  exists w' : World ADB Reply, w_db w' = d_granted /\ zlen (live_grants "m2" 2000 d_granted) = 1 /\ zlen (live_grants "m2" (w_now w') (w_db w')) <= LIVE_GRANTS.
Proof.
  destruct (arrives_alone (a_door anyone) (world_at two_people 0) granting 1000) as (w1 & H1 & E1 & L1); [apply a_granting|done|].
  destruct (arrives_alone (a_door anyone) w1 swapping 2000) as (w2 & H2 & E2 & _); [constructor|lia|].
  exists w2. split; [rewrite E2, E1; unfold d_granted, d_coded, after; reflexivity|]. split; [vm_compute; reflexivity|].
  apply (proj1 (live_grants_keep_their_caps (world_at two_people 0) w2 (no_grants 0) (none_in_flight (world_at two_people 0) eq_refl) (wsteps_trans _ _ _ _ H1 H2)) "m2").
Defined.
Lemma a_code_is_one_token_witness :
  exists m g, solo_moments swapping 2000 d_coded = [m] /\ In g (grants (m_before m)) /\ swapped g = false /\ In (swap (sha256Hex "oma_bot") g) (grants (m_after m)).
Proof.
  assert (E : (solo swapping 2000 d_coded).2 = Some (Done 200 [("token", "oma_bot"); ("grant", "g_1"); ("login", "m2")])) by (vm_compute; reflexivity).
  pose proof (solo_exec swapping 2000 d_coded) as H. rewrite E in H.
  destruct (a_code_is_one_token _ _ _ _ _ H) as (m & c & v & g & Em & _ & _ & Hg & _ & Hs & _ & _ & _ & Ha & _). exists m, g. auto.
Defined.
Lemma an_agent_acts_within_its_grant_witness :
  exists m0 t1 t2 a g, solo_moments drafting 3000 d_granted = (t1 ++ t2)%list /\ In m0 t1 /\ held_by (with_token "oma_bot") [review_scope; block_scope] true false false a m0 g.
Proof.
  assert (H : existsb (fun m => negb (length (drafts (m_after m)) =? length (drafts (m_before m)))%nat) (solo_moments drafting 3000 d_granted) = true) by (vm_compute; reflexivity).
  apply existsb_exists in H as (m & Hm & Hw).
  assert (Hd : does m) by (intros (_ & _ & E); by rewrite E, Nat.eqb_refl in Hw).
  destruct (an_agent_acts_within_its_grant _ _ _ _ _ _ _ _ _ m (solo_exec drafting 3000 d_granted) Hm Hd) as (_ & t1 & t2 & a & m0 & g & E & H1 & _ & Hh & _).
  exists m0, t1, t2, a, g. auto.
Defined.
Lemma pair_is {A B} (x : A * B) b : x.2 = b -> x = (x.1, b).
Proof. destruct x. cbn. by intros ->. Qed.
Definition m2_calls : Caller := by_maintainer m2.
Definition one_claim : ADB * bool := day_statement k_claims (utcDay 3000) "m2" (dayCap k_claims m2_calls) d_granted.
Lemma the_days_counts_hold_witness : in_one_day (utcDay 3000) "m2" k_claims 1 d_granted one_claim.1 /\ 0 <= 1 <= most k_claims.
Proof.
  assert (E : one_claim.2 = true) by (vm_compute; reflexivity).
  assert (Ha : match accounts d_granted !! "m2" with Some a => 0 <=? day_count k_claims a | None => false end = true) by (vm_compute; reflexivity).
  destruct (accounts d_granted !! "m2") as [a|] eqn:Ea; [|discriminate Ha]. apply Z.leb_le in Ha.
  assert (Hd : in_one_day (utcDay 3000) "m2" k_claims (0 + 1) d_granted one_claim.1).
  { apply (od_counted (utcDay 3000) "m2" k_claims 0 m2_calls 3000 d_granted d_granted one_claim.1 (od_none _ _ _ _) eq_refl eq_refl). exact (pair_is one_claim true E). }
  split; [exact Hd|]. exact (the_days_counts_hold (utcDay 3000) "m2" k_claims (0 + 1) d_granted one_claim.1 a Ea Ha Hd).
Defined.
Definition d_spent : ADB := (spend draft_name "m2" true ds_confirmed 4500 d_asked).1.

(** *** A reset, and what it does not reach *)

Definition reset_body : option json :=
  Some (JObj [("login", JStr "m2"); ("reason", JStr "lost the phone"); ("assertion", JObj (map (fun x => (x.1, JStr x.2)) (answer_fields "m1" (nonce_of "r"))))]).
Definition resetting : door := handlePasskeyReset (from_browser "m1") reset_body "0a" false.
Definition reset_asked (d : ADB) : ADB := with_challenge (nonce_of "r") "m1" p_confirm (Some "passkey:reset:m2") d.
Definition left_by (o : option (ADB * ResetSaid)) (d : ADB) : ADB := match o with Some x => x.1 | None => d end.
Definition wrote_its_line (o : option (ADB * ResetSaid)) : bool := match o with Some x => rs_line x.2 | None => false end.
Lemma left_is o d : wrote_its_line o = true -> exists s, o = Some (left_by o d, s) /\ rs_line s = true.
Proof. destruct o as [[d' s]|]; [|done]. intros H. by exists s. Qed.
Definition d_reset : ADB := left_by (reset_batch "m1" "m2" "pk_m1" (RESET_TOKEN_MARK +:+ "0a") ["pk_m2"] 4000 d_granted) d_granted.
Lemma the_reset : exists s, reset_batch "m1" "m2" "pk_m1" (RESET_TOKEN_MARK +:+ "0a") ["pk_m2"] 4000 d_granted = Some (d_reset, s) /\ rs_line s = true.
Proof. unfold d_reset. apply left_is. vm_compute. reflexivity. Qed.
Definition registering : door := handleRegister (Some "a-github-token") (inr {| gu_login := "m2"; gu_type := Some "User" |}) "omc_new".
Lemma m2_has_an_account : is_some (accounts d_granted !! "m2") = true.
Proof. vm_compute. reflexivity. Qed.
Lemma a_reset_shuts_the_login_out_witness :
  exists w' : World ADB Reply, w_db w' = after registering 5000 d_reset /\ locked "m2" (w_now w') (w_db w').
Proof.
  destruct the_reset as (s & E & Hs).
  destruct (alone_from (not_of "m2") registering 5000 d_reset 4000) as (w' & H & Ew & _); [constructor|done|].
  exists w'. split; [exact Ew|].
  exact (a_reset_shuts_the_login_out digest_bytes "m1" "m2" "pk_m1" "0a" ["pk_m2"] 4000 d_granted d_reset s (world_at d_reset 4000) w' m2_has_an_account E Hs (world_db _ _) (world_now _ _) (world_idle _ _) H).
Defined.
(** A registration in flight when the reset lands. *)
Definition with_in_flight (p : door) (d : ADB) : World ADB Reply := {| w_db := d; w_now := 4000; w_running := [p] |}.
Lemma one_in_flight p d : a_door anyone p -> in_flight_ok (with_in_flight p d).
Proof. intros H. apply Forall_singleton. by apply any_door. Qed.
Lemma in_flight_db p d : w_db (with_in_flight p d) = d.
Proof. reflexivity. Qed.
Lemma adding_is_a_door : a_door anyone adding.
Proof. exact (ad_passkey _ _ _ _). Qed.
Lemma no_registration_outlives_a_reset_witness : has_passkey (after adding 5000 d_reset) "m2" = false /\ has_passkey (w_db (with_in_flight adding d_reset)) "m2" = false.
Proof.
  split; [vm_compute; reflexivity|]. destruct the_reset as (s & E & _).
  exact (proj1 (no_registration_outlives_a_reset "m1" "m2" "pk_m1" _ _ _ _ _ _ (with_in_flight adding d_reset) (with_in_flight adding d_reset) E
    (in_flight_db adding d_reset) (one_in_flight adding d_reset adding_is_a_door) (so_none _ _))).
Defined.

(** A request as it stands after so many of its statements, with the tables. *)
Fixpoint so_far {A} (n : nat) (p : prog ADB A) (now : Z) (d : ADB) : prog ADB A * ADB :=
  match n, p with S n, Step f k => so_far n (k now d) now (f now d) | _, _ => (p, d) end.
(** The lost device's grant, past its session's read when the reset lands: its code is made after, and swapped for a token that lives. *)
Definition granting_since : prog ADB Reply * ADB := so_far 3 granting 1000 (reset_asked two_people).
Definition d_meanwhile : ADB := after resetting 1500 granting_since.2.
Definition d_outlived : ADB := after swapping 2000 (after granting_since.1 1600 d_meanwhile).
Example a_grant_under_way_outlives_a_reset :
  (solo resetting 1500 granting_since.2).2 = Some (Done 200 [("reset", "m2"); ("confirmed_with", "pk_m1"); ("passkey", "pk_m2")])
  /\ session_of d_meanwhile "m2" = None /\ grants d_meanwhile = [] /\ map gr_id (live_grants "m2" 2000 d_outlived) = ["g_1"]
  /\ (solo drafting 3000 d_outlived).2 = Some (Done 201 [("draft", draft_name)]).
Proof. vm_compute. done. Qed.
(** And its new token, past its session's read: it takes the mark's place. *)
Definition making_a_token : door := signed_in_door (from_browser "m2") (fun c => handleNewToken c "omc_kept").
Definition making_since : prog ADB Reply * ADB := so_far 1 making_a_token 1000 (reset_asked two_people).
Definition d_kept : ADB := after making_since.1 1600 (after resetting 1500 making_since.2).
Example a_token_under_way_outlives_a_reset :
  session_of d_kept "m2" = None /\ option_map was_reset (accounts d_kept !! "m2") = Some false
  /\ option_map (option_map ca_login) (solo (contributorOf (with_token "omc_kept")) 2000 d_kept).2 = Some (Some "m2").
Proof. vm_compute. done. Qed.
